(* ===== verification/_CoqProject ===== *)
-Q . S2P
Prelude.v
Gf2.v
Mmio.v
Xmodem.v
Uart.v
Nand.v
NandProps.v
SplHw.v
Spl.v
S5pClock.v
S5pGpio.v
S5pTimer.v
S5pSerial.v
S5pNand.v
Lmb.v
Ctype.v
Crc.v
Div64.v
Vsprintf.v
VspProps.v
Circbuf.v
Memsize.v
Cstring.v
CstrProps.v
Hashtable.v
HashProps.v
Qsort.v
EnvText.v
EnvProps.v
EnvFlags.v
FlagProps.v
Env.v
EnvGet.v
NandUtil.v
NandUtilProps.v
EnvNand.v
EnvSave.v
Ram.v
NetPkt.v
NetPktProps.v
Tftp.v
TftpProps.v
Net.v
Bootp.v
Netloop.v
NetProps.v
ArpProps.v
BootpProps.v
Image.v
ImageProps.v
Atags.v
Command.v
CommandProps.v
Bootm.v
BootmProps.v
Readline.v
ReadlineProps.v
Parser.v
Bootmenu.v
Autoboot.v
