(* ===== verification/Prelude.v ===== *)
(** * Verification of the S5PV210 boot loader

    The repository holds U-Boot 2014.04 with the author's port to an S5PV210 (TQ210) board.  The
    program has two stages.  The first stage ([board/samsung/smdkv210/spl/]) runs from internal
    SRAM: it shows a menu on the serial port, receives a second stage over XMODEM, programs it
    into NAND flash with 8-bit ECC, or copies it from flash to RAM and jumps to it.  The second
    stage is U-Boot: drivers for clocks, timers, GPIO, serial ports and NAND, and the libraries
    they and the commands rest on.

    ** What models what (sources below [src/u-boot-2014.04/])

    - [Prelude]: machine integers with their wrap-around, the outcome type [res] (a result, a
      loop that is still waiting, or undefined behaviour), tactics, byte lists.
    - [Gf2]: linear functions on bit vectors, for the CRC.
    - [Mmio]: devices on the bus (class [Bus]), the state monad [io] with its log of accesses, plain
      registers ([RegBus]), and the ways to state what driver code does.
    - [Xmodem]: [spl/xmodem.c].  The state machine over an arbitrary client ([xm_ops], [XmLink]).
    - [Uart]: [spl/uart.c], with [uart_printf].
    - [Nand], [NandProps]: [spl/nand.c] against a chip with its ECC engine (classes [EccCodec],
      [NandChip], whose laws promise the results of the engine only to a driver that has waited for them); [NandSim] is a simulated chip.
    - [SplHw]: [spl/clock_c.c], [spl/tim4.c], [spl/led.c].
    - [Spl]: [spl/board_init_f_spl.c], the composition: buffers, download client, menu, main loop.
    - [S5pClock]: [arch/arm/cpu/armv7/s5pc1xx/clock.c].
    - [S5pGpio]: [drivers/gpio/s5p_gpio.c], [s5p-common/sromc.c], the board file.
    - [S5pTimer]: [s5p-common/pwm.c], [s5p-common/timer.c].
    - [S5pSerial]: [drivers/serial/serial_s5p.c] and the port selection of [drivers/serial/serial.c].
    - [S5pNand]: [drivers/mtd/nand/s5pv210_nand.c] and the command, waiting and page-write functions
      of [drivers/mtd/nand/nand_base.c], which call the board driver through its function table.
    - [Lmb]: [lib/lmb.c].  [Circbuf]: [lib/circbuf.c].  [Memsize]: [common/memsize.c].
    - [Ctype], [Cstring], [CstrProps]: [lib/ctype.c], [lib/string.c].
    - [Crc]: [lib/crc32.c], [lib/crc16.c], [lib/crc8.c], [lib/crc7.c].
    - [Div64]: [lib/div64.c].  [Vsprintf], [VspProps]: [lib/vsprintf.c], over any output with an
      [ADDCH]; the bounded and the unbounded one are two instances.
    - [Hashtable], [HashProps]: the hash table of [lib/hashtable.c], and that it is a finite map.
      [Qsort]: [lib/qsort.c].  [EnvText], [EnvProps]: export and import of [lib/hashtable.c].
    - [EnvFlags], [FlagProps]: [common/env_attr.c], [common/env_flags.c], [common/env_callback.c].
    - [Env], [EnvGet]: [common/env_common.c] and the variables of [common/cmd_nvedit.c].
    - [NandUtil], [NandUtilProps]: [drivers/mtd/nand/nand_util.c] over an MTD device (classes [Mtd],
      [MtdLaws]; [SimMtd] is a simulated one).  [EnvNand], [EnvSave]: [common/env_nand.c].
    - [NetPkt], [NetPktProps]: addresses, checksum and headers of [include/net.h], [lib/net_utils.c],
      [net/eth.c] and [net/net.c].  [Tftp], [TftpProps]: [net/tftp.c]; what the client asks of the
      network code is a list of requests.  [Net]: the state of [net/net.c] with [net/arp.c], which carries the
      requests out, on the ring of devices of [net/eth.c].  [Bootp]: [net/bootp.c] on that state.  [Netloop]: reception
      and the loop of [net/net.c], and the commands of [common/cmd_net.c].  [NetProps], [ArpProps], [BootpProps]: their theorems.
    - [Ram]: bytes and words in memory, for the files that read or write it at computed addresses.
    - [Image], [ImageProps]: boot images, [include/image.h] and [common/image.c], and the tool that makes
      them, [tools/mkimage.c] and [tools/default_image.c].
    - [Atags]: the list of parameters for the kernel, [arch/arm/lib/bootm.c] and [asm/setup.h].
    - [Bootm], [BootmProps]: [common/cmd_bootm.c] and the start of Linux in [arch/arm/lib/bootm.c], on the
      variables of [Env] and the memory blocks of [Lmb].
    - [Command], [CommandProps]: the table of commands, help and completion, [common/command.c].
    - [Readline], [ReadlineProps]: the line editor with its history, and words, [common/main.c].
    - [Parser]: the built-in parser and the main loop of [common/main.c].  [Bootmenu]: [common/menu.c],
      [common/cmd_bootmenu.c].  [Autoboot]: the boot delay of [common/main.c].

    Two simplifications are kept.  The callbacks of environment variables only accept or refuse a change: what [on_flags]
    and [on_callbacks] do to the table is modelled ([EnvFlags]), but not called from inside [hsearch_r].  And the timestamps of the XMODEM machine
    are subtracted as the processor does it, with wrap-around, where C leaves the overflow open.

    State is passed explicitly: the device with its log in [io], the C structures and globals as
    records.  Functions keep the names of the source; a loop of the source that is a definition of
    its own has the name of its function with a suffix or a descriptive name.

    ** What the theorems show

    - Downloads: the XMODEM machine never stores outside its frame and moves only along the
      edges of its diagram; its packet check is the protocol's; a session delivers exactly the
      sent packets; it gives up in bounded time when the sender is silent; a whole download leaves
      the received bytes in flash.
    - Flash: writing, erasing, reading, error correction and the refusal of misaligned addresses in the
      first stage; a page written by the second stage is what the first stage reads back, if the ECC engine is quick enough
      for a driver that does not wait for its codes ([second_stage_page_boots]); on a slow one it is not ([slow_engine_race]).
    - Menu: the automatic boot happens, not before its five seconds, and copies the second stage.
    - Drivers: baud rate divisors, GPIO isolation, PWM set-up, elapsed time across counter
      reloads, termination of delays, PLL arithmetic, what serial output reaches which port.
    - Libraries: the memory-block tables keep their invariant and cover what was added; allocations
      lie in free memory; the ring buffer refines a bounded queue that drops its oldest bytes; RAM
      sizing finds the size of a mirrored RAM; the memory and string routines against lists and
      pointwise specifications, with the word-wise versions equal to the byte-wise ones; the
      table-driven checksums are polynomial division, and both stages compute the same CRC-16;
      64-bit division is right; printed numbers are read back; the bounded formatter cuts the text
      of the unbounded one.
    - Environment: the open-addressing hash table is a finite map under search, entry and deletion;
      sorting sorts; export and import are inverse; values keep the types of their variables whatever
      is entered or imported, and protected variables stay; what is set is read, numbers included,
      before the import as after it; an area of the flash keeps what is written around its bad
      blocks; and a saved environment is there after the next boot, which composes the table, the
      text format, the checksum and the flash.
    - Network: the header checksum is that of RFC 1071; what one machine sends another receives; the
      Ethernet address of a peer is found before the first packet goes out; a TFTP client stores the
      file whatever the number of its blocks; and a download runs through the whole loop, from the
      frames the device delivers to the memory and the variables the commands read.  A board without an address
      asks for one by BOOTP, again while nobody answers, and takes over what the answer says, from the frame to the variables.
    - Booting: every component of an image the host tool makes is found where the tool put it; an image with
      a damaged header or damaged data is refused; the kernel reads from the list of parameters exactly what
      the boot loader knows; [bootm] on the file of the tool ends in the kernel, with its bytes, its
      parameters and its registers in place; and the steps of a boot by hand are done in order, each once.
    - Console: the line editor refines a text with a cursor and a history, and the terminal shows it; no input
      makes it leave its buffers; the tab key completes commands; the built-in parser returns and replaces macros; the
      boot menu runs the entry the user has moved to, or the first one after the delay; the window of keys that
      stop the automatic boot is as good as everything that was typed.
    - Where the code does less than it means to, the theorem says so (for example
      [slow_engine_race], [spl_download_overflows], [udp_length_unchecked], [vendor_area_overrun], [late_block_misplaced], [lmb_reserve_after_last_free], [strcmp_compares],
      [hsearch_r_loses_entry], [hexport_r_overflows], [unknown_os_overruns_table], [standalone_runs_twice],
      [dotted_completion_overreads], [empty_line_repeats_failures], [abortboot_without_keys_overruns]).

    ** Bounds and fuel

    A polling loop takes the number of polls it may spend; theorems hold for every number for which
    the device answers in time (a law of the device's class), and each class has an instance.  Loops
    over C strings take a number of rounds and the theorems ask only that it exceeds the length.
    The formatter's loop has one round more than the format has characters, and is proved to end.
    A probe of the hash table has as many rounds as it has slots, an import as many as the text has
    bytes, the loops over the flash as many as it has blocks, with one or two more to see the end;
    the theorems prove that they end; the start of a device tries each device of the ring once.  The
    network loop has no bound of its own: it runs over a list of turns, what the device and the clock
    do in each.  The vendor area of a BOOTP reply has not more options than bytes.  The table of sizes of an image and the list of parameters are walked with a number of
    rounds, and the theorems ask only that it exceeds the number of entries.
    Loops over the keyboard run over the list of what the console shows, and wait ([Hang]) at its end; the loops of the menu have more rounds
    than that list has entries, and the parser has as many as the command has bytes, which is proved to be enough.  [get_ram_size] uses 33 rounds for at most 31 halvings of a 32-bit size.  NAND addresses are below
    2^30, the reach of the five address cycles the drivers send.

    ** Not modelled

    The assembly start-up code, printing that has no effect on the state, the stdio registration of
    the serial ports, the MTD layer between the page functions and an area of the flash (it is the
    interface [Mtd]), bad-block tables, the command shell ([common/hush.c]), the commands that print or edit the
    environment, the driver of the Ethernet chip, device trees and the images built on them, file systems,
    vendored compression and cryptography, and the code of
    other boards.  The boot ROM's page reader, [malloc], decompression, the NFS client, the program that is started, the start functions of
    other systems than Linux and the hardware are parameters.

    ** Plan

    What would come next: the multi-page operations of the NAND core as an instance of [MtdLaws], the NFS client as
    an instance of the parameter of the network loop, the shell as an implementation of what the boot menu calls [run_command], and the commands
    of [common/cmd_nvedit.c] that export and import the environment. *)
From Stdlib Require Export ZArith Lia Btauto.
From stdpp Require Export prelude gmap list strings pretty.

#[export] Set Default Goal Selector "!".
Global Open Scope Z_scope.

(** ** Machine integers

    A C integer of width [w] is a [Z]; every place where the source truncates
    writes the truncation out with one of these functions.  [unsigned char],
    [unsigned short], [unsigned int]/[unsigned long] and [u64] are [u8], [u16],
    [u32] and [u64]; [signed char], [short] and [int]/[long] are [s8], [s16] and
    [s32] (the target is a 32-bit ARM, where [long] has 32 bits). *)
Definition wrap (w x : Z) : Z := x mod 2 ^ w.
Abbreviation u8 := (wrap 8).
Abbreviation u16 := (wrap 16).
Abbreviation u32 := (wrap 32).
Abbreviation u64 := (wrap 64).

Definition swrap (w x : Z) : Z := (x + 2 ^ (w - 1)) mod 2 ^ w - 2 ^ (w - 1).
Abbreviation s8 := (swrap 8).
Abbreviation s16 := (swrap 16).
Abbreviation s32 := (swrap 32).

(** Bit operations as C writes them. *)
Declare Scope c_scope.
Delimit Scope c_scope with C.
Notation "x .& y" := (Z.land x y) (at level 40, left associativity) : c_scope.
Notation "x .| y" := (Z.lor x y) (at level 50, left associativity) : c_scope.
Notation "x .^ y" := (Z.lxor x y) (at level 50, left associativity) : c_scope.
Notation "x .<< n" := (Z.shiftl x n) (at level 34, left associativity) : c_scope.
Notation "x .>> n" := (Z.shiftr x n) (at level 34, left associativity) : c_scope.
(** [~x] on a 32-bit unsigned operand. *)
Notation "~32 x" := (wrap 32 (Z.lnot x)) (at level 30, right associativity) : c_scope.
Global Open Scope c_scope.

(** C's [x & m] used as a condition. *)
Definition tst (x m : Z) : bool := negb (Z.land x m =? 0).

Lemma wrap_range w x : 0 <= w -> 0 <= wrap w x < 2 ^ w.
Proof. intros ?. unfold wrap. apply Z.mod_pos_bound. lia. Qed.

Lemma wrap_small w x : 0 <= x < 2 ^ w -> wrap w x = x.
Proof. intros ?. unfold wrap. by apply Z.mod_small. Qed.

Lemma wrap_idem w x : wrap w (wrap w x) = wrap w x.
Proof. unfold wrap. apply Zmod_mod. Qed.

Lemma wrap_add_l w x y : wrap w (wrap w x + y) = wrap w (x + y).
Proof. unfold wrap. apply Zplus_mod_idemp_l. Qed.

Lemma wrap_add_r w x y : wrap w (x + wrap w y) = wrap w (x + y).
Proof. unfold wrap. apply Zplus_mod_idemp_r. Qed.

Lemma swrap_small w x : 0 < w -> - 2 ^ (w - 1) <= x < 2 ^ (w - 1) -> swrap w x = x.
Proof.
  intros Hw Hx. unfold swrap.
  assert (2 ^ w = 2 * 2 ^ (w - 1)) as E.
  { replace w with (1 + (w - 1)) at 1 by lia. rewrite Z.pow_add_r by lia. lia. }
  rewrite Z.mod_small by lia. lia.
Qed.

Lemma swrap_range w x : 0 < w -> - 2 ^ (w - 1) <= swrap w x < 2 ^ (w - 1).
Proof.
  intros Hw. unfold swrap.
  assert (2 ^ w = 2 * 2 ^ (w - 1)) as E.
  { replace w with (1 + (w - 1)) at 1 by lia. rewrite Z.pow_add_r by lia. lia. }
  pose proof (Z.mod_pos_bound (x + 2 ^ (w - 1)) (2 ^ w)). lia.
Qed.

Lemma testbit_wrap w x i : 0 <= w -> Z.testbit (wrap w x) i = (i <? w) && Z.testbit x i.
Proof.
  intros Hw. unfold wrap. destruct (Z.ltb_spec i w).
  - by rewrite Z.mod_pow2_bits_low.
  - by rewrite Z.mod_pow2_bits_high by lia.
Qed.

Lemma testbit_if (b : bool) x y i :
  Z.testbit (if b then x else y) i = if b then Z.testbit x i else Z.testbit y i.
Proof. by destruct b. Qed.

Lemma testbit_high w x i : 0 <= x < 2 ^ w -> w <= i -> Z.testbit x i = false.
Proof.
  intros Hx Hi. destruct (decide (w < 0)).
  - rewrite Z.pow_neg_r in Hx by done. lia.
  - rewrite <- (Z.mod_small x (2 ^ w)) by done. apply Z.mod_pow2_bits_high. lia.
Qed.

(** Two [w]-bit numbers with the same low [w] bits are equal. *)
Lemma bits_eq w x y :
  0 <= x < 2 ^ w -> 0 <= y < 2 ^ w ->
  (forall i, 0 <= i < w -> Z.testbit x i = Z.testbit y i) -> x = y.
Proof.
  intros Hx Hy H. apply Z.bits_inj'. intros i Hi.
  destruct (Z.lt_ge_cases i w); [by apply H|].
  by rewrite !(testbit_high w).
Qed.

(** A nonnegative number all of whose bits from [w] on are clear fits [w] bits. *)
Lemma bits_range w x :
  0 <= w -> (forall i, w <= i -> Z.testbit x i = false) -> 0 <= x < 2 ^ w.
Proof.
  intros Hw H.
  assert (x = wrap w x) as ->.
  { apply Z.bits_inj'. intros i Hi. rewrite testbit_wrap by done.
    destruct (Z.ltb_spec i w); [done|]. by apply H. }
  by apply wrap_range.
Qed.

Lemma lxor_range w x y : 0 <= x < 2 ^ w -> 0 <= y < 2 ^ w -> 0 <= Z.lxor x y < 2 ^ w.
Proof.
  intros Hx Hy. destruct (decide (w < 0)); [by rewrite Z.pow_neg_r in * by done; lia|].
  apply bits_range; [lia|]. intros i Hi. by rewrite Z.lxor_spec, !(testbit_high w).
Qed.

Lemma lor_range w x y : 0 <= x < 2 ^ w -> 0 <= y < 2 ^ w -> 0 <= Z.lor x y < 2 ^ w.
Proof.
  intros Hx Hy. destruct (decide (w < 0)); [by rewrite Z.pow_neg_r in * by done; lia|].
  apply bits_range; [lia|]. intros i Hi. by rewrite Z.lor_spec, !(testbit_high w).
Qed.

Lemma land_range w x y : 0 <= y < 2 ^ w -> 0 <= Z.land x y < 2 ^ w.
Proof.
  intros Hy. destruct (decide (w < 0)); [by rewrite Z.pow_neg_r in * by done; lia|].
  apply bits_range; [lia|]. intros i Hi.
  by rewrite Z.land_spec, (testbit_high w y), andb_false_r.
Qed.

(** ** Outcomes of C code

    A call returns ([Ok]), never returns because a polling loop is still waiting
    when its fuel runs out ([Hang]), or performs an access the language leaves
    undefined, such as a store outside an array ([Ub]). *)
Inductive res (A : Type) : Type :=
  | Ok (a : A)
  | Hang
  | Ub.
Arguments Ok {A} a.
Arguments Hang {A}.
Arguments Ub {A}.

Definition res_bind {A B} (m : res A) (f : A -> res B) : res B :=
  match m with Ok a => f a | Hang => Hang | Ub => Ub end.

Definition res_of_option {A} (o : option A) : res A :=
  match o with Some a => Ok a | None => Ub end.

Declare Scope res_scope.
Delimit Scope res_scope with res.
Notation "'let*' p := m 'in' f" := (res_bind m (fun p => f))
  (at level 10, p pattern, m at level 200, f at level 200) : res_scope.
Global Open Scope res_scope.

Lemma res_bind_assoc {A B C} (m : res A) (f : A -> res B) (g : B -> res C) :
  res_bind (res_bind m f) g = res_bind m (fun a => res_bind (f a) g).
Proof. by destruct m. Qed.

Lemma res_bind_ok {A B} (m : res A) (f : A -> res B) b :
  res_bind m f = Ok b <-> exists a, m = Ok a /\ f a = Ok b.
Proof. split; [destruct m; simpl; eauto; done|]. by intros (a & -> & Ha). Qed.

(** ** Tactics and hint databases *)

(** [zauto]: the arithmetic side conditions of this development. *)
Create HintDb machine.
#[export] Hint Resolve wrap_range lxor_range lor_range land_range : machine.
Create Rewrite HintDb machine_rw.
#[export] Hint Rewrite wrap_idem wrap_add_l wrap_add_r : machine_rw.

(** Evaluate [Z.testbit] through every bit operation. *)
Ltac push_testbit :=
  repeat first
    [ rewrite Z.lxor_spec | rewrite Z.land_spec | rewrite Z.lor_spec
    | rewrite testbit_wrap by lia | rewrite Z.shiftl_spec by lia
    | rewrite Z.shiftr_spec by lia | rewrite testbit_if | rewrite Z.lnot_spec by lia ].

(** Split [H : Ok _ = Ok _] and the like into the equations they contain. *)
Ltac inv_res :=
  repeat match goal with
  | H : res_bind _ _ = Ok _ |- _ => apply res_bind_ok in H as (? & ? & H)
  | H : Ok _ = Ok _ |- _ => injection H as H
  | H : Ok _ = Hang |- _ => discriminate H
  | H : Ok _ = Ub |- _ => discriminate H
  | H : Hang = Ok _ |- _ => discriminate H
  | H : Ub = Ok _ |- _ => discriminate H
  end; simplify_eq/=.

(** Case analysis on the condition of the outermost [if] of the goal. *)
Ltac case_if := let E := fresh "Hif" in
  match goal with |- context [if ?b then _ else _] => destruct b eqn:E end.

(** Closed decidable facts, such as membership in a literal list. *)
Ltac in_list := apply (bool_decide_unpack _); reflexivity.

(** ** Byte lists *)

(** A list of [unsigned char] values. *)
Definition byte_list (l : list Z) : Prop := Forall (fun b => 0 <= b < 256) l.

(** Storing a block of bytes into an array: undefined outside its bounds. *)
Definition store_block (arr : list Z) (off : nat) (bs : list Z) : option (list Z) :=
  if decide (off + length bs <= length arr)%nat then Some (list_inserts off bs arr) else None.

Lemma store_block_length arr off bs arr' :
  store_block arr off bs = Some arr' -> length arr' = length arr.
Proof. unfold store_block. case_decide; intros; simplify_eq. apply length_inserts. Qed.

Lemma store_block_nil arr off : (off <= length arr)%nat -> store_block arr off [] = Some arr.
Proof. intros. unfold store_block. rewrite decide_True by (simpl; lia). done. Qed.

(** Appending a byte to the filled prefix of an array. *)
Lemma store_block_prefix arr off b bs :
  take off arr = bs -> (off < length arr)%nat ->
  exists arr', store_block arr off [b] = Some arr' /\ take (S off) arr' = bs ++ [b] /\
    length arr' = length arr.
Proof.
  intros Htake Hoff. unfold store_block. rewrite decide_True by (simpl; lia). simpl.
  exists (<[off:=b]> arr). split_and!; [done| |by rewrite length_insert].
  rewrite (take_S_r _ _ b) by by apply list_lookup_insert_eq.
  rewrite take_insert_ge by lia. by rewrite Htake.
Qed.

(** Storing a block right behind the filled part of an array. *)
Lemma list_inserts_app (pre bs rest : list Z) :
  (length bs <= length rest)%nat ->
  list_inserts (length pre) bs (pre ++ rest) = pre ++ bs ++ drop (length bs) rest.
Proof.
  intros Hl. rewrite <- (take_drop (length bs) rest) at 1.
  replace (length pre) with (length pre + 0)%nat by lia. rewrite list_inserts_app_r. f_equal.
  rewrite list_inserts_0_r; [done|]. rewrite length_take. lia.
Qed.

Lemma store_block_app (pre bs rest : list Z) :
  (length bs <= length rest)%nat ->
  store_block (pre ++ rest) (length pre) bs = Some (pre ++ bs ++ drop (length bs) rest).
Proof.
  intros Hl. unfold store_block. rewrite decide_True by (rewrite length_app; lia).
  by rewrite list_inserts_app.
Qed.

(** The bytes of a 32-bit number in the order of this machine. *)
Definition le32 (x : Z) : list Z := map (fun i => (x .>> (8 * i)) .& 0xFF) [0; 1; 2; 3].
Definition of_le32 (l : list Z) : Z := foldr (fun b x => b + 256 * x) 0 l.
Lemma le32_length x : length (le32 x) = 4%nat.
Proof. done. Qed.
Lemma le32_of x : 0 <= x < 2 ^ 32 -> of_le32 (le32 x) = x.
Proof.
  intros Hx. unfold le32, of_le32. cbn [map foldr]. change 0xFF with (Z.ones 8).
  rewrite !Z.land_ones, !Z.shiftr_div_pow2 by lia. simpl Z.pow. rewrite Z.div_1_r. Z.div_mod_to_equations. lia.
Qed.

(** ** C strings: the bytes before the terminating NUL. *)
Definition byte_of_ascii (c : Ascii.ascii) : Z := Z.of_N (Ascii.N_of_ascii c).
Fixpoint cstr (s : string) : list Z :=
  match s with
  | EmptyString => []
  | String c s => byte_of_ascii c :: cstr s
  end.
(** The string at the start of an array. *)
Fixpoint c_string (l : list Z) : list Z :=
  match l with
  | [] => []
  | b :: l => if b =? 0 then [] else b :: c_string l
  end.
