(* ===== verification/Gf2.v ===== *)
(** * Bit-linear functions

    The checksum loops of the boot loader are linear over GF(2): they commute
    with exclusive or.  Two such functions that agree on the powers of two below
    [2 ^ w] agree on every [w]-bit argument, so an equation between them is a
    finite computation on [w] basis vectors ([linear_ext]). *)
From S2P Require Import Prelude.

(** [f] commutes with exclusive or. *)
Class XorLinear (f : Z -> Z) : Prop := xor_linear x y : f (x .^ y) = f x .^ f y.

#[global] Instance linear_id : XorLinear (fun x => x).
Proof. done. Qed.

#[global] Instance linear_wrap w f : XorLinear f -> XorLinear (fun x => wrap (Z.pos w) (f x)).
Proof.
  intros Hf x y. rewrite (Hf x y). apply Z.bits_inj'. intros i Hi. push_testbit.
  by destruct (i <? Z.pos w).
Qed.

#[global] Instance linear_land m f : XorLinear f -> XorLinear (fun x => f x .& m).
Proof.
  intros Hf x y. rewrite (Hf x y). apply Z.bits_inj'. intros i Hi. push_testbit. btauto.
Qed.

#[global] Instance linear_shiftl n f : XorLinear f -> XorLinear (fun x => f x .<< n).
Proof. intros Hf x y. by rewrite (Hf x y), Z.shiftl_lxor. Qed.

#[global] Instance linear_shiftr n f : XorLinear f -> XorLinear (fun x => f x .>> n).
Proof. intros Hf x y. by rewrite (Hf x y), Z.shiftr_lxor. Qed.

#[global] Instance linear_lxor f g :
  XorLinear f -> XorLinear g -> XorLinear (fun x => f x .^ g x).
Proof.
  intros Hf Hg x y. rewrite (Hf x y), (Hg x y). apply Z.bits_inj'. intros i Hi.
  push_testbit. btauto.
Qed.

(** A constant selected by one bit of the argument. *)
#[global] Instance linear_testbit n c f :
  XorLinear f -> XorLinear (fun x => if Z.testbit (f x) n then c else 0).
Proof.
  intros Hf x y. rewrite (Hf x y), Z.lxor_spec.
  destruct (Z.testbit (f x) n), (Z.testbit (f y) n); simpl;
    by rewrite ?Z.lxor_0_r, ?Z.lxor_nilpotent.
Qed.

Lemma linear_0 f : XorLinear f -> f 0 = 0.
Proof. intros Hf. rewrite <- (Z.lxor_nilpotent 0), (Hf 0 0). apply Z.lxor_nilpotent. Qed.

Lemma linear_iter n f : XorLinear f -> XorLinear (Nat.iter n f).
Proof.
  intros Hf. induction n as [|n IH]; intros x y; simpl; [done|]. by rewrite (IH x y), (Hf _ _).
Qed.

Lemma linear_compose f g : XorLinear f -> XorLinear g -> XorLinear (fun x => f (g x)).
Proof. intros Hf Hg x y. by rewrite (Hg x y), (Hf _ _). Qed.

(** Peeling the top bit off a [S n]-bit number. *)
Lemma split_top_bit n x :
  0 <= x < 2 ^ Z.of_nat (S n) ->
  x = (wrap (Z.of_nat n) x) .^ (if Z.testbit x (Z.of_nat n) then 2 ^ Z.of_nat n else 0).
Proof.
  intros Hx. apply Z.bits_inj'. intros i Hi. push_testbit. rewrite Z.testbit_0_l.
  rewrite Z.pow2_bits_eqb by lia.
  destruct (Z.ltb_spec i (Z.of_nat n)).
  - assert ((Z.of_nat n =? i) = false) as -> by lia. simpl.
    by destruct (Z.testbit x (Z.of_nat n)), (Z.testbit x i).
  - destruct (Z.eqb_spec (Z.of_nat n) i) as [->|].
    + simpl. by destruct (Z.testbit x i).
    + rewrite (testbit_high (Z.of_nat (S n)) x i) by lia.
      by destruct (Z.testbit x (Z.of_nat n)).
Qed.

(** Linear functions are determined by their values on the powers of two. *)
Lemma linear_ext n f g :
  XorLinear f -> XorLinear g ->
  (forall k, (k < n)%nat -> f (2 ^ Z.of_nat k) = g (2 ^ Z.of_nat k)) ->
  forall x, 0 <= x < 2 ^ Z.of_nat n -> f x = g x.
Proof.
  intros Hf Hg. induction n as [|n IH]; intros Hb x Hx.
  - assert (x = 0) as -> by (simpl in Hx; lia). by rewrite !linear_0.
  - rewrite (split_top_bit n x Hx), (Hf _ _), (Hg _ _). f_equal.
    + apply IH; [intros; apply Hb; lia|]. apply wrap_range. lia.
    + case_if; [apply Hb; lia|]. by rewrite !linear_0.
Qed.

(** The same with the finite check as a computation. *)
Definition basis_agree (n : nat) (f g : Z -> Z) : bool :=
  forallb (fun k => f (2 ^ Z.of_nat k) =? g (2 ^ Z.of_nat k)) (seq 0 n).

Lemma linear_ext_check n f g :
  XorLinear f -> XorLinear g -> basis_agree n f g = true ->
  forall x, 0 <= x < 2 ^ Z.of_nat n -> f x = g x.
Proof.
  intros Hf Hg Hc. apply linear_ext; [done..|]. intros k Hk.
  unfold basis_agree in Hc. rewrite forallb_forall in Hc.
  specialize (Hc k). rewrite in_seq in Hc. lia.
Qed.
