(* ===== verification/Mmio.v ===== *)
(** * Memory-mapped input and output

    Every driver of the boot loader talks to the hardware through loads and
    stores at fixed addresses.  The hardware is not part of the sources: it is a
    parameter [D] with the class [Bus], which says what a load returns and how
    loads and stores change the device.  A driver function is a computation in
    the state monad [io D]; the state keeps, next to the device, the log of all
    bus accesses, in order, so that theorems can speak of the exact sequence of
    register accesses.  Polling loops take the number of polls they may spend as
    a parameter and yield [Hang] when it is used up. *)
From S2P Require Import Prelude.

Class Bus (D : Type) := {
  dev_val : Z -> D -> Z;
  dev_rd : Z -> D -> D;
  dev_wr : Z -> Z -> D -> D
}.

Inductive access :=
  | Rd (addr val : Z)
  | Wr (addr val : Z).

#[global] Instance access_eq_dec : EqDecision access.
Proof. solve_decision. Defined.

Record hw (D : Type) := Hw { dev : D; bus_log : list access }.
Arguments Hw {D} _ _.
Arguments dev {D} _.
Arguments bus_log {D} _.

Definition io (D A : Type) : Type := hw D -> res (A * hw D).

Definition io_ret {D A} (a : A) : io D A := fun h => Ok (a, h).
Definition io_bind {D A B} (m : io D A) (f : A -> io D B) : io D B :=
  fun h => res_bind (m h) (fun r => f r.1 r.2).
Definition io_lift {D A} (r : res A) : io D A := fun h => res_bind r (fun a => Ok (a, h)).

Declare Scope io_scope.
Delimit Scope io_scope with io.
Bind Scope io_scope with io.
Notation "x <- m ;; f" := (io_bind m (fun x => f))
  (at level 100, m at next level, right associativity) : io_scope.
Notation "m ;;; f" := (io_bind m (fun _ => f))
  (at level 100, right associativity) : io_scope.
Global Open Scope io_scope.

(** [for (i = 0; i < n; i++) f(i)] *)
Fixpoint io_for {D} (i n : nat) (f : nat -> io D unit) : io D unit :=
  match n with
  | O => io_ret tt
  | S n => f i ;;; io_for (S i) n f
  end.

(** The same with one result per round, collected in order. *)
Fixpoint io_collect {D A} (i n : nat) (f : nat -> io D A) : io D (list A) :=
  match n with
  | O => io_ret []
  | S n => a <- f i ;; l <- io_collect (S i) n f ;; io_ret (a :: l)
  end.

Fixpoint io_each {D A} (l : list A) (f : A -> io D unit) : io D unit :=
  match l with
  | [] => io_ret tt
  | a :: l => f a ;;; io_each l f
  end.

Section Access.
Context {D : Type} {B : Bus D}.

(** 32-bit and 8-bit volatile accesses. *)
Definition mmio_read (a : Z) : io D Z := fun h =>
  let v := u32 (dev_val a (dev h)) in
  Ok (v, Hw (dev_rd a (dev h)) (bus_log h ++ [Rd a v])).
Definition mmio_write (a v : Z) : io D unit := fun h =>
  Ok (tt, Hw (dev_wr a (u32 v) (dev h)) (bus_log h ++ [Wr a (u32 v)])).
Definition mmio_read8 (a : Z) : io D Z := fun h =>
  let v := u8 (dev_val a (dev h)) in
  Ok (v, Hw (dev_rd a (dev h)) (bus_log h ++ [Rd a v])).
Definition mmio_write8 (a v : Z) : io D unit := fun h =>
  Ok (tt, Hw (dev_wr a (u8 v) (dev h)) (bus_log h ++ [Wr a (u8 v)])).

(** [REG |= m], [REG &= m], [REG ^= m]: a load and a store. *)
Definition mmio_or (a m : Z) : io D unit := v <- mmio_read a ;; mmio_write a (v .| m).
Definition mmio_and (a m : Z) : io D unit := v <- mmio_read a ;; mmio_write a (v .& m).
Definition mmio_xor (a m : Z) : io D unit := v <- mmio_read a ;; mmio_write a (v .^ m).

(** [while (!(REG & m));] with at most [fuel] loads. *)
Fixpoint wait_set (fuel : nat) (a m : Z) : io D unit :=
  match fuel with
  | O => fun _ => Hang
  | S fuel => v <- mmio_read a ;; if tst v m then io_ret tt else wait_set fuel a m
  end.

(** [while (REG & m);] *)
Fixpoint wait_clear (fuel : nat) (a m : Z) : io D unit :=
  match fuel with
  | O => fun _ => Hang
  | S fuel => v <- mmio_read a ;; if tst v m then wait_clear fuel a m else io_ret tt
  end.
End Access.

(** ** Reading a log *)

(** The values stored to address [a], in order. *)
Definition stores_to (a : Z) (log : list access) : list Z :=
  omap (fun e => match e with Wr b v => if decide (b = a) then Some v else None | _ => None end) log.

(** The stores among the accesses, in order. *)
Definition stores (log : list access) : list (Z * Z) :=
  omap (fun e => match e with Wr b v => Some (b, v) | _ => None end) log.

Lemma stores_to_app a l1 l2 : stores_to a (l1 ++ l2) = stores_to a l1 ++ stores_to a l2.
Proof. apply omap_app. Qed.

Lemma stores_app l1 l2 : stores (l1 ++ l2) = stores l1 ++ stores l2.
Proof. apply omap_app. Qed.

(** ** Running computations *)

(** [h] evolves to [h'] by accesses that store exactly [ws]. *)
Definition wrote {D} (h h' : hw D) (ws : list (Z * Z)) : Prop :=
  stores (bus_log h') = stores (bus_log h) ++ ws.

Lemma wrote_nil {D} (h : hw D) : wrote h h [].
Proof. unfold wrote. by rewrite app_nil_r. Qed.

Lemma wrote_trans {D} (h1 h2 h3 : hw D) ws1 ws2 :
  wrote h1 h2 ws1 -> wrote h2 h3 ws2 -> wrote h1 h3 (ws1 ++ ws2).
Proof. unfold wrote. intros H1 H2. by rewrite H2, H1, app_assoc. Qed.

(** [m] returns from [h], and its result satisfies [P]. *)
Definition runs {D A} (m : io D A) (h : hw D) (P : A -> hw D -> Prop) : Prop :=
  exists a h', m h = Ok (a, h') /\ P a h'.

Lemma runs_ret {D A} (a : A) (h : hw D) (P : A -> hw D -> Prop) : P a h -> runs (io_ret a) h P.
Proof. intros HP. by exists a, h. Qed.

Lemma runs_bind {D A B} (m : io D A) (f : A -> io D B) h (P : A -> hw D -> Prop) Q :
  runs m h P -> (forall a h', P a h' -> runs (f a) h' Q) -> runs (io_bind m f) h Q.
Proof.
  intros (a & h' & Hm & HP) Hf. destruct (Hf a h' HP) as (b & h'' & Hb & HQ).
  exists b, h''. split; [|done]. unfold io_bind. rewrite Hm. simpl. done.
Qed.

Lemma runs_mono {D A} (m : io D A) h (P Q : A -> hw D -> Prop) :
  runs m h P -> (forall a h', P a h' -> Q a h') -> runs m h Q.
Proof. intros (a & h' & Hm & HP) Himp. exists a, h'. auto. Qed.

Lemma io_bind_assoc {D A B C} (m : io D A) (f : A -> io D B) (g : B -> io D C) h :
  io_bind (io_bind m f) g h = io_bind m (fun a => io_bind (f a) g) h.
Proof. unfold io_bind. by rewrite res_bind_assoc. Qed.

Section AccessLemmas.
Context {D : Type} {B : Bus D}.

Lemma wrote_read a h h' v :
  mmio_read a h = Ok (v, h') -> wrote h h' [] /\ v = u32 (dev_val a (dev h)) /\
  dev h' = dev_rd a (dev h).
Proof.
  intros H. injection H as <- <-. unfold wrote. simpl. rewrite stores_app. simpl. by split.
Qed.

(** A device that lets every wait for the bits [m] of register [a] end within
    [fuel] loads. *)
Definition waits (fuel : nat) (a m : Z) (I : D -> Prop) : Prop :=
  forall h, I (dev h) ->
    exists h', wait_set fuel a m h = Ok (tt, h') /\ wrote h h' [] /\ I (dev h').
End AccessLemmas.

(** ** Plain registers

    A register file: loads return what was last stored and change nothing.  The
    configuration registers of the GPIO, clock and PWM blocks are documented to
    behave this way. *)
Class RegBus (D : Type) {B : Bus D} := {
  reg : Z -> D -> Z;
  reg_val a d : u32 (dev_val a d) = reg a d;
  reg_rd a b d : reg a (dev_rd b d) = reg a d;
  reg_wr a b v d : 0 <= v < 2 ^ 32 -> reg a (dev_wr b v d) = if decide (a = b) then v else reg a d
}.

Lemma reg_range {D} {B : Bus D} {R : RegBus D} a d : 0 <= reg a d < 2 ^ 32.
Proof. rewrite <- reg_val. apply wrap_range. lia. Qed.

(** The register file of a simulated device. *)
Module RegFile.
Definition regs := gmap Z Z.
#[global] Instance regfile_bus : Bus regs := {|
  dev_val a d := default 0 ((d : gmap Z Z) !! a);
  dev_rd a d := d;
  dev_wr a v d := <[a := v]> (d : gmap Z Z)
|}.

#[global] Instance regfile_regs : RegBus regs.
Proof.
  refine {| reg := fun a (d : regs) => u32 (default 0 ((d : gmap Z Z) !! a)) |}.
  - done.
  - done.
  - intros a b v d Hv. simpl. destruct (decide (a = b)) as [->|Hne].
    + rewrite lookup_insert_eq. simpl. by apply wrap_small.
    + by rewrite lookup_insert_ne.
Defined.
End RegFile.

(** ** Loads leave no trace among the stores *)
Section Quiet.
Context {D : Type} {B : Bus D}.

Lemma wait_set_stores fuel a m h h' :
  wait_set fuel a m h = Ok (tt, h') -> stores (bus_log h') = stores (bus_log h).
Proof.
  revert h. induction fuel as [|fuel IH]; intros h; simpl; [done|].
  unfold io_bind. simpl. destruct (tst _ _).
  - intros [= <-]. simpl. rewrite stores_app. simpl. by rewrite app_nil_r.
  - intros H%IH. rewrite H. simpl. rewrite stores_app. simpl. by rewrite app_nil_r.
Qed.

Lemma wait_clear_stores fuel a m h h' :
  wait_clear fuel a m h = Ok (tt, h') -> stores (bus_log h') = stores (bus_log h).
Proof.
  revert h. induction fuel as [|fuel IH]; intros h; simpl; [done|].
  unfold io_bind. simpl. destruct (tst _ _).
  - intros H%IH. rewrite H. simpl. rewrite stores_app. simpl. by rewrite app_nil_r.
  - intros [= <-]. simpl. rewrite stores_app. simpl. by rewrite app_nil_r.
Qed.
End Quiet.

(** The values stored to [a], from the list of all stores. *)
Lemma stores_to_stores a log :
  stores_to a log = omap (fun p : Z * Z => if decide (p.1 = a) then Some p.2 else None) (stores log).
Proof.
  induction log as [|[b v|b v] log IH]; simpl; [done|done|]. case_decide; simpl; by rewrite IH.
Qed.

(** ** The effect of driver code on plain registers

    On a register file a computation is described by what it does to the register
    contents as a whole: [does m f] says that [m] returns and turns contents [R]
    into [f R] (as functions, up to pointwise equality). *)
Definition contents := Z -> Z.
Definition same (R R' : contents) : Prop := forall a, R a = R' a.

#[global] Instance same_equiv : Equivalence same.
Proof. split; unfold same; [intros R a|intros R R' H a|intros R1 R2 R3 H1 H2 a]; congruence. Qed.

Definition upd (a v : Z) (R : contents) : contents := fun b => if decide (b = a) then v else R b.

#[global] Instance upd_proper a v : Proper (same ==> same) (upd a v).
Proof. intros R R' H b. unfold upd. case_decide; [done|apply H]. Qed.

Lemma upd_eq a v R : upd a v R a = v.
Proof. unfold upd. by rewrite decide_True. Qed.
Lemma upd_ne a b v R : b <> a -> upd a v R b = R b.
Proof. intros. unfold upd. by rewrite decide_False. Qed.

Section Effects.
Context {D : Type} {B : Bus D} {RB : RegBus D}.

Definition contents_of (d : D) : contents := fun a => reg a d.

Definition does {A} (m : io D A) (r : contents -> A) (f : contents -> contents) : Prop :=
  forall h R, same (contents_of (dev h)) R ->
    runs m h (fun a h' => a = r R /\ same (contents_of (dev h')) (f R)).

Lemma does_ret {A} (a : A) : does (io_ret a) (fun _ => a) (fun R => R).
Proof. intros h R HR. by exists a, h. Qed.

Lemma does_bind {A A'} (m : io D A) (k : A -> io D A') r f r' f' :
  does m r f -> (forall R, exists r1 f1, does (k (r R)) r1 f1 /\ r1 (f R) = r' R /\ same (f1 (f R)) (f' R)) ->
  does (io_bind m k) r' f'.
Proof.
  intros Hm Hk h R HR. eapply runs_bind; [by apply Hm|]. intros a h1 [-> HR1].
  destruct (Hk R) as (r1 & f1 & H1 & Hr & Hf).
  eapply runs_mono; [by apply H1|]. intros b h2 [-> HR2]. split; [done|].
  intros x. by rewrite (HR2 x), (Hf x).
Qed.

Lemma does_seq {A} (m : io D unit) (k : io D A) f r' f' :
  does m (fun _ => tt) f -> does k r' f' -> does (m ;;; k) (fun R => r' (f R)) (fun R => f' (f R)).
Proof. intros Hm Hk. eapply does_bind; [exact Hm|]. intros R. by exists r', f'. Qed.

Lemma does_read a : does (mmio_read a) (fun R => R a) (fun R => R).
Proof.
  intros h R HR. eexists _, _. split; [reflexivity|]. simpl. split; [rewrite reg_val; apply HR|].
  intros b. unfold contents_of. rewrite reg_rd. apply HR.
Qed.

Lemma does_write a v : does (mmio_write a v) (fun _ => tt) (upd a (u32 v)).
Proof.
  intros h R HR. eexists _, _. split; [reflexivity|]. simpl. split; [done|].
  intros b. unfold contents_of. rewrite reg_wr by (apply wrap_range; lia). unfold upd.
  case_decide; [done|]. apply HR.
Qed.

(** A load, a computation on the value, a store. *)
Lemma does_modify a b g :
  does (v <- mmio_read a ;; mmio_write b (g v)) (fun _ => tt) (fun R => upd b (u32 (g (R a))) R).
Proof.
  eapply does_bind; [apply does_read|]. intros R. eexists _, _. split; [apply does_write|done].
Qed.

Lemma does_or a m : does (mmio_or a m) (fun _ => tt) (fun R => upd a (u32 (R a .| m)) R).
Proof. apply (does_modify a a (fun v => v .| m)). Qed.
Lemma does_and a m : does (mmio_and a m) (fun _ => tt) (fun R => upd a (u32 (R a .& m)) R).
Proof. apply (does_modify a a (fun v => v .& m)). Qed.
Lemma does_xor a m : does (mmio_xor a m) (fun _ => tt) (fun R => upd a (u32 (R a .^ m)) R).
Proof. apply (does_modify a a (fun v => v .^ m)). Qed.

(** Reading the effect off at the end of a run. *)
Lemma does_runs {A} (m : io D A) r f h :
  does m r f -> runs m h (fun a h' => a = r (contents_of (dev h)) /\
    forall b, reg b (dev h') = f (contents_of (dev h)) b).
Proof. intros Hm. eapply runs_mono; [by apply Hm|]. intros a h' [-> H]. split; [done|]. apply H. Qed.
End Effects.

(** *** Fields of a register *)

(** The bits [lo .. lo + n - 1] of [new] are [v] and the others are those of [old]. *)
Definition field_set (old new lo n v : Z) : Prop :=
  (new .>> lo) .& (2 ^ n - 1) = v /\
  forall i, 0 <= i -> i < lo \/ lo + n <= i -> Z.testbit new i = Z.testbit old i.

(** [field_set] from the individual bits of the new value, by computation: [new] is
    an expression in [old] built from masks. *)
Lemma field_set_bits old new lo n v :
  0 <= lo -> 0 <= n -> lo + n <= 32 -> 0 <= v < 2 ^ n -> 0 <= old < 2 ^ 32 -> 0 <= new < 2 ^ 32 ->
  (forall i, 0 <= i < 32 -> Z.testbit new i =
    if decide (lo <= i < lo + n) then Z.testbit v (i - lo) else Z.testbit old i) ->
  field_set old new lo n v.
Proof.
  intros Hlo Hn Hmax Hv Ho Hnew H. split.
  - apply (bits_eq n); [rewrite Z.sub_1_r, <- Z.ones_equiv; apply land_range; rewrite Z.ones_equiv; lia|done|].
    intros i Hi. rewrite Z.sub_1_r, <- Z.ones_equiv, Z.land_spec, Z.shiftr_spec, H by lia.
    rewrite decide_True by lia. rewrite Z.testbit_ones_nonneg by lia.
    destruct (Z.ltb_spec i n); [|lia]. rewrite andb_true_r. f_equal. lia.
  - intros i Hi Hout. destruct (decide (i < 32)).
    + rewrite H by lia. by rewrite decide_False by lia.
    + by rewrite !(testbit_high 32) by lia.
Qed.

(** The bits of a word after clearing a field and after setting some bits. *)
Lemma testbit_clear x lo n i :
  0 <= lo -> 0 <= n -> 0 <= i < 32 ->
  Z.testbit (u32 (x .& ~32 ((2 ^ n - 1) .<< lo))) i =
  if decide (lo <= i < lo + n) then false else Z.testbit x i.
Proof.
  intros Hlo Hn Hi. rewrite testbit_wrap, Z.land_spec, testbit_wrap, Z.lnot_spec, Z.shiftl_spec by lia.
  rewrite Z.sub_1_r, <- Z.ones_equiv, Z.testbit_ones by lia.
  repeat match goal with |- context [?a <? ?b] => destruct (Z.ltb_spec a b) end;
  repeat match goal with |- context [?a <=? ?b] => destruct (Z.leb_spec a b) end;
  case_decide; simpl; rewrite ?andb_true_r, ?andb_false_r; (done || lia).
Qed.

Lemma testbit_or x v lo i :
  0 <= lo -> 0 <= i < 32 ->
  Z.testbit (u32 (x .| (v .<< lo))) i = Z.testbit x i || Z.testbit v (i - lo).
Proof.
  intros Hlo Hi. rewrite testbit_wrap, Z.lor_spec, Z.shiftl_spec by lia.
  destruct (Z.ltb_spec i 32); [done|lia].
Qed.

Lemma testbit_1 k : Z.testbit 1 k = bool_decide (k = 0).
Proof.
  case_bool_decide as H; [by subst|]. destruct (decide (k < 0)); [by apply Z.testbit_neg_r|].
  apply (testbit_high 1); lia.
Qed.

(** Replacing a field: clear it, then put the new value in. *)
Lemma field_replace old lo n v :
  0 <= lo -> 0 <= n -> lo + n <= 32 -> 0 <= v < 2 ^ n -> 0 <= old < 2 ^ 32 ->
  field_set old (u32 (u32 (old .& ~32 ((2 ^ n - 1) .<< lo)) .| (v .<< lo))) lo n v.
Proof.
  intros Hlo Hn Hmax Hv Ho. apply field_set_bits; [done..|apply wrap_range; lia|].
  intros i Hi. rewrite testbit_or, testbit_clear by lia. case_decide; [done|].
  destruct (decide (i < lo)).
  - rewrite (Z.testbit_neg_r v) by lia. by rewrite orb_false_r.
  - rewrite (testbit_high n v) by lia. by rewrite orb_false_r.
Qed.

(** The effect of a straight line of register accesses, by its syntax. *)
Ltac does_line :=
  lazymatch goal with
  | |- does (io_bind (mmio_and _ _) _) _ _ => eapply does_seq; [apply does_and|does_line]
  | |- does (io_bind (mmio_or _ _) _) _ _ => eapply does_seq; [apply does_or|does_line]
  | |- does (io_bind (mmio_xor _ _) _) _ _ => eapply does_seq; [apply does_xor|does_line]
  | |- does (io_bind (mmio_write _ _) _) _ _ => eapply does_seq; [apply does_write|does_line]
  | |- does (mmio_and _ _) _ _ => apply does_and
  | |- does (mmio_or _ _) _ _ => apply does_or
  | |- does (mmio_xor _ _) _ _ => apply does_xor
  | |- does (mmio_write _ _) _ _ => apply does_write
  | |- does (io_ret _) _ _ => apply does_ret
  end.

(** ** Device invariants

    [keeps I m]: if [m] returns, the device invariant [I] still holds. *)
Definition keeps {D A} (I : D -> Prop) (m : io D A) : Prop :=
  forall h a h', I (dev h) -> m h = Ok (a, h') -> I (dev h').

Section Keeps.
Context {D : Type} {B : Bus D} (I : D -> Prop).

Lemma keeps_ret {A} (a : A) : keeps I (io_ret a).
Proof. intros h b h' Hh [= <- <-]. done. Qed.

Lemma keeps_lift {A} (r : res A) : keeps I (io_lift r).
Proof. intros h b h' Hh. unfold io_lift. destruct r; simpl; [|done..]. intros [= <- <-]. done. Qed.

Lemma keeps_bind {A A'} (m : io D A) (f : A -> io D A') :
  keeps I m -> (forall a, keeps I (f a)) -> keeps I (io_bind m f).
Proof.
  intros Hm Hf h b h' Hh. unfold io_bind. destruct (m h) as [[a h1]| |] eqn:E; simpl; [|done..].
  apply Hf. by eapply Hm.
Qed.

Lemma keeps_for n i (f : nat -> io D unit) : (forall i, keeps I (f i)) -> keeps I (io_for i n f).
Proof. intros Hf. revert i. induction n as [|n IH]; intros i; simpl; [apply keeps_ret|]. by apply keeps_bind. Qed.

Lemma keeps_each {A} (l : list A) (f : A -> io D unit) : (forall a, keeps I (f a)) -> keeps I (io_each l f).
Proof. intros Hf. induction l as [|a l IH]; simpl; [apply keeps_ret|]. by apply keeps_bind. Qed.

Lemma keeps_collect {A} n i (f : nat -> io D A) : (forall i, keeps I (f i)) -> keeps I (io_collect i n f).
Proof.
  intros Hf. revert i. induction n as [|n IH]; intros i; simpl; [apply keeps_ret|].
  apply keeps_bind; [done|]. intros a. apply keeps_bind; [done|]. intros l. apply keeps_ret.
Qed.

Lemma keeps_read a : (forall d, I d -> I (dev_rd a d)) -> keeps I (mmio_read a).
Proof. intros H h b h' Hh [= <- <-]. by apply H. Qed.
Lemma keeps_read8 a : (forall d, I d -> I (dev_rd a d)) -> keeps I (mmio_read8 a).
Proof. intros H h b h' Hh [= <- <-]. by apply H. Qed.
Lemma keeps_write a v : (forall v d, I d -> I (dev_wr a v d)) -> keeps I (mmio_write a v).
Proof. intros H h b h' Hh [= <- <-]. by apply H. Qed.
Lemma keeps_write8 a v : (forall v d, I d -> I (dev_wr a v d)) -> keeps I (mmio_write8 a v).
Proof. intros H h b h' Hh [= <- <-]. by apply H. Qed.

Lemma keeps_wait_set fuel a m : (forall d, I d -> I (dev_rd a d)) -> keeps I (wait_set fuel a m).
Proof.
  intros H. induction fuel as [|fuel IH]; simpl; [done|].
  apply keeps_bind; [by apply keeps_read|]. intros v. destruct (tst v m); [apply keeps_ret|done].
Qed.
Lemma keeps_wait_clear fuel a m : (forall d, I d -> I (dev_rd a d)) -> keeps I (wait_clear fuel a m).
Proof.
  intros H. induction fuel as [|fuel IH]; simpl; [done|].
  apply keeps_bind; [by apply keeps_read|]. intros v. destruct (tst v m); [done|apply keeps_ret].
Qed.
End Keeps.

(** Driver code keeps an invariant that all its accesses keep; [acc] proves the
    latter. *)
Ltac keeps_code acc :=
  repeat (intros;
    lazymatch goal with
    | |- keeps _ (io_bind _ _) => apply keeps_bind
    | |- keeps _ (io_ret _) => apply keeps_ret
    | |- keeps _ (io_lift _) => apply keeps_lift
    | |- keeps _ (io_for _ _ _) => apply keeps_for
    | |- keeps _ (io_each _ _) => apply keeps_each
    | |- keeps _ (io_collect _ _ _) => apply keeps_collect
    | |- keeps _ (mmio_read _) => apply keeps_read; acc
    | |- keeps _ (mmio_read8 _) => apply keeps_read8; acc
    | |- keeps _ (mmio_write _ _) => apply keeps_write; acc
    | |- keeps _ (mmio_write8 _ _) => apply keeps_write8; acc
    | |- keeps _ (wait_set _ _ _) => apply keeps_wait_set; acc
    | |- keeps _ (wait_clear _ _ _) => apply keeps_wait_clear; acc
    | |- keeps _ (mmio_or _ _) => unfold mmio_or
    | |- keeps _ (mmio_and _ _) => unfold mmio_and
    | |- keeps _ (mmio_xor _ _) => unfold mmio_xor
    | |- keeps _ (if ?b then _ else _) => destruct b
    | |- keeps _ (match ?b with _ => _ end) => destruct b
    end).

(** ** Code that only reads registers

    [asks m r]: on plain registers [m] computes [r] of their contents, including
    whether it is defined, and changes nothing. *)
Section Asks.
Context {D : Type} {B : Bus D} {RB : RegBus D}.

Definition asks {A} (m : io D A) (r : contents -> res A) : Prop :=
  forall h R, same (contents_of (dev h)) R ->
    match r R with
    | Ok a => exists h', m h = Ok (a, h') /\ same (contents_of (dev h')) R
    | Hang => m h = Hang
    | Ub => m h = Ub
    end.

Lemma asks_ret {A} (a : A) : asks (io_ret a) (fun _ => Ok a).
Proof. intros h R HR. by exists h. Qed.

Lemma asks_lift {A} (r : res A) : asks (io_lift r) (fun _ => r).
Proof. intros h R HR. destruct r; [|done..]. by exists h. Qed.

Lemma asks_read a : asks (mmio_read a) (fun R => Ok (R a)).
Proof.
  intros h R HR. destruct (does_read a h R HR) as (v & h' & E & -> & HR'). by exists h'.
Qed.

Lemma asks_bind {A A'} (m : io D A) (k : A -> io D A') r r' :
  asks m r -> (forall a, asks (k a) (r' a)) -> asks (io_bind m k) (fun R => let* a := r R in r' a R).
Proof.
  intros Hm Hk h R HR. specialize (Hm h R HR). unfold io_bind. destruct (r R) as [a| |].
  - destruct Hm as (h1 & E & HR1). rewrite E. cbn. by apply Hk.
  - rewrite Hm. done.
  - rewrite Hm. done.
Qed.

Lemma asks_ext {A} (m : io D A) r r' : asks m r -> (forall R, r R = r' R) -> asks m r'.
Proof. intros Hm Hr h R HR. rewrite <- Hr. by apply Hm. Qed.

Lemma asks_if {A} (b : bool) (m1 m2 : io D A) r1 r2 :
  asks m1 r1 -> asks m2 r2 -> asks (if b then m1 else m2) (fun R => if b then r1 R else r2 R).
Proof. by destruct b. Qed.
End Asks.
