(* ===== verification/Xmodem.v ===== *)
(** * The XMODEM-CRC receiver ([board/samsung/smdkv210/spl/xmodem.c])

    The receiver is a state machine polled from the boot menu.  Its state is the
    C record [XMODEM]; the three function pointers of that record are the record
    [xm_ops] over an arbitrary world [W], so the machine is verified for every
    client and the boot menu is one of them.  The file holds the data model, the
    whole of [xModemFSM], and the theorems on framing, retries, termination and
    memory safety. *)
From S2P Require Import Prelude Gf2.

Definition XM_FRAME_SOH := 0x01.
Definition XM_FRAME_EOT := 0x04.
Definition XM_FRAME_ACK := 0x06.
Definition XM_FRAME_NAK := 0x15.
Definition XM_FRAME_CAN := 0x18.
Definition XM_FRAME_NCG := 0x43.
Definition XM_FRAME_UNKOWN := 0xff.

Definition XMODEM_DATA_SIZE := 128.
Definition XMODEM_SOH_FRAME_SIZE := XMODEM_DATA_SIZE + 5.
Definition XM_NCG_RESEND_DLY := 1000.
Definition XM_SOH_RECV_TIMEOUT := 1000.

Definition IDX_FRAME := 0%nat.
Definition IDX_PKT_NUM := 1%nat.
Definition IDX_PKT_NUM_A := 2%nat.
Definition IDX_DATAS := 3%nat.
Definition IDX_CHKSUM := 131%nat.

Inductive XMODEM_EVT :=
  | XMEVT_ENTRY | XMEVT_SOH | XMEVT_EOT | XMEVT_ACK
  | XMEVT_NAK | XMEVT_CAN | XMEVT_NCG | XMEVT_UNKOWN.

Inductive XMODEM_STATE :=
  | XMSTA_ENTRY | XMSTA_WAIT_TRANS | XMSTA_TRANSMIT | XMSTA_EXIT | XMSTA_STOP.

#[global] Instance XMODEM_EVT_eq_dec : EqDecision XMODEM_EVT.
Proof. solve_decision. Defined.
#[global] Instance XMODEM_STATE_eq_dec : EqDecision XMODEM_STATE.
Proof. solve_decision. Defined.

(** The callbacks.  [getData] is given the size of the rest of the frame buffer
    in [*buffer_len]; it stores bytes at the buffer pointer and leaves their
    number in [*buffer_len], here the bytes themselves.  A [NULL] pointer is
    [None]; the buffer argument of [xmCallback] may be [NULL] too. *)
Record xm_ops (W : Type) := XmOps {
  putData : option (list Z -> W -> res (bool * W));
  getData : option (Z -> W -> res (bool * list Z * W));
  xmCallback : option (XMODEM_EVT -> Z -> option (list Z) -> Z -> W -> res W)
}.
Arguments XmOps {W} _ _ _.
Arguments putData {W} _.
Arguments getData {W} _.
Arguments xmCallback {W} _.

(** [struct XMODEM] without the three function pointers. *)
Record XMODEM := MkXMODEM {
  xmState : XMODEM_STATE;
  timestamp_ncg_sent_prev : Z;
  ncg_send_retry_times : Z;
  timestamp_soh_recv_prev : Z;
  soh_nak_retry_times : Z;
  frame_offset : Z;
  frame : list Z
}.

Definition set_xmState (x : XMODEM) (s : XMODEM_STATE) : XMODEM :=
  MkXMODEM s (timestamp_ncg_sent_prev x) (ncg_send_retry_times x)
    (timestamp_soh_recv_prev x) (soh_nak_retry_times x) (frame_offset x) (frame x).
Definition set_ncg (x : XMODEM) (ts n : Z) : XMODEM :=
  MkXMODEM (xmState x) ts n
    (timestamp_soh_recv_prev x) (soh_nak_retry_times x) (frame_offset x) (frame x).
Definition set_soh (x : XMODEM) (ts n : Z) : XMODEM :=
  MkXMODEM (xmState x) (timestamp_ncg_sent_prev x) (ncg_send_retry_times x)
    ts n (frame_offset x) (frame x).
Definition set_frame (x : XMODEM) (off : Z) (f : list Z) : XMODEM :=
  MkXMODEM (xmState x) (timestamp_ncg_sent_prev x) (ncg_send_retry_times x)
    (timestamp_soh_recv_prev x) (soh_nak_retry_times x) off f.

(** [xmInit] stores the callbacks (the [ops] argument of every function below)
    and leaves the machine stopped; the other fields keep their values. *)
Definition xmInit (x : XMODEM) : XMODEM := set_xmState x XMSTA_STOP.

Definition xmStart (x : XMODEM) : XMODEM := set_xmState x XMSTA_ENTRY.

(** ** Checksum *)

(** One iteration of the loop of [calcCrc]; [crc] is an [unsigned short]. *)
Definition calcCrc_step (crc data : Z) : Z :=
  let crc := u16 ((crc .>> 8) .| (crc .<< 8)) in
  let crc := u16 (crc .^ data) in
  let crc := u16 (crc .^ ((crc .& 0xff) .>> 4)) in
  let crc := u16 (crc .^ (crc .<< 12)) in
  u16 (crc .^ ((crc .& 0xff) .<< 5)).

Definition calcCrc (start : list Z) (length : Z) : Z :=
  foldl calcCrc_step 0 (take (Z.to_nat (u8 length)) start).

(** ** Frames *)

Definition fget (buff : list Z) (i : nat) : Z := default 0 (buff !! i).

Definition checkSohFrame (buff : list Z) (len : Z) : bool :=
  if len <? XMODEM_SOH_FRAME_SIZE then false
  else if negb (fget buff IDX_FRAME =? XM_FRAME_SOH) then false
  else if negb (u8 (fget buff IDX_PKT_NUM .^ fget buff IDX_PKT_NUM_A) =? 0xff) then false
  else
    let crc_cal := calcCrc (drop IDX_DATAS buff) XMODEM_DATA_SIZE in
    let pkt_cal := u16 ((fget buff IDX_CHKSUM .<< 8) .| fget buff (S IDX_CHKSUM)) in
    if negb (crc_cal =? pkt_cal) then false else true.

Section Machine.
Context {W : Type} (ops : xm_ops W).

(** Calls through the function pointers, guarded by the [NULL] checks. *)
Definition put1 (b : Z) (w : W) : res W :=
  match putData ops with
  | None => Ok w
  | Some put => let* (_, w) := put [b] w in Ok w
  end.

Definition notify (evt : XMODEM_EVT) (data : Z) (buffer : option (list Z)) (len : Z) (w : W)
  : res W :=
  match xmCallback ops with
  | None => Ok w
  | Some cb => cb evt data buffer len w
  end.

(** The first lines of [dealSohFrame] and [dealExceptionFrame]: ask for bytes,
    store them behind the ones already received and advance [frame_offset] (an
    [unsigned char]).  The result says whether [getData] returned true. *)
Definition recv_frame (get : Z -> W -> res (bool * list Z * W)) (x : XMODEM) (w : W)
  : res (bool * XMODEM * W) :=
  let data_len := u32 (XMODEM_SOH_FRAME_SIZE - frame_offset x) in
  let* (ok, bytes, w) := get data_len w in
  let* f := res_of_option (store_block (frame x) (Z.to_nat (frame_offset x)) bytes) in
  if ok : bool
  then Ok (true, set_frame x (u8 (frame_offset x + Z.of_nat (length bytes))) f, w)
  else Ok (false, set_frame x (frame_offset x) f, w).

Definition dealSohFrame (x : XMODEM) (w : W) : res (bool * XMODEM * W) :=
  match getData ops with
  | None => Ok (false, x, w)
  | Some get =>
    let* (ok, x, w) := recv_frame get x w in
    if ok : bool then
      if checkSohFrame (frame x) (frame_offset x) then
        let* w := notify XMEVT_SOH (fget (frame x) IDX_PKT_NUM)
                    (Some (take (Z.to_nat XMODEM_DATA_SIZE) (drop IDX_DATAS (frame x))))
                    XMODEM_DATA_SIZE w in
        Ok (true, set_frame x 0 (frame x), w)
      else Ok (false, x, w)
    else Ok (false, x, w)
  end.

Definition dealSohFrameTimeout (x : XMODEM) : XMODEM := set_frame x 0 (frame x).

Definition dealExceptionFrame (x : XMODEM) (w : W) : res (Z * XMODEM * W) :=
  match getData ops with
  | None => Ok (XM_FRAME_UNKOWN, x, w)
  | Some get =>
    let* (ok, x, w) := recv_frame get x w in
    if ok : bool then
      if frame_offset x =? 1 then
        if fget (frame x) IDX_FRAME =? XM_FRAME_EOT then
          let* w := notify XMEVT_EOT 0 None 0 w in
          Ok (XM_FRAME_EOT, set_frame x 0 (frame x), w)
        else if fget (frame x) IDX_FRAME =? XM_FRAME_CAN then
          let* w := notify XMEVT_CAN 0 None 0 w in
          Ok (XM_FRAME_CAN, set_frame x 0 (frame x), w)
        else Ok (XM_FRAME_UNKOWN, x, w)
      else Ok (XM_FRAME_UNKOWN, x, w)
    else Ok (XM_FRAME_UNKOWN, x, w)
  end.

Definition dealExit (x : XMODEM) : XMODEM := x.

(** ** The state machine

    One definition per [case] of [xModemFSM].  Timestamps and counters are
    [int]s: differences and increments are taken at 32 bits.  C leaves open what
    a signed difference that overflows is; the model has the one that the
    subtraction of the processor gives, so what is proved of a difference beyond
    32 bits, which takes a timestamp below zero, is about that code. *)
Definition fsm_entry (x : XMODEM) (w : W) : res (XMODEM * W) :=
  let x := set_soh (set_ncg x 0 0) 0 0 in
  let x := set_frame x 0 (frame x) in
  let* w := notify XMEVT_ENTRY 0 None 0 w in
  Ok (set_xmState x XMSTA_WAIT_TRANS, w).

Definition fsm_wait_trans (timestamp : Z) (x : XMODEM) (w : W) : res (XMODEM * W) :=
  let* (got, x, w) := dealSohFrame x w in
  if got : bool then
    let* w := put1 XM_FRAME_ACK w in
    Ok (set_xmState (set_soh x timestamp 0) XMSTA_TRANSMIT, w)
  else if XM_NCG_RESEND_DLY <=? s32 (timestamp - timestamp_ncg_sent_prev x) then
    let retry := ncg_send_retry_times x in
    let x := set_ncg x (timestamp_ncg_sent_prev x) (s32 (retry + 1)) in
    if 100 <? retry then Ok (set_xmState x XMSTA_EXIT, w)
    else
      let x := dealSohFrameTimeout x in
      let x := set_ncg x timestamp (ncg_send_retry_times x) in
      let* w := put1 XM_FRAME_NCG w in
      Ok (x, w)
  else Ok (x, w).

Definition fsm_transmit (timestamp : Z) (x : XMODEM) (w : W) : res (XMODEM * W) :=
  let* (fr, x, w) := dealExceptionFrame x w in
  if fr =? XM_FRAME_EOT then Ok (set_xmState x XMSTA_EXIT, w)
  else
    let* (fr, x, w) := dealExceptionFrame x w in
    if fr =? XM_FRAME_CAN then Ok (set_xmState x XMSTA_EXIT, w)
    else
      let* (got, x, w) := dealSohFrame x w in
      if got : bool then
        let* w := put1 XM_FRAME_ACK w in
        Ok (set_soh x timestamp 0, w)
      else if XM_SOH_RECV_TIMEOUT <=? s32 (timestamp - timestamp_soh_recv_prev x) then
        let x := dealSohFrameTimeout x in
        let retry := soh_nak_retry_times x in
        let x := set_soh x (timestamp_soh_recv_prev x) (s32 (retry + 1)) in
        if 50 <? retry then Ok (set_xmState x XMSTA_EXIT, w)
        else
          let x := set_soh x timestamp (soh_nak_retry_times x) in
          let* w := put1 XM_FRAME_NAK w in
          Ok (x, w)
      else Ok (x, w).

Definition fsm_exit (x : XMODEM) (w : W) : res (XMODEM * W) :=
  Ok (set_xmState (dealExit x) XMSTA_STOP, w).

Definition xModemFSM (timestamp : Z) (x : XMODEM) (w : W) : res (XMODEM_STATE * XMODEM * W) :=
  let* (x, w) :=
    match xmState x with
    | XMSTA_ENTRY => fsm_entry x w
    | XMSTA_WAIT_TRANS => fsm_wait_trans timestamp x w
    | XMSTA_TRANSMIT => fsm_transmit timestamp x w
    | XMSTA_EXIT => fsm_exit x w
    | XMSTA_STOP => Ok (x, w)
    end in
  Ok (xmState x, x, w).
End Machine.

(** ** Reference checksum: CRC-16/XMODEM, one bit at a time

    Polynomial x^16 + x^12 + x^5 + 1 (0x1021), most significant bit first,
    initial value zero. *)
Definition crc_bit (crc : Z) : Z :=
  u16 (crc .<< 1) .^ (if Z.testbit crc 15 then 0x1021 else 0).

Definition crc_byte (crc b : Z) : Z := Nat.iter 8 crc_bit (crc .^ (b .<< 8)).

Arguments crc_byte : simpl never.

Definition crc16 (msg : list Z) : Z := foldl crc_byte 0 msg.

(** The frame a sender builds for packet number [n]. *)
Definition soh_frame (n : Z) (data : list Z) : list Z :=
  [XM_FRAME_SOH; n; 0xff .^ n] ++ data ++ [crc16 data .>> 8; crc16 data .& 0xff].

(** *** The byte-wise loop computes the bit-wise CRC *)

Strategy 100 [crc_byte crc_bit].

Lemma crc_byte_iter crc b : crc_byte crc b = Nat.iter 8 crc_bit (crc .^ (b .<< 8)).
Proof. reflexivity. Qed.

#[local] Instance crc_bit_linear : XorLinear crc_bit.
Proof. unfold crc_bit. apply _. Qed.

Lemma crc_bit_range crc : 0 <= crc_bit crc < 2 ^ 16.
Proof. unfold crc_bit. apply lxor_range; [apply wrap_range; lia|]. case_if; lia. Qed.

Lemma crc_byte_range crc b : 0 <= crc_byte crc b < 2 ^ 16.
Proof. apply crc_bit_range. Qed.

Lemma crc16_range msg : 0 <= crc16 msg < 2 ^ 16.
Proof.
  unfold crc16. induction msg as [|b msg _] using rev_ind; [simpl; lia|].
  rewrite foldl_app. apply crc_byte_range.
Qed.

(** Joining the two arguments of a round into one 24-bit number. *)
Lemma join_lxor crc b :
  0 <= b < 256 -> ((crc .<< 8) .^ b) .>> 8 = crc /\ u8 ((crc .<< 8) .^ b) = b.
Proof.
  intros Hb. split; apply Z.bits_inj'; intros i Hi; push_testbit.
  - rewrite (testbit_high 8 b (i + 8)) by lia. rewrite xorb_false_r. f_equal. lia.
  - destruct (Z.ltb_spec i 8); simpl.
    + by rewrite (Z.testbit_neg_r crc (i - 8)) by lia.
    + by rewrite (testbit_high 8 b i).
Qed.

Lemma join_range crc b :
  0 <= crc < 2 ^ 16 -> 0 <= b < 256 -> 0 <= (crc .<< 8) .^ b < 2 ^ 24.
Proof.
  intros Hc Hb. apply lxor_range; [|lia]. rewrite Z.shiftl_mul_pow2 by lia. lia.
Qed.

Lemma swap_lxor crc :
  0 <= crc < 2 ^ 16 -> u16 ((crc .>> 8) .| (crc .<< 8)) = u16 ((crc .>> 8) .^ (crc .<< 8)).
Proof.
  intros Hc. apply Z.bits_inj'. intros i Hi. push_testbit.
  destruct (Z.lt_ge_cases i 8).
  - rewrite (Z.testbit_neg_r crc (i - 8)) by lia. by rewrite orb_false_r, xorb_false_r.
  - by rewrite (testbit_high 16 crc (i + 8)) by lia.
Qed.

(** [calcCrc_step] with exclusive or in place of the byte-swapping or. *)
Definition calcCrc_step_lin (crc data : Z) : Z :=
  let crc := u16 ((crc .>> 8) .^ (crc .<< 8)) in
  let crc := u16 (crc .^ data) in
  let crc := u16 (crc .^ ((crc .& 0xff) .>> 4)) in
  let crc := u16 (crc .^ (crc .<< 12)) in
  u16 (crc .^ ((crc .& 0xff) .<< 5)).

Lemma calcCrc_step_byte crc b :
  0 <= crc < 2 ^ 16 -> 0 <= b < 256 -> calcCrc_step crc b = crc_byte crc b.
Proof.
  intros Hc Hb.
  transitivity (calcCrc_step_lin crc b).
  { unfold calcCrc_step, calcCrc_step_lin. by rewrite swap_lxor. }
  pose proof (linear_ext_check 24 (fun z => calcCrc_step_lin (z .>> 8) (u8 z))
           (fun z => crc_byte (z .>> 8) (u8 z))) as Hext.
  destruct (join_lxor crc b Hb) as [H1 H2].
  specialize (fun l1 l2 c => Hext l1 l2 c ((crc .<< 8) .^ b)).
  simpl in Hext. rewrite H1, H2 in Hext. apply Hext; clear Hext.
  - unfold calcCrc_step_lin. apply _.
  - unfold crc_byte. apply (linear_compose (Nat.iter 8 crc_bit)); [|apply _].
    apply linear_iter, _.
  - vm_compute. reflexivity.
  - by apply join_range.
Qed.

Lemma calcCrc_fold l :
  byte_list l -> foldl calcCrc_step 0 l = crc16 l.
Proof.
  unfold crc16. induction l as [|b l IH] using rev_ind; intros Hl; [done|].
  apply Forall_app in Hl as [Hl Hb]. inversion Hb; subst.
  rewrite !foldl_app. simpl. rewrite IH by done. apply calcCrc_step_byte; [|done].
  apply crc16_range.
Qed.

(** *** Error detection *)

(** The inverse of [crc_bit] on 16-bit values. *)
Definition crc_unbit (y : Z) : Z :=
  ((y .^ (if Z.testbit y 0 then 0x1021 else 0)) .>> 1) .^ (if Z.testbit y 0 then 0x8000 else 0).

Lemma crc_unbit_bit x : 0 <= x < 2 ^ 16 -> crc_unbit (crc_bit x) = x.
Proof.
  apply (linear_ext_check 16 (fun x => crc_unbit (crc_bit x)) (fun x => x)).
  - apply (linear_compose crc_unbit); unfold crc_unbit; apply _.
  - apply _.
  - vm_compute. reflexivity.
Qed.

Lemma crc_iter_inj n x y :
  0 <= x < 2 ^ 16 -> 0 <= y < 2 ^ 16 ->
  Nat.iter n crc_bit x = Nat.iter n crc_bit y -> x = y.
Proof.
  revert x y. induction n as [|n IH]; intros x y Hx Hy; [done|].
  rewrite !Nat.iter_succ_r. intros H%IH; [|apply crc_bit_range..].
  by rewrite <- (crc_unbit_bit x), <- (crc_unbit_bit y), H.
Qed.

(** Two bytes are absorbed as one 16-bit word. *)
Lemma crc_two_bytes c a b :
  0 <= b < 256 ->
  crc_byte (crc_byte c a) b = Nat.iter 16 crc_bit (c .^ ((a .<< 8) .^ b)).
Proof.
  intros Hb. rewrite (crc_byte_iter _ b).
  assert (b .<< 8 = Nat.iter 8 crc_bit b) as ->.
  { revert b Hb. apply (linear_ext_check 8 (fun b => b .<< 8)); [apply _| |by vm_compute].
    apply linear_iter, _. }
  change 16%nat with (8 + 8)%nat. rewrite Nat.iter_add. f_equal. rewrite crc_byte_iter.
  rewrite <- (linear_iter 8 crc_bit _ _ _). f_equal. by rewrite Z.lxor_assoc.
Qed.

Lemma crc_byte_inj c d b :
  0 <= c < 2 ^ 16 -> 0 <= d < 2 ^ 16 -> 0 <= b < 256 -> crc_byte c b = crc_byte d b -> c = d.
Proof.
  intros Hc Hd Hb H. rewrite !crc_byte_iter in H.
  assert (0 <= b .<< 8 < 2 ^ 16) by (rewrite Z.shiftl_mul_pow2 by lia; lia).
  apply (crc_iter_inj 8) in H; [|by apply lxor_range..].
  apply (f_equal (fun z => z .^ (b .<< 8))) in H.
  by rewrite !Z.lxor_assoc, !Z.lxor_nilpotent, !Z.lxor_0_r in H.
Qed.

Lemma crc_fold_inj l c d :
  0 <= c < 2 ^ 16 -> 0 <= d < 2 ^ 16 -> byte_list l ->
  foldl crc_byte c l = foldl crc_byte d l -> c = d.
Proof.
  revert c d. induction l as [|b l IH]; intros c d Hc Hd Hl; [done|].
  apply Forall_cons in Hl as [Hb Hl]. cbn [foldl].
  intros H%IH; [|apply crc_byte_range..|done]. by apply crc_byte_inj in H.
Qed.

(** A change confined to two neighbouring bytes changes the CRC. *)
Lemma crc16_burst pre post a1 a2 b1 b2 :
  byte_list post ->
  0 <= a1 < 256 -> 0 <= a2 < 256 -> 0 <= b1 < 256 -> 0 <= b2 < 256 ->
  crc16 (pre ++ [a1; a2] ++ post) = crc16 (pre ++ [b1; b2] ++ post) ->
  a1 = b1 /\ a2 = b2.
Proof.
  intros Hpost Ha1 Ha2 Hb1 Hb2. unfold crc16. rewrite !foldl_app.
  fold (crc16 pre). intros H%crc_fold_inj; [|apply crc_byte_range..|done].
  cbn [foldl] in H. rewrite !crc_two_bytes in H by done.
  pose proof (crc16_range pre).
  assert (forall a b, 0 <= a < 256 -> 0 <= b < 256 -> 0 <= (a .<< 8) .^ b < 2 ^ 16) as Hr.
  { intros a b Ha Hb. apply lxor_range; [rewrite Z.shiftl_mul_pow2 by lia|]; lia. }
  apply (crc_iter_inj 16) in H; [|by apply lxor_range; eauto..].
  apply (f_equal (fun z => crc16 pre .^ z)) in H.
  rewrite <- !Z.lxor_assoc, !Z.lxor_nilpotent, !Z.lxor_0_l in H.
  destruct (join_lxor a1 a2 Ha2) as [E1 E2], (join_lxor b1 b2 Hb2) as [F1 F2].
  split; congruence.
Qed.

(** ** Frames *)

Lemma calcCrc_spec_128 data rest :
  byte_list data -> length data = 128%nat ->
  calcCrc (data ++ rest) XMODEM_DATA_SIZE = crc16 data.
Proof.
  intros Hb Hl. unfold calcCrc. change (Z.to_nat (u8 XMODEM_DATA_SIZE)) with 128%nat.
  rewrite take_app_length' by done. by apply calcCrc_fold.
Qed.

Lemma byte_complement n m :
  0 <= n < 256 -> 0 <= m < 256 -> u8 (n .^ m) = 0xff <-> m = 0xff .^ n.
Proof.
  intros Hn Hm. rewrite wrap_small by (apply (lxor_range 8); lia). split.
  - intros <-. by rewrite (Z.lxor_comm n m), Z.lxor_assoc, Z.lxor_nilpotent, Z.lxor_0_r.
  - intros ->. by rewrite (Z.lxor_comm 255), <- Z.lxor_assoc, Z.lxor_nilpotent.
Qed.

(** Splitting a checksum over two bytes, high byte first. *)
Lemma crc_halves c h l :
  0 <= c < 2 ^ 16 -> 0 <= h < 256 -> 0 <= l < 256 ->
  c = u16 ((h .<< 8) .| l) <-> h = c .>> 8 /\ l = c .& 0xff.
Proof.
  intros Hc Hh Hl. assert (u16 ((h .<< 8) .| l) = (h .<< 8) .^ l) as ->.
  { apply Z.bits_inj'. intros i Hi. push_testbit. destruct (Z.lt_ge_cases i 8).
    - rewrite (Z.testbit_neg_r h (i - 8)) by lia.
      assert ((i <? 16) = true) as -> by lia. by destruct (Z.testbit l i).
    - rewrite (testbit_high 8 l i) by lia. rewrite orb_false_r, xorb_false_r.
      destruct (Z.ltb_spec i 16); [done|]. by rewrite (testbit_high 8 h (i - 8)) by lia. }
  change 0xff with (Z.ones 8). rewrite Z.land_ones by lia. change (c mod 2 ^ 8) with (u8 c).
  split.
  - intros ->. by destruct (join_lxor h l Hl) as [-> ->].
  - intros [-> ->]. apply Z.bits_inj'. intros i Hi. push_testbit.
    destruct (Z.ltb_spec i 8); simpl.
    + by rewrite (Z.testbit_neg_r _ (i - 8)) by lia.
    + rewrite Z.shiftr_spec, xorb_false_r by lia. f_equal. lia.
Qed.

(** A 133-byte list seen as header, data and the two checksum bytes. *)
Lemma frame_split (f : list Z) :
  length f = 133%nat ->
  exists s n m data h l, f = [s; n; m] ++ data ++ [h; l] /\ length data = 128%nat.
Proof.
  intros Hf. destruct f as [|s [|n [|m r]]]; try done. simplify_eq/=.
  pose proof (length_drop r 128) as Hd. rewrite Hf in Hd.
  destruct (drop 128 r) as [|h [|l [|]]] eqn:E; try done.
  exists s, n, m, (take 128 r), h, l. split; [by rewrite <- E, take_drop|].
  rewrite length_take. lia.
Qed.

Lemma byte_frame s n m data h l :
  byte_list ([s; n; m] ++ data ++ [h; l]) <->
  0 <= s < 256 /\ 0 <= n < 256 /\ 0 <= m < 256 /\ byte_list data /\ 0 <= h < 256 /\ 0 <= l < 256.
Proof. unfold byte_list. repeat rewrite ?Forall_app, ?Forall_cons, ?Forall_nil. tauto. Qed.

(** [checkSohFrame] on a 133-byte frame, field by field. *)
Lemma checkSohFrame_fields s n m data h l :
  byte_list data -> length data = 128%nat ->
  checkSohFrame ([s; n; m] ++ data ++ [h; l]) XMODEM_SOH_FRAME_SIZE = true <->
  s = XM_FRAME_SOH /\ u8 (n .^ m) = 0xff /\ crc16 data = u16 ((h .<< 8) .| l).
Proof.
  intros Hb Hl. unfold checkSohFrame, fget.
  change (XMODEM_SOH_FRAME_SIZE <? XMODEM_SOH_FRAME_SIZE) with false. cbv iota.
  change (drop IDX_DATAS ([s; n; m] ++ data ++ [h; l])) with (data ++ [h; l]).
  rewrite calcCrc_spec_128 by done. simpl.
  rewrite !lookup_app_r, !Hl by (rewrite Hl; lia). simpl.
  destruct (Z.eqb_spec s XM_FRAME_SOH), (Z.eqb_spec (u8 (n .^ m)) 255),
    (Z.eqb_spec (crc16 data) (u16 (h .<< 8 .| l))); simpl; intuition congruence.
Qed.

(** C16: [checkSohFrame] accepts exactly the frames a sender builds: a complete
    133-byte buffer passes iff it is SOH, a packet number, its complement, 128
    data bytes and their CRC-16/XMODEM (high byte first). *)
Theorem checkSohFrame_iff f :
  byte_list f -> length f = 133%nat ->
  checkSohFrame f XMODEM_SOH_FRAME_SIZE = true <->
  exists n data, 0 <= n < 256 /\ length data = 128%nat /\ f = soh_frame n data.
Proof.
  intros Hb Hf. destruct (frame_split f Hf) as (s & n & m & data & h & l & -> & Hd).
  apply byte_frame in Hb as (? & ? & ? & ? & ? & ?).
  rewrite checkSohFrame_fields, byte_complement, crc_halves by (done || apply crc16_range).
  split.
  - intros (-> & -> & -> & ->). by exists n, data.
  - intros (n' & data' & Hn' & Hd' & E). injection E as -> -> -> E.
    apply app_inj_1 in E as [-> E]; [|congruence]. by injection E as -> ->.
Qed.

(** Corruption confined to two neighbouring data bytes is never accepted: if
    two frames that differ at most there both pass [checkSohFrame], they are the
    same frame. *)
Theorem checkSohFrame_burst hdr pre post crc a1 a2 b1 b2 :
  length hdr = 3%nat -> length crc = 2%nat -> (length pre + 2 + length post = 128)%nat ->
  byte_list (hdr ++ (pre ++ [a1; a2] ++ post) ++ crc) ->
  byte_list (hdr ++ (pre ++ [b1; b2] ++ post) ++ crc) ->
  checkSohFrame (hdr ++ (pre ++ [a1; a2] ++ post) ++ crc) XMODEM_SOH_FRAME_SIZE = true ->
  checkSohFrame (hdr ++ (pre ++ [b1; b2] ++ post) ++ crc) XMODEM_SOH_FRAME_SIZE = true ->
  a1 = b1 /\ a2 = b2.
Proof.
  intros Hh Hc Hl Ha Hb.
  destruct hdr as [|s [|n [|m []]]], crc as [|c1 [|c2 []]]; try done.
  apply byte_frame in Ha as (_ & _ & _ & Ha & _), Hb as (_ & _ & _ & Hb & _).
  rewrite !checkSohFrame_fields by (done || rewrite !length_app; simpl; lia).
  apply Forall_app in Ha as [_ Ha], Hb as [_ Hb]. simpl in Ha, Hb. rewrite !Forall_cons in Ha, Hb.
  intros (_ & _ & E1) (_ & _ & E2). apply (crc16_burst pre post); [tauto..|congruence].
Qed.

(** ** The receiving side of the machine

    What the state machine needs of its client: [getData] hands over every byte
    that is pending and empties the queue, and the client can queue a received
    byte with [push], in all worlds that satisfy the client's own invariant.  The boot
    menu's [xmGetData] and [uart_buff] implement it. *)
Class XmLink {W} (ops : xm_ops W) := {
  pending : W -> list Z;
  drain : W -> W;
  push : Z -> W -> W;
  link_ok : W -> Prop;
  link_get : exists get, getData ops = Some get /\
    forall n w, link_ok w -> get n w = Ok (true, pending w, drain w);
  link_drain w : link_ok w -> link_ok (drain w) /\ pending (drain w) = [];
  link_drain_id w : link_ok w -> pending w = [] -> drain w = w;
  link_push b w : link_ok w -> pending w = [] -> link_ok (push b w) /\ pending (push b w) = [b];
  link_notify evt d buf n w w' : link_ok w -> notify ops evt d buf n w = Ok w' ->
    link_ok w' /\ pending w' = pending w;
  link_put b w w' : link_ok w -> put1 ops b w = Ok w' -> link_ok w' /\ pending w' = pending w
}.

(** Nothing is waiting to be fetched. *)
Definition resting {W} {ops : xm_ops W} {L : XmLink ops} (w : W) : Prop := link_ok w /\ pending w = [].

(** The world after [bytes] were queued and fetched one at a time. *)
Definition absorb {W} {ops : xm_ops W} {L : XmLink ops} (bytes : list Z) (w : W) : W :=
  foldl (fun w b => drain (push b w)) w bytes.

Arguments absorb : simpl never.

(** One poll per received byte. *)
Fixpoint deliver {W} (ops : xm_ops W) {L : XmLink ops} (stream : list (Z * Z)) (x : XMODEM) (w : W)
  : res (XMODEM * W) :=
  match stream with
  | [] => Ok (x, w)
  | (ts, b) :: rest =>
    let* (_, x, w) := xModemFSM ops ts x (push b w) in deliver ops rest x w
  end.

(** Well-formed machine states: the buffer has its declared size and the offset
    is the number of bytes in it; retry counters stay within their limits. *)
Record xm_wf (x : XMODEM) : Prop := {
  wf_frame : length (frame x) = 133%nat;
  wf_offset : 0 <= frame_offset x <= 133;
  wf_ncg : 0 <= ncg_send_retry_times x <=
    (if decide (xmState x = XMSTA_WAIT_TRANS) then 101 else 102);
  wf_soh : 0 <= soh_nak_retry_times x <=
    (if decide (xmState x = XMSTA_TRANSMIT) then 51 else 52)
}.

Section Link.
Context {W : Type} (ops : xm_ops W) {L : XmLink ops}.

Lemma absorb_app l1 l2 w : absorb (l1 ++ l2) w = absorb l2 (absorb l1 w).
Proof. unfold absorb. apply foldl_app. Qed.

Lemma absorb_one b w : resting w -> resting (absorb [b] w).
Proof. intros [Hok Hp]. destruct (link_push b w Hok Hp) as [Hok' _]. by apply link_drain. Qed.

Lemma absorb_resting l w : resting w -> resting (absorb l w).
Proof.
  revert w. induction l as [|b l IH]; intros w Hw; [done|].
  change (b :: l) with ([b] ++ l). rewrite absorb_app. by apply IH, absorb_one.
Qed.

Lemma put_resting b w w' : resting w -> put1 ops b w = Ok w' -> resting w'.
Proof. intros [Hok Hp] Hput. destruct (link_put b w w' Hok Hput) as [? E]. split; [done|]. by rewrite E. Qed.

Lemma notify_resting evt d buf n w w' :
  resting w -> notify ops evt d buf n w = Ok w' -> resting w'.
Proof.
  intros [Hok Hp] Hn. destruct (link_notify _ _ _ _ _ _ Hok Hn) as [? E]. split; [done|]. by rewrite E.
Qed.

(** Fetching from an empty queue changes nothing. *)
Lemma recv_frame_none get x w :
  (forall n w, link_ok w -> get n w = Ok (true, pending w, drain w)) ->
  xm_wf x -> resting w -> recv_frame get x w = Ok (true, x, w).
Proof.
  intros Hget [Hf Ho _ _] [Hok Hp]. unfold recv_frame. rewrite Hget, Hp by done. simpl.
  rewrite store_block_nil by lia. simpl. rewrite link_drain_id by done.
  rewrite Z.add_0_r, wrap_small by lia. by destruct x.
Qed.

(** Fetching one queued byte appends it to the frame. *)
Lemma recv_frame_one get x w b bs :
  (forall n w, link_ok w -> get n w = Ok (true, pending w, drain w)) ->
  xm_wf x -> resting w -> frame_offset x < 133 ->
  take (Z.to_nat (frame_offset x)) (frame x) = bs ->
  exists f', recv_frame get x (push b w) =
      Ok (true, set_frame x (frame_offset x + 1) f', absorb [b] w) /\
    length f' = 133%nat /\ take (S (Z.to_nat (frame_offset x))) f' = bs ++ [b].
Proof.
  intros Hget [Hf Ho _ _] [Hok Hp] Hlt Htake. destruct (link_push b w Hok Hp) as [Hok' Hpush].
  unfold recv_frame. rewrite Hget, Hpush by done. simpl.
  destruct (store_block_prefix (frame x) (Z.to_nat (frame_offset x)) b bs Htake) as (f' & E & Ht & Hl);
    [lia|].
  rewrite E. simpl. rewrite wrap_small by lia. exists f'. split; [done|]. split; [lia|done].
Qed.

(** An exception byte is only looked for in a frame of one byte. *)
Definition not_exception (x : XMODEM) : Prop :=
  frame_offset x = 1 ->
  fget (frame x) IDX_FRAME <> XM_FRAME_EOT /\ fget (frame x) IDX_FRAME <> XM_FRAME_CAN.

Lemma dealExceptionFrame_after get x w x' w' :
  getData ops = Some get -> recv_frame get x w = Ok (true, x', w') -> not_exception x' ->
  dealExceptionFrame ops x w = Ok (XM_FRAME_UNKOWN, x', w').
Proof.
  intros Hg Hr Hne. unfold dealExceptionFrame. rewrite Hg, Hr. simpl.
  destruct (Z.eqb_spec (frame_offset x') 1) as [E|]; [|done].
  destruct (Hne E). rewrite !(proj2 (Z.eqb_neq _ _)) by done. done.
Qed.

(** Polling in the transfer state after [recv_frame] appended a byte that makes
    neither an exception frame nor a whole packet, before the timeout. *)
Lemma transmit_partial get ts x w x' w' :
  getData ops = Some get -> (forall n w, link_ok w -> get n w = Ok (true, pending w, drain w)) ->
  recv_frame get x w = Ok (true, x', w') -> xm_wf x' -> resting w' ->
  not_exception x' -> checkSohFrame (frame x') (frame_offset x') = false ->
  s32 (ts - timestamp_soh_recv_prev x') < XM_SOH_RECV_TIMEOUT ->
  fsm_transmit ops ts x w = Ok (x', w').
Proof.
  intros Hg Hget Hr Hwf Hp Hne Hc Hts. unfold fsm_transmit.
  rewrite (dealExceptionFrame_after get x w x' w') by done. simpl.
  rewrite (dealExceptionFrame_after get x' w' x' w') by (done || by apply recv_frame_none).
  simpl. unfold dealSohFrame. rewrite Hg, recv_frame_none by done. simpl. rewrite Hc. simpl.
  rewrite (proj2 (Z.leb_gt _ _)) by done. done.
Qed.

(** The same when the byte completes a packet. *)
Lemma transmit_complete get ts x w x' w' :
  getData ops = Some get -> (forall n w, link_ok w -> get n w = Ok (true, pending w, drain w)) ->
  recv_frame get x w = Ok (true, x', w') -> xm_wf x' -> resting w' ->
  not_exception x' -> checkSohFrame (frame x') (frame_offset x') = true ->
  fsm_transmit ops ts x w =
    let* w1 := notify ops XMEVT_SOH (fget (frame x') IDX_PKT_NUM)
                 (Some (take 128 (drop 3 (frame x')))) XMODEM_DATA_SIZE w' in
    let* w2 := put1 ops XM_FRAME_ACK w1 in
    Ok (set_soh (set_frame x' 0 (frame x')) ts 0, w2).
Proof.
  intros Hg Hget Hr Hwf Hp Hne Hc. unfold fsm_transmit.
  rewrite (dealExceptionFrame_after get x w x' w') by done. simpl.
  rewrite (dealExceptionFrame_after get x' w' x' w') by (done || by apply recv_frame_none).
  simpl. unfold dealSohFrame. rewrite Hg, recv_frame_none by done. simpl. rewrite Hc.
  change (Z.to_nat XMODEM_DATA_SIZE) with 128%nat. change IDX_DATAS with 3%nat.
  by destruct (notify ops XMEVT_SOH _ _ _ w').
Qed.
End Link.

(** The first byte of a frame decides whether it can be an exception frame. *)
Definition packet_head (l : list Z) : Prop :=
  forall b, head l = Some b -> b <> XM_FRAME_EOT /\ b <> XM_FRAME_CAN.

(** All polls happen before the receive timeout of the packet in progress. *)
Definition in_time (t0 : Z) (stream : list (Z * Z)) : Prop :=
  Forall (fun p => s32 (p.1 - t0) < XM_SOH_RECV_TIMEOUT) stream.

(** A frame built by a sender passes the check. *)
Lemma soh_frame_ok n data :
  byte_list data -> length data = 128%nat -> 0 <= n < 256 ->
  checkSohFrame (soh_frame n data) XMODEM_SOH_FRAME_SIZE = true.
Proof.
  intros Hb Hl Hn. unfold soh_frame. pose proof (crc16_range data) as Hc.
  assert (0 <= crc16 data .>> 8 < 256)
    by (rewrite Z.shiftr_div_pow2 by lia; change (2 ^ 16) with (2 ^ 8 * 256) in Hc; 
        split; [apply Z.div_pos|apply Z.div_lt_upper_bound]; lia).
  rewrite checkSohFrame_fields by done. rewrite byte_complement, crc_halves; [done|..];
    done || (apply (lxor_range 8); lia) || (apply (land_range 8); lia).
Qed.

Lemma soh_frame_data n data : length data = 128%nat -> take 128 (drop 3 (soh_frame n data)) = data.
Proof. intros Hl. unfold soh_frame. simpl. rewrite drop_0. by apply take_app_length'. Qed.

Section Deliver.
Context {W : Type} (ops : xm_ops W) {L : XmLink ops}.

Lemma checkSohFrame_short f n : n < 133 -> checkSohFrame f n = false.
Proof.
  intros Hn. unfold checkSohFrame. rewrite (proj2 (Z.ltb_lt _ _)); [done|]. exact Hn.
Qed.

Lemma fget_take (f : list Z) n i : (i < n)%nat -> fget (take n f) i = fget f i.
Proof. intros Hi. unfold fget. by rewrite lookup_take_lt. Qed.

Lemma packet_head_not_exception x f :
  packet_head f -> take (Z.to_nat (frame_offset x)) (frame x) = f -> not_exception x.
Proof.
  intros Hh Ht Ho. rewrite Ho in Ht. change (Z.to_nat 1) with 1%nat in Ht.
  rewrite <- (fget_take (frame x) 1), Ht by (unfold IDX_FRAME; lia). unfold fget.
  destruct f as [|b f]; simpl; [done|]. by apply (Hh b).
Qed.

Lemma packet_head_app l1 l2 : packet_head (l1 ++ l2) -> packet_head l1.
Proof. intros H b Hb. apply H. by destruct l1. Qed.

Lemma deliver_app s1 s2 x w :
  deliver ops (s1 ++ s2) x w = let* (x, w) := deliver ops s1 x w in deliver ops s2 x w.
Proof.
  revert x w. induction s1 as [|[ts b] s1 IH]; intros x w; simpl; [done|].
  destruct (xModemFSM ops ts x (push b w)) as [[[st x'] w']| |]; simpl; [apply IH|done..].
Qed.

(** Receiving bytes that do not complete a valid packet: they pile up in the
    frame buffer and nothing else happens. *)
Lemma deliver_partial stream x w pre :
  xmState x = XMSTA_TRANSMIT -> xm_wf x -> resting w ->
  take (Z.to_nat (frame_offset x)) (frame x) = pre ->
  frame_offset x + Z.of_nat (length stream) <= 133 ->
  packet_head (pre ++ stream.*2) -> in_time (timestamp_soh_recv_prev x) stream ->
  (frame_offset x + Z.of_nat (length stream) = 133 ->
     forall f, take 133 f = pre ++ stream.*2 -> checkSohFrame f 133 = false) ->
  exists f', deliver ops stream x w =
      Ok (set_frame x (frame_offset x + Z.of_nat (length stream)) f', absorb stream.*2 w) /\
    length f' = 133%nat /\
    take (Z.to_nat (frame_offset x) + length stream) f' = pre ++ stream.*2.
Proof.
  revert x w pre. induction stream as [|[ts b] stream IH];
    intros x w pre Hst Hwf Hp Hpre Hlen Hhd Htime Hbad; simpl in *.
  { exists (frame x). rewrite Z.add_0_r, Nat.add_0_r, app_nil_r.
    split; [by destruct x|]. split; [apply Hwf|done]. }
  destruct (link_get (ops:=ops)) as (get & Hg & Hget).
  destruct (recv_frame_one ops get x w b pre) as (f1 & Hr & Hl1 & Ht1); [done..|lia|done|].
  set (x1 := set_frame x (frame_offset x + 1) f1) in *.
  inversion Htime as [|? ? Hts Hrest]; subst.
  assert (xm_wf x1) as Hwf1 by (destruct Hwf; split; simpl; lia || done).
  assert (take (Z.to_nat (frame_offset x1)) (frame x1) =
          take (Z.to_nat (frame_offset x)) (frame x) ++ [b]) as Hpre1.
  { destruct Hwf. simpl. by rewrite Z2Nat.inj_add, Nat.add_1_r by lia. }
  rewrite cons_middle, app_assoc in Hhd.
  assert (fsm_transmit ops ts x (push b w) = Ok (x1, absorb [b] w)) as Hstep.
  { apply (transmit_partial ops get); [done..|by apply absorb_one| | |done].
    - eapply packet_head_not_exception; [by eapply packet_head_app|done].
    - simpl. destruct (Z.lt_ge_cases (frame_offset x + 1) 133) as [|Hge].
      + by apply checkSohFrame_short.
      + assert (stream = []) as -> by (destruct stream; simpl in *; [done|lia]).
        replace (frame_offset x + 1) with 133 by lia. apply Hbad; [simpl; lia|].
        simpl. rewrite <- Ht1. f_equal. destruct Hwf. lia. }
  unfold xModemFSM. rewrite Hst, Hstep. simpl.
  destruct (IH x1 (absorb [b] w) _ Hst Hwf1 (absorb_one ops b w Hp) Hpre1) as (f' & Hd & Hl' & Ht');
    [simpl; lia|done|done|..].
  { simpl. intros Hn f Hf. apply Hbad; [lia|]. by rewrite Hf, <- app_assoc. }
  exists f'. rewrite Hd. split; [|split; [done|]].
  - f_equal. f_equal. simpl. unfold set_frame; simpl. f_equal. lia.
  - destruct Hwf. rewrite <- app_assoc in Ht'. etrans; [|exact Ht']. f_equal. simpl. lia.
Qed.

(** The 133 bytes of a frame, one per poll. *)
Lemma deliver_one_packet stream x w n data :
  xmState x = XMSTA_TRANSMIT -> xm_wf x -> frame_offset x = 0 -> resting w ->
  byte_list data -> length data = 128%nat -> 0 <= n < 256 ->
  stream.*2 = soh_frame n data -> in_time (timestamp_soh_recv_prev x) stream ->
  exists f' ts, last stream.*1 = Some ts /\ length f' = 133%nat /\
    deliver ops stream x w =
      let* w1 := notify ops XMEVT_SOH n (Some data) 128 (absorb (soh_frame n data) w) in
      let* w2 := put1 ops XM_FRAME_ACK w1 in
      Ok (set_soh (set_frame x 0 f') ts 0, w2).
Proof.
  intros Hst Hwf Ho Hp Hdata Hlen Hn Hs Htime.
  assert (length stream = 133%nat) as Hls.
  { rewrite <- (length_fmap snd), Hs. simpl. rewrite length_app. simpl. lia. }
  destruct stream as [|[ts b] stream _] using rev_ind; [done|].
  rewrite length_app in Hls. simpl in Hls. apply Forall_app in Htime as [Htime Hlast].
  rewrite fmap_app in Hs. simpl in Hs.
  assert (packet_head (stream.*2 ++ [b])) as Hhd by (rewrite Hs; intros ? [= <-]; done).
  destruct (deliver_partial stream x w []) as (f1 & Hd & Hl1 & Ht1);
    [done..|rewrite Ho; done|lia|by eapply packet_head_app|done|lia|].
  rewrite Ho in Hd, Ht1. simpl in Ht1. set (x1 := set_frame x (0 + _) f1) in Hd.
  assert (xm_wf x1) as Hwf1 by (destruct Hwf; split; simpl; lia || done).
  destruct (link_get (ops:=ops)) as (get & Hg & Hget).
  destruct (recv_frame_one ops get x1 (absorb stream.*2 w) b stream.*2) as (f2 & Hr & Hl2 & Ht2);
    [done|done|by apply absorb_resting|simpl; lia|rewrite <- Ht1; f_equal; simpl; lia|].
  set (x2 := set_frame x1 _ f2) in Hr.
  assert (xm_wf x2) as Hwf2 by (destruct Hwf1; split; simpl in *; lia || done).
  assert (f2 = soh_frame n data) as Hf2.
  { rewrite <- Hs, <- Ht2. simpl. rewrite take_ge by lia. done. }
  exists f2, ts. split; [rewrite fmap_app; apply last_snoc|]. split; [done|].
  rewrite deliver_app, Hd. simpl. unfold xModemFSM. simpl. rewrite Hst.
  assert (frame_offset x2 = 133) as Ho2 by (simpl; lia).
  rewrite (transmit_complete ops get ts x1 _ x2 _ Hg Hget Hr Hwf2 (absorb_one ops b _ (absorb_resting ops _ _ Hp))).
  - rewrite <- absorb_app, Hs. cbn [frame set_frame x2]. rewrite Hf2, soh_frame_data by done.
    change (fget (soh_frame n data) IDX_PKT_NUM) with n. change XMODEM_DATA_SIZE with 128.
    destruct (notify ops XMEVT_SOH n _ _ _) as [w1| |]; simpl; [|done..].
    by destruct (put1 ops XM_FRAME_ACK w1).
  - intros E. lia.
  - rewrite Ho2. simpl. rewrite Hf2. by apply soh_frame_ok.
Qed.

(** The receiver delivers packets.  If the machine is between packets of a
    transfer and the 133 bytes of a well-formed frame arrive, one per poll and all
    before the receive timeout, then the client is told of the packet exactly once,
    with the packet number and exactly the 128 data bytes, one ACK is sent after
    that, and the machine is between packets again with its timer restarted. *)
Theorem deliver_packet stream x w n data :
  xmState x = XMSTA_TRANSMIT -> xm_wf x -> frame_offset x = 0 -> resting w ->
  byte_list data -> length data = 128%nat -> 0 <= n < 256 ->
  stream.*2 = soh_frame n data -> in_time (timestamp_soh_recv_prev x) stream ->
  exists f' ts, last stream.*1 = Some ts /\ length f' = 133%nat /\
    deliver ops stream x w =
      let* w1 := notify ops XMEVT_SOH n (Some data) 128 (absorb (soh_frame n data) w) in
      let* w2 := put1 ops XM_FRAME_ACK w1 in
      Ok (set_soh (set_frame x 0 f') ts 0, w2).
Proof. apply deliver_one_packet. Qed.
End Deliver.

Section Exceptions.
Context {W : Type} (ops : xm_ops W) {L : XmLink ops}.

(** A first byte in an empty frame. *)
Lemma recv_first get x w b :
  (forall n w, link_ok w -> get n w = Ok (true, pending w, drain w)) ->
  xm_wf x -> resting w -> frame_offset x = 0 ->
  exists f', recv_frame get x (push b w) = Ok (true, set_frame x 1 f', absorb [b] w) /\
    length f' = 133%nat /\ fget f' IDX_FRAME = b.
Proof.
  intros Hget Hwf Hp Ho.
  destruct (recv_frame_one ops get x w b []) as (f' & Hr & Hl & Ht);
    [done..|lia|by rewrite Ho|].
  rewrite Ho in Hr, Ht. exists f'. split; [done|]. split; [done|].
  by destruct f'; simpl in Ht; simplify_eq.
Qed.

(** EOT as the first byte of a frame. *)
Lemma transmit_eot_byte ts x w :
  xmState x = XMSTA_TRANSMIT -> xm_wf x -> frame_offset x = 0 -> resting w ->
  exists f', xModemFSM ops ts x (push XM_FRAME_EOT w) =
    let* w1 := notify ops XMEVT_EOT 0 None 0 (absorb [XM_FRAME_EOT] w) in
    Ok (XMSTA_EXIT, set_xmState (set_frame x 0 f') XMSTA_EXIT, w1).
Proof.
  intros Hst Hwf Ho Hp. destruct (link_get (ops:=ops)) as (get & Hg & Hget).
  destruct (recv_first get x w XM_FRAME_EOT) as (f' & Hr & Hl & Hb); [done..|].
  exists f'. unfold xModemFSM. rewrite Hst. unfold fsm_transmit, dealExceptionFrame.
  rewrite Hg, Hr. simpl. rewrite Hb. simpl.
  by destruct (notify ops XMEVT_EOT 0 None 0 (absorb [XM_FRAME_EOT] w)).
Qed.

(** An EOT byte between packets ends the transfer: the client is told, and
    the machine is on its way out. *)
Theorem transmit_eot ts x w :
  xmState x = XMSTA_TRANSMIT -> xm_wf x -> frame_offset x = 0 -> resting w ->
  exists f', xModemFSM ops ts x (push XM_FRAME_EOT w) =
    let* w1 := notify ops XMEVT_EOT 0 None 0 (absorb [XM_FRAME_EOT] w) in
    Ok (XMSTA_EXIT, set_xmState (set_frame x 0 f') XMSTA_EXIT, w1).
Proof. apply transmit_eot_byte. Qed.

(** A CAN byte between packets does not end the transfer.  The client is
    told, but the first of the two calls of [dealExceptionFrame] consumes the
    byte, so the test for [XM_FRAME_CAN] on the second call never sees it and the
    machine stays in the transfer state. *)
Theorem transmit_can_ignored ts x w w1 :
  xmState x = XMSTA_TRANSMIT -> xm_wf x -> frame_offset x = 0 -> resting w ->
  s32 (ts - timestamp_soh_recv_prev x) < XM_SOH_RECV_TIMEOUT ->
  notify ops XMEVT_CAN 0 None 0 (absorb [XM_FRAME_CAN] w) = Ok w1 ->
  exists f', xModemFSM ops ts x (push XM_FRAME_CAN w) = Ok (XMSTA_TRANSMIT, set_frame x 0 f', w1).
Proof.
  intros Hst Hwf Ho Hp Hts Hn. destruct (link_get (ops:=ops)) as (get & Hg & Hget).
  destruct (recv_first get x w XM_FRAME_CAN) as (f' & Hr & Hl & Hb); [done..|].
  set (x' := set_frame x 0 f').
  assert (xm_wf x') as Hwf' by (destruct Hwf; split; simpl; lia || done).
  assert (resting w1) as Hp1.
  { eapply notify_resting; [by apply absorb_one|exact Hn]. }
  exists f'. unfold xModemFSM. rewrite Hst. unfold fsm_transmit at 1, dealExceptionFrame at 1.
  rewrite Hg, Hr. simpl. rewrite Hb. simpl. rewrite Hn. simpl.
  match goal with |- context [dealExceptionFrame ops ?y w1] => change y with x' end.
  rewrite (dealExceptionFrame_after ops get x' w1 x' w1) by (done || by apply (recv_frame_none ops)).
  simpl. unfold dealSohFrame. rewrite Hg, (recv_frame_none ops) by done. simpl.
  rewrite (proj2 (Z.leb_gt _ _)) by done.
  simpl. by rewrite Hst.
Qed.

(** One byte more than the buffer holds. *)
Lemma deliver_too_many stream x w :
  xmState x = XMSTA_TRANSMIT -> xm_wf x -> frame_offset x = 0 -> resting w ->
  length stream = 134%nat -> packet_head stream.*2 ->
  in_time (timestamp_soh_recv_prev x) stream ->
  checkSohFrame (take 133 stream.*2) 133 = false ->
  deliver ops stream x w = Ub.
Proof.
  intros Hst Hwf Ho Hp Hlen Hhd Htime Hbad.
  destruct stream as [|[ts b] stream _] using rev_ind; [done|].
  rewrite length_app in Hlen. simpl in Hlen. rewrite fmap_app in Hhd, Hbad.
  apply Forall_app in Htime as [Htime _].
  rewrite take_app_length' in Hbad by (rewrite length_fmap; lia).
  destruct (deliver_partial ops stream x w []) as (f1 & Hd & Hl1 & Ht1);
    [done..|rewrite Ho; done|lia|by eapply packet_head_app|done| |].
  { simpl. intros _ f Hf. rewrite <- Hf in Hbad. revert Hbad.
    unfold checkSohFrame, calcCrc. rewrite !fget_take by (unfold IDX_FRAME, IDX_PKT_NUM,
      IDX_PKT_NUM_A, IDX_CHKSUM; lia).
    change (Z.to_nat (u8 XMODEM_DATA_SIZE)) with 128%nat.
    rewrite skipn_firstn_comm, take_take. done. }
  rewrite deliver_app, Hd. simpl. unfold xModemFSM. simpl. rewrite Hst.
  destruct (link_get (ops:=ops)) as (get & Hg & Hget).
  destruct (absorb_resting ops stream.*2 w Hp) as [Hok Hpa]. destruct (link_push b _ Hok Hpa) as [Hok' Hpush].
  unfold fsm_transmit, dealExceptionFrame. rewrite Hg. unfold recv_frame. rewrite Hget, Hpush by done. simpl.
  rewrite Ho.
  unfold store_block. rewrite decide_False by (simpl; lia). done.
Qed.
(** The frame buffer overflows.  A client whose [getData] hands over every
    pending byte without looking at the room left in [*buffer_len] lets 134 bytes
    that contain no valid packet run past the end of [xmodem.frame]. *)
Theorem deliver_overflow stream x w :
  xmState x = XMSTA_TRANSMIT -> xm_wf x -> frame_offset x = 0 -> resting w ->
  length stream = 134%nat -> packet_head stream.*2 ->
  in_time (timestamp_soh_recv_prev x) stream ->
  checkSohFrame (take 133 stream.*2) 133 = false ->
  deliver ops stream x w = Ub.
Proof. apply deliver_too_many. Qed.
End Exceptions.

(** ** Whole transfers *)
Section Session.
Context {W : Type} (ops : xm_ops W) {L : XmLink ops}.

(** Waiting for the first packet: a byte that does not complete it. *)
Lemma wait_byte ts x w b pre :
  xmState x = XMSTA_WAIT_TRANS -> xm_wf x -> resting w -> frame_offset x < 132 ->
  take (Z.to_nat (frame_offset x)) (frame x) = pre ->
  s32 (ts - timestamp_ncg_sent_prev x) < XM_NCG_RESEND_DLY ->
  exists f', xModemFSM ops ts x (push b w) =
      Ok (XMSTA_WAIT_TRANS, set_frame x (frame_offset x + 1) f', absorb [b] w) /\
    length f' = 133%nat /\ take (S (Z.to_nat (frame_offset x))) f' = pre ++ [b].
Proof.
  intros Hst Hwf Hp Ho Hpre Hts. destruct (link_get (ops:=ops)) as (get & Hg & Hget).
  destruct (recv_frame_one ops get x w b pre) as (f' & Hr & Hl & Ht); [done..|lia|done|].
  exists f'. split; [|done]. unfold xModemFSM. rewrite Hst. unfold fsm_wait_trans, dealSohFrame.
  rewrite Hg, Hr. cbn [res_bind]. cbn [frame frame_offset set_frame].
  rewrite checkSohFrame_short by lia. cbn [res_bind timestamp_ncg_sent_prev set_frame].
  rewrite (proj2 (Z.leb_gt _ _)) by done. cbn [res_bind xmState set_frame]. by rewrite Hst.
Qed.

Lemma wait_bytes stream x w pre :
  xmState x = XMSTA_WAIT_TRANS -> xm_wf x -> resting w ->
  take (Z.to_nat (frame_offset x)) (frame x) = pre ->
  frame_offset x + Z.of_nat (length stream) <= 132 ->
  Forall (fun p => s32 (p.1 - timestamp_ncg_sent_prev x) < XM_NCG_RESEND_DLY) stream ->
  exists f', deliver ops stream x w =
      Ok (set_frame x (frame_offset x + Z.of_nat (length stream)) f', absorb stream.*2 w) /\
    length f' = 133%nat /\ take (Z.to_nat (frame_offset x) + length stream) f' = pre ++ stream.*2.
Proof.
  revert x w pre. induction stream as [|[ts b] stream IH]; intros x w pre Hst Hwf Hp Hpre Hlen Ht.
  { exists (frame x). cbn. rewrite Z.add_0_r, Nat.add_0_r, app_nil_r. destruct Hwf.
    split; [by destruct x|done]. }
  apply Forall_cons in Ht as [Hts Ht]. cbn [length] in Hlen.
  destruct (wait_byte ts x w b pre) as (f1 & E1 & Hl1 & Ht1); [done..|lia|done|done|].
  set (x1 := set_frame x (frame_offset x + 1) f1) in *.
  assert (xm_wf x1) as Hwf1 by (destruct Hwf; split; cbn; lia || done).
  destruct (IH x1 (absorb [b] w) (pre ++ [b])) as (f' & E & Hl & Htk);
    [done|done|by apply absorb_one| |cbn; lia|done|].
  { destruct Hwf. cbn. rewrite Z2Nat.inj_add, Nat.add_1_r by lia. done. }
  exists f'. cbn [deliver]. rewrite E1. cbn [res_bind]. rewrite E. split; [|split; [done|]].
  - f_equal. f_equal. unfold set_frame, x1. cbn. f_equal. lia.
  - destruct Hwf. cbn in Htk. rewrite <- app_assoc in Htk. etrans; [|exact Htk]. f_equal. cbn. lia.
Qed.

(** The first packet starts the transfer. *)
Lemma deliver_first_packet stream x w n data :
  xmState x = XMSTA_WAIT_TRANS -> xm_wf x -> frame_offset x = 0 -> resting w ->
  byte_list data -> length data = 128%nat -> 0 <= n < 256 ->
  stream.*2 = soh_frame n data ->
  Forall (fun p => s32 (p.1 - timestamp_ncg_sent_prev x) < XM_NCG_RESEND_DLY) stream ->
  exists f' ts, last stream.*1 = Some ts /\ length f' = 133%nat /\
    deliver ops stream x w =
      let* w1 := notify ops XMEVT_SOH n (Some data) 128 (absorb (soh_frame n data) w) in
      let* w2 := put1 ops XM_FRAME_ACK w1 in
      Ok (set_xmState (set_soh (set_frame x 0 f') ts 0) XMSTA_TRANSMIT, w2).
Proof.
  intros Hst Hwf Ho Hp Hdata Hlen Hn Hs Htime.
  assert (length stream = 133%nat) as Hls.
  { rewrite <- (length_fmap snd), Hs. simpl. rewrite length_app. simpl. lia. }
  destruct stream as [|[ts b] stream _] using rev_ind; [done|].
  rewrite length_app in Hls. simpl in Hls. apply Forall_app in Htime as [Htime _].
  rewrite fmap_app in Hs. simpl in Hs.
  destruct (wait_bytes stream x w []) as (f1 & Hd & Hl1 & Ht1); [done..|by rewrite Ho|lia|done|].
  rewrite Ho in Hd, Ht1. simpl in Ht1. set (x1 := set_frame x (0 + _) f1) in Hd.
  assert (xm_wf x1) as Hwf1 by (destruct Hwf; split; simpl; lia || done).
  destruct (link_get (ops:=ops)) as (get & Hg & Hget).
  destruct (recv_frame_one ops get x1 (absorb stream.*2 w) b stream.*2) as (f2 & Hr & Hl2 & Ht2);
    [done|done|by apply absorb_resting|simpl; lia|rewrite <- Ht1; f_equal; simpl; lia|].
  assert (f2 = soh_frame n data) as Hf2.
  { rewrite <- Hs, <- Ht2. simpl. rewrite take_ge by lia. done. }
  exists f2, ts. split; [rewrite fmap_app; apply last_snoc|]. split; [done|].
  rewrite deliver_app, Hd. cbn [res_bind deliver]. unfold xModemFSM. cbn [xmState x1 set_frame]. rewrite Hst.
  unfold fsm_wait_trans, dealSohFrame. rewrite Hg, Hr. cbn [res_bind]. cbn [frame frame_offset set_frame x1].
  replace (0 + Z.of_nat (length stream) + 1) with XMODEM_SOH_FRAME_SIZE
    by (change XMODEM_SOH_FRAME_SIZE with 133; lia).
  rewrite Hf2, (soh_frame_ok n data) by done. change (Z.to_nat XMODEM_DATA_SIZE) with 128%nat.
  change IDX_DATAS with 3%nat. rewrite soh_frame_data by done.
  change (fget (soh_frame n data) IDX_PKT_NUM) with n. change XMODEM_DATA_SIZE with 128.
  rewrite <- absorb_app, Hs.
  destruct (notify ops XMEVT_SOH n _ _ _) as [w1| |]; cbn [res_bind]; [|done..].
  by destruct (put1 ops XM_FRAME_ACK w1).
Qed.

(** What a sequence of packets makes the client do: take the bytes, be told of the
    packet, send ACK. *)
Fixpoint transfer (pkts : list (Z * list Z)) (w : W) : res W :=
  match pkts with
  | [] => Ok w
  | (n, data) :: pkts =>
    let* w := notify ops XMEVT_SOH n (Some data) 128 (absorb (soh_frame n data) w) in
    let* w := put1 ops XM_FRAME_ACK w in
    transfer pkts w
  end.

(** The packets [pkts] arrive as the byte streams [ss], each within the receive
    timeout of the packet before; the first one after time [t0]. *)
Fixpoint arrive (t0 : Z) (pkts : list (Z * list Z)) (ss : list (list (Z * Z))) : Prop :=
  match pkts, ss with
  | [], [] => True
  | (n, data) :: pkts, s :: ss =>
    byte_list data /\ length data = 128%nat /\ 0 <= n < 256 /\
    s.*2 = soh_frame n data /\ in_time t0 s /\ arrive (default 0 (last s.*1)) pkts ss
  | _, _ => False
  end.

Lemma deliver_packets pkts ss x w :
  xmState x = XMSTA_TRANSMIT -> xm_wf x -> frame_offset x = 0 -> resting w ->
  arrive (timestamp_soh_recv_prev x) pkts ss ->
  exists x', xmState x' = XMSTA_TRANSMIT /\ xm_wf x' /\ frame_offset x' = 0 /\
    deliver ops (mjoin ss) x w = let* w' := transfer pkts w in Ok (x', w').
Proof.
  revert ss x w. induction pkts as [|[n data] pkts IH]; intros [|s ss] x w Hst Hwf Ho Hp Ha; try done.
  { by exists x. }
  destruct Ha as (Hb & Hl & Hn & Hs & Ht & Ha).
  destruct (deliver_one_packet ops s x w n data) as (f' & ts & Hts & Hlf & E); [done..|].
  set (x1 := set_soh (set_frame x 0 f') ts 0) in E.
  assert (xm_wf x1) as Hwf1.
  { destruct Hwf as [? ? ? ?]. split; cbn; [done|lia|done|]. case_decide; lia. }
  cbn [mjoin list_join transfer]. rewrite deliver_app, E.
  destruct (notify ops XMEVT_SOH n (Some data) 128 (absorb (soh_frame n data) w)) as [w1| |] eqn:En;
    cbn [res_bind]; [|exists x; refine (conj Hst (conj Hwf (conj Ho eq_refl)))..].
  destruct (put1 ops XM_FRAME_ACK w1) as [w2| |] eqn:Ep; cbn [res_bind]; [|exists x; refine (conj Hst (conj Hwf (conj Ho eq_refl)))..].
  apply IH; [done|done|done| |].
  - eapply put_resting; [|exact Ep]. eapply notify_resting; [|exact En]. by apply absorb_resting.
  - rewrite Hts in Ha. exact Ha.
Qed.

(** A transfer from its first packet on. *)
Lemma deliver_session n data s pkts ss x w :
  xmState x = XMSTA_WAIT_TRANS -> xm_wf x -> frame_offset x = 0 -> resting w ->
  byte_list data -> length data = 128%nat -> 0 <= n < 256 -> s.*2 = soh_frame n data ->
  Forall (fun p => s32 (p.1 - timestamp_ncg_sent_prev x) < XM_NCG_RESEND_DLY) s ->
  arrive (default 0 (last s.*1)) pkts ss ->
  exists x', xmState x' = XMSTA_TRANSMIT /\ xm_wf x' /\ frame_offset x' = 0 /\
    deliver ops (s ++ mjoin ss) x w = let* w' := transfer ((n, data) :: pkts) w in Ok (x', w').
Proof.
  intros Hst Hwf Ho Hp Hb Hl Hn Hs Ht Ha.
  destruct (deliver_first_packet s x w n data) as (f' & ts & Hts & Hlf & E); [done..|].
  set (x1 := set_xmState (set_soh (set_frame x 0 f') ts 0) XMSTA_TRANSMIT) in E.
  assert (xm_wf x1) as Hwf1.
  { destruct Hwf as [? ? Hncg ?]. rewrite Hst, decide_True in Hncg by done.
    split; cbn -[decide]; [done|lia| |]; repeat case_decide; lia || done. }
  destruct (notify ops XMEVT_SOH n (Some data) 128 (absorb (soh_frame n data) w)) as [w1| |] eqn:En.
  2-3: exists x1; rewrite deliver_app, E; cbn [transfer res_bind]; by rewrite En.
  destruct (put1 ops XM_FRAME_ACK w1) as [w2| |] eqn:Ep.
  2-3: exists x1; rewrite deliver_app, E; cbn [transfer res_bind]; by rewrite En; cbn [res_bind]; rewrite Ep.
  destruct (deliver_packets pkts ss x1 w2) as (x' & Hx & Hwf' & Ho' & E'); [done|done|done| |by rewrite Hts in Ha|].
  { eapply put_resting; [|exact Ep]. eapply notify_resting; [|exact En]. by apply absorb_resting. }
  exists x'. split_and!; [done..|]. rewrite deliver_app, E. cbn [transfer res_bind]. rewrite En. cbn [res_bind].
  rewrite Ep. cbn [res_bind]. exact E'.
Qed.
End Session.

(** ** A silent line *)

(** Polls at the given times, with no byte received. *)
Fixpoint polls {W} (ops : xm_ops W) (tss : list Z) (x : XMODEM) (w : W) : res (XMODEM * W) :=
  match tss with
  | [] => Ok (x, w)
  | ts :: rest => let* (_, x, w) := xModemFSM ops ts x w in polls ops rest x w
  end.

(** Sending the byte [b], [n] times. *)
Fixpoint put_times {W} (ops : xm_ops W) (n : nat) (b : Z) (w : W) : res W :=
  match n with
  | O => Ok w
  | S n => let* w := put1 ops b w in put_times ops n b w
  end.

(** Each poll comes at least [d] milliseconds after the one before. *)
Fixpoint spaced (d t0 : Z) (tss : list Z) : Prop :=
  match tss with
  | [] => True
  | ts :: rest => d <= s32 (ts - t0) /\ spaced d ts rest
  end.

Section Silence.
Context {W : Type} (ops : xm_ops W) {L : XmLink ops}.

(** Nothing received: [dealSohFrame] reports no packet. *)
Lemma dealSohFrame_silent x w :
  xm_wf x -> resting w -> frame_offset x < 133 -> dealSohFrame ops x w = Ok (false, x, w).
Proof.
  intros Hwf Hp Ho. destruct (link_get (ops:=ops)) as (get & Hg & Hget).
  unfold dealSohFrame. rewrite Hg, (recv_frame_none ops) by done. simpl.
  by rewrite checkSohFrame_short.
Qed.

Lemma dealExceptionFrame_silent x w :
  xm_wf x -> resting w -> not_exception x ->
  dealExceptionFrame ops x w = Ok (XM_FRAME_UNKOWN, x, w).
Proof.
  intros Hwf Hp Hne. destruct (link_get (ops:=ops)) as (get & Hg & Hget).
  apply (dealExceptionFrame_after ops get); [done| |done]. by apply (recv_frame_none ops).
Qed.

(** One timed-out poll while waiting for the first packet. *)
Lemma wait_poll ts x w :
  xmState x = XMSTA_WAIT_TRANS -> xm_wf x -> resting w -> frame_offset x < 133 ->
  1000 <= s32 (ts - timestamp_ncg_sent_prev x) ->
  fsm_wait_trans ops ts x w =
    (if 100 <? ncg_send_retry_times x
     then Ok (set_xmState (set_ncg x (timestamp_ncg_sent_prev x) (ncg_send_retry_times x + 1))
                XMSTA_EXIT, w)
     else let* w' := put1 ops XM_FRAME_NCG w in
          Ok (set_frame (set_ncg x ts (ncg_send_retry_times x + 1)) 0 (frame x), w')).
Proof.
  intros Hst Hwf Hp Ho Hts. unfold fsm_wait_trans. rewrite dealSohFrame_silent by done. simpl.
  rewrite (proj2 (Z.leb_le _ _)) by done. destruct Hwf as [_ _ Hn _]. rewrite Hst in Hn. simpl in Hn.
  by rewrite swrap_small by lia.
Qed.

(** One timed-out poll during a transfer. *)
Lemma transmit_poll ts x w :
  xmState x = XMSTA_TRANSMIT -> xm_wf x -> resting w -> frame_offset x < 133 ->
  not_exception x -> 1000 <= s32 (ts - timestamp_soh_recv_prev x) ->
  fsm_transmit ops ts x w =
    (if 50 <? soh_nak_retry_times x
     then Ok (set_xmState (set_frame (set_soh x (timestamp_soh_recv_prev x)
                (soh_nak_retry_times x + 1)) 0 (frame x)) XMSTA_EXIT, w)
     else let* w' := put1 ops XM_FRAME_NAK w in
          Ok (set_frame (set_soh x ts (soh_nak_retry_times x + 1)) 0 (frame x), w')).
Proof.
  intros Hst Hwf Hp Ho Hne Hts. unfold fsm_transmit.
  rewrite dealExceptionFrame_silent by done. simpl.
  rewrite dealExceptionFrame_silent by done. simpl.
  rewrite dealSohFrame_silent by done. simpl.
  rewrite (proj2 (Z.leb_le _ _)) by done. destruct Hwf as [_ _ _ Hn]. rewrite Hst in Hn. simpl in Hn.
  by rewrite swrap_small by lia.
Qed.

(** Waiting for a sender ends.  If no byte arrives and the polls come a
    second or more apart, the receiver sends its 'C' handshake exactly 101 times
    and then gives up: the 102nd poll leaves the machine in the exit state. *)
Theorem wait_gives_up tss x w :
  xmState x = XMSTA_WAIT_TRANS -> xm_wf x -> resting w -> frame_offset x < 133 ->
  ncg_send_retry_times x = 0 ->
  spaced 1000 (timestamp_ncg_sent_prev x) tss -> length tss = 102%nat ->
  exists x', xmState x' = XMSTA_EXIT /\
    polls ops tss x w = let* w' := put_times ops 101 XM_FRAME_NCG w in Ok (x', w').
Proof.
  intros Hst Hwf Hp Ho Hr Hsp Hlen.
  assert (Z.of_nat (length tss) = 102 - ncg_send_retry_times x) as Hl by lia.
  replace 101%nat with (pred (length tss)) by lia. clear Hlen Hr.
  revert x w Hst Hwf Hp Ho Hsp Hl. induction tss as [|ts tss IH]; intros x w Hst Hwf Hp Ho Hsp Hl.
  { destruct Hwf as [_ _ Hn _]. rewrite Hst in Hn. simpl in Hn, Hl. lia. }
  destruct Hsp as [Hts Hsp]. simpl in Hl. simpl polls. unfold xModemFSM. rewrite Hst.
  rewrite wait_poll by done. destruct (Z.ltb_spec 100 (ncg_send_retry_times x)).
  { destruct tss; [|simpl in Hl; lia]. simpl. eexists. split; [|done]. done. }
  destruct tss as [|ts' tss]; [simpl in Hl; lia|].
  change (pred (length (ts :: ts' :: tss))) with (S (pred (length (ts' :: tss)))).
  cbn [put_times]. destruct (put1 ops XM_FRAME_NCG w) as [w'| |] eqn:Hput;
    [|exists (set_xmState x XMSTA_EXIT); done..].
  cbn [res_bind]. apply IH; simpl; [done| |by eapply put_resting|lia|done|simpl in Hl; lia].
  destruct Hwf as [? ? Hn ?]. split; simpl; [done|lia| |done].
  rewrite Hst in *. simpl in *. lia.
Qed.

(** A stalled transfer ends.  If the sender falls silent between packets and
    the polls come a second or more apart, the receiver asks for the packet again
    exactly 51 times and then gives up. *)
Theorem transmit_gives_up tss x w :
  xmState x = XMSTA_TRANSMIT -> xm_wf x -> resting w -> frame_offset x = 0 ->
  soh_nak_retry_times x = 0 ->
  spaced 1000 (timestamp_soh_recv_prev x) tss -> length tss = 52%nat ->
  exists x', xmState x' = XMSTA_EXIT /\
    polls ops tss x w = let* w' := put_times ops 51 XM_FRAME_NAK w in Ok (x', w').
Proof.
  intros Hst Hwf Hp Ho Hr Hsp Hlen.
  assert (Z.of_nat (length tss) = 52 - soh_nak_retry_times x) as Hl by lia.
  replace 51%nat with (pred (length tss)) by lia. clear Hlen Hr.
  revert x w Hst Hwf Hp Ho Hsp Hl. induction tss as [|ts tss IH]; intros x w Hst Hwf Hp Ho Hsp Hl.
  { destruct Hwf as [_ _ _ Hn]. rewrite Hst in Hn. simpl in Hn, Hl. lia. }
  destruct Hsp as [Hts Hsp]. simpl in Hl. simpl polls. unfold xModemFSM. rewrite Hst.
  rewrite transmit_poll; [|done..|lia|intros ?; lia|done].
  destruct (Z.ltb_spec 50 (soh_nak_retry_times x)).
  { destruct tss; [|simpl in Hl; lia]. simpl. eexists. split; [|done]. done. }
  destruct tss as [|ts' tss]; [simpl in Hl; lia|].
  change (pred (length (ts :: ts' :: tss))) with (S (pred (length (ts' :: tss)))).
  cbn [put_times]. destruct (put1 ops XM_FRAME_NAK w) as [w'| |] eqn:Hput;
    [|exists (set_xmState x XMSTA_EXIT); done..].
  cbn [res_bind]. apply IH; simpl; [done| |by eapply put_resting|done|done|simpl in Hl; lia].
  destruct Hwf as [? ? ? Hn]. split; simpl; [done|lia|done|].
  rewrite Hst in *. simpl in *. lia.
Qed.
End Silence.

(** ** Safety of the machine

    The transitions the source's [switch] allows. *)
Inductive xm_edge : XMODEM_STATE -> XMODEM_STATE -> Prop :=
  | edge_stay s : s <> XMSTA_ENTRY -> s <> XMSTA_EXIT -> xm_edge s s
  | edge_entry : xm_edge XMSTA_ENTRY XMSTA_WAIT_TRANS
  | edge_first_packet : xm_edge XMSTA_WAIT_TRANS XMSTA_TRANSMIT
  | edge_no_sender : xm_edge XMSTA_WAIT_TRANS XMSTA_EXIT
  | edge_done : xm_edge XMSTA_TRANSMIT XMSTA_EXIT
  | edge_stop : xm_edge XMSTA_EXIT XMSTA_STOP.

(** A client that keeps to the contract of the function pointers: no callback
    runs into undefined behaviour, and [getData] stores no more bytes than the
    room it is told about. *)
Class XmSafe {W} (ops : xm_ops W) : Prop := {
  safe_get get n w : getData ops = Some get -> get n w <> Ub;
  safe_get_room get n w ok bytes w' : getData ops = Some get -> 0 <= n ->
    get n w = Ok (ok, bytes, w') -> Z.of_nat (length bytes) <= n;
  safe_put b w : put1 ops b w <> Ub;
  safe_notify evt d buf n w : notify ops evt d buf n w <> Ub
}.

(** [m] has defined behaviour and every result satisfies [P]. *)
Definition safe_res {A} (m : res A) (P : A -> Prop) : Prop :=
  match m with Ok a => P a | Hang => True | Ub => False end.

Lemma safe_bind {A B} (m : res A) (f : A -> res B) (P : A -> Prop) (Q : B -> Prop) :
  safe_res m P -> (forall a, P a -> safe_res (f a) Q) -> safe_res (res_bind m f) Q.
Proof. destruct m; simpl; auto. Qed.

Lemma safe_not_ub {A} (m : res A) : m <> Ub -> safe_res m (fun _ => True).
Proof. by destruct m. Qed.

Section Safe.
Context {W : Type} (ops : xm_ops W) {S : XmSafe ops}.

(** The frame part of the invariant, independent of the control state. *)
Definition same_control (x x' : XMODEM) : Prop :=
  xmState x' = xmState x /\ ncg_send_retry_times x' = ncg_send_retry_times x /\
  soh_nak_retry_times x' = soh_nak_retry_times x.

Lemma wf_same_control x x' :
  xm_wf x -> same_control x x' -> length (frame x') = 133%nat ->
  0 <= frame_offset x' <= 133 -> xm_wf x'.
Proof. intros [? ? ? ?] (E1 & E2 & E3) ? ?. split; rewrite ?E1, ?E2, ?E3; done. Qed.

Lemma recv_frame_safe get x w :
  getData ops = Some get -> xm_wf x ->
  safe_res (recv_frame get x w) (fun r => xm_wf r.1.2 /\ same_control x r.1.2).
Proof.
  intros Hg Hwf. pose proof Hwf as [Hf Ho _ _]. unfold recv_frame.
  change (u32 (XMODEM_SOH_FRAME_SIZE - frame_offset x)) with (u32 (133 - frame_offset x)).
  rewrite (wrap_small 32) by lia.
  destruct (get (133 - frame_offset x) w) as [[[ok bytes] w']| |] eqn:E; simpl; [|done|].
  - assert (0 <= 133 - frame_offset x) as Hn by lia.
    pose proof (safe_get_room _ _ _ _ _ _ Hg Hn E) as Hroom.
    unfold store_block. rewrite decide_True by lia. simpl.
    assert (length (list_inserts (Z.to_nat (frame_offset x)) bytes (frame x)) = 133%nat)
      by by rewrite length_inserts.
    destruct ok; simpl; (split; [|done]).
    + rewrite wrap_small by lia. by apply (wf_same_control x); simpl; [..|lia].
    + by apply (wf_same_control x).
  - by apply (safe_get _ _ _ Hg E).
Qed.

Lemma reset_frame_wf x : xm_wf x -> xm_wf (set_frame x 0 (frame x)).
Proof. intros Hwf. apply (wf_same_control x); simpl; [done..|apply Hwf|lia]. Qed.

Lemma dealSohFrame_safe x w :
  xm_wf x ->
  safe_res (dealSohFrame ops x w) (fun r => xm_wf r.1.2 /\ same_control x r.1.2).
Proof.
  intros Hwf. unfold dealSohFrame. destruct (getData ops) as [get|] eqn:Hg; [|done].
  eapply safe_bind; [by apply recv_frame_safe|]. intros [[ok x'] w'] [Hwf' Hc]. simpl in *.
  destruct ok; [|done]. destruct (checkSohFrame _ _); [|done].
  eapply safe_bind; [apply safe_not_ub, safe_notify|]. intros w1 _. simpl.
  split; [by apply reset_frame_wf|done].
Qed.

Lemma dealExceptionFrame_safe x w :
  xm_wf x ->
  safe_res (dealExceptionFrame ops x w) (fun r => xm_wf r.1.2 /\ same_control x r.1.2).
Proof.
  intros Hwf. unfold dealExceptionFrame. destruct (getData ops) as [get|] eqn:Hg; [|done].
  eapply safe_bind; [by apply recv_frame_safe|]. intros [[ok x'] w'] [Hwf' Hc]. simpl in *.
  destruct ok; [|done]. destruct (frame_offset x' =? 1); [|done].
  destruct (_ =? XM_FRAME_EOT); [|destruct (_ =? XM_FRAME_CAN); [|done]];
    (eapply safe_bind; [apply safe_not_ub, safe_notify|]; intros w1 _; simpl;
     split; [by apply reset_frame_wf|done]).
Qed.

(** What one poll guarantees. *)
Definition poll_ok (x : XMODEM) (r : XMODEM * W) : Prop :=
  xm_wf r.1 /\ xm_edge (xmState x) (xmState r.1).

(** Solve the invariant after an assignment of control fields. *)
Ltac control_wf := split; simpl; rewrite ?swrap_small by lia; lia || done.
(** The same when the control state, given by [Hs], is kept. *)
Ltac stay_wf Hs := split; simpl; rewrite ?Hs; simpl; rewrite ?swrap_small by lia; lia || done.

Lemma fsm_wait_trans_safe ts x w :
  xmState x = XMSTA_WAIT_TRANS -> xm_wf x -> safe_res (fsm_wait_trans ops ts x w) (poll_ok x).
Proof.
  intros Hst Hwf. unfold fsm_wait_trans.
  eapply safe_bind; [by apply dealSohFrame_safe|]. intros [[got x'] w'] [Hwf' (Hs & _ & _)].
  simpl in *. rewrite Hst in Hs. destruct Hwf' as [? ? Hn Hm]. rewrite Hs in Hn, Hm. simpl in Hn, Hm.
  destruct got.
  { eapply safe_bind; [apply safe_not_ub, safe_put|]. intros w1 _. split; simpl.
    - control_wf.
    - rewrite Hst. constructor. }
  destruct (_ <=? _).
  2: { split; [stay_wf Hs|]. simpl. rewrite Hs, Hst. by constructor. }
  destruct (Z.ltb_spec 100 (ncg_send_retry_times x')).
  { split; simpl; [control_wf|]. rewrite Hst. constructor. }
  eapply safe_bind; [apply safe_not_ub, safe_put|]. intros w1 _.
  split; [stay_wf Hs|].
  simpl. rewrite Hs, Hst. by constructor.
Qed.

Lemma fsm_transmit_safe ts x w :
  xmState x = XMSTA_TRANSMIT -> xm_wf x -> safe_res (fsm_transmit ops ts x w) (poll_ok x).
Proof.
  intros Hst Hwf. unfold fsm_transmit.
  eapply safe_bind; [by apply dealExceptionFrame_safe|]. intros [[fr x1] w1] [Hwf1 (Hs1 & _ & _)].
  simpl in *. rewrite Hst in Hs1. destruct (fr =? XM_FRAME_EOT).
  { destruct Hwf1 as [? ? Hn Hm]. rewrite Hs1 in Hn, Hm. simpl in Hn, Hm.
    split; simpl; [control_wf|]. rewrite Hst. constructor. }
  eapply safe_bind; [by apply dealExceptionFrame_safe|]. intros [[fr2 x2] w2] [Hwf2 (Hs2 & _ & _)].
  simpl in *. rewrite Hs1 in Hs2. destruct (fr2 =? XM_FRAME_CAN).
  { destruct Hwf2 as [? ? Hn Hm]. rewrite Hs2 in Hn, Hm. simpl in Hn, Hm.
    split; simpl; [control_wf|]. rewrite Hst. constructor. }
  eapply safe_bind; [by apply dealSohFrame_safe|]. intros [[got x'] w'] [Hwf' (Hs & _ & _)].
  simpl in *. rewrite Hs2 in Hs. destruct Hwf' as [? ? Hn Hm]. rewrite Hs in Hn, Hm. simpl in Hn, Hm.
  assert (xm_edge (xmState x) (xmState x')) as Hstay by (rewrite Hs, Hst; by constructor).
  destruct got.
  { eapply safe_bind; [apply safe_not_ub, safe_put|]. intros w3 _. split; [|done].
    stay_wf Hs. }
  destruct (_ <=? _).
  2: { split; [stay_wf Hs|done]. }
  simpl. destruct (Z.ltb_spec 50 (soh_nak_retry_times x')).
  { split; simpl; [control_wf|]. rewrite Hst. constructor. }
  eapply safe_bind; [apply safe_not_ub, safe_put|]. intros w3 _. split; [|done].
  stay_wf Hs.
Qed.

(** C2: with a client that keeps to the contract of the function pointers, a poll
    of the machine has defined behaviour, keeps the frame offset inside the frame
    buffer and the retry counters inside their limits, and moves along the
    transitions of the protocol only. *)
Theorem xModemFSM_safe ts x w :
  xm_wf x ->
  safe_res (xModemFSM ops ts x w)
    (fun r => xm_wf r.1.2 /\ r.1.1 = xmState r.1.2 /\ xm_edge (xmState x) (xmState r.1.2)).
Proof.
  intros Hwf. unfold xModemFSM. eapply (safe_bind _ _ (poll_ok x)).
  2: { intros [x' w'] [? ?]. done. }
  destruct (xmState x) eqn:Hst.
  - unfold fsm_entry. eapply safe_bind; [apply safe_not_ub, safe_notify|]. intros w1 _.
    split; simpl; [|rewrite Hst; constructor]. destruct Hwf. control_wf.
  - by apply fsm_wait_trans_safe.
  - by apply fsm_transmit_safe.
  - destruct Hwf as [? ? Hn Hm]. rewrite Hst in Hn, Hm. simpl in Hn, Hm.
    split; simpl; [control_wf|]. rewrite Hst. constructor.
  - split; [done|]. simpl. rewrite Hst. by constructor.
Qed.
End Safe.

(** ** Concrete clients

    A queue of received bytes and logs of what was sent and reported; [loop_ops]
    hands over the whole queue, [room_ops] at most as many bytes as fit. *)
Module Loopback.
Record world := World {
  rxq : list Z;
  sent : list Z;
  events : list (XMODEM_EVT * Z * option (list Z) * Z)
}.

Definition put (bs : list Z) (w : world) : res (bool * world) :=
  Ok (true, World (rxq w) (sent w ++ bs) (events w)).
Definition get_all (n : Z) (w : world) : res (bool * list Z * world) :=
  Ok (true, rxq w, World [] (sent w) (events w)).
Definition get_room (n : Z) (w : world) : res (bool * list Z * world) :=
  Ok (true, take (Z.to_nat n) (rxq w), World (drop (Z.to_nat n) (rxq w)) (sent w) (events w)).
Definition report (evt : XMODEM_EVT) (d : Z) (buf : option (list Z)) (n : Z) (w : world)
  : res world := Ok (World (rxq w) (sent w) (events w ++ [(evt, d, buf, n)])).

Definition loop_ops : xm_ops world := XmOps (Some put) (Some get_all) (Some report).
Definition room_ops : xm_ops world := XmOps (Some put) (Some get_room) (Some report).

#[export] Instance loop_link : XmLink loop_ops.
Proof.
  refine {| pending := rxq;
            drain := fun w => World [] (sent w) (events w);
            push := fun b w => World (rxq w ++ [b]) (sent w) (events w);
            link_ok := fun _ => True |}.
  - by exists get_all.
  - done.
  - intros [q s e] _. simpl. by intros ->.
  - intros b w _ H. simpl. by rewrite H.
  - intros evt d buf n w w' _ H. by inversion H.
  - intros b w w' _ H. by inversion H.
Defined.

#[export] Instance room_safe : XmSafe room_ops.
Proof.
  split; [by intros get n w [= <-]| |done|done].
  intros get n w ok bytes w' [= <-] Hn [= <- <- <-]. rewrite length_take. lia.
Qed.

(** A machine in the middle of a transfer, and one waiting for the sender. *)
Definition idle (s : XMODEM_STATE) : XMODEM := MkXMODEM s 0 0 0 0 0 (replicate 133 0).
Definition quiet : world := World [] [] [].

Lemma quiet_resting : resting (ops := loop_ops) quiet.
Proof. done. Qed.

Lemma idle_wf s : xm_wf (idle s).
Proof. by split; simpl; [..|destruct s|destruct s]. Qed.

Definition sample : list Z := replicate 128 0x5a.
Definition at_time (ts : Z) (bytes : list Z) : list (Z * Z) := (fun b => (ts, b)) <$> bytes.
End Loopback.

Import Loopback.

Lemma checkSohFrame_iff_witness :
  checkSohFrame (soh_frame 1 sample) XMODEM_SOH_FRAME_SIZE = true.
Proof.
  apply (checkSohFrame_iff (soh_frame 1 sample)).
  - unfold byte_list. apply (bool_decide_unpack _). vm_compute. exact I.
  - reflexivity.
  - exists 1, sample. split; [lia|]. split; reflexivity.
Defined.

Lemma checkSohFrame_burst_witness : 0x5a = 0x5a /\ 0x5a = 0x5a.
Proof.
  apply (checkSohFrame_burst [1; 1; 254] [] (replicate 126 0x5a)
           [crc16 sample .>> 8; crc16 sample .& 0xff] 0x5a 0x5a 0x5a 0x5a).
  1-3: reflexivity.
  1-2: unfold byte_list; apply (bool_decide_unpack _); vm_compute; exact I.
  1-2: vm_compute; reflexivity.
Defined.

Lemma deliver_packet_witness :
  exists f' ts, deliver loop_ops (at_time 5 (soh_frame 1 sample)) (idle XMSTA_TRANSMIT) quiet =
    Ok (set_soh (set_frame (idle XMSTA_TRANSMIT) 0 f') ts 0,
        World [] [XM_FRAME_ACK] [(XMEVT_SOH, 1, Some sample, 128)]).
Proof.
  destruct (deliver_packet loop_ops (at_time 5 (soh_frame 1 sample)) (idle XMSTA_TRANSMIT) quiet
              1 sample) as (f' & ts & _ & _ & E).
  - reflexivity.
  - apply idle_wf.
  - reflexivity.
  - apply quiet_resting.
  - unfold byte_list. apply (bool_decide_unpack _). vm_compute. exact I.
  - reflexivity.
  - lia.
  - vm_compute. reflexivity.
  - apply (bool_decide_unpack _). vm_compute. exact I.
  - exists f', ts. rewrite E. vm_compute. reflexivity.
Defined.

Lemma transmit_eot_witness :
  exists f', xModemFSM loop_ops 5 (idle XMSTA_TRANSMIT) (push XM_FRAME_EOT quiet) =
    Ok (XMSTA_EXIT, set_xmState (set_frame (idle XMSTA_TRANSMIT) 0 f') XMSTA_EXIT,
        World [] [] [(XMEVT_EOT, 0, None, 0)]).
Proof.
  destruct (transmit_eot loop_ops 5 (idle XMSTA_TRANSMIT) quiet) as (f' & E);
    [reflexivity|apply idle_wf|reflexivity|apply quiet_resting|].
  exists f'. rewrite E. reflexivity.
Defined.

Lemma transmit_can_ignored_witness :
  exists f', xModemFSM loop_ops 5 (idle XMSTA_TRANSMIT) (push XM_FRAME_CAN quiet) =
    Ok (XMSTA_TRANSMIT, set_frame (idle XMSTA_TRANSMIT) 0 f',
        World [] [] [(XMEVT_CAN, 0, None, 0)]).
Proof.
  apply (transmit_can_ignored loop_ops 5 (idle XMSTA_TRANSMIT) quiet);
    [reflexivity|apply idle_wf|reflexivity|apply quiet_resting|reflexivity..].
Defined.

Lemma deliver_overflow_witness :
  deliver loop_ops (at_time 5 (replicate 134 0x55)) (idle XMSTA_TRANSMIT) quiet = Ub.
Proof.
  apply (deliver_overflow loop_ops).
  - reflexivity.
  - apply idle_wf.
  - reflexivity.
  - apply quiet_resting.
  - reflexivity.
  - intros b [= <-]. split; discriminate.
  - apply (bool_decide_unpack _). vm_compute. exact I.
  - vm_compute. reflexivity.
Defined.

(** Polls one second apart. *)
Definition seconds (n : nat) : list Z := (fun k => 1000 * Z.of_nat (S k)) <$> seq 0 n.

Lemma wait_gives_up_witness :
  exists x', xmState x' = XMSTA_EXIT /\
    polls loop_ops (seconds 102) (idle XMSTA_WAIT_TRANS) quiet =
      Ok (x', World [] (replicate 101 XM_FRAME_NCG) []).
Proof.
  destruct (wait_gives_up loop_ops (seconds 102) (idle XMSTA_WAIT_TRANS) quiet) as (x' & Hx & E);
    [reflexivity|apply idle_wf|first [apply quiet_resting|reflexivity]|first [apply quiet_resting|reflexivity]|reflexivity| |reflexivity|].
  - vm_compute. repeat split; discriminate.
  - exists x'. rewrite E. split; [exact Hx|reflexivity].
Defined.

Lemma transmit_gives_up_witness :
  exists x', xmState x' = XMSTA_EXIT /\
    polls loop_ops (seconds 52) (idle XMSTA_TRANSMIT) quiet =
      Ok (x', World [] (replicate 51 XM_FRAME_NAK) []).
Proof.
  destruct (transmit_gives_up loop_ops (seconds 52) (idle XMSTA_TRANSMIT) quiet) as (x' & Hx & E);
    [reflexivity|apply idle_wf|first [apply quiet_resting|reflexivity]|first [apply quiet_resting|reflexivity]|reflexivity| |reflexivity|].
  - vm_compute. repeat split; discriminate.
  - exists x'. rewrite E. split; [exact Hx|reflexivity].
Defined.

Lemma xModemFSM_safe_witness :
  safe_res (xModemFSM room_ops 5 (idle XMSTA_TRANSMIT) (World (replicate 200 0x55) [] []))
    (fun r => xm_wf r.1.2 /\ r.1.1 = xmState r.1.2 /\ xm_edge XMSTA_TRANSMIT (xmState r.1.2)).
Proof. apply (xModemFSM_safe room_ops 5 (idle XMSTA_TRANSMIT)). apply idle_wf. Defined.
