(* ===== verification/Uart.v ===== *)
(** * The polled serial port ([board/samsung/smdkv210/spl/uart.c])

    Register programming, character input and output, and the small [printf] of
    the first-stage loader.  Output functions wait for the transmitter before each
    byte; what they send is the sequence of stores to [UTXH2].  The theorems give
    the exact bytes sent by [uart_printf] for every format, that the decimal and
    hexadecimal conversions denote their argument, and that the ten-byte digit
    buffer of [put_int] is never overrun. *)
From Stdlib Require Import Ascii.
From S2P Require Import Prelude Mmio.

Definition GPA1CON := 0xE0200020.
Definition ULCON2 := 0xE2900800.
Definition UCON2 := 0xE2900804.
Definition UFCON2 := 0xE2900808.
Definition UTRSTAT2 := 0xE2900810.
Definition UTXH2 := 0xE2900820.
Definition URXH2 := 0xE2900824.
Definition UBRDIV2 := 0xE2900828.
Definition UDIVSLOT2 := 0xE290082C.
Definition UINTP2 := 0xE2900830.
Definition UINTSP2 := 0xE2900834.
Definition UINTM2 := 0xE2900838.

(** The arguments after the format: what [va_arg] finds. *)
Inductive uarg :=
  | VInt (v : Z)
  | VStr (s : option (list Z)).

Section Uart.
Context {D : Type} {B : Bus D} (fuel : nat).

Definition uart_init : io D unit :=
  mmio_and GPA1CON (~32 0xFF) ;;;
  mmio_or GPA1CON 0x22 ;;;
  mmio_write ULCON2 (0x3 .| (0 .<< 2) .| (0 .<< 3) .| (0 .<< 6)) ;;;
  mmio_write UCON2 (1 .| (1 .<< 2) .| (0 .<< 10)) ;;;
  mmio_write UFCON2 0 ;;;
  mmio_write UBRDIV2 34 ;;;
  mmio_write UDIVSLOT2 0xDDDD ;;;
  mmio_write UINTM2 0xF ;;;
  mmio_or UINTP2 0xF ;;;
  mmio_or UINTSP2 0xF.

Definition uart_get : io D Z :=
  wait_set fuel UTRSTAT2 0x1 ;;; v <- mmio_read URXH2 ;; io_ret (u8 v).

Definition uart_put (c : Z) : io D unit :=
  wait_set fuel UTRSTAT2 (0x1 .<< 2) ;;; mmio_write UTXH2 (u8 c).

Definition get_char : io D Z := uart_get.

(** The character read, if one was waiting ([*c] is left alone otherwise). *)
Definition try_get_char : io D (option Z) :=
  v <- mmio_read UTRSTAT2 ;;
  if tst v 0x1 then c <- mmio_read URXH2 ;; io_ret (Some (u8 c)) else io_ret None.

Definition put_char (c : Z) : io D unit := uart_put c.

Fixpoint put_chars (s : list Z) : io D unit :=
  match s with
  | [] => io_ret tt
  | c :: s => uart_put c ;;; put_chars s
  end.

Definition put_string (str : option (list Z)) : io D unit :=
  match str with
  | None => io_ret tt
  | Some p => io_each p put_char
  end.

(** The loop that fills the digit array [a]; [room] counts its free slots. *)
Fixpoint put_int_digits (room : nat) (a : list Z) (v : Z) : res (list Z) :=
  if v =? 0 then Ok a
  else match room with
       | O => Ub
       | S room => put_int_digits room (a ++ [v mod 10]) (v / 10)
       end.

Definition put_int (v : Z) : io D unit :=
  if v =? 0 then put_char 0x30
  else
    a <- io_lift (put_int_digits 10 [] v) ;;
    io_each (reverse a) (fun d => put_char (d + 0x30)).

Definition hex1 : list Z := cstr "0123456789abcdef".
Definition hex2 : list Z := cstr "0123456789ABCDEF".

Definition put_hex (v : Z) (small : bool) : io D unit :=
  let h := u8 v .>> 4 in
  let l := u8 v .& 0x0F in
  if small then
    put_char (default 0 (hex1 !! Z.to_nat h)) ;;; put_char (default 0 (hex1 !! Z.to_nat l))
  else
    put_char (default 0 (hex2 !! Z.to_nat h)) ;;; put_char (default 0 (hex2 !! Z.to_nat l)).

Definition put_int_hex (v : Z) (small : bool) : io D unit :=
  if negb (v .>> 24 =? 0) then
    put_hex (v .>> 24) small ;;;
    put_hex ((v .>> 16) .& 0xFF) small ;;;
    put_hex ((v .>> 8) .& 0xFF) small ;;;
    put_hex (v .& 0xFF) small
  else if negb ((v .>> 16) .& 0xFF =? 0) then
    put_hex ((v .>> 16) .& 0xFF) small ;;;
    put_hex ((v .>> 8) .& 0xFF) small ;;;
    put_hex (v .& 0xFF) small
  else if negb ((v .>> 8) .& 0xFF =? 0) then
    put_hex ((v .>> 8) .& 0xFF) small ;;;
    put_hex (v .& 0xFF) small
  else put_hex (v .& 0xFF) small.

(** [va_arg] on the remaining arguments; a missing or ill-typed one is undefined. *)
Definition va_int (ap : list uarg) : res (Z * list uarg) :=
  match ap with VInt v :: ap => Ok (v, ap) | _ => Ub end.
Definition va_str (ap : list uarg) : res (option (list Z) * list uarg) :=
  match ap with VStr s :: ap => Ok (s, ap) | _ => Ub end.

(** The formats are the bytes before the NUL.  A '%' that ends the format makes
    [*fmt++] step over the NUL and the loop read on behind it. *)
Fixpoint uart_printf (fmt : list Z) (ap : list uarg) : io D unit :=
  match fmt with
  | [] => io_ret tt
  | c :: fmt =>
    if c =? 0x25 then
      match fmt with
      | [] => fun _ => Ub
      | k :: fmt =>
        if k =? 0x63 then
          r <- io_lift (va_int ap) ;; put_char (u8 r.1) ;;; uart_printf fmt r.2
        else if k =? 0x73 then
          r <- io_lift (va_str ap) ;; put_string r.1 ;;; uart_printf fmt r.2
        else if (k =? 0x64) || (k =? 0x75) then
          r <- io_lift (va_int ap) ;; put_int (u32 r.1) ;;; uart_printf fmt r.2
        else if k =? 0x78 then
          r <- io_lift (va_int ap) ;; put_int_hex (u32 r.1) true ;;; uart_printf fmt r.2
        else if k =? 0x58 then
          r <- io_lift (va_int ap) ;; put_int_hex (u32 r.1) false ;;; uart_printf fmt r.2
        else uart_printf fmt ap
      end
    else put_char c ;;; uart_printf fmt ap
  end.
End Uart.

(** ** What the output functions send *)

(** A transmitter: from every good state a wait for room ends within [fuel]
    loads, in a good state again, and accepting a byte leads to a good state. *)
Class UartTx (D : Type) {B : Bus D} (fuel : nat) := {
  tx_ok : D -> Prop;
  tx_wait h : tx_ok (dev h) ->
    exists h', wait_set fuel UTRSTAT2 (0x1 .<< 2) h = Ok (tt, h') /\ tx_ok (dev h');
  tx_accept v d : tx_ok d -> tx_ok (dev_wr UTXH2 v d)
}.

(** [m] returns and sends exactly [out]. *)
Definition sends {D} {B : Bus D} {fuel} {U : UartTx D fuel} (m : io D unit) (out : list Z) : Prop :=
  forall h, tx_ok (dev h) ->
    runs m h (fun _ h' => tx_ok (dev h') /\ wrote h h' (pair UTXH2 <$> out)).

(** *** Reference conversions *)

(** Decimal digits, as the library prints natural numbers. *)
Definition show_dec (v : Z) : list Z := cstr (pretty (Z.to_N v)).

Definition nibble (small : bool) (d : Z) : Z :=
  if d <? 10 then 0x30 + d else (if small then 0x61 else 0x41) + (d - 10).

(** Pairs of hexadecimal digits, as many as the value has significant bytes. *)
Definition hex_bytes (v : Z) : nat :=
  if v <? 2 ^ 8 then 1 else if v <? 2 ^ 16 then 2 else if v <? 2 ^ 24 then 3 else 4.
Fixpoint show_hex_n (small : bool) (n : nat) (v : Z) : list Z :=
  match n with
  | O => []
  | S n => show_hex_n small n (v / 256) ++ [nibble small (v mod 256 / 16); nibble small (v mod 16)]
  end.
Definition show_hex (small : bool) (v : Z) : list Z := show_hex_n small (hex_bytes v) v.

(** A format is a sequence of literal bytes and conversions; a conversion letter
    the code does not know prints nothing.  A format that ends in '%' has no
    meaning. *)
Inductive piece :=
  | Lit (c : Z)
  | CChar
  | CStr
  | CDec
  | CHex (small : bool)
  | CNone.

Definition conversion (k : Z) : piece :=
  if k =? byte_of_ascii "c"%char then CChar
  else if k =? byte_of_ascii "s"%char then CStr
  else if k =? byte_of_ascii "d"%char then CDec
  else if k =? byte_of_ascii "u"%char then CDec
  else if k =? byte_of_ascii "x"%char then CHex true
  else if k =? byte_of_ascii "X"%char then CHex false
  else CNone.

Fixpoint parse_format (fmt : list Z) : option (list piece) :=
  match fmt with
  | [] => Some []
  | c :: fmt' =>
    if c =? byte_of_ascii "%"%char then
      match fmt' with
      | [] => None
      | k :: fmt' => cons (conversion k) <$> parse_format fmt'
      end
    else cons (Lit c) <$> parse_format fmt'
  end.

Fixpoint render (ps : list piece) (ap : list uarg) : option (list Z) :=
  match ps with
  | [] => Some []
  | Lit c :: ps => app [u8 c] <$> render ps ap
  | CNone :: ps => render ps ap
  | CStr :: ps => match ap with VStr s :: ap => app (u8 <$> default [] s) <$> render ps ap | _ => None end
  | p :: ps =>
    match ap with
    | VInt v :: ap =>
      app (match p with
           | CDec => show_dec (u32 v)
           | CHex small => show_hex small (u32 v)
           | _ => [u8 v]
           end) <$> render ps ap
    | _ => None
    end
  end.

Section Sends.
Context {D : Type} {B : Bus D} {fuel : nat} {U : UartTx D fuel}.

Lemma sends_ret : sends (io_ret tt) [].
Proof. intros h Hok. apply runs_ret. split; [done|]. apply wrote_nil. Qed.

Lemma sends_seq m1 m2 o1 o2 : sends m1 o1 -> sends m2 o2 -> sends (m1 ;;; m2) (o1 ++ o2).
Proof.
  intros H1 H2 h Hok. eapply runs_bind; [by apply H1|]. intros _ h1 [Hok1 Hw1].
  eapply runs_mono; [by apply H2|]. intros _ h2 [Hok2 Hw2].
  split; [done|]. rewrite fmap_app. by eapply wrote_trans.
Qed.

Lemma sends_put c : sends (put_char fuel c) [u8 c].
Proof.
  intros h Hok. unfold put_char, uart_put. destruct (tx_wait h Hok) as (h1 & Hwait & Hok1).
  eapply (runs_bind _ _ _ (fun _ h' => h' = h1)); [by exists tt, h1|]. intros _ h' ->.
  eexists tt, _. split; [reflexivity|]. simpl. split; [by apply tx_accept|].
  unfold wrote. simpl. rewrite stores_app, (wait_set_stores _ _ _ _ _ Hwait). simpl.
  rewrite wrap_small; [done|]. pose proof (wrap_range 8 c). lia.
Qed.

Lemma sends_each {A} (l : list A) (f : A -> io D unit) (g : A -> list Z) :
  (forall a, sends (f a) (g a)) -> sends (io_each l f) (l ≫= g).
Proof. intros Hf. induction l as [|a l IH]; simpl; [apply sends_ret|]. by apply sends_seq. Qed.

Lemma sends_chars l : sends (io_each l (put_char fuel)) (u8 <$> l).
Proof.
  pose proof (sends_each l (put_char fuel) (fun c => [u8 c]) sends_put) as H.
  replace (u8 <$> l) with (l ≫= fun c => [u8 c]); [done|].
  clear. induction l as [|c l IH]; [done|]. rewrite bind_cons, fmap_cons, IH. done.
Qed.

Lemma sends_eq m o1 o2 : sends m o1 -> o1 = o2 -> sends m o2.
Proof. by intros ? ->. Qed.

Lemma sends_ok {A} (r : res A) a (f : A -> io D unit) o :
  r = Ok a -> sends (f a) o -> sends (x <- io_lift r ;; f x) o.
Proof. intros -> H h Hok. exact (H h Hok). Qed.

Lemma sends_put_string s : sends (put_string fuel s) (u8 <$> default [] s).
Proof. destruct s; [apply sends_chars|apply sends_ret]. Qed.

(** *** Decimal *)

Lemma cstr_app s1 s2 : cstr (s1 +:+ s2) = cstr s1 ++ cstr s2.
Proof. induction s1 as [|c s1 IH]; simpl; [done|]. by rewrite IH. Qed.

Lemma pretty_char d :
  0 <= d < 10 -> byte_of_ascii (pretty_N_char (Z.to_N d)) = d + 0x30.
Proof.
  intros Hd. assert (d = 0 \/ d = 1 \/ d = 2 \/ d = 3 \/ d = 4 \/ d = 5 \/ d = 6 \/ d = 7 \/ d = 8 \/ d = 9)
    as Hc by lia.
  by repeat (destruct Hc as [->|Hc]; [reflexivity|]); subst.
Qed.

(** The digit loop writes the digits the library prints, and never more of them
    than the array holds. *)
Lemma put_int_digits_spec room a v s :
  0 <= v < 10 ^ Z.of_nat room ->
  exists l, put_int_digits room a v = Ok (a ++ l) /\
    Forall (fun d => 0 <= d < 10) l /\
    cstr (pretty_N_go (Z.to_N v) s) = (Z.add 0x30 <$> reverse l) ++ cstr s.
Proof.
  revert a v s. induction room as [|room IH]; intros a v s Hv; simpl.
  - assert (v = 0) as -> by (simpl in Hv; lia). exists []. simpl.
    by rewrite app_nil_r, pretty_N_go_0.
  - destruct (Z.eqb_spec v 0) as [->|Hne].
    + exists []. simpl. by rewrite app_nil_r, pretty_N_go_0.
    + rewrite Nat2Z.inj_succ, Z.pow_succ_r in Hv by lia.
      destruct (IH (a ++ [v mod 10]) (v / 10) (String (pretty_N_char (Z.to_N (v mod 10))) s))
        as (l & Hl & Hd & Hs).
      { split; [apply Z.div_pos; lia|apply Z.div_lt_upper_bound; lia]. }
      pose proof (Z.mod_pos_bound v 10). exists (v mod 10 :: l). split_and!.
      * by rewrite Hl, <- app_assoc.
      * by constructor; [lia|].
      * rewrite pretty_N_go_step by lia.
        replace (Z.to_N v `div` 10)%N with (Z.to_N (v / 10)) by (rewrite Z2N.inj_div; [done|lia..]).
        replace (Z.to_N v `mod` 10)%N with (Z.to_N (v mod 10)) by (rewrite Z2N.inj_mod; [done|lia..]).
        rewrite Hs, reverse_cons, fmap_app, <- app_assoc. simpl. rewrite pretty_char by lia.
        by rewrite (Z.add_comm (v mod 10)).
Qed.

Lemma sends_put_int v : 0 <= v < 2 ^ 32 -> sends (put_int fuel v) (show_dec v).
Proof.
  intros Hv. unfold put_int, show_dec. destruct (Z.eqb_spec v 0) as [->|Hne].
  - apply (sends_eq _ _ _ (sends_put 0x30)). reflexivity.
  - destruct (put_int_digits_spec 10 [] v "") as (l & Hl & Hd & Hs); [simpl; lia|].
    apply (sends_ok _ _ _ _ Hl). unfold pretty, pretty_N. rewrite decide_False by lia. rewrite Hs. simpl.
    rewrite app_nil_r. apply (sends_eq _ _ _ (sends_each _ _ _ (fun d => sends_put (d + 0x30)))).
    apply Forall_reverse in Hd. clear Hl Hs. revert Hd. generalize (reverse l). clear l. intros l Hd. induction Hd as [|d ds Hb _ IH]; [done|].
    rewrite bind_cons, fmap_cons, IH. rewrite wrap_small by lia. by rewrite Z.add_comm.
Qed.

(** *** Hexadecimal *)

Lemma nibble_range small d : 0 <= d < 16 -> 0 <= nibble small d < 256.
Proof. unfold nibble. intros. repeat case_match; lia. Qed.

Lemma hex_digit d (small : bool) :
  0 <= d < 16 -> default 0 ((if small then hex1 else hex2) !! Z.to_nat d) = nibble small d.
Proof.
  intros Hd. rewrite <- (Z2Nat.id d) at 2 by lia. assert (Z.to_nat d < 16)%nat as Hn by lia.
  revert Hn. generalize (Z.to_nat d). intros n Hn.
  do 16 (destruct n as [|n]; [by destruct small|]). lia.
Qed.

Lemma sends_put_hex v small :
  0 <= v < 256 -> sends (put_hex fuel v small) [nibble small (v / 16); nibble small (v mod 16)].
Proof.
  intros Hv. unfold put_hex. rewrite wrap_small by lia.
  rewrite Z.shiftr_div_pow2 by lia. change (2 ^ 4) with 16.
  change 0x0F with (Z.ones 4). rewrite Z.land_ones by lia. change (2 ^ 4) with 16.
  assert (0 <= v / 16 < 16) by (split; [apply Z.div_pos; lia|apply Z.div_lt_upper_bound; lia]).
  pose proof (Z.mod_pos_bound v 16).
  pose proof (hex_digit (v / 16) small) as Hh. pose proof (hex_digit (v mod 16) small) as Hl.
  pose proof (nibble_range small (v / 16)). pose proof (nibble_range small (v mod 16)).
  destruct small; rewrite Hh, Hl by lia;
    (eapply sends_eq; [apply sends_seq; apply sends_put|]);
    simpl; rewrite !wrap_small by lia; done.
Qed.

Lemma byte_of v k : 0 <= k -> (v .>> k) .& 0xFF = v / 2 ^ k mod 256.
Proof. intros. change 0xFF with (Z.ones 8). by rewrite Z.land_ones, Z.shiftr_div_pow2 by lia. Qed.

Lemma sends_hex_byte x small :
  sends (put_hex fuel (x mod 256) small) [nibble small (x mod 256 / 16); nibble small (x mod 16)].
Proof.
  eapply sends_eq; [apply sends_put_hex, Z.mod_pos_bound; lia|].
  replace (x mod 256 mod 16) with (x mod 16); [done|].
  pose proof (Z_div_mod_eq_full x 256) as H. rewrite H at 1.
  replace (256 * (x / 256) + x mod 256) with (x mod 256 + 16 * (x / 256) * 16) by lia.
  by rewrite Z_mod_plus_full.
Qed.

(** The four-way case analysis prints every byte from the highest nonzero one. *)
Lemma sends_put_int_hex v small : 0 <= v < 2 ^ 32 -> sends (put_int_hex fuel v small) (show_hex small v).
Proof.
  intros Hv. unfold put_int_hex, show_hex, hex_bytes. rewrite !byte_of by lia.
  replace (v .& 0xFF) with (v mod 256) by (change 0xFF with (Z.ones 8); by rewrite Z.land_ones by lia).
  rewrite Z.shiftr_div_pow2 by lia.
  change (2 ^ 24) with 16777216. change (2 ^ 16) with 65536. change (2 ^ 8) with 256.
  assert (v / 65536 = v / 256 / 256) as E2 by (by rewrite Z.div_div by lia).
  assert (v / 16777216 = v / 256 / 256 / 256) as E3 by (by rewrite !Z.div_div by lia).
  assert (0 <= v / 16777216 < 256) by (split; [apply Z.div_pos; lia|apply Z.div_lt_upper_bound; lia]).
  assert (v / 16777216 = (v / 256 / 256 / 256) mod 256) as E4 by (rewrite Z.mod_small; lia).
  repeat match goal with |- context [negb (?a =? 0)] => destruct (Z.eqb_spec a 0); simpl negb; cbv iota end;
  repeat match goal with |- context [?a <? ?b] => destruct (Z.ltb_spec a b); cbv iota end;
  try (exfalso; Z.to_euclidean_division_equations; lia);
  rewrite ?E4, ?E2;
  (eapply sends_eq; [repeat apply sends_seq; apply sends_hex_byte|reflexivity]).
Qed.

(** *** [uart_printf] *)

Lemma render_step p ps ap out :
  render (p :: ps) ap = Some out ->
  match p with
  | Lit c => exists o, render ps ap = Some o /\ out = u8 c :: o
  | CNone => render ps ap = Some out
  | CStr => exists s ap' o, ap = VStr s :: ap' /\ render ps ap' = Some o /\ out = (u8 <$> default [] s) ++ o
  | CChar => exists v ap' o, ap = VInt v :: ap' /\ render ps ap' = Some o /\ out = u8 v :: o
  | CDec => exists v ap' o, ap = VInt v :: ap' /\ render ps ap' = Some o /\ out = show_dec (u32 v) ++ o
  | CHex small => exists v ap' o, ap = VInt v :: ap' /\ render ps ap' = Some o /\
      out = show_hex small (u32 v) ++ o
  end.
Proof.
  destruct p; simpl; [| | | | |done].
  all: try (destruct ap as [|[v|s] ap]; [done| |]; try done).
  all: intros (o & Ho & ->)%fmap_Some; eauto 10.
Qed.

(** The whole output of [uart_printf] on a format that [parse_format] accepts. *)
Lemma sends_uart_printf fmt ps ap out :
  parse_format fmt = Some ps -> render ps ap = Some out -> sends (uart_printf fuel fmt ap) out.
Proof.
  remember (length fmt) as n eqn:Hn. assert (length fmt <= n)%nat as Hlen by lia. clear Hn.
  revert fmt ps ap out Hlen. induction n as [|n IH]; intros fmt ps ap out Hlen.
  { destruct fmt; [|simpl in Hlen; lia]. simpl. intros [= <-]. simpl. intros [= <-]. apply sends_ret. }
  destruct fmt as [|c fmt]; simpl in Hlen.
  { simpl. intros [= <-]. simpl. intros [= <-]. apply sends_ret. }
  simpl. change (byte_of_ascii "%") with 0x25. destruct (Z.eqb_spec c 0x25) as [->|Hc].
  - destruct fmt as [|k fmt]; [done|]. simpl in Hlen.
    intros (ps' & Hps & ->)%fmap_Some Hr. apply render_step in Hr.
    assert (forall ap out, render ps' ap = Some out -> sends (uart_printf fuel fmt ap) out) as IH'
      by (intros; eapply IH; eauto; lia).
    unfold conversion in Hr.
    change (byte_of_ascii "c") with 0x63 in Hr. change (byte_of_ascii "s") with 0x73 in Hr.
    change (byte_of_ascii "d") with 0x64 in Hr. change (byte_of_ascii "u") with 0x75 in Hr.
    change (byte_of_ascii "x") with 0x78 in Hr. change (byte_of_ascii "X") with 0x58 in Hr.
    destruct (k =? 0x63).
    { destruct Hr as (v & ap' & o & -> & Ho & ->). eapply sends_ok; [done|]. simpl.
      eapply sends_eq; [apply sends_seq; [apply sends_put|eauto]|]. simpl. by rewrite wrap_idem. }
    destruct (k =? 0x73).
    { destruct Hr as (v & ap' & o & -> & Ho & ->). eapply sends_ok; [done|]. simpl.
      apply sends_seq; [apply sends_put_string|eauto]. }
    destruct (k =? 0x64), (k =? 0x75); simpl orb; cbv iota in *.
    1-3: destruct Hr as (v & ap' & o & -> & Ho & ->); (eapply sends_ok; [done|]); simpl;
      apply sends_seq; [apply sends_put_int, wrap_range; lia|eauto].
    destruct (k =? 0x78).
    { destruct Hr as (v & ap' & o & -> & Ho & ->). eapply sends_ok; [done|]. simpl.
      apply sends_seq; [apply sends_put_int_hex, wrap_range; lia|eauto]. }
    destruct (k =? 0x58).
    { destruct Hr as (v & ap' & o & -> & Ho & ->). eapply sends_ok; [done|]. simpl.
      apply sends_seq; [apply sends_put_int_hex, wrap_range; lia|eauto]. }
    by apply IH'.
  - intros (ps' & Hps & ->)%fmap_Some Hr. apply render_step in Hr as (o & Ho & ->).
    apply (sends_seq _ _ [_]); [apply sends_put|]. eapply IH; [|done..]. lia.
Qed.
End Sends.

(** *** Reading numbers back *)
Definition digit_value (c : Z) : Z :=
  if c <? 0x3A then c - 0x30 else if c <? 0x47 then c - 0x41 + 10 else c - 0x61 + 10.
Definition read_number (base : Z) (l : list Z) : Z :=
  fold_left (fun acc c => acc * base + digit_value c) l 0.

Lemma read_number_snoc base l c : read_number base (l ++ [c]) = read_number base l * base + digit_value c.
Proof. unfold read_number. by rewrite fold_left_app. Qed.

Lemma digit_value_nibble small d : 0 <= d < 16 -> digit_value (nibble small d) = d.
Proof.
  intros Hd. unfold nibble, digit_value.
  destruct small; repeat match goal with |- context [?a <? ?b] => destruct (Z.ltb_spec a b) end; lia.
Qed.

Lemma show_dec_read v : 0 <= v < 2 ^ 32 -> read_number 10 (show_dec v) = v.
Proof.
  intros Hv. unfold show_dec, pretty, pretty_N. case_decide as Hz; [by assert (v = 0) as -> by lia|].
  clear Hz. assert (forall room v s, 0 <= v < 10 ^ Z.of_nat room ->
    read_number 10 (cstr (pretty_N_go (Z.to_N v) s)) =
    fold_left (fun acc c => acc * 10 + digit_value c) (cstr s) v) as H.
  { clear. induction room as [|room IH]; intros v s Hv.
    - assert (v = 0) as -> by (simpl in Hv; lia). by rewrite pretty_N_go_0.
    - destruct (decide (v = 0)) as [->|Hne]; [by rewrite pretty_N_go_0|].
      rewrite Nat2Z.inj_succ, Z.pow_succ_r in Hv by lia. pose proof (Z.mod_pos_bound v 10).
      rewrite pretty_N_go_step by lia.
      replace (Z.to_N v `div` 10)%N with (Z.to_N (v / 10)) by (rewrite Z2N.inj_div; [done|lia..]).
      replace (Z.to_N v `mod` 10)%N with (Z.to_N (v mod 10)) by (rewrite Z2N.inj_mod; [done|lia..]).
      rewrite IH by (split; [apply Z.div_pos; lia|apply Z.div_lt_upper_bound; lia]).
      simpl. rewrite pretty_char by lia. f_equal. unfold digit_value.
      destruct (Z.ltb_spec (v mod 10 + 48) 0x3A); [|lia]. pose proof (Z_div_mod_eq_full v 10). lia. }
  apply (H 10%nat _ ""). simpl. lia.
Qed.

Lemma show_hex_n_read small n v : 0 <= v < 256 ^ Z.of_nat n -> read_number 16 (show_hex_n small n v) = v.
Proof.
  revert v. induction n as [|n IH]; intros v Hv; [simpl in *; unfold read_number; simpl; lia|].
  rewrite Nat2Z.inj_succ, Z.pow_succ_r in Hv by lia. simpl.
  change [?a; ?b] with ([a] ++ [b]). rewrite app_assoc, !read_number_snoc.
  rewrite IH by (split; [apply Z.div_pos; lia|apply Z.div_lt_upper_bound; lia]).
  pose proof (Z.mod_pos_bound v 256). pose proof (Z.mod_pos_bound v 16).
  rewrite !digit_value_nibble; [|lia|split; [apply Z.div_pos|apply Z.div_lt_upper_bound]; lia].
  Z.to_euclidean_division_equations. lia.
Qed.

Lemma show_hex_read small v : 0 <= v < 2 ^ 32 -> read_number 16 (show_hex small v) = v.
Proof.
  intros Hv. unfold show_hex. apply show_hex_n_read. unfold hex_bytes.
  repeat match goal with |- context [?a <? ?b] => destruct (Z.ltb_spec a b) end; simpl; lia.
Qed.

(** *** Formats without a meaning *)
Section Undefined.
Context {D : Type} {B : Bus D} {fuel : nat} {U : UartTx D fuel}.

Lemma sends_then_ub m out f h :
  sends m out -> tx_ok (dev h) -> (forall h', tx_ok (dev h') -> f h' = Ub) -> (m ;;; f) h = (Ub : res (unit * _)).
Proof.
  intros Hm Hok Hf. destruct (Hm h Hok) as (? & h' & E & Hok' & _). unfold io_bind. rewrite E. simpl. auto.
Qed.

Lemma uart_printf_ub fmt ap h :
  tx_ok (dev h) -> (parse_format fmt ≫= fun ps => render ps ap) = None ->
  uart_printf fuel fmt ap h = Ub.
Proof.
  remember (length fmt) as n eqn:Hn. assert (length fmt <= n)%nat as Hlen by lia. clear Hn.
  revert fmt ap h Hlen. induction n as [|n IH]; intros fmt ap h Hlen Hok.
  { destruct fmt; [done|simpl in Hlen; lia]. }
  destruct fmt as [|c fmt]; [done|]. simpl in Hlen.
  simpl. change (byte_of_ascii "%") with 0x25. destruct (c =? 0x25).
  - destruct fmt as [|k fmt]; [done|]. simpl in Hlen.
    assert (forall ap h, tx_ok (dev h) -> (parse_format fmt ≫= fun ps => render ps ap) = None ->
      uart_printf fuel fmt ap h = Ub) as IH' by (intros; eapply IH; eauto; lia).
    unfold conversion.
    change (byte_of_ascii "c") with 0x63. change (byte_of_ascii "s") with 0x73.
    change (byte_of_ascii "d") with 0x64. change (byte_of_ascii "u") with 0x75.
    change (byte_of_ascii "x") with 0x78. change (byte_of_ascii "X") with 0x58.
    destruct (k =? 0x63); [|destruct (k =? 0x73); [|destruct (k =? 0x64), (k =? 0x75); simpl orb; cbv iota;
      [| | |destruct (k =? 0x78); [|destruct (k =? 0x58)]]]].
    all: try (destruct ap as [|[v|s] ap]; [done| |]; try done).
    all: intros Hr;
      assert ((parse_format fmt ≫= fun ps => render ps ap) = None) as Hr'
        by (destruct (parse_format fmt) as [ps|]; [|done]; simpl in *; by destruct (render ps ap)).
    all: try (by apply IH').
    all: eapply sends_then_ub; [|done|intros; by apply IH'].
    all: simpl; first [apply sends_put|apply sends_put_int, wrap_range; lia
      |apply sends_put_int_hex, wrap_range; lia|apply sends_put_string].
  - intros Hr. eapply sends_then_ub; [apply sends_put|done|]. intros h' Hok'. apply IH; [lia|done|].
    destruct (parse_format fmt) as [ps|]; [|done]. simpl in *. by destruct (render ps ap).
Qed.
End Undefined.

(** *** A simulated port

    A line with a one-byte transmitter that stays busy for [latency] loads of the
    status register after each byte, a queue of received bytes, and plain
    registers at all other addresses. *)
Module SimUart.
Record port := Port { busy : nat; sent : list Z; incoming : list Z; others : gmap Z Z }.
Definition latency : nat := 3.

#[global] Instance port_bus : Bus port := {|
  dev_val a p :=
    if decide (a = UTRSTAT2) then
      (if decide (busy p = O) then 4 else 0) + (match incoming p with [] => 0 | _ => 1 end)
    else if decide (a = URXH2) then default 0 (head (incoming p))
    else default 0 (others p !! a);
  dev_rd a p :=
    if decide (a = UTRSTAT2) then Port (pred (busy p)) (sent p) (incoming p) (others p)
    else if decide (a = URXH2) then Port (busy p) (sent p) (tail (incoming p)) (others p)
    else p;
  dev_wr a v p :=
    if decide (a = UTXH2) then Port latency (sent p ++ [v]) (incoming p) (others p)
    else Port (busy p) (sent p) (incoming p) (<[a := v]> (others p))
|}.

(** Good states, among those with given contents of the other registers. *)
Definition port_tx_at (P : gmap Z Z -> Prop) : UartTx port 4.
Proof.
  refine {| tx_ok := fun p => (busy p <= latency)%nat /\ P (others p) |}.
  - intros [[b s i m] l] [Hb HP]. cbn [dev busy others] in Hb, HP. unfold latency in Hb.
    destruct b as [|[|[|[|b]]]]; [| | | |lia]; destruct i; (eexists; split; [reflexivity|]);
      (split; [apply (bool_decide_unpack _); reflexivity|exact HP]).
  - intros v [b s i m] [_ HP]. unfold dev_wr, port_bus. rewrite decide_True by done. done.
Defined.
#[global] Instance port_tx : UartTx port 4 := port_tx_at (fun _ => True).

Definition line : hw port := Hw (Port 2 [] [] ∅) [].
End SimUart.

(** ** Properties of the serial port *)

(** [uart_printf] on any format whose conversions are complete sends exactly
    the rendering of the format: literal bytes unchanged, [%c] the byte, [%s] the
    bytes of the string (nothing for NULL), [%d] and [%u] the decimal digits of the
    argument as an unsigned word, [%x] and [%X] two hexadecimal digits per byte from the
    highest nonzero byte on, and nothing for an unknown letter.  It never waits
    forever and its digit buffer never overflows. *)
Theorem uart_printf_sends {D} {B : Bus D} {fuel} {U : UartTx D fuel} fmt ap ps out :
  parse_format fmt = Some ps -> render ps ap = Some out ->
  sends (uart_printf fuel fmt ap) out.
Proof. apply sends_uart_printf. Qed.

Lemma uart_printf_sends_witness :
  exists h, uart_printf 4 (cstr "blk %d at %x%z!") [VInt 305; VInt 0x1f0a2] SimUart.line = Ok (tt, h) /\
    stores_to UTXH2 (bus_log h) = cstr "blk 305 at 01f0a2!".
Proof.
  edestruct (uart_printf_sends (cstr "blk %d at %x%z!") [VInt 305; VInt 0x1f0a2]) with (h := SimUart.line)
    as ([] & h & E & _ & Hw).
  - reflexivity.
  - reflexivity.
  - simpl. unfold SimUart.latency. split; [lia|done].
  - exists h. split; [exact E|]. rewrite stores_to_stores. unfold wrote in Hw. rewrite Hw. vm_compute. reflexivity.
Defined.

(** A format that ends in '%', or a conversion without an argument of its
    type, makes [uart_printf] undefined (it reads behind the NUL or behind the last
    argument); there is no such format for which it returns. *)
Theorem uart_printf_undefined {D} {B : Bus D} {fuel} {U : UartTx D fuel} fmt ap h :
  tx_ok (dev h) -> (parse_format fmt ≫= fun ps => render ps ap) = None ->
  uart_printf fuel fmt ap h = Ub.
Proof. apply uart_printf_ub. Qed.

Lemma uart_printf_undefined_witness : uart_printf 4 (cstr "done 100%") [] SimUart.line = Ub.
Proof. apply uart_printf_undefined; [simpl; unfold SimUart.latency; split; [lia|done]|reflexivity]. Defined.

(** The numbers printed can be read back: for every 32-bit value, [put_int]
    and [put_int_hex] send digit strings that denote it in base 10 and 16. *)
Theorem printed_numbers_read_back {D} {B : Bus D} {fuel} {U : UartTx D fuel} v small :
  0 <= v < 2 ^ 32 ->
  (exists out, sends (put_int fuel v) out /\ read_number 10 out = v) /\
  (exists out, sends (put_int_hex fuel v small) out /\ read_number 16 out = v).
Proof.
  intros Hv. split; eexists; split.
  - by apply sends_put_int.
  - by apply show_dec_read.
  - by apply sends_put_int_hex.
  - by apply show_hex_read.
Qed.

Lemma printed_numbers_read_back_witness :
  (exists out, sends (D := SimUart.port) (put_int 4 4294967295) out /\ read_number 10 out = 4294967295) /\
  (exists out, sends (D := SimUart.port) (put_int_hex 4 4294967295 true) out /\ read_number 16 out = 4294967295).
Proof. apply (printed_numbers_read_back 4294967295 true). lia. Defined.
