(* ===== verification/Nand.v ===== *)
(** * The NAND driver of the first-stage loader ([board/samsung/smdkv210/spl/nand.c])

    Commands, address cycles and data go to the flash controller's registers; the
    8-bit ECC engine of the controller watches the data.  The chip and the engine
    are hardware: the class [NandChip] says that the device on the bus follows the
    documented command set ([chip_wr], [chip_rd], [chip_val]), that every wait ends,
    and that the registers of the engine hold its results ([ecc_val]) when the end of
    its work has been waited for, not before; the class [EccCodec] holds the code the engine computes.  The theorems
    describe what each driver function does to the memory array of the chip. *)
From S2P Require Import Prelude Mmio.

Definition MP0_1CON := 0xE02002E0.
Definition MP0_3CON := 0xE0200320.
Definition MP0_6CON := 0xE0200380.
Definition NFCONF := 0xB0E00000.
Definition NFCONT := 0xB0E00004.
Definition NFCMMD := 0xB0E00008.
Definition NFADDR := 0xB0E0000C.
Definition NFDATA := 0xB0E00010.
Definition NFSTAT := 0xB0E00028.
Definition NFECCPRGECC0 := 0xB0E20090.
Definition NFECCPRGECC1 := 0xB0E20094.
Definition NFECCPRGECC2 := 0xB0E20098.
Definition NFECCPRGECC3 := 0xB0E2009C.
Definition NFECCCONF := 0xB0E20000.
Definition NFECCCONT := 0xB0E20020.
Definition NFECCSTAT := 0xB0E20030.
Definition NFECCSECSTAT := 0xB0E20040.
Definition NFECCERL0 := 0xB0E200C0.
Definition NFECCERL1 := 0xB0E200C4.
Definition NFECCERL2 := 0xB0E200C8.
Definition NFECCERL3 := 0xB0E200CC.
Definition NFECCERP0 := 0xB0E200F0.
Definition NFECCERP1 := 0xB0E200F4.

Definition OOB_SIZE : Z := 64.
Definition PAGE_SIZE : Z := 2048.
Definition PAGE_PER_BLK : Z := 64.
Definition BLOCK_SIZE : Z := PAGE_SIZE * PAGE_PER_BLK.
Definition OOB_ECC_OFFSET : nat := 12.
Definition ECC_SIZE : Z := 512.
Definition ECC_BYTES : nat := 13.

(** The [mode] argument of the ECC functions. *)
Inductive ecc_mode := WRITE_ECC | READ_ECC.

Section Nand.
Context {D : Type} {B : Bus D} (fuel : nat).

Definition nand_wait_ready : io D unit := wait_set fuel NFSTAT (1 .<< 0).
Definition nand_select_chip : io D unit := mmio_and NFCONT (~32 (1 .<< 1)).
Definition nand_deselect_chip : io D unit := mmio_or NFCONT (1 .<< 1).
Definition nand_cmd (cmd : Z) : io D unit := mmio_write NFCMMD cmd.

Definition nand_addr (addr : Z) : io D unit :=
  let col := addr mod PAGE_SIZE in
  let row := addr / PAGE_SIZE in
  mmio_write NFADDR (col .& 0xFF) ;;;
  mmio_write NFADDR ((col .>> 8) .& 0xF) ;;;
  mmio_write NFADDR (row .& 0xFF) ;;;
  mmio_write NFADDR ((row .>> 8) .& 0xFF) ;;;
  mmio_write NFADDR ((row .>> 16) .& 0x07).

Definition nand_read : io D Z := mmio_read8 NFDATA.
Definition nand_write (data : Z) : io D unit := mmio_write8 NFDATA data.

(** The bytes stored to [buf[0 .. size-1]]. *)
Definition nand_read_buf (size : nat) : io D (list Z) :=
  io_collect 0 size (fun _ => mmio_read8 NFDATA).

(** Reading [buf] outside its bounds is undefined. *)
Definition nand_write_buf (buf : list Z) (size : nat) : io D unit :=
  io_for 0 size (fun i => b <- io_lift (res_of_option (buf !! i)) ;; mmio_write8 NFDATA b).

Definition read_oob (addr size : Z) : io D (list Z) :=
  nand_cmd 0 ;;;
  let col := PAGE_SIZE in
  let row := addr / PAGE_SIZE in
  mmio_write NFADDR (col .& 0xFF) ;;;
  mmio_write NFADDR ((col .>> 8) .& 0xF) ;;;
  mmio_write NFADDR (row .& 0xFF) ;;;
  mmio_write NFADDR ((row .>> 8) .& 0xFF) ;;;
  mmio_write NFADDR ((row .>> 16) .& 0x07) ;;;
  nand_cmd 0x30 ;;;
  nand_wait_ready ;;;
  let len := if size >? OOB_SIZE then OOB_SIZE else size in
  nand_read_buf (Z.to_nat len).

(** The loop counter runs from [col] up to the unsigned sum [size + col]. *)
Definition read_random (addr size : Z) : io D (list Z) :=
  nand_cmd 0 ;;;
  nand_addr addr ;;;
  nand_cmd 0x30 ;;;
  nand_wait_ready ;;;
  let col := addr mod PAGE_SIZE in
  io_collect (Z.to_nat col) (Z.to_nat (u32 (size + col) - col)) (fun n =>
    let i := Z.of_nat n in
    nand_cmd 0x05 ;;;
    mmio_write NFADDR (i .& 0xFF) ;;;
    mmio_write NFADDR ((i .>> 8) .& 0xF) ;;;
    nand_cmd 0xE0 ;;;
    nand_read).

Definition nand_init_hwecc_8bit (mode : ecc_mode) : io D unit :=
  match mode with
  | READ_ECC =>
    mmio_and NFECCCONT (~32 (0x1 .<< 16)) ;;;
    mmio_or NFECCSTAT (1 .<< 24)
  | WRITE_ECC =>
    mmio_or NFECCCONT (0x1 .<< 16) ;;;
    mmio_or NFECCSTAT (1 .<< 25)
  end ;;;
  mmio_or NFCONT (1 .<< 5) ;;;
  mmio_write NFECCCONF (((ECC_SIZE - 1) .<< 16) .| (0x3 .<< 0)) ;;;
  mmio_or NFECCCONT (0x1 .<< 2) ;;;
  mmio_and NFCONT (~32 (1 .<< 7)).

(** The bytes stored to [ecc_calc]: none when decoding. *)
Definition nand_calculate_ecc_8bit (mode : ecc_mode) : io D (list Z) :=
  mmio_or NFCONT (1 .<< 7) ;;;
  match mode with
  | READ_ECC => wait_set fuel NFECCSTAT (1 .<< 24) ;;; io_ret []
  | WRITE_ECC =>
    wait_set fuel NFECCSTAT (1 .<< 25) ;;;
    nfeccprgecc0 <- mmio_read NFECCPRGECC0 ;;
    nfeccprgecc1 <- mmio_read NFECCPRGECC1 ;;
    nfeccprgecc2 <- mmio_read NFECCPRGECC2 ;;
    nfeccprgecc3 <- mmio_read NFECCPRGECC3 ;;
    io_ret [nfeccprgecc0 .& 0xFF;
            (nfeccprgecc0 .>> 8) .& 0xFF;
            (nfeccprgecc0 .>> 16) .& 0xFF;
            (nfeccprgecc0 .>> 24) .& 0xFF;
            nfeccprgecc1 .& 0xFF;
            (nfeccprgecc1 .>> 8) .& 0xFF;
            (nfeccprgecc1 .>> 16) .& 0xFF;
            (nfeccprgecc1 .>> 24) .& 0xFF;
            nfeccprgecc2 .& 0xFF;
            (nfeccprgecc2 .>> 8) .& 0xFF;
            (nfeccprgecc2 .>> 16) .& 0xFF;
            (nfeccprgecc2 .>> 24) .& 0xFF;
            nfeccprgecc3 .& 0xFF]
  end.

(** [dat[i] ^= m] *)
Definition xor_at (i m : Z) (dat : list Z) : res (list Z) :=
  match dat !! Z.to_nat i with
  | Some b => Ok (<[Z.to_nat i := u8 (b .^ m)]> dat)
  | None => Ub
  end.

(** The cases of the [switch], each falling through to the next. *)
Definition correct_switch (errNo erl0 erl1 erl2 erl3 erp0 erp1 : Z) (dat : list Z) : res (Z * list Z) :=
  let case0 dat := Ok (0, dat) in
  let case1 dat := let* dat := xor_at (erl0 .& 0x3FF) (erp0 .& 0xFF) dat in case0 dat in
  let case2 dat := let* dat := xor_at ((erl0 .>> 16) .& 0x3FF) ((erp0 .>> 8) .& 0xFF) dat in case1 dat in
  let case3 dat := let* dat := xor_at (erl1 .& 0x3FF) ((erp0 .>> 16) .& 0xFF) dat in case2 dat in
  let case4 dat := let* dat := xor_at ((erl1 .>> 16) .& 0x3FF) ((erp0 .>> 24) .& 0xFF) dat in case3 dat in
  let case5 dat := let* dat := xor_at (erl2 .& 0x3FF) (erp1 .& 0xFF) dat in case4 dat in
  let case6 dat := let* dat := xor_at ((erl2 .>> 16) .& 0x3FF) ((erp1 .>> 8) .& 0xFF) dat in case5 dat in
  let case7 dat := let* dat := xor_at (erl3 .& 0x3FF) ((erp1 .>> 16) .& 0xFF) dat in case6 dat in
  let case8 dat := let* dat := xor_at ((erl3 .>> 16) .& 0x3FF) ((erp1 .>> 24) .& 0xFF) dat in case7 dat in
  if errNo =? 8 then case8 dat
  else if errNo =? 7 then case7 dat
  else if errNo =? 6 then case6 dat
  else if errNo =? 5 then case5 dat
  else if errNo =? 4 then case4 dat
  else if errNo =? 3 then case3 dat
  else if errNo =? 2 then case2 dat
  else if errNo =? 1 then case1 dat
  else if errNo =? 0 then case0 dat
  else Ok (-1, dat).

Definition nand_correct_data_8bit (dat : list Z) : io D (Z * list Z) :=
  wait_clear fuel NFECCSTAT (1 .<< 31) ;;;
  errNo <- mmio_read NFECCSECSTAT ;;
  erl0 <- mmio_read NFECCERL0 ;;
  erl1 <- mmio_read NFECCERL1 ;;
  erl2 <- mmio_read NFECCERL2 ;;
  erl3 <- mmio_read NFECCERL3 ;;
  erp0 <- mmio_read NFECCERP0 ;;
  erp1 <- mmio_read NFECCERP1 ;;
  io_lift (correct_switch (errNo .& 0x1F) erl0 erl1 erl2 erl3 erp0 erp1 dat).

Definition nand_reset : io D unit :=
  nand_select_chip ;;; nand_cmd 0xFF ;;; nand_wait_ready ;;; nand_deselect_chip.

Definition nand_init : io D unit :=
  mmio_and MP0_1CON (~32 (0xFFFF .<< 8)) ;;;
  mmio_or MP0_1CON (0x3333 .<< 8) ;;;
  mmio_write MP0_3CON 0x22222222 ;;;
  mmio_write MP0_6CON 0x22222222 ;;;
  mmio_write NFCONF ((0x3 .<< 23) .| (0x3 .<< 12) .| (0x2 .<< 8) .| (0x1 .<< 4)
    .| (0x0 .<< 3) .| (0x0 .<< 2) .| (0x1 .<< 1)) ;;;
  mmio_write NFCONT ((0x0 .<< 16) .| (0x1 .<< 1) .| (0x1 .<< 0)) ;;;
  nand_reset.

Definition nand_read_id : io D (list Z) :=
  nand_select_chip ;;;
  nand_cmd 0x90 ;;;
  mmio_write NFADDR 0x00 ;;;
  id <- io_collect 0 5 (fun _ => nand_read) ;;
  nand_deselect_chip ;;;
  io_ret id.

Definition nand_erase (addr : Z) : io D unit :=
  if tst addr (BLOCK_SIZE - 1) then io_ret tt
  else
    let row := addr / 2048 in
    nand_select_chip ;;;
    nand_cmd 0x60 ;;;
    mmio_write NFADDR (row .& 0xFF) ;;;
    mmio_write NFADDR ((row .>> 8) .& 0xFF) ;;;
    mmio_write NFADDR ((row .>> 16) .& 0x07) ;;;
    nand_cmd 0xD0 ;;;
    nand_wait_ready ;;;
    nand_deselect_chip.

Definition nand_read_random (addr size : Z) : io D (list Z) :=
  nand_select_chip ;;;
  bytes <- read_random addr size ;;
  nand_deselect_chip ;;;
  io_ret bytes.

Definition nand_read_oob (addr size : Z) : io D (list Z) :=
  nand_select_chip ;;;
  bytes <- read_oob addr size ;;
  nand_deselect_chip ;;;
  io_ret bytes.

Definition nand_write_page (buf : list Z) (addr : Z) (oob : option (list Z)) : io D unit :=
  if tst addr (PAGE_SIZE - 1) then io_ret tt
  else
    nand_select_chip ;;;
    nand_cmd 0x80 ;;;
    nand_addr addr ;;;
    nand_wait_ready ;;;
    nand_write_buf buf (Z.to_nat PAGE_SIZE) ;;;
    match oob with Some oob => nand_write_buf oob (Z.to_nat OOB_SIZE) | None => io_ret tt end ;;;
    nand_cmd 0x10 ;;;
    nand_wait_ready ;;;
    nand_deselect_chip.

(** The loop over the [eccsteps] chunks of a page; the result is the array [oob]. *)
Fixpoint write_chunks (eccsteps : nat) (i : nat) (buf : list Z) (oob : list Z) : io D (list Z) :=
  match eccsteps with
  | O => io_ret oob
  | S eccsteps =>
    nand_init_hwecc_8bit WRITE_ECC ;;;
    nand_write_buf buf (Z.to_nat ECC_SIZE) ;;;
    ecc <- nand_calculate_ecc_8bit WRITE_ECC ;;
    oob <- io_lift (res_of_option (store_block oob (OOB_ECC_OFFSET + i) ecc)) ;;
    write_chunks eccsteps (i + ECC_BYTES) (drop (Z.to_nat ECC_SIZE) buf) oob
  end.

Definition nand_write_page_8bit (buf : list Z) (addr : Z) : io D unit :=
  if tst addr (PAGE_SIZE - 1) then io_ret tt
  else
    nand_select_chip ;;;
    nand_cmd 0x80 ;;;
    nand_addr addr ;;;
    nand_wait_ready ;;;
    let eccsteps := PAGE_SIZE / ECC_SIZE in
    oob <- write_chunks (Z.to_nat eccsteps) 0 buf (replicate (Z.to_nat OOB_SIZE) 0xFF) ;;
    nand_write_buf oob (Z.to_nat OOB_SIZE) ;;;
    nand_cmd 0x10 ;;;
    nand_wait_ready ;;;
    nand_deselect_chip.

(** The loop over the chunks when reading.  [buf] is the caller's whole buffer and
    [off] the distance the pointer has moved into it. *)
Fixpoint read_chunks (eccsteps : nat) (i : nat) (oob : list Z) (col : Z)
    (buf : list Z) (off : nat) (err : Z) : io D (Z * list Z) :=
  match eccsteps with
  | O => io_ret (err, buf)
  | S eccsteps =>
    nand_cmd 0x05 ;;;
    mmio_write NFADDR (col .& 0xFF) ;;;
    mmio_write NFADDR ((col .>> 8) .& 0xF) ;;;
    nand_cmd 0xE0 ;;;
    nand_init_hwecc_8bit READ_ECC ;;;
    bytes <- nand_read_buf (Z.to_nat ECC_SIZE) ;;
    buf <- io_lift (res_of_option (store_block buf off bytes)) ;;
    nand_write_buf (drop (OOB_ECC_OFFSET + i) oob) ECC_BYTES ;;;
    nand_calculate_ecc_8bit READ_ECC ;;;
    r <- nand_correct_data_8bit (drop off buf) ;;
    read_chunks eccsteps (i + ECC_BYTES) oob (col + ECC_SIZE) (take off buf ++ r.2)
      (off + Z.to_nat ECC_SIZE) (if r.1 <? 0 then err + 1 else err)
  end.

(** The result and the buffer. *)
Definition nand_read_page_8bit (buf : list Z) (addr : Z) : io D (Z * list Z) :=
  if tst addr (PAGE_SIZE - 1) then io_ret (-1, buf)
  else
    nand_select_chip ;;;
    oob <- read_oob addr OOB_SIZE ;;
    nand_cmd 0 ;;;
    nand_addr addr ;;;
    nand_cmd 0x30 ;;;
    nand_wait_ready ;;;
    let eccsteps := PAGE_SIZE / ECC_SIZE in
    r <- read_chunks (Z.to_nat eccsteps) 0 oob 0 buf 0 0 ;;
    nand_deselect_chip ;;;
    io_ret r.

(** The page copy routine in the chip's internal ROM is not part of the sources:
    it is a parameter that takes a block, a page in it and the buffer. *)
Definition NF8_ReadPage_8ECC (NF8_ReadPage_Adv : Z -> Z -> list Z -> io D (Z * list Z))
    (addr : Z) (buf : list Z) : io D (Z * list Z) :=
  if tst addr (PAGE_SIZE - 1) then io_ret (-1, buf)
  else
    let page := addr / PAGE_SIZE in
    NF8_ReadPage_Adv (page / PAGE_PER_BLK) (page mod PAGE_PER_BLK) buf.
End Nand.

(** ** The documented hardware

    *** The ECC engine: the code it computes and the errors it reports. *)
Class EccCodec := {
  ecc_encode : list Z -> list Z;
  (** the error locations and bit patterns of a 512-byte message with its code *)
  ecc_decode : list Z -> list Z -> option (list (Z * Z));
  (** the error count reported for an uncorrectable message *)
  ecc_fail : Z;
  ecc_encode_ok l : length (ecc_encode l) = ECC_BYTES /\ byte_list (ecc_encode l);
  ecc_decode_ok l p errs : ecc_decode l p = Some errs ->
    (length errs <= 8)%nat /\ Forall (fun e => 0 <= e.1 < 512 /\ 0 <= e.2 < 256) errs;
  ecc_fail_ok : 8 < ecc_fail < 32
}.

(** *** The chip: its memory array, page register and command interpreter. *)
Record chip := Chip {
  cells : gmap Z (list Z);
  ident : list Z;
  nfcont : Z;
  nfecccont : Z;
  cmd : Z;
  addrs : list Z;
  pagereg : list Z;
  column : nat;
  fed : list Z
}.

Definition page_bytes : nat := 2112.
Definition erased : list Z := replicate page_bytes 0xFF.
Definition page_at (cs : gmap Z (list Z)) (row : Z) : list Z := default erased (cs !! row).

(** Programming can only clear bits. *)
Definition program (cs : gmap Z (list Z)) (row : Z) (data : list Z) : gmap Z (list Z) :=
  <[row := zip_with Z.land (page_at cs row) data]> cs.

(** Erasing sets all bits of the block of 64 pages that holds the row. *)
Definition erase_block (cs : gmap Z (list Z)) (row : Z) : gmap Z (list Z) :=
  filter (fun p => p.1 / PAGE_PER_BLK <> row / PAGE_PER_BLK) cs.

(** Address cycles, lowest byte first. *)
Fixpoint cycles (l : list Z) : Z :=
  match l with [] => 0 | a :: l => a + 256 * cycles l end.

Definition selected (c : chip) : bool := negb (Z.testbit (nfcont c) 1).
Definition ecc_open (c : chip) : bool := negb (Z.testbit (nfcont c) 7).

Definition feed (v : Z) (c : chip) : chip :=
  if ecc_open c then
    Chip (cells c) (ident c) (nfcont c) (nfecccont c) (cmd c) (addrs c) (pagereg c) (column c) (fed c ++ [v])
  else c.

Definition latch (v : Z) (c : chip) : chip :=
  Chip (cells c) (ident c) (nfcont c) (nfecccont c) v [] (pagereg c) (column c) (fed c).
Definition moved (v : Z) (reg : list Z) (n : nat) (c : chip) : chip :=
  Chip (cells c) (ident c) (nfcont c) (nfecccont c) v [] reg n (fed c).
Definition stored (v : Z) (cs : gmap Z (list Z)) (c : chip) : chip :=
  Chip cs (ident c) (nfcont c) (nfecccont c) v [] (pagereg c) (column c) (fed c).

(** A command cycle. *)
Definition command (v : Z) (c : chip) : chip :=
  if (v =? 0x30) && (cmd c =? 0x00) && (length (addrs c) =? 5)%nat then
    moved 0x30 (page_at (cells c) (cycles (drop 2 (addrs c)))) (Z.to_nat (cycles (take 2 (addrs c)))) c
  else if (v =? 0xE0) && (cmd c =? 0x05) && (length (addrs c) =? 2)%nat then
    moved 0xE0 (pagereg c) (Z.to_nat (cycles (addrs c))) c
  else if (v =? 0x10) && (cmd c =? 0x80) && (length (addrs c) =? 5)%nat then
    stored 0x10 (program (cells c) (cycles (drop 2 (addrs c))) (pagereg c)) c
  else if (v =? 0xD0) && (cmd c =? 0x60) && (length (addrs c) =? 3)%nat then
    stored 0xD0 (erase_block (cells c) (cycles (addrs c))) c
  else if v =? 0x80 then moved 0x80 erased (column c) c
  else latch v c.

(** An address cycle; the fifth one of a program command and the one of the
    read-id command also set the column. *)
Definition address (v : Z) (c : chip) : chip :=
  let addrs' := addrs c ++ [v] in
  let column' :=
    if (cmd c =? 0x80) && (length addrs' =? 5)%nat then Z.to_nat (cycles (take 2 addrs'))
    else if cmd c =? 0x90 then O else column c in
  Chip (cells c) (ident c) (nfcont c) (nfecccont c) (cmd c) addrs' (pagereg c) column' (fed c).

Definition data_in (v : Z) (c : chip) : chip :=
  if cmd c =? 0x80 then
    Chip (cells c) (ident c) (nfcont c) (nfecccont c) (cmd c) (addrs c)
      (<[column c := v]> (pagereg c)) (S (column c)) (fed c)
  else c.

(** Data cycles; the status of a healthy chip is ready, not protected, not failed. *)
Definition data_out (c : chip) : Z :=
  if negb (selected c) then 0xFF
  else if (cmd c =? 0x30) || (cmd c =? 0xE0) then default 0xFF (pagereg c !! column c)
  else if cmd c =? 0x90 then default 0xFF (ident c !! column c)
  else if cmd c =? 0x70 then 0xC0
  else 0xFF.

Definition advance (c : chip) : chip :=
  Chip (cells c) (ident c) (nfcont c) (nfecccont c) (cmd c) (addrs c) (pagereg c) (S (column c)) (fed c).

Section Chip.
Context `{EccCodec}.

(** Stores to the controller.  The two "initialise" bits read as zero. *)
Definition chip_wr (a v : Z) (c : chip) : chip :=
  if a =? NFCONT then
    Chip (cells c) (ident c) (Z.clearbit v 5) (nfecccont c) (cmd c) (addrs c) (pagereg c) (column c) (fed c)
  else if a =? NFECCCONT then
    Chip (cells c) (ident c) (nfcont c) (Z.clearbit v 2) (cmd c) (addrs c) (pagereg c) (column c)
      (if Z.testbit v 2 then [] else fed c)
  else if a =? NFCMMD then (if selected c then command v c else c)
  else if a =? NFADDR then (if selected c then address v c else c)
  else if a =? NFDATA then feed v (if selected c then data_in v c else c)
  else c.

Definition chip_rd (a : Z) (c : chip) : chip :=
  if a =? NFDATA then feed (data_out c) (if selected c then advance c else c) else c.

Definition parity (c : chip) : list Z := ecc_encode (take 512 (fed c)).
Definition report (c : chip) : option (list (Z * Z)) := ecc_decode (take 512 (fed c)) (drop 512 (fed c)).
Definition loc (c : chip) (k : nat) : Z := default 0 ((default [] (report c)).*1 !! k).
Definition pat (c : chip) (k : nat) : Z := default 0 ((default [] (report c)).*2 !! k).
Definition err_count (c : chip) : Z :=
  match report c with Some errs => Z.of_nat (length errs) | None => ecc_fail end.

(** Loads: control registers and data. *)
Definition chip_val (a : Z) (c : chip) : option Z :=
  if a =? NFCONT then Some (nfcont c)
  else if a =? NFECCCONT then Some (nfecccont c)
  else if a =? NFDATA then Some (data_out c)
  else None.

(** Loads from the engine once it is through: the code computed and the errors found. *)
Definition ecc_val (a : Z) (c : chip) : option Z :=
  if a =? NFECCPRGECC0 then Some (cycles (take 4 (parity c)))
  else if a =? NFECCPRGECC1 then Some (cycles (take 4 (drop 4 (parity c))))
  else if a =? NFECCPRGECC2 then Some (cycles (take 4 (drop 8 (parity c))))
  else if a =? NFECCPRGECC3 then Some (cycles (drop 12 (parity c)))
  else if a =? NFECCSECSTAT then Some (err_count c)
  else if a =? NFECCERL0 then Some (loc c 0 + 2 ^ 16 * loc c 1)
  else if a =? NFECCERL1 then Some (loc c 2 + 2 ^ 16 * loc c 3)
  else if a =? NFECCERL2 then Some (loc c 4 + 2 ^ 16 * loc c 5)
  else if a =? NFECCERL3 then Some (loc c 6 + 2 ^ 16 * loc c 7)
  else if a =? NFECCERP0 then Some (cycles [pat c 0; pat c 1; pat c 2; pat c 3])
  else if a =? NFECCERP1 then Some (cycles [pat c 4; pat c 5; pat c 6; pat c 7])
  else None.

(** The two kinds of registers are apart. *)
Lemma ecc_val_only a c v : ecc_val a c = Some v -> chip_val a c = None.
Proof.
  unfold ecc_val, chip_val. intros Hv.
  destruct (Z.eqb_spec a NFCONT) as [->|]; [done|]. destruct (Z.eqb_spec a NFECCCONT) as [->|]; [done|]. by destruct (Z.eqb_spec a NFDATA) as [->|].
Qed.
End Chip.

(** *** The interface the driver relies on

    The device follows the command set; it becomes ready after a command; and the
    ECC engine finishes once it has seen a whole message (and, when decoding, its
    13 code bytes).  The engine takes its time: its result registers hold the results
    only when it has [ecc_settled], which is so after the wait for the end of encoding
    or for the engine to be idle, and stays so as long as no data is moved and no
    register is written.  Before that, nothing is said about what they hold. *)
Class NandChip (D : Type) {B : Bus D} {E : EccCodec} (fuel : nat) := {
  chip_of : D -> chip;
  ecc_settled : D -> Prop;
  chip_of_wr a v d : chip_of (dev_wr a v d) = chip_wr a v (chip_of d);
  chip_of_rd a d : chip_of (dev_rd a d) = chip_rd a (chip_of d);
  chip_of_val a d v : chip_val a (chip_of d) = Some v -> dev_val a d = v;
  ecc_of_val a d v : ecc_settled d -> ecc_val a (chip_of d) = Some v -> dev_val a d = v;
  settled_rd a d : a <> NFDATA -> ecc_settled d -> ecc_settled (dev_rd a d);
  nand_ready h : exists h', wait_set fuel NFSTAT (1 .<< 0) h = Ok (tt, h') /\ chip_of (dev h') = chip_of (dev h);
  ecc_encoded h : length (fed (chip_of (dev h))) = 512%nat -> Z.testbit (nfecccont (chip_of (dev h))) 16 = true ->
    exists h', wait_set fuel NFECCSTAT (1 .<< 25) h = Ok (tt, h') /\ chip_of (dev h') = chip_of (dev h) /\ ecc_settled (dev h');
  ecc_decoded h : length (fed (chip_of (dev h))) = 525%nat -> Z.testbit (nfecccont (chip_of (dev h))) 16 = false ->
    exists h', wait_set fuel NFECCSTAT (1 .<< 24) h = Ok (tt, h') /\ chip_of (dev h') = chip_of (dev h);
  ecc_idle h : length (fed (chip_of (dev h))) = 525%nat -> Z.testbit (nfecccont (chip_of (dev h))) 16 = false ->
    exists h', wait_clear fuel NFECCSTAT (1 .<< 31) h = Ok (tt, h') /\ chip_of (dev h') = chip_of (dev h) /\ ecc_settled (dev h')
}.

(** ** The driver against the chip

    A [view] is what the driver's correctness depends on: whether the chip is
    selected, whether the ECC engine is open and encoding, the memory array, the
    command in progress and the data the engine has seen.  [goes m v a v'] says that
    [m], started with view [v], returns [a] and leaves view [v']. *)
Record view := View {
  v_sel : bool;
  v_open : bool;
  v_enc : bool;
  v_cells : gmap Z (list Z);
  v_ident : list Z;
  v_cmd : Z;
  v_addrs : list Z;
  v_reg : list Z;
  v_col : nat;
  v_fed : list Z
}.

Definition sees (c : chip) (v : view) : Prop :=
  0 <= nfcont c < 2 ^ 32 /\ (0 <= nfecccont c < 2 ^ 32 /\ Z.testbit (nfecccont c) 2 = false) /\
  v = View (selected c) (ecc_open c) (Z.testbit (nfecccont c) 16)
        (cells c) (ident c) (cmd c) (addrs c) (pagereg c) (column c) (fed c).

Section Driver.
Context {D : Type} {B : Bus D} {E : EccCodec} {fuel : nat} {N : NandChip D fuel}.

#[local] Arguments Z.clearbit : simpl never.
#[local] Arguments Z.testbit : simpl never.

Definition goes {A} (m : io D A) (v : view) (a : A) (v' : view) : Prop :=
  forall h, sees (chip_of (dev h)) v ->
    runs m h (fun r h' => r = a /\ sees (chip_of (dev h')) v').

Lemma goes_ret {A} (a : A) v : goes (io_ret a) v a v.
Proof. intros h Hs. exists a, h. split_and!; done. Qed.

Lemma goes_bind {A A'} (m : io D A) (f : A -> io D A') v a v' b v'' :
  goes m v a v' -> goes (f a) v' b v'' -> goes (io_bind m f) v b v''.
Proof.
  intros Hm Hf h Hs. eapply runs_bind; [by apply Hm|]. intros r h' [-> Hs']. by apply Hf.
Qed.

Lemma goes_lift {A A'} (r : res A) a (f : A -> io D A') v b v' :
  r = Ok a -> goes (f a) v b v' -> goes (x <- io_lift r ;; f x) v b v'.
Proof. intros -> H h Hs. exact (H h Hs). Qed.

Lemma goes_wait_ready v : goes (nand_wait_ready fuel) v tt v.
Proof. intros h Hs. destruct (nand_ready h) as (h' & Hw & Hc). exists tt, h'. by rewrite Hc. Qed.

(** A store, by what it does to the chip. *)
Lemma goes_write a x v v' :
  (forall c, sees c v -> sees (chip_wr a (u32 x) c) v') -> goes (mmio_write a x) v tt v'.
Proof.
  intros Hc h Hs. eexists tt, _. split; [reflexivity|]. split; [done|]. simpl.
  rewrite chip_of_wr. auto.
Qed.

Lemma goes_modify a (f : Z -> Z) v v' :
  a <> NFDATA ->
  (forall c y, (forall z, chip_val a c = Some z -> y = u32 z) -> sees c v -> sees (chip_wr a (u32 (f y)) c) v') ->
  goes (y <- mmio_read a ;; mmio_write a (f y)) v tt v'.
Proof.
  intros Ha Hc h Hs. eexists tt, _. split; [reflexivity|]. split; [done|]. simpl.
  rewrite chip_of_wr, chip_of_rd. unfold chip_rd. destruct (Z.eqb_spec a NFDATA); [done|].
  apply Hc; [|done]. intros z Hz. by rewrite (chip_of_val _ _ _ Hz).
Qed.

(** Loads and stores of registers the chip does not react to. *)
Lemma goes_or_other a x v :
  a <> NFDATA -> (forall y c, chip_wr a y c = c) -> goes (mmio_or a x) v tt v.
Proof. intros Ha Hc. apply goes_modify; [done|]. intros c y _ Hs. by rewrite Hc. Qed.

Lemma sees_cont c x (s o e : bool) cs id cm ad rg co fd :
  sees c (View s o e cs id cm ad rg co fd) -> 0 <= x < 2 ^ 32 ->
  sees (chip_wr NFCONT x c)
    (View (negb (Z.testbit x 1)) (negb (Z.testbit x 7)) e cs id cm ad rg co fd).
Proof.
  intros (H1 & H2 & [= -> -> -> -> -> -> -> -> -> ->]) Hx. unfold chip_wr. rewrite Z.eqb_refl.
  split; [|split]; simpl; [|done|].
  - rewrite Z.clearbit_spec'. apply bits_range; [lia|]. intros i Hi. 
    rewrite Z.ldiff_spec, (testbit_high 32 x) by lia. done.
  - unfold selected, ecc_open. simpl. rewrite !Z.clearbit_neq by lia. done.
Qed.

(** Read-modify-write of NFCONT, by its effect on the select and lock bits. *)
Lemma goes_cont f (fs fo : bool -> bool) s o e cs id cm ad rg co fd :
  (forall y, 0 <= y < 2 ^ 32 -> 0 <= f y < 2 ^ 32 /\
    negb (Z.testbit (f y) 1) = fs (negb (Z.testbit y 1)) /\
    negb (Z.testbit (f y) 7) = fo (negb (Z.testbit y 7))) ->
  goes (y <- mmio_read NFCONT ;; mmio_write NFCONT (f y))
    (View s o e cs id cm ad rg co fd) tt (View (fs s) (fo o) e cs id cm ad rg co fd).
Proof.
  intros Hf. apply goes_modify; [done|]. intros c y Hy Hs. specialize (Hy _ eq_refl).
  destruct Hs as (H1 & H2 & Hv). rewrite wrap_small in Hy by done. subst y.
  destruct (Hf _ H1) as (Hr & E1 & E7). rewrite wrap_small by done.
  pose proof (sees_cont c _ _ _ _ _ _ _ _ _ _ _ (conj H1 (conj H2 Hv)) Hr) as Hc.
  rewrite E1, E7 in Hc. by injection Hv as -> -> -> -> -> -> -> -> -> ->.
Qed.

Lemma goes_select s o e cs id cm ad rg co fd :
  goes nand_select_chip (View s o e cs id cm ad rg co fd) tt (View true o e cs id cm ad rg co fd).
Proof.
  apply (goes_cont (fun y => y .& ~32 (1 .<< 1)) (fun _ => true) (fun o => o)).
  intros y Hy. rewrite !Z.land_spec. split; [apply land_range, wrap_range; lia|].
  change (Z.testbit (~32 (1 .<< 1)) 1) with false. change (Z.testbit (~32 (1 .<< 1)) 7) with true.
  by rewrite andb_false_r, andb_true_r.
Qed.

Lemma goes_deselect s o e cs id cm ad rg co fd :
  goes nand_deselect_chip (View s o e cs id cm ad rg co fd) tt (View false o e cs id cm ad rg co fd).
Proof.
  apply (goes_cont (fun y => y .| (1 .<< 1)) (fun _ => false) (fun o => o)).
  intros y Hy. rewrite !Z.lor_spec. split; [by apply lor_range|].
  change (Z.testbit (1 .<< 1) 1) with true. change (Z.testbit (1 .<< 1) 7) with false.
  by rewrite orb_true_r, orb_false_r.
Qed.

Lemma goes_lock s o e cs id cm ad rg co fd :
  goes (mmio_or NFCONT (1 .<< 7)) (View s o e cs id cm ad rg co fd) tt (View s false e cs id cm ad rg co fd).
Proof.
  apply (goes_cont (fun y => y .| (1 .<< 7)) (fun s => s) (fun _ => false)).
  intros y Hy. rewrite !Z.lor_spec. split; [by apply lor_range|].
  change (Z.testbit (1 .<< 7) 1) with false. change (Z.testbit (1 .<< 7) 7) with true.
  by rewrite orb_true_r, orb_false_r.
Qed.

Lemma goes_unlock s o e cs id cm ad rg co fd :
  goes (mmio_and NFCONT (~32 (1 .<< 7))) (View s o e cs id cm ad rg co fd) tt
    (View s true e cs id cm ad rg co fd).
Proof.
  apply (goes_cont (fun y => y .& ~32 (1 .<< 7)) (fun s => s) (fun _ => true)).
  intros y Hy. rewrite !Z.land_spec. split; [apply land_range, wrap_range; lia|].
  change (Z.testbit (~32 (1 .<< 7)) 1) with true. change (Z.testbit (~32 (1 .<< 7)) 7) with false.
  by rewrite andb_false_r, andb_true_r.
Qed.

Lemma goes_init_1bit s o e cs id cm ad rg co fd :
  goes (mmio_or NFCONT (1 .<< 5)) (View s o e cs id cm ad rg co fd) tt (View s o e cs id cm ad rg co fd).
Proof.
  apply (goes_cont (fun y => y .| (1 .<< 5)) (fun s => s) (fun o => o)).
  intros y Hy. rewrite !Z.lor_spec. split; [by apply lor_range|].
  change (Z.testbit (1 .<< 5) 1) with false. change (Z.testbit (1 .<< 5) 7) with false.
  by rewrite !orb_false_r.
Qed.

(** Read-modify-write of NFECCCONT, by its effect on the direction and the
    initialise bit. *)
Lemma goes_econt f (fe : bool -> bool) (init : bool) s o e cs id cm ad rg co fd :
  (forall y, 0 <= y < 2 ^ 32 -> Z.testbit y 2 = false -> 0 <= f y < 2 ^ 32 /\
    Z.testbit (f y) 16 = fe (Z.testbit y 16) /\ Z.testbit (f y) 2 = init) ->
  goes (y <- mmio_read NFECCCONT ;; mmio_write NFECCCONT (f y))
    (View s o e cs id cm ad rg co fd) tt
    (View s o (fe e) cs id cm ad rg co (if init then [] else fd)).
Proof.
  intros Hf. apply goes_modify; [done|]. intros c y Hy Hs. specialize (Hy _ eq_refl).
  destruct Hs as (H1 & (H2 & H3) & Hv). rewrite wrap_small in Hy by done. subst y.
  destruct (Hf _ H2 H3) as (Hr & E16 & E2). rewrite wrap_small by done.
  injection Hv as -> -> -> -> -> -> -> -> -> ->. unfold chip_wr.
  change (NFECCCONT =? NFCONT) with false. rewrite Z.eqb_refl, E2. cbv iota.
  split; [done|]. simpl. split; [split; [|by apply Z.clearbit_eq]|].
  - rewrite Z.clearbit_spec'. apply bits_range; [lia|]. intros i Hi.
    by rewrite Z.ldiff_spec, (testbit_high 32 (f _)) by lia.
  - rewrite Z.clearbit_neq by lia. by rewrite <- E16.
Qed.

Lemma goes_encode_dir s o e cs id cm ad rg co fd :
  goes (mmio_or NFECCCONT (0x1 .<< 16)) (View s o e cs id cm ad rg co fd) tt
    (View s o true cs id cm ad rg co fd).
Proof.
  apply (goes_econt (fun y => y .| (0x1 .<< 16)) (fun _ => true) false).
  intros y Hy H2. rewrite !Z.lor_spec, H2. split; [by apply lor_range|].
  change (Z.testbit (1 .<< 16) 16) with true. by rewrite orb_true_r.
Qed.

Lemma goes_decode_dir s o e cs id cm ad rg co fd :
  goes (mmio_and NFECCCONT (~32 (0x1 .<< 16))) (View s o e cs id cm ad rg co fd) tt
    (View s o false cs id cm ad rg co fd).
Proof.
  apply (goes_econt (fun y => y .& ~32 (0x1 .<< 16)) (fun _ => false) false).
  intros y Hy H2. rewrite !Z.land_spec, H2. split; [apply land_range, wrap_range; lia|].
  change (Z.testbit (~32 (1 .<< 16)) 16) with false. by rewrite andb_false_r.
Qed.

Lemma goes_ecc_init s o e cs id cm ad rg co fd :
  goes (mmio_or NFECCCONT (0x1 .<< 2)) (View s o e cs id cm ad rg co fd) tt
    (View s o e cs id cm ad rg co []).
Proof.
  apply (goes_econt (fun y => y .| (0x1 .<< 2)) (fun e => e) true).
  intros y Hy H2. rewrite !Z.lor_spec, H2. split; [by apply lor_range|].
  change (Z.testbit (1 .<< 2) 16) with false. by rewrite orb_false_r.
Qed.

(** Preparing the engine opens it, sets the direction and forgets old data. *)
Lemma goes_init_hwecc mode s o e cs id cm ad rg co fd :
  goes (nand_init_hwecc_8bit mode) (View s o e cs id cm ad rg co fd) tt
    (View s true (match mode with WRITE_ECC => true | READ_ECC => false end) cs id cm ad rg co []).
Proof.
  unfold nand_init_hwecc_8bit. destruct mode; (eapply goes_bind;
    [eapply goes_bind; [first [apply goes_encode_dir|apply goes_decode_dir]|by apply goes_or_other]|]);
    (eapply goes_bind; [apply goes_init_1bit|]);
    (eapply goes_bind; [apply goes_write; intros c Hc; exact Hc|]);
    (eapply goes_bind; [apply goes_ecc_init|]); apply goes_unlock.
Qed.

(** *** Command and address cycles *)

Lemma chip_wr_cmd v c : chip_wr NFCMMD v c = if selected c then command v c else c.
Proof. reflexivity. Qed.
Lemma chip_wr_addr v c : chip_wr NFADDR v c = if selected c then address v c else c.
Proof. reflexivity. Qed.
Lemma chip_wr_data v c : chip_wr NFDATA v c = feed v (if selected c then data_in v c else c).
Proof. reflexivity. Qed.

Lemma goes_cmd k s' o e cs id cm ad rg co fd v' :
  0 <= k < 2 ^ 32 -> s' = true ->
  (forall cont econt, let c := Chip cs id cont econt cm ad rg co fd in let c' := command k c in
    v' = View true o e (cells c') id (cmd c') (addrs c') (pagereg c') (column c') fd) ->
  goes (nand_cmd k) (View s' o e cs id cm ad rg co fd) tt v'.
Proof.
  intros Hk -> Hv'. apply goes_write. intros [cs' id' cont econt cm' ad' rg' co' fd'] (H1 & H2 & Hv).
  simpl in H1, H2. injection Hv as Hsel -> -> -> -> -> -> -> -> ->. rewrite wrap_small by done.
  rewrite chip_wr_cmd, <- Hsel, (Hv' cont econt).
  assert (forall k c, nfcont (command k c) = nfcont c /\ nfecccont (command k c) = nfecccont c /\
    ident (command k c) = ident c /\ fed (command k c) = fed c) as Hfr.
  { clear. intros k c. unfold command, moved, stored, latch. repeat case_match; done. }
  destruct (Hfr k (Chip cs' id' cont econt cm' ad' rg' co' fd')) as (F1 & F2 & F3 & F4). simpl in F1, F2, F3, F4.
  split; [by rewrite F1|]. split; [by rewrite F2|].
  unfold selected, ecc_open in *. rewrite F1, F2, F3, F4. simpl in *. by rewrite <- Hsel.
Qed.

Lemma goes_cmd_latch k s o e cs id cm ad rg co fd :
  k ∈ [0x00; 0x05; 0x60; 0x70; 0x90; 0xFF] -> s = true ->
  goes (nand_cmd k) (View s o e cs id cm ad rg co fd) tt (View true o e cs id k [] rg co fd).
Proof.
  intros Hk ->. apply goes_cmd; [|done|].
  - repeat (apply elem_of_cons in Hk as [->|Hk]; [lia|]). by apply elem_of_nil in Hk.
  - intros cont econt. repeat (apply elem_of_cons in Hk as [->|Hk]; [done|]). by apply elem_of_nil in Hk.
Qed.

Lemma goes_cmd_program o e cs id cm ad rg co fd :
  goes (nand_cmd 0x80) (View true o e cs id cm ad rg co fd) tt (View true o e cs id 0x80 [] erased co fd).
Proof. by apply goes_cmd. Qed.

Lemma goes_cmd_read o e cs id a0 a1 a2 a3 a4 rg co fd :
  goes (nand_cmd 0x30) (View true o e cs id 0x00 [a0; a1; a2; a3; a4] rg co fd) tt
    (View true o e cs id 0x30 [] (page_at cs (cycles [a2; a3; a4])) (Z.to_nat (cycles [a0; a1])) fd).
Proof. by apply goes_cmd. Qed.

Lemma goes_cmd_random o e cs id a0 a1 rg co fd :
  goes (nand_cmd 0xE0) (View true o e cs id 0x05 [a0; a1] rg co fd) tt
    (View true o e cs id 0xE0 [] rg (Z.to_nat (cycles [a0; a1])) fd).
Proof. by apply goes_cmd. Qed.

Lemma goes_cmd_commit o e cs id a0 a1 a2 a3 a4 rg co fd :
  goes (nand_cmd 0x10) (View true o e cs id 0x80 [a0; a1; a2; a3; a4] rg co fd) tt
    (View true o e (program cs (cycles [a2; a3; a4]) rg) id 0x10 [] rg co fd).
Proof. by apply goes_cmd. Qed.

Lemma goes_cmd_erase o e cs id a0 a1 a2 rg co fd :
  goes (nand_cmd 0xD0) (View true o e cs id 0x60 [a0; a1; a2] rg co fd) tt
    (View true o e (erase_block cs (cycles [a0; a1; a2])) id 0xD0 [] rg co fd).
Proof. by apply goes_cmd. Qed.

Lemma goes_address a o e cs id cm ad rg co fd :
  0 <= a < 2 ^ 32 ->
  goes (mmio_write NFADDR a) (View true o e cs id cm ad rg co fd) tt
    (View true o e cs id cm (ad ++ [a]) rg
      (if (cm =? 0x80) && (length (ad ++ [a]) =? 5)%nat then Z.to_nat (cycles (take 2 (ad ++ [a])))
       else if cm =? 0x90 then O else co) fd).
Proof.
  intros Ha. apply goes_write. intros [cs' id' cont econt cm' ad' rg' co' fd'] (H1 & H2 & Hv).
  simpl in H1, H2. injection Hv as Hsel -> -> -> -> -> -> -> -> ->. rewrite wrap_small by done.
  rewrite chip_wr_addr, <- Hsel.
  split; [done|]. split; [done|]. unfold address, selected, ecc_open. simpl.
  unfold selected in Hsel. simpl in Hsel. by rewrite <- Hsel.
Qed.

(** The five cycles of [nand_addr] carry the column and the row of the address. *)
Lemma addr_cycles addr :
  0 <= addr < 2 ^ 30 ->
  let col := addr mod PAGE_SIZE in let row := addr / PAGE_SIZE in
  cycles [col .& 0xFF; (col .>> 8) .& 0xF] = col /\
  cycles [row .& 0xFF; (row .>> 8) .& 0xFF; (row .>> 16) .& 0x07] = row.
Proof.
  intros Ha col row.
  assert (0 <= row < 2 ^ 19) by (unfold row, PAGE_SIZE; split; [apply Z.div_pos|apply Z.div_lt_upper_bound]; lia).
  assert (0 <= col < 2 ^ 11) by (apply Z.mod_pos_bound; done).
  change 0xFF with (Z.ones 8). change 0xF with (Z.ones 4). change 0x07 with (Z.ones 3).
  rewrite !Z.land_ones, !Z.shiftr_div_pow2 by lia. simpl.
  Z.to_euclidean_division_equations. lia.
Qed.

Definition addr_bytes (col row : Z) : list Z :=
  [col .& 0xFF; (col .>> 8) .& 0xF; row .& 0xFF; (row .>> 8) .& 0xFF; (row .>> 16) .& 0x07].

Lemma land_word x m : 0 <= m < 2 ^ 32 -> 0 <= x .& m < 2 ^ 32.
Proof. apply land_range. Qed.

Lemma goes_addr5 col row o e cs id cm rg co fd :
  cm <> 0x90 ->
  goes (mmio_write NFADDR (col .& 0xFF) ;;;
        mmio_write NFADDR ((col .>> 8) .& 0xF) ;;;
        mmio_write NFADDR (row .& 0xFF) ;;;
        mmio_write NFADDR ((row .>> 8) .& 0xFF) ;;;
        mmio_write NFADDR ((row .>> 16) .& 0x07))
    (View true o e cs id cm [] rg co fd) tt
    (View true o e cs id cm (addr_bytes col row) rg
      (if cm =? 0x80 then Z.to_nat (cycles [col .& 0xFF; (col .>> 8) .& 0xF]) else co) fd).
Proof.
  intros Hcm. apply Z.eqb_neq in Hcm.
  do 4 (eapply goes_bind; [apply goes_address, land_word; done|]).
  pose proof (goes_address ((row .>> 16) .& 0x07) o e cs id cm
    [col .& 0xFF; (col .>> 8) .& 0xF; row .& 0xFF; (row .>> 8) .& 0xFF] rg co fd (land_word _ 7 ltac:(done))) as H.
  simpl in *. rewrite Hcm, ?andb_false_r in *. rewrite andb_true_r in H. exact H.
Qed.

Lemma goes_nand_addr addr o e cs id cm rg co fd :
  cm <> 0x90 ->
  goes (nand_addr addr) (View true o e cs id cm [] rg co fd) tt
    (View true o e cs id cm (addr_bytes (addr mod PAGE_SIZE) (addr / PAGE_SIZE)) rg
      (if cm =? 0x80 then Z.to_nat (cycles (take 2 (addr_bytes (addr mod PAGE_SIZE) (addr / PAGE_SIZE)))) else co) fd).
Proof. apply goes_addr5. Qed.

(** *** Data cycles *)

Definition fed_with (o : bool) (fd l : list Z) : list Z := if o then fd ++ l else fd.

Lemma fed_with_app o fd l1 l2 : fed_with o (fed_with o fd l1) l2 = fed_with o fd (l1 ++ l2).
Proof. destruct o; simpl; [by rewrite app_assoc|done]. Qed.

Lemma fed_with_nil o fd : fed_with o fd [] = fd.
Proof. destruct o; simpl; [by rewrite app_nil_r|done]. Qed.

Lemma goes_write8 x s o e cs id cm ad rg co fd :
  goes (mmio_write8 NFDATA x) (View s o e cs id cm ad rg co fd) tt
    (if s && (cm =? 0x80)
     then View s o e cs id cm ad (<[co := u8 x]> rg) (S co) (fed_with o fd [u8 x])
     else View s o e cs id cm ad rg co (fed_with o fd [u8 x])).
Proof.
  intros h Hs. eexists tt, _. split; [reflexivity|]. split; [done|]. simpl.
  rewrite chip_of_wr, chip_wr_data. generalize dependent (chip_of (dev h)).
  intros [cs' id' cont econt cm' ad' rg' co' fd'] (H1 & H2 & Hv).
  simpl in H1, H2. injection Hv as Hsel -> -> -> -> -> -> -> -> ->. rewrite <- Hsel.
  unfold selected, data_in, feed, fed_with, ecc_open in *. simpl in *.
  destruct s; simpl; [destruct (cm' =? 0x80); simpl|]; destruct (negb (Z.testbit cont 7)) eqn:Ho; simpl;
    (split; [done|]; split; [done|]); unfold selected, ecc_open; simpl; by rewrite <- Hsel, Ho.
Qed.

(** Programming mode: the bytes go into the page register one after the other. *)
Lemma goes_write_buf buf n i o e cs id ad pre rest fd :
  (i + n <= length buf)%nat -> byte_list buf -> (n <= length rest)%nat ->
  goes (io_for i n (fun i => b <- io_lift (res_of_option (buf !! i)) ;; mmio_write8 NFDATA b))
    (View true o e cs id 0x80 ad (pre ++ rest) (length pre) fd) tt
    (View true o e cs id 0x80 ad (pre ++ take n (drop i buf) ++ drop n rest) (length pre + n)
      (fed_with o fd (take n (drop i buf)))).
Proof.
  intros Hi Hb. revert i pre rest fd Hi. induction n as [|n IH]; intros i pre rest fd Hi Hr; simpl.
  - rewrite fed_with_nil, Nat.add_0_r. apply goes_ret.
  - destruct rest as [|r rest]; simpl in Hr; [lia|].
    destruct (lookup_lt_is_Some_2 buf i) as [b Hbi]; [lia|].
    assert (0 <= b < 256) by (by eapply (Forall_lookup_1 _ _ _ _ Hb)).
    rewrite (drop_S _ b) by done. simpl. rewrite Hbi.
    eapply goes_bind; [eapply goes_lift; [done|]; apply goes_write8|].
    simpl andb. cbv iota. rewrite wrap_small by done.
    rewrite insert_app_r_alt, Nat.sub_diag by lia. simpl.
    change (pre ++ b :: rest) with (pre ++ [b] ++ rest). rewrite app_assoc.
    replace (S (length pre)) with (length (pre ++ [b])) by (rewrite length_app; simpl; lia).
    pose proof (IH (S i) (pre ++ [b]) rest (fed_with o fd [b])) as H'.
    rewrite fed_with_app in H'. rewrite length_app in H' |- *. simpl in *.
    replace (length pre + S n)%nat with (length pre + 1 + n)%nat by lia.
    rewrite <- (app_assoc pre) in H' |- *. rewrite <- app_assoc in H'. simpl in H'. apply H'; lia.
Qed.

(** Outside programming mode stores to NFDATA only reach the ECC engine. *)
Lemma goes_feed_buf buf n i s o e cs id cm ad rg co fd :
  (i + n <= length buf)%nat -> byte_list buf -> cm <> 0x80 ->
  goes (io_for i n (fun i => b <- io_lift (res_of_option (buf !! i)) ;; mmio_write8 NFDATA b))
    (View s o e cs id cm ad rg co fd) tt
    (View s o e cs id cm ad rg co (fed_with o fd (take n (drop i buf)))).
Proof.
  intros Hi Hb Hcm. apply Z.eqb_neq in Hcm.
  revert i fd Hi. induction n as [|n IH]; intros i fd Hi; simpl.
  - rewrite fed_with_nil. apply goes_ret.
  - destruct (lookup_lt_is_Some_2 buf i) as [b Hbi]; [lia|].
    assert (0 <= b < 256) by (by eapply (Forall_lookup_1 _ _ _ _ Hb)).
    rewrite (drop_S _ b) by done. simpl. rewrite Hbi.
    eapply goes_bind; [eapply goes_lift; [done|]; apply goes_write8|].
    rewrite Hcm, andb_false_r, wrap_small by done.
    pose proof (IH (S i) (fed_with o fd [b])) as H'. rewrite fed_with_app in H'. apply H'. lia.
Qed.

Lemma goes_read8 o e cs id cm ad rg co fd b :
  cm ∈ [0x30; 0xE0] -> rg !! co = Some b -> 0 <= b < 256 ->
  goes (mmio_read8 NFDATA) (View true o e cs id cm ad rg co fd) b
    (View true o e cs id cm ad rg (S co) (fed_with o fd [b])).
Proof.
  intros Hcm Hb Hr h Hs. eexists _, _. split; [reflexivity|]. simpl.
  rewrite chip_of_rd, (chip_of_val NFDATA _ (data_out (chip_of (dev h)))) by done.
  generalize dependent (chip_of (dev h)).
  intros [cs' id' cont econt cm' ad' rg' co' fd'] (H1 & H2 & Hv).
  simpl in H1, H2. injection Hv as Hsel -> -> -> -> -> -> -> -> ->.
  assert (data_out (Chip cs' id' cont econt cm' ad' rg' co' fd') = b) as Hout.
  { unfold data_out. rewrite <- Hsel. simpl in *.
    repeat (apply elem_of_cons in Hcm as [->|Hcm]; [simpl; by rewrite Hb|]). by apply elem_of_nil in Hcm. }
  split; [by rewrite Hout, wrap_small|]. unfold chip_rd. rewrite Z.eqb_refl, Hout, <- Hsel.
  unfold advance, feed, fed_with, ecc_open, selected in *. simpl in *.
  destruct (negb (Z.testbit cont 7)) eqn:Ho; simpl;
    (split; [done|]; split; [done|]); unfold selected, ecc_open; simpl; by rewrite <- Hsel, Ho.
Qed.

Lemma goes_read_buf n i o e cs id cm ad rg co fd :
  cm ∈ [0x30; 0xE0] -> (co + n <= length rg)%nat -> byte_list rg ->
  goes (io_collect i n (fun _ => mmio_read8 NFDATA)) (View true o e cs id cm ad rg co fd)
    (take n (drop co rg))
    (View true o e cs id cm ad rg (co + n) (fed_with o fd (take n (drop co rg)))).
Proof.
  intros Hcm Hlen Hb. revert i co fd Hlen. induction n as [|n IH]; intros i co fd Hlen; simpl.
  - rewrite fed_with_nil, Nat.add_0_r. apply goes_ret.
  - destruct (lookup_lt_is_Some_2 rg co) as [b Hbi]; [lia|].
    eapply goes_bind; [eapply goes_read8; [done|done|by eapply (Forall_lookup_1 _ _ _ _ Hb)]|].
    rewrite (drop_S _ b) by done. simpl.
    eapply goes_bind; [apply (IH (S i) (S co)); lia|].
    rewrite fed_with_app. replace (co + S n)%nat with (S co + n)%nat by lia. apply goes_ret.
Qed.

(** *** The ECC engine's registers *)

(** As [goes], from a state in which the engine is through. *)
Definition goes_settled {A} (m : io D A) (v : view) (a : A) (v' : view) : Prop :=
  forall h, sees (chip_of (dev h)) v -> ecc_settled (dev h) ->
    runs m h (fun r h' => r = a /\ sees (chip_of (dev h')) v').

Lemma goes_after_settled {A} (m : io D A) v a v' : goes m v a v' -> goes_settled m v a v'.
Proof. intros Hm h Hs _. by apply Hm. Qed.

(** A wait for the engine. *)
Lemma goes_settling {A A'} (m : io D A) (f : A -> io D A') v a v' b v'' :
  (forall h, sees (chip_of (dev h)) v -> runs m h (fun r h' => r = a /\ sees (chip_of (dev h')) v' /\ ecc_settled (dev h'))) ->
  goes_settled (f a) v' b v'' -> goes (io_bind m f) v b v''.
Proof. intros Hm Hf h Hs. eapply runs_bind; [by apply Hm|]. intros r h' (-> & Hs' & Hd). by apply Hf. Qed.

(** A result register of the engine. *)
Lemma goes_read_reg {A} a z (K : Z -> io D A) v b v' :
  a <> NFDATA -> (forall c, sees c v -> ecc_val a c = Some z) -> 0 <= z < 2 ^ 32 ->
  goes_settled (K z) v b v' -> goes_settled (x <- mmio_read a ;; K x) v b v'.
Proof.
  intros Ha Hz Hr HK h Hs Hd. eapply (runs_bind _ _ _ (fun r h' => r = z /\ sees (chip_of (dev h')) v /\ ecc_settled (dev h'))).
  - eexists _, _. split; [reflexivity|]. simpl. rewrite (ecc_of_val _ _ _ Hd (Hz _ Hs)), wrap_small by done. split; [done|].
    split; [|by apply settled_rd]. rewrite chip_of_rd. unfold chip_rd. destruct (Z.eqb_spec a NFDATA); done.
  - intros r h' (-> & Hs' & Hd'). by apply HK.
Qed.

Lemma word_bytes a0 a1 a2 a3 :
  0 <= a0 < 256 -> 0 <= a1 < 256 -> 0 <= a2 < 256 -> 0 <= a3 < 256 ->
  let w := cycles [a0; a1; a2; a3] in
  0 <= w < 2 ^ 32 /\ w .& 0xFF = a0 /\ (w .>> 8) .& 0xFF = a1 /\
  (w .>> 16) .& 0xFF = a2 /\ (w .>> 24) .& 0xFF = a3.
Proof.
  intros. unfold w, cycles. split; [lia|]. change 0xFF with (Z.ones 8).
  rewrite !Z.land_ones, !Z.shiftr_div_pow2 by lia.
  split_and!; Z.to_euclidean_division_equations; lia.
Qed.

Lemma pair_word l0 l1 :
  0 <= l0 < 1024 -> 0 <= l1 < 1024 ->
  let w := l0 + 2 ^ 16 * l1 in
  0 <= w < 2 ^ 32 /\ w .& 0x3FF = l0 /\ (w .>> 16) .& 0x3FF = l1.
Proof.
  intros. unfold w. split; [lia|]. change 0x3FF with (Z.ones 10).
  rewrite !Z.land_ones, !Z.shiftr_div_pow2 by lia.
  split; Z.to_euclidean_division_equations; lia.
Qed.

Lemma list_13 (l : list Z) : length l = ECC_BYTES ->
  exists a b c d e f g h i j k m n, l = [a; b; c; d; e; f; g; h; i; j; k; m; n].
Proof.
  unfold ECC_BYTES. intros Hl. do 13 (destruct l as [|? l]; [simpl in Hl; lia|]).
  destruct l; [|simpl in Hl; lia].
  by do 13 eexists.
Qed.

(** The code words of a whole message, as the driver takes them apart. *)
Lemma goes_code_words s o e cs id cm ad rg co fd {A} (K : Z -> Z -> Z -> Z -> io D A) a v' :
  length fd = 512%nat ->
  (forall w0 w1 w2 w3,
    [w0 .& 0xFF; (w0 .>> 8) .& 0xFF; (w0 .>> 16) .& 0xFF; (w0 .>> 24) .& 0xFF;
     w1 .& 0xFF; (w1 .>> 8) .& 0xFF; (w1 .>> 16) .& 0xFF; (w1 .>> 24) .& 0xFF;
     w2 .& 0xFF; (w2 .>> 8) .& 0xFF; (w2 .>> 16) .& 0xFF; (w2 .>> 24) .& 0xFF;
     w3 .& 0xFF] = ecc_encode fd ->
    goes (K w0 w1 w2 w3) (View s o e cs id cm ad rg co fd) a v') ->
  goes_settled (w0 <- mmio_read NFECCPRGECC0 ;; w1 <- mmio_read NFECCPRGECC1 ;;
        w2 <- mmio_read NFECCPRGECC2 ;; w3 <- mmio_read NFECCPRGECC3 ;; K w0 w1 w2 w3)
    (View s o e cs id cm ad rg co fd) a v'.
Proof.
  intros Hlen HK. destruct (ecc_encode_ok fd) as [Hel Heb].
  destruct (list_13 _ Hel) as (b0 & b1 & b2 & b3 & b4 & b5 & b6 & b7 & b8 & b9 & b10 & b11 & b12 & Heq).
  rewrite Heq in Heb, HK. repeat (apply Forall_cons in Heb as [? Heb]).
  assert (forall c, sees c (View s o e cs id cm ad rg co fd) ->
    parity c = [b0; b1; b2; b3; b4; b5; b6; b7; b8; b9; b10; b11; b12]) as Hpar.
  { intros c (_ & _ & Hv). injection Hv as _ _ _ _ _ _ _ _ _ Hfd. unfold parity.
    by rewrite <- Hfd, take_ge, Heq by lia. }
  destruct (word_bytes b0 b1 b2 b3) as (R0 & F0 & F1 & F2 & F3); [done..|].
  destruct (word_bytes b4 b5 b6 b7) as (R1 & F4 & F5 & F6 & F7); [done..|].
  destruct (word_bytes b8 b9 b10 b11) as (R2 & F8 & F9 & F10 & F11); [done..|].
  destruct (word_bytes b12 0 0 0) as (R3 & F12 & _); [done..|].
  apply (goes_read_reg _ (cycles [b0; b1; b2; b3])); [done|intros c Hc; unfold ecc_val; by rewrite (Hpar c Hc)|done|].
  apply (goes_read_reg _ (cycles [b4; b5; b6; b7])); [done|intros c Hc; unfold ecc_val; by rewrite (Hpar c Hc)|done|].
  apply (goes_read_reg _ (cycles [b8; b9; b10; b11])); [done|intros c Hc; unfold ecc_val; by rewrite (Hpar c Hc)|done|].
  apply (goes_read_reg _ (cycles [b12; 0; 0; 0])); [done|intros c Hc; unfold ecc_val; by rewrite (Hpar c Hc)|done|].
  apply goes_after_settled, HK. by rewrite F0, F1, F2, F3, F4, F5, F6, F7, F8, F9, F10, F11, F12.
Qed.

(** After a whole message the driver takes the engine's code for it. *)
Lemma goes_calculate_write s o cs id cm ad rg co fd :
  length fd = 512%nat ->
  goes (nand_calculate_ecc_8bit fuel WRITE_ECC) (View s o true cs id cm ad rg co fd)
    (ecc_encode fd) (View s false true cs id cm ad rg co fd).
Proof.
  intros Hlen. unfold nand_calculate_ecc_8bit. eapply goes_bind; [apply goes_lock|].
  eapply goes_settling.
  { intros h Hsee. pose proof Hsee as (H1 & H2 & Hv). injection Hv as Hs Ho He Hcs Hid Hcm Had Hrg Hco Hfd.
    destruct (ecc_encoded h) as (h' & Hw & Hc & Hd); [by rewrite <- Hfd|done|].
    exists tt, h'. split; [exact Hw|]. split; [done|]. by rewrite Hc. }
  apply goes_code_words; [done|]. intros w0 w1 w2 w3 ->. apply goes_ret.
Qed.

Lemma goes_calculate_read s o cs id cm ad rg co fd :
  length fd = 525%nat ->
  goes (nand_calculate_ecc_8bit fuel READ_ECC) (View s o false cs id cm ad rg co fd)
    [] (View s false false cs id cm ad rg co fd).
Proof.
  intros Hlen. unfold nand_calculate_ecc_8bit. eapply goes_bind; [apply goes_lock|].
  eapply goes_bind; [|apply goes_ret].
  intros h Hsee. pose proof Hsee as (H1 & H2 & Hv). injection Hv as Hs Ho He Hcs Hid Hcm Had Hrg Hco Hfd.
  destruct (ecc_decoded h) as (h' & Hw & Hc); [by rewrite <- Hfd|done|].
  exists tt, h'. split; [exact Hw|]. split; [done|]. by rewrite Hc.
Qed.

(** *** Error correction *)

(** One error: the bits [e.2] of byte [e.1] are inverted. *)
Definition flip (e : Z * Z) (dat : list Z) : list Z := alter (fun b => b .^ e.2) (Z.to_nat e.1) dat.
Definition flips (errs : list (Z * Z)) (dat : list Z) : list Z := foldr flip dat errs.

Definition err_ok (e : Z * Z) : Prop := 0 <= e.1 < 512 /\ 0 <= e.2 < 256.

Lemma flip_length e dat : length (flip e dat) = length dat.
Proof. apply length_alter. Qed.

Lemma flip_bytes e dat : byte_list dat -> err_ok e -> byte_list (flip e dat).
Proof.
  intros Hd [_ He]. apply Forall_alter; [done|]. intros b Hb Hr. by apply (lxor_range 8).
Qed.

Lemma xor_at_flip e dat :
  byte_list dat -> err_ok e -> (512 <= length dat)%nat -> xor_at e.1 e.2 dat = Ok (flip e dat).
Proof.
  intros Hd [He1 He2] Hl. unfold xor_at, flip.
  destruct (lookup_lt_is_Some_2 dat (Z.to_nat e.1)) as [b Hb]; [lia|]. rewrite Hb. f_equal.
  assert (0 <= b < 256) by (by eapply (Forall_lookup_1 _ _ _ _ Hd)).
  rewrite wrap_small by by apply (lxor_range 8). symmetry.
  apply list_eq. intros i. destruct (decide (i = Z.to_nat e.1)) as [->|Hne].
  - rewrite list_lookup_alter_eq, Hb, list_lookup_insert_eq; [done|lia].
  - by rewrite list_lookup_alter_ne, list_lookup_insert_ne.
Qed.

Lemma flips_ok errs dat :
  byte_list dat -> Forall err_ok errs -> byte_list (flips errs dat) /\ length (flips errs dat) = length dat.
Proof.
  intros Hd He. induction He as [|e errs He _ IH]; simpl; [done|]. destruct IH.
  split; [by apply flip_bytes|]. by rewrite flip_length.
Qed.

Lemma flip_comm e1 e2 dat : flip e1 (flip e2 dat) = flip e2 (flip e1 dat).
Proof.
  unfold flip. destruct (decide (Z.to_nat e1.1 = Z.to_nat e2.1)) as [->|Hne].
  - rewrite !list_alter_alter_eq. apply list_alter_ext; [|done].
    intros b _. simpl. by rewrite !Z.lxor_assoc, (Z.lxor_comm e1.2).
  - by apply list_alter_alter_ne.
Qed.

Lemma flip_flip e dat : flip e (flip e dat) = dat.
Proof.
  unfold flip. rewrite list_alter_alter_eq. apply list_alter_id. intros b. simpl.
  by rewrite Z.lxor_assoc, Z.lxor_nilpotent, Z.lxor_0_r.
Qed.

Lemma flips_flip e errs dat : flips errs (flip e dat) = flip e (flips errs dat).
Proof. induction errs as [|e' errs IH]; simpl; [done|]. by rewrite IH, flip_comm. Qed.

(** Errors cancel when they are applied twice, also when several of them hit the
    same byte. *)
Lemma flips_flips errs dat : flips errs (flips errs dat) = dat.
Proof.
  induction errs as [|e errs IH]; simpl; [done|]. by rewrite flips_flip, IH, flip_flip.
Qed.

(** What the error registers hold for a list of errors. *)
Definition nth_loc (errs : list (Z * Z)) (k : nat) : Z := default 0 (errs.*1 !! k).
Definition nth_pat (errs : list (Z * Z)) (k : nat) : Z := default 0 (errs.*2 !! k).
Definition loc_word (errs : list (Z * Z)) (k : nat) : Z :=
  nth_loc errs (2 * k) + 2 ^ 16 * nth_loc errs (2 * k + 1).
Definition pat_word (errs : list (Z * Z)) (k : nat) : Z :=
  cycles [nth_pat errs (4 * k); nth_pat errs (4 * k + 1); nth_pat errs (4 * k + 2); nth_pat errs (4 * k + 3)].

Lemma nth_loc_range errs k : Forall err_ok errs -> 0 <= nth_loc errs k < 512.
Proof.
  intros He. unfold nth_loc. rewrite list_lookup_fmap. destruct (errs !! k) as [e|] eqn:Hk; simpl; [|lia].
  by apply (Forall_lookup_1 _ _ _ _ He) in Hk as [? _].
Qed.

Lemma nth_pat_range errs k : Forall err_ok errs -> 0 <= nth_pat errs k < 256.
Proof.
  intros He. unfold nth_pat. rewrite list_lookup_fmap. destruct (errs !! k) as [e|] eqn:Hk; simpl; [|lia].
  by apply (Forall_lookup_1 _ _ _ _ He) in Hk as [_ ?].
Qed.

Lemma loc_word_split errs k : Forall err_ok errs ->
  0 <= loc_word errs k < 2 ^ 32 /\ loc_word errs k .& 0x3FF = nth_loc errs (2 * k) /\
  (loc_word errs k .>> 16) .& 0x3FF = nth_loc errs (2 * k + 1).
Proof.
  intros He. apply pair_word.
  - pose proof (nth_loc_range errs (2 * k) He). lia.
  - pose proof (nth_loc_range errs (2 * k + 1) He). lia.
Qed.

Lemma pat_word_split errs k : Forall err_ok errs ->
  0 <= pat_word errs k < 2 ^ 32 /\
  pat_word errs k .& 0xFF = nth_pat errs (4 * k) /\
  (pat_word errs k .>> 8) .& 0xFF = nth_pat errs (4 * k + 1) /\
  (pat_word errs k .>> 16) .& 0xFF = nth_pat errs (4 * k + 2) /\
  (pat_word errs k .>> 24) .& 0xFF = nth_pat errs (4 * k + 3).
Proof. intros He. apply word_bytes; by apply nth_pat_range. Qed.

(** The fall-through [switch] applies all reported errors, the last one first. *)
Lemma correct_switch_ok errs dat :
  (length errs <= 8)%nat -> Forall err_ok errs -> byte_list dat -> (512 <= length dat)%nat ->
  correct_switch (Z.of_nat (length errs)) (loc_word errs 0) (loc_word errs 1) (loc_word errs 2)
    (loc_word errs 3) (pat_word errs 0) (pat_word errs 1) dat = Ok (0, flips errs dat).
Proof.
  intros Hlen He Hd Hl.
  destruct (loc_word_split errs 0 He) as (_ & L0 & L1), (loc_word_split errs 1 He) as (_ & L2 & L3),
    (loc_word_split errs 2 He) as (_ & L4 & L5), (loc_word_split errs 3 He) as (_ & L6 & L7),
    (pat_word_split errs 0 He) as (_ & P0 & P1 & P2 & P3), (pat_word_split errs 1 He) as (_ & P4 & P5 & P6 & P7).
  unfold correct_switch. rewrite L0, L1, L2, L3, L4, L5, L6, L7, P0, P1, P2, P3, P4, P5, P6, P7.
  clear L0 L1 L2 L3 L4 L5 L6 L7 P0 P1 P2 P3 P4 P5 P6 P7.
  assert (forall l p d k (K : list Z -> res (Z * list Z)), err_ok (l, p) -> byte_list d -> (512 <= length d)%nat ->
     (byte_list (flip (l, p) d) -> (512 <= length (flip (l, p) d))%nat -> K (flip (l, p) d) = k) ->
     (let* d := xor_at l p d in K d) = k) as Hseq.
  { intros l p d k K Hok Hbd Hld HK. pose proof (xor_at_flip (l, p) d Hbd Hok Hld) as Hx. simpl in Hx. rewrite Hx. apply HK.
    - by apply flip_bytes.
    - by rewrite flip_length. }
  do 9 (destruct errs as [|[? ?] errs];
    [simpl; repeat match goal with H : Forall _ (_ :: _) |- _ => apply Forall_cons in H as [? H] end;
     repeat (apply Hseq; [done..|intros ? ?]); done|simpl in Hlen]).
  lia.
Qed.

Lemma correct_switch_fail n erl0 erl1 erl2 erl3 erp0 erp1 dat :
  8 < n -> correct_switch n erl0 erl1 erl2 erl3 erp0 erp1 dat = Ok (-1, dat).
Proof.
  intros Hn. unfold correct_switch.
  repeat match goal with |- context [n =? ?k] => destruct (Z.eqb_spec n k); [lia|] end. done.
Qed.

(** The correction of one chunk, by what the engine reports. *)
Lemma goes_correct dat s o cs id cm ad rg co fd :
  byte_list dat -> (512 <= length dat)%nat -> length fd = 525%nat ->
  goes (nand_correct_data_8bit fuel dat) (View s o false cs id cm ad rg co fd)
    (match ecc_decode (take 512 fd) (drop 512 fd) with
     | Some errs => (0, flips errs dat)
     | None => (-1, dat)
     end) (View s o false cs id cm ad rg co fd).
Proof.
  intros Hd Hl Hfl. set (v := View _ _ _ _ _ _ _ _ _ _). unfold nand_correct_data_8bit.
  eapply goes_settling.
  { intros h Hs. pose proof Hs as (_ & _ & Hv). injection Hv as _ _ He _ _ _ _ _ _ Hfd.
    destruct (ecc_idle h) as (h' & Hw & Hc & Hset); [by rewrite <- Hfd|done|].
    exists tt, h'. split; [exact Hw|]. split; [done|]. split; [by rewrite Hc|exact Hset]. }
  assert (forall c, sees c v -> report c = ecc_decode (take 512 fd) (drop 512 fd)) as Hrep.
  { intros c (_ & _ & Hv). injection Hv as _ _ _ _ _ _ _ _ _ Hfd. unfold report. by rewrite <- Hfd. }
  set (errs := default [] (ecc_decode (take 512 fd) (drop 512 fd))).
  assert (Forall err_ok errs /\ (length errs <= 8)%nat) as [He Hn].
  { unfold errs. destruct (ecc_decode _ _) as [errs'|] eqn:Hdec; [|simpl; auto with lia].
    apply ecc_decode_ok in Hdec as [? ?]. done. }
  pose proof ecc_fail_ok as Hfail.
  assert (forall c, sees c v -> err_count c = match ecc_decode (take 512 fd) (drop 512 fd) with
    | Some errs => Z.of_nat (length errs) | None => ecc_fail end) as Hcnt.
  { intros c Hc. unfold err_count. by rewrite (Hrep c Hc). }
  set (cnt := match ecc_decode (take 512 fd) (drop 512 fd) with
    | Some errs => Z.of_nat (length errs) | None => ecc_fail end) in *.
  assert (0 <= cnt < 32) as Hcr.
  { unfold cnt, errs in *. destruct (ecc_decode _ _); simpl in *; lia. }
  assert (forall c k, sees c v -> loc c k = nth_loc errs k) as Hloc.
  { intros c k Hc. unfold loc, nth_loc, errs. by rewrite (Hrep c Hc). }
  assert (forall c k, sees c v -> pat c k = nth_pat errs k) as Hpat.
  { intros c k Hc. unfold pat, nth_pat, errs. by rewrite (Hrep c Hc). }
  apply (goes_read_reg _ cnt); [done|intros c Hc; unfold ecc_val; by rewrite (Hcnt c Hc)|lia|].
  apply (goes_read_reg _ (loc_word errs 0)); [done|intros c Hc; unfold ecc_val; by rewrite !(Hloc c _ Hc)|by apply loc_word_split|].
  apply (goes_read_reg _ (loc_word errs 1)); [done|intros c Hc; unfold ecc_val; by rewrite !(Hloc c _ Hc)|by apply loc_word_split|].
  apply (goes_read_reg _ (loc_word errs 2)); [done|intros c Hc; unfold ecc_val; by rewrite !(Hloc c _ Hc)|by apply loc_word_split|].
  apply (goes_read_reg _ (loc_word errs 3)); [done|intros c Hc; unfold ecc_val; by rewrite !(Hloc c _ Hc)|by apply loc_word_split|].
  apply (goes_read_reg _ (pat_word errs 0)); [done|intros c Hc; unfold ecc_val; by rewrite !(Hpat c _ Hc)|by apply pat_word_split|].
  apply (goes_read_reg _ (pat_word errs 1)); [done|intros c Hc; unfold ecc_val; by rewrite !(Hpat c _ Hc)|by apply pat_word_split|].
  apply goes_after_settled.
  change 0x1F with (Z.ones 5). rewrite Z.land_ones, Z.mod_small by (done || lia).
  intros h Hs. eexists _, h. split; [|split; [reflexivity|done]]. unfold io_lift, cnt, errs.
  destruct (ecc_decode _ _) as [errs'|] eqn:Hdec; simpl.
  - by rewrite correct_switch_ok.
  - rewrite correct_switch_fail by lia. done.
Qed.

(** *** Whole pages *)

(** The codes of the first [n] chunks of a buffer. *)
Fixpoint codes (n : nat) (buf : list Z) : list Z :=
  match n with
  | O => []
  | S n => ecc_encode (take 512 buf) ++ codes n (drop 512 buf)
  end.

(** What a page holds after [nand_write_page_8bit]: data, 12 free bytes, codes. *)
Definition oob_image (buf : list Z) : list Z := replicate 12 0xFF ++ codes 4 buf.
Definition page_image (buf : list Z) : list Z := take 2048 buf ++ oob_image buf.

Lemma codes_length n buf : length (codes n buf) = (13 * n)%nat.
Proof.
  revert buf. induction n as [|n IH]; intros buf; simpl; [done|].
  rewrite length_app, IH, (proj1 (ecc_encode_ok _)). unfold ECC_BYTES. lia.
Qed.

Lemma codes_bytes n buf : byte_list (codes n buf).
Proof.
  revert buf. induction n as [|n IH]; intros buf; simpl; [constructor|].
  apply Forall_app. split; [apply ecc_encode_ok|apply IH].
Qed.

Lemma oob_image_ok buf : length (oob_image buf) = 64%nat /\ byte_list (oob_image buf).
Proof.
  unfold oob_image. rewrite length_app, length_replicate, codes_length. split; [done|].
  apply Forall_app. split; [|apply codes_bytes]. apply Forall_replicate. lia.
Qed.

Lemma goes_write_chunks n : forall i buf opre orest o e cs id ad pre rest fd,
  (512 * n <= length buf)%nat -> byte_list buf -> (512 * n <= length rest)%nat ->
  length opre = (12 + i)%nat -> (13 * n <= length orest)%nat ->
  exists o' e' fd',
  goes (write_chunks fuel n i buf (opre ++ orest))
    (View true o e cs id 0x80 ad (pre ++ rest) (length pre) fd)
    (opre ++ codes n buf ++ drop (13 * n) orest)
    (View true o' e' cs id 0x80 ad (pre ++ take (512 * n) buf ++ drop (512 * n) rest)
      (length pre + 512 * n) fd').
Proof.
  induction n as [|n IH]; intros i buf opre orest o e cs id ad pre rest fd Hb Hbytes Hr Ho Hor.
  { exists o, e, fd. rewrite Nat.add_0_r. apply goes_ret. }
  set (c := take 512 buf).
  assert (length c = 512%nat) as Hc by (unfold c; rewrite length_take; lia).
  assert (length (ecc_encode c) = 13%nat) as Hec by apply ecc_encode_ok.
  destruct (IH (i + ECC_BYTES)%nat (drop 512 buf) (opre ++ ecc_encode c) (drop 13 orest) false true cs id ad
    (pre ++ c) (drop 512 rest) c) as (o' & e' & fd' & H').
  { rewrite length_drop. lia. }
  { by apply Forall_drop. }
  { rewrite length_drop. lia. }
  { rewrite length_app, Hec. unfold ECC_BYTES. lia. }
  { rewrite length_drop. lia. }
  exists o', e', fd'. cbn [write_chunks codes].
  eapply goes_bind; [apply goes_init_hwecc|].
  eapply goes_bind; [apply (goes_write_buf buf 512 0); [lia|done|lia]|].
  cbn [fed_with app]. rewrite drop_0. fold c.
  eapply goes_bind; [by apply goes_calculate_write|].
  eapply goes_lift.
  { replace (OOB_ECC_OFFSET + i)%nat with (length opre) by (unfold OOB_ECC_OFFSET; lia).
    rewrite store_block_app by lia. reflexivity. }
  rewrite Hec. change (Z.to_nat ECC_SIZE) with 512%nat.
  rewrite !length_app, Hc, !drop_drop in H'. rewrite <- !app_assoc in H'.
  replace (512 * S n)%nat with (512 + 512 * n)%nat by lia.
  replace (13 * S n)%nat with (13 + 13 * n)%nat by lia.
  rewrite Nat.add_assoc, <- (take_take_drop buf 512 (512 * n)), <- !app_assoc. fold c. exact H'.
Qed.

(** A page address has a zero column and its row is the page number. *)
Lemma page_cycles addr :
  0 <= addr < 2 ^ 30 -> addr mod PAGE_SIZE = 0 ->
  Z.to_nat (cycles (take 2 (addr_bytes (addr mod PAGE_SIZE) (addr / PAGE_SIZE)))) = O /\
  cycles (drop 2 (addr_bytes (addr mod PAGE_SIZE) (addr / PAGE_SIZE))) = addr / PAGE_SIZE.
Proof.
  intros Ha Hm. destruct (addr_cycles addr Ha) as [H1 H2]. unfold addr_bytes. simpl take. simpl drop.
  rewrite H1, H2, Hm. done.
Qed.

Lemma aligned_tst addr n : 0 <= n -> tst addr (2 ^ n - 1) = negb (addr mod 2 ^ n =? 0).
Proof. intros Hn. unfold tst. by rewrite Z.sub_1_r, <- Z.ones_equiv, Z.land_ones by done. Qed.

Lemma erased_length : length erased = 2112%nat.
Proof. apply length_replicate. Qed.

(** A page write: the array gets the page image at the row. *)
Lemma goes_write_page_8bit buf addr s o e cs id cm ad rg co fd :
  0 <= addr < 2 ^ 30 -> addr mod PAGE_SIZE = 0 -> (2048 <= length buf)%nat -> byte_list buf ->
  exists o' e' fd',
  goes (nand_write_page_8bit fuel buf addr) (View s o e cs id cm ad rg co fd) tt
    (View false o' e' (program cs (addr / PAGE_SIZE) (page_image buf)) id 0x10 [] (page_image buf) 2112 fd').
Proof.
  intros Ha Hm Hl Hb. destruct (page_cycles addr Ha Hm) as [Hcol Hrow].
  destruct (goes_write_chunks 4 0 buf (replicate 12 0xFF) (replicate 52 0xFF) o e cs id
    (addr_bytes (addr mod PAGE_SIZE) (addr / PAGE_SIZE)) [] erased fd) as (o' & e' & fd' & Hch);
    [lia|done|rewrite erased_length; lia|done|done|].
  exists o', e', (fed_with o' fd' (oob_image buf)). unfold nand_write_page_8bit.
  change (PAGE_SIZE - 1) with (2 ^ 11 - 1). rewrite aligned_tst by lia. change (2 ^ 11) with PAGE_SIZE. rewrite Hm at 1.
  cbn [negb Z.eqb].
  eapply goes_bind; [apply goes_select|].
  eapply goes_bind; [apply goes_cmd_program|].
  eapply goes_bind; [by apply goes_nand_addr|]. rewrite Hcol.
  eapply goes_bind; [apply goes_wait_ready|].
  eapply goes_bind; [exact Hch|].
  destruct (oob_image_ok buf) as [Hol Hob].
  rewrite app_nil_l in Hch |- *.
  pose proof (goes_write_buf (oob_image buf) 64 0 o' e' cs id
    (addr_bytes (addr mod PAGE_SIZE) (addr / PAGE_SIZE)) (take 2048 buf) (drop 2048 erased) fd') as Hoob.
  rewrite length_take in Hoob. rewrite Nat.min_l in Hoob by lia. rewrite drop_0 in Hoob. rewrite (take_ge (oob_image buf)) in Hoob by lia. rewrite drop_drop in Hoob.
  rewrite (drop_ge erased (2048 + 64)), app_nil_r in Hoob by (rewrite erased_length; lia).
  change (drop (13 * 4) (replicate 52 255)) with (@nil Z). rewrite (app_nil_r (codes 4 buf)).
  change (replicate 12 255 ++ codes 4 buf) with (oob_image buf).
  eapply goes_bind; [apply Hoob; [lia|done|rewrite length_drop, erased_length; lia]|].
  eapply goes_bind; [apply goes_cmd_commit|].
  eapply goes_bind; [apply goes_wait_ready|].
  unfold addr_bytes in Hrow. cbn [drop] in Hrow. rewrite Hrow. apply goes_deselect.
Qed.

(** Erasing, for a block address. *)
Lemma goes_erase addr s o e cs id cm ad rg co fd :
  0 <= addr < 2 ^ 30 -> addr mod BLOCK_SIZE = 0 ->
  goes (nand_erase fuel addr) (View s o e cs id cm ad rg co fd) tt
    (View false o e (erase_block cs (addr / PAGE_SIZE)) id 0xD0 [] rg co fd).
Proof.
  intros Ha Hm. destruct (addr_cycles addr Ha) as [_ Hrow]. cbv zeta in Hrow.
  unfold nand_erase. change (BLOCK_SIZE - 1) with (2 ^ 17 - 1). rewrite aligned_tst by lia.
  change (2 ^ 17) with BLOCK_SIZE. rewrite Hm at 1. cbn [negb Z.eqb].
  eapply goes_bind; [apply goes_select|].
  eapply goes_bind; [apply goes_cmd_latch; [in_list|done]|].
  do 3 (eapply goes_bind; [apply goes_address, land_word; done|]).
  eapply goes_bind; [apply goes_cmd_erase|].
  eapply goes_bind; [apply goes_wait_ready|].
  change (addr / 2048) with (addr / PAGE_SIZE). rewrite Hrow. apply goes_deselect.
Qed.

(** Pages of the array are 2112 bytes. *)
Definition page_ok (pg : list Z) : Prop := length pg = 2112%nat /\ byte_list pg.

(** Reading [len] bytes of the spare area. *)
Lemma goes_read_oob addr size o e cs id cm ad rg co fd :
  0 <= addr < 2 ^ 30 -> 0 <= size ->
  let pg := page_at cs (addr / PAGE_SIZE) in let n := Z.to_nat (Z.min size 64) in
  page_ok pg ->
  goes (read_oob fuel addr size) (View true o e cs id cm ad rg co fd)
    (take n (drop 2048 pg))
    (View true o e cs id 0x30 [] pg (2048 + n) (fed_with o fd (take n (drop 2048 pg)))).
Proof.
  intros Ha Hsz pg n [Hpl Hpb]. destruct (addr_cycles addr Ha) as [_ Hrow]. cbv zeta in Hrow.
  unfold read_oob. eapply goes_bind; [apply goes_cmd_latch; [in_list|done]|].
  do 5 (eapply goes_bind; [apply goes_address, land_word; done|]).
  eapply goes_bind; [apply goes_cmd_read|]. rewrite Hrow.
  eapply goes_bind; [apply goes_wait_ready|].
  assert (Z.to_nat (if size >? OOB_SIZE then OOB_SIZE else size) = n) as ->.
  { unfold n, OOB_SIZE. destruct (Z.gtb_spec size 64); lia. }
  apply goes_read_buf; [in_list| |done]. change (Z.to_nat (cycles _)) with 2048%nat. fold pg. lia.
Qed.

(** *** Reading a page with correction *)

(** Chunk [k] of a raw page and its code. *)
Definition raw_chunk (pg : list Z) (k : nat) : list Z := take 512 (drop (512 * k) pg).
Definition raw_code (oob : list Z) (k : nat) : list Z := take 13 (drop (12 + 13 * k) oob).

(** The corrected chunk, and whether correction failed. *)
Definition fixed_chunk (pg oob : list Z) (k : nat) : list Z :=
  match ecc_decode (raw_chunk pg k) (raw_code oob k) with
  | Some errs => flips errs (raw_chunk pg k)
  | None => raw_chunk pg k
  end.
Definition failed_chunk (pg oob : list Z) (k : nat) : Z :=
  match ecc_decode (raw_chunk pg k) (raw_code oob k) with Some _ => 0 | None => 1 end.

Fixpoint fixed_chunks (pg oob : list Z) (k n : nat) : list Z :=
  match n with O => [] | S n => fixed_chunk pg oob k ++ fixed_chunks pg oob (S k) n end.
Fixpoint failed_chunks (pg oob : list Z) (k n : nat) : Z :=
  match n with O => 0 | S n => failed_chunk pg oob k + failed_chunks pg oob (S k) n end.

Lemma flips_app errs l1 l2 :
  Forall err_ok errs -> (512 <= length l1)%nat -> flips errs (l1 ++ l2) = flips errs l1 ++ l2.
Proof.
  intros He Hl. induction He as [|e errs He Hes IH]; simpl; [done|]. rewrite IH. unfold flip at 1.
  apply alter_app_l. assert (length (flips errs l1) = length l1) as ->.
  { clear -Hes. induction Hes; simpl; [done|]. by rewrite flip_length. }
  destruct He. lia.
Qed.

Lemma raw_chunk_ok pg k : page_ok pg -> (k < 4)%nat ->
  length (raw_chunk pg k) = 512%nat /\ byte_list (raw_chunk pg k).
Proof.
  intros [Hl Hb] Hk. unfold raw_chunk. split.
  - rewrite length_take, length_drop. lia.
  - by apply Forall_take, Forall_drop.
Qed.

Lemma fixed_chunk_ok pg oob k : page_ok pg -> (k < 4)%nat ->
  length (fixed_chunk pg oob k) = 512%nat /\ byte_list (fixed_chunk pg oob k).
Proof.
  intros Hp Hk. destruct (raw_chunk_ok pg k Hp Hk) as [Hl Hb]. unfold fixed_chunk.
  destruct (ecc_decode _ _) as [errs|] eqn:Hdec; [|done]. apply ecc_decode_ok in Hdec as [_ He].
  destruct (flips_ok errs (raw_chunk pg k) Hb He). by split; [lia|].
Qed.

Lemma col_cycles col : 0 <= col < 4096 -> cycles [col .& 0xFF; (col .>> 8) .& 0xF] = col.
Proof.
  intros Hc. change 0xFF with (Z.ones 8). change 0xF with (Z.ones 4).
  rewrite !Z.land_ones, !Z.shiftr_div_pow2 by lia. simpl. Z.to_euclidean_division_equations. lia.
Qed.

(** One round of the loop. *)
Lemma goes_read_chunk (pg oob buf : list Z) k o e cs id cm ad co fd {A} (K : Z * list Z -> list Z -> io D A) a v' :
  page_ok pg -> length oob = 64%nat -> byte_list oob -> (k < 4)%nat ->
  (2048 <= length buf)%nat -> byte_list buf ->
  goes (K (- failed_chunk pg oob k, fixed_chunk pg oob k ++ drop (512 * S k) buf)
            (take (512 * k) buf ++ raw_chunk pg k ++ drop (512 * S k) buf))
    (View true false false cs id 0xE0 [] pg (512 * S k) (raw_chunk pg k ++ raw_code oob k)) a v' ->
  goes (let col := 512 * Z.of_nat k in let i := (13 * k)%nat in let off := (512 * k)%nat in
    nand_cmd 0x05 ;;;
    mmio_write NFADDR (col .& 0xFF) ;;;
    mmio_write NFADDR ((col .>> 8) .& 0xF) ;;;
    nand_cmd 0xE0 ;;;
    nand_init_hwecc_8bit READ_ECC ;;;
    bytes <- nand_read_buf (Z.to_nat ECC_SIZE) ;;
    buf <- io_lift (res_of_option (store_block buf off bytes)) ;;
    nand_write_buf (drop (OOB_ECC_OFFSET + i) oob) ECC_BYTES ;;;
    nand_calculate_ecc_8bit fuel READ_ECC ;;;
    r <- nand_correct_data_8bit fuel (drop off buf) ;; K r buf)
    (View true o e cs id cm ad pg co fd) a v'.
Proof.
  intros Hpg Hol Hob Hk Hbl Hbb HK. destruct (raw_chunk_ok pg k Hpg Hk) as [Hrl Hrb].
  cbv zeta.
  eapply goes_bind; [apply goes_cmd_latch; [in_list|done]|].
  do 2 (eapply goes_bind; [apply goes_address, land_word; done|]).
  eapply goes_bind; [apply goes_cmd_random|]. rewrite col_cycles by lia.
  replace (Z.to_nat (512 * Z.of_nat k)) with (512 * k)%nat by lia.
  eapply goes_bind; [apply goes_init_hwecc|].
  destruct Hpg as [Hpl Hpb].
  eapply goes_bind; [apply (goes_read_buf 512); [in_list|lia|done]|].
  change (take 512 (drop (512 * k) pg)) with (raw_chunk pg k). cbn [fed_with app].
  pose proof (store_block_app (take (512 * k) buf) (raw_chunk pg k) (drop (512 * k) buf)) as Hst.
  rewrite take_drop, length_take, Nat.min_l, Hrl, drop_drop in Hst by lia.
  eapply goes_lift; [rewrite Hst; [reflexivity|rewrite length_drop; lia]|].
  replace (512 * k + 512)%nat with (512 * S k)%nat by lia.
  assert (length (raw_code oob k) = 13%nat) as Hcl by (unfold raw_code; rewrite length_take, length_drop; lia).
  eapply goes_bind.
  { apply (goes_feed_buf _ 13 0); [rewrite length_drop; unfold OOB_ECC_OFFSET; lia|by apply Forall_drop|done]. }
  rewrite drop_0. change (take 13 (drop (OOB_ECC_OFFSET + 13 * k) oob)) with (raw_code oob k). cbn [fed_with].
  eapply goes_bind; [apply goes_calculate_read; rewrite length_app; lia|].
  rewrite drop_app_length' by (rewrite length_take; lia).
  eapply goes_bind.
  { apply goes_correct; [apply Forall_app; split; [done|by apply Forall_drop]|rewrite length_app; lia|rewrite length_app; lia]. }
  rewrite take_app_length', drop_app_length' by done.
  unfold failed_chunk, fixed_chunk in HK.
  destruct (ecc_decode (raw_chunk pg k) (raw_code oob k)) as [errs|] eqn:Hdec; [|exact HK].
  apply ecc_decode_ok in Hdec as [_ He]. rewrite flips_app by (done || lia). exact HK.
Qed.

Lemma fixed_chunks_length pg oob k n : page_ok pg -> (k + n <= 4)%nat ->
  length (fixed_chunks pg oob k n) = (512 * n)%nat /\ byte_list (fixed_chunks pg oob k n).
Proof.
  intros Hp. revert k. induction n as [|n IH]; intros k Hk; simpl; [by split; [|constructor]|].
  destruct (fixed_chunk_ok pg oob k Hp) as [Hl Hb]; [lia|]. destruct (IH (S k)) as [Hl' Hb']; [lia|].
  rewrite length_app, Hl, Hl'. split; [lia|]. by apply Forall_app.
Qed.

Lemma failed_chunk_cases pg oob k err :
  (if - failed_chunk pg oob k <? 0 then err + 1 else err) = err + failed_chunk pg oob k.
Proof. unfold failed_chunk. destruct (ecc_decode _ _); simpl; lia. Qed.

Lemma goes_read_chunks pg oob n : forall k buf err o e cs id cm ad co fd,
  page_ok pg -> length oob = 64%nat -> byte_list oob -> (k + n = 4)%nat ->
  (2048 <= length buf)%nat -> byte_list buf ->
  exists o' e' cm' ad' co' fd',
  goes (read_chunks fuel n (13 * k) oob (512 * Z.of_nat k) buf (512 * k) err)
    (View true o e cs id cm ad pg co fd)
    (err + failed_chunks pg oob k n, take (512 * k) buf ++ fixed_chunks pg oob k n ++ drop 2048 buf)
    (View true o' e' cs id cm' ad' pg co' fd').
Proof.
  induction n as [|n IH]; intros k buf err o e cs id cm ad co fd Hpg Hol Hob Hk Hbl Hbb.
  { exists o, e, cm, ad, co, fd. cbn [read_chunks fixed_chunks failed_chunks].
    replace (512 * k)%nat with 2048%nat by lia. rewrite app_nil_l, take_drop, Z.add_0_r. apply goes_ret. }
  destruct (fixed_chunk_ok pg oob k Hpg) as [Hfl Hfb]; [lia|].
  set (buf' := take (512 * k) buf ++ fixed_chunk pg oob k ++ drop (512 * S k) buf).
  assert (length buf' = length buf) as Hbl'.
  { unfold buf'. rewrite !length_app, length_take, length_drop. lia. }
  assert (byte_list buf') as Hbb'.
  { apply Forall_app. split; [by apply Forall_take|]. apply Forall_app. split; [done|by apply Forall_drop]. }
  destruct (IH (S k) buf' (err + failed_chunk pg oob k) false false cs id 0xE0 [] (512 * S k)%nat
    (raw_chunk pg k ++ raw_code oob k)) as (o' & e' & cm' & ad' & co' & fd' & H'); [done| | | |lia|done|]; [done..|lia|].
  exists o', e', cm', ad', co', fd'.
  assert (take (512 * S k) buf' = take (512 * k) buf ++ fixed_chunk pg oob k) as Ht.
  { unfold buf'. rewrite app_assoc, take_app_le, take_ge; [done|..]; rewrite length_app, length_take; lia. }
  assert (drop 2048 buf' = drop 2048 buf) as Hd.
  { unfold buf'. rewrite app_assoc, drop_app_ge by (rewrite length_app, length_take; lia).
    rewrite drop_drop, length_app, length_take. f_equal. lia. }
  rewrite Ht, Hd, <- !app_assoc in H'. cbn [fixed_chunks failed_chunks].
  rewrite Z.add_assoc, <- app_assoc.
  apply (goes_read_chunk pg oob buf k o e cs id cm ad co fd (fun r buf =>
    read_chunks fuel n (13 * k + ECC_BYTES) oob (512 * Z.of_nat k + ECC_SIZE) (take (512 * k) buf ++ r.2)
      (512 * k + Z.to_nat ECC_SIZE) (if r.1 <? 0 then err + 1 else err))); [done|done|done|lia|done|done|].
  cbn [fst snd]. rewrite failed_chunk_cases, take_app_length' by (rewrite length_take; lia). fold buf'.
  replace (13 * k + ECC_BYTES)%nat with (13 * S k)%nat by (unfold ECC_BYTES; lia).
  replace (512 * Z.of_nat k + ECC_SIZE) with (512 * Z.of_nat (S k)) by (unfold ECC_SIZE; lia).
  change (Z.to_nat ECC_SIZE) with 512%nat. replace (512 * k + 512)%nat with (512 * S k)%nat by lia.
  exact H'.
Qed.

(** A page read: every chunk corrected as the engine reports, the number of chunks
    that could not be corrected as the result, the array unchanged. *)
Lemma goes_read_page_8bit buf addr s o e cs id cm ad rg co fd :
  0 <= addr < 2 ^ 30 -> addr mod PAGE_SIZE = 0 -> (2048 <= length buf)%nat -> byte_list buf ->
  let pg := page_at cs (addr / PAGE_SIZE) in
  page_ok pg ->
  exists o' e' cm' ad' co' fd',
  goes (nand_read_page_8bit fuel buf addr) (View s o e cs id cm ad rg co fd)
    (failed_chunks pg (drop 2048 pg) 0 4, fixed_chunks pg (drop 2048 pg) 0 4 ++ drop 2048 buf)
    (View false o' e' cs id cm' ad' pg co' fd').
Proof.
  intros Ha Hm Hl Hb pg Hpg. destruct (page_cycles addr Ha Hm) as [Hcol Hrow].
  assert (take 64 (drop 2048 pg) = drop 2048 pg) as Hoob.
  { apply take_ge. rewrite length_drop. destruct Hpg. lia. }
  assert (length (drop 2048 pg) = 64%nat) as Hol by (rewrite length_drop; destruct Hpg; lia).
  assert (byte_list (drop 2048 pg)) as Hob by (apply Forall_drop, Hpg).
  edestruct (goes_read_chunks pg (drop 2048 pg) 4 0 buf 0 o e cs id 0x30 [] 0) as
    (o' & e' & cm' & ad' & co' & fd' & Hch); [done|done|done|done|done|done|].
  exists o', e', cm', ad', co', fd'. unfold nand_read_page_8bit.
  change (PAGE_SIZE - 1) with (2 ^ 11 - 1). rewrite aligned_tst by lia. change (2 ^ 11) with PAGE_SIZE.
  rewrite Hm at 1. cbn [negb Z.eqb].
  eapply goes_bind; [apply goes_select|].
  eapply goes_bind; [apply goes_read_oob; [done|done|exact Hpg]|].
  change (Z.to_nat (Z.min OOB_SIZE 64)) with 64%nat. fold pg. rewrite Hoob.
  eapply goes_bind; [apply goes_cmd_latch; [in_list|done]|].
  eapply goes_bind; [by apply goes_nand_addr|].
  eapply goes_bind; [apply goes_cmd_read|].
  unfold addr_bytes in Hrow, Hcol. cbn [drop take] in Hrow, Hcol. rewrite Hrow, Hcol. fold pg.
  eapply goes_bind; [apply goes_wait_ready|].
  eapply goes_bind; [exact Hch|]. eapply goes_bind; [apply goes_deselect|]. apply goes_ret.
Qed.

(** *** The other operations *)

(** A raw page write, with or without spare bytes. *)
Definition raw_image (buf : list Z) (oob : option (list Z)) : list Z :=
  take 2048 buf ++ match oob with Some oob => take 64 oob | None => replicate 64 0xFF end.

Lemma goes_write_page buf addr oob s o e cs id cm ad rg co fd :
  0 <= addr < 2 ^ 30 -> addr mod PAGE_SIZE = 0 -> (2048 <= length buf)%nat -> byte_list buf ->
  match oob with Some oob => (64 <= length oob)%nat /\ byte_list oob | None => True end ->
  exists co' fd',
  goes (nand_write_page fuel buf addr oob) (View s o e cs id cm ad rg co fd) tt
    (View false o e (program cs (addr / PAGE_SIZE) (raw_image buf oob)) id 0x10 [] (raw_image buf oob) co' fd').
Proof.
  intros Ha Hm Hl Hb Hoob. destruct (page_cycles addr Ha Hm) as [Hcol Hrow].
  unfold addr_bytes in Hrow. cbn [drop] in Hrow.
  pose proof (goes_write_buf buf 2048 0 o e cs id (addr_bytes (addr mod PAGE_SIZE) (addr / PAGE_SIZE))
    [] erased fd ltac:(lia) Hb ltac:(rewrite erased_length; lia)) as Hbuf.
  rewrite drop_0, !app_nil_l in Hbuf. change (drop 2048 erased) with (replicate 64 0xFF) in Hbuf.
  set (co' := match oob with Some _ => 2112%nat | None => 2048%nat end).
  set (fd' := match oob with Some oob => fed_with o (fed_with o fd (take 2048 buf)) (take 64 oob)
     | None => fed_with o fd (take 2048 buf) end).
  exists co', fd'.
  unfold nand_write_page. change (PAGE_SIZE - 1) with (2 ^ 11 - 1). rewrite aligned_tst by lia.
  change (2 ^ 11) with PAGE_SIZE. rewrite Hm at 1. cbn [negb Z.eqb].
  eapply goes_bind; [apply goes_select|].
  eapply goes_bind; [apply goes_cmd_program|].
  eapply goes_bind; [by apply goes_nand_addr|]. rewrite Hcol.
  eapply goes_bind; [apply goes_wait_ready|].
  eapply goes_bind; [exact Hbuf|].
  eapply goes_bind.
  { instantiate (1 := View true o e cs id 0x80 (addr_bytes (addr mod PAGE_SIZE) (addr / PAGE_SIZE))
      (raw_image buf oob) co' fd'). destruct oob as [oob|]; [|apply goes_ret].
    pose proof (goes_write_buf oob 64 0 o e cs id (addr_bytes (addr mod PAGE_SIZE) (addr / PAGE_SIZE))
      (take 2048 buf) (replicate 64 0xFF) (fed_with o fd (take 2048 buf))) as H'.
    rewrite length_take, Nat.min_l, drop_0 in H' by lia.
    change (drop 64 (replicate 64 255)) with (@nil Z) in H'. rewrite app_nil_r in H'.
    destruct Hoob. apply H'; [lia|done|done]. }
  eapply goes_bind; [apply goes_cmd_commit|].
  eapply goes_bind; [apply goes_wait_ready|]. rewrite Hrow. apply goes_deselect.
Qed.

(** Random reads: byte [i] of the page register, by its column address. *)
Lemma goes_random_loop pg n : forall i o e cs id cm ad co fd,
  page_ok pg -> (i + n <= 2112)%nat ->
  exists cm' co' fd',
  goes (io_collect i n (fun n => let i := Z.of_nat n in
      nand_cmd 0x05 ;;; mmio_write NFADDR (i .& 0xFF) ;;; mmio_write NFADDR ((i .>> 8) .& 0xF) ;;;
      nand_cmd 0xE0 ;;; nand_read))
    (View true o e cs id cm ad pg co fd) (take n (drop i pg))
    (View true o e cs id cm' (match n with O => ad | _ => [] end) pg co' fd').
Proof.
  induction n as [|n IH]; intros i o e cs id cm ad co fd Hpg Hi.
  { exists cm, co, fd. apply goes_ret. }
  destruct (lookup_lt_is_Some_2 pg i) as [b Hb]; [destruct Hpg; lia|].
  destruct (IH (S i) o e cs id 0xE0 [] (S i) (fed_with o fd [b]) Hpg) as (cm' & co' & fd' & H'); [lia|].
  exists cm', co', fd'. cbn [io_collect].
  eapply goes_bind.
  { eapply goes_bind; [apply goes_cmd_latch; [in_list|done]|].
    do 2 (eapply goes_bind; [apply goes_address, land_word; done|]).
    eapply goes_bind; [apply goes_cmd_random|]. rewrite col_cycles, Nat2Z.id by lia.
    apply goes_read8; [in_list|exact Hb|]. destruct Hpg as [_ Hpb]. by eapply (Forall_lookup_1 _ _ _ _ Hpb). }
  rewrite (drop_S _ b) by done. cbn [take]. destruct n as [|n].
  - eapply goes_bind; [exact H'|]. apply goes_ret.
  - eapply goes_bind; [exact H'|]. apply goes_ret.
Qed.

Lemma goes_read_random addr size s o e cs id cm ad rg co fd :
  0 <= addr < 2 ^ 30 -> 0 <= size -> addr mod PAGE_SIZE + size <= 2112 ->
  let pg := page_at cs (addr / PAGE_SIZE) in
  page_ok pg ->
  exists cm' ad' co' fd',
  goes (nand_read_random fuel addr size) (View s o e cs id cm ad rg co fd)
    (take (Z.to_nat size) (drop (Z.to_nat (addr mod PAGE_SIZE)) pg))
    (View false o e cs id cm' ad' pg co' fd').
Proof.
  intros Ha Hsz Hend pg Hpg. destruct (addr_cycles addr Ha) as [Hcol Hrow]. cbv zeta in Hcol, Hrow.
  pose proof (Z.mod_pos_bound addr PAGE_SIZE ltac:(done)).
  destruct (goes_random_loop pg (Z.to_nat size) (Z.to_nat (addr mod PAGE_SIZE)) o e cs id 0x30 []
    (Z.to_nat (addr mod PAGE_SIZE)) fd Hpg) as (cm' & co' & fd' & H'); [lia|].
  eexists cm', _, co', fd'. unfold nand_read_random, read_random.
  eapply goes_bind; [apply goes_select|]. eapply goes_bind.
  { eapply goes_bind; [apply goes_cmd_latch; [in_list|done]|].
    eapply goes_bind; [by apply goes_nand_addr|].
    eapply goes_bind; [apply goes_cmd_read|]. rewrite Hcol, Hrow. fold pg.
    eapply goes_bind; [apply goes_wait_ready|]. rewrite wrap_small by lia.
    replace (size + addr mod PAGE_SIZE - addr mod PAGE_SIZE) with size by lia. exact H'. }
  eapply goes_bind; [apply goes_deselect|]. apply goes_ret.
Qed.
End Driver.
