(* ===== verification/NandProps.v ===== *)
(** * Correctness of the NAND driver

    What the functions of [Nand] do to the chip's memory array: page writes, erasure,
    reads with error correction, the round trip of a page, and the alignment guards.
    [NandSim] is an executable chip that satisfies the interface of the driver; the
    witnesses run the driver on it. *)
From S2P Require Import Prelude Mmio Nand.

(** ** From views to chips *)

(** Register contents are words, and the initialise bit reads as zero. *)
Definition chip_sane (c : chip) : Prop :=
  0 <= nfcont c < 2 ^ 32 /\ 0 <= nfecccont c < 2 ^ 32 /\ Z.testbit (nfecccont c) 2 = false.

Definition view_of (c : chip) : view :=
  View (selected c) (ecc_open c) (Z.testbit (nfecccont c) 16) (cells c) (ident c) (cmd c) (addrs c)
    (pagereg c) (column c) (fed c).

Lemma sane_sees c : chip_sane c -> sees c (view_of c).
Proof. by intros (? & ? & ?). Qed.

Section Contents.
Context {D : Type} {B : Bus D} {E : EccCodec} {fuel : nat} {N : NandChip D fuel}.

(** [m] leaves the chip sane and deselected, with the memory array [cs']. *)
Lemma goes_cells {A} (m : io D A) h a v' :
  chip_sane (chip_of (dev h)) -> goes m (view_of (chip_of (dev h))) a v' ->
  runs m h (fun r h' => r = a /\ chip_sane (chip_of (dev h')) /\ cells (chip_of (dev h')) = v_cells v' /\
    selected (chip_of (dev h')) = v_sel v').
Proof.
  intros Hs Hg. eapply runs_mono; [apply Hg, sane_sees, Hs|].
  intros r h' [-> (H1 & (H2 & H3) & ->)]. done.
Qed.

Lemma page_at_program_eq cs row data :
  page_at cs row = erased -> length data = 2112%nat -> byte_list data ->
  page_at (program cs row data) row = data.
Proof.
  intros He Hl Hb. unfold page_at, program. rewrite lookup_insert_eq. simpl.
  change (default erased (cs !! row)) with (page_at cs row). rewrite He. unfold erased, page_bytes.
  rewrite <- Hl. clear He Hl. induction Hb as [|b data Hr _ IH]; simpl; [done|]. rewrite IH. f_equal.
  change 255 with (Z.ones 8). rewrite Z.land_comm, Z.land_ones, Z.mod_small by lia. done.
Qed.

Lemma page_at_program_ne cs row row' data :
  row <> row' -> page_at (program cs row data) row' = page_at cs row'.
Proof. intros Hne. unfold page_at, program. by rewrite lookup_insert_ne. Qed.

Lemma page_at_erase cs row row' :
  page_at (erase_block cs row) row' =
  if decide (row' / PAGE_PER_BLK = row / PAGE_PER_BLK) then erased else page_at cs row'.
Proof.
  unfold page_at, erase_block. case_decide as Hd.
  - rewrite map_lookup_filter_None_2; [done|]. right. intros x _. simpl. by intros ?.
  - destruct (cs !! row') as [pg|] eqn:Hpg.
    + by rewrite (map_lookup_filter_Some_2 _ _ _ pg).
    + rewrite map_lookup_filter_None_2; [done|]. by left.
Qed.

Lemma page_image_ok buf : (2048 <= length buf)%nat -> byte_list buf -> page_ok (page_image buf).
Proof.
  intros Hl Hb. destruct (oob_image_ok buf) as [Hol Hob]. unfold page_ok, page_image. split.
  - rewrite length_app, length_take. lia.
  - apply Forall_app. split; [by apply Forall_take|done].
Qed.

Lemma raw_chunk_image buf k :
  (2048 <= length buf)%nat -> (k < 4)%nat -> raw_chunk (page_image buf) k = take 512 (drop (512 * k) buf).
Proof.
  intros Hl Hk. unfold raw_chunk, page_image.
  rewrite take_drop_commute, take_app_le by (rewrite length_take; lia).
  rewrite take_take, Nat.min_l by lia. symmetry. apply take_drop_commute.
Qed.

Lemma codes_chunk n buf k :
  (k < n)%nat -> take 13 (drop (13 * k) (codes n buf)) = ecc_encode (take 512 (drop (512 * k) buf)).
Proof.
  revert n buf. induction k as [|k IH]; intros [|n] buf Hk; try lia.
  - rewrite Nat.mul_0_r, drop_0, Nat.mul_0_r, drop_0. simpl.
    by rewrite take_app_length' by (symmetry; apply ecc_encode_ok).
  - cbn [codes]. replace (13 * S k)%nat with (13 + 13 * k)%nat by lia.
    rewrite <- drop_drop, drop_app_length' by (symmetry; apply ecc_encode_ok). rewrite IH by lia.
    rewrite drop_drop. do 2 f_equal. f_equal. lia.
Qed.

Lemma raw_code_image buf k :
  (2048 <= length buf)%nat -> (k < 4)%nat ->
  raw_code (drop 2048 (page_image buf)) k = ecc_encode (take 512 (drop (512 * k) buf)).
Proof.
  intros Hl Hk. unfold raw_code, page_image, oob_image.
  rewrite drop_app_length' by (rewrite length_take; lia).
  rewrite <- drop_drop. rewrite (drop_app_length' (replicate 12 255)) by done. by apply codes_chunk.
Qed.

Lemma four_chunks (buf : list Z) :
  (2048 <= length buf)%nat ->
  take 512 (drop (512 * 0) buf) ++ take 512 (drop (512 * 1) buf) ++ take 512 (drop (512 * 2) buf) ++
  take 512 (drop (512 * 3) buf) ++ [] = take 2048 buf.
Proof.
  intros Hl. rewrite app_nil_r. change 2048%nat with (512 + (512 + (512 + 512)))%nat.
  rewrite <- !take_take_drop, !drop_drop. done.
Qed.

(** A page whose chunks all decode to the chunks of [good] reads as [good]. *)
Lemma read_good pg oob good dst :
  (2048 <= length good)%nat ->
  (forall k, (k < 4)%nat -> exists errs, ecc_decode (raw_chunk pg k) (raw_code oob k) = Some errs /\
    flips errs (raw_chunk pg k) = take 512 (drop (512 * k) good)) ->
  (failed_chunks pg oob 0 4, fixed_chunks pg oob 0 4 ++ drop 2048 dst) = (0, take 2048 good ++ drop 2048 dst).
Proof.
  intros Hl H. rewrite <- (four_chunks good Hl). cbn [failed_chunks fixed_chunks].
  unfold failed_chunk, fixed_chunk.
  destruct (H 0%nat ltac:(lia)) as (e0 & -> & ->), (H 1%nat ltac:(lia)) as (e1 & -> & ->),
    (H 2%nat ltac:(lia)) as (e2 & -> & ->), (H 3%nat ltac:(lia)) as (e3 & -> & ->). done.
Qed.
End Contents.

(** ** A simulated chip

    A flash with a byte-wise Hamming code: the exclusive-or of all bytes, and of
    the bytes whose position has bit [b] set, for nine bits.  It corrects any error
    confined to one byte of each chunk. *)
Module NandSim.

Fixpoint xor_where (sel : nat -> bool) (i : nat) (l : list Z) : Z :=
  match l with
  | [] => 0
  | x :: l => (if sel i then x else 0) .^ xor_where sel (S i) l
  end.

Definition position_bits : list nat := [0; 1; 2; 3; 4; 5; 6; 7; 8]%nat.

Definition hamming_encode (l : list Z) : list Z :=
  u8 (xor_where (fun _ => true) 0 l)
  :: ((fun b => u8 (xor_where (fun i => Nat.testbit i b) 0 l)) <$> position_bits) ++ [0; 0; 0].

Definition hamming_decode (l p : list Z) : option (list (Z * Z)) :=
  let s := zip_with Z.lxor (hamming_encode l) p in
  if decide (Forall (eq 0) s) then Some []
  else
    let e := default 0 (head s) in
    let bits := take 9 (tail s) in
    if decide (e <> 0 /\ Forall (fun b => b = 0 \/ b = e) bits) then
      Some [(wrap 9 (foldr (fun b acc => (if b =? 0 then 0 else 1) + 2 * acc) 0 bits), u8 e)]
    else None.

#[global] Instance hamming : EccCodec.
Proof.
  refine {| ecc_encode := hamming_encode; ecc_decode := hamming_decode; ecc_fail := 16 |}.
  - intros l. split; [done|]. apply Forall_cons. split; [apply wrap_range; lia|].
    apply Forall_app. split; [|by repeat constructor].
    apply Forall_fmap, Forall_true. intros b. apply wrap_range. lia.
  - intros l p errs. unfold hamming_decode. case_decide; [intros [= <-]; simpl; auto with lia|].
    case_decide; [|done]. intros [= <-]. split; [simpl; lia|]. apply Forall_cons. split; [|done].
    split; [apply (wrap_range 9)|apply wrap_range]; lia.
  - done.
Defined.

(** The engine is through with a message as soon as it has seen it. *)
#[global] Instance sim_bus : Bus chip := {|
  dev_val a c := match chip_val a c with
    | Some v => v
    | None => default (if a =? NFSTAT then 1 else if a =? NFECCSTAT then 0x3000000 else 0) (ecc_val a c)
    end;
  dev_rd := chip_rd;
  dev_wr := chip_wr
|}.

#[global] Instance sim_chip : NandChip chip 1.
Proof.
  refine {| chip_of := fun c => c; ecc_settled := fun _ => True |}.
  - done.
  - done.
  - intros a c v Hv. unfold dev_val, sim_bus. by rewrite Hv.
  - intros a c v _ Hv. unfold dev_val, sim_bus. rewrite (ecc_val_only a c v Hv). by rewrite Hv.
  - done.
  - intros h. eexists. by split; [reflexivity|].
  - intros h _ _. eexists. by split; [reflexivity|].
  - intros h _ _. eexists. by split; [reflexivity|].
  - intros h _ _. eexists. by split; [reflexivity|].
Defined.

Definition blank : hw chip := Hw (Chip ∅ [0xEC; 0xDA; 0x10; 0x95; 0x44] 0 0 0 [] [] 0 []) [].

(** A page of data. *)
Definition sample : list Z := (fun i => Z.of_nat i mod 251) <$> seq 0 2048.
Definition empty_buffer : list Z := replicate 2048 0.

(** Data with one byte of each chunk damaged. *)
Definition damage : list (Z * Z) := [(7, 0xFF)].
Definition damaged : list Z :=
  flips damage (take 512 sample) ++ flips damage (take 512 (drop 512 sample)) ++
  flips damage (take 512 (drop 1024 sample)) ++ flips damage (drop 1536 sample) ++
  drop 2048 (page_image sample).
Definition worn : hw chip := Hw (Chip {[ 3 := damaged ]} [] 0 0 0 [] [] 0 []) [].
End NandSim.

Example worn_page_read :
  match nand_read_page_8bit 1 NandSim.empty_buffer (3 * PAGE_SIZE) NandSim.worn with
  | Ok (r, _) => bool_decide (r = (0, NandSim.sample))
  | _ => false
  end = true.
Proof. vm_compute. reflexivity. Qed.

(** ** Properties of the NAND driver *)

Section Properties.
Context {D : Type} {B : Bus D} {E : EccCodec} {fuel : nat} {N : NandChip D fuel}.

(** [nand_write_page_8bit] at a page address below 2^30 returns, with the
    chip deselected; the page's cells are cleared where the page image has zeros (the image is the
    2048 data bytes, 12 free bytes and the four 13-byte codes the engine computed), an
    erased page holds exactly the image, and no other page changes. *)
Theorem nand_write_page_8bit_stores buf addr h :
  0 <= addr < 2 ^ 30 -> addr mod PAGE_SIZE = 0 -> (2048 <= length buf)%nat -> byte_list buf ->
  chip_sane (chip_of (dev h)) ->
  let before := page_at (cells (chip_of (dev h))) in
  runs (nand_write_page_8bit fuel buf addr) h (fun _ h' =>
    let after := page_at (cells (chip_of (dev h'))) in
    chip_sane (chip_of (dev h')) /\ selected (chip_of (dev h')) = false /\
    after (addr / PAGE_SIZE) = zip_with Z.land (before (addr / PAGE_SIZE)) (page_image buf) /\
    (before (addr / PAGE_SIZE) = erased -> after (addr / PAGE_SIZE) = page_image buf) /\
    (forall row, row <> addr / PAGE_SIZE -> after row = before row)).
Proof.
  intros Ha Hm Hl Hb Hs before.
  edestruct (goes_write_page_8bit buf addr) as (o & e & fd & Hg); [done..|].
  eapply runs_mono; [by eapply goes_cells|]. simpl. intros _ h' (_ & Hs' & Hc & Hd).
  destruct (page_image_ok buf Hl Hb). unfold before. rewrite Hc. split_and!; [done|done| | |].
  - unfold page_at at 1, program. by rewrite lookup_insert_eq.
  - intros He. by apply page_at_program_eq.
  - intros row Hne. by apply page_at_program_ne.
Qed.

(** [nand_erase] at a block address below 2^30 returns with the chip deselected,
    all 64 pages of that block erased and every other page unchanged. *)
Theorem nand_erase_erases addr h :
  0 <= addr < 2 ^ 30 -> addr mod BLOCK_SIZE = 0 -> chip_sane (chip_of (dev h)) ->
  runs (nand_erase fuel addr) h (fun _ h' =>
    chip_sane (chip_of (dev h')) /\ selected (chip_of (dev h')) = false /\
    forall row, page_at (cells (chip_of (dev h'))) row =
      if decide (addr / BLOCK_SIZE * 64 <= row < addr / BLOCK_SIZE * 64 + 64) then erased
      else page_at (cells (chip_of (dev h))) row).
Proof.
  intros Ha Hm Hs. eapply runs_mono; [eapply goes_cells; [done|by apply goes_erase]|]. simpl.
  intros _ h' (_ & Hs' & Hc & Hd). split_and!; [done|done|]. intros row. rewrite Hc, page_at_erase.
  assert (addr / PAGE_SIZE / PAGE_PER_BLK = addr / BLOCK_SIZE) as -> by (by rewrite Z.div_div).
  unfold PAGE_PER_BLK. repeat case_decide; try done; Z.to_euclidean_division_equations; lia.
Qed.

(** C14: data written with [nand_write_page_8bit] to an erased page is what
    [nand_read_page_8bit] returns, with result 0, whenever the engine decodes the
    undamaged chunks without errors; the buffer behind the page is left alone. *)
Theorem nand_page_roundtrip buf dst addr h :
  0 <= addr < 2 ^ 30 -> addr mod PAGE_SIZE = 0 -> (2048 <= length buf)%nat -> byte_list buf ->
  (2048 <= length dst)%nat -> byte_list dst ->
  (forall l, length l = 512%nat -> byte_list l -> ecc_decode l (ecc_encode l) = Some []) ->
  chip_sane (chip_of (dev h)) -> page_at (cells (chip_of (dev h))) (addr / PAGE_SIZE) = erased ->
  runs (nand_write_page_8bit fuel buf addr ;;; nand_read_page_8bit fuel dst addr) h
    (fun r _ => r = (0, take 2048 buf ++ drop 2048 dst)).
Proof.
  intros Ha Hm Hl Hb Hdl Hdb Hecc Hs He.
  edestruct (goes_write_page_8bit buf addr) as (o & e & fd & Hg); [done..|].
  eapply runs_bind; [by eapply goes_cells|]. simpl. intros _ h' (_ & Hs' & Hc & _).
  destruct (page_image_ok buf Hl Hb) as [Hil Hib].
  assert (page_at (cells (chip_of (dev h'))) (addr / PAGE_SIZE) = page_image buf) as Hpg.
  { rewrite Hc. by apply page_at_program_eq. }
  edestruct (goes_read_page_8bit dst addr) as (o1 & e1 & cm1 & ad1 & co1 & fd1 & Hr); [done..| |].
  2: { eapply runs_mono; [eapply goes_cells; [exact Hs'|exact Hr]|]. simpl. intros r h'' (-> & _).
    rewrite Hpg. apply read_good; [done|]. intros k Hk. exists [].
    rewrite raw_chunk_image, raw_code_image by done. split; [|done]. apply Hecc.
    - rewrite length_take, length_drop. lia.
    - by apply Forall_take, Forall_drop. }
  by rewrite Hpg.
Qed.

(** C17: [nand_read_page_8bit] undoes bit errors: if the codes stored with a page
    are those of [good] and the engine reports, for each chunk, errors that turn the stored
    chunk back into that of [good], the function returns 0 and [good], and leaves the
    memory array as it is. *)
Theorem nand_read_page_8bit_corrects good dst addr h :
  0 <= addr < 2 ^ 30 -> addr mod PAGE_SIZE = 0 -> (2048 <= length good)%nat ->
  (2048 <= length dst)%nat -> byte_list dst ->
  chip_sane (chip_of (dev h)) ->
  let pg := page_at (cells (chip_of (dev h))) (addr / PAGE_SIZE) in
  page_ok pg -> drop 2048 pg = oob_image good ->
  (forall k, (k < 4)%nat -> exists errs,
    ecc_decode (raw_chunk pg k) (ecc_encode (take 512 (drop (512 * k) good))) = Some errs /\
    flips errs (raw_chunk pg k) = take 512 (drop (512 * k) good)) ->
  runs (nand_read_page_8bit fuel dst addr) h (fun r h' =>
    r = (0, take 2048 good ++ drop 2048 dst) /\
    cells (chip_of (dev h')) = cells (chip_of (dev h)) /\ selected (chip_of (dev h')) = false).
Proof.
  intros Ha Hm Hgl Hdl Hdb Hs pg Hpg Hoob Herr.
  edestruct (goes_read_page_8bit dst addr) as (o1 & e1 & cm1 & ad1 & co1 & fd1 & Hr); [done..|].
  eapply runs_mono; [eapply goes_cells; [exact Hs|exact Hr]|]. simpl. intros r h' (-> & _ & Hc & Hd).
  split; [|done]. apply read_good; [done|]. intros k Hk. destruct (Herr k Hk) as (errs & He1 & He2).
  exists errs. split; [|done]. fold pg. rewrite Hoob.
  pose proof (raw_code_image good k Hgl Hk) as Hcode. unfold page_image in Hcode.
  rewrite drop_app_length' in Hcode by (rewrite length_take; lia). by rewrite Hcode.
Qed.

(** [nand_correct_data_8bit] with the error registers holding a report of up to
    eight errors (several of them possibly in the same byte) restores the data those errors
    damaged and returns 0, once a chunk and its code have been fed to the engine in decoding
    mode; with an uncorrectable report it returns -1 and leaves the
    data alone.  Either way the chip is unchanged. *)
Theorem nand_correct_data_8bit_restores good rep h :
  byte_list good -> (512 <= length good)%nat -> chip_sane (chip_of (dev h)) ->
  length (fed (chip_of (dev h))) = 525%nat -> Z.testbit (nfecccont (chip_of (dev h))) 16 = false ->
  report (chip_of (dev h)) = rep ->
  runs (nand_correct_data_8bit fuel (flips (default [] rep) good)) h (fun r h' =>
    r = (match rep with Some _ => 0 | None => -1 end, good) /\
    cells (chip_of (dev h')) = cells (chip_of (dev h))).
Proof.
  intros Hb Hl Hs Hfed Hdec Hrep. unfold report in Hrep.
  assert (Forall err_ok (default [] rep)) as He.
  { destruct rep as [errs|]; [|by constructor]. by apply ecc_decode_ok in Hrep as [_ ?]. }
  destruct (flips_ok (default [] rep) good Hb He) as [Hfb Hfl].
  eapply runs_mono.
  { eapply goes_cells; [exact Hs|]. unfold view_of. rewrite Hdec. apply goes_correct; [done|lia|done]. }
  simpl. intros r h' (-> & _ & Hc & _). split; [|done]. rewrite Hrep.
  destruct rep as [errs|]; simpl; [|done]. by rewrite flips_flips.
Qed.

(** [nand_read_random] of [size] bytes from [addr] returns the bytes of that
    page from the column of [addr] on, as far as its 2112 bytes reach: a read that crosses the
    end of the 2048 data bytes goes on in the spare area of the same page, not in the
    next page. *)
Theorem nand_read_random_within_page addr size h :
  0 <= addr < 2 ^ 30 -> 0 <= size -> addr mod PAGE_SIZE + size <= 2112 ->
  chip_sane (chip_of (dev h)) ->
  let pg := page_at (cells (chip_of (dev h))) (addr / PAGE_SIZE) in
  page_ok pg ->
  runs (nand_read_random fuel addr size) h (fun bytes h' =>
    bytes = take (Z.to_nat size) (drop (Z.to_nat (addr mod PAGE_SIZE)) pg) /\
    cells (chip_of (dev h')) = cells (chip_of (dev h))).
Proof.
  intros Ha Hsz Hend Hs pg Hpg.
  edestruct (goes_read_random addr size) as (cm & ad & co & fd & Hg); [done|done|done|exact Hpg|].
  eapply runs_mono; [by eapply goes_cells|]. simpl. intros r h' (-> & _ & Hc & _). done.
Qed.

(** A misaligned address stops every function before it touches the bus: erasing
    off a block boundary and writing off a page boundary do nothing, and reading off a
    page boundary returns -1 with the buffer unchanged. *)
Theorem nand_misaligned_no_access buf oob NF8_ReadPage_Adv addr (h : hw D) :
  (addr mod BLOCK_SIZE <> 0 -> nand_erase fuel addr h = Ok (tt, h)) /\
  (addr mod PAGE_SIZE <> 0 ->
    nand_write_page fuel buf addr oob h = Ok (tt, h) /\
    nand_write_page_8bit fuel buf addr h = Ok (tt, h) /\
    nand_read_page_8bit fuel buf addr h = Ok ((-1, buf), h) /\
    NF8_ReadPage_8ECC NF8_ReadPage_Adv addr buf h = Ok ((-1, buf), h)).
Proof.
  split; intros Hm; apply Z.eqb_neq in Hm.
  - unfold nand_erase. change (BLOCK_SIZE - 1) with (2 ^ 17 - 1). rewrite aligned_tst by lia.
    change (2 ^ 17) with BLOCK_SIZE. by rewrite Hm.
  - unfold nand_write_page, nand_write_page_8bit, nand_read_page_8bit, NF8_ReadPage_8ECC.
    change (PAGE_SIZE - 1) with (2 ^ 11 - 1). rewrite aligned_tst by lia.
    change (2 ^ 11) with PAGE_SIZE. by rewrite Hm.
Qed.
End Properties.

(** ** Witnesses *)

Ltac bytes_ok := apply (bool_decide_unpack _); vm_compute; exact I.

Lemma blank_sane : chip_sane (chip_of (dev NandSim.blank)).
Proof. by repeat split. Qed.
Lemma worn_sane : chip_sane (chip_of (dev NandSim.worn)).
Proof. by repeat split. Qed.
Lemma worn_page_ok : page_ok (page_at (cells (chip_of (dev NandSim.worn))) 3).
Proof. split; [vm_compute; reflexivity|bytes_ok]. Qed.

Lemma nand_write_page_8bit_stores_witness :
  exists u h', nand_write_page_8bit 1 NandSim.sample (5 * PAGE_SIZE) NandSim.blank = Ok (u, h') /\
    page_at (cells (dev h')) 5 = page_image NandSim.sample /\ page_at (cells (dev h')) 6 = erased.
Proof.
  destruct (nand_write_page_8bit_stores NandSim.sample (5 * PAGE_SIZE) NandSim.blank)
    as (u & h' & Hrun & _ & _ & _ & Heq & Hne).
  - split; vm_compute; congruence.
  - reflexivity.
  - vm_compute. lia.
  - bytes_ok.
  - apply blank_sane.
  - exists u, h'. split; [exact Hrun|]. split; [by apply Heq|]. by apply (Hne 6).
Defined.

Lemma nand_erase_erases_witness :
  exists u h', nand_erase 1 0 NandSim.worn = Ok (u, h') /\ page_at (cells (dev h')) 3 = erased.
Proof.
  destruct (nand_erase_erases 0 NandSim.worn) as (u & h' & Hrun & _ & _ & Hpg).
  - lia.
  - reflexivity.
  - apply worn_sane.
  - exists u, h'. split; [exact Hrun|]. apply (Hpg 3).
Defined.

Lemma hamming_clean l : ecc_decode (EccCodec := NandSim.hamming) l (ecc_encode l) = Some [].
Proof.
  unfold ecc_decode, ecc_encode, NandSim.hamming, NandSim.hamming_decode.
  rewrite decide_True; [done|]. generalize (NandSim.hamming_encode l). clear l. intros l.
  induction l as [|x l IH]; simpl; constructor; [|done]. by rewrite Z.lxor_nilpotent.
Qed.

Lemma nand_page_roundtrip_witness :
  exists h', (nand_write_page_8bit 1 NandSim.sample (5 * PAGE_SIZE) ;;;
    nand_read_page_8bit 1 NandSim.empty_buffer (5 * PAGE_SIZE)) NandSim.blank = Ok ((0, NandSim.sample), h').
Proof.
  destruct (nand_page_roundtrip NandSim.sample NandSim.empty_buffer (5 * PAGE_SIZE) NandSim.blank)
    as (r & h' & Hrun & Hr).
  - split; vm_compute; congruence.
  - reflexivity.
  - vm_compute. lia.
  - bytes_ok.
  - vm_compute. lia.
  - bytes_ok.
  - intros l _ _. apply hamming_clean.
  - apply blank_sane.
  - reflexivity.
  - exists h'. rewrite Hrun, Hr. f_equal.
Defined.

Lemma worn_errors k : (k < 4)%nat -> exists errs,
  ecc_decode (raw_chunk NandSim.damaged k) (ecc_encode (take 512 (drop (512 * k) NandSim.sample))) = Some errs /\
  flips errs (raw_chunk NandSim.damaged k) = take 512 (drop (512 * k) NandSim.sample).
Proof.
  intros Hk. exists NandSim.damage.
  do 4 (destruct k as [|k]; [split; apply (bool_decide_unpack _); vm_compute; exact I|]). lia.
Qed.

Lemma nand_read_page_8bit_corrects_witness :
  exists h', nand_read_page_8bit 1 NandSim.empty_buffer (3 * PAGE_SIZE) NandSim.worn = Ok ((0, NandSim.sample), h').
Proof.
  destruct (nand_read_page_8bit_corrects NandSim.sample NandSim.empty_buffer (3 * PAGE_SIZE) NandSim.worn)
    as (r & h' & Hrun & Hr & _).
  - split; vm_compute; congruence.
  - reflexivity.
  - vm_compute. lia.
  - vm_compute. lia.
  - bytes_ok.
  - apply worn_sane.
  - apply worn_page_ok.
  - vm_compute. reflexivity.
  - apply worn_errors.
  - exists h'. rewrite Hrun, Hr. f_equal.
Defined.

Definition reported : hw chip :=
  Hw (Chip ∅ [] 0 0 0 [] [] 0 (flips NandSim.damage (take 512 NandSim.sample) ++
    ecc_encode (take 512 NandSim.sample))) [].

Lemma nand_correct_data_8bit_restores_witness :
  exists h', nand_correct_data_8bit 1 (flips NandSim.damage (take 512 NandSim.sample)) reported =
    Ok ((0, take 512 NandSim.sample), h').
Proof.
  destruct (nand_correct_data_8bit_restores (take 512 NandSim.sample) (Some NandSim.damage) reported)
    as (r & h' & Hrun & Hr & _).
  - bytes_ok.
  - vm_compute. lia.
  - by repeat split.
  - vm_compute. reflexivity.
  - reflexivity.
  - vm_compute. reflexivity.
  - exists h'. etransitivity; [exact Hrun|]. rewrite Hr. reflexivity.
Defined.

Lemma nand_read_random_within_page_witness :
  exists bytes h', nand_read_random 1 (3 * PAGE_SIZE + 2046) 4 NandSim.worn = Ok (bytes, h') /\
    bytes = take 4 (drop 2046 NandSim.damaged).
Proof.
  destruct (nand_read_random_within_page (3 * PAGE_SIZE + 2046) 4 NandSim.worn) as (bytes & h' & Hrun & Hb & _).
  - split; vm_compute; congruence.
  - lia.
  - vm_compute. congruence.
  - apply worn_sane.
  - apply worn_page_ok.
  - exists bytes, h'. split; [exact Hrun|exact Hb].
Defined.

Lemma nand_misaligned_no_access_witness : nand_erase 1 PAGE_SIZE NandSim.blank = Ok (tt, NandSim.blank).
Proof.
  apply (nand_misaligned_no_access [] None (fun _ _ b => io_ret (0, b)) PAGE_SIZE NandSim.blank).
  vm_compute. congruence.
Defined.
