(* ===== verification/SplHw.v ===== *)
(** * Clocks, tick timer and LEDs of the first-stage loader

    [board/samsung/smdkv210/spl/clock_c.c], [tim4.c] and [led.c]: the report of the
    clock tree on the serial port, the polled 10 ms tick and the LED outputs. *)
From S2P Require Import Prelude Mmio Uart.

Definition APLL_CON0 := 0xE0100100.
Definition MPLL_CON := 0xE0100108.
Definition EPLL_CON0 := 0xE0100110.
Definition EPLL_CON1 := 0xE0100114.
Definition VPLL_CON := 0xE0100120.
Definition CLK_SRC0 := 0xE0100200.
Definition CLK_DIV0 := 0xE0100300.

Definition TCFG0 := 0xE2500000.
Definition TCFG1 := 0xE2500004.
Definition TCON := 0xE2500008.
Definition TCNTB4 := 0xE250003C.
Definition TINT_CSTAT := 0xE2500044.

Definition GPH2CON := 0xE0200C40.
Definition GPH2DAT := 0xE0200C44.

(** ** [pow]: the loop runs [y - 1] times, squaring each time. *)
Fixpoint pow_loop (y : nat) (x : Z) : Z :=
  match y with
  | O => x
  | S y => pow_loop y (u32 (x * x))
  end.

Definition pow (x y : Z) : Z :=
  if u8 y =? 0 then 1 else pow_loop (Z.to_nat (u8 y - 1)) x.

Section SplHw.
Context {D : Type} {B : Bus D} (fuel : nat).

(** Unsigned division; by zero it is undefined. *)
Definition udiv (x y : Z) : res Z := if y =? 0 then Ub else Ok (x / y).

(** The three fields of a PLL register: each is read on its own. *)
Definition pll_field (con shift mask : Z) : io D Z :=
  v <- mmio_read con ;; io_ret (u16 ((v .>> shift) .& mask)).

(** [t = x; ... uart_printf(fmt, t)] *)
Definition print_mhz (name : string) (t : Z) : io D unit :=
  uart_printf fuel (cstr name ++ cstr "= %d MHz" ++ [13; 10]) [VInt t].

Definition div0_field (shift : Z) : io D Z :=
  v <- mmio_read CLK_DIV0 ;; io_ret (u8 ((v .>> shift) .& 0x7)).

Definition tab : string := String (Ascii.Ascii true false false true false false false false) EmptyString.

Definition print_clock : io D unit :=
  APLL_RATIO <- div0_field 0 ;;
  A2M_RATIO <- div0_field 4 ;;
  HCLK_MSYS_RATIO <- div0_field 8 ;;
  PCLK_MSYS_RATIO <- div0_field 12 ;;
  HCLK_DSYS_RATIO <- div0_field 16 ;;
  PCLK_DSYS_RATIO <- div0_field 20 ;;
  HCLK_PSYS_RATIO <- div0_field 24 ;;
  PCLK_PSYS_RATIO <- div0_field 28 ;;
  src <- mmio_read CLK_SRC0 ;;
  SCLKAPLL <-
    (if tst src 0x1 then
       p <- pll_field APLL_CON0 8 0x3F ;;
       m <- pll_field APLL_CON0 16 0x3FF ;;
       s <- pll_field APLL_CON0 0 0x7 ;;
       io_lift (udiv (u32 (m * 24)) (u32 (p * pow 2 (s - 1))))
     else io_ret 24) ;;
  src <- mmio_read CLK_SRC0 ;;
  SCLKMPLL <-
    (if tst src (1 .<< 4) then
       p <- pll_field MPLL_CON 8 0x3F ;;
       m <- pll_field MPLL_CON 16 0x3FF ;;
       s <- pll_field MPLL_CON 0 0x7 ;;
       io_lift (udiv (u32 (m * 24)) (u32 (p * pow 2 s)))
     else io_ret 24) ;;
  src <- mmio_read CLK_SRC0 ;;
  SCLKEPLL <-
    (if tst src (1 .<< 8) then
       p <- pll_field EPLL_CON0 8 0x3F ;;
       m <- pll_field EPLL_CON0 16 0x1FF ;;
       s <- pll_field EPLL_CON0 0 0x7 ;;
       k <- (v <- mmio_read EPLL_CON1 ;; io_ret (u16 v)) ;;
       io_lift (udiv (u32 ((m + k / 65536) * 24)) (u32 (p * pow 2 s)))
     else io_ret 24) ;;
  src <- mmio_read CLK_SRC0 ;;
  SCLKVPLL <-
    (if tst src (1 .<< 12) then
       p <- pll_field VPLL_CON 8 0x3F ;;
       m <- pll_field VPLL_CON 16 0x1FF ;;
       s <- pll_field VPLL_CON 0 0x7 ;;
       io_lift (udiv (u32 (m * 24)) (u32 (p * pow 2 s)))
     else io_ret 24) ;;
  src <- mmio_read CLK_SRC0 ;;
  let MOUT_MSYS := if tst src (1 .<< 16) then SCLKMPLL else SCLKAPLL in
  src <- mmio_read CLK_SRC0 ;;
  let MOUT_DSYS := if tst src (1 .<< 20) then SCLKAPLL / (A2M_RATIO + 1) else SCLKMPLL in
  src <- mmio_read CLK_SRC0 ;;
  let MOUT_PSYS := if tst src (1 .<< 24) then SCLKAPLL / (A2M_RATIO + 1) else SCLKMPLL in
  let t := MOUT_MSYS / (APLL_RATIO + 1) in
  print_mhz ("ARMCLK " +:+ tab +:+ tab) t ;;;
  print_mhz ("SCLKA2M " +:+ tab) (SCLKAPLL / (A2M_RATIO + 1)) ;;;
  let t := t / (HCLK_MSYS_RATIO + 1) in
  print_mhz ("HCLK_MSYS " +:+ tab) t ;;;
  let t := t / (PCLK_MSYS_RATIO + 1) in
  print_mhz ("PCLK_MSYS " +:+ tab) t ;;;
  let t := MOUT_DSYS / (HCLK_DSYS_RATIO + 1) in
  print_mhz ("HCLK_DSYS " +:+ tab) t ;;;
  let t := t / (PCLK_DSYS_RATIO + 1) in
  print_mhz ("PCLK_DSYS " +:+ tab) t ;;;
  let t := MOUT_PSYS / (HCLK_PSYS_RATIO + 1) in
  print_mhz ("HCLK_PSYS" +:+ tab) t ;;;
  print_mhz ("PCLK_PSYS " +:+ tab) (t / (PCLK_PSYS_RATIO + 1)) ;;;
  print_mhz ("SCLKEPLL " +:+ tab) SCLKEPLL ;;;
  print_mhz ("SCLKVPLL " +:+ tab) SCLKVPLL ;;;
  uart_printf fuel [13; 10] [].

(** ** The tick: [g_counter] is passed in and out. *)
Definition tim4_poll (g_counter : Z) : io D Z :=
  v <- mmio_read TINT_CSTAT ;;
  if tst v (1 .<< 9) then mmio_or TINT_CSTAT (1 .<< 9) ;;; io_ret (u32 (g_counter + 10))
  else io_ret g_counter.

Definition tim4_init : io D Z :=
  mmio_and TCFG0 (~32 (0xFF .<< 8)) ;;;
  mmio_or TCFG0 (65 .<< 8) ;;;
  mmio_and TCFG1 (~32 (0xF .<< 16)) ;;;
  mmio_or TCFG1 (0x2 .<< 16) ;;;
  mmio_write TCNTB4 2500 ;;;
  mmio_or TCON (0x1 .<< 21) ;;;
  mmio_and TCON (~32 (0x7 .<< 20)) ;;;
  mmio_or TCON (0x1 .<< 22) ;;;
  mmio_or TCON (1 .<< 20) ;;;
  mmio_and TINT_CSTAT (~32 (1 .<< 4)) ;;;
  mmio_or TINT_CSTAT (1 .<< 9) ;;;
  mmio_or TCON (1 .<< 20) ;;;
  io_ret 0.

(** ** LEDs *)
Definition led_on : io D unit :=
  mmio_and GPH2CON (u32 (0xFFFF .<< 16)) ;;;
  mmio_or GPH2CON (0x1111 .<< 16) ;;;
  mmio_or GPH2DAT 0xFF.
Definition led_off : io D unit :=
  mmio_and GPH2CON (u32 (0xFFFF .<< 16)) ;;;
  mmio_or GPH2CON (0x1111 .<< 16) ;;;
  mmio_and GPH2DAT (~32 0xFF).
Definition led_inv : io D unit :=
  mmio_and GPH2CON (u32 (0xFFFF .<< 16)) ;;;
  mmio_or GPH2CON (0x1111 .<< 16) ;;;
  mmio_xor GPH2DAT 0xFF.

(** The delays between the steps do not access the bus. *)
Definition led_init : io D unit :=
  io_for 0 5 (fun _ => led_on ;;; led_off).
End SplHw.

(** ** What [pow] computes *)

Lemma pow_loop_spec n x : 0 <= x < 2 ^ 32 -> pow_loop n x = u32 (x ^ (2 ^ Z.of_nat n)).
Proof.
  revert x. induction n as [|n IH]; intros x Hx; cbn [pow_loop].
  - change (2 ^ Z.of_nat 0) with 1. by rewrite Z.pow_1_r, wrap_small.
  - rewrite IH by (apply wrap_range; lia). rewrite Nat2Z.inj_succ, Z.pow_succ_r by lia.
    rewrite Z.pow_mul_r by lia. unfold wrap. by rewrite Z.mod_pow_l, Z.pow_2_r.
Qed.

Lemma pow_spec x y : 0 <= x < 2 ^ 32 -> 1 <= y < 256 -> pow x y = u32 (x ^ (2 ^ (y - 1))).
Proof.
  intros Hx Hy. unfold pow. rewrite (wrap_small 8) by lia.
  destruct (Z.eqb_spec y 0); [lia|]. rewrite pow_loop_spec, Z2Nat.id by lia. done.
Qed.

(** ** The clock report *)

Definition clock_regs : list Z := [APLL_CON0; MPLL_CON; EPLL_CON0; EPLL_CON1; VPLL_CON; CLK_SRC0; CLK_DIV0].

(** The clock tree in MHz as the data sheet defines it, by the values of the
    registers (the crystal has 24 MHz; the fractional part K of EPLL is left out). *)
Section Tree.
Context (R : Z -> Z).

Definition bits_of (a shift width : Z) : Z := R a / 2 ^ shift mod 2 ^ width.
Definition pdiv (a : Z) : Z := bits_of a 8 6.
Definition sdiv (a : Z) : Z := bits_of a 0 3.
Definition selects (k : Z) : bool := Z.testbit (R CLK_SRC0) k.
Definition ratio (k : Z) : Z := bits_of CLK_DIV0 (4 * k) 3 + 1.
Definition sclk_apll : Z :=
  if selects 0 then bits_of APLL_CON0 16 10 * 24 / (pdiv APLL_CON0 * 2 ^ (sdiv APLL_CON0 - 1)) else 24.
Definition sclk_mpll : Z :=
  if selects 4 then bits_of MPLL_CON 16 10 * 24 / (pdiv MPLL_CON * 2 ^ sdiv MPLL_CON) else 24.
Definition sclk_epll : Z :=
  if selects 8 then bits_of EPLL_CON0 16 9 * 24 / (pdiv EPLL_CON0 * 2 ^ sdiv EPLL_CON0) else 24.
Definition sclk_vpll : Z :=
  if selects 12 then bits_of VPLL_CON 16 9 * 24 / (pdiv VPLL_CON * 2 ^ sdiv VPLL_CON) else 24.
Definition sclk_a2m : Z := sclk_apll / ratio 1.
Definition armclk : Z := (if selects 16 then sclk_mpll else sclk_apll) / ratio 0.
Definition hclk_msys : Z := armclk / ratio 2.
Definition hclk_dsys : Z := (if selects 20 then sclk_a2m else sclk_mpll) / ratio 4.
Definition hclk_psys : Z := (if selects 24 then sclk_a2m else sclk_mpll) / ratio 6.

Definition report_line (name : string) (mhz : Z) : list Z :=
  cstr name ++ cstr "= " ++ show_dec mhz ++ cstr " MHz" ++ [13; 10].

Definition clock_report : list Z :=
  report_line ("ARMCLK " +:+ tab +:+ tab) armclk ++
  report_line ("SCLKA2M " +:+ tab) sclk_a2m ++
  report_line ("HCLK_MSYS " +:+ tab) hclk_msys ++
  report_line ("PCLK_MSYS " +:+ tab) (hclk_msys / ratio 3) ++
  report_line ("HCLK_DSYS " +:+ tab) hclk_dsys ++
  report_line ("PCLK_DSYS " +:+ tab) (hclk_dsys / ratio 5) ++
  report_line ("HCLK_PSYS" +:+ tab) hclk_psys ++
  report_line ("PCLK_PSYS " +:+ tab) (hclk_psys / ratio 7) ++
  report_line ("SCLKEPLL " +:+ tab) sclk_epll ++
  report_line ("SCLKVPLL " +:+ tab) sclk_vpll ++
  [13; 10].

(** The settings for which [pow] yields the power it is meant to yield. *)
Definition pll_ok : Prop :=
  (selects 0 = true -> 0 < pdiv APLL_CON0 /\ 1 <= sdiv APLL_CON0 <= 3) /\
  (selects 4 = true -> 0 < pdiv MPLL_CON /\ sdiv MPLL_CON <= 2) /\
  (selects 8 = true -> 0 < pdiv EPLL_CON0 /\ sdiv EPLL_CON0 <= 2) /\
  (selects 12 = true -> 0 < pdiv VPLL_CON /\ sdiv VPLL_CON <= 2).
End Tree.

Section Report.
Context {D : Type} {B : Bus D} {fuel : nat} {U : UartTx D fuel} (R : Z -> Z).

(** In all good states the clock registers hold [R], and loading them is harmless. *)
Definition clocks_hold : Prop :=
  forall a d, a ∈ clock_regs -> tx_ok d -> u32 (dev_val a d) = R a /\ tx_ok (dev_rd a d).

(** [m] returns [a] and sends nothing. *)
Definition gets {A} (m : io D A) (a : A) : Prop :=
  forall h, tx_ok (dev h) -> runs m h (fun r h' => r = a /\ tx_ok (dev h') /\ wrote h h' []).

Lemma gets_ret {A} (a : A) : gets (io_ret a) a.
Proof. intros h Hok. exists a, h. split_and!; [done|done|done|]. apply wrote_nil. Qed.

Lemma gets_bind {A A'} (m : io D A) (f : A -> io D A') a b :
  gets m a -> gets (f a) b -> gets (io_bind m f) b.
Proof.
  intros Hm Hf h Hok. eapply runs_bind; [by apply Hm|]. intros r h1 (-> & Hok1 & Hw1).
  eapply runs_mono; [by apply Hf|]. intros r h2 (-> & Hok2 & Hw2). split_and!; [done|done|].
  change [] with ([] ++ [] : list (Z * Z)). by eapply wrote_trans.
Qed.

Lemma gets_lift {A} (r : res A) a : r = Ok a -> gets (io_lift r) a.
Proof. intros ->. apply gets_ret. Qed.

Lemma sends_gets {A} (m : io D A) (f : A -> io D unit) a out :
  gets m a -> sends (f a) out -> sends (io_bind m f) out.
Proof.
  intros Hm Hf h Hok. eapply runs_bind; [by apply Hm|]. intros r h1 (-> & Hok1 & Hw1).
  eapply runs_mono; [by apply Hf|]. intros r' h2 (Hok2 & Hw2). split; [done|].
  rewrite <- (app_nil_l (pair UTXH2 <$> out)). by eapply wrote_trans.
Qed.

Context (Hclk : clocks_hold).

Lemma gets_reg a : a ∈ clock_regs -> gets (mmio_read a) (R a).
Proof.
  intros Ha h Hok. destruct (Hclk a _ Ha Hok) as [Hv Hr]. eexists _, _. split; [reflexivity|].
  split_and!; [exact Hv|exact Hr|]. unfold wrote. simpl. by rewrite stores_app.
Qed.

Lemma field_value a shift width mask :
  0 <= shift -> 0 <= width -> mask = 2 ^ width - 1 -> (R a .>> shift) .& mask = bits_of R a shift width.
Proof.
  intros Hs Hw ->. rewrite Z.sub_1_r, <- Z.ones_equiv, Z.land_ones, Z.shiftr_div_pow2 by lia. done.
Qed.

Lemma bits_of_range a shift width : 0 <= width -> 0 <= bits_of R a shift width < 2 ^ width.
Proof. intros Hw. apply Z.mod_pos_bound. lia. Qed.

Lemma gets_div0 k : 0 <= k < 8 -> gets (div0_field (4 * k)) (ratio R k - 1).
Proof.
  intros Hk. unfold div0_field. eapply gets_bind; [apply gets_reg; in_list|].
  rewrite (field_value _ _ 3) by (done || lia). unfold ratio. rewrite Z.add_simpl_r.
  pose proof (bits_of_range CLK_DIV0 (4 * k) 3). rewrite wrap_small by lia. apply gets_ret.
Qed.

Lemma gets_pll_field a shift width mask :
  a ∈ clock_regs -> 0 <= shift -> 0 <= width <= 16 -> mask = 2 ^ width - 1 ->
  gets (pll_field a shift mask) (bits_of R a shift width).
Proof.
  intros Ha Hs Hw Hm. unfold pll_field. eapply gets_bind; [by apply gets_reg|].
  rewrite (field_value _ _ width) by (done || lia). pose proof (bits_of_range a shift width).
  assert (2 ^ width <= 2 ^ 16) by (apply Z.pow_le_mono_r; lia).
  rewrite wrap_small by lia. apply gets_ret.
Qed.

Lemma tst_bit v k m : 0 <= k -> m = 2 ^ k -> tst v m = Z.testbit v k.
Proof.
  intros Hk ->. unfold tst. destruct (Z.eqb_spec (v .& 2 ^ k) 0) as [H|H]; simpl.
  - assert (Z.testbit (v .& 2 ^ k) k = false) as E by (by rewrite H, Z.bits_0).
    rewrite Z.land_spec, Z.pow2_bits_true, andb_true_r in E by done. done.
  - symmetry. apply not_false_iff_true. intros Hb. apply H. apply Z.bits_inj'. intros i Hi.
    rewrite Z.land_spec, Z.bits_0. destruct (decide (i = k)) as [->|Hne]; [by rewrite Hb|].
    by rewrite Z.pow2_bits_false, andb_false_r by done.
Qed.

Lemma pow_2_small y : 0 <= y <= 2 -> pow 2 y = 2 ^ y.
Proof.
  intros Hy. assert (y = 0 \/ y = 1 \/ y = 2) as Hc by lia. by destruct Hc as [->|[->| ->]].
Qed.

Lemma pll_value m p y :
  0 <= m < 2 ^ 10 -> 0 < p < 2 ^ 6 -> 0 <= y <= 2 ->
  udiv (u32 (m * 24)) (u32 (p * pow 2 y)) = Ok (m * 24 / (p * 2 ^ y)).
Proof.
  intros Hm Hp Hy. rewrite pow_2_small by done.
  assert (1 <= 2 ^ y <= 4) by (split; [lia|]; change 4 with (2 ^ 2); apply Z.pow_le_mono_r; lia).
  rewrite !wrap_small by nia. unfold udiv. destruct (Z.eqb_spec (p * 2 ^ y) 0); [nia|done].
Qed.

(** The source of one PLL, with [last] the expression that uses its fields. *)
Lemma gets_pll a k mask width mmask (last : Z -> Z -> Z -> io D Z) v :
  a ∈ clock_regs -> 0 <= k -> mask = 2 ^ k -> 0 <= width <= 10 -> mmask = 2 ^ width - 1 ->
  (selects R k = true -> gets (last (pdiv R a) (bits_of R a 16 width) (sdiv R a)) v) ->
  gets (if tst (R CLK_SRC0) mask then
       p <- pll_field a 8 0x3F ;; m <- pll_field a 16 mmask ;; s <- pll_field a 0 0x7 ;; last p m s
     else io_ret 24)
    (if selects R k then v else 24).
Proof.
  intros Ha Hk Hmask Hw Hmm Hlast. rewrite (tst_bit _ k) by done. unfold selects in *.
  destruct (Z.testbit (R CLK_SRC0) k); [|apply gets_ret].
  eapply gets_bind; [by apply (gets_pll_field _ 8 6)|].
  eapply gets_bind; [apply (gets_pll_field _ 16 width); [done|lia|lia|done]|].
  eapply gets_bind; [by apply (gets_pll_field _ 0 3)|]. by apply Hlast.
Qed.

Lemma field_ranges a width : 0 <= width <= 10 ->
  0 <= bits_of R a 16 width < 2 ^ 10 /\ 0 <= pdiv R a < 2 ^ 6 /\ 0 <= sdiv R a < 8.
Proof.
  intros Hw. pose proof (bits_of_range a 16 width). pose proof (bits_of_range a 8 6).
  pose proof (bits_of_range a 0 3). assert (2 ^ width <= 2 ^ 10) by (apply Z.pow_le_mono_r; lia).
  unfold pdiv, sdiv. lia.
Qed.

(** The characters of a literal name. *)
Ltac bytes_plain := apply (bool_decide_unpack _); vm_compute; exact I.

Lemma parse_literals l tl ps :
  Forall (fun c => 0 <= c < 256 /\ c <> 0x25) l -> parse_format tl = Some ps ->
  parse_format (l ++ tl) = Some ((Lit <$> l) ++ ps).
Proof.
  intros Hl Htl. induction Hl as [|c l [_ Hc] _ IH]; [done|]. simpl.
  apply Z.eqb_neq in Hc. change (byte_of_ascii _) with 0x25. by rewrite Hc, IH.
Qed.

Lemma render_literals l ps ap out :
  Forall (fun c => 0 <= c < 256 /\ c <> 0x25) l -> render ps ap = Some out ->
  render ((Lit <$> l) ++ ps) ap = Some (l ++ out).
Proof.
  intros Hl Ho. induction Hl as [|c l [Hr _] _ IH]; [done|].
  change ((Lit <$> c :: l) ++ ps) with (Lit c :: ((Lit <$> l) ++ ps)). cbn [render].
  rewrite IH. simpl. by rewrite wrap_small.
Qed.

Lemma sends_line name t :
  0 <= t < 2 ^ 32 -> Forall (fun c => 0 <= c < 256 /\ c <> 0x25) (cstr name) ->
  sends (print_mhz fuel name t) (report_line name t).
Proof.
  intros Ht Hn. unfold print_mhz. eapply sends_uart_printf; [by apply parse_literals|].
  unfold report_line. erewrite render_literals; [|done|reflexivity].
  by rewrite (wrap_small 32 t).
Qed.

Lemma quot_range x y : 0 <= x < 2 ^ 32 -> 0 <= y -> 0 <= x / y < 2 ^ 32.
Proof.
  intros Hx Hy. destruct (decide (y = 0)) as [->|Hne]; [rewrite Z.div_0_r; lia|].
  split; [apply Z.div_pos; lia|]. apply Z.le_lt_trans with x; [|lia].
  apply Z.div_le_upper_bound; nia.
Qed.

Lemma ratio_pos k : 0 <= ratio R k.
Proof. unfold ratio. pose proof (bits_of_range CLK_DIV0 (4 * k) 3). lia. Qed.

Lemma sclk_ranges :
  0 <= sclk_apll R < 2 ^ 32 /\ 0 <= sclk_mpll R < 2 ^ 32 /\
  0 <= sclk_epll R < 2 ^ 32 /\ 0 <= sclk_vpll R < 2 ^ 32.
Proof.
  unfold sclk_apll, sclk_mpll, sclk_epll, sclk_vpll.
  pose proof (field_ranges APLL_CON0 10). pose proof (field_ranges MPLL_CON 10).
  pose proof (field_ranges EPLL_CON0 9). pose proof (field_ranges VPLL_CON 9).
  refine (conj _ (conj _ (conj _ _))); case_match; try lia; (apply quot_range; [lia|]); apply Z.mul_nonneg_nonneg; lia.
Qed.

Lemma sends_report :
  sends (
    print_mhz fuel ("ARMCLK " +:+ tab +:+ tab) (armclk R) ;;;
    print_mhz fuel ("SCLKA2M " +:+ tab) (sclk_a2m R) ;;;
    print_mhz fuel ("HCLK_MSYS " +:+ tab) (hclk_msys R) ;;;
    print_mhz fuel ("PCLK_MSYS " +:+ tab) (hclk_msys R / ratio R 3) ;;;
    print_mhz fuel ("HCLK_DSYS " +:+ tab) (hclk_dsys R) ;;;
    print_mhz fuel ("PCLK_DSYS " +:+ tab) (hclk_dsys R / ratio R 5) ;;;
    print_mhz fuel ("HCLK_PSYS" +:+ tab) (hclk_psys R) ;;;
    print_mhz fuel ("PCLK_PSYS " +:+ tab) (hclk_psys R / ratio R 7) ;;;
    print_mhz fuel ("SCLKEPLL " +:+ tab) (sclk_epll R) ;;;
    print_mhz fuel ("SCLKVPLL " +:+ tab) (sclk_vpll R) ;;;
    uart_printf fuel [13; 10] []) (clock_report R).
Proof.
  destruct sclk_ranges as (RA & RM & RE & RV). pose proof ratio_pos as Hp.
  assert (0 <= sclk_a2m R < 2 ^ 32) as R2 by (by apply quot_range).
  assert (0 <= armclk R < 2 ^ 32) by (apply quot_range; [case_match; done|done]).
  assert (0 <= hclk_msys R < 2 ^ 32) by (by apply quot_range).
  assert (0 <= hclk_dsys R < 2 ^ 32) by (apply quot_range; [case_match; done|done]).
  assert (0 <= hclk_psys R < 2 ^ 32) by (apply quot_range; [case_match; done|done]).
  do 10 (apply sends_seq; [apply sends_line; [first [done|by apply quot_range]|bytes_plain]|]).
  eapply sends_uart_printf; reflexivity.
Qed.

Lemma sends_print_clock : pll_ok R -> sends (print_clock fuel) (clock_report R).
Proof.
  intros (HA & HM & HE & HV). unfold print_clock.
  pose proof (field_ranges APLL_CON0 10) as FA. pose proof (field_ranges MPLL_CON 10) as FM.
  pose proof (field_ranges EPLL_CON0 9) as FE. pose proof (field_ranges VPLL_CON 9) as FV.
  eapply sends_gets; [apply (gets_div0 0); lia|].
  eapply sends_gets; [apply (gets_div0 1); lia|].
  eapply sends_gets; [apply (gets_div0 2); lia|].
  eapply sends_gets; [apply (gets_div0 3); lia|].
  eapply sends_gets; [apply (gets_div0 4); lia|].
  eapply sends_gets; [apply (gets_div0 5); lia|].
  eapply sends_gets; [apply (gets_div0 6); lia|].
  eapply sends_gets; [apply (gets_div0 7); lia|].
  eapply sends_gets; [apply gets_reg; in_list|].
  eapply sends_gets.
  { apply (gets_pll _ 0 _ 10 _ (fun p m s => io_lift (udiv (u32 (m * 24)) (u32 (p * pow 2 (s - 1))))));
      [in_list|lia|done|lia|done|].
    intros Hs. apply gets_lift, pll_value; [|specialize (HA Hs)..]; lia. }
  eapply sends_gets; [apply gets_reg; in_list|].
  eapply sends_gets.
  { apply (gets_pll _ 4 _ 10 _ (fun p m s => io_lift (udiv (u32 (m * 24)) (u32 (p * pow 2 s)))));
      [in_list|lia|done|lia|done|].
    intros Hs. apply gets_lift, pll_value; [|specialize (HM Hs)..]; lia. }
  eapply sends_gets; [apply gets_reg; in_list|].
  eapply sends_gets.
  { apply (gets_pll _ 8 _ 9 _ (fun p m s => k <- (v <- mmio_read EPLL_CON1 ;; io_ret (u16 v)) ;;
      io_lift (udiv (u32 ((m + k / 65536) * 24)) (u32 (p * pow 2 s))))); [in_list|lia|done|lia|done|].
    intros Hs. eapply gets_bind; [eapply gets_bind; [apply gets_reg; in_list|apply gets_ret]|].
    rewrite (Z.div_small (u16 _)) by (apply wrap_range; lia). rewrite Z.add_0_r.
    apply gets_lift, pll_value; [|specialize (HE Hs)..]; lia. }
  eapply sends_gets; [apply gets_reg; in_list|].
  eapply sends_gets.
  { apply (gets_pll _ 12 _ 9 _ (fun p m s => io_lift (udiv (u32 (m * 24)) (u32 (p * pow 2 s)))));
      [in_list|lia|done|lia|done|].
    intros Hs. apply gets_lift, pll_value; [|specialize (HV Hs)..]; lia. }
  do 3 (eapply sends_gets; [apply gets_reg; in_list|]).
  rewrite (tst_bit _ 16), (tst_bit _ 20), (tst_bit _ 24) by done.
  rewrite !Z.sub_add.
  exact sends_report.
Qed.
End Report.

(** ** Properties *)

(** [pow] (documented as "x to the power y") computes [x ^ (2 ^ (y - 1))]
    modulo 2^32 for [y >= 1]; for base 2, the only base it is called with, this is the
    power [2 ^ y] exactly when [y <= 2], and from [y = 6] on it is 0, so that the divisions by
    it in [print_clock] are undefined. *)
Theorem pow_is_iterated_squaring x y :
  0 <= x < 2 ^ 32 -> 0 <= y < 256 ->
  pow x y = (if decide (y = 0) then 1 else u32 (x ^ (2 ^ (y - 1)))) /\
  (pow 2 y = 2 ^ y <-> y <= 2) /\ (6 <= y -> pow 2 y = 0).
Proof.
  intros Hx Hy. split; [|split].
  - case_decide as Hy0; [by subst|]. apply pow_spec; lia.
  - split; [|intros; apply pow_2_small; lia]. intros Heq.
    destruct (decide (y <= 2)) as [|Hn]; [done|exfalso].
    assert (y = 3 \/ y = 4 \/ y = 5 \/ 6 <= y) as [->|[->|[->|H6]]] by lia; [discriminate Heq..|].
    rewrite pow_spec in Heq by lia. assert (u32 (2 ^ 2 ^ (y - 1)) = 0) as E.
    { unfold wrap. replace (2 ^ (y - 1)) with (2 ^ (y - 1) - 32 + 32) by lia.
      assert (32 <= 2 ^ (y - 1)) by (change 32 with (2 ^ 5); apply Z.pow_le_mono_r; lia).
      rewrite Z.pow_add_r by lia. by apply Z.mod_mul. }
    rewrite E in Heq. assert (0 < 2 ^ y) by lia. lia.
  - intros H6. rewrite pow_spec by lia. unfold wrap.
    assert (32 <= 2 ^ (y - 1)) by (change 32 with (2 ^ 5); apply Z.pow_le_mono_r; lia).
    replace (2 ^ (y - 1)) with (2 ^ (y - 1) - 32 + 32) by lia.
    rewrite Z.pow_add_r by lia. by apply Z.mod_mul.
Qed.

Lemma pow_is_iterated_squaring_witness : pow 2 3 = 16 /\ pow 2 3 <> 2 ^ 3.
Proof.
  destruct (pow_is_iterated_squaring 2 3) as (H1 & H2 & _); [lia|lia|]. split; [exact H1|].
  intros H. apply H2 in H. lia.
Defined.

(** [print_clock] prints the clock tree the registers describe (ten lines,
    frequencies in MHz rounded down, EPLL's fraction K left out) for every setting of the
    clock registers whose PLL dividers stay in the range where [pow] is a power; it
    terminates and sends nothing else. *)
Theorem print_clock_reports {D} {B : Bus D} {fuel} {U : UartTx D fuel} R :
  clocks_hold (U := U) R -> pll_ok R -> sends (print_clock fuel) (clock_report R).
Proof. apply sends_print_clock. Qed.

(** The board's settings: APLL 1000 MHz, MPLL 667 MHz. *)
Definition board_clocks : gmap Z Z :=
  {[ APLL_CON0 := 0xA07D0301; MPLL_CON := 0xA29B0C01; CLK_SRC0 := 0x10001111; CLK_DIV0 := 0x14131440;
     EPLL_CON0 := 0xA0600602; VPLL_CON := 0xA06C0602 ]}.
Definition board_value (a : Z) : Z := u32 (default 0 (board_clocks !! a)).
Definition board_line : hw SimUart.port := Hw (SimUart.Port 0 [] [] board_clocks) [].

Lemma print_clock_reports_witness :
  exists h, print_clock 4 board_line = Ok (tt, h) /\
    take 17 (stores_to UTXH2 (bus_log h)) = cstr ("ARMCLK " +:+ tab +:+ tab +:+ "= 1000 M").
Proof.
  edestruct (print_clock_reports (U := SimUart.port_tx_at (eq board_clocks)) board_value)
    with (h := board_line) as ([] & h & E & _ & Hw).
  - intros a p Ha [Hb Hm]. simpl in Hm. split; [|].
    + repeat (apply elem_of_cons in Ha as [->|Ha]; [simpl; rewrite <- Hm; reflexivity|]). by apply elem_of_nil in Ha.
    + repeat (apply elem_of_cons in Ha as [->|Ha]; [by split|]). by apply elem_of_nil in Ha.
  - vm_compute. repeat split; congruence.
  - split; [apply (bool_decide_unpack _); reflexivity|reflexivity].
  - exists h. split; [exact E|]. rewrite stores_to_stores. unfold wrote in Hw. rewrite Hw. vm_compute. reflexivity.
Defined.

(** [tim4_poll] advances the time by 10 ms exactly when it finds timer 4's
    interrupt flag set, and then acknowledges it by storing the loaded status with the flag
    set; otherwise it stores nothing.  The time wraps at 2^32. *)
Theorem tim4_poll_ticks {D} {B : Bus D} g (h : hw D) :
  let v := u32 (dev_val TINT_CSTAT (dev h)) in
  exists h', tim4_poll g h = Ok (if Z.testbit v 9 then u32 (g + 10) else g, h') /\
    wrote h h' (if Z.testbit v 9
      then [(TINT_CSTAT, u32 (u32 (dev_val TINT_CSTAT (dev_rd TINT_CSTAT (dev h))) .| 0x200))] else []).
Proof.
  intros v. unfold tim4_poll. unfold io_bind at 1. unfold mmio_read at 1. cbn [res_bind fst snd].
  fold v. rewrite (tst_bit v 9) by done. destruct (Z.testbit v 9).
  - eexists. split; [reflexivity|]. unfold wrote. simpl. rewrite !stores_app, !app_nil_r. simpl. done.
  - eexists. split; [reflexivity|]. unfold wrote. simpl. by rewrite stores_app.
Qed.

(** [tim4_init] on the timer's plain registers sets prescaler 1 to 65, divider
    4 to code 2 (1/4), the reload value to 2500 and the control field of timer 4 to "start,
    auto-reload" without touching the other timers' fields: from a 66 MHz clock the flag comes
    every 10 ms. *)
Theorem tim4_init_programs {D} {B : Bus D} {RB : RegBus D} (h : hw D) :
  runs tim4_init h (fun g h' =>
    g = 0 /\
    field_set (reg TCFG0 (dev h)) (reg TCFG0 (dev h')) 8 8 65 /\
    field_set (reg TCFG1 (dev h)) (reg TCFG1 (dev h')) 16 4 2 /\
    reg TCNTB4 (dev h') = 2500 /\
    field_set (reg TCON (dev h)) (reg TCON (dev h')) 20 3 5 /\
    66000000 / ((65 + 1) * 4 * reg TCNTB4 (dev h')) = 100).
Proof.
  unfold tim4_init. eapply runs_mono.
  { apply does_runs. does_line. }
  intros g h' [-> HR]. rewrite !HR. clear HR.
  repeat first [rewrite upd_eq | rewrite upd_ne by done]. unfold contents_of.
  split_and!; [done| | |done| |done].
  - apply (field_replace _ 8 8); [lia..|apply reg_range].
  - apply (field_replace _ 16 4); [lia..|apply reg_range].
  - apply field_set_bits; [lia..|apply reg_range|apply wrap_range; lia|]. intros i Hi.
    rewrite !testbit_or by lia. rewrite (testbit_clear _ 20 3) by lia. rewrite testbit_or by lia.
    rewrite !testbit_1. case_decide as Hf.
    + assert (i = 20 \/ i = 21 \/ i = 22) as [->|[->| ->]] by lia; reflexivity.
    + rewrite !bool_decide_false by lia. by rewrite !orb_false_r.
Qed.

Lemma tim4_init_programs_witness :
  exists g h', tim4_init (Hw (∅ : RegFile.regs) []) = Ok (g, h') /\ reg TCNTB4 (dev h') = 2500.
Proof.
  destruct (tim4_init_programs (Hw (∅ : RegFile.regs) [])) as (g & h' & E & _ & _ & _ & H & _).
  exists g, h'. split; [exact E|exact H].
Defined.

Lemma tim4_poll_ticks_witness :
  exists h', tim4_poll 20 (Hw ({[ TINT_CSTAT := 0x200 ]} : RegFile.regs) []) = Ok (30, h').
Proof.
  destruct (tim4_poll_ticks 20 (Hw ({[ TINT_CSTAT := 0x200 ]} : RegFile.regs) [])) as (h' & E & _).
  exists h'. exact E.
Defined.
