(* ===== verification/Spl.v ===== *)
(** * The boot menu of the first-stage loader ([board/samsung/smdkv210/spl/board_init_f_spl.c])

    The client of all other parts: it buffers received bytes for the XMODEM
    receiver, collects packets into pages and programs them into the NAND flash,
    counts down to automatic boot, and copies the second stage to RAM.  The global
    variables of the file are the record [spl] (the state seen by the receiver's
    callbacks) and the record [menu_st] (the rest). *)
From S2P Require Import Prelude Mmio Uart Nand NandProps SplHw Xmodem.

Definition BL1_NF_ADDR : Z := 0.
Definition BL1_APP_SIZE : Z := 16 .<< 10.
Definition BL2_NF_ADDR : Z := BL1_APP_SIZE.
Definition BL2_APP_MAX_SIZE : Z := 256 .<< 10.
Definition BL2_RAM_ADDR : Z := 0x20000000.
Definition TEST_BLOCK_ADDR : Z := 1 * BLOCK_SIZE.
Definition AUTOBOOT_TIMEOUTS : Z := 5.

(** The globals the callbacks use, and the machine. *)
Record spl (D : Type) := Spl {
  nand_buff : list Z;
  buff_offset : Z;
  nand_address : Z;
  uart_buf : list Z;
  buf_len : Z;
  machine : hw D
}.
Arguments Spl {D} _ _ _ _ _ _.
Arguments nand_buff {D} _.
Arguments buff_offset {D} _.
Arguments nand_address {D} _.
Arguments uart_buf {D} _.
Arguments buf_len {D} _.
Arguments machine {D} _.

Inductive MENU_STATE := MENU_ENTRY | MENU_AUTO_BOOT | MENU_CMD | MENU_DOWNLOAD | MENU_BOOT.

#[global] Instance MENU_STATE_eq_dec : EqDecision MENU_STATE.
Proof. solve_decision. Defined.

Section Setters.
Context {D : Type}.
Definition set_page (w : spl D) (buff : list Z) (off : Z) : spl D :=
  Spl buff off (nand_address w) (uart_buf w) (buf_len w) (machine w).
Definition set_address (w : spl D) (a : Z) : spl D :=
  Spl (nand_buff w) (buff_offset w) a (uart_buf w) (buf_len w) (machine w).
Definition set_uart (w : spl D) (buf : list Z) (len : Z) : spl D :=
  Spl (nand_buff w) (buff_offset w) (nand_address w) buf len (machine w).
Definition set_machine (w : spl D) (h : hw D) : spl D :=
  Spl (nand_buff w) (buff_offset w) (nand_address w) (uart_buf w) (buf_len w) h.

(** A driver call. *)
Definition on_hw {A} (m : io D A) (w : spl D) : res (A * spl D) :=
  let* (a, h) := m (machine w) in Ok (a, set_machine w h).
End Setters.

Section Client.
Context {D : Type} {B : Bus D} (fuel : nat).

Definition program_tonand (w : spl D) : res (spl D) :=
  let* w := if nand_address w mod BLOCK_SIZE =? 0
            then let* (_, w) := on_hw (nand_erase fuel (nand_address w)) w in Ok w
            else Ok w in
  let* (_, w) := on_hw (nand_write_page_8bit fuel (nand_buff w) (nand_address w)) w in
  Ok (set_address w (u32 (nand_address w + PAGE_SIZE))).

(** The loop of [try_program] over the bytes of the buffer. *)
Fixpoint fill_page (bytes : list Z) (w : spl D) : res (spl D) :=
  match bytes with
  | [] => Ok w
  | b :: bytes =>
    let* buff := res_of_option (store_block (nand_buff w) (Z.to_nat (buff_offset w)) [b]) in
    let w := set_page w buff (u32 (buff_offset w + 1)) in
    let* w := if PAGE_SIZE <=? buff_offset w
              then let* w := program_tonand w in Ok (set_page w (nand_buff w) 0)
              else Ok w in
    fill_page bytes w
  end.

Definition try_program (buffer : option (list Z)) (buffer_len : Z) (bfinish : bool) (w : spl D)
  : res (spl D) :=
  if bfinish then program_tonand w
  else
    let n := Z.to_nat buffer_len in
    let bytes := default [] buffer in
    if decide (n <= length bytes)%nat then fill_page (take n bytes) w else Ub.

Definition uart_buff (c : Z) (w : spl D) : res (spl D) :=
  if buf_len w <? 128 then
    let* buf := res_of_option (store_block (uart_buf w) (Z.to_nat (buf_len w)) [c]) in
    Ok (set_uart w buf (u8 (buf_len w + 1)))
  else Ok w.

Definition xmCallback_spl (evt : XMODEM_EVT) (data : Z) (buffer : option (list Z)) (buffer_len : Z)
    (w : spl D) : res (spl D) :=
  match evt with
  | XMEVT_ENTRY => Ok (set_page w (nand_buff w) 0)
  | XMEVT_SOH => try_program buffer buffer_len false w
  | XMEVT_EOT => try_program buffer buffer_len true w
  | _ => Ok w
  end.

Definition xmPutData (buffer : list Z) (w : spl D) : res (bool * spl D) :=
  let* (_, w) := on_hw (put_chars fuel buffer) w in Ok (true, w).

(** All buffered bytes are copied, whatever the room announced in [buffer_len]. *)
Definition xmGetData (buffer_len : Z) (w : spl D) : res (bool * list Z * spl D) :=
  let n := Z.to_nat (buf_len w) in
  if decide (n <= length (uart_buf w))%nat
  then Ok (true, take n (uart_buf w), set_uart w (uart_buf w) 0)
  else Ub.

Definition spl_ops : xm_ops (spl D) :=
  XmOps (Some xmPutData) (Some xmGetData) (Some xmCallback_spl).

Definition say (fmt : list Z) (args : list uarg) (w : spl D) : res (spl D) :=
  let* (_, w) := on_hw (uart_printf fuel fmt args) w in Ok w.
End Client.

(** ** The menu *)

Definition crlf : list Z := [13; 10].

Record menu_st (D : Type) := MenuSt {
  world : spl D;
  xmodem : XMODEM;
  menu_state : MENU_STATE;
  timestamp_auto_boot : Z;
  auto_boot_timeout : Z
}.
Arguments MenuSt {D} _ _ _ _ _.
Arguments world {D} _.
Arguments xmodem {D} _.
Arguments menu_state {D} _.
Arguments timestamp_auto_boot {D} _.
Arguments auto_boot_timeout {D} _.

(** What a call of [menu] leads to: the loop goes on, or the second stage is
    entered at [entry] with the pages [copied] stored in RAM, in order. *)
Inductive menu_result (D : Type) :=
  | Stay (m : menu_st D)
  | RunBl2 (entry : Z) (copied : list (Z * list Z)) (m : menu_st D).
Arguments Stay {D} m.
Arguments RunBl2 {D} entry copied m.

Section Menu.
Context {D : Type} {B : Bus D} (fuel : nat).
(** The ROM routine, and what RAM holds before the copy. *)
Context (NF8_ReadPage_Adv : Z -> Z -> list Z -> io D (Z * list Z)) (ram : Z -> list Z).

Definition doXmodemDownloadInit (base_addr : Z) (xm : XMODEM) (w : spl D) : res (XMODEM * spl D) :=
  let xm := xmInit xm in
  let* w := say fuel (cstr "please send your file: " ++ [10]) [] w in
  let xm := xmStart xm in
  Ok (xm, set_address w base_addr).

Definition doXmodemDownloading (timestamp : Z) (xm : XMODEM) (w : spl D) : res (bool * XMODEM * spl D) :=
  let* (st, xm, w) := xModemFSM (spl_ops fuel) timestamp xm w in
  Ok (negb (bool_decide (st = XMSTA_STOP)), xm, w).

(** The copy loop: [n] pages are left. *)
Fixpoint copy_pages (n : nat) (addr_copy addr_ram : Z) : io D (list (Z * list Z)) :=
  match n with
  | O => io_ret []
  | S n =>
    r <- NF8_ReadPage_8ECC NF8_ReadPage_Adv addr_copy (ram addr_ram) ;;
    rest <- copy_pages n (addr_copy + PAGE_SIZE) (addr_ram + PAGE_SIZE) ;;
    io_ret ((addr_ram, r.2) :: rest)
  end.

Definition size_copy : Z :=
  (BL2_APP_MAX_SIZE / PAGE_SIZE + (if BL2_APP_MAX_SIZE mod PAGE_SIZE >? 0 then 1 else 0)) * PAGE_SIZE.

(** [while (size_copy > 0) { ...; size_copy -= PAGE_SIZE; }] makes this many rounds. *)
Definition copy_rounds : nat := Z.to_nat ((size_copy + PAGE_SIZE - 1) / PAGE_SIZE).

Definition copybl2ToRamAndRun (w : spl D) : res (Z * list (Z * list Z) * spl D) :=
  let* w := say fuel (cstr "size_copy=%d,BL2_nf_addr=0x%X,BL2_ram_addr=0x%X" ++ crlf)
              [VInt size_copy; VInt BL2_NF_ADDR; VInt BL2_RAM_ADDR] w in
  let* (copied, w) := on_hw (copy_pages copy_rounds BL2_NF_ADDR BL2_RAM_ADDR) w in
  Ok (BL2_RAM_ADDR, copied, w).

(** [bzero]: stores zeros to [s[0 .. size-1]]. *)
Definition bzero (s : list Z) (size : nat) : res (list Z) :=
  res_of_option (store_block s 0 (replicate size 0)).

Definition testNandEcc (w : spl D) : res (spl D) :=
  let* (_, w) := on_hw (nand_erase fuel TEST_BLOCK_ADDR) w in
  let buf := (fun i => Z.of_nat i .& 0xff) <$> seq 0 (Z.to_nat PAGE_SIZE) in
  let* w := say fuel (cstr "begin write data.." ++ crlf) [] w in
  let* (_, w) := on_hw (nand_write_page_8bit fuel buf TEST_BLOCK_ADDR) w in
  let* (oob, w) := on_hw (nand_read_oob fuel TEST_BLOCK_ADDR OOB_SIZE) w in
  let* (_, w) := on_hw (nand_erase fuel TEST_BLOCK_ADDR) w in
  let buf := ((fun b => b .^ 0x01) <$> take 8 buf) ++ drop 8 buf in
  let* (_, w) := on_hw (nand_write_page fuel buf TEST_BLOCK_ADDR (Some oob)) w in
  let* buf := bzero buf (Z.to_nat PAGE_SIZE) in
  let* (r, w) := on_hw (nand_read_page_8bit fuel buf TEST_BLOCK_ADDR) w in
  let* w := say fuel (cstr "ret = %d, addr=0x%X" ++ crlf) [VInt r.1; VInt TEST_BLOCK_ADDR] w in
  let* (_, w) := on_hw (io_each (take 10 r.2) (fun b => uart_printf fuel (cstr "%X ") [VInt b])) w in
  say fuel crlf [] w.

(** The inner loop that dumps a page, sixteen bytes to a line. *)
Definition dump_page (buf : list Z) : io D unit :=
  io_for 0 (Z.to_nat PAGE_SIZE) (fun i =>
    (if Z.of_nat i mod 16 =? 0 then uart_printf fuel crlf [] else io_ret tt) ;;;
    b <- io_lift (res_of_option (buf !! i)) ;;
    uart_printf fuel (cstr "%X ") [VInt b]).

(** The local buffer starts with unspecified contents and keeps what it holds
    from one round to the next. *)
Fixpoint check_pages (n : nat) (addr : Z) (buf : list Z) : io D unit :=
  match n with
  | O => io_ret tt
  | S n =>
    r <- NF8_ReadPage_8ECC NF8_ReadPage_Adv addr buf ;;
    uart_printf fuel (cstr "ret = %d, addr = 0x%X" ++ crlf) [VInt r.1; VInt addr] ;;;
    dump_page r.2 ;;;
    uart_printf fuel crlf [] ;;;
    check_pages n (addr + PAGE_SIZE) r.2
  end.

Definition checkAppInNand (buf0 : list Z) (w : spl D) : res (spl D) :=
  let* w := say fuel (cstr "SIZE = %d" ++ crlf) [VInt (BL1_APP_SIZE + BL2_APP_MAX_SIZE)] w in
  let rounds := Z.to_nat ((BL1_APP_SIZE + BL2_APP_MAX_SIZE + PAGE_SIZE - 1) / PAGE_SIZE) in
  let* (_, w) := on_hw (check_pages rounds BL1_NF_ADDR buf0) w in
  Ok w.

Definition print_menu (w : spl D) : res (spl D) :=
  let* w := say fuel (crlf ++ crlf ++
    cstr "---------------- boot menu, please input your command: ----------------" ++ crlf) [] w in
  let* w := say fuel (cstr ">> D: download myboot(SPL+uboot) into nandflash(uart2, xModem, 0)" ++ crlf) [] w in
  let* w := say fuel (cstr ">> B: start uboot" ++ crlf) [] w in
  let* w := say fuel (cstr ">> N: test nand with ecc" ++ crlf) [] w in
  let* w := say fuel (cstr ">> C: readback nand(BL1+BL2)" ++ crlf) [] w in
  say fuel crlf [] w.

Definition countdown (n : Z) (w : spl D) : res (spl D) :=
  say fuel ([13] ++ cstr "Auto boot in %d second...") [VInt n] w.

(** [recved] and [c] together: the byte received, if any. *)
Definition menu_auto_boot (timestamp : Z) (c : option Z) (m : menu_st D) : res (menu_result D) :=
  match c with
  | Some _ =>
    let* w := print_menu (world m) in
    Ok (Stay (MenuSt w (xmodem m) MENU_CMD (timestamp_auto_boot m) (auto_boot_timeout m)))
  | None =>
    if auto_boot_timeout m <=? 0 then
      Ok (Stay (MenuSt (world m) (xmodem m) MENU_BOOT (timestamp_auto_boot m) (auto_boot_timeout m)))
    else
      let* (t0, w) :=
        if timestamp_auto_boot m =? 0 then
          let* w := countdown (auto_boot_timeout m) (world m) in Ok (timestamp, w)
        else Ok (timestamp_auto_boot m, world m) in
      if 1000 <=? u32 (timestamp - t0) then
        let left := auto_boot_timeout m - 1 in
        let* w := countdown left w in
        Ok (Stay (MenuSt w (xmodem m) MENU_AUTO_BOOT timestamp left))
      else Ok (Stay (MenuSt w (xmodem m) MENU_AUTO_BOOT t0 (auto_boot_timeout m)))
  end.

Definition is_key (c : Z) (lower upper : Z) : bool := (c =? lower) || (c =? upper).

Definition menu_cmd (buf0 : list Z) (c : option Z) (m : menu_st D) : res (menu_result D) :=
  match c with
  | None => Ok (Stay m)
  | Some c =>
    if is_key c 0x64 0x44 then
      let* (xm, w) := doXmodemDownloadInit BL1_NF_ADDR (xmodem m) (world m) in
      Ok (Stay (MenuSt w xm MENU_DOWNLOAD (timestamp_auto_boot m) (auto_boot_timeout m)))
    else if is_key c 0x62 0x42 then
      Ok (Stay (MenuSt (world m) (xmodem m) MENU_BOOT (timestamp_auto_boot m) (auto_boot_timeout m)))
    else if is_key c 0x6E 0x4E then
      let* w := testNandEcc (world m) in
      Ok (Stay (MenuSt w (xmodem m) MENU_CMD (timestamp_auto_boot m) (auto_boot_timeout m)))
    else if is_key c 0x63 0x43 then
      let* w := checkAppInNand buf0 (world m) in
      Ok (Stay (MenuSt w (xmodem m) MENU_CMD (timestamp_auto_boot m) (auto_boot_timeout m)))
    else Ok (Stay m)
  end.

Definition menu_download (timestamp : Z) (c : option Z) (m : menu_st D) : res (menu_result D) :=
  let* w := match c with Some c => uart_buff c (world m) | None => Ok (world m) end in
  let* (going, xm, w) := doXmodemDownloading timestamp (xmodem m) w in
  if going : bool then
    Ok (Stay (MenuSt w xm MENU_DOWNLOAD (timestamp_auto_boot m) (auto_boot_timeout m)))
  else
    let* w := say fuel (cstr "program finished!" ++ [10]) [] w in
    let* w := print_menu w in
    Ok (Stay (MenuSt w xm MENU_CMD (timestamp_auto_boot m) (auto_boot_timeout m))).

Definition menu_boot (m : menu_st D) : res (menu_result D) :=
  let* (_, w) := on_hw led_off (world m) in
  let* w := say fuel (crlf ++ cstr "Booting..." ++ crlf) [] w in
  let* (entry, copied, w) := copybl2ToRamAndRun w in
  Ok (RunBl2 entry copied (MenuSt w (xmodem m) MENU_BOOT (timestamp_auto_boot m) (auto_boot_timeout m))).

Definition menu_entry (m : menu_st D) : res (menu_result D) :=
  let* w := say fuel (cstr "Going to auto boot, press any KEY to cancel!" ++ crlf) [] (world m) in
  Ok (Stay (MenuSt w (xmodem m) MENU_AUTO_BOOT 0 AUTOBOOT_TIMEOUTS)).

Definition menu (buf0 : list Z) (timestamp : Z) (c : option Z) (m : menu_st D) : res (menu_result D) :=
  match menu_state m with
  | MENU_AUTO_BOOT => menu_auto_boot timestamp c m
  | MENU_CMD => menu_cmd buf0 c m
  | MENU_DOWNLOAD => menu_download timestamp c m
  | MENU_BOOT => menu_boot m
  | MENU_ENTRY => menu_entry m
  end.

(** The globals before [main]: all zero. *)
Definition spl_start (h : hw D) : menu_st D :=
  MenuSt (Spl (replicate 2048 0) 0 0 (replicate 128 0) 0 h)
    (MkXMODEM XMSTA_ENTRY 0 0 0 0 0 (replicate 133 0)) MENU_ENTRY 0 AUTOBOOT_TIMEOUTS.

(** One round of the endless loop: poll the port, poll the timer, run the menu. *)
Definition spl_round (buf0 : list Z) (g_counter : Z) (m : menu_st D) : res (Z * menu_result D) :=
  let* (c, w) := on_hw try_get_char (world m) in
  let* (timestamp, w) := on_hw (tim4_poll g_counter) w in
  let m := MenuSt w (xmodem m) (menu_state m) (timestamp_auto_boot m) (auto_boot_timeout m) in
  let* r := menu buf0 timestamp c m in
  Ok (timestamp, r).

(** At most [n] rounds, or until the second stage is entered. *)
Fixpoint spl_loop (n : nat) (buf0 : list Z) (g_counter : Z) (m : menu_st D) : res (menu_result D) :=
  match n with
  | O => Ok (Stay m)
  | S n =>
    let* (g_counter, r) := spl_round buf0 g_counter m in
    match r with
    | Stay m => spl_loop n buf0 g_counter m
    | RunBl2 _ _ _ => Ok r
    end
  end.

Definition board_init_f_spl (n : nat) (buf0 : list Z) (h : hw D) : res (menu_result D) :=
  let m := spl_start h in
  let* (_, w) := on_hw uart_init (world m) in
  let* (_, w) := on_hw (nand_init fuel) w in
  let* (g_counter, w) := on_hw tim4_init w in
  let* (_, w) := on_hw (print_clock fuel) w in
  let* (_, w) := on_hw led_on w in
  let* (id, w) := on_hw (nand_read_id) w in
  let* w := say fuel (cstr "nand id: %X%X%X%X%X" ++ crlf) (VInt <$> id) w in
  spl_loop n buf0 g_counter (MenuSt w (xmodem m) (menu_state m) (timestamp_auto_boot m) (auto_boot_timeout m)).
End Menu.

(** ** Programming pages *)

Section Flash.
Context {D : Type} {B : Bus D} {E : EccCodec} {fuel : nat} {N : NandChip D fuel}.

Definition array (w : spl D) : gmap Z (list Z) := cells (chip_of (dev (machine w))).
Definition sane (w : spl D) : Prop := chip_sane (chip_of (dev (machine w))).

(** What the flash holds when [pages] have been programmed from row [r0] on, the
    first row of a block, starting from the array [cs0]: each page its image, the rest of
    the last block erased, everything else as before. *)
Definition flashed (r0 : Z) (pages : list (list Z)) (cs0 : gmap Z (list Z)) (row : Z) : list Z :=
  if decide (r0 <= row < r0 + (Z.of_nat (length pages) + 63) / 64 * 64) then
    match pages !! Z.to_nat (row - r0) with
    | Some pg => page_image pg
    | None => erased
    end
  else page_at cs0 row.

(** The parts of the state that programming does not touch. *)
Definition same_uart (w w' : spl D) : Prop := uart_buf w' = uart_buf w /\ buf_len w' = buf_len w.

Lemma on_hw_runs {A} (m : io D A) (w : spl D) P :
  runs m (machine w) P -> exists a w', on_hw m w = Ok (a, w') /\ P a (machine w') /\
    w' = set_machine w (machine w').
Proof.
  intros (a & h & Hm & HP). exists a, (set_machine w h). unfold on_hw. rewrite Hm. done.
Qed.

(** The first half of [program_tonand]: at the first page of a block the block is
    erased, so the pages from the next one to the end of its block are always blank. *)
Lemma erase_when_due r0 pages cs0 w :
  sane w -> 0 <= r0 -> r0 mod 64 = 0 ->
  let n := Z.of_nat (length pages) in
  nand_address w = (r0 + n) * 2048 -> nand_address w < 2 ^ 30 ->
  (forall row, page_at (array w) row = flashed r0 pages cs0 row) ->
  exists w1, (if nand_address w mod BLOCK_SIZE =? 0
      then let* (_, w) := on_hw (nand_erase fuel (nand_address w)) w in Ok w else Ok w) = Ok w1 /\
    sane w1 /\ w1 = set_machine w (machine w1) /\
    forall row, page_at (array w1) row =
      if decide (r0 + n <= row < r0 + (n + 64) / 64 * 64) then erased else flashed r0 pages cs0 row.
Proof.
  intros Hs Hr0 Hr n Ha Hmax Hfl.
  destruct (Z.eqb_spec (nand_address w mod BLOCK_SIZE) 0) as [Hbm|Hbm].
  - assert (nand_address w / PAGE_SIZE = r0 + n) as Hrow by (rewrite Ha; by apply Z.div_mul).
    assert (n mod 64 = 0) as Hn64.
    { rewrite Ha in Hbm. unfold BLOCK_SIZE, PAGE_SIZE, PAGE_PER_BLK in Hbm.
      Z.to_euclidean_division_equations. lia. }
    pose proof (goes_cells (nand_erase fuel (nand_address w)) (machine w) tt _ Hs
      (goes_erase (nand_address w) _ _ _ _ _ _ _ _ _ _ ltac:(lia) Hbm)) as Hrun.
    apply on_hw_runs in Hrun as (u & w1 & -> & (_ & Hs1 & Hc1 & _) & Hw1).
    exists w1. split; [done|]. split; [done|]. split; [done|]. intros row. unfold array.
    rewrite Hc1. simpl. rewrite page_at_erase, Hrow, <- Hfl. unfold PAGE_PER_BLK.
    repeat case_decide; try done; exfalso; Z.to_euclidean_division_equations; lia.
  - exists w. split; [done|]. split; [done|]. split; [by destruct w|]. intros row. rewrite Hfl.
    case_decide as Hd; [|done]. unfold flashed. fold n.
    assert (n mod 64 <> 0) as Hn64.
    { intros Hn. apply Hbm. rewrite Ha. unfold BLOCK_SIZE, PAGE_SIZE, PAGE_PER_BLK.
      Z.to_euclidean_division_equations. lia. }
    rewrite decide_True by (Z.to_euclidean_division_equations; lia).
    rewrite lookup_ge_None_2 by lia. done.
Qed.

(** One page more. *)
Lemma program_tonand_page r0 pages cs0 w :
  sane w -> length (nand_buff w) = 2048%nat -> byte_list (nand_buff w) ->
  0 <= r0 -> r0 mod 64 = 0 -> nand_address w = (r0 + Z.of_nat (length pages)) * 2048 ->
  nand_address w < 2 ^ 30 ->
  (forall row, page_at (array w) row = flashed r0 pages cs0 row) ->
  exists w', program_tonand fuel w = Ok w' /\ sane w' /\ same_uart w w' /\
    nand_buff w' = nand_buff w /\ buff_offset w' = buff_offset w /\
    nand_address w' = nand_address w + 2048 /\
    (forall row, page_at (array w') row = flashed r0 (pages ++ [nand_buff w]) cs0 row).
Proof.
  intros Hs Hl Hb Hr0 Hr Ha Hmax Hfl.
  destruct (erase_when_due r0 pages cs0 w) as (w1 & E1 & Hs1 & Hw1 & Hp1); [done..|].
  assert (nand_address w mod PAGE_SIZE = 0) as Hpm by (rewrite Ha; by apply Z.mod_mul).
  set (n := Z.of_nat (length pages)) in *.
  assert (nand_address w / PAGE_SIZE = r0 + n) as Hrow by (rewrite Ha; by apply Z.div_mul).
  edestruct (goes_write_page_8bit (nand_buff w) (nand_address w)) as (o & e & fd & Hg); [lia|done|lia|done|].
  pose proof (goes_cells _ (machine w1) tt _ Hs1 Hg) as Hrun.
  apply on_hw_runs in Hrun as (u & w2 & E2 & (_ & Hs2 & Hc2 & _) & Hw2).
  assert (nand_buff w1 = nand_buff w /\ nand_address w1 = nand_address w) as [Hnb Hna] by (by rewrite Hw1).
  unfold program_tonand. rewrite E1. cbn [res_bind]. rewrite Hnb, Hna, E2. cbn [res_bind].
  eexists. split; [done|]. rewrite Hw2, Hw1. cbn [nand_address set_address set_machine].
  split; [exact Hs2|]. split; [done|]. split; [done|]. split; [done|]. split; [apply wrap_small; unfold PAGE_SIZE; lia|].
  intros row. unfold array at 1. cbn [machine set_address set_machine]. rewrite Hc2. cbn [v_cells].
  fold (array w1). rewrite Hrow. unfold flashed. rewrite length_app. cbn [length].
  destruct (page_image_ok (nand_buff w)) as [Hil Hib]; [lia|done|].
  destruct (decide (row = r0 + n)) as [->|Hne].
  - rewrite page_at_program_eq; [|by rewrite Hp1, decide_True by (Z.to_euclidean_division_equations; lia)|done|done].
    rewrite decide_True by (Z.to_euclidean_division_equations; lia).
    replace (Z.to_nat (r0 + n - r0)) with (length pages) by lia.
    rewrite lookup_app_r, Nat.sub_diag by lia. done.
  - rewrite page_at_program_ne, Hp1 by done. unfold flashed. fold n.
    replace (Z.of_nat (length pages + 1) + 63) with (n + 64) by lia.
    destruct (decide (r0 + n <= row < r0 + (n + 64) / 64 * 64)) as [Hin|Hin].
    + rewrite decide_True by lia. rewrite lookup_ge_None_2 by (rewrite length_app; simpl; lia). done.
    + repeat case_decide; try done; [|exfalso; Z.to_euclidean_division_equations; lia..].
      by rewrite lookup_app_l by lia.
Qed.
End Flash.

(** ** Collecting bytes into pages *)

(** Fields of an updated state. *)
Ltac proj := cbn [nand_buff buff_offset nand_address uart_buf buf_len machine set_page set_address set_uart set_machine].

(** The first [n] whole pages of a byte stream. *)
Definition pages_of (n : nat) (l : list Z) : list (list Z) :=
  (fun i => take 2048 (drop (2048 * i) l)) <$> seq 0 n.

Lemma pages_of_S n l : pages_of (S n) l = pages_of n l ++ [take 2048 (drop (2048 * n) l)].
Proof. unfold pages_of. rewrite seq_S, fmap_app. done. Qed.

Lemma pages_of_app n l k : (2048 * n <= length l)%nat -> pages_of n (l ++ k) = pages_of n l.
Proof.
  intros Hl. unfold pages_of. apply list_fmap_ext. intros j i Hi.
  apply lookup_seq in Hi as [-> Hj]. rewrite drop_app_le by lia. rewrite take_app_le; [done|].
  rewrite length_drop. lia.
Qed.

Section Fill.
Context {D : Type} {B : Bus D} {E : EccCodec} {fuel : nat} {N : NandChip D fuel}.
(** The first row, the flash and the page buffer before the transfer. *)
Context (r0 : Z) (cs0 : gmap Z (list Z)) (buff0 : list Z).
Hypothesis Hr0 : 0 <= r0 /\ r0 mod 64 = 0.
Hypothesis Hbuff0 : length buff0 = 2048%nat /\ byte_list buff0.

(** The page in the buffer: what has arrived of it, followed by what the buffer
    still holds of the page before. *)
Definition stale (done : list Z) : list Z :=
  default buff0 (last (pages_of (length done / 2048) done)).
Definition open_page (done : list Z) : list Z :=
  drop (2048 * (length done / 2048)) done ++ drop (length done mod 2048) (stale done).

(** The state after the bytes [done] of the file have been handed over. *)
Record loaded (done : list Z) (w : spl D) : Prop := {
  ld_sane : sane w;
  ld_offset : buff_offset w = Z.of_nat (length done mod 2048);
  ld_buff : nand_buff w = open_page done;
  ld_addr : nand_address w = (r0 + Z.of_nat (length done / 2048)) * 2048;
  ld_flash : forall row, page_at (array w) row = flashed r0 (pages_of (length done / 2048) done) cs0 row
}.

Lemma chunk_length n (l : list Z) : (2048 * S n <= length l)%nat -> length (take 2048 (drop (2048 * n) l)) = 2048%nat.
Proof. intros Hl. rewrite length_take, length_drop. lia. Qed.

Lemma stale_ok done : byte_list done -> length (stale done) = 2048%nat /\ byte_list (stale done).
Proof.
  intros Hd. unfold stale. destruct (length done / 2048)%nat as [|n] eqn:Hn; [done|].
  rewrite pages_of_S, last_snoc. simpl. split.
  - apply chunk_length. pose proof (Nat.div_mod_eq (length done) 2048). lia.
  - by apply Forall_take, Forall_drop.
Qed.

Lemma open_page_ok done : byte_list done -> length (open_page done) = 2048%nat /\ byte_list (open_page done).
Proof.
  intros Hd. destruct (stale_ok done Hd) as [Hl Hb]. unfold open_page.
  pose proof (Nat.div_mod_eq (length done) 2048). pose proof (Nat.mod_upper_bound (length done) 2048).
  rewrite length_app, !length_drop, Hl. split; [lia|].
  apply Forall_app. split; by apply Forall_drop.
Qed.

(** One byte. *)
Lemma fill_byte done b w :
  byte_list done -> 0 <= b < 256 -> r0 * 2048 + Z.of_nat (length done) < 2 ^ 30 ->
  loaded done w ->
  exists w', fill_page fuel [b] w = Ok w' /\ loaded (done ++ [b]) w' /\ same_uart w w'.
Proof.
  intros Hd Hb Hmax [Hs Ho Hbf Ha Hfl]. destruct (open_page_ok done Hd) as [Hol Hob].
  destruct (stale_ok done Hd) as [Hsl _].
  set (n := (length done / 2048)%nat) in *. set (k := (length done mod 2048)%nat) in *.
  assert (length done = 2048 * n + k /\ k < 2048)%nat as [Hdiv Hk].
  { split; [apply Nat.div_mod_eq|apply Nat.mod_upper_bound; lia]. }
  assert (store_block (nand_buff w) (Z.to_nat (buff_offset w)) [b] =
    Some (drop (2048 * n) (done ++ [b]) ++ drop (S k) (stale done))) as Hst.
  { rewrite Hbf, Ho, Nat2Z.id. unfold open_page. fold n k.
    replace k with (length (drop (2048 * n) done)) at 2 by (rewrite length_drop; lia).
    rewrite store_block_app by (rewrite length_drop; simpl; lia).
    rewrite drop_drop, drop_app_le by lia. rewrite <- app_assoc. simpl. do 3 f_equal. f_equal. lia. }
  cbn [fill_page]. rewrite Hst. cbn [res_bind res_of_option]. rewrite Ho, wrap_small by lia.
  cbn [buff_offset set_page]. unfold PAGE_SIZE.
  destruct (Z.leb_spec 2048 (Z.of_nat k + 1)) as [Hfull|Hpart].
  - (* the page is complete *)
    assert (length (done ++ [b]) = 2048 * S n)%nat as Hlen by (rewrite length_app; simpl; lia).
    assert (length (done ++ [b]) / 2048 = S n)%nat as Hn' by (rewrite Hlen, Nat.mul_comm, Nat.div_mul; lia).
    assert (length (done ++ [b]) mod 2048 = 0)%nat as Hk' by (rewrite Hlen, Nat.mul_comm; apply Nat.Div0.mod_mul).
    set (w1 := set_page w _ _).
    assert (nand_buff w1 = take 2048 (drop (2048 * n) (done ++ [b]))) as Hw1.
    { unfold w1. proj. rewrite (drop_ge (stale done)), app_nil_r by lia. symmetry. apply take_ge.
      rewrite length_drop. lia. }
    assert (byte_list (done ++ [b])) as Hdb by (apply Forall_app; split; [done|by constructor]).
    destruct (program_tonand_page r0 (pages_of n done) cs0 w1) as (w2 & E2 & Hs2 & Hu2 & Hb2 & Ho2 & Ha2 & Hf2).
    + exact Hs.
    + rewrite Hw1. apply chunk_length. lia.
    + rewrite Hw1. by apply Forall_take, Forall_drop.
    + apply Hr0.
    + apply Hr0.
    + unfold w1. proj. rewrite Ha. unfold pages_of. by rewrite length_fmap, length_seq.
    + unfold w1. proj. rewrite Ha. lia.
    + exact Hfl.
    + rewrite E2. cbn [res_bind]. eexists. split; [done|]. split; [|exact Hu2].
      assert (pages_of n done ++ [nand_buff w1] = pages_of (S n) (done ++ [b])) as Hpg.
      { by rewrite pages_of_S, Hw1, pages_of_app by lia. }
      split; proj.
      * exact Hs2.
      * by rewrite Hk'.
      * rewrite Hb2, Hw1. unfold open_page. rewrite Hn', Hk', drop_0.
        unfold stale. rewrite Hn', pages_of_S, last_snoc. cbn [default].
        rewrite (drop_ge (done ++ [b]) (2048 * S n)) by lia. done.
      * rewrite Ha2. unfold w1. proj. rewrite Ha, Hn'. lia.
      * rewrite Hn', <- Hpg. exact Hf2.
  - (* still open *)
    assert (length (done ++ [b]) / 2048 = n /\ length (done ++ [b]) mod 2048 = S k)%nat as [Hn' Hk'].
    { rewrite length_app. cbn [length]. split; symmetry.
      - apply (Nat.div_unique _ _ _ (S k)); lia.
      - apply (Nat.mod_unique _ _ n); lia. }
    eexists. split; [done|]. split; [|done]. split; proj.
    + exact Hs.
    + rewrite Hk'. lia.
    + unfold open_page, stale. rewrite Hn', Hk', pages_of_app by lia. done.
    + by rewrite Hn'.
    + rewrite Hn', pages_of_app by lia. exact Hfl.
Qed.
End Fill.

(** ** The client promises what the receiver needs *)

Section Link.
Context {D : Type} {B : Bus D} {fuel : nat}.

Definition uart_ok (w : spl D) : Prop := length (uart_buf w) = 128%nat /\ 0 <= buf_len w <= 128.

Lemma on_hw_frame {A} (m : io D A) (w : spl D) a w' :
  on_hw m w = Ok (a, w') -> w' = set_machine w (machine w').
Proof.
  unfold on_hw. destruct (m (machine w)) as [[b h]| |]; simpl; [|done..]. by intros [= <- <-].
Qed.

Lemma program_uart (w w' : spl D) : program_tonand fuel w = Ok w' -> same_uart w w'.
Proof.
  unfold program_tonand.
  match goal with |- res_bind ?m _ = _ -> _ => destruct m as [w1| |] eqn:E1 end; [|done..]. cbn [res_bind].
  destruct (on_hw _ w1) as [[u w2]| |] eqn:E2; [|done..]. intros [= <-]. apply on_hw_frame in E2.
  assert (same_uart w w1) as [H1 H2].
  { destruct (_ =? 0); [|by injection E1 as <-].
    destruct (on_hw _ w) as [[u1 w3]| |] eqn:E3; [|done..]. injection E1 as <-.
    apply on_hw_frame in E3. by rewrite E3. }
  rewrite E2. by split; proj.
Qed.

Lemma fill_uart bytes (w w' : spl D) : fill_page fuel bytes w = Ok w' -> same_uart w w'.
Proof.
  revert w. induction bytes as [|b bytes IH]; intros w; cbn [fill_page]; [by intros [= <-]|].
  destruct (store_block _ _ _) as [buff|]; cbn [res_bind res_of_option]; [|done].
  set (w1 := set_page w buff _).
  match goal with |- res_bind ?m _ = _ -> _ => destruct m as [w2| |] eqn:E2 end; [|done..].
  cbn [res_bind]. intros H%IH. assert (same_uart w w2) as [H1 H2].
  { destruct (_ <=? _); [|by injection E2 as <-].
    destruct (program_tonand fuel w1) as [w3| |] eqn:E3; [|done..]. injection E2 as <-.
    apply program_uart in E3 as [? ?]. by split. }
  destruct H. split; congruence.
Qed.

Lemma callback_uart evt d buf n (w w' : spl D) :
  xmCallback_spl fuel evt d buf n w = Ok w' -> same_uart w w'.
Proof.
  destruct evt; cbn [xmCallback_spl try_program]; try (by intros [= <-]).
  - case_decide; [|done]. apply fill_uart.
  - apply program_uart.
Qed.

Lemma put_uart b (w w' : spl D) : put1 (spl_ops fuel) b w = Ok w' -> same_uart w w'.
Proof.
  unfold put1. cbn [putData spl_ops]. unfold xmPutData.
  destruct (on_hw _ w) as [[u w1]| |] eqn:E; [|done..]. cbn [res_bind]. intros [= <-].
  apply on_hw_frame in E. by rewrite E.
Qed.

(** Queueing a byte with room in the buffer. *)
Lemma uart_buff_ok b (w : spl D) :
  uart_ok w -> buf_len w < 128 ->
  exists buf, uart_buff b w = Ok (set_uart w buf (buf_len w + 1)) /\ length buf = 128%nat /\
    take (Z.to_nat (buf_len w + 1)) buf = take (Z.to_nat (buf_len w)) (uart_buf w) ++ [b].
Proof.
  intros [Hl Hr] Hlt. unfold uart_buff. rewrite (proj2 (Z.ltb_lt _ _)) by done.
  destruct (store_block_prefix (uart_buf w) (Z.to_nat (buf_len w)) b _ eq_refl) as (buf & -> & Ht & Hl'); [lia|].
  exists buf. cbn [res_bind res_of_option]. rewrite wrap_small by lia. split; [done|]. split; [lia|].
  by replace (Z.to_nat (buf_len w + 1)) with (S (Z.to_nat (buf_len w))) by lia.
Qed.

Lemma pending_nil (w : spl D) :
  uart_ok w -> take (Z.to_nat (buf_len w)) (uart_buf w) = [] -> buf_len w = 0.
Proof.
  intros [Hl Hr] Hp. apply (f_equal length) in Hp. rewrite length_take, Hl in Hp.
  change (length []) with 0%nat in Hp. lia.
Qed.

#[global] Instance spl_link : XmLink (spl_ops (D := D) fuel).
Proof.
  refine {| pending := fun w => take (Z.to_nat (buf_len w)) (uart_buf w);
            drain := fun w => set_uart w (uart_buf w) 0;
            push := fun b w => match uart_buff b w with Ok w' => w' | _ => w end;
            link_ok := uart_ok |}.
  - exists (@xmGetData D). split; [done|]. intros n w [Hl Hr]. unfold xmGetData.
    by rewrite decide_True by lia.
  - intros w [Hl Hr]. split; [split; proj; [done|lia]|done].
  - intros w Hok Hp. pose proof (pending_nil w Hok Hp) as H0. destruct w. cbn [buf_len] in H0. by subst.
  - intros b w Hok Hp. pose proof (pending_nil w Hok Hp) as H0.
    destruct (uart_buff_ok b w Hok) as (buf & -> & Hl & Ht); [lia|]. split; [split; proj; [done|lia]|].
    cbn [buf_len uart_buf set_uart]. by rewrite Ht, Hp.
  - intros evt d buf n w w' [Hl Hr] H. destruct (callback_uart evt d buf n w w' H) as [H1 H2]. unfold uart_ok. by rewrite H1, H2.
  - intros b w w' [Hl Hr] H. destruct (put_uart b w w' H) as [H1 H2]. unfold uart_ok. by rewrite H1, H2.
Defined.
End Link.

(** ** A download, from the line to the flash *)

(** The board: the flash chip and the serial port on one bus, where accesses to
    other registers do not disturb the transmitter. *)
Class Board (D : Type) {B : Bus D} {E : EccCodec} (fuel : nat) := {
  board_nand :: NandChip D fuel;
  board_tx :: UartTx D fuel;
  board_rd a d : tx_ok d -> tx_ok (dev_rd a d);
  board_wr a v d : tx_ok d -> tx_ok (dev_wr a v d)
}.

Section Download.
Context {D : Type} {B : Bus D} {E : EccCodec} {fuel : nat} {Bd : Board D fuel}.

Ltac tx_acc := intros; first [by apply board_rd|by apply board_wr].

Lemma keeps_erase addr : keeps tx_ok (nand_erase fuel addr).
Proof.
  unfold nand_erase, nand_select_chip, nand_cmd, nand_wait_ready, nand_deselect_chip.
  keeps_code ltac:(tx_acc).
Qed.

Lemma keeps_write_chunks n i buf oob : keeps tx_ok (write_chunks fuel n i buf oob).
Proof.
  revert i buf oob. induction n as [|n IH]; intros i buf oob; cbn [write_chunks]; [apply keeps_ret|].
  unfold nand_init_hwecc_8bit, nand_write_buf, nand_calculate_ecc_8bit. keeps_code ltac:(tx_acc).
  apply IH.
Qed.

Lemma keeps_write_page_8bit buf addr : keeps tx_ok (nand_write_page_8bit fuel buf addr).
Proof.
  unfold nand_write_page_8bit, nand_select_chip, nand_cmd, nand_addr, nand_wait_ready, nand_deselect_chip,
    nand_write_buf.
  keeps_code ltac:(tx_acc). apply keeps_write_chunks.
Qed.

Definition can_send (w : spl D) : Prop := tx_ok (dev (machine w)).

Lemma on_hw_keeps {A} (m : io D A) w a w' :
  keeps tx_ok m -> can_send w -> on_hw m w = Ok (a, w') -> can_send w'.
Proof.
  unfold on_hw, can_send. intros Hm Hw. destruct (m (machine w)) as [[b h]| |] eqn:E'; [|done..].
  cbn [res_bind]. intros [= <- <-]. by eapply Hm.
Qed.

Lemma program_can_send w w' : can_send w -> program_tonand fuel w = Ok w' -> can_send w'.
Proof.
  intros Hw. unfold program_tonand.
  match goal with |- res_bind ?m _ = _ -> _ => destruct m as [w1| |] eqn:E1 end; [|done..]. cbn [res_bind].
  destruct (on_hw _ w1) as [[u w2]| |] eqn:E2; [|done..]. intros [= <-].
  assert (can_send w1) as Hw1.
  { destruct (_ =? 0); [|by injection E1 as <-].
    destruct (on_hw _ w) as [[u1 w3]| |] eqn:E3; [|done..]. injection E1 as <-.
    eapply on_hw_keeps; [apply keeps_erase|exact Hw|exact E3]. }
  eapply (on_hw_keeps _ w1 u w2); [apply keeps_write_page_8bit|exact Hw1|exact E2].
Qed.

Lemma fill_can_send bytes w w' : can_send w -> fill_page fuel bytes w = Ok w' -> can_send w'.
Proof.
  revert w. induction bytes as [|b bytes IH]; intros w Hw; cbn [fill_page]; [by intros [= <-]|].
  destruct (store_block _ _ _) as [buff|]; cbn [res_bind res_of_option]; [|done].
  set (w1 := set_page w buff _).
  match goal with |- res_bind ?m _ = _ -> _ => destruct m as [w2| |] eqn:E2 end; [|done..].
  cbn [res_bind]. apply IH. destruct (_ <=? _); [|by injection E2 as <-].
  destruct (program_tonand fuel w1) as [w3| |] eqn:E3; [|done..]. injection E2 as <-.
  by apply (program_can_send w1 w3).
Qed.

(** Sending one byte: it goes out, and the flash is not touched. *)
Lemma spl_put b w :
  0 <= b < 256 -> can_send w ->
  exists w', put1 (spl_ops fuel) b w = Ok w' /\ can_send w' /\
    w' = set_machine w (machine w') /\ chip_of (dev (machine w')) = chip_of (dev (machine w)) /\
    wrote (machine w) (machine w') [(UTXH2, b)].
Proof.
  intros Hb Hw. destruct (sends_put b (machine w) Hw) as ([] & h' & Hrun & Hok & Hwr).
  rewrite wrap_small in Hwr by lia.
  assert (put_chars fuel [b] (machine w) = Ok (tt, h')) as Hput.
  { cbn [put_chars]. unfold put_char in Hrun. unfold io_bind at 1. by rewrite Hrun. }
  exists (set_machine w h'). unfold put1. cbn [putData spl_ops]. unfold xmPutData, on_hw.
  rewrite Hput. cbn [res_bind]. split; [done|]. split; [done|]. split; [done|]. split; [|done].
  unfold put_char, uart_put in Hrun.
  eapply (keeps_bind (fun d => chip_of d = chip_of (dev (machine w)))); [..|exact Hrun]; [| |done].
  - apply keeps_wait_set. intros d Hd. by rewrite chip_of_rd, Hd.
  - intros ?. apply keeps_write. intros v d Hd. by rewrite chip_of_wr, Hd.
Qed.
(** Fetching bytes only touches the receive buffer. *)
Lemma absorb_uart bytes (w : spl D) :
  resting (ops := spl_ops fuel) w ->
  exists buf len, absorb (ops := spl_ops fuel) bytes w = set_uart w buf len.
Proof.
  revert w. induction bytes as [|b bytes IH]; intros w Hw.
  { exists (uart_buf w), (buf_len w). by destruct w. }
  change (b :: bytes) with ([b] ++ bytes). rewrite absorb_app.
  assert (exists buf, absorb (ops := spl_ops fuel) [b] w = set_uart w buf 0) as (buf & E1).
  { destruct Hw as [Hok Hp]. pose proof (pending_nil w Hok Hp).
    destruct (uart_buff_ok b w Hok) as (buf & Hb & _ & _); [lia|]. exists buf.
    unfold absorb. cbn [foldl drain push spl_link]. by rewrite Hb. }
  destruct (IH (absorb (ops := spl_ops fuel) [b] w)) as (buf' & len' & E2); [by apply absorb_one|].
  rewrite E2, E1. by exists buf', len'.
Qed.

End Download.

(** *** Handing packets over *)
Section Transfer.
Context {D : Type} {B : Bus D} {E : EccCodec} {fuel : nat} {Bd : Board D fuel}.
Context (r0 : Z) (cs0 : gmap Z (list Z)) (buff0 : list Z).
Hypothesis Hr0 : 0 <= r0 /\ r0 mod 64 = 0.
Hypothesis Hbuff0 : length buff0 = 2048%nat /\ byte_list buff0.

Abbreviation loaded := (loaded r0 cs0 buff0).

(** Between packets: the file's bytes [done] have arrived. *)
Definition at_ease (done : list Z) (w : spl D) : Prop :=
  loaded done w /\ can_send w /\ resting (ops := spl_ops fuel) w.

Lemma loaded_uart done w buf len : loaded done w -> loaded done (set_uart w buf len).
Proof. by intros [Hs Ho Hb Ha Hf]. Qed.

Lemma fill_bytes bytes done w :
  byte_list done -> byte_list bytes ->
  r0 * 2048 + Z.of_nat (length done + length bytes) <= 2 ^ 30 -> loaded done w ->
  exists w', fill_page fuel bytes w = Ok w' /\ loaded (done ++ bytes) w'.
Proof.
  intros Hd Hb. revert done w Hd. induction Hb as [|b bytes Hbr Hb IH]; intros done w Hd Hmax Hl.
  { exists w. by rewrite app_nil_r. }
  cbn [length] in Hmax.
  destruct (fill_byte r0 cs0 buff0 Hr0 Hbuff0 done b w) as (w1 & E1 & Hl1 & _); [done|done|lia|done|].
  destruct (IH (done ++ [b]) w1) as (w2 & E2 & Hl2); [| |done|].
  - apply Forall_app. split; [done|by constructor].
  - rewrite length_app. cbn [length]. lia.
  - exists w2. rewrite <- app_assoc in Hl2. split; [|exact Hl2].
    change (b :: bytes) with ([b] ++ bytes). clear -E1 E2. revert E1 E2. cbn [app].
    generalize w. clear. intros w E1 E2. cbn [fill_page] in E1 |- *.
    destruct (store_block _ _ _) as [buff|]; cbn [res_bind res_of_option] in *; [|done].
    match goal with |- res_bind ?m _ = _ => destruct m as [w3| |] end; cbn [res_bind] in *; [|done..].
    by injection E1 as ->.
Qed.

Lemma transfer_loads pkts done w :
  byte_list done -> Forall (fun p => byte_list p.2 /\ length p.2 = 128%nat) pkts ->
  r0 * 2048 + Z.of_nat (length done + 128 * length pkts) <= 2 ^ 30 ->
  at_ease done w ->
  exists w', transfer (spl_ops fuel) pkts w = Ok w' /\ at_ease (done ++ mjoin pkts.*2) w'.
Proof.
  intros Hd Hp. revert done w Hd. induction Hp as [|[n data] pkts [Hb Hl] Hp IH]; intros done w Hd Hmax Hw.
  { exists w. cbn. by rewrite app_nil_r. }
  destruct Hw as (Hld & Hcs & Hre). cbn [length snd] in *.
  pose proof (absorb_resting (spl_ops fuel) (soh_frame n data) w Hre) as Hre1.
  destruct (absorb_uart (soh_frame n data) w Hre) as (buf & len & Ea).
  set (w1 := absorb (soh_frame n data) w) in *.
  assert (loaded done w1) as Hld1 by (rewrite Ea; by apply loaded_uart).
  assert (can_send w1) as Hcs1 by (by rewrite Ea).
  destruct (fill_bytes data done w1) as (w2 & E2 & Hld2); [done|done|lia|done|].
  assert (notify (spl_ops fuel) XMEVT_SOH n (Some data) 128 w1 = Ok w2) as En.
  { cbn [notify xmCallback spl_ops xmCallback_spl try_program]. change (Z.to_nat 128) with 128%nat. cbn [default].
    unfold id. rewrite decide_True by lia. by rewrite take_ge by lia. }
  pose proof (notify_resting (spl_ops fuel) _ _ _ _ _ _ Hre1 En) as Hre2.
  assert (can_send w2) as Hcs2 by (by eapply fill_can_send).
  destruct (spl_put XM_FRAME_ACK w2) as (w3 & E3 & Hcs3 & Hw3 & Hc3 & _); [done|done|].
  pose proof (put_resting (spl_ops fuel) _ _ _ Hre2 E3) as Hre3.
  destruct (IH (done ++ data) w3) as (w4 & E4 & Hw4).
  - by apply Forall_app.
  - rewrite length_app. lia.
  - split; [|by split]. destruct Hld2 as [Hs Ho Hbf Ha Hf]. rewrite Hw3. split; proj; [|done..|].
    + unfold sane. cbn [machine set_machine]. by rewrite Hc3.
    + intros row. unfold array. cbn [machine set_machine]. rewrite Hc3. apply Hf.
  - exists w4. rewrite <- app_assoc in Hw4. split; [|exact Hw4].
    cbn [transfer]. fold w1. rewrite En. cbn [res_bind]. rewrite E3. cbn [res_bind]. exact E4.
Qed.
End Transfer.

(** *** A simulated board *)
Module SimBoard.
Definition board : Type := chip * SimUart.port.

#[global] Instance sim_board_bus : Bus board := {|
  dev_val a d :=
    match chip_val a d.1 with
    | Some v => v
    | None => default (if a =? NFSTAT then 1 else if a =? NFECCSTAT then 0x3000000 else dev_val a d.2) (ecc_val a d.1)
    end;
  dev_rd a d := (chip_rd a d.1, dev_rd a d.2);
  dev_wr a v d := (chip_wr a v d.1, dev_wr a v d.2)
|}.

#[global] Instance sim_board_nand : NandChip board 4.
Proof.
  refine {| chip_of := fst; ecc_settled := fun _ => True |}.
  - done.
  - done.
  - intros a d v Hv. unfold dev_val, sim_board_bus. by rewrite Hv.
  - intros a d v _ Hv. unfold dev_val, sim_board_bus. rewrite (ecc_val_only a d.1 v Hv). by rewrite Hv.
  - done.
  - intros [[c p] l]. eexists. split; [reflexivity|done].
  - intros [[c p] l] _ _. eexists. split; [reflexivity|done].
  - intros [[c p] l] _ _. eexists. split; [reflexivity|done].
  - intros [[c p] l] _ _. eexists. split; [reflexivity|done].
Defined.

#[global] Instance sim_board_tx : UartTx board 4.
Proof.
  refine {| tx_ok := fun d => (SimUart.busy d.2 <= SimUart.latency)%nat |}.
  - intros [[c [b s i m]] l] Hb. cbn [dev SimUart.busy snd] in Hb. unfold SimUart.latency in Hb.
    destruct b as [|[|[|[|b]]]]; [| | | |lia]; destruct i; (eexists; split; [reflexivity|]);
      apply (bool_decide_unpack _); reflexivity.
  - intros v [c [b s i m]] _. cbn [dev_wr sim_board_bus snd]. unfold dev_wr, SimUart.port_bus.
    by rewrite decide_True by done.
Defined.

#[global] Instance sim_board : Board board 4.
Proof.
  refine {| board_nand := _; board_tx := _ |}.
  - intros a [c [b s i m]] Hb. cbn in Hb |- *. repeat case_decide; cbn; lia.
  - intros a v [c [b s i m]] Hb. cbn in Hb |- *. repeat case_decide; cbn; lia.
Defined.

Definition powered : hw board :=
  Hw (Chip ∅ [] 0 0 0 [] [] 0 [], SimUart.Port 0 [] [] ∅) [].
Definition fresh : spl board := Spl (replicate 2048 0) 0 0 (replicate 128 0) 0 powered.
End SimBoard.

Lemma joined_ok (l : list (Z * list Z)) :
  Forall (fun p => byte_list p.2 /\ length p.2 = 128%nat) l ->
  length (mjoin l.*2) = (128 * length l)%nat /\ byte_list (mjoin l.*2).
Proof.
  intros Hl. induction Hl as [|[m d] ps [Hb Hd] _ [IH1 IH2]]; [by split; [|constructor]|].
  change (mjoin ((m, d) :: ps).*2) with (d ++ mjoin ps.*2). cbn [snd] in *. rewrite length_app, IH1, Hd.
  split; [cbn [length]; lia|by apply Forall_app].
Qed.

Section Properties.
Context {D : Type} {B : Bus D} {E : EccCodec} {fuel : nat} {Bd : Board D fuel}.

(** C1: a whole download.  The receiver waits for the first packet, the flash
    address points at the first page of a block, and packets (with any packet numbers) arrive
    one byte per poll within the timeouts, followed by EOT.  Then every poll returns, the
    receiver leaves the transfer, and the flash holds the file: page after page of 2048 bytes
    with their codes, one more page with the rest of the file followed by what the page
    buffer still held, the remainder of the last block erased, and all other pages as
    before. *)
Theorem download_programs_flash r0 n data s pkts ss t_eot x w :
  xmState x = XMSTA_WAIT_TRANS -> xm_wf x -> frame_offset x = 0 ->
  resting (ops := spl_ops fuel) w -> can_send w -> sane w ->
  length (nand_buff w) = 2048%nat -> byte_list (nand_buff w) -> buff_offset w = 0 ->
  0 <= r0 -> r0 mod 64 = 0 -> nand_address w = r0 * 2048 ->
  byte_list data -> length data = 128%nat -> 0 <= n < 256 -> s.*2 = soh_frame n data ->
  Forall (fun p => s32 (p.1 - timestamp_ncg_sent_prev x) < XM_NCG_RESEND_DLY) s ->
  arrive (default 0 (last s.*1)) pkts ss ->
  r0 * 2048 + 128 * (1 + Z.of_nat (length pkts)) < 2 ^ 30 ->
  let file := data ++ mjoin pkts.*2 in
  exists x' w',
    (let* (x1, w1) := deliver (spl_ops fuel) (s ++ mjoin ss) x w in
     xModemFSM (spl_ops fuel) t_eot x1 (push (ops := spl_ops fuel) XM_FRAME_EOT w1)) = Ok (XMSTA_EXIT, x', w') /\
    forall row, page_at (array w') row =
      flashed r0 (pages_of (length file / 2048) file ++ [open_page (nand_buff w) file]) (array w) row.
Proof.
  intros Hst Hwf Ho Hre Hcs Hsane Hbl Hbb Hbo Hr0 Hrm Ha Hdb Hdl Hn Hs Hts Harr Hmax file.
  destruct (deliver_session (spl_ops fuel) n data s pkts ss x w) as (x1 & Hx1 & Hwf1 & Ho1 & Ed); [done..|].
  assert (loaded r0 (array w) (nand_buff w) [] w) as Hl0.
  { split; [done|by rewrite Hbo|done|rewrite Ha; change (length [] / 2048)%nat with 0%nat; lia|].
    intros row. unfold flashed. rewrite decide_False; [done|].
    change ((Z.of_nat (length (pages_of (length [] / 2048) [])) + 63) / 64 * 64) with 0. lia. }
  assert (Forall (fun p : Z * list Z => byte_list p.2 /\ length p.2 = 128%nat) ((n, data) :: pkts)) as Hall.
  { constructor; [done|]. clear -Harr. revert ss Harr. generalize (default 0 (last s.*1)).
    induction pkts as [|[m d] pkts IH]; intros t ss Harr; [constructor|]. destruct ss as [|s' ss]; [done|].
    destruct Harr as (? & ? & _ & _ & _ & Harr). constructor; [done|]. by eapply IH. }
  destruct (transfer_loads r0 (array w) (nand_buff w) (conj Hr0 Hrm) (conj Hbl Hbb) ((n, data) :: pkts) [] w)
    as (w1 & E1 & (Hl1 & Hcs1 & Hre1)); [by constructor|done|cbn [length]; lia|done|].
  change ([] ++ mjoin ((n, data) :: pkts).*2) with file in Hl1.
  rewrite Ed, E1. cbn [res_bind].
  destruct (transmit_eot_byte (spl_ops fuel) t_eot x1 w1) as (f' & Ee); [done..|]. rewrite Ee.
  destruct (absorb_uart [XM_FRAME_EOT] w1 Hre1) as (buf & len & Ea). rewrite Ea.
  pose proof (loaded_uart r0 (array w) (nand_buff w) file w1 buf len Hl1) as [Hs2 Ho2 Hb2 Ha2 Hf2].
  assert (length file = 128 * (1 + length pkts) /\ byte_list file)%nat as [Hfl Hfb].
  { destruct (joined_ok _ Hall) as [Hjl Hjb]. split; [exact Hjl|exact Hjb]. }
  destruct (open_page_ok (nand_buff w) (conj Hbl Hbb) file Hfb) as [Hol Hob].
  assert (length file / 2048 * 2048 <= length file)%nat as Hdiv
    by (rewrite Nat.mul_comm; apply Nat.Div0.mul_div_le).
  destruct (program_tonand_page r0 (pages_of (length file / 2048) file) (array w) (set_uart w1 buf len))
    as (w2 & E2 & _ & _ & _ & _ & _ & Hf3).
  - exact Hs2.
  - by rewrite Hb2.
  - by rewrite Hb2.
  - done.
  - done.
  - rewrite Ha2. unfold pages_of. by rewrite length_fmap, length_seq.
  - rewrite Ha2. lia.
  - exact Hf2.
  - exists (set_xmState (set_frame x1 0 f') XMSTA_EXIT), w2. split.
    + cbn [notify xmCallback spl_ops xmCallback_spl try_program]. by rewrite E2.
    + intros row. rewrite Hf3, Hb2. done.
Qed.
End Properties.

(** ** The menu itself *)
Section MenuFacts.
Context {D : Type} {B : Bus D} {E : EccCodec} {fuel : nat} {Bd : Board D fuel}.

Lemma say_ok fmt args ps out w :
  parse_format fmt = Some ps -> render ps args = Some out -> can_send w ->
  exists w', say fuel fmt args w = Ok w' /\ can_send w' /\ w' = set_machine w (machine w') /\
    wrote (machine w) (machine w') (pair UTXH2 <$> out).
Proof.
  intros Hp Hr Hw. destruct (on_hw_runs _ w _ (sends_uart_printf fmt ps args out Hp Hr (machine w) Hw))
    as (u & w' & E1 & (Hok & Hwr) & Hset).
  exists w'. unfold say. rewrite E1. done.
Qed.

(** A page copied from flash: the ROM routine returns the page and leaves the
    port usable. *)
Definition rom_copies (NF8_ReadPage_Adv : Z -> Z -> list Z -> io D (Z * list Z)) (flash : Z -> list Z) : Prop :=
  forall blk pg buf h, 0 <= pg < 64 -> tx_ok (dev h) ->
    runs (NF8_ReadPage_Adv blk pg buf) h (fun r h' => r.2 = flash (blk * 64 + pg) /\ tx_ok (dev h')).

Lemma copy_pages_ok Adv ram flash n row addr_ram h :
  rom_copies Adv flash -> 0 <= row -> tx_ok (dev h) ->
  runs (copy_pages Adv ram n (row * 2048) addr_ram) h (fun copied h' =>
    copied = (fun i => (addr_ram + 2048 * Z.of_nat i, flash (row + Z.of_nat i))) <$> seq 0 n /\ tx_ok (dev h')).
Proof.
  intros Hrom. revert row addr_ram h. induction n as [|n IH]; intros row addr_ram h Hrow Hok.
  { apply runs_ret. done. }
  cbn [copy_pages]. eapply runs_bind.
  { unfold NF8_ReadPage_8ECC. change (PAGE_SIZE - 1) with (2 ^ 11 - 1). rewrite aligned_tst by lia.
    change (2 ^ 11) with 2048. rewrite Z.mod_mul by lia. cbn [negb Z.eqb]. unfold PAGE_SIZE.
    rewrite Z.div_mul by lia. apply Hrom; [apply Z.mod_pos_bound; done|exact Hok]. }
  cbn beta. intros r h1 [Hr Hok1]. eapply runs_bind.
  { replace (row * 2048 + PAGE_SIZE) with ((row + 1) * 2048) by (unfold PAGE_SIZE; lia).
    apply (IH (row + 1)); [lia|exact Hok1]. }
  intros rest h2 [-> Hok2]. apply runs_ret. split; [|done]. cbn [seq fmap list_fmap].
  rewrite Hr. unfold PAGE_PER_BLK.
  replace (row / 64 * 64 + row mod 64) with row by (Z.to_euclidean_division_equations; lia).
  f_equal; [f_equal; [lia|f_equal; lia]|].
  rewrite <- fmap_S_seq, <- list_fmap_compose. apply list_fmap_ext. intros k i _. cbn.
  unfold PAGE_SIZE. f_equal; [lia|f_equal; lia].
Qed.

(** Booting.  In the boot state one call of [menu] prints its messages, copies the
    128 flash pages from row 8 on (byte addresses 0x4000 to 0x44000) to RAM at
    0x20000000, in order and without gaps, and enters the second stage at 0x20000000. *)
Theorem menu_boot_copies_bl2 Adv ram flash buf0 timestamp c m :
  rom_copies Adv flash -> menu_state m = MENU_BOOT -> can_send (world m) ->
  exists m', menu fuel Adv ram buf0 timestamp c m =
    Ok (RunBl2 0x20000000
      ((fun i => (0x20000000 + 2048 * Z.of_nat i, flash (8 + Z.of_nat i))) <$> seq 0 128) m').
Proof.
  intros Hrom Hst Hw. unfold menu. rewrite Hst. unfold menu_boot.
  assert (exists u w1, on_hw led_off (world m) = Ok (u, w1) /\ can_send w1) as (u & w1 & -> & Hw1).
  { eexists _, _. split; [reflexivity|]. unfold can_send. cbn. by repeat first [apply board_wr|apply board_rd]. }
  cbn [res_bind].
  destruct (say_ok (crlf ++ cstr "Booting..." ++ crlf) [] _ _ w1 eq_refl eq_refl Hw1) as (w2 & -> & Hw2 & _).
  cbn [res_bind]. unfold copybl2ToRamAndRun.
  destruct (say_ok (cstr "size_copy=%d,BL2_nf_addr=0x%X,BL2_ram_addr=0x%X" ++ crlf)
    [VInt size_copy; VInt BL2_NF_ADDR; VInt BL2_RAM_ADDR] _ _ w2 eq_refl eq_refl Hw2) as (w3 & -> & Hw3 & _).
  cbn [res_bind].
  destruct (on_hw_runs _ w3 _ (copy_pages_ok Adv ram flash 128 8 0x20000000 (machine w3) Hrom ltac:(lia) Hw3))
    as (copied & w4 & E4 & (-> & Hw4) & _).
  change (8 * 2048) with BL2_NF_ADDR in E4. change copy_rounds with 128%nat.
  change 0x20000000 with BL2_RAM_ADDR in E4. rewrite E4. cbn [res_bind]. eexists. reflexivity.
Qed.
End MenuFacts.

(** ** The countdown *)
Section Countdown.
Context {D : Type} {B : Bus D} {E : EccCodec} {fuel : nat} {Bd : Board D fuel}.
Context (Adv : Z -> Z -> list Z -> io D (Z * list Z)) (ram : Z -> list Z) (buf0 : list Z).

(** Calls of [menu] at the times [tss] with nothing received. *)
Fixpoint silent (tss : list Z) (m : menu_st D) : res (menu_result D) :=
  match tss with
  | [] => Ok (Stay m)
  | ts :: tss =>
    let* r := menu fuel Adv ram buf0 ts None m in
    match r with Stay m => silent tss m | RunBl2 _ _ _ => Ok r end
  end.

Lemma countdown_ok n w :
  can_send w -> exists w', countdown fuel n w = Ok w' /\ can_send w'.
Proof.
  intros Hw. destruct (say_ok ([13] ++ cstr "Auto boot in %d second...") [VInt n] _ _ w eq_refl eq_refl Hw)
    as (w' & E1 & Hw' & _). by exists w'.
Qed.

(** Counting, [left] seconds left and the last one counted at [t0]. *)
Definition counting (t0 left : Z) (m : menu_st D) : Prop :=
  menu_state m = MENU_AUTO_BOOT /\ timestamp_auto_boot m = t0 /\ auto_boot_timeout m = left /\ can_send (world m).

Lemma count_poll ts t0 left m :
  counting t0 left m -> 0 < t0 <= ts -> ts < 2 ^ 32 -> 0 < left ->
  exists m', menu fuel Adv ram buf0 ts None m = Ok (Stay m') /\
    counting (if 1000 <=? ts - t0 then ts else t0) (if 1000 <=? ts - t0 then left - 1 else left) m'.
Proof.
  intros (Hst & Ht & Hl & Hw) Ht0 Hts Hleft. unfold menu. rewrite Hst. unfold menu_auto_boot.
  rewrite Hl, Ht. destruct (Z.leb_spec left 0); [lia|]. destruct (Z.eqb_spec t0 0); [lia|]. cbn [res_bind].
  rewrite wrap_small by lia. destruct (Z.leb_spec 1000 (ts - t0)).
  - destruct (countdown_ok (left - 1) (world m) Hw) as (w' & -> & Hw'). cbn [res_bind]. eexists. by split.
  - eexists. by split.
Qed.

(** The first call notes the time. *)
Lemma count_first ts m left :
  counting 0 left m -> 0 < ts < 2 ^ 32 -> 0 < left ->
  exists m', menu fuel Adv ram buf0 ts None m = Ok (Stay m') /\ counting ts left m'.
Proof.
  intros (Hst & Ht & Hl & Hw) Hts Hleft. unfold menu. rewrite Hst. unfold menu_auto_boot. rewrite Hl, Ht.
  destruct (Z.leb_spec left 0); [lia|]. cbn [Z.eqb].
  destruct (countdown_ok left (world m) Hw) as (w' & -> & Hw'). cbn [res_bind].
  rewrite Z.sub_diag. cbn. eexists. by split.
Qed.

Lemma count_waits tss t1 t0 left m :
  counting t0 left m -> 0 < t1 <= t0 -> left <= 5 -> t1 + 1000 * (5 - left) <= t0 ->
  (forall i ts, tss !! i = Some ts -> t0 <= ts) ->
  (forall i j a b, tss !! i = Some a -> tss !! j = Some b -> (i <= j)%nat -> a <= b) ->
  Forall (fun ts => ts < t1 + 5000) tss -> t0 < t1 + 5000 -> t1 + 5000 < 2 ^ 32 ->
  exists m', silent tss m = Ok (Stay m') /\ menu_state m' = MENU_AUTO_BOOT.
Proof.
  revert t0 left m. induction tss as [|ts tss IH]; intros t0 left m Hc H1 Hl Hin Hge Hmono Hlt Ht0 Hmax.
  { exists m. split; [done|]. apply Hc. }
  apply Forall_cons in Hlt as [Hts Hlt]. pose proof (Hge 0%nat ts eq_refl) as Hge0.
  destruct (count_poll ts t0 left m Hc) as (m1 & E1 & Hc1); [lia..|].
  cbn [silent]. rewrite E1. cbn [res_bind].
  assert (forall i a, tss !! i = Some a -> ts <= a) as Hnext.
  { intros i a Ha. apply (Hmono 0%nat (S i) ts a); [done|done|lia]. }
  apply (IH _ _ _ Hc1); [..|done| |done].
  - destruct (_ <=? _); lia.
  - destruct (_ <=? _); lia.
  - destruct (Z.leb_spec 1000 (ts - t0)); lia.
  - intros i a Ha. specialize (Hnext i a Ha). destruct (_ <=? _); lia.
  - intros i j a b Ha Hb Hij. apply (Hmono (S i) (S j)); [done|done|lia].
  - destruct (_ <=? _); lia.
Qed.

(** Automatic boot gives the user five seconds: while nothing is received and
    less than 5000 ms have passed since the countdown started, the menu keeps counting, however
    often it is polled. *)
Theorem autoboot_waits_five_seconds tss t1 m :
  counting 0 AUTOBOOT_TIMEOUTS m -> 0 < t1 -> t1 + 5000 < 2 ^ 32 ->
  (forall i j a b, (t1 :: tss) !! i = Some a -> (t1 :: tss) !! j = Some b -> (i <= j)%nat -> a <= b) ->
  Forall (fun ts => ts < t1 + 5000) tss ->
  exists m', silent (t1 :: tss) m = Ok (Stay m') /\ menu_state m' = MENU_AUTO_BOOT.
Proof.
  intros Hc Ht1 Hmax Hmono Hlt. destruct (count_first t1 m _ Hc) as (m1 & E1 & Hc1); [lia|done|].
  cbn [silent]. rewrite E1. cbn [res_bind]. unfold AUTOBOOT_TIMEOUTS in Hc1.
  apply (count_waits tss t1 t1 5 m1 Hc1); [lia..| | |done|lia|done].
  - intros i ts Hi. apply (Hmono 0%nat (S i)); [done|done|lia].
  - intros i j a b Ha Hb Hij. apply (Hmono (S i) (S j)); [done|done|lia].
Qed.

(** C33: automatic boot happens: when nothing is received and the menu, from the start of its
    countdown, is polled at least a second apart, the seventh call finds the countdown at its
    end and enters the boot state.  The first timestamp is not 0 and the clock does not wrap around. *)
Theorem autoboot_boots m t1 t2 t3 t4 t5 t6 t7 :
  counting 0 AUTOBOOT_TIMEOUTS m -> 0 < t1 ->
  t1 + 1000 <= t2 -> t2 + 1000 <= t3 -> t3 + 1000 <= t4 -> t4 + 1000 <= t5 -> t5 + 1000 <= t6 ->
  t6 < 2 ^ 32 ->
  exists m', silent [t1; t2; t3; t4; t5; t6; t7] m = Ok (Stay m') /\ menu_state m' = MENU_BOOT.
Proof.
  intros Hc Ht1 H2 H3 H4 H5 H6 Hmax.
  destruct (count_first t1 m _ Hc) as (m1 & E1 & Hc1); [lia|done|].
  assert (forall ts t0 left m, counting t0 left m -> 0 < t0 -> t0 + 1000 <= ts -> ts < 2 ^ 32 -> 0 < left ->
    exists m', menu fuel Adv ram buf0 ts None m = Ok (Stay m') /\ counting ts (left - 1) m') as Hstep.
  { intros ts t0 left m0 Hc0 Hp Hts Hm Hl. destruct (count_poll ts t0 left m0 Hc0) as (m0' & E0 & Hc0'); [lia..|].
    exists m0'. split; [done|]. by rewrite (proj2 (Z.leb_le _ _)) in Hc0' by lia. }
  destruct (Hstep t2 t1 _ m1 Hc1) as (m2 & E2 & Hc2); [lia..|unfold AUTOBOOT_TIMEOUTS; lia|].
  destruct (Hstep t3 t2 _ m2 Hc2) as (m3 & E3 & Hc3); [lia..|unfold AUTOBOOT_TIMEOUTS; lia|].
  destruct (Hstep t4 t3 _ m3 Hc3) as (m4 & E4 & Hc4); [lia..|unfold AUTOBOOT_TIMEOUTS; lia|].
  destruct (Hstep t5 t4 _ m4 Hc4) as (m5 & E5 & Hc5); [lia..|unfold AUTOBOOT_TIMEOUTS; lia|].
  destruct (Hstep t6 t5 _ m5 Hc5) as (m6 & E6 & Hc6); [lia..|unfold AUTOBOOT_TIMEOUTS; lia|].
  cbn [silent]. rewrite E1; cbn [res_bind]; rewrite E2; cbn [res_bind]; rewrite E3; cbn [res_bind];
    rewrite E4; cbn [res_bind]; rewrite E5; cbn [res_bind]; rewrite E6; cbn [res_bind].
  destruct Hc6 as (Hst & _ & Hl & _). unfold menu. rewrite Hst. unfold menu_auto_boot. rewrite Hl.
  cbn. eexists. by split.
Qed.

(** C40: the download can be made to overrun the receiver's frame buffer from the
    line: [xmGetData] hands over all buffered bytes whatever room it is offered, so 134 bytes
    that hold no valid packet, one per poll within the timeout, make the receiver store
    behind the end of its 133-byte array. *)
Theorem spl_download_overflows stream x (w : spl D) :
  xmState x = XMSTA_TRANSMIT -> xm_wf x -> frame_offset x = 0 -> resting (ops := spl_ops fuel) w ->
  length stream = 134%nat -> packet_head stream.*2 -> in_time (timestamp_soh_recv_prev x) stream ->
  checkSohFrame (take 133 stream.*2) 133 = false ->
  deliver (spl_ops fuel) stream x w = Ub.
Proof. apply deliver_too_many. Qed.
End Countdown.

(** ** Witnesses *)

Lemma fresh_resting : resting (ops := spl_ops 4) SimBoard.fresh.
Proof. split; [split; [done|cbn; lia]|done]. Qed.
Lemma fresh_can_send : can_send SimBoard.fresh.
Proof. unfold can_send. cbn. unfold SimUart.latency. lia. Qed.

(** One packet and the end of the transmission. *)
Lemma download_programs_flash_witness :
  exists x' w',
    (let* (x1, w1) := deliver (spl_ops 4) (Loopback.at_time 5 (soh_frame 1 Loopback.sample) ++ [])
                        (Loopback.idle XMSTA_WAIT_TRANS) SimBoard.fresh in
     xModemFSM (spl_ops 4) 6 x1 (push (ops := spl_ops 4) XM_FRAME_EOT w1)) = Ok (XMSTA_EXIT, x', w') /\
    page_at (array w') 0 = page_image (Loopback.sample ++ replicate 1920 0) /\ page_at (array w') 1 = erased.
Proof.
  destruct (download_programs_flash 0 1 Loopback.sample (Loopback.at_time 5 (soh_frame 1 Loopback.sample)) [] [] 6
    (Loopback.idle XMSTA_WAIT_TRANS) SimBoard.fresh) as (x' & w' & Erun & Hfl).
  - reflexivity.
  - apply Loopback.idle_wf.
  - reflexivity.
  - apply fresh_resting.
  - apply fresh_can_send.
  - by repeat split.
  - reflexivity.
  - apply (bool_decide_unpack _). vm_compute. exact I.
  - reflexivity.
  - lia.
  - reflexivity.
  - reflexivity.
  - apply (bool_decide_unpack _). vm_compute. exact I.
  - reflexivity.
  - lia.
  - vm_compute. reflexivity.
  - apply (bool_decide_unpack _). vm_compute. exact I.
  - exact I.
  - cbn. lia.
  - exists x', w'. split; [exact Erun|]. rewrite !Hfl. split; reflexivity.
Defined.

Definition rom_page (row : Z) : list Z := replicate 2048 (row mod 256).
Definition rom (blk pg : Z) (buf : list Z) : io SimBoard.board (Z * list Z) := io_ret (0, rom_page (blk * 64 + pg)).
Definition at_menu (st : MENU_STATE) : menu_st SimBoard.board :=
  MenuSt SimBoard.fresh (Loopback.idle XMSTA_STOP) st 0 5.

Lemma menu_boot_copies_bl2_witness :
  exists copied m', menu 4 rom (fun _ => []) [] 7 None (at_menu MENU_BOOT) = Ok (RunBl2 0x20000000 copied m') /\
    length copied = 128%nat /\ copied !! 1%nat = Some (0x20000800, rom_page 9).
Proof.
  destruct (menu_boot_copies_bl2 rom (fun _ => []) rom_page [] 7 None (at_menu MENU_BOOT)) as (m' & Erun).
  - intros blk pg buf h _ Hok. eexists _, _. split; [reflexivity|]. split; [reflexivity|exact Hok].
  - reflexivity.
  - apply fresh_can_send.
  - eexists _, m'. split; [exact Erun|]. split; reflexivity.
Defined.

Lemma counting_start : counting 0 AUTOBOOT_TIMEOUTS (at_menu MENU_AUTO_BOOT).
Proof. split; [done|]. split; [done|]. split; [done|]. apply fresh_can_send. Qed.

Lemma autoboot_waits_five_seconds_witness :
  exists m', silent (fuel := 4) rom (fun _ => []) [] [10; 1500; 4900] (at_menu MENU_AUTO_BOOT) = Ok (Stay m') /\
    menu_state m' = MENU_AUTO_BOOT.
Proof.
  apply (autoboot_waits_five_seconds rom (fun _ => []) [] [1500; 4900] 10); [apply counting_start|lia|lia| |].
  - intros [|[|[|i]]] [|[|[|j]]] a b Ha Hb Hij; cbn in *; simplify_eq; lia.
  - apply (bool_decide_unpack _). vm_compute. exact I.
Defined.

Lemma autoboot_boots_witness :
  exists m', silent (fuel := 4) rom (fun _ => []) [] [10; 1010; 2010; 3010; 4010; 5010; 5020] (at_menu MENU_AUTO_BOOT)
    = Ok (Stay m') /\ menu_state m' = MENU_BOOT.
Proof.
  apply (autoboot_boots rom (fun _ => []) [] (at_menu MENU_AUTO_BOOT) 10 1010 2010 3010 4010 5010 5020);
    [apply counting_start|lia..].
Defined.

Lemma spl_download_overflows_witness :
  deliver (spl_ops 4) (Loopback.at_time 5 (replicate 134 0x55)) (Loopback.idle XMSTA_TRANSMIT) SimBoard.fresh = Ub.
Proof.
  apply (spl_download_overflows (fuel := 4)).
  - reflexivity.
  - apply Loopback.idle_wf.
  - reflexivity.
  - apply fresh_resting.
  - reflexivity.
  - intros b [= <-]. split; discriminate.
  - apply (bool_decide_unpack _). vm_compute. exact I.
  - vm_compute. reflexivity.
Defined.
