(* ===== verification/S5pClock.v ===== *)
(** * Clock frequencies of the second stage
    ([arch/arm/cpu/armv7/s5pc1xx/clock.c], [s5p-common/cpu_info.c])

    The frequency of a PLL and of the clocks derived from it, computed from the
    clock registers.  Every function is shown to compute a pure function of the register
    contents; the theorems bound the rounding error of the PLL formula, give the
    peripheral clock, and say when the computation is undefined. *)
From S2P Require Import Prelude Mmio.

Definition S5PV210_CLOCK_BASE := 0xE0100000.
Definition S5PC100_PRO_ID := 0xE0000000.

(** Offsets in [struct s5pc110_clock] and [struct s5pc100_clock]. *)
Definition c110_apll_con := S5PV210_CLOCK_BASE + 0x100.
Definition c110_mpll_con := S5PV210_CLOCK_BASE + 0x108.
Definition c110_epll_con := S5PV210_CLOCK_BASE + 0x110.
Definition c110_vpll_con := S5PV210_CLOCK_BASE + 0x120.
Definition c110_div0 := S5PV210_CLOCK_BASE + 0x300.
Definition c100_apll_con := S5PV210_CLOCK_BASE + 0x100.
Definition c100_mpll_con := S5PV210_CLOCK_BASE + 0x104.
Definition c100_epll_con := S5PV210_CLOCK_BASE + 0x108.
Definition c100_hpll_con := S5PV210_CLOCK_BASE + 0x10C.
Definition c100_div0 := S5PV210_CLOCK_BASE + 0x300.

Definition APLL : Z := 0.
Definition MPLL : Z := 1.
Definition EPLL : Z := 2.
Definition HPLL : Z := 3.
Definition VPLL : Z := 4.
Definition CLK_M : Z := 0.
Definition CLK_D : Z := 1.
Definition CLK_P : Z := 2.
Definition CONFIG_SYS_CLK_FREQ_C100 : Z := 12000000.
Definition CONFIG_SYS_CLK_FREQ_C110 : Z := 24000000.

(** Division of unsigned words. *)
Definition udivl (x y : Z) : res Z := if y =? 0 then Ub else Ok (x / y).

(** [fout = m * (freq / (p * (1 << s)))] *)
Definition pll_fout (m freq p s : Z) : res Z :=
  let* q := udivl freq (u32 (p * (1 .<< s))) in Ok (u32 (m * q)).

Section Clock.
Context {D : Type} {B : Bus D}.

(** [s5p_set_cpu_id]: the processor number and its revision, [s5p_cpu_id] and
    [s5p_cpu_rev], from the product id register. *)
Definition s5p_set_cpu_id : io D (Z * Z) :=
  s5p_cpu_id <- mmio_read S5PC100_PRO_ID ;;
  let s5p_cpu_rev := s5p_cpu_id .& 0x000000FF in
  io_ret (0xC000 .| ((s5p_cpu_id .& 0x00FFF000) .>> 12), s5p_cpu_rev).

Definition arch_cpu_init : io D (Z * (Z * Z)) :=
  ids <- s5p_set_cpu_id ;;
  io_ret (0, ids).

Definition get_device_type (s5p_cpu_id : Z) : Z := s5p_cpu_id.

Definition cpu_is_s5pc110 (s5p_cpu_id : Z) : bool := s5p_cpu_id =? 0xc110.

Definition s5pc100_get_pll_clk (pllreg : Z) : io D Z :=
  let fields (con : Z) : io D Z :=
    r <- mmio_read con ;;
    let mask := if pllreg =? APLL then 0x3ff else 0x0ff in
    let m := (r .>> 16) .& mask in
    let p := (r .>> 8) .& 0x3f in
    let s := r .& 0x7 in
    io_lift (pll_fout m CONFIG_SYS_CLK_FREQ_C100 p s) in
  if pllreg =? APLL then fields c100_apll_con
  else if pllreg =? MPLL then fields c100_mpll_con
  else if pllreg =? EPLL then fields c100_epll_con
  else if pllreg =? HPLL then fields c100_hpll_con
  else io_ret 0.

Definition s5pc110_get_pll_clk (pllreg : Z) : io D Z :=
  let fields (con : Z) : io D Z :=
    r <- mmio_read con ;;
    let mask := if (pllreg =? APLL) || (pllreg =? MPLL) then 0x3ff else 0x1ff in
    let m := (r .>> 16) .& mask in
    let p := (r .>> 8) .& 0x3f in
    let s := r .& 0x7 in
    if pllreg =? APLL then
      let s := if s <? 1 then 1 else s in
      io_lift (pll_fout m CONFIG_SYS_CLK_FREQ_C110 p (s - 1))
    else io_lift (pll_fout m CONFIG_SYS_CLK_FREQ_C110 p s) in
  if pllreg =? APLL then fields c110_apll_con
  else if pllreg =? MPLL then fields c110_mpll_con
  else if pllreg =? EPLL then fields c110_epll_con
  else if pllreg =? VPLL then fields c110_vpll_con
  else io_ret 0.

(** The processor variant selects the formulas. *)
Context (s5p_cpu_id : Z).

Definition get_pll_clk (pllreg : Z) : io D Z :=
  if cpu_is_s5pc110 s5p_cpu_id then s5pc110_get_pll_clk pllreg else s5pc100_get_pll_clk pllreg.

Definition s5pc110_get_arm_clk : io D Z :=
  div <- mmio_read c110_div0 ;;
  let apll_ratio := div .& 0x7 in
  f <- get_pll_clk APLL ;;
  io_ret (f / (apll_ratio + 1)).

Definition s5pc100_get_arm_clk : io D Z :=
  div <- mmio_read c100_div0 ;;
  let arm_ratio := (div .>> 4) .& 0x7 in
  let apll_ratio := div .& 0x1 in
  f <- get_pll_clk APLL ;;
  let dout_apll := f / (apll_ratio + 1) in
  io_ret (dout_apll / (arm_ratio + 1)).

Definition get_arm_clk : io D Z :=
  if cpu_is_s5pc110 s5p_cpu_id then s5pc110_get_arm_clk else s5pc100_get_arm_clk.

Definition get_hclk : io D Z :=
  div <- mmio_read c100_div0 ;;
  let d0_bus_ratio := (div .>> 8) .& 0x7 in
  f <- get_arm_clk ;;
  io_ret (f / (d0_bus_ratio + 1)).

Definition get_pclkd1 : io D Z :=
  div <- mmio_read c100_div0 ;;
  let d1_bus_ratio := (div .>> 12) .& 0x7 in
  let pclkd1_ratio := (div .>> 16) .& 0x7 in
  f <- get_pll_clk MPLL ;;
  let d1_bus := f / (d1_bus_ratio + 1) in
  io_ret (d1_bus / (pclkd1_ratio + 1)).

Definition get_hclk_sys (dom : Z) : io D Z :=
  if dom =? CLK_M then get_hclk
  else
    div <- mmio_read c110_div0 ;;
    let offset := 8 + (dom .<< 0x3) in
    let hclk_sys_ratio := (div .>> offset) .& 0xf in
    f <- get_pll_clk MPLL ;;
    io_ret (f / (hclk_sys_ratio + 1)).

Definition get_pclk_sys (dom : Z) : io D Z :=
  div <- mmio_read c110_div0 ;;
  let offset := 12 + (dom .<< 0x3) in
  let pclk_sys_ratio := (div .>> offset) .& 0x7 in
  f <- get_hclk_sys dom ;;
  io_ret (f / (pclk_sys_ratio + 1)).

Definition s5pc110_get_pclk : io D Z := get_pclk_sys CLK_P.
Definition s5pc100_get_pclk : io D Z := get_pclkd1.

Definition s5pc1xx_get_uart_clk (dev_index : Z) : io D Z :=
  if cpu_is_s5pc110 s5p_cpu_id then s5pc110_get_pclk else s5pc100_get_pclk.
Definition s5pc1xx_get_pwm_clk : io D Z :=
  if cpu_is_s5pc110 s5p_cpu_id then s5pc110_get_pclk else s5pc100_get_pclk.

Definition get_pwm_clk : io D Z := s5pc1xx_get_pwm_clk.
Definition get_uart_clk (dev_index : Z) : io D Z := s5pc1xx_get_uart_clk dev_index.
Definition set_mmc_clk (dev_index div : Z) : io D unit := io_ret tt.
End Clock.

(** ** The formulas as functions of the registers *)

Definition bits (v shift width : Z) : Z := v / 2 ^ shift mod 2 ^ width.

Lemma bits_land v shift width mask :
  0 <= shift -> 0 <= width -> mask = 2 ^ width - 1 -> (v .>> shift) .& mask = bits v shift width.
Proof.
  intros Hs Hw ->. by rewrite Z.sub_1_r, <- Z.ones_equiv, Z.land_ones, Z.shiftr_div_pow2 by lia.
Qed.

Lemma bits_lt v shift width : 0 <= width -> 0 <= bits v shift width < 2 ^ width.
Proof. intros Hw. apply Z.mod_pos_bound. lia. Qed.

(** The exact output frequency of a PLL with input [freq], rounded down. *)
Definition pll_exact (m freq p s : Z) : Z := m * freq / (p * 2 ^ s).

(** Dividing first loses less than [m] hertz; nothing overflows as long as the exact
    frequency fits a word. *)
Lemma pll_fout_bound m freq p s :
  0 <= m < 1024 -> 0 < p < 64 -> 0 <= s < 8 -> 0 <= freq -> m * freq < p * 2 ^ s * 2 ^ 32 ->
  exists f, pll_fout m freq p s = Ok f /\ f <= pll_exact m freq p s /\ pll_exact m freq p s - f <= m.
Proof.
  intros Hm Hp Hs Hf Hov. unfold pll_fout, udivl, pll_exact.
  rewrite Z.shiftl_mul_pow2, Z.mul_1_l by lia.
  assert (1 <= 2 ^ s <= 128) by (split; [lia|]; change 128 with (2 ^ 7); apply Z.pow_le_mono_r; lia).
  rewrite wrap_small by nia. set (d := p * 2 ^ s) in *.
  assert (0 < d) by (unfold d; nia). destruct (Z.eqb_spec d 0); [lia|]. cbn [res_bind].
  pose proof (Z.mul_div_le freq d ltac:(lia)). pose proof (Z.mul_succ_div_gt freq d ltac:(lia)).
  assert (0 <= freq / d) by (apply Z.div_pos; lia).
  assert (m * (freq / d) <= m * freq / d) as Hle.
  { apply Z.div_le_lower_bound; [lia|]. nia. }
  assert (m * freq / d < 2 ^ 32) by (apply Z.div_lt_upper_bound; nia).
  rewrite wrap_small by nia. eexists. split; [done|]. split; [done|].
  assert (m * freq / d <= m * (freq / d) + m); [|lia].
  apply Z.lt_succ_r, Z.div_lt_upper_bound; nia.
Qed.

(** The four PLLs of the S5PV210: number, control register, width of MDIV. *)
Definition c110_plls : list (Z * (Z * Z)) :=
  [(APLL, (c110_apll_con, 10)); (MPLL, (c110_mpll_con, 10)); (EPLL, (c110_epll_con, 9)); (VPLL, (c110_vpll_con, 9))].

(** The exponent of the post divider: APLL's counts from one, and zero is taken as
    one. *)
Definition post_shift (pllreg r : Z) : Z :=
  if pllreg =? APLL then Z.max 1 (bits r 0 3) - 1 else bits r 0 3.

Section Facts.
Context {D : Type} {B : Bus D} {RB : RegBus D}.

Lemma asks_pll_110 pllreg con width :
  (pllreg, (con, width)) ∈ c110_plls ->
  asks (s5pc110_get_pll_clk pllreg)
    (fun R => pll_fout (bits (R con) 16 width) 24000000 (bits (R con) 8 6) (post_shift pllreg (R con))).
Proof.
  assert (forall r mask w, 0 <= w -> mask = 2 ^ w - 1 -> (r .>> 16) .& mask = bits r 16 w) as Hm
    by (intros; by apply bits_land).
  assert (forall r, (r .>> 8) .& 0x3f = bits r 8 6) as Hp by (intros; by apply bits_land).
  assert (forall r, r .& 0x7 = bits r 0 3) as Hs.
  { intros r. rewrite <- (bits_land r 0 3 0x7) by done. by rewrite Z.shiftr_0_r. }
  intros Hin. unfold c110_plls in Hin.
  repeat (apply elem_of_cons in Hin as [[= -> -> ->]|Hin]); [..|by apply elem_of_nil in Hin];
    unfold s5pc110_get_pll_clk; cbn [Z.eqb APLL MPLL EPLL VPLL orb Pos.eqb];
    (eapply asks_ext; [eapply asks_bind; [apply asks_read|intros r; apply asks_lift]|]);
    intros R; cbn [res_bind]; unfold post_shift; cbn [Z.eqb APLL MPLL EPLL VPLL Pos.eqb];
    rewrite Hp, Hs.
  - rewrite (Hm _ _ 10) by done. f_equal. destruct (Z.ltb_spec (bits (R c110_apll_con) 0 3) 1); lia.
  - by rewrite (Hm _ _ 10).
  - by rewrite (Hm _ _ 9).
  - by rewrite (Hm _ _ 9).
Qed.

(** The peripheral clock on the S5PV210. *)
Definition pwm_rate (R : contents) : res Z :=
  let* f := pll_fout (bits (R c110_mpll_con) 16 10) 24000000 (bits (R c110_mpll_con) 8 6)
              (post_shift MPLL (R c110_mpll_con)) in
  Ok (f / (bits (R c110_div0) 24 4 + 1) / (bits (R c110_div0) 28 3 + 1)).

Lemma asks_pwm_clk : asks (get_pwm_clk 0xc110) pwm_rate.
Proof.
  unfold get_pwm_clk, s5pc1xx_get_pwm_clk, cpu_is_s5pc110. rewrite Z.eqb_refl.
  unfold s5pc110_get_pclk, get_pclk_sys, get_hclk_sys, get_pll_clk, cpu_is_s5pc110.
  rewrite Z.eqb_refl. cbn [Z.eqb CLK_P CLK_M].
  eapply asks_ext.
  { eapply asks_bind; [apply asks_read|]. intros div. eapply asks_bind.
    - eapply asks_bind; [apply asks_read|]. intros div'. eapply asks_bind.
      + apply (asks_pll_110 MPLL c110_mpll_con 10). in_list.
      + intros f. apply asks_ret.
    - intros f. apply asks_ret. }
  intros R. unfold pwm_rate. cbn [res_bind]. destruct (pll_fout _ _ _ _) as [f| |]; cbn [res_bind]; [|done..].
  change (8 + (2 .<< 3)) with 24. change (12 + (2 .<< 3)) with 28.
  by rewrite (bits_land _ 24 4 0xf), (bits_land _ 28 3 0x7) by done.
Qed.
End Facts.

(** ** Properties *)

(** The frequency of each PLL of the S5PV210.  With a zero pre-divider field the
    computation is undefined; otherwise, as long as the true frequency fits 32 bits, the
    result is at most the true frequency MDIV * 24 MHz / (PDIV * 2^SDIV) rounded down and
    falls short of it by at most MDIV hertz (the source divides before it multiplies). *)
Theorem s5pc110_pll_clk_accurate {D} {B : Bus D} {RB : RegBus D} pllreg con width (h : hw D) :
  (pllreg, (con, width)) ∈ c110_plls ->
  let r := reg con (dev h) in
  let m := bits r 16 width in let p := bits r 8 6 in let s := post_shift pllreg r in
  (p = 0 -> s5pc110_get_pll_clk pllreg h = Ub) /\
  (p <> 0 -> m * 24000000 < p * 2 ^ s * 2 ^ 32 ->
    exists f h', s5pc110_get_pll_clk pllreg h = Ok (f, h') /\
      pll_exact m 24000000 p s - m <= f <= pll_exact m 24000000 p s).
Proof.
  intros Hin r m p s. pose proof (asks_pll_110 pllreg con width Hin h _ (reflexivity _)) as Ha.
  cbv beta in Ha. change (contents_of (dev h) con) with r in Ha. fold m p s in Ha.
  pose proof (bits_lt r 8 6) as Hp. fold p in Hp.
  assert (0 <= m < 1024) as Hm.
  { assert (width = 10 \/ width = 9) as [->| ->].
    { unfold c110_plls in Hin. repeat (apply elem_of_cons in Hin as [[= -> -> ->]|Hin]; [tauto|]).
      by apply elem_of_nil in Hin. }
    - pose proof (bits_lt r 16 10). unfold m. lia.
    - pose proof (bits_lt r 16 9). unfold m. lia. }
  assert (0 <= s < 8) as Hs.
  { unfold s, post_shift. pose proof (bits_lt r 0 3). destruct (pllreg =? APLL); lia. }
  split.
  - intros Hp0. rewrite Hp0 in Ha. unfold pll_fout, udivl in Ha. rewrite Z.mul_0_l in Ha. exact Ha.
  - intros Hp0 Hov. destruct (pll_fout_bound m 24000000 p s) as (f & Ef & H1 & H2); [lia|lia|lia|lia|done|].
    rewrite Ef in Ha. destruct Ha as (h' & E & _). exists f, h'. split; [done|lia].
Qed.

(** MPLL at 667 MHz, PSYS bus at a fifth of it, its peripherals at half of that. *)
Definition psys_regs : RegFile.regs := {[ c110_mpll_con := 0xA29B0C01; c110_div0 := 0x14131440 ]}.

Lemma s5pc110_pll_clk_accurate_witness :
  exists f h', s5pc110_get_pll_clk MPLL (Hw psys_regs []) = Ok (f, h') /\
    pll_exact 667 24000000 12 1 - 667 <= f <= pll_exact 667 24000000 12 1.
Proof.
  destruct (s5pc110_pll_clk_accurate MPLL c110_mpll_con 10 (Hw psys_regs [])) as [_ H].
  - in_list.
  - destruct H as (f & h' & Erun & Hf); [vm_compute; congruence|vm_compute; reflexivity|].
    exists f, h'. split; [exact Erun|exact Hf].
Defined.

(** The clock of the PWM timers and UARTs on the S5PV210 is MPLL divided by the
    product of the PSYS bus ratio and the peripheral ratio, whatever the register contents
    (MPLL's own computation deciding whether it is defined). *)
Theorem pwm_clk_divides_mpll {D} {B : Bus D} {RB : RegBus D} (h : hw D) f h1 :
  s5pc110_get_pll_clk MPLL h = Ok (f, h1) ->
  let div := reg c110_div0 (dev h) in
  (exists h', get_pwm_clk 0xc110 h = Ok (f / ((bits div 24 4 + 1) * (bits div 28 3 + 1)), h')) /\
  (exists h', get_uart_clk 0xc110 2 h = Ok (f / ((bits div 24 4 + 1) * (bits div 28 3 + 1)), h')).
Proof.
  intros Hf div. assert (exists h', get_pwm_clk 0xc110 h =
    Ok (f / ((bits div 24 4 + 1) * (bits div 28 3 + 1)), h')) as H; [|by split].
  pose proof (asks_pwm_clk h _ (reflexivity _)) as Ha.
  pose proof (asks_pll_110 MPLL c110_mpll_con 10 ltac:(in_list) h _ (reflexivity _)) as Hm.
  unfold pwm_rate in Ha. cbv beta in Hm. destruct (pll_fout _ _ _ _) as [f'| |]; [|congruence..].
  destruct Hm as (h2 & Em & _). rewrite Em in Hf. injection Hf as <- <-. cbn [res_bind] in Ha.
  destruct Ha as (h' & E & _). exists h'. rewrite E. unfold div. do 2 f_equal.
  pose proof (bits_lt (reg c110_div0 (dev h)) 24 4). pose proof (bits_lt (reg c110_div0 (dev h)) 28 3).
  by rewrite <- Z.div_div by lia.
Qed.

Lemma pwm_clk_divides_mpll_witness :
  (exists h', get_pwm_clk 0xc110 (Hw psys_regs []) = Ok (66700000, h')) /\
  (exists h', get_uart_clk 0xc110 2 (Hw psys_regs []) = Ok (66700000, h')).
Proof.
  assert (Hratio : 667000000 / ((bits (reg c110_div0 psys_regs) 24 4 + 1) * (bits (reg c110_div0 psys_regs) 28 3 + 1))
    = 66700000) by (vm_compute; reflexivity).
  rewrite <- Hratio. eapply (pwm_clk_divides_mpll (Hw psys_regs []) 667000000). vm_compute. reflexivity.
Defined.
