(* ===== verification/S5pGpio.v ===== *)
(** * GPIO pins and the static memory controller
    ([drivers/gpio/s5p_gpio.c], [arch/arm/cpu/armv7/s5p-common/sromc.c],
    [board/samsung/smdkv210/smdkv210.c])

    A bank of eight pins has a function register (four bits per pin), a data register
    (one bit), a pull register (two bits) and a drive register (two bits of strength,
    and a slew rate bit from bit 16 on).  The theorems say that every operation changes
    the field of its own pin and nothing else. *)
From S2P Require Import Prelude Mmio.

Definition S5PV210_GPIO_BASE := 0xE0200000.
Definition S5PV210_SROMC_BASE := 0xE8000000.

(** [struct s5p_gpio_bank]; a bank is given by its address. *)
Definition bank_con (bank : Z) : Z := bank.
Definition bank_dat (bank : Z) : Z := bank + 4.
Definition bank_pull (bank : Z) : Z := bank + 8.
Definition bank_drv (bank : Z) : Z := bank + 0xC.

Definition GPIO_INPUT : Z := 0.
Definition GPIO_OUTPUT : Z := 1.
Definition GPIO_PULL_NONE : Z := 0.
Definition GPIO_PULL_DOWN : Z := 1.
Definition GPIO_PULL_UP : Z := 2.
Definition GPIO_DRV_1X : Z := 0.
Definition GPIO_DRV_3X : Z := 1.
Definition GPIO_DRV_2X : Z := 2.
Definition GPIO_DRV_4X : Z := 3.
Definition GPIO_DRV_FAST : Z := 0.
Definition GPIO_DRV_SLOW : Z := 1.

Definition CON_MASK (x : Z) : Z := 0xf .<< (x .<< 2).
Definition CON_SFR (x v : Z) : Z := v .<< (x .<< 2).
Definition DAT_MASK (x : Z) : Z := 0x1 .<< x.
Definition DAT_SET (x : Z) : Z := 0x1 .<< x.
Definition PULL_MASK (x : Z) : Z := 0x3 .<< (x .<< 1).
Definition PULL_MODE (x v : Z) : Z := v .<< (x .<< 1).
Definition DRV_MASK (x : Z) : Z := 0x3 .<< (x .<< 1).
Definition DRV_SET (x m : Z) : Z := m .<< (x .<< 1).
Definition RATE_MASK (x : Z) : Z := 0x1 .<< (x + 16).
Definition RATE_SET (x : Z) : Z := 0x1 .<< (x + 16).

(** A GPIO number: bank offset in bits 8 to 23, pin in the low byte. *)
Definition S5P_GPIO_GET_BANK (x : Z) : Z := (x .>> 8) .& 0xffff.
Definition S5P_GPIO_GET_PIN (x : Z) : Z := x .& 0xff.

Section Gpio.
Context {D : Type} {B : Bus D}.

Definition s5p_gpio_cfg_pin (bank gpio cfg : Z) : io D unit :=
  value <- mmio_read (bank_con bank) ;;
  let value := u32 (value .& ~32 (CON_MASK gpio)) in
  let value := u32 (value .| CON_SFR gpio cfg) in
  mmio_write (bank_con bank) value.

Definition s5p_gpio_set_value (bank gpio en : Z) : io D unit :=
  value <- mmio_read (bank_dat bank) ;;
  let value := u32 (value .& ~32 (DAT_MASK gpio)) in
  let value := if en =? 0 then value else u32 (value .| DAT_SET gpio) in
  mmio_write (bank_dat bank) value.

Definition s5p_gpio_direction_output (bank gpio en : Z) : io D unit :=
  s5p_gpio_cfg_pin bank gpio GPIO_OUTPUT ;;;
  s5p_gpio_set_value bank gpio en.

Definition s5p_gpio_direction_input (bank gpio : Z) : io D unit :=
  s5p_gpio_cfg_pin bank gpio GPIO_INPUT.

Definition s5p_gpio_get_value (bank gpio : Z) : io D Z :=
  value <- mmio_read (bank_dat bank) ;;
  io_ret (if tst value (DAT_MASK gpio) then 1 else 0).

Definition s5p_gpio_set_pull (bank gpio mode : Z) : io D unit :=
  value <- mmio_read (bank_pull bank) ;;
  let value := u32 (value .& ~32 (PULL_MASK gpio)) in
  let value := if (mode =? GPIO_PULL_DOWN) || (mode =? GPIO_PULL_UP)
               then u32 (value .| PULL_MODE gpio mode) else value in
  mmio_write (bank_pull bank) value.

Definition s5p_gpio_set_drv (bank gpio mode : Z) : io D unit :=
  value <- mmio_read (bank_drv bank) ;;
  let value := u32 (value .& ~32 (DRV_MASK gpio)) in
  if (mode =? GPIO_DRV_1X) || (mode =? GPIO_DRV_2X) || (mode =? GPIO_DRV_3X) || (mode =? GPIO_DRV_4X)
  then mmio_write (bank_drv bank) (u32 (value .| DRV_SET gpio mode))
  else io_ret tt.

Definition s5p_gpio_set_rate (bank gpio mode : Z) : io D unit :=
  value <- mmio_read (bank_drv bank) ;;
  let value := u32 (value .& ~32 (RATE_MASK gpio)) in
  if (mode =? GPIO_DRV_FAST) || (mode =? GPIO_DRV_SLOW)
  then mmio_write (bank_drv bank) (u32 (value .| RATE_SET gpio))
  else io_ret tt.

Definition s5p_gpio_get_bank (gpio : Z) : Z :=
  let bank := S5P_GPIO_GET_BANK gpio in
  let base := S5PV210_GPIO_BASE in
  base + bank.

Definition s5p_gpio_get_pin (gpio : Z) : Z := S5P_GPIO_GET_PIN gpio.

Definition gpio_request (gpio : Z) (label : string) : io D Z := io_ret 0.
Definition gpio_free (gpio : Z) : io D Z := io_ret 0.

Definition gpio_direction_input (gpio : Z) : io D Z :=
  s5p_gpio_direction_input (s5p_gpio_get_bank gpio) (s5p_gpio_get_pin gpio) ;;; io_ret 0.

Definition gpio_direction_output (gpio value : Z) : io D Z :=
  s5p_gpio_direction_output (s5p_gpio_get_bank gpio) (s5p_gpio_get_pin gpio) value ;;; io_ret 0.

Definition gpio_get_value (gpio : Z) : io D Z :=
  s5p_gpio_get_value (s5p_gpio_get_bank gpio) (s5p_gpio_get_pin gpio).

Definition gpio_set_value (gpio value : Z) : io D Z :=
  s5p_gpio_set_value (s5p_gpio_get_bank gpio) (s5p_gpio_get_pin gpio) value ;;; io_ret 0.

(** *** The static memory controller: [bw], then six bank registers. *)
Definition sromc_bw : Z := S5PV210_SROMC_BASE.
Definition sromc_bc (i : Z) : Z := S5PV210_SROMC_BASE + 4 + 4 * i.

Definition s5p_config_sromc (srom_bank srom_bw_conf srom_bc_conf : Z) : io D unit :=
  tmp <- mmio_read sromc_bw ;;
  let tmp := u32 (tmp .& ~32 (0xF .<< (srom_bank * 4))) in
  let tmp := u32 (tmp .| srom_bw_conf) in
  mmio_write sromc_bw tmp ;;;
  mmio_write (sromc_bc srom_bank) srom_bc_conf.

(** *** Board initialisation: Ethernet on bank 3.  The board file takes the bank layout
    of the S5PC100, where K0 is bank number 21. *)
Definition CONFIG_ENV_SROM_BANK : Z := 3.
Definition s5pc100_gpio_k0 : Z := S5PV210_GPIO_BASE + 21 * 0x20.

Definition smc9115_pre_init : io D unit :=
  s5p_gpio_cfg_pin s5pc100_gpio_k0 CONFIG_ENV_SROM_BANK 2 ;;;
  let smc_bw_conf := 1 .<< (CONFIG_ENV_SROM_BANK * 4 + 0) in
  let smc_bc_conf := (0x0 .<< 28) .| (0x4 .<< 24) .| (0xe .<< 16) .| (0x1 .<< 12)
                     .| (0x4 .<< 8) .| (0x6 .<< 4) .| (0x0 .<< 0) in
  s5p_config_sromc CONFIG_ENV_SROM_BANK smc_bw_conf smc_bc_conf.
End Gpio.

(** ** Effects *)

(** [m] puts [v] into the [n]-bit field at bit [lo] of register [a] and leaves the rest
    of that register and all other registers as they were. *)
Definition sets_field {D A} {B : Bus D} {RB : RegBus D} (m : io D A) (a lo n v : Z) : Prop :=
  forall h, runs m h (fun _ h' =>
    field_set (reg a (dev h)) (reg a (dev h')) lo n v /\
    forall b, b <> a -> reg b (dev h') = reg b (dev h)).

Section Facts.
Context {D : Type} {B : Bus D} {RB : RegBus D}.

Lemma sets_field_modify (a lo n v : Z) (g : Z -> Z) :
  (forall x, 0 <= x < 2 ^ 32 -> field_set x (u32 (g x)) lo n v) ->
  sets_field (x <- mmio_read a ;; mmio_write a (g x)) a lo n v.
Proof.
  intros Hg h. eapply runs_mono; [apply does_runs, does_modify|]. intros [] h' [_ Hr].
  split; [|intros b Hb; by rewrite Hr, upd_ne].
  rewrite Hr, upd_eq. apply Hg, reg_range.
Qed.

(** A field replaced in two assignments, the second of which may put a zero. *)
Lemma field_put old lo n v :
  0 <= lo -> 0 <= n -> lo + n <= 32 -> 0 <= v < 2 ^ n -> 0 <= old < 2 ^ 32 ->
  field_set old (u32 (u32 (u32 (old .& ~32 ((2 ^ n - 1) .<< lo)) .| (v .<< lo)))) lo n v.
Proof. intros. rewrite wrap_idem. by apply field_replace. Qed.

Lemma field_clear old lo n :
  0 <= lo -> 0 <= n -> lo + n <= 32 -> 0 <= old < 2 ^ 32 ->
  field_set old (u32 (u32 (old .& ~32 ((2 ^ n - 1) .<< lo)))) lo n 0.
Proof.
  intros. pose proof (field_put old lo n 0) as H'. rewrite Z.shiftl_0_l, Z.lor_0_r in H'.
  rewrite !wrap_idem in *. apply H'; lia.
Qed.

Lemma shl2 x : x .<< 2 = 4 * x.
Proof. rewrite Z.shiftl_mul_pow2; lia. Qed.
Lemma shl1 x : x .<< 1 = 2 * x.
Proof. rewrite Z.shiftl_mul_pow2; lia. Qed.

Lemma cfg_pin_sets bank pin cfg :
  0 <= pin < 8 -> 0 <= cfg < 16 ->
  sets_field (s5p_gpio_cfg_pin bank pin cfg) (bank_con bank) (4 * pin) 4 cfg.
Proof.
  intros Hp Hc. apply (sets_field_modify _ _ _ _ (fun x => u32 (u32 (x .& ~32 (CON_MASK pin)) .| CON_SFR pin cfg))).
  intros x Hx. unfold CON_MASK, CON_SFR. rewrite (shl2 pin).
  apply (field_put x (4 * pin) 4 cfg); lia.
Qed.

Lemma set_value_sets bank pin en :
  0 <= pin < 32 ->
  sets_field (s5p_gpio_set_value bank pin en) (bank_dat bank) pin 1 (if en =? 0 then 0 else 1).
Proof.
  intros Hp. apply (sets_field_modify _ _ _ _ (fun x => let v := u32 (x .& ~32 (DAT_MASK pin)) in
    if en =? 0 then v else u32 (v .| DAT_SET pin))).
  intros x Hx. cbv zeta. unfold DAT_MASK, DAT_SET. destruct (en =? 0).
  - apply (field_clear x pin 1); lia.
  - apply (field_put x pin 1 1); lia.
Qed.

Lemma set_pull_sets bank pin mode :
  0 <= pin < 16 ->
  sets_field (s5p_gpio_set_pull bank pin mode) (bank_pull bank) (2 * pin) 2
    (if (mode =? GPIO_PULL_DOWN) || (mode =? GPIO_PULL_UP) then mode else GPIO_PULL_NONE).
Proof.
  intros Hp. apply (sets_field_modify _ _ _ _ (fun x => let v := u32 (x .& ~32 (PULL_MASK pin)) in
    if (mode =? GPIO_PULL_DOWN) || (mode =? GPIO_PULL_UP) then u32 (v .| PULL_MODE pin mode) else v)).
  intros x Hx. cbv zeta. unfold PULL_MASK, PULL_MODE. rewrite (shl1 pin).
  unfold GPIO_PULL_DOWN, GPIO_PULL_UP. destruct (Z.eqb_spec mode 1), (Z.eqb_spec mode 2); simpl orb; cbn iota.
  4: apply (field_clear x (2 * pin) 2); lia.
  all: apply (field_put x (2 * pin) 2 mode); lia.
Qed.

Lemma set_drv_sets bank pin mode :
  0 <= pin < 16 -> 0 <= mode < 4 ->
  sets_field (s5p_gpio_set_drv bank pin mode) (bank_drv bank) (2 * pin) 2 mode.
Proof.
  intros Hp Hm h. unfold s5p_gpio_set_drv.
  assert ((mode =? GPIO_DRV_1X) || (mode =? GPIO_DRV_2X) || (mode =? GPIO_DRV_3X) || (mode =? GPIO_DRV_4X)
    = true) as ->.
  { unfold GPIO_DRV_1X, GPIO_DRV_2X, GPIO_DRV_3X, GPIO_DRV_4X. lia. }
  revert h. apply (sets_field_modify _ _ _ _ (fun x => u32 (u32 (x .& ~32 (DRV_MASK pin)) .| DRV_SET pin mode))).
  intros x Hx. unfold DRV_MASK, DRV_SET. rewrite (shl1 pin).
  apply (field_put x (2 * pin) 2 mode); lia.
Qed.

Lemma set_rate_sets bank pin mode :
  0 <= pin < 16 -> mode = GPIO_DRV_FAST \/ mode = GPIO_DRV_SLOW ->
  sets_field (s5p_gpio_set_rate bank pin mode) (bank_drv bank) (pin + 16) 1 1.
Proof.
  intros Hp Hm h. unfold s5p_gpio_set_rate.
  assert ((mode =? GPIO_DRV_FAST) || (mode =? GPIO_DRV_SLOW) = true) as ->
    by (unfold GPIO_DRV_FAST, GPIO_DRV_SLOW in *; lia).
  revert h. apply (sets_field_modify _ _ _ _ (fun x => u32 (u32 (x .& ~32 (RATE_MASK pin)) .| RATE_SET pin))).
  intros x Hx. apply (field_put x (pin + 16) 1 1); lia.
Qed.

(** What the pin reads. *)
Lemma get_value_reads bank pin :
  0 <= pin < 32 ->
  does (s5p_gpio_get_value bank pin) (fun R => Z.b2z (Z.testbit (R (bank_dat bank)) pin)) (fun R => R).
Proof.
  intros Hp. eapply does_bind; [apply does_read|]. intros R. eexists _, _. split; [apply does_ret|].
  split; [|done]. unfold tst, DAT_MASK.
  assert (R (bank_dat bank) .& (1 .<< pin) = Z.b2z (Z.testbit (R (bank_dat bank)) pin) .<< pin) as ->.
  { apply Z.bits_inj'. intros i Hi. rewrite Z.land_spec, !Z.shiftl_spec, testbit_1 by lia.
    case_bool_decide as E.
    - replace i with pin by lia. rewrite Z.sub_diag. destruct (Z.testbit _ pin); reflexivity.
    - rewrite andb_false_r. destruct (Z.testbit _ pin); simpl; [|by rewrite Z.bits_0].
      rewrite testbit_1. by rewrite bool_decide_eq_false_2. }
  destruct (Z.testbit _ pin); simpl.
  - rewrite Z.shiftl_1_l. destruct (Z.eqb_spec (2 ^ pin) 0); [lia|done].
  - by rewrite Z.shiftl_0_l.
Qed.

(** Several fields set one after the other. *)
Lemma sets_field_seq (m1 m2 : io D unit) a lo n v P h :
  sets_field m1 a lo n v ->
  (forall h1, field_set (reg a (dev h)) (reg a (dev h1)) lo n v ->
    (forall b, b <> a -> reg b (dev h1) = reg b (dev h)) -> runs m2 h1 P) ->
  runs (m1 ;;; m2) h P.
Proof. intros H1 H2. eapply runs_bind; [apply H1|]. intros [] h1 [Hf Ho]. by apply H2. Qed.

Lemma field_set_bit old new lo v :
  0 <= lo -> field_set old new lo 1 v -> Z.testbit new lo = Z.odd v.
Proof.
  intros Hlo [Hv _]. change (2 ^ 1 - 1) with (Z.ones 1) in Hv.
  rewrite <- Hv, <- Z.bit0_odd, Z.land_spec, Z.shiftr_spec by lia.
  rewrite Z.add_0_l. by rewrite andb_true_r.
Qed.
End Facts.

(** ** Properties *)

(** A pin number of the bank layouts: a multiple of the bank size and one of eight pins. *)
Definition valid_gpio (g : Z) : Prop :=
  S5P_GPIO_GET_BANK g mod 0x20 = 0 /\ 0 <= S5P_GPIO_GET_PIN g < 8.

(** The function of a pin, as configured. *)
Definition pin_function {D} {B : Bus D} {RB : RegBus D} (g : Z) (d : D) : Z :=
  (reg (bank_con (s5p_gpio_get_bank g)) d .>> (4 * s5p_gpio_get_pin g)) .& (2 ^ 4 - 1).

(** The level of a pin, as [gpio_get_value] reports it. *)
Definition pin_level {D} {B : Bus D} {RB : RegBus D} (g : Z) (d : D) : Z :=
  Z.b2z (Z.testbit (reg (bank_dat (s5p_gpio_get_bank g)) d) (s5p_gpio_get_pin g)).

Section PinFacts.
Context {D : Type} {B : Bus D} {RB : RegBus D}.

(** Setting one field of a register does not change another, disjoint one. *)
Lemma field_set_other old new lo n v lo' n' :
  0 <= lo' -> 0 <= n' -> lo' + n' <= lo \/ lo + n <= lo' ->
  field_set old new lo n v -> (new .>> lo') .& (2 ^ n' - 1) = (old .>> lo') .& (2 ^ n' - 1).
Proof.
  intros Hl Hn Hd [_ Hout]. apply Z.bits_inj'. intros i Hi.
  rewrite Z.sub_1_r, <- Z.ones_equiv, !Z.land_spec, !Z.shiftr_spec, Z.testbit_ones_nonneg by lia.
  destruct (Z.ltb_spec i n'); [|by rewrite !andb_false_r]. by rewrite Hout by lia.
Qed.

(** Registers of different banks, or of different kinds, are different. *)
Lemma bank_regs_apart g g' k k' :
  valid_gpio g -> valid_gpio g' -> 0 <= k < 0x20 -> 0 <= k' < 0x20 ->
  s5p_gpio_get_bank g + k = s5p_gpio_get_bank g' + k' -> s5p_gpio_get_bank g = s5p_gpio_get_bank g' /\ k = k'.
Proof.
  intros [Hb _] [Hb' _] Hk Hk'. unfold s5p_gpio_get_bank.
  pose proof (Z.div_mod (S5P_GPIO_GET_BANK g) 0x20). pose proof (Z.div_mod (S5P_GPIO_GET_BANK g') 0x20). lia.
Qed.

Lemma gpio_get_value_level g h :
  valid_gpio g -> runs (gpio_get_value g) h (fun v h' => v = pin_level g (dev h) /\
    forall a, reg a (dev h') = reg a (dev h)).
Proof.
  intros [_ Hp]. eapply runs_mono; [apply does_runs, get_value_reads; unfold s5p_gpio_get_pin; lia|].
  intros v h' [-> Hr]. by split.
Qed.

(** The level and the function of a pin after one of its registers got a field. *)
Lemma level_after pin v old new :
  0 <= pin -> field_set old new pin 1 v -> 0 <= v < 2 ->
  Z.b2z (Z.testbit new pin) = v.
Proof.
  intros Hp Hf Hv. rewrite (field_set_bit old new pin v) by done.
  assert (v = 0 \/ v = 1) as [-> | ->] by lia; done.
Qed.

Lemma direction_output_pin g g' value h :
  valid_gpio g -> valid_gpio g' ->
  (s5p_gpio_get_bank g, s5p_gpio_get_pin g) <> (s5p_gpio_get_bank g', s5p_gpio_get_pin g') ->
  runs (gpio_direction_output g value) h (fun r h' =>
    r = 0 /\ pin_function g (dev h') = GPIO_OUTPUT /\
    pin_level g (dev h') = (if value =? 0 then 0 else 1) /\
    pin_function g' (dev h') = pin_function g' (dev h) /\ pin_level g' (dev h') = pin_level g' (dev h)).
Proof.
  intros Hg Hg' Hne. pose proof Hg as [_ Hp]. pose proof Hg' as [_ Hp'].
  unfold s5p_gpio_get_pin in *. unfold pin_function, pin_level, s5p_gpio_get_pin.
  pose proof (fun k k' => bank_regs_apart g g' k k' Hg Hg') as Hap.
  unfold gpio_direction_output, s5p_gpio_direction_output, s5p_gpio_get_pin.
  eapply runs_bind with (P := fun _ h' => exists h1,
    (field_set (reg (bank_con (s5p_gpio_get_bank g)) (dev h)) (reg (bank_con (s5p_gpio_get_bank g)) (dev h1))
      (4 * S5P_GPIO_GET_PIN g) 4 GPIO_OUTPUT /\
     forall b, b <> bank_con (s5p_gpio_get_bank g) -> reg b (dev h1) = reg b (dev h)) /\
    (field_set (reg (bank_dat (s5p_gpio_get_bank g)) (dev h1)) (reg (bank_dat (s5p_gpio_get_bank g)) (dev h'))
      (S5P_GPIO_GET_PIN g) 1 (if value =? 0 then 0 else 1) /\
     forall b, b <> bank_dat (s5p_gpio_get_bank g) -> reg b (dev h') = reg b (dev h1))).
  { eapply runs_bind; [apply cfg_pin_sets; unfold GPIO_OUTPUT; lia|]. intros [] h1 H1.
    eapply runs_mono; [apply set_value_sets; lia|]. intros [] h2 H2. by exists h1. }
  intros _ h2 (h1 & [Hc1 Ho1] & [Hd2 Ho2]). apply runs_ret.
  assert (Hcon : reg (bank_con (s5p_gpio_get_bank g)) (dev h2) = reg (bank_con (s5p_gpio_get_bank g)) (dev h1))
    by (apply Ho2; unfold bank_con, bank_dat; lia).
  split; [done|]. split; [rewrite Hcon; apply Hc1|].
  split; [eapply level_after; [lia|exact Hd2|destruct (value =? 0); lia]|].
  destruct (decide (s5p_gpio_get_bank g = s5p_gpio_get_bank g')) as [E|E].
  - rewrite <- E in *. assert (S5P_GPIO_GET_PIN g <> S5P_GPIO_GET_PIN g') by congruence. split.
    + rewrite Hcon. eapply field_set_other; [lia..| |exact Hc1]. lia.
    + f_equal. destruct Hd2 as [_ Hd2]. rewrite Hd2 by lia. f_equal. apply Ho1.
      unfold bank_con, bank_dat. lia.
  - assert (forall k, 0 <= k < 0x20 -> reg (s5p_gpio_get_bank g' + k) (dev h2) = reg (s5p_gpio_get_bank g' + k) (dev h))
      as Hsame.
    { intros k Hk. rewrite Ho2, Ho1; [done|..]; unfold bank_con, bank_dat; intros Heq; apply E.
      - apply (Hap 0 k); lia.
      - apply (Hap 4 k); lia. }
    pose proof (Hsame 0 ltac:(lia)) as H0. rewrite Z.add_0_r in H0.
    unfold bank_con, bank_dat. by rewrite H0, (Hsame 4) by lia.
Qed.
End PinFacts.

(** Driving a pin.  [gpio_direction_output] makes the pin an output, a later
    [gpio_get_value] reads back the level that was asked for, and the function and level of
    every other pin, of the same bank or another, are as before. *)
Theorem gpio_output_isolated {D} {B : Bus D} {RB : RegBus D} g g' value (h : hw D) :
  valid_gpio g -> valid_gpio g' ->
  (s5p_gpio_get_bank g, s5p_gpio_get_pin g) <> (s5p_gpio_get_bank g', s5p_gpio_get_pin g') ->
  runs (gpio_direction_output g value ;;;
        v <- gpio_get_value g ;; v' <- gpio_get_value g' ;; io_ret (v, v')) h
    (fun r h' => r = (if value =? 0 then 0 else 1, pin_level g' (dev h)) /\
      pin_function g (dev h') = GPIO_OUTPUT /\ pin_function g' (dev h') = pin_function g' (dev h)).
Proof.
  intros Hg Hg' Hne.
  eapply runs_bind; [by apply (direction_output_pin g g')|]. intros r h1 (_ & Hf & Hl & Hf' & Hl').
  eapply runs_bind; [by apply gpio_get_value_level|]. intros v h2 [-> H2].
  eapply runs_bind; [by apply gpio_get_value_level|]. intros v' h3 [-> H3].
  apply runs_ret. unfold pin_level, pin_function in *. rewrite !H3, !H2, Hl, Hl', Hf. done.
Qed.

Lemma gpio_output_isolated_witness :
  runs (gpio_direction_output 0x2A003 1 ;;;
        v <- gpio_get_value 0x2A003 ;; v' <- gpio_get_value 0x2A004 ;; io_ret (v, v'))
    (Hw (∅ : RegFile.regs) [])
    (fun r h' => r = (1, 0) /\ pin_function 0x2A003 (dev h') = GPIO_OUTPUT /\ pin_function 0x2A004 (dev h') = 0).
Proof.
  eapply runs_mono.
  - apply (gpio_output_isolated 0x2A003 0x2A004 1 (Hw (∅ : RegFile.regs) []));
      [vm_compute; intuition congruence..|vm_compute; congruence].
  - intros r h' (-> & Hf & Hf'). rewrite Hf, Hf'. vm_compute. intuition congruence.
Defined.

(** The operations on one pin of a bank.  Configuring a function, pull or drive
    strength replaces the field of that pin and changes no other bit of any register; an
    unknown pull mode switches pulling off, an unknown drive strength changes nothing.  The
    slew rate bit is set for FAST as well as for SLOW: nothing ever clears it. *)
Theorem gpio_ops_set_own_field {D} {B : Bus D} {RB : RegBus D} bank pin cfg mode (h : hw D) :
  0 <= pin < 8 -> 0 <= cfg < 16 ->
  sets_field (s5p_gpio_cfg_pin bank pin cfg) (bank_con bank) (4 * pin) 4 cfg /\
  sets_field (s5p_gpio_set_pull bank pin mode) (bank_pull bank) (2 * pin) 2
    (if (mode =? GPIO_PULL_DOWN) || (mode =? GPIO_PULL_UP) then mode else GPIO_PULL_NONE) /\
  (0 <= mode < 4 -> sets_field (s5p_gpio_set_drv bank pin mode) (bank_drv bank) (2 * pin) 2 mode) /\
  (~ 0 <= mode < 4 -> runs (s5p_gpio_set_drv bank pin mode) h (fun _ h' => wrote h h' [])) /\
  sets_field (s5p_gpio_set_rate bank pin GPIO_DRV_FAST) (bank_drv bank) (pin + 16) 1 1 /\
  sets_field (s5p_gpio_set_rate bank pin GPIO_DRV_SLOW) (bank_drv bank) (pin + 16) 1 1.
Proof.
  intros Hp Hc. split; [by apply cfg_pin_sets|]. split; [apply set_pull_sets; lia|].
  split; [intros Hm; apply set_drv_sets; lia|].
  split; [|split; apply set_rate_sets; lia || tauto].
  intros Hm. unfold s5p_gpio_set_drv.
  assert ((mode =? GPIO_DRV_1X) || (mode =? GPIO_DRV_2X) || (mode =? GPIO_DRV_3X) || (mode =? GPIO_DRV_4X)
    = false) as ->.
  { unfold GPIO_DRV_1X, GPIO_DRV_2X, GPIO_DRV_3X, GPIO_DRV_4X. lia. }
  eexists tt, _. split; [reflexivity|]. unfold wrote. simpl. by rewrite stores_app.
Qed.

Lemma gpio_ops_set_own_field_witness :
  sets_field (D := RegFile.regs) (s5p_gpio_cfg_pin s5pc100_gpio_k0 3 2) s5pc100_gpio_k0 12 4 2.
Proof.
  pose proof (gpio_ops_set_own_field s5pc100_gpio_k0 3 2 0 (Hw (∅ : RegFile.regs) []) ltac:(lia) ltac:(lia)) as [H _].
  exact H.
Defined.

(** What the board sets up for its Ethernet chip: function 2 on pin 3 of the bank at
    offset 0x2A0, a 16-bit bus on SROM bank 3 with the documented timing, the settings of
    the other banks and pins unchanged. *)
Theorem smc9115_pre_init_programs {D} {B : Bus D} {RB : RegBus D} (h : hw D) :
  runs smc9115_pre_init h (fun _ h' =>
    field_set (reg 0xE02002A0 (dev h)) (reg 0xE02002A0 (dev h')) 12 4 2 /\
    field_set (reg 0xE8000000 (dev h)) (reg 0xE8000000 (dev h')) 12 4 1 /\
    reg 0xE8000010 (dev h') = 0x040E1460 /\
    forall a, a ∉ [0xE02002A0; 0xE8000000; 0xE8000010] -> reg a (dev h') = reg a (dev h)).
Proof.
  unfold smc9115_pre_init.
  eapply sets_field_seq; [apply cfg_pin_sets; unfold CONFIG_ENV_SROM_BANK; lia|].
  change (bank_con s5pc100_gpio_k0) with 0xE02002A0. intros h1 Hf Ho. cbv zeta.
  set (bwm := fun x => u32 (u32 (x .& ~32 (0xF .<< (CONFIG_ENV_SROM_BANK * 4))) .| (1 .<< (CONFIG_ENV_SROM_BANK * 4 + 0)))).
  eapply runs_mono.
  { apply (does_runs _ (fun _ => tt) (fun R => upd 0xE8000010 0x040E1460 (upd 0xE8000000 (u32 (bwm (R 0xE8000000))) R))).
    eapply does_bind; [apply does_read|]. intros R. eexists _, _. split.
    { eapply does_seq; [apply does_write|apply does_write]. }
    split; [done|reflexivity]. }
  intros [] h2 [_ Hr]. rewrite !Hr. unfold upd. simpl decide. unfold contents_of.
  split; [by exact Hf|]. split.
  - rewrite (Ho 0xE8000000) by lia. unfold bwm. apply (field_put (reg 0xE8000000 (dev h)) 12 4 1); [lia..|apply reg_range].
  - split; [done|]. intros a Ha. rewrite Hr. rewrite !upd_ne by (intros ->; apply Ha; in_list).
    apply Ho. intros ->. apply Ha. in_list.
Qed.
