(* ===== verification/S5pTimer.v ===== *)
(** * PWM timers and time keeping
    ([arch/arm/cpu/armv7/s5p-common/pwm.c] and [timer.c])

    [pwm_config] and [pwm_init] program a timer channel; timer 4, which counts down
    from 2^32 - 1, is the time base of [get_timer] and [__udelay].  The theorems: what
    the channel registers hold afterwards, that accumulated time is the true elapsed time
    in spite of the counter wrapping, and that a delay lasts as long as asked and ends. *)
From S2P Require Import Prelude Mmio S5pClock.

Definition S5PV210_PWMTIMER_BASE := 0xE2500000.

(** [struct s5p_timer] *)
Definition tcfg0 := S5PV210_PWMTIMER_BASE + 0x00.
Definition tcfg1 := S5PV210_PWMTIMER_BASE + 0x04.
Definition tcon := S5PV210_PWMTIMER_BASE + 0x08.
Definition tcntb0 := S5PV210_PWMTIMER_BASE + 0x0C.
Definition tcmpb0 := S5PV210_PWMTIMER_BASE + 0x10.
Definition tcntb4 := S5PV210_PWMTIMER_BASE + 0x3C.
Definition tcnto4 := S5PV210_PWMTIMER_BASE + 0x40.

Definition PRESCALER_0 : Z := 8 - 1.
Definition PRESCALER_1 : Z := 16 - 1.
Definition MUX_DIV_4 : Z := 2.
Definition MUX_DIV_SHIFT (x : Z) : Z := x * 4.
Definition TCON_OFFSET (x : Z) : Z := ((x + 1) * (if x =? 0 then 0 else 1)) .<< 2.
Definition TCON_START (x : Z) : Z := 1 .<< TCON_OFFSET x.
Definition TCON_UPDATE (x : Z) : Z := 1 .<< (TCON_OFFSET x + 1).
Definition TCON_INVERTER (x : Z) : Z := 1 .<< (TCON_OFFSET x + 2).
Definition TCON_AUTO_RELOAD (x : Z) : Z := 1 .<< (TCON_OFFSET x + 3).
Definition TCON4_AUTO_RELOAD : Z := 1 .<< 22.

Definition ERANGE : Z := 34.
Definition EINVAL : Z := 22.
Definition NS_IN_SEC : Z := 1000000000.

(** The loop of [pwm_calc_tin]: dividers 2, 4, 8, 16. *)
Fixpoint calc_tin (n : nat) (rate freq div : Z) : Z :=
  match n with
  | O => rate / 16
  | S n =>
    if div <=? 16 then
      if rate / u32 (div .<< 16) <? freq then rate / div else calc_tin n rate freq (u32 (div * 2))
    else rate / 16
  end.

(** The part of [gd->arch] that keeps the time. *)
Record arch_gd := Arch { timer_reset_value : Z; lastinc : Z; tbl : Z }.

Section Pwm.
Context {D : Type} {B : Bus D} (s5p_cpu_id : Z).

Definition pwm_enable (pwm_id : Z) : io D Z :=
  v <- mmio_read tcon ;;
  let v := v .| TCON_START pwm_id in
  mmio_write tcon v ;;;
  io_ret 0.

Definition pwm_disable (pwm_id : Z) : io D unit :=
  v <- mmio_read tcon ;;
  let v := v .& ~32 (TCON_START pwm_id) in
  mmio_write tcon v.

Definition pwm_calc_tin (pwm_id freq : Z) : io D Z :=
  tin_parent_rate <- get_pwm_clk s5p_cpu_id ;;
  io_ret (calc_tin 5 tin_parent_rate freq 2).

(** The comparisons with [NS_IN_SEC] are unsigned. *)
Definition pwm_config (pwm_id duty_ns period_ns : Z) : io D Z :=
  if (NS_IN_SEC <? u32 period_ns) || (NS_IN_SEC <? u32 duty_ns) || (period_ns =? 0) then io_ret (- ERANGE)
  else if period_ns <? duty_ns then io_ret (- EINVAL)
  else
    frequency <- io_lift (udivl NS_IN_SEC (u32 period_ns)) ;;
    tin_rate <- pwm_calc_tin pwm_id frequency ;;
    tin_ns <- io_lift (udivl NS_IN_SEC tin_rate) ;;
    tcnt <- io_lift (udivl (u32 period_ns) tin_ns) ;;
    tcmp <- io_lift (udivl (u32 duty_ns) tin_ns) ;;
    let tcmp := u32 (tcnt - tcmp) in
    let offset := u32 (pwm_id * 3) in
    (if pwm_id <? 4 then
       mmio_write (tcntb0 + 4 * offset) tcnt ;;;
       mmio_write (tcmpb0 + 4 * offset) tcmp
     else io_ret tt) ;;;
    v <- mmio_read tcon ;;
    let v := u32 (v .| TCON_UPDATE pwm_id) in
    let v := if pwm_id <? 4 then u32 (v .| TCON_AUTO_RELOAD pwm_id) else u32 (v .| TCON4_AUTO_RELOAD) in
    mmio_write tcon v ;;;
    let v := u32 (v .& ~32 (TCON_UPDATE pwm_id)) in
    mmio_write tcon v ;;;
    io_ret 0.

Definition pwm_init (pwm_id div invert : Z) : io D Z :=
  val <- mmio_read tcfg0 ;;
  let prescaler := if pwm_id <? 2 then PRESCALER_0 else PRESCALER_1 in
  let val := if pwm_id <? 2
             then u32 (u32 (val .& ~32 0xff) .| (prescaler .& 0xff))
             else u32 (u32 (val .& ~32 (0xff .<< 8)) .| ((prescaler .& 0xff) .<< 8)) in
  mmio_write tcfg0 val ;;;
  val <- mmio_read tcfg1 ;;
  let val := u32 (val .& ~32 (0xf .<< MUX_DIV_SHIFT pwm_id)) in
  let val := u32 (val .| ((div .& 0xf) .<< MUX_DIV_SHIFT pwm_id)) in
  mmio_write tcfg1 val ;;;
  ticks_per_period <- (if pwm_id =? 4 then io_ret (u32 (-1))
     else
       f <- get_pwm_clk s5p_cpu_id ;;
       timer_rate_hz <- io_lift (udivl f (u32 ((prescaler + 1) * (1 .<< div)))) ;;
       io_ret (timer_rate_hz / 1000)) ;;
  let offset := u32 (pwm_id * 3) in
  mmio_write (tcntb0 + 4 * offset) ticks_per_period ;;;
  v <- mmio_read tcon ;;
  let val := v .& ~32 (0xf .<< TCON_OFFSET pwm_id) in
  let val := if negb (invert =? 0) && (pwm_id <? 4) then val .| TCON_INVERTER pwm_id else val in
  mmio_write tcon val ;;;
  pwm_enable pwm_id ;;;
  io_ret 0.

Definition timer_get_us_down : io D Z := mmio_read tcnto4.

Definition reset_timer_masked (g : arch_gd) : io D arch_gd :=
  v <- mmio_read tcnto4 ;;
  io_ret (Arch (timer_reset_value g) v 0).

Definition timer_init (g : arch_gd) : io D (Z * arch_gd) :=
  pwm_init 4 MUX_DIV_4 0 ;;;
  pwm_config 4 100000 100000 ;;;
  pwm_enable 4 ;;;
  let g := Arch 0 (lastinc g) (tbl g) in
  v <- timer_get_us_down ;;
  let g := Arch (timer_reset_value g) v (tbl g) in
  g <- reset_timer_masked g ;;
  io_ret (0, g).

Definition get_timer (g : arch_gd) (base : Z) : io D (Z * arch_gd) :=
  now <- timer_get_us_down ;;
  let g := Arch (u64 (timer_reset_value g + u32 (lastinc g - now))) (lastinc g) (tbl g) in
  let g := Arch (timer_reset_value g) now (tbl g) in
  let time_ms := timer_reset_value g in
  let time_ms := time_ms / 1000 in
  io_ret (u32 (u64 (time_ms - base)), g).

(** [timer_get_us] keeps its base in a static variable. *)
Definition timer_get_us (base_time_us : Z) : io D (Z * Z) :=
  now_downward_us <- mmio_read tcnto4 ;;
  let base_time_us := if base_time_us =? 0 then now_downward_us else base_time_us in
  io_ret (u32 (base_time_us - now_downward_us), base_time_us).

(** The waiting loop of [__udelay], at most [fuel] loads. *)
Fixpoint udelay_loop (fuel : nat) (count_value usec : Z) : io D unit :=
  match fuel with
  | O => fun _ => Hang
  | S fuel =>
    now <- timer_get_us_down ;;
    if s32 (u32 (count_value - now)) <? s32 usec then udelay_loop fuel count_value usec else io_ret tt
  end.

Definition __udelay (fuel : nat) (usec : Z) : io D unit :=
  count_value <- timer_get_us_down ;;
  udelay_loop fuel count_value usec.

Definition get_ticks (g : arch_gd) : io D (Z * arch_gd) := get_timer g 0.
Definition get_tbclk : Z := 1000.
End Pwm.

(** ** Accumulated time *)

(** A running down-counter: [us] is the number of ticks since it was started, a load takes
    a nonnegative number of ticks. *)
Class Countdown (D : Type) {B : Bus D} := {
  running : D -> Prop;
  us : D -> Z;
  top : Z;
  countdown_val d : running d -> u32 (dev_val tcnto4 d) = u32 (top - us d);
  countdown_rd d : running d -> running (dev_rd tcnto4 d) /\ us d <= us (dev_rd tcnto4 d)
}.

Section Time.
Context {D : Type} {B : Bus D} {T : Countdown D}.

(** The histories of the time keeping: it is reset at time [t0]; then [get_timer] is called
    any number of times, at most 2^32 ticks apart, anything else happening to the device in
    between.  [last] is the time of the last call. *)
Inductive clocked (t0 : Z) : arch_gd -> Z -> Prop :=
  | clocked_reset g g' h h' :
      running (dev h) -> us (dev h) = t0 -> timer_reset_value g = 0 ->
      reset_timer_masked g h = Ok (g', h') -> clocked t0 g' t0
  | clocked_call g last h base v g' h' :
      clocked t0 g last -> running (dev h) -> last <= us (dev h) < last + 2 ^ 32 ->
      get_timer g base h = Ok ((v, g'), h') -> clocked t0 g' (us (dev h)).

Lemma get_timer_step g last base h t0 :
  running (dev h) -> last <= us (dev h) < last + 2 ^ 32 ->
  timer_reset_value g = u64 (last - t0) -> lastinc g = u32 (top - last) ->
  exists h', get_timer g base h =
    Ok ((u32 (u64 (u64 (us (dev h) - t0) / 1000 - base)),
         Arch (u64 (us (dev h) - t0)) (u32 (top - us (dev h))) (tbl g)), h').
Proof.
  intros Hr Ht Hv Hl. eexists. unfold get_timer, timer_get_us_down, io_bind. cbn [mmio_read res_bind fst snd].
  rewrite countdown_val, Hv, Hl by done. unfold io_ret. cbn [timer_reset_value lastinc tbl].
  assert (u32 (u32 (top - last) - u32 (top - us (dev h))) = us (dev h) - last) as ->.
  { unfold wrap. rewrite <- Zminus_mod. rewrite Z.mod_small; lia. }
  rewrite wrap_add_l. replace (last - t0 + (us (dev h) - last)) with (us (dev h) - t0) by lia. reflexivity.
Qed.

(** What the variables hold after any history. *)
Lemma clocked_inv t0 g last :
  clocked t0 g last ->
  timer_reset_value g = u64 (last - t0) /\ lastinc g = u32 (top - last) /\ t0 <= last.
Proof.
  induction 1 as [g g' h h' Hr Ht Hz E|g last h base v g' h' _ (IHv & IHl & IHt) Hr Hlast E].
  - unfold reset_timer_masked, io_bind, mmio_read, io_ret in E. cbn [res_bind fst snd] in E.
    injection E as <- _. cbn [timer_reset_value lastinc]. rewrite countdown_val, Ht, Hz, Z.sub_diag by done.
    by split.
  - destruct (get_timer_step g last base h t0) as (h1 & E1); [done..|].
    rewrite E1 in E. injection E as _ <- _. cbn [timer_reset_value lastinc]. split; [done|]. split; [done|lia].
Qed.
End Time.

(** Time keeping.  However often the 32-bit counter has wrapped, as long as
    [get_timer] is called at least once every 2^32 microseconds it returns the true time since the
    reset in milliseconds, less the base, modulo 2^32; and the bookkeeping variables hold the
    true time. *)
Theorem get_timer_elapsed {D} {B : Bus D} {T : Countdown D} t0 g last (h : hw D) base :
  clocked t0 g last -> running (dev h) -> last <= us (dev h) < last + 2 ^ 32 ->
  us (dev h) - t0 < 2 ^ 64 -> 0 <= base ->
  exists g' h', get_timer g base h = Ok ((u32 ((us (dev h) - t0) / 1000 - base), g'), h') /\
    timer_reset_value g' = us (dev h) - t0 /\ clocked t0 g' (us (dev h)).
Proof.
  intros Hc Hr Hl Hmax Hb. destruct (clocked_inv _ _ _ Hc) as (Hv & Hi & Ht).
  destruct (get_timer_step g last base h t0) as (h' & E); [done..|].
  rewrite (wrap_small 64 (us (dev h) - t0)) in E by lia.
  eexists _, h'. split; [|split].
  - rewrite E. do 2 f_equal. unfold wrap. f_equal.
    apply Z.mod_mod_divide. exists (2 ^ 32). reflexivity.
  - done.
  - by eapply clocked_call.
Qed.

(** ** Delays *)
Section Delay.
Context {D : Type} {B : Bus D} {T : Countdown D}.
(** A load takes between one and [gap] ticks. *)
Context (gap : Z)
  (Hgap : forall d, running d -> us d + 1 <= us (dev_rd tcnto4 d) <= us d + gap).

Lemma udelay_loop_ends fuel : forall t0 usec h,
  running (dev h) -> 0 <= usec -> usec + gap < 2 ^ 31 -> t0 <= us (dev h) ->
  us (dev h) - t0 < Z.max usec 1 + gap -> Z.max 0 (usec - (us (dev h) - t0)) < Z.of_nat fuel ->
  exists h', udelay_loop fuel (u32 (top - t0)) usec h = Ok (tt, h') /\
    running (dev h') /\ t0 + usec < us (dev h') <= Z.max (us (dev h)) (t0 + usec + gap) + gap.
Proof.
  induction fuel as [|fuel IH]; intros t0 usec h Hr Hu Hmax Ht Hlim Hf; [lia|].
  simpl. unfold timer_get_us_down, io_bind. cbn [mmio_read res_bind fst snd].
  rewrite countdown_val by done. pose proof (Hgap (dev h) Hr). destruct (countdown_rd (dev h) Hr) as [Hr' _].
  assert (u32 (u32 (top - t0) - u32 (top - us (dev h))) = us (dev h) - t0) as ->.
  { unfold wrap. rewrite <- Zminus_mod. rewrite Z.mod_small; lia. }
  rewrite !swrap_small by lia.
  destruct (Z.ltb_spec (us (dev h) - t0) usec).
  - match goal with |- exists h', udelay_loop _ _ _ ?h1 = _ /\ _ => destruct (IH t0 usec h1) as (h' & E & Hr2 & Hb) end;
      cbn [dev]; [done|lia..|].
    exists h'. split; [exact E|]. split; [done|]. cbn [dev] in Hb. lia.
  - eexists. split; [reflexivity|]. cbn [dev]. split; [done|]. lia.
Qed.
End Delay.

(** [__udelay] ends, after at least the time asked for and at most two loads more,
    for delays below 2^31 microseconds; the number of polls is bounded by the delay. *)
Theorem udelay_lasts {D} {B : Bus D} {T : Countdown D} gap usec fuel (h : hw D) :
  (forall d, running d -> us d + 1 <= us (dev_rd tcnto4 d) <= us d + gap) ->
  running (dev h) -> 0 <= usec -> usec + gap < 2 ^ 31 -> usec < Z.of_nat fuel ->
  exists h', __udelay fuel usec h = Ok (tt, h') /\
    us (dev h) + usec < us (dev h') <= us (dev h) + usec + 2 * gap.
Proof.
  intros Hgap Hr Hu Hmax Hf. unfold __udelay, timer_get_us_down, io_bind. cbn [mmio_read res_bind fst snd].
  rewrite countdown_val by done. pose proof (Hgap (dev h) Hr). destruct (countdown_rd (dev h) Hr) as [Hr' _].
  match goal with |- exists h', udelay_loop _ _ _ ?h1 = _ /\ _ =>
    destruct (udelay_loop_ends gap Hgap fuel (us (dev h)) usec h1) as (h' & E & _ & Hb) end;
    cbn [dev]; [done|lia..|].
  exists h'. split; [exact E|]. cbn [dev] in Hb. lia.
Qed.

(** A counter that loses three ticks per load, started at 2^32 - 1. *)
Module TickTock.
Record clock := Clock { elapsed : Z }.
#[global] Instance clock_bus : Bus clock := {|
  dev_val a d := if a =? tcnto4 then (2 ^ 32 - 1 - elapsed d) mod 2 ^ 32 else 0;
  dev_rd a d := Clock (elapsed d + 3);
  dev_wr a v d := d
|}.
#[global] Instance clock_countdown : Countdown clock.
Proof.
  refine {| running := fun _ => True; us := elapsed; top := 2 ^ 32 - 1 |}.
  - intros d _. unfold dev_val, clock_bus. rewrite Z.eqb_refl. apply wrap_idem.
  - intros d _. simpl. split; [done|lia].
Defined.
End TickTock.

(** A history: reset, then a call after five billion ticks would be too late, one after four
    billion is not. *)
Lemma get_timer_elapsed_witness :
  exists g' h', get_timer (Arch 4000000000 (2 ^ 32 - 1 - 4000000000) 0) 5 (Hw (TickTock.Clock 8000000000) []) =
    Ok ((u32 (8000000000 / 1000 - 5), g'), h') /\
    timer_reset_value g' = 8000000000 /\ clocked 0 g' 8000000000.
Proof.
  assert (clocked (D := TickTock.clock) 0 (Arch 0 (2 ^ 32 - 1) 0) 0) as H0.
  { apply (clocked_reset 0 (Arch 0 7 7) _ (Hw (TickTock.Clock 0) []) (Hw (TickTock.Clock 3) [Rd tcnto4 (2 ^ 32 - 1)]));
      [exact I|reflexivity..]. }
  assert (clocked (D := TickTock.clock) 0 (Arch 4000000000 (2 ^ 32 - 1 - 4000000000) 0) 4000000000) as H1.
  { exact (clocked_call (D := TickTock.clock) 0 _ 0 (Hw (TickTock.Clock 4000000000) []) 0 _ _
      (Hw (TickTock.Clock 4000000003) [Rd tcnto4 294967295]) H0 I ltac:(simpl; lia) ltac:(vm_compute; reflexivity)). }
  exact (get_timer_elapsed 0 _ 4000000000 (Hw (TickTock.Clock 8000000000) []) 5
    H1 I ltac:(simpl; lia) ltac:(simpl; lia) ltac:(lia)).
Defined.

Lemma udelay_lasts_witness :
  exists h', __udelay 11 10 (Hw (TickTock.Clock 4294967290) []) = Ok (tt, h') /\
    4294967290 + 10 < us (dev h') <= 4294967290 + 10 + 2 * 3.
Proof.
  assert (Hgap : forall d : TickTock.clock, running d -> us d + 1 <= us (dev_rd tcnto4 d) <= us d + 3)
    by (intros d _; simpl; lia).
  exact (udelay_lasts 3 10 11 (Hw (TickTock.Clock 4294967290) []) Hgap I ltac:(lia) ltac:(lia) ltac:(lia)).
Defined.

(** ** Programming a channel *)

(** The divider chosen is one of the four there are. *)
Lemma calc_tin_cases rate freq :
  exists div, In div [2; 4; 8; 16] /\ calc_tin 5 rate freq 2 = rate / div.
Proof.
  cbn [calc_tin]. change (2 <=? 16) with true. cbn iota.
  change (u32 (2 * 2)) with 4. change (u32 (4 * 2)) with 8. change (u32 (8 * 2)) with 16. change (u32 (16 * 2)) with 32.
  change (4 <=? 16) with true. change (8 <=? 16) with true. change (16 <=? 16) with true.
  change (32 <=? 16) with false. cbn iota.
  repeat match goal with |- context [if ?b then _ else _] => destruct b end;
    [exists 2|exists 4|exists 8|exists 16|exists 16]; (split; [simpl; tauto|reflexivity]).
Qed.

(** One tick of the channel, in whole nanoseconds, as the driver computes it. *)
Definition tick_ns (rate period_ns : Z) : Z := NS_IN_SEC / calc_tin 5 rate (NS_IN_SEC / period_ns) 2.

Lemma tick_ns_pos rate period_ns : 16 <= rate <= 2 * NS_IN_SEC ->
  0 < calc_tin 5 rate (NS_IN_SEC / period_ns) 2 /\ 0 < tick_ns rate period_ns.
Proof.
  intros Hr. unfold tick_ns. destruct (calc_tin_cases rate (NS_IN_SEC / period_ns)) as (div & Hin & ->).
  assert (2 <= div <= 16) as Hd by (simpl in Hin; lia).
  assert (1 <= rate / div) by (apply Z.div_le_lower_bound; lia).
  assert (rate / div <= NS_IN_SEC) by (apply Z.div_le_upper_bound; nia).
  split; [lia|]. apply Z.lt_le_trans with 1; [lia|]. apply Z.div_le_lower_bound; lia.
Qed.

Section PwmFacts.
Context {D : Type} {B : Bus D} {RB : RegBus D}.

Lemma asks_runs {A} (m : io D A) r h a :
  asks m r -> r (contents_of (dev h)) = Ok a ->
  runs m h (fun b h' => b = a /\ same (contents_of (dev h')) (contents_of (dev h))).
Proof.
  intros Hm Hr. specialize (Hm h _ (reflexivity _)). rewrite Hr in Hm.
  destruct Hm as (h' & E & HR). by exists a, h'.
Qed.

Lemma pwm_clk_runs h f h1 :
  get_pwm_clk 0xc110 h = Ok (f, h1) -> same (contents_of (dev h1)) (contents_of (dev h)).
Proof.
  intros E. pose proof (asks_pwm_clk h _ (reflexivity _)) as Ha.
  destruct (pwm_rate (contents_of (dev h))) as [f'| |]; [|congruence..].
  destruct Ha as (h' & E' & HR). rewrite E in E'. by injection E' as _ <-.
Qed.

(** The control register after [pwm_config] of channel [id]. *)
Definition tcon_config (id v : Z) : Z :=
  let v := u32 (v .| TCON_UPDATE id) in
  let v := if id <? 4 then u32 (v .| TCON_AUTO_RELOAD id) else u32 (v .| TCON4_AUTO_RELOAD) in
  u32 (v .& ~32 (TCON_UPDATE id)).

Lemma does_write_word a v : 0 <= v < 2 ^ 32 -> does (mmio_write a v) (fun _ => tt) (upd a v).
Proof. intros Hv. rewrite <- (wrap_small 32 v Hv) at 2. apply does_write. Qed.

Lemma lift_runs {A} (a : A) (h : hw D) : runs (io_lift (Ok a)) h (fun b h' => b = a /\ h' = h).
Proof. by exists a, h. Qed.

Lemma udivl_ok x y : y <> 0 -> udivl x y = Ok (x / y).
Proof. intros. unfold udivl. by rewrite (proj2 (Z.eqb_neq _ _)). Qed.

(** The registers after [pwm_config], as a function of those before. *)
Definition config_regs (id tcnt tcmp : Z) (R : contents) : contents :=
  let R1 := if id <? 4 then upd (tcmpb0 + 4 * (id * 3)) tcmp (upd (tcntb0 + 4 * (id * 3)) tcnt R) else R in
  upd tcon (tcon_config id (R tcon)) R1.

Lemma config_tcon id :
  does (v <- mmio_read tcon ;;
        let v := u32 (v .| TCON_UPDATE id) in
        let v := if id <? 4 then u32 (v .| TCON_AUTO_RELOAD id) else u32 (v .| TCON4_AUTO_RELOAD) in
        mmio_write tcon v ;;;
        let v := u32 (v .& ~32 (TCON_UPDATE id)) in
        mmio_write tcon v ;;;
        io_ret 0) (fun _ => 0) (fun R => upd tcon (tcon_config id (R tcon)) R).
Proof.
  eapply does_bind; [apply does_read|]. intros R. eexists _, _. split; [cbv zeta; does_line|].
  split; [done|]. intros a. unfold upd, tcon_config. case_decide; [|done]. by rewrite wrap_idem.
Qed.

Lemma config_stores id tcnt tcmp :
  0 <= id <= 4 -> 0 <= tcnt < 2 ^ 32 -> 0 <= tcmp < 2 ^ 32 ->
  does ((if id <? 4 then
           mmio_write (tcntb0 + 4 * u32 (id * 3)) tcnt ;;;
           mmio_write (tcmpb0 + 4 * u32 (id * 3)) tcmp
         else io_ret tt) ;;;
        v <- mmio_read tcon ;;
        let v := u32 (v .| TCON_UPDATE id) in
        let v := if id <? 4 then u32 (v .| TCON_AUTO_RELOAD id) else u32 (v .| TCON4_AUTO_RELOAD) in
        mmio_write tcon v ;;;
        let v := u32 (v .& ~32 (TCON_UPDATE id)) in
        mmio_write tcon v ;;;
        io_ret 0) (fun _ => 0) (config_regs id tcnt tcmp).
Proof.
  intros Hid Ht Hc.
  eapply does_bind with (r := fun _ => tt) (f := fun R =>
    if id <? 4 then upd (tcmpb0 + 4 * (id * 3)) tcmp (upd (tcntb0 + 4 * (id * 3)) tcnt R) else R).
  { destruct (Z.ltb_spec id 4); [|apply does_ret].
    rewrite (wrap_small 32 (id * 3)) by lia. 
    apply (does_seq _ _ (upd (tcntb0 + 4 * (id * 3)) tcnt) (fun _ => tt) (upd (tcmpb0 + 4 * (id * 3)) tcmp));
      by apply does_write_word. }
  intros R. eexists _, _. split; [apply config_tcon|]. split; [done|].
  intros a. unfold config_regs. cbv zeta. destruct (id <? 4); [|done].
  assert (upd (tcmpb0 + 4 * (id * 3)) tcmp (upd (tcntb0 + 4 * (id * 3)) tcnt R) tcon = R tcon) as Hk.
  { by rewrite !upd_ne by (unfold tcon, tcmpb0, tcntb0, S5PV210_PWMTIMER_BASE; lia). }
  by rewrite Hk.
Qed.

Lemma config_runs id duty_ns period_ns f h1 (h : hw D) :
  0 <= id <= 4 -> 0 <= duty_ns <= period_ns -> 0 < period_ns <= NS_IN_SEC ->
  get_pwm_clk 0xc110 h = Ok (f, h1) -> 16 <= f <= 2 * NS_IN_SEC ->
  runs (pwm_config 0xc110 id duty_ns period_ns) h (fun r h' => r = 0 /\
    same (contents_of (dev h')) (config_regs id (period_ns / tick_ns f period_ns)
      (period_ns / tick_ns f period_ns - duty_ns / tick_ns f period_ns) (contents_of (dev h)))).
Proof.
  intros Hid Hd Hp Hf Hrange. pose proof (tick_ns_pos f period_ns Hrange) as [Hrate Htick].
  unfold pwm_config. unfold NS_IN_SEC in *. rewrite (wrap_small 32 period_ns), (wrap_small 32 duty_ns) by lia.
  destruct (Z.ltb_spec 1000000000 period_ns); [lia|]. destruct (Z.ltb_spec 1000000000 duty_ns); [lia|].
  destruct (Z.eqb_spec period_ns 0); [lia|]. cbn [orb]. destruct (Z.ltb_spec period_ns duty_ns); [lia|].
  rewrite udivl_ok by lia. eapply runs_bind; [apply lift_runs|]. intros fr ? [-> ->].
  eapply runs_bind with (P := fun v h' => v = calc_tin 5 f (1000000000 / period_ns) 2 /\ h' = h1).
  { unfold pwm_calc_tin. eexists _, _. unfold io_bind. rewrite Hf. cbn [res_bind fst snd]. by split. }
  intros rate ? [-> ->]. rewrite udivl_ok by lia. eapply runs_bind; [apply lift_runs|]. intros tick ? [-> ->].
  fold (tick_ns f period_ns) in *. change (1000000000 / calc_tin 5 f (1000000000 / period_ns) 2) with (tick_ns f period_ns).
  set (tick := tick_ns f period_ns) in *.
  rewrite !udivl_ok by lia. eapply runs_bind; [apply lift_runs|]. intros tcnt ? [-> ->].
  eapply runs_bind; [apply lift_runs|]. intros tcmp ? [-> ->]. cbv zeta.
  assert (0 <= duty_ns / tick) by (apply Z.div_pos; lia).
  assert (duty_ns / tick <= period_ns / tick) by (apply Z.div_le_mono; lia).
  assert (period_ns / tick <= period_ns) by (apply Z.div_le_upper_bound; nia).
  rewrite (wrap_small 32 (period_ns / tick - duty_ns / tick)) by lia.
  apply (config_stores id (period_ns / tick) (period_ns / tick - duty_ns / tick)); [lia..|]. by eapply pwm_clk_runs.
Qed.
End PwmFacts.

(** The control bits of a channel: update off, auto-reload on, the rest as before. *)
Lemma tcon_config_bits id v i :
  0 <= id <= 4 -> 0 <= i < 32 ->
  Z.testbit (tcon_config id v) i =
    if decide (i = TCON_OFFSET id + 1) then false
    else if decide (i = if id <? 4 then TCON_OFFSET id + 3 else 22) then true else Z.testbit v i.
Proof.
  intros Hid Hi. unfold tcon_config, TCON_UPDATE, TCON_AUTO_RELOAD, TCON4_AUTO_RELOAD.
  assert (0 <= TCON_OFFSET id) as Ho.
  { unfold TCON_OFFSET. rewrite Z.shiftl_mul_pow2 by lia. destruct (id =? 0); lia. }
  pose proof (fun x => testbit_clear x (TCON_OFFSET id + 1) 1 i ltac:(lia) ltac:(lia) Hi) as Hcl.
  change (2 ^ 1 - 1) with 1 in Hcl. cbv zeta. rewrite Hcl. clear Hcl.
  destruct (decide (i = TCON_OFFSET id + 1)) as [->|Hne]; [by rewrite decide_True by lia|].
  rewrite decide_False by lia.
  destruct (id <? 4); rewrite !testbit_or, !testbit_1 by lia;
    rewrite (bool_decide_eq_false_2 (i - (TCON_OFFSET id + 1) = 0)) by lia; rewrite orb_false_r;
    case_decide; try (by rewrite bool_decide_eq_true_2 by lia; rewrite orb_true_r);
    by rewrite bool_decide_eq_false_2 by lia; rewrite orb_false_r.
Qed.

(** The registers of the channel in the effect of [pwm_config]. *)
Lemma config_regs_channel id tcnt tcmp R :
  0 <= id < 4 ->
  config_regs id tcnt tcmp R (tcntb0 + 12 * id) = tcnt /\
  config_regs id tcnt tcmp R (tcmpb0 + 12 * id) = tcmp /\
  config_regs id tcnt tcmp R tcon = tcon_config id (R tcon) /\
  forall a, a ∉ [tcon; tcntb0 + 12 * id; tcmpb0 + 12 * id] -> config_regs id tcnt tcmp R a = R a.
Proof.
  intros Hid. unfold config_regs. rewrite (proj2 (Z.ltb_lt id 4)) by lia. cbv zeta.
  replace (4 * (id * 3)) with (12 * id) by lia.
  assert (tcon < tcntb0 + 12 * id /\ tcon < tcmpb0 + 12 * id /\ tcmpb0 = tcntb0 + 4)
    by (unfold tcon, tcmpb0, tcntb0, S5PV210_PWMTIMER_BASE; lia).
  split; [by rewrite 2 upd_ne, upd_eq by lia|]. split; [by rewrite upd_ne, upd_eq by lia|].
  split; [by rewrite upd_eq|]. intros a Ha. rewrite !not_elem_of_cons in Ha.
  destruct Ha as (H1 & H2 & H3 & _). by rewrite !upd_ne.
Qed.

(** [pwm_config].  Durations outside 1 .. 10^9 ns, and a duty cycle longer than the
    period, are refused without touching the hardware.  Otherwise, for channels 0 to 3, the
    count register gets the period and the compare register the period less the duty time,
    both in ticks of the divided clock, so that the compare value never exceeds the count;
    the channel's update bit ends up clear and auto-reload set, every other control bit and
    register is as before. *)
Theorem pwm_config_sets_channel {D} {B : Bus D} {RB : RegBus D} id duty_ns period_ns f (h h1 : hw D) :
  (NS_IN_SEC < u32 period_ns \/ NS_IN_SEC < u32 duty_ns \/ period_ns = 0 ->
    pwm_config 0xc110 id duty_ns period_ns h = Ok (- ERANGE, h)) /\
  (0 < period_ns < duty_ns -> duty_ns <= NS_IN_SEC ->
    pwm_config 0xc110 id duty_ns period_ns h = Ok (- EINVAL, h)) /\
  (0 <= id < 4 -> 0 <= duty_ns <= period_ns -> 0 < period_ns <= NS_IN_SEC ->
    get_pwm_clk 0xc110 h = Ok (f, h1) -> 16 <= f <= 2 * NS_IN_SEC ->
    exists tick, 0 < tick /\ tick = tick_ns f period_ns /\
    runs (pwm_config 0xc110 id duty_ns period_ns) h (fun r h' => r = 0 /\
      reg (tcntb0 + 12 * id) (dev h') = period_ns / tick /\
      reg (tcmpb0 + 12 * id) (dev h') = period_ns / tick - duty_ns / tick /\
      0 <= reg (tcmpb0 + 12 * id) (dev h') <= reg (tcntb0 + 12 * id) (dev h') /\
      (forall i, 0 <= i < 32 -> Z.testbit (reg tcon (dev h')) i =
        if decide (i = TCON_OFFSET id + 1) then false
        else if decide (i = TCON_OFFSET id + 3) then true else Z.testbit (reg tcon (dev h)) i) /\
      forall a, a ∉ [tcon; tcntb0 + 12 * id; tcmpb0 + 12 * id] -> reg a (dev h') = reg a (dev h))).
Proof.
  split; [|split].
  - intros Hbad. unfold pwm_config.
    assert ((NS_IN_SEC <? u32 period_ns) || (NS_IN_SEC <? u32 duty_ns) || (period_ns =? 0) = true) as ->; [lia|done].
  - intros Hp Hd. unfold pwm_config. unfold NS_IN_SEC in *. rewrite (wrap_small 32 period_ns), (wrap_small 32 duty_ns) by lia.
    destruct (Z.ltb_spec 1000000000 period_ns); [lia|]. destruct (Z.ltb_spec 1000000000 duty_ns); [lia|].
    destruct (Z.eqb_spec period_ns 0); [lia|]. destruct (Z.ltb_spec period_ns duty_ns); [done|lia].
  - intros Hid Hd Hp Hf Hr. exists (tick_ns f period_ns).
    destruct (tick_ns_pos f period_ns Hr) as [_ Ht]. split; [done|]. split; [done|].
    eapply runs_mono; [apply (config_runs id duty_ns period_ns f h1); [lia|done..]|].
    intros r h' [-> Hs]. split; [done|].
    set (tick := tick_ns f period_ns) in *.
    destruct (config_regs_channel id (period_ns / tick) (period_ns / tick - duty_ns / tick)
      (contents_of (dev h)) Hid) as (Hcnt & Hcmp & Hcon & Hother).
    pose proof (fun a => Hs a) as Hreg. unfold contents_of at 1 in Hreg. rewrite !Hreg, Hcnt, Hcmp, Hcon.
    assert (0 <= duty_ns / tick) by (apply Z.div_pos; lia).
    assert (duty_ns / tick <= period_ns / tick) by (apply Z.div_le_mono; lia).
    split; [done|]. split; [done|]. split; [lia|]. split.
    + intros i Hi. rewrite tcon_config_bits by lia. by rewrite (proj2 (Z.ltb_lt id 4)) by lia.
    + intros a Ha. rewrite Hreg. by apply Hother.
Qed.

(** A millisecond with a quarter of duty on channel 1, at 66.7 MHz: ticks of 29 ns. *)
Lemma pwm_config_sets_channel_witness :
  runs (pwm_config 0xc110 1 250000 1000000) (Hw psys_regs []) (fun r h' => r = 0 /\
    reg (tcntb0 + 12) (dev h') = 34482 /\ reg (tcmpb0 + 12) (dev h') = 25862) /\
  pwm_config 0xc110 1 250000 (-5) (Hw psys_regs []) = Ok (-34, Hw psys_regs []).
Proof.
  split.
  - destruct (pwm_config_sets_channel 1 250000 1000000 66700000 (Hw psys_regs [])
      (Hw psys_regs (let v := reg c110_div0 psys_regs in
        [Rd c110_div0 v; Rd c110_div0 v; Rd c110_mpll_con (reg c110_mpll_con psys_regs)])))
      as (_ & _ & H).
    destruct H as (tick & _ & Et & Hruns);
      [lia|lia|unfold NS_IN_SEC; lia|vm_compute; reflexivity|unfold NS_IN_SEC; lia|].
    eapply runs_mono; [exact Hruns|]. intros r h' (-> & Hc & Hm & _).
    assert (Hv : tick = 29) by (rewrite Et; vm_compute; reflexivity). rewrite Hv in Hc, Hm.
    split; [reflexivity|]. split; [exact Hc|exact Hm].
  - destruct (pwm_config_sets_channel 1 250000 (-5) 66700000 (Hw psys_regs []) (Hw psys_regs [])) as (H & _).
    apply H. left. vm_compute. reflexivity.
Defined.

(** ** The time base *)
Section Init.
Context {D : Type} {B : Bus D} {RB : RegBus D}.

(** Timer 4 after [pwm_init]. *)
Definition init4_regs (R : contents) : contents :=
  let R := upd tcfg0 (u32 (u32 (R tcfg0 .& ~32 (0xff .<< 8)) .| (15 .<< 8))) R in
  let R := upd tcfg1 (u32 (u32 (R tcfg1 .& ~32 (0xf .<< 16)) .| (2 .<< 16))) R in
  let R := upd tcntb4 0xFFFFFFFF R in
  let R := upd tcon (u32 (R tcon .& ~32 (0xf .<< 20))) R in
  upd tcon (u32 (R tcon .| (1 .<< 20))) R.

Lemma does_enable id :
  does (pwm_enable id) (fun _ => 0) (fun R => upd tcon (u32 (R tcon .| TCON_START id)) R).
Proof.
  eapply does_bind; [apply does_read|]. intros R. eexists _, _. split; [cbv zeta; does_line|]. by split.
Qed.

Lemma does_discard {A} (m : io D Z) (a : A) r f : does m r f -> does (m ;;; io_ret a) (fun _ => a) f.
Proof. intros Hm. eapply does_bind; [exact Hm|]. intros R. eexists _, _. split; [apply does_ret|]. by split. Qed.

(** A load, a store of a function of the value, and the rest. *)
Lemma does_update {A} a g (k : io D A) r f :
  does k r f ->
  does (v <- mmio_read a ;; mmio_write a (g v) ;;; k)
    (fun R => r (upd a (u32 (g (R a))) R)) (fun R => f (upd a (u32 (g (R a))) R)).
Proof.
  intros Hk. eapply does_bind; [apply does_read|]. intros R. eexists _, _.
  split; [eapply does_seq; [apply does_write|exact Hk]|]. by split.
Qed.

Lemma does_ret_bind {A A'} (a : A) (k : A -> io D A') r f :
  does (k a) r f -> does (io_bind (io_ret a) k) r f.
Proof. exact id. Qed.

Lemma init4_runs cpu : does (pwm_init cpu 4 MUX_DIV_4 0) (fun _ => 0) init4_regs.
Proof.
  unfold pwm_init. change (4 <? 2) with false. change (4 =? 4) with true.
  change (negb (0 =? 0) && (4 <? 4)) with false. cbn iota. cbv zeta.
  change (tcntb0 + 4 * u32 (4 * 3)) with tcntb4. change (TCON_OFFSET 4) with 20.
  change (MUX_DIV_SHIFT 4) with 16. change (PRESCALER_1 .& 0xff) with 15. change (MUX_DIV_4 .& 0xf) with 2.
  intros h R HR. eapply runs_mono.
  - apply (does_update tcfg0 (fun val => u32 (u32 (val .& ~32 (0xff .<< 8)) .| (15 .<< 8)))).
    { apply (does_update tcfg1 (fun val => u32 (u32 (val .& ~32 (0xf .<< 16)) .| (2 .<< 16)))).
      apply does_ret_bind. eapply does_seq; [apply does_write|].
      apply (does_update tcon (fun v => v .& ~32 (0xf .<< 20))).
      eapply does_discard, does_enable. }
    exact HR.
  - cbv beta. intros r h' [-> Hs]. split; [done|]. intros a. rewrite (Hs a). unfold init4_regs. cbv zeta.
    rewrite !wrap_idem. reflexivity.
Qed.
End Init.

Section InitFacts.
Context {D : Type} {B : Bus D} {RB : RegBus D}.

(** The clock depends on two registers only. *)
Lemma pwm_clk_depends (h h2 : hw D) f h1 :
  get_pwm_clk 0xc110 h = Ok (f, h1) ->
  reg c110_mpll_con (dev h2) = reg c110_mpll_con (dev h) -> reg c110_div0 (dev h2) = reg c110_div0 (dev h) ->
  exists h3, get_pwm_clk 0xc110 h2 = Ok (f, h3).
Proof.
  intros E Hm Hd. pose proof (asks_pwm_clk h _ (reflexivity _)) as Ha.
  pose proof (asks_pwm_clk h2 _ (reflexivity _)) as Hb.
  assert (pwm_rate (contents_of (dev h2)) = pwm_rate (contents_of (dev h))) as Hrate.
  { unfold pwm_rate, contents_of. by rewrite Hm, Hd. }
  rewrite Hrate in Hb. destruct (pwm_rate (contents_of (dev h))) as [f'| |]; [|congruence..].
  destruct Ha as (ha & Ea & _). destruct Hb as (hb & Eb & _). rewrite E in Ea. injection Ea as -> _.
  by exists hb.
Qed.

(** The control register after the whole initialisation. *)
Definition tcon_init (v : Z) : Z :=
  u32 (tcon_config 4 (u32 (u32 (v .& ~32 (0xf .<< 20)) .| (1 .<< 20))) .| TCON_START 4).

Lemma tcon_init_field v : 0 <= v < 2 ^ 32 -> field_set v (tcon_init v) 20 4 5.
Proof.
  intros Hv. apply field_set_bits; [lia..|apply wrap_range; lia|]. intros i Hi. unfold tcon_init.
  change (TCON_START 4) with (1 .<< 20). rewrite testbit_or, tcon_config_bits by lia.
  change (TCON_OFFSET 4 + 1) with 21. change (4 <? 4) with false. cbn iota.
  pose proof (testbit_clear v 20 4 i ltac:(lia) ltac:(lia) Hi) as Hcl. change (2 ^ 4 - 1) with 0xf in Hcl.
  rewrite testbit_or, Hcl, !testbit_1 by lia. clear Hcl.
  destruct (decide (20 <= i < 20 + 4)) as [Hin|Hout].
  - assert (i = 20 \/ i = 21 \/ i = 22 \/ i = 23) as [->|[->|[->| ->]]] by lia; reflexivity.
  - rewrite !decide_False by lia. rewrite bool_decide_eq_false_2 by lia. by rewrite !orb_false_r.
Qed.

(** All registers after the initialisation. *)
Definition init_regs (R : contents) : contents :=
  let R1 := init4_regs R in let R2 := config_regs 4 0 0 R1 in
  upd tcon (u32 (R2 tcon .| TCON_START 4)) R2.

Lemma config_regs_4 tcnt tcmp R : config_regs 4 tcnt tcmp R = upd tcon (tcon_config 4 (R tcon)) R.
Proof. reflexivity. Qed.

Lemma init_regs_tcon R : init_regs R tcon = tcon_init (R tcon).
Proof. unfold init_regs. cbv zeta. rewrite upd_eq, config_regs_4, upd_eq. reflexivity. Qed.

Lemma init_regs_other R a : a <> tcon ->
  init_regs R a = if decide (a = tcntb4) then 0xFFFFFFFF
    else if decide (a = tcfg1) then u32 (u32 (R tcfg1 .& ~32 (0xf .<< 16)) .| (2 .<< 16))
    else if decide (a = tcfg0) then u32 (u32 (R tcfg0 .& ~32 (0xff .<< 8)) .| (15 .<< 8)) else R a.
Proof.
  intros Ha. unfold init_regs. cbv zeta. rewrite upd_ne, config_regs_4, upd_ne by done.
  unfold init4_regs. cbv zeta. by rewrite 2 upd_ne by done.
Qed.

Lemma timer_init_runs g f (h h1 : hw D) :
  get_pwm_clk 0xc110 h = Ok (f, h1) -> 16 <= f <= 2 * NS_IN_SEC ->
  runs (timer_init 0xc110 g) h (fun r h' =>
    r = (0, Arch 0 (reg tcnto4 (dev h)) 0) /\ same (contents_of (dev h')) (init_regs (contents_of (dev h)))).
Proof.
  intros Hf Hr. unfold timer_init.
  eapply runs_bind; [by apply (does_runs _ _ _ h (init4_runs 0xc110))|]. intros _ h2 [_ H2].
  destruct (pwm_clk_depends h h2 f h1 Hf) as (h3 & E3); [by rewrite H2..|].
  eapply runs_bind; [apply (config_runs 4 100000 100000 f h3 h2); unfold NS_IN_SEC; [lia..|done|done]|].
  intros _ h4 [_ H4]. rewrite config_regs_4 in H4.
  eapply runs_bind; [by apply (does_runs _ _ _ h4 (does_enable 4))|]. intros _ h5 [_ H5].
  eapply runs_bind; [by apply (does_runs _ _ _ h5 (does_read tcnto4))|]. intros v h6 [-> H6]. cbv zeta.
  cbn [timer_reset_value lastinc tbl].
  assert (same (contents_of (dev h6)) (init_regs (contents_of (dev h)))) as Hfin.
  { intros a. unfold contents_of at 1. rewrite H6. unfold contents_of at 1. rewrite H5.
    unfold init_regs. cbv zeta. rewrite config_regs_4, !upd_eq. unfold upd at 1 2. case_decide as Ha.
    - rewrite (H4 tcon), upd_eq. unfold contents_of at 1. by rewrite H2.
    - rewrite (H4 a), upd_ne by done. unfold contents_of at 1. rewrite H2. by rewrite upd_ne by done. }
  eapply runs_bind with (P := fun g' h' => g' = Arch 0 (reg tcnto4 (dev h)) 0 /\
    same (contents_of (dev h')) (init_regs (contents_of (dev h)))).
  - unfold reset_timer_masked. eapply runs_bind; [by apply (does_runs _ _ _ h6 (does_read tcnto4))|].
    intros v h7 [-> H7]. apply runs_ret. split; [|intros a; etransitivity; [apply H7|apply Hfin]].
    rewrite (Hfin tcnto4), init_regs_other by done. done.
  - intros g' h7 [-> H7]. by apply runs_ret.
Qed.
End InitFacts.

(** [timer_init] makes timer 4 the time base: prescaler 16 and divider 4, reload
    value 2^32 - 1 (the period given to [pwm_config] does not reach the counter of this
    channel), started with auto-reload; the software clock is at zero and remembers the
    counter.  No other bit of the timer registers changes. *)
Theorem timer_init_programs {D} {B : Bus D} {RB : RegBus D} g f (h h1 : hw D) :
  get_pwm_clk 0xc110 h = Ok (f, h1) -> 16 <= f <= 2 * NS_IN_SEC ->
  runs (timer_init 0xc110 g) h (fun r h' => r = (0, Arch 0 (reg tcnto4 (dev h)) 0) /\
    field_set (reg tcfg0 (dev h)) (reg tcfg0 (dev h')) 8 8 15 /\
    field_set (reg tcfg1 (dev h)) (reg tcfg1 (dev h')) 16 4 2 /\
    reg tcntb4 (dev h') = 2 ^ 32 - 1 /\
    field_set (reg tcon (dev h)) (reg tcon (dev h')) 20 4 5 /\
    forall a, a ∉ [tcfg0; tcfg1; tcon; tcntb4] -> reg a (dev h') = reg a (dev h)).
Proof.
  intros Hf Hr. eapply runs_mono; [by eapply timer_init_runs|]. intros r h' [-> Hs].
  pose proof (fun a => Hs a) as Hreg. unfold contents_of at 1 in Hreg. split; [done|].
  rewrite !Hreg, init_regs_tcon, !init_regs_other by done. cbn [decide]. unfold contents_of.
  split; [apply (field_replace _ 8 8 15); [lia..|apply reg_range]|].
  split; [apply (field_replace _ 16 4 2); [lia..|apply reg_range]|].
  split; [done|]. split; [apply tcon_init_field, reg_range|].
  intros a Ha. rewrite !not_elem_of_cons in Ha. destruct Ha as (H1 & H2 & H3 & H4 & _).
  rewrite Hreg, init_regs_other by done. by rewrite !decide_False by done.
Qed.

Lemma timer_init_programs_witness :
  runs (timer_init 0xc110 (Arch 1 2 3)) (Hw psys_regs []) (fun r h' => r = (0, Arch 0 0 0) /\
    reg tcntb4 (dev h') = 2 ^ 32 - 1).
Proof.
  eapply runs_mono.
  - eapply (timer_init_programs (Arch 1 2 3) 66700000 (Hw psys_regs []));
      [vm_compute; reflexivity|unfold NS_IN_SEC; lia].
  - intros r h' (-> & _ & _ & H & _). split; [vm_compute; reflexivity|exact H].
Defined.
