(* ===== verification/S5pSerial.v ===== *)
(** * The serial console of the second stage
    ([drivers/serial/serial_s5p.c], the port selection of [drivers/serial/serial.c])

    Four ports with the same driver; the serial core keeps the list of registered ports
    and the one in use.  The theorems: the divisor registers encode the baud rate divisor
    exactly, what [serial_puts] sends and to which port, and what the port selection
    yields. *)
From S2P Require Import Prelude Mmio S5pClock.

Definition S5PV210_UART_BASE := 0xE2900000.

Definition RX_FIFO_COUNT_MASK : Z := 0xff.
Definition RX_FIFO_FULL_MASK : Z := 1 .<< 8.
Definition TX_FIFO_FULL_MASK : Z := 1 .<< 24.

(** [struct s5p_uart] has 0x400 bytes. *)
Definition s5p_get_base_uart (dev_index : Z) : Z := S5PV210_UART_BASE + dev_index * 0x400.
Definition ulcon (uart : Z) : Z := uart + 0x00.
Definition ucon (uart : Z) : Z := uart + 0x04.
Definition ufcon (uart : Z) : Z := uart + 0x08.
Definition umcon (uart : Z) : Z := uart + 0x0C.
Definition utrstat (uart : Z) : Z := uart + 0x10.
Definition uerstat (uart : Z) : Z := uart + 0x14.
Definition ufstat (uart : Z) : Z := uart + 0x18.
Definition utxh (uart : Z) : Z := uart + 0x20.
Definition urxh (uart : Z) : Z := uart + 0x24.
Definition ubrdiv (uart : Z) : Z := uart + 0x28.
Definition uslot (uart : Z) : Z := uart + 0x2C.

Definition udivslot : list Z :=
  [0; 0x0080; 0x0808; 0x0888; 0x2222; 0x4924; 0x4a52; 0x54aa;
   0x5555; 0xd555; 0xd5d5; 0xddd5; 0xdddd; 0xdfdd; 0xdfdf; 0xffdf].

(** The serial core: [config.enabled], the registered ports (last registered first), the
    selected port, and whether the boot loader runs from RAM ([GD_FLG_RELOC]).  A port
    [s5p_serialN_device] is its number. *)
Record serial_core := Core {
  enabled : bool;
  serial_devices : list Z;
  serial_current : option Z;
  relocated : bool
}.

Definition EINVAL : Z := 22.

(** [default_serial_console] of this board ([CONFIG_SERIAL2]): switches the ports on. *)
Definition default_serial_console (c : serial_core) : Z * serial_core :=
  (2, Core true (serial_devices c) (serial_current c) (relocated c)).

Definition serial_register (dev : Z) (c : serial_core) : serial_core :=
  Core (enabled c) (dev :: serial_devices c) (serial_current c) (relocated c).

Definition s5p_serial_initialize (c : serial_core) : serial_core :=
  serial_register 3 (serial_register 2 (serial_register 1 (serial_register 0 c))).

(** The [name] field of a port. *)
Definition serial_name (dev : Z) : list Z := cstr "s5pser" ++ [0x30 + dev].

Fixpoint assign_from (s : list Z) (name : list Z) : option Z :=
  match s with
  | [] => None
  | d :: s => if decide (serial_name d = name) then Some d else assign_from s name
  end.

Definition serial_assign (name : list Z) (c : serial_core) : Z * serial_core :=
  match assign_from (serial_devices c) name with
  | Some d => (0, Core (enabled c) (serial_devices c) (Some d) (relocated c))
  | None => (- EINVAL, c)
  end.

(** The registrations of the other drivers are void on this board. *)
Definition serial_initialize (c : serial_core) : serial_core :=
  let c := s5p_serial_initialize c in
  let (d, c) := default_serial_console c in
  (serial_assign (serial_name d) c).2.

Definition get_current (c : serial_core) : Z * serial_core :=
  if negb (relocated c) then default_serial_console c
  else match serial_current c with
       | None => default_serial_console c
       | Some d => (d, c)
       end.

Section Serial.
Context {D : Type} {B : Bus D} (fuel : nat) (s5p_cpu_id : Z).

(** A 16-bit volatile store. *)
Definition mmio_write16 (a v : Z) : io D unit := fun h =>
  Ok (tt, Hw (dev_wr a (u16 v) (dev h)) (bus_log h ++ [Wr a (u16 v)])).

(** [baudrate] is [gd->baudrate]; the chip has the slot register ([s5p_uart_divslot]). *)
Definition serial_setbrg_dev (c : serial_core) (baudrate dev_index : Z) : io D unit :=
  let uart := s5p_get_base_uart dev_index in
  uclk <- get_uart_clk s5p_cpu_id dev_index ;;
  if negb (enabled c) then io_ret tt
  else
    val <- io_lift (udivl uclk (u32 baudrate)) ;;
    mmio_write (ubrdiv uart) (u32 (val / 16 - 1)) ;;;
    mmio_write16 (uslot uart) (default 0 (udivslot !! Z.to_nat (val mod 16))).

Definition serial_init_dev (c : serial_core) (baudrate dev_index : Z) : io D Z :=
  let uart := s5p_get_base_uart dev_index in
  mmio_write (ufcon uart) 0x3 ;;;
  mmio_write (umcon uart) 0 ;;;
  mmio_write (ulcon uart) 0x3 ;;;
  mmio_write (ucon uart) 0x245 ;;;
  serial_setbrg_dev c baudrate dev_index ;;;
  io_ret 0.

Definition serial_err_check (dev_index op : Z) : io D Z :=
  let mask := if op =? 0 then 0xf else 0x8 in
  v <- mmio_read (uerstat (s5p_get_base_uart dev_index)) ;;
  io_ret (v .& mask).

(** The waiting loops; [false] is the early return on a line error. *)
Fixpoint getc_wait (n : nat) (dev_index : Z) : io D bool :=
  match n with
  | O => fun _ => Hang
  | S n =>
    v <- mmio_read (ufstat (s5p_get_base_uart dev_index)) ;;
    if tst v (RX_FIFO_COUNT_MASK .| RX_FIFO_FULL_MASK) then io_ret true
    else
      e <- serial_err_check dev_index 0 ;;
      if e =? 0 then getc_wait n dev_index else io_ret false
  end.

Fixpoint putc_wait (n : nat) (dev_index : Z) : io D bool :=
  match n with
  | O => fun _ => Hang
  | S n =>
    v <- mmio_read (ufstat (s5p_get_base_uart dev_index)) ;;
    if tst v TX_FIFO_FULL_MASK then
      e <- serial_err_check dev_index 1 ;;
      if e =? 0 then putc_wait n dev_index else io_ret false
    else io_ret true
  end.

Definition serial_getc_dev (c : serial_core) (dev_index : Z) : io D Z :=
  if negb (enabled c) then io_ret 0
  else
    ok <- getc_wait fuel dev_index ;;
    if ok then v <- mmio_read8 (urxh (s5p_get_base_uart dev_index)) ;; io_ret (v .& 0xff)
    else io_ret 0.

(** One character without the newline rule; whether it was sent. *)
Definition putc_raw (c : serial_core) (ch dev_index : Z) : io D bool :=
  if negb (enabled c) then io_ret false
  else
    ok <- putc_wait fuel dev_index ;;
    if ok then mmio_write8 (utxh (s5p_get_base_uart dev_index)) ch ;;; io_ret true
    else io_ret false.

(** After a newline the carriage return goes through [serial_putc], that is to the
    selected port; it is no newline, so the recursion ends there. *)
Definition serial_putc_dev (c : serial_core) (ch dev_index : Z) : io D serial_core :=
  sent <- putc_raw c ch dev_index ;;
  if sent && (ch =? 0x0A) then
    let (cur, c) := get_current c in
    putc_raw c 0x0D cur ;;; io_ret c
  else io_ret c.

Definition serial_tstc_dev (c : serial_core) (dev_index : Z) : io D Z :=
  if negb (enabled c) then io_ret 0
  else v <- mmio_read (utrstat (s5p_get_base_uart dev_index)) ;; io_ret (v .& 0x1).

(** [s] is the string before its NUL. *)
Fixpoint serial_puts_dev (c : serial_core) (s : list Z) (dev_index : Z) : io D serial_core :=
  match s with
  | [] => io_ret c
  | ch :: s => c <- serial_putc_dev c ch dev_index ;; serial_puts_dev c s dev_index
  end.

(** The functions of the serial core, on the selected port. *)
Definition serial_init (c : serial_core) (baudrate : Z) : io D (Z * serial_core) :=
  let (d, c) := get_current c in r <- serial_init_dev c baudrate d ;; io_ret (r, c).
Definition serial_setbrg (c : serial_core) (baudrate : Z) : io D serial_core :=
  let (d, c) := get_current c in serial_setbrg_dev c baudrate d ;;; io_ret c.
Definition serial_getc (c : serial_core) : io D (Z * serial_core) :=
  let (d, c) := get_current c in r <- serial_getc_dev c d ;; io_ret (r, c).
Definition serial_tstc (c : serial_core) : io D (Z * serial_core) :=
  let (d, c) := get_current c in r <- serial_tstc_dev c d ;; io_ret (r, c).
Definition serial_putc (c : serial_core) (ch : Z) : io D serial_core :=
  let (d, c) := get_current c in serial_putc_dev c ch d.
Definition serial_puts (c : serial_core) (s : list Z) : io D serial_core :=
  let (d, c) := get_current c in serial_puts_dev c s d.

(** [default_serial_puts] asks for the port once and then uses its [putc]. *)
Definition default_serial_puts (c : serial_core) (s : list Z) : io D serial_core :=
  let (d, c) := get_current c in serial_puts_dev c s d.

Definition serial_reinit_all (c : serial_core) (baudrate : Z) : io D unit :=
  io_each (serial_devices c) (fun d => serial_init_dev c baudrate d ;;; io_ret tt).
End Serial.

(** ** Selection of the port *)

Lemma get_current_idem c : get_current (get_current c).2 = get_current c.
Proof.
  unfold get_current, default_serial_console. destruct c as [e l [d|] []]; reflexivity.
Qed.

(** ** Transmission *)

(** Ports with room to come: from every good state the wait for room ends, within [fuel]
    polls and without a line error, in a good state, and accepting a byte leads to one. *)
Class SerialTx (D : Type) {B : Bus D} (fuel : nat) := {
  ser_ok : D -> Prop;
  ser_room p h : ser_ok (dev h) -> exists h', putc_wait fuel p h = Ok (true, h') /\ ser_ok (dev h');
  ser_accept p v d : ser_ok d -> ser_ok (dev_wr (utxh (s5p_get_base_uart p)) v d)
}.

(** What a string puts on port [p] while [cur] is selected: a newline is followed by a
    carriage return on the selected port. *)
Definition expand (p cur : Z) (s : list Z) : list (Z * Z) :=
  s ≫= fun ch => (utxh (s5p_get_base_uart p), u8 ch) ::
    (if ch =? 0x0A then [(utxh (s5p_get_base_uart cur), 0x0D)] else []).

Section Sending.
Context {D : Type} {B : Bus D} {fuel : nat} {T : SerialTx D fuel}.

Lemma putc_wait_stores n : forall p b (h h' : hw D),
  putc_wait n p h = Ok (b, h') -> wrote h h' [].
Proof.
  unfold wrote. induction n as [|n IH]; intros p b h h'; simpl; [done|].
  unfold io_bind at 1. cbn [mmio_read res_bind fst snd]. destruct (tst _ _).
  - unfold serial_err_check, io_bind. cbn [mmio_read res_bind fst snd io_ret]. destruct (_ =? 0).
    + intros H%IH. rewrite H. simpl. by rewrite !stores_app, !app_nil_r.
    + intros [= <- <-]. simpl. by rewrite !stores_app, !app_nil_r.
  - intros [= <- <-]. simpl. by rewrite !stores_app, !app_nil_r.
Qed.

Lemma putc_raw_sends c ch p (h : hw D) :
  enabled c = true -> ser_ok (dev h) ->
  runs (putc_raw fuel c ch p) h (fun b h' => b = true /\ ser_ok (dev h') /\
    wrote h h' [(utxh (s5p_get_base_uart p), u8 ch)]).
Proof.
  intros Hen Hok. unfold putc_raw. rewrite Hen. cbn [negb].
  destruct (ser_room p h Hok) as (h1 & E & Hok1). pose proof (putc_wait_stores _ _ _ _ _ E) as Hw.
  eapply (runs_bind _ _ _ (fun b h' => b = true /\ h' = h1)); [by exists true, h1|]. intros b ? [-> ->].
  eexists true, _. split; [reflexivity|]. simpl. split; [done|]. split; [by apply ser_accept|].
  unfold wrote in *. simpl. rewrite stores_app, Hw, app_nil_r. done.
Qed.

Lemma putc_dev_sends c ch p (h : hw D) :
  enabled c = true -> get_current c = ((get_current c).1, c) -> ser_ok (dev h) ->
  runs (serial_putc_dev fuel c ch p) h (fun c' h' => c' = c /\ ser_ok (dev h') /\
    wrote h h' (expand p (get_current c).1 [ch])).
Proof.
  intros Hen Hcur Hok. unfold serial_putc_dev.
  eapply runs_bind; [by apply putc_raw_sends|]. intros b h1 (-> & Hok1 & Hw1).
  unfold expand. cbn [mbind list_bind andb]. rewrite app_nil_r.
  destruct (ch =? 0x0A); [|by apply runs_ret].
  rewrite Hcur. eapply runs_bind; [by apply putc_raw_sends|]. intros _ h2 (_ & Hok2 & Hw2).
  apply runs_ret. split; [done|]. split; [done|]. cbn [fst]. by apply (wrote_trans _ _ _ _ _ Hw1 Hw2).
Qed.

Lemma puts_dev_sends s : forall c p (h : hw D),
  enabled c = true -> get_current c = ((get_current c).1, c) -> ser_ok (dev h) ->
  runs (serial_puts_dev fuel c s p) h (fun c' h' => c' = c /\ ser_ok (dev h') /\
    wrote h h' (expand p (get_current c).1 s)).
Proof.
  induction s as [|ch s IH]; intros c p h Hen Hcur Hok; simpl.
  - apply runs_ret. split; [done|]. split; [done|]. apply wrote_nil.
  - eapply runs_bind; [by apply putc_dev_sends|]. intros ? h1 (-> & Hok1 & Hw1).
    eapply runs_mono; [by apply IH|]. intros c' h2 (-> & Hok2 & Hw2). split; [done|]. split; [done|].
    unfold expand in *. cbn [mbind list_bind] in *. rewrite app_nil_r in Hw1.
    by apply (wrote_trans _ _ _ _ _ Hw1 Hw2).
Qed.
End Sending.

(** ** Properties *)

(** The number of one bits of a 16-bit slot value. *)
Definition popcount16 (v : Z) : Z := Z.of_nat (length (filter (fun i => Z.testbit v i = true) (seqZ 0 16))).

Lemma udivslot_popcount k : 0 <= k < 16 ->
  exists s, udivslot !! Z.to_nat k = Some s /\ popcount16 s = k /\ 0 <= s < 2 ^ 16.
Proof.
  intros Hk.
  assert (forall n, (n < 16)%nat -> exists s, udivslot !! n = Some s /\ popcount16 s = Z.of_nat n /\ 0 <= s < 2 ^ 16)
    as H.
  { intros n Hn. do 16 (destruct n as [|n]; [eexists; split; [reflexivity|]; split; [vm_compute; reflexivity|lia]|]).
    lia. }
  destruct (H (Z.to_nat k)) as (s & E & Hp & Hs); [lia|]. exists s. rewrite Hp. split; [done|]. lia.
Qed.

(** Setting the baud rate.  The driver stores a divider [d] and a slot pattern [s]
    that together encode the divisor exactly, 16 (d + 1) + (one bits of s), and this
    divisor is the largest one whose rate is not below the one asked for.  Below a divisor of 16 the
    divider register wraps to 2^32 - 1; with a baud rate of zero the division is
    undefined; a disabled port is left alone. *)
Theorem serial_setbrg_divisor {D} {B : Bus D} cpu c baudrate p (h h1 : hw D) uclk :
  get_uart_clk cpu p h = Ok (uclk, h1) -> 0 <= uclk < 2 ^ 32 -> 0 <= baudrate < 2 ^ 32 ->
  (enabled c = false -> serial_setbrg_dev cpu c baudrate p h = Ok (tt, h1)) /\
  (enabled c = true -> baudrate = 0 -> serial_setbrg_dev cpu c baudrate p h = Ub) /\
  (enabled c = true -> 0 < baudrate -> exists h' d s,
    serial_setbrg_dev cpu c baudrate p h = Ok (tt, h') /\
    wrote h1 h' [(ubrdiv (s5p_get_base_uart p), d); (uslot (s5p_get_base_uart p), s)] /\
    let divisor := 16 * (d + 1) + popcount16 s in
    (uclk < 16 * baudrate -> d = 2 ^ 32 - 1) /\
    (16 * baudrate <= uclk -> divisor * baudrate <= uclk < (divisor + 1) * baudrate)).
Proof.
  intros Hclk Hu Hb.
  assert (serial_setbrg_dev cpu c baudrate p h = (if negb (enabled c) then io_ret tt else
    val <- io_lift (udivl uclk (u32 baudrate)) ;;
    mmio_write (ubrdiv (s5p_get_base_uart p)) (u32 (val / 16 - 1)) ;;;
    mmio_write16 (uslot (s5p_get_base_uart p)) (default 0 (udivslot !! Z.to_nat (val mod 16)))) h1) as ->.
  { unfold serial_setbrg_dev. unfold io_bind at 1. by rewrite Hclk. }
  split; [intros Hen; by rewrite Hen|]. split; [intros Hen ->; rewrite Hen; reflexivity|]. intros Hen Hpos. rewrite Hen. cbn [negb].
  rewrite (wrap_small 32 baudrate) by lia. unfold udivl. rewrite (proj2 (Z.eqb_neq baudrate 0)) by lia.
  set (val := uclk / baudrate). assert (0 <= val < 2 ^ 32).
  { split; [apply Z.div_pos; lia|]. apply Z.div_lt_upper_bound; nia. }
  pose proof (Z.mod_pos_bound val 16). pose proof (Z.div_mod val 16 ltac:(lia)) as Hdm.
  destruct (udivslot_popcount (val mod 16)) as (s & Es & Hs & Hsr); [lia|]. 
  eexists _, (u32 (val / 16 - 1)), s. split; [unfold io_bind, io_lift; cbn [res_bind fst snd]; rewrite Es; reflexivity|]. split.
  { unfold wrote. simpl. rewrite !stores_app, wrap_idem, (wrap_small 16 s) by lia. by rewrite <- app_assoc. }
  cbv zeta. split; intros Hsmall.
  - assert (val < 16) by (apply Z.div_lt_upper_bound; lia).
    rewrite (Z.div_small val 16) by lia. reflexivity.
  - assert (16 <= val) by (apply Z.div_le_lower_bound; lia).
    assert (1 <= val / 16) by (apply Z.div_le_lower_bound; lia).
    assert (val / 16 < 2 ^ 32) by (apply Z.div_lt_upper_bound; lia).
    rewrite wrap_small by lia. rewrite Hs.
    replace (16 * (val / 16 - 1 + 1) + val mod 16) with val by lia.
    pose proof (Z.mul_div_le uclk baudrate ltac:(lia)) as Hlo.
    pose proof (Z.mul_succ_div_gt uclk baudrate ltac:(lia)) as Hhi. fold val in Hlo, Hhi. lia.
Qed.

(** 115200 baud at 66.7 MHz: divisor 578, that is 35 and two slots. *)
Lemma serial_setbrg_divisor_witness :
  exists h1 h' d s, get_uart_clk 0xc110 2 (Hw psys_regs []) = Ok (66700000, h1) /\
    serial_setbrg_dev 0xc110 (Core true [] None true) 115200 2 (Hw psys_regs []) = Ok (tt, h') /\
    wrote h1 h' [(0xE2900828, d); (0xE290082C, s)] /\ d = 35 /\ popcount16 s = 2.
Proof.
  assert (Hclk : exists h1, get_uart_clk 0xc110 2 (Hw psys_regs []) = Ok (66700000, h1))
    by (eexists; vm_compute; reflexivity).
  destruct Hclk as (h1 & Hclk). exists h1.
  destruct (serial_setbrg_divisor 0xc110 (Core true [] None true) 115200 2 (Hw psys_regs []) h1 66700000
    Hclk ltac:(lia) ltac:(lia)) as (_ & _ & H).
  destruct (H eq_refl ltac:(lia)) as (h' & d & s & E & Hw & _ & Hd). exists h', d, s.
  split; [exact Hclk|]. split; [exact E|]. split; [exact Hw|]. specialize (Hd ltac:(lia)). cbv zeta in Hd.
  vm_compute in E. injection E as <-. injection Hclk as <-. vm_compute in Hw. injection Hw as <- <-.
  split; reflexivity.
Defined.

(** Output.  A string given to [serial_puts] goes, byte by byte, to the selected
    port (before relocation, or when none was selected, the board's default port, which the
    call switches on); every newline is followed by a carriage return.  Printed on a
    port that is not the selected one ([serial_puts_dev]), the carriage returns still go to
    the selected port. *)
Theorem serial_puts_sends {D} {B : Bus D} {fuel} {T : SerialTx D fuel} c s p (h : hw D) :
  let cur := (get_current c).1 in let c' := (get_current c).2 in
  enabled c' = true -> ser_ok (dev h) ->
  runs (serial_puts fuel c s) h (fun r h' => r = c' /\ ser_ok (dev h') /\ wrote h h' (expand cur cur s)) /\
  runs (serial_puts_dev fuel c' s p) h (fun r h' => r = c' /\ ser_ok (dev h') /\ wrote h h' (expand p cur s)).
Proof.
  intros cur c' Hen Hok. pose proof (get_current_idem c) as Hi.
  assert (get_current c' = ((get_current c').1, c')) as Hi2.
  { unfold c' at 1. rewrite Hi. unfold c'. rewrite Hi. by destruct (get_current c). }
  assert ((get_current c').1 = cur) as Hc by (unfold c', cur; by rewrite Hi).
  pose proof (puts_dev_sends s c' cur h Hen Hi2 Hok) as H1. pose proof (puts_dev_sends s c' p h Hen Hi2 Hok) as H2.
  rewrite Hc in H1, H2. split; [|done].
  unfold serial_puts. subst cur c'. destruct (get_current c). exact H1.
Qed.

(** Ports that are busy for one poll after every byte, and log what they are given. *)
Module SimSerial.
Record ports := Ports { busy : bool; lines : list (Z * Z) }.
#[global] Instance ports_bus : Bus ports := {|
  dev_val a d := if busy d then TX_FIFO_FULL_MASK else 0;
  dev_rd a d := Ports false (lines d);
  dev_wr a v d := Ports true (lines d ++ [(a, v)])
|}.
#[global] Instance ports_tx : SerialTx ports 2.
Proof.
  refine {| ser_ok := fun _ => True |}; [|done].
  intros p h _. destruct h as [[[] l] log].
  - eexists. split; [|done]. unfold putc_wait, io_bind. reflexivity.
  - eexists. split; [|done]. reflexivity.
Defined.
End SimSerial.

Lemma serial_puts_sends_witness :
  runs (serial_puts 2 (Core true [3; 2; 1; 0] (Some 1) true) [0x48; 0x0A]) (Hw (SimSerial.Ports true []) [])
    (fun r h' => r = Core true [3; 2; 1; 0] (Some 1) true /\
      wrote (Hw (SimSerial.Ports true []) []) h' [(0xE2900420, 0x48); (0xE2900420, 0x0A); (0xE2900420, 0x0D)]).
Proof.
  destruct (serial_puts_sends (T := SimSerial.ports_tx) (Core true [3; 2; 1; 0] (Some 1) true) [0x48; 0x0A] 0
    (Hw (SimSerial.Ports true []) []) eq_refl I) as [H _].
  eapply runs_mono; [exact H|]. intros r h' (-> & _ & Hw). split; [reflexivity|exact Hw].
Defined.
