(* ===== verification/S5pNand.v ===== *)
(** * The NAND driver of the second stage
    ([drivers/mtd/nand/s5pv210_nand.c] and the page-write path of [drivers/mtd/nand/nand_base.c])

    The board driver hands the generic NAND core a table of functions ([nand_ops]) and keeps in
    the chip structure the address to which the next byte goes.  The core drives the chip only
    through that table.  The theorems: the command function of the core together with the board
    driver produces the cycles the chip expects, and a page written by the second stage is
    what the first stage reads back at the next boot, if the ECC engine has its codes ready in time:
    the driver does not wait for them, and on a slow engine ([Slow]) it stores something else. *)
From S2P Require Import Prelude Mmio Nand NandProps.

(** The register structure starts at [samsung_get_base_nand()], which is where the first
    stage has its controller. *)
Definition nand_base : Z := 0xB0E00000.

Definition NAND_NCE : Z := 0x01.
Definition NAND_CLE : Z := 0x02.
Definition NAND_ALE : Z := 0x04.
Definition NAND_CTRL_CHANGE : Z := 0x80.

Definition NAND_CMD_READ0 : Z := 0.
Definition NAND_CMD_RNDOUT : Z := 5.
Definition NAND_CMD_PAGEPROG : Z := 0x10.
Definition NAND_CMD_READOOB : Z := 0x50.
Definition NAND_CMD_ERASE1 : Z := 0x60.
Definition NAND_CMD_STATUS : Z := 0x70.
Definition NAND_CMD_STATUS_MULTI : Z := 0x71.
Definition NAND_CMD_SEQIN : Z := 0x80.
Definition NAND_CMD_RNDIN : Z := 0x85.
Definition NAND_CMD_ERASE2 : Z := 0xd0.
Definition NAND_CMD_RESET : Z := 0xff.
Definition NAND_CMD_READSTART : Z := 0x30.
Definition NAND_CMD_RNDOUTSTART : Z := 0xE0.
Definition NAND_CMD_CACHEDPROG : Z := 0x15.
Definition NAND_CMD_DEPLETE1 : Z := 0x100.
Definition NAND_CMD_STATUS_ERROR : Z := 0x72.
Definition NAND_CMD_STATUS_ERROR0 : Z := 0x73.
Definition NAND_CMD_STATUS_ERROR1 : Z := 0x74.
Definition NAND_CMD_STATUS_ERROR2 : Z := 0x75.
Definition NAND_CMD_STATUS_ERROR3 : Z := 0x76.
Definition NAND_CMD_NONE : Z := -1.
Definition NAND_STATUS_FAIL : Z := 0x01.
Definition NAND_STATUS_READY : Z := 0x40.
Definition NAND_ECC_READ : Z := 0.
Definition NAND_ECC_WRITE : Z := 1.
Definition NAND_BUSWIDTH_16 : Z := 0x00000002.
Definition NAND_IS_AND : Z := 0x00000020.
Definition CONFIG_SYS_NAND_ECCSIZE : Z := 512.
Definition CONFIG_SYS_NAND_ECCBYTES : Z := 13.
Definition EIO : Z := 5.

(** The fields of [struct nand_chip] that change during an operation, and of [struct
    mtd_info] and [struct nand_chip] that describe the chip. *)
Record nand_chip := NandChip_ {
  IO_ADDR_R : Z;
  IO_ADDR_W : Z;
  oob_poi : list Z;
  erasing : bool
}.
Definition set_W (w : Z) (c : nand_chip) : nand_chip := NandChip_ (IO_ADDR_R c) w (oob_poi c) (erasing c).
Definition set_oob (l : list Z) (c : nand_chip) : nand_chip := NandChip_ (IO_ADDR_R c) (IO_ADDR_W c) l (erasing c).

Record geometry := Geometry {
  writesize : Z;
  oobsize : nat;
  chipsize : Z;
  options : Z;
  chip_delay : Z;
  ecc_steps : nat;
  ecc_total : nat
}.

(** The functions and constants a board driver installs. *)
Record nand_ops (D : Type) := NandOps {
  select_chip : Z -> nand_chip -> io D nand_chip;
  cmd_ctrl : Z -> Z -> nand_chip -> io D nand_chip;
  dev_ready : option (io D Z);
  ecc_hwctl : Z -> io D unit;
  ecc_calculate : io D (Z * list Z);
  ecc_correct : list Z -> list Z -> io D Z;
  ecc_read_page : list Z -> Z -> io D (Z * list Z);
  ecc_size : nat;
  ecc_bytes : nat;
  ecc_strength : Z;
  eccpos : list nat;
  oobfree : list (nat * nat)
}.
Arguments select_chip {D}.
Arguments cmd_ctrl {D}.
Arguments dev_ready {D}.
Arguments ecc_hwctl {D}.
Arguments ecc_calculate {D}.
Arguments ecc_correct {D}.
Arguments ecc_read_page {D}.
Arguments ecc_size {D}.
Arguments ecc_bytes {D}.
Arguments ecc_strength {D}.
Arguments eccpos {D}.
Arguments oobfree {D}.

(** ** The board driver *)
Section Board.
Context {D : Type} {B : Bus D} (NF8_ReadPage_Adv : Z -> Z -> list Z -> io D (Z * list Z)).

Definition s5pv210_hwcontrol (cmd ctrl : Z) (chip : nand_chip) : io D nand_chip :=
  chip <- (if tst ctrl NAND_CTRL_CHANGE then
             let w := if tst ctrl NAND_CLE then nand_base .| 0x8
                      else if tst ctrl NAND_ALE then nand_base .| 0xC else nand_base in
             (if tst ctrl NAND_NCE then mmio_and NFCONT (~32 (1 .<< 1)) else mmio_or NFCONT (1 .<< 1)) ;;;
             io_ret (set_W w chip)
           else io_ret chip) ;;
  if negb (cmd =? NAND_CMD_NONE) then mmio_write8 (IO_ADDR_W chip) cmd ;;; io_ret chip
  else io_ret (set_W NFDATA chip).

Definition s5pv210_dev_ready : io D Z := v <- mmio_read NFSTAT ;; io_ret (v .& 0x01).

Definition s5pv210_nand_enable_hwecc (mode : Z) : io D unit :=
  mmio_or NFCONF (0x3 .<< 23) ;;;
  (if mode =? NAND_ECC_READ then io_ret tt
   else if mode =? NAND_ECC_WRITE then
     mmio_or NFECCCONT (0x1 .<< 16) ;;;
     mmio_or NFECCSTAT (0x1 .<< 25)
   else io_ret tt) ;;;
  mmio_or NFCONT (0x1 .<< 5) ;;;
  mmio_write NFECCCONF ((511 .<< 16) .| 0x3) ;;;
  mmio_or NFSTAT ((0x1 .<< 4) .| (0x1 .<< 5)) ;;;
  mmio_or NFECCCONT (0x1 .<< 2) ;;;
  mmio_and NFCONT (~32 (0x1 .<< 7)).

(** The result and the 13 bytes stored to [ecc_code]. *)
Definition s5pv210_nand_calculate_ecc : io D (Z * list Z) :=
  mmio_or NFCONT (1 .<< 7) ;;;
  nfeccprgecc0 <- mmio_read NFECCPRGECC0 ;;
  nfeccprgecc1 <- mmio_read NFECCPRGECC1 ;;
  nfeccprgecc2 <- mmio_read NFECCPRGECC2 ;;
  nfeccprgecc3 <- mmio_read NFECCPRGECC3 ;;
  io_ret (0, [nfeccprgecc0 .& 0xff; (nfeccprgecc0 .>> 8) .& 0xff;
              (nfeccprgecc0 .>> 16) .& 0xff; (nfeccprgecc0 .>> 24) .& 0xff;
              nfeccprgecc1 .& 0xff; (nfeccprgecc1 .>> 8) .& 0xff;
              (nfeccprgecc1 .>> 16) .& 0xff; (nfeccprgecc1 .>> 24) .& 0xff;
              nfeccprgecc2 .& 0xff; (nfeccprgecc2 .>> 8) .& 0xff;
              (nfeccprgecc2 .>> 16) .& 0xff; (nfeccprgecc2 .>> 24) .& 0xff;
              nfeccprgecc3 .& 0xff]).

(** [NF8_ReadPage_Adv] is a function of the boot ROM. *)
Definition s5pv210_nand_read_page_hwecc (buf : list Z) (page : Z) : io D (Z * list Z) :=
  NF8_ReadPage_Adv (Z.quot page 64) (Z.rem page 64) buf.

(** Reading a code that is shorter than three bytes is undefined. *)
Definition s5pv210_nand_correct_data (read_ecc calc_ecc : list Z) : io D Z :=
  match read_ecc, calc_ecc with
  | r0 :: r1 :: r2 :: _, c0 :: c1 :: c2 :: _ =>
    if (r0 =? c0) && (r1 =? c1) && (r2 =? c2) then io_ret 0 else io_ret (-1)
  | _, _ => fun _ => Ub
  end.

(** [BUG()] stops the boot loader. *)
Definition s5pv210_nand_select_chip (ctl : Z) (chip : nand_chip) : io D nand_chip :=
  if ctl =? -1 then s5pv210_hwcontrol NAND_CMD_NONE (0 .| NAND_CTRL_CHANGE) chip
  else if ctl =? 0 then s5pv210_hwcontrol NAND_CMD_NONE (NAND_NCE .| NAND_CTRL_CHANGE) chip
  else fun _ => Hang.

(** The layout of the spare area: 52 code bytes from 12 on, ten free bytes from 2 on. *)
Definition nand_oob_64_eccpos : list nat := seq 12 52.
Definition nand_oob_64_oobfree : list (nat * nat) := [(2, 10)%nat].

Definition board_ops : nand_ops D :=
  NandOps D s5pv210_nand_select_chip s5pv210_hwcontrol (Some s5pv210_dev_ready)
    s5pv210_nand_enable_hwecc s5pv210_nand_calculate_ecc s5pv210_nand_correct_data
    s5pv210_nand_read_page_hwecc (Z.to_nat CONFIG_SYS_NAND_ECCSIZE) (Z.to_nat CONFIG_SYS_NAND_ECCBYTES) 1
    nand_oob_64_eccpos nand_oob_64_oobfree.

Definition board_nand_init (chip : nand_chip) : io D (Z * nand_chip * nand_ops D) :=
  let cfg := (0x1 .<< 23) .| (0x3 .<< 12) .| (0x2 .<< 8) .| (0x1 .<< 4)
    .| (0x0 .<< 3) .| (0x0 .<< 2) .| (0x1 .<< 1) in
  mmio_write NFCONF cfg ;;;
  mmio_write NFCONT ((0x1 .<< 1) .| (0x1 .<< 0)) ;;;
  mmio_and MP0_1CON (~32 (0xFFFF .<< 8)) ;;;
  mmio_or MP0_1CON (0x3333 .<< 8) ;;;
  mmio_write MP0_3CON 0x22222222 ;;;
  mmio_write MP0_6CON 0x22222222 ;;;
  io_ret (0, NandChip_ NFDATA NFDATA (oob_poi chip) (erasing chip), board_ops).
End Board.

(** ** The generic core: commands, waiting, data, the page write

    [get_timer] and [udelay] are the board's time functions (module [S5pTimer]); here they are
    any computations on the device. *)
Section Core.
Context {D : Type} {B : Bus D} (fuel : nat).
Context (get_timer : Z -> io D Z) (udelay : Z -> io D unit) (rst_sts_cnt : nat).
Context (ops : nand_ops D) (geo : geometry).

Definition nand_read_byte (chip : nand_chip) : io D Z := mmio_read8 (IO_ADDR_R chip).

(** Reading [buf] outside its bounds is undefined. *)
Definition nand_write_buf (buf : list Z) (len : nat) (chip : nand_chip) : io D unit :=
  io_for 0 len (fun i => b <- io_lift (res_of_option (buf !! i)) ;; mmio_write8 (IO_ADDR_W chip) b).

(** The bytes stored to [buf[0 .. len-1]]. *)
Definition nand_read_buf (len : nat) (chip : nand_chip) : io D (list Z) :=
  io_collect 0 len (fun _ => mmio_read8 (IO_ADDR_R chip)).

(** [while (get_timer(time_start) < timeo)]; [CONFIG_SYS_HZ] is 1000. *)
Fixpoint wait_ready_loop (n : nat) (time_start timeo : Z) : io D unit :=
  match n with
  | O => fun _ => Hang
  | S n =>
    t <- get_timer time_start ;;
    if t <? timeo then
      match dev_ready ops with
      | Some ready => r <- ready ;; if r =? 0 then wait_ready_loop n time_start timeo else io_ret tt
      | None => wait_ready_loop n time_start timeo
      end
    else io_ret tt
  end.
Definition nand_wait_ready : io D unit :=
  time_start <- get_timer 0 ;; wait_ready_loop fuel time_start ((1000 * 20) / 1000).

(** [while (!(chip->read_byte(mtd) & NAND_STATUS_READY) && (rst_sts_cnt--));] *)
Fixpoint reset_poll (cnt : nat) (chip : nand_chip) : io D unit :=
  b <- nand_read_byte chip ;;
  if tst b NAND_STATUS_READY then io_ret tt
  else match cnt with O => io_ret tt | S cnt => reset_poll cnt chip end.

(** The address cycles. *)
Definition address_cycles (column page_addr : Z) (chip : nand_chip) : io D nand_chip :=
  if negb (column =? -1) || negb (page_addr =? -1) then
    let ctrl := NAND_CTRL_CHANGE .| NAND_NCE .| NAND_ALE in
    r <- (if negb (column =? -1) then
        let column := if tst (options geo) NAND_BUSWIDTH_16 then column .>> 1 else column in
        chip <- cmd_ctrl ops column ctrl chip ;;
        let ctrl := ctrl .& Z.lnot NAND_CTRL_CHANGE in
        chip <- cmd_ctrl ops (column .>> 8) ctrl chip ;;
        io_ret (ctrl, chip)
      else io_ret (ctrl, chip)) ;;
    let '(ctrl, chip) := r in
    if negb (page_addr =? -1) then
      chip <- cmd_ctrl ops page_addr ctrl chip ;;
      chip <- cmd_ctrl ops (page_addr .>> 8) (NAND_NCE .| NAND_ALE) chip ;;
      if chipsize geo >? 128 .<< 20 then cmd_ctrl ops (page_addr .>> 16) (NAND_NCE .| NAND_ALE) chip
      else io_ret chip
    else io_ret chip
  else io_ret chip.

(** Two cycles: a command and back to data. *)
Definition command_and_none (cmd : Z) (chip : nand_chip) : io D nand_chip :=
  chip <- cmd_ctrl ops cmd (NAND_NCE .| NAND_CLE .| NAND_CTRL_CHANGE) chip ;;
  cmd_ctrl ops NAND_CMD_NONE (NAND_NCE .| NAND_CTRL_CHANGE) chip.

(** [ndelay(100)] is [udelay(1)] on this architecture. *)
Definition delay_and_wait (chip : nand_chip) : io D nand_chip :=
  udelay 1 ;;; nand_wait_ready ;;; io_ret chip.

Definition nand_command_lp (command column page_addr : Z) (chip : nand_chip) : io D nand_chip :=
  let '(command, column) := if command =? NAND_CMD_READOOB then (NAND_CMD_READ0, column + writesize geo)
                            else (command, column) in
  chip <- cmd_ctrl ops (command .& 0xff) (NAND_NCE .| NAND_CLE .| NAND_CTRL_CHANGE) chip ;;
  chip <- address_cycles column page_addr chip ;;
  chip <- cmd_ctrl ops NAND_CMD_NONE (NAND_NCE .| NAND_CTRL_CHANGE) chip ;;
  let default chip :=
    match dev_ready ops with
    | None => udelay (chip_delay geo) ;;; io_ret chip
    | Some _ => delay_and_wait chip
    end in
  if bool_decide (command ∈ [NAND_CMD_CACHEDPROG; NAND_CMD_PAGEPROG; NAND_CMD_ERASE1; NAND_CMD_ERASE2;
                             NAND_CMD_SEQIN; NAND_CMD_RNDIN; NAND_CMD_STATUS; NAND_CMD_DEPLETE1])
  then io_ret chip
  else if bool_decide (command ∈ [NAND_CMD_STATUS_ERROR; NAND_CMD_STATUS_ERROR0; NAND_CMD_STATUS_ERROR1;
                                  NAND_CMD_STATUS_ERROR2; NAND_CMD_STATUS_ERROR3])
  then udelay (chip_delay geo) ;;; io_ret chip
  else if command =? NAND_CMD_RESET then
    match dev_ready ops with
    | Some _ => delay_and_wait chip
    | None =>
      udelay (chip_delay geo) ;;;
      chip <- command_and_none NAND_CMD_STATUS chip ;;
      reset_poll rst_sts_cnt chip ;;;
      io_ret chip
    end
  else if command =? NAND_CMD_RNDOUT then command_and_none NAND_CMD_RNDOUTSTART chip
  else if command =? NAND_CMD_READ0 then
    chip <- command_and_none NAND_CMD_READSTART chip ;; default chip
  else default chip.

(** [false] is the time-out. *)
Fixpoint wait_loop (n : nat) (time_start timeo : Z) (chip : nand_chip) : io D bool :=
  match n with
  | O => fun _ => Hang
  | S n =>
    t <- get_timer time_start ;;
    if t >? timeo then io_ret false
    else
      match dev_ready ops with
      | Some ready => r <- ready ;; if r =? 0 then wait_loop n time_start timeo chip else io_ret true
      | None =>
        b <- nand_read_byte chip ;;
        if tst b NAND_STATUS_READY then io_ret true else wait_loop n time_start timeo chip
      end
  end.

Definition nand_wait (chip : nand_chip) : io D (Z * nand_chip) :=
  let timeo := if erasing chip then (1000 * 400) / 1000 else (1000 * 20) / 1000 in
  chip <- nand_command_lp (if erasing chip && tst (options geo) NAND_IS_AND then NAND_CMD_STATUS_MULTI
                           else NAND_CMD_STATUS) (-1) (-1) chip ;;
  time_start <- get_timer 0 ;;
  ok <- wait_loop fuel time_start timeo chip ;;
  if ok then b <- nand_read_byte chip ;; io_ret (b, chip) else io_ret (0x01, chip).

(** The loop over the chunks; the result is the array [ecc_calc]. *)
Fixpoint hwecc_chunks (eccsteps i : nat) (p ecc_calc : list Z) (chip : nand_chip) : io D (list Z) :=
  match eccsteps with
  | O => io_ret ecc_calc
  | S eccsteps =>
    ecc_hwctl ops NAND_ECC_WRITE ;;;
    nand_write_buf p (ecc_size ops) chip ;;;
    r <- ecc_calculate ops ;;
    ecc_calc <- io_lift (res_of_option (store_block ecc_calc i r.2)) ;;
    hwecc_chunks eccsteps (i + ecc_bytes ops) (drop (ecc_size ops) p) ecc_calc chip
  end.

(** [chip->oob_poi[eccpos[i]] = ecc_calc[i]] for [i] from 0 to [n - 1]. *)
Fixpoint place_codes (n i : nat) (ecc_calc oob : list Z) : res (list Z) :=
  match n with
  | O => Ok oob
  | S n =>
    let* pos := res_of_option (eccpos ops !! i) in
    let* b := res_of_option (ecc_calc !! i) in
    let* oob := res_of_option (store_block oob pos [b]) in
    place_codes n (S i) ecc_calc oob
  end.

(** [ecccalc] is the buffer of the chip structure. *)
Definition nand_write_page_hwecc (ecccalc buf : list Z) (chip : nand_chip) : io D (Z * nand_chip) :=
  ecc_calc <- hwecc_chunks (ecc_steps geo) 0 buf ecccalc chip ;;
  oob <- io_lift (place_codes (ecc_total geo) 0 ecc_calc (oob_poi chip)) ;;
  nand_write_buf oob (oobsize geo) chip ;;;
  io_ret (0, set_oob oob chip).

Definition nand_write_page_raw (buf : list Z) (oob_required : bool) (chip : nand_chip) : io D (Z * nand_chip) :=
  nand_write_buf buf (Z.to_nat (writesize geo)) chip ;;;
  (if oob_required then nand_write_buf (oob_poi chip) (oobsize geo) chip else io_ret tt) ;;;
  io_ret (0, chip).

(** The board has no [errstat]; cached programming is switched off. *)
Definition nand_write_page (ecccalc buf : list Z) (oob_required : bool) (page : Z) (raw : bool)
    (chip : nand_chip) : io D (Z * nand_chip) :=
  chip <- nand_command_lp NAND_CMD_SEQIN 0x00 page chip ;;
  r <- (if raw then nand_write_page_raw buf oob_required chip
                      else nand_write_page_hwecc ecccalc buf chip) ;;
  let '(status, chip) := r in
  if status <? 0 then io_ret (status, chip)
  else
    chip <- nand_command_lp NAND_CMD_PAGEPROG (-1) (-1) chip ;;
    r <- nand_wait chip ;;
    let '(status, chip) := r in
    if tst status NAND_STATUS_FAIL then io_ret (- EIO, chip) else io_ret (0, chip).

(** Erasing one block. *)
Definition single_erase_cmd (page : Z) (chip : nand_chip) : io D nand_chip :=
  chip <- nand_command_lp NAND_CMD_ERASE1 (-1) page chip ;;
  nand_command_lp NAND_CMD_ERASE2 (-1) (-1) chip.
End Core.

(** ** The driver against the chip *)

(** On top of the chip: time passes without disturbing it, and a page program is over before
    the 20 ms the core waits for it. *)
Class NandTimed (D : Type) {B : Bus D} {E : EccCodec} (fuel : nat) {N : NandChip D fuel}
    (ops : nand_ops D) (get_timer : Z -> io D Z) := {
  ready_in_time chip h : exists h',
    (t <- get_timer 0 ;; wait_loop get_timer ops fuel t 20 chip) h = Ok (true, h') /\
    chip_of (dev h') = chip_of (dev h)
}.

(** A chip with five address cycles, four chunks of 512 bytes and 13 bytes of code each, on an
    eight-bit bus. *)
Definition large_page (geo : geometry) : Prop :=
  writesize geo = 2048 /\ oobsize geo = 64%nat /\ 128 .<< 20 < chipsize geo /\
  tst (options geo) NAND_BUSWIDTH_16 = false /\ ecc_steps geo = 4%nat /\ ecc_total geo = 52%nat.

Section Writing.
Context {D : Type} {B : Bus D} {E : EccCodec} {fuel : nat} {N : NandChip D fuel}.
Context (rom : Z -> Z -> list Z -> io D (Z * list Z)).
Context (get_timer : Z -> io D Z) (udelay : Z -> io D unit) (rst_sts_cnt : nat) (geo : geometry).
Context {T : NandTimed D fuel (board_ops rom) get_timer}.
Let ops : nand_ops D := board_ops rom.
#[local] Arguments Z.clearbit : simpl never.
#[local] Arguments Z.testbit : simpl never.

Lemma goes_ext {A} (m m' : io D A) v a v' :
  (forall h, m h = m' h) -> goes m' v a v' -> goes m v a v'.
Proof. intros Hm Hg h Hs. destruct (Hg h Hs) as (r & h' & E' & P). exists r, h'. by rewrite Hm. Qed.

(** A byte store is a word store of the low byte. *)
Lemma goes_write8_word a k v x v' : goes (mmio_write a (u8 k)) v x v' -> goes (mmio_write8 a k) v x v'.
Proof.
  apply goes_ext. intros h. unfold mmio_write8, mmio_write.
  pose proof (wrap_range 8 k ltac:(done)). by rewrite (wrap_small 32 (u8 k)) by lia.
Qed.

(** The three ways the core uses [cmd_ctrl]. *)
Lemma goes_hw_command k chip s o e cs id cm ad rg co fd v' :
  0 <= k < 256 -> goes (nand_cmd k) (View true o e cs id cm ad rg co fd) tt v' ->
  goes (s5pv210_hwcontrol k (NAND_NCE .| NAND_CLE .| NAND_CTRL_CHANGE) chip)
    (View s o e cs id cm ad rg co fd) (set_W NFCMMD chip) v'.
Proof.
  intros Hk Hc. change (s5pv210_hwcontrol k (NAND_NCE .| NAND_CLE .| NAND_CTRL_CHANGE) chip) with
    (chip <- (mmio_and NFCONT (~32 (1 .<< 1)) ;;; io_ret (set_W NFCMMD chip)) ;;
     if negb (k =? NAND_CMD_NONE) then mmio_write8 (IO_ADDR_W chip) k ;;; io_ret chip
     else io_ret (set_W NFDATA chip)).
  destruct (Z.eqb_spec k NAND_CMD_NONE); [unfold NAND_CMD_NONE in *; lia|]. cbn [negb].
  eapply goes_bind; [eapply goes_bind; [apply goes_select|apply goes_ret]|]. cbv beta.
  eapply goes_bind; [|apply goes_ret]. apply goes_write8_word. rewrite wrap_small by done. exact Hc.
Qed.

Lemma goes_hw_address k chip o e cs id cm ad rg co fd :
  0 <= k ->
  goes (s5pv210_hwcontrol k (NAND_NCE .| NAND_ALE) (set_W NFADDR chip))
    (View true o e cs id cm ad rg co fd) (set_W NFADDR chip)
    (View true o e cs id cm (ad ++ [u8 k]) rg
      (if (cm =? 0x80) && (length (ad ++ [u8 k]) =? 5)%nat then Z.to_nat (cycles (take 2 (ad ++ [u8 k])))
       else if cm =? 0x90 then O else co) fd).
Proof.
  intros Hk. change (s5pv210_hwcontrol k (NAND_NCE .| NAND_ALE) (set_W NFADDR chip)) with
    (chip <- io_ret (set_W NFADDR chip) ;;
     if negb (k =? NAND_CMD_NONE) then mmio_write8 (IO_ADDR_W chip) k ;;; io_ret chip
     else io_ret (set_W NFDATA chip)).
  destruct (Z.eqb_spec k NAND_CMD_NONE); [unfold NAND_CMD_NONE in *; lia|]. cbn [negb].
  eapply goes_bind; [apply goes_ret|]. cbv beta.
  eapply goes_bind; [|apply goes_ret]. apply goes_write8_word, goes_address.
  pose proof (wrap_range 8 k ltac:(done)). lia.
Qed.

(** The first address cycle also selects the chip again. *)
Lemma goes_hw_address_first k chip o e cs id cm ad rg co fd v' :
  0 <= k ->
  goes (s5pv210_hwcontrol k (NAND_NCE .| NAND_ALE) (set_W NFADDR chip))
    (View true o e cs id cm ad rg co fd) (set_W NFADDR chip) v' ->
  goes (s5pv210_hwcontrol k (NAND_CTRL_CHANGE .| NAND_NCE .| NAND_ALE) chip)
    (View true o e cs id cm ad rg co fd) (set_W NFADDR chip) v'.
Proof.
  intros Hk H. change (s5pv210_hwcontrol k (NAND_CTRL_CHANGE .| NAND_NCE .| NAND_ALE) chip) with
    (chip <- (mmio_and NFCONT (~32 (1 .<< 1)) ;;; io_ret (set_W NFADDR chip)) ;;
     if negb (k =? NAND_CMD_NONE) then mmio_write8 (IO_ADDR_W chip) k ;;; io_ret chip
     else io_ret (set_W NFDATA chip)).
  eapply goes_bind; [eapply goes_bind; [apply goes_select|apply goes_ret]|]. exact H.
Qed.

Lemma goes_hw_data chip s o e cs id cm ad rg co fd :
  goes (s5pv210_hwcontrol NAND_CMD_NONE (NAND_NCE .| NAND_CTRL_CHANGE) chip)
    (View s o e cs id cm ad rg co fd) (set_W NFDATA chip) (View true o e cs id cm ad rg co fd).
Proof.
  change (s5pv210_hwcontrol NAND_CMD_NONE (NAND_NCE .| NAND_CTRL_CHANGE) chip) with
    (chip <- (mmio_and NFCONT (~32 (1 .<< 1)) ;;; io_ret (set_W nand_base chip)) ;;
     io_ret (set_W NFDATA chip)).
  eapply goes_bind; [eapply goes_bind; [apply goes_select|apply goes_ret]|]. apply goes_ret.
Qed.

(** The row of the five cycles. *)
Lemma row_cycles page : 0 <= page < 2 ^ 24 -> cycles [u8 page; u8 (page .>> 8); u8 (page .>> 16)] = page.
Proof.
  intros Hp. rewrite !Z.shiftr_div_pow2 by lia. unfold wrap. simpl.
  Z.to_euclidean_division_equations. lia.
Qed.

(** A command without address cycles. *)
Lemma goes_plain_command k chip s o e cs id cm ad rg co fd v' :
  k ∈ [NAND_CMD_PAGEPROG; NAND_CMD_STATUS; NAND_CMD_ERASE2] ->
  goes (nand_cmd k) (View true o e cs id cm ad rg co fd) tt v' ->
  v_sel v' = true ->
  goes (nand_command_lp fuel get_timer udelay rst_sts_cnt ops geo k (-1) (-1) chip)
    (View s o e cs id cm ad rg co fd) (set_W NFDATA chip) v'.
Proof.
  intros Hk Hc Hsel.
  assert (0 <= k < 256 /\ k .& 0xff = k /\ (k =? NAND_CMD_READOOB) = false /\
    bool_decide (k ∈ [NAND_CMD_CACHEDPROG; NAND_CMD_PAGEPROG; NAND_CMD_ERASE1; NAND_CMD_ERASE2;
      NAND_CMD_SEQIN; NAND_CMD_RNDIN; NAND_CMD_STATUS; NAND_CMD_DEPLETE1]) = true) as (Hr & Hm & Ho & Hq).
  { repeat (apply elem_of_cons in Hk as [->|Hk]; [split_and!; (done || reflexivity)|]). by apply elem_of_nil in Hk. }
  unfold nand_command_lp. rewrite Ho, Hq, Hm.
  eapply goes_bind; [by apply goes_hw_command|].
  eapply goes_bind; [apply goes_ret|].
  destruct v'. simpl in Hsel. subst. eapply goes_bind; [apply goes_hw_data|]. apply goes_ret.
Qed.

(** [SEQIN] with column 0: the chip takes data for the page from column 0 on. *)
Lemma goes_seqin page chip s o e cs id cm ad rg co fd :
  0 <= page < 2 ^ 24 -> large_page geo ->
  goes (nand_command_lp fuel get_timer udelay rst_sts_cnt ops geo NAND_CMD_SEQIN 0 page chip)
    (View s o e cs id cm ad rg co fd) (set_W NFDATA chip)
    (View true o e cs id 0x80 [0; 0; u8 page; u8 (page .>> 8); u8 (page .>> 16)] erased 0 fd).
Proof.
  intros Hp (_ & _ & Hcs & H16 & _). unfold nand_command_lp.
  change (NAND_CMD_SEQIN =? NAND_CMD_READOOB) with false. cbv iota.
  eapply goes_bind; [apply goes_hw_command; [done|apply goes_cmd_program]|].
  eapply goes_bind.
  { unfold address_cycles. rewrite H16. change (negb (0 =? -1)) with true. cbn [orb].
    replace (negb (page =? -1)) with true by (destruct (Z.eqb_spec page (-1)); [lia|done]).
    assert ((chipsize geo >? 128 .<< 20) = true) as -> by (apply Z.gtb_lt; lia).
    pose proof (Z.shiftr_nonneg page 8). pose proof (Z.shiftr_nonneg page 16).
    eapply goes_bind.
    { eapply goes_bind; [apply goes_hw_address_first; [lia|by apply goes_hw_address]|].
      eapply goes_bind; [apply goes_hw_address; done|]. apply goes_ret. }
    cbv beta iota. eapply goes_bind; [apply goes_hw_address; lia|].
    eapply goes_bind; [apply goes_hw_address; lia|]. apply goes_hw_address. lia. }
  eapply goes_bind; [apply goes_hw_data|]. apply goes_ret.
Qed.

(** Preparing the engine, as in the first stage. *)
Lemma goes_enable_hwecc s o e cs id cm ad rg co fd :
  goes (s5pv210_nand_enable_hwecc NAND_ECC_WRITE) (View s o e cs id cm ad rg co fd) tt
    (View s true true cs id cm ad rg co []).
Proof.
  unfold s5pv210_nand_enable_hwecc. cbn [Z.eqb NAND_ECC_WRITE NAND_ECC_READ].
  eapply goes_bind; [by apply goes_or_other|].
  eapply goes_bind; [eapply goes_bind; [apply goes_encode_dir|by apply goes_or_other]|].
  eapply goes_bind; [apply goes_init_1bit|].
  eapply goes_bind; [apply goes_write; intros c Hc; exact Hc|].
  eapply goes_bind; [by apply goes_or_other|].
  eapply goes_bind; [apply goes_ecc_init|]. apply goes_unlock.
Qed.

(** *** The codes of the chunks

    The driver reads the code words without waiting for the engine, so what it gets depends on the device.
    [goes_to m v P] says that [m], started with view [v], returns, with a result and a view in [P]. *)
Definition goes_to {A} (m : io D A) (v : view) (P : A -> view -> Prop) : Prop :=
  forall h, sees (chip_of (dev h)) v -> runs m h (fun r h' => exists v', P r v' /\ sees (chip_of (dev h')) v').

Lemma goes_to_ret {A} (a : A) v (P : A -> view -> Prop) : P a v -> goes_to (io_ret a) v P.
Proof. intros HP h Hs. exists a, h. split; [done|]. by exists v. Qed.
Lemma goes_to_bind {A A'} (m : io D A) (f : A -> io D A') v (P : A -> view -> Prop) (Q : A' -> view -> Prop) :
  goes_to m v P -> (forall a v', P a v' -> goes_to (f a) v' Q) -> goes_to (io_bind m f) v Q.
Proof. intros Hm Hf h Hs. eapply runs_bind; [by apply Hm|]. intros r h' (v' & HP & Hs'). by apply (Hf r v'). Qed.
Lemma goes_then {A A'} (m : io D A) (f : A -> io D A') v a v' (Q : A' -> view -> Prop) :
  goes m v a v' -> goes_to (f a) v' Q -> goes_to (io_bind m f) v Q.
Proof. intros Hm Hf h Hs. eapply runs_bind; [by apply Hm|]. intros r h' [-> Hs']. by apply Hf. Qed.
Lemma goes_to_lift {A A'} (r : res A) a (f : A -> io D A') v (P : A' -> view -> Prop) :
  r = Ok a -> goes_to (f a) v P -> goes_to (x <- io_lift r ;; f x) v P.
Proof. intros -> H h Hs. exact (H h Hs). Qed.
Lemma goes_to_runs {A} (m : io D A) h (P : A -> view -> Prop) : chip_sane (chip_of (dev h)) -> goes_to m (view_of (chip_of (dev h))) P ->
  runs m h (fun r h' => exists v', P r v' /\ sees (chip_of (dev h')) v').
Proof. intros Hs Hm. apply Hm, sane_sees, Hs. Qed.

(** The engine has the code of a message ready as soon as it has seen the last byte. *)
Definition ecc_prompt : Prop :=
  forall d, length (fed (chip_of d)) = 512%nat -> Z.testbit (nfecccont (chip_of d)) 16 = true -> ecc_settled d.

(** What is known of the bytes taken for the code of a message. *)
Definition code_read (m c : list Z) : Prop := length c = 13%nat /\ byte_list c /\ (ecc_prompt -> c = ecc_encode m).

Lemma goes_any_word {A} a (K : Z -> io D A) v (P : A -> view -> Prop) :
  a <> NFDATA -> (forall w, 0 <= w < 2 ^ 32 -> goes_to (K w) v P) -> goes_to (x <- mmio_read a ;; K x) v P.
Proof.
  intros Ha HK. apply (goes_to_bind _ _ _ (fun w v' => 0 <= w < 2 ^ 32 /\ v' = v)); [|intros w v' [Hw ->]; by apply HK].
  intros h Hs. eexists _, _. split; [reflexivity|]. exists v. split; [split; [apply wrap_range; lia|done]|]. simpl.
  rewrite chip_of_rd. unfold chip_rd. destruct (Z.eqb_spec a NFDATA); done.
Qed.

Lemma low_byte w : 0 <= w .& 0xff < 256.
Proof. change 0xff with (Z.ones 8). rewrite Z.land_ones by lia. apply Z.mod_pos_bound. lia. Qed.

(** Without the wait: thirteen bytes, and the code if the engine is prompt. *)
Lemma goes_calculate_any s o e cs id cm ad rg co fd :
  goes_to s5pv210_nand_calculate_ecc (View s o e cs id cm ad rg co fd)
    (fun r v' => r.1 = 0 /\ (length r.2 = 13%nat /\ byte_list r.2) /\ v' = View s false e cs id cm ad rg co fd).
Proof.
  unfold s5pv210_nand_calculate_ecc. eapply goes_then; [apply goes_lock|].
  do 4 (apply goes_any_word; [done|]; intros ? _). apply goes_to_ret. split; [done|]. split; [|done]. split; [done|].
  repeat (apply Forall_cons; split; [apply low_byte|]). constructor.
Qed.
Lemma goes_calculate_prompt s o cs id cm ad rg co fd : ecc_prompt -> length fd = 512%nat ->
  goes s5pv210_nand_calculate_ecc (View s o true cs id cm ad rg co fd) (0, ecc_encode fd) (View s false true cs id cm ad rg co fd).
Proof.
  intros Hp Hlen. unfold s5pv210_nand_calculate_ecc. eapply goes_settling.
  - intros h Hs. eapply runs_mono; [exact (goes_lock s o true cs id cm ad rg co fd h Hs)|]. intros r h' [-> Hs']. split; [done|]. split; [exact Hs'|].
    destruct Hs' as (_ & _ & Hv). injection Hv as _ _ He _ _ _ _ _ _ Hfd. apply Hp; [by rewrite <- Hfd|done].
  - apply goes_code_words; [done|]. intros w0 w1 w2 w3 ->. apply goes_ret.
Qed.
Lemma goes_calculate_ecc s o cs id cm ad rg co fd : length fd = 512%nat ->
  goes_to s5pv210_nand_calculate_ecc (View s o true cs id cm ad rg co fd)
    (fun r v' => r.1 = 0 /\ code_read fd r.2 /\ v' = View s false true cs id cm ad rg co fd).
Proof.
  intros Hlen h Hs. destruct (goes_calculate_any s o true cs id cm ad rg co fd h Hs) as (r & h' & E1 & v' & (Hr & Hc & ->) & Hs').
  exists r, h'. split; [done|]. eexists. split; [|exact Hs']. split; [done|]. split; [|done]. split; [apply Hc|]. split; [apply Hc|].
  intros Hp. destruct (goes_calculate_prompt s o cs id cm ad rg co fd Hp Hlen h Hs) as (r' & h'' & E2 & -> & _).
  rewrite E1 in E2. by injection E2 as -> _.
Qed.

(** The code bytes of [n] chunks, one after the other. *)
Fixpoint code_list (P : list Z -> list Z -> Prop) (n : nat) (buf c : list Z) : Prop :=
  match n with
  | O => c = []
  | S n => exists c0 c', c = c0 ++ c' /\ P (take 512 buf) c0 /\ code_list P n (drop 512 buf) c'
  end.

Section Codes.
Context (P : list Z -> list Z -> Prop) (HP : forall m c, P m c -> length c = 13%nat /\ byte_list c).
Hypothesis (Hcalc : forall s o cs id cm ad rg co fd, length fd = 512%nat ->
  goes_to s5pv210_nand_calculate_ecc (View s o true cs id cm ad rg co fd)
    (fun r v' => r.1 = 0 /\ P fd r.2 /\ v' = View s false true cs id cm ad rg co fd)).

Lemma code_list_ok n : forall buf c, code_list P n buf c -> length c = (13 * n)%nat /\ byte_list c.
Proof using HP.
  induction n as [|n IH]; intros buf c; cbn [code_list]; [intros ->; split; [done|constructor]|].
  intros (c0 & c' & -> & H0 & Hc). destruct (HP _ _ H0) as [Hl0 Hb0], (IH _ _ Hc) as [Hl Hb]. rewrite length_app.
  split; [lia|]. by apply Forall_app.
Qed.

Lemma goes_hwecc_chunks n : forall i buf chip opre orest o e cs id ad pre rest fd,
  IO_ADDR_W chip = NFDATA ->
  (512 * n <= length buf)%nat -> byte_list buf -> (512 * n <= length rest)%nat ->
  length opre = i -> (13 * n <= length orest)%nat ->
  goes_to (hwecc_chunks ops n i buf (opre ++ orest) chip)
    (View true o e cs id 0x80 ad (pre ++ rest) (length pre) fd)
    (fun r v' => exists c o' e' fd', code_list P n buf c /\ r = opre ++ c ++ drop (13 * n) orest /\
       v' = View true o' e' cs id 0x80 ad (pre ++ take (512 * n) buf ++ drop (512 * n) rest) (length pre + 512 * n) fd').
Proof using HP Hcalc.
  induction n as [|n IH]; intros i buf chip opre orest o e cs id ad pre rest fd Hw Hb Hbytes Hr Ho Hor.
  { apply goes_to_ret. exists [], o, e, fd. by rewrite Nat.add_0_r. }
  set (m := take 512 buf).
  assert (length m = 512%nat) as Hm by (unfold m; rewrite length_take; lia).
  cbn [hwecc_chunks code_list].
  eapply goes_then; [apply goes_enable_hwecc|].
  eapply goes_then; [unfold nand_write_buf; rewrite Hw; apply (goes_write_buf buf 512 0); [lia|done|lia]|].
  cbn [fed_with app]. rewrite drop_0. fold m.
  eapply goes_to_bind; [by apply Hcalc|]. intros [r c0] v' (_ & HPc & ->). cbn [fst snd] in *.
  destruct (HP _ _ HPc) as [Hc0 _].
  eapply goes_to_lift; [rewrite <- Ho, store_block_app by lia; reflexivity|].
  rewrite Hc0. change (ecc_size ops) with 512%nat. change (ecc_bytes ops) with 13%nat.
  pose proof (IH (i + 13)%nat (drop 512 buf) chip (opre ++ c0) (drop 13 orest) false true cs id ad
    (pre ++ m) (drop 512 rest) m) as H'. rewrite !length_app, Hm, !drop_drop, <- !app_assoc in H'.
  intros h Hs. eapply runs_mono; [apply H'; [done|rewrite length_drop; lia|by apply Forall_drop|rewrite length_drop; lia|lia|rewrite length_drop; lia|exact Hs]|].
  intros r' h' (v' & (c & o' & e' & fd' & Hc & -> & ->) & Hs'). eexists. split; [|exact Hs'].
  exists (c0 ++ c), o', e', fd'. split; [by exists c0, c|]. rewrite <- !app_assoc.
  replace (512 * S n)%nat with (512 + 512 * n)%nat by lia.
  replace (13 * S n)%nat with (13 + 13 * n)%nat by lia.
  rewrite Nat.add_assoc, <- (take_take_drop buf 512 (512 * n)), <- !app_assoc. done.
Qed.
End Codes.

(** The codes go to the bytes 12 to 63 of the spare area. *)
Lemma place_codes_ok n : forall i ecc pre rest,
  length pre = (12 + i)%nat -> (n <= length rest)%nat -> (i + n <= 52)%nat -> (i + n <= length ecc)%nat ->
  place_codes ops n i ecc (pre ++ rest) = Ok (pre ++ take n (drop i ecc) ++ drop n rest).
Proof.
  induction n as [|n IH]; intros i ecc pre rest Hp Hr Hi He; [done|]. cbn [place_codes].
  change (eccpos ops) with (seq 12 52). rewrite lookup_seq_lt by lia.
  destruct (lookup_lt_is_Some_2 ecc i) as [b Hb]; [lia|]. rewrite Hb. cbn [res_of_option res_bind].
  replace (12 + i)%nat with (length pre) by lia. rewrite store_block_app by (simpl; lia).
  cbn [res_of_option res_bind]. rewrite app_assoc. rewrite IH; [|rewrite length_app; simpl; lia
    |rewrite length_drop; simpl; lia|lia|lia].
  rewrite (drop_S ecc b i) by done. cbn [take length]. rewrite drop_drop, <- app_assoc. done.
Qed.

(** A page of data with the bytes [c] in the place of its codes. *)
Definition oob_with (c : list Z) : list Z := replicate 12 0xFF ++ c.
Definition page_with (buf c : list Z) : list Z := take 2048 buf ++ oob_with c.

Lemma page_with_ok buf c : (2048 <= length buf)%nat -> byte_list buf -> length c = 52%nat -> byte_list c -> page_ok (page_with buf c).
Proof.
  intros Hl Hb Hcl Hcb. unfold page_ok, page_with, oob_with. rewrite !length_app, length_take, length_replicate. split; [lia|].
  apply Forall_app. split; [by apply Forall_take|]. apply Forall_app. split; [apply Forall_replicate; lia|done].
Qed.

(** A page of data with the bytes taken for its codes reaches the page register. *)
Lemma goes_write_page_hwecc P ecccalc buf chip o e cs id ad fd :
  (forall m c, P m c -> length c = 13%nat /\ byte_list c) ->
  (forall s o cs id cm ad rg co fd, length fd = 512%nat ->
    goes_to s5pv210_nand_calculate_ecc (View s o true cs id cm ad rg co fd)
      (fun r v' => r.1 = 0 /\ P fd r.2 /\ v' = View s false true cs id cm ad rg co fd)) ->
  IO_ADDR_W chip = NFDATA -> oob_poi chip = replicate 64 0xFF -> large_page geo ->
  (2048 <= length buf)%nat -> byte_list buf -> (52 <= length ecccalc)%nat ->
  goes_to (nand_write_page_hwecc ops geo ecccalc buf chip)
    (View true o e cs id 0x80 ad erased 0 fd)
    (fun r v' => exists c o' e' fd', code_list P 4 buf c /\ r = (0, set_oob (oob_with c) chip) /\
       v' = View true o' e' cs id 0x80 ad (page_with buf c) 2112 fd').
Proof.
  intros HP Hcalc Hw Hoob (_ & Hos & _ & _ & Hst & Htot) Hl Hb Hecc. unfold nand_write_page_hwecc. rewrite Hst, Htot, Hos.
  eapply goes_to_bind.
  { apply (goes_hwecc_chunks P HP Hcalc 4 0 buf chip [] ecccalc o e cs id ad [] erased fd); [done|lia|done|rewrite erased_length; lia|done|lia]. }
  intros r v' (c & o' & e' & fd' & Hc & -> & ->). destruct (code_list_ok P HP _ _ _ Hc) as [Hcl Hcb].
  eapply goes_to_lift.
  { rewrite Hoob. change (replicate 64 0xFF) with (replicate 12 0xFF ++ replicate 52 0xFF).
    rewrite place_codes_ok; [reflexivity|done|done|done|]. rewrite app_nil_l, length_app, Hcl. lia. }
  replace (replicate 12 255 ++ take 52 (drop 0 ([] ++ c ++ drop (13 * 4) ecccalc)) ++ drop 52 (replicate 52 255))
    with (oob_with c).
  2: { change (drop 52 (replicate 52 255)) with (@nil Z). rewrite drop_0, app_nil_l, app_nil_r. unfold oob_with. f_equal.
       by rewrite take_app_length' by lia. }
  assert (length (oob_with c) = 64%nat) as Hol by (unfold oob_with; rewrite length_app, length_replicate; lia).
  assert (byte_list (oob_with c)) as Hob by (apply Forall_app; split; [apply Forall_replicate; lia|done]).
  pose proof (goes_write_buf (oob_with c) 64 0 o' e' cs id ad (take 2048 buf) (drop 2048 erased) fd') as Hbuf.
  rewrite length_take, Nat.min_l in Hbuf by lia.
  rewrite drop_0, (take_ge (oob_with c)), drop_drop in Hbuf by lia.
  rewrite (drop_ge erased (2048 + 64)), app_nil_r in Hbuf by (rewrite erased_length; lia).
  eapply goes_then; [unfold nand_write_buf; rewrite Hw; apply Hbuf; [lia|done|rewrite length_drop, erased_length; lia]|].
  apply goes_to_ret. by exists c, o', e', (fed_with o' fd' (oob_with c)).
Qed.

Lemma goes_read_status chip o e cs id ad rg co fd :
  IO_ADDR_R chip = NFDATA ->
  goes (nand_read_byte chip) (View true o e cs id 0x70 ad rg co fd) 0xC0
    (View true o e cs id 0x70 ad rg (S co) (fed_with o fd [0xC0])).
Proof.
  intros Hr h Hs. unfold nand_read_byte. rewrite Hr. eexists _, _. split; [reflexivity|]. simpl.
  rewrite chip_of_rd, (chip_of_val NFDATA _ (data_out (chip_of (dev h)))) by done.
  generalize dependent (chip_of (dev h)).
  intros [cs' id' cont econt cm' ad' rg' co' fd'] (H1 & H2 & Hv).
  simpl in H1, H2. injection Hv as Hsel -> -> -> -> <- -> -> -> ->.
  assert (data_out (Chip cs' id' cont econt 0x70 ad' rg' co' fd') = 0xC0) as Hout.
  { unfold data_out. rewrite <- Hsel. reflexivity. }
  split; [by rewrite Hout|]. unfold chip_rd. rewrite Z.eqb_refl, Hout, <- Hsel.
  unfold advance, feed, fed_with, ecc_open, selected in *. simpl in *.
  destruct (negb (Z.testbit cont 7)) eqn:Ho; simpl;
    (split; [done|]; split; [done|]); unfold selected, ecc_open; simpl; by rewrite <- Hsel, Ho.
Qed.

(** Waiting for the end of a page program: the status is a success. *)
Lemma goes_nand_wait chip s o e cs id cm ad rg co fd :
  IO_ADDR_R chip = NFDATA -> erasing chip = false -> 
  exists co' fd',
  goes (nand_wait fuel get_timer udelay rst_sts_cnt ops geo chip) (View s o e cs id cm ad rg co fd)
    (0xC0, set_W NFDATA chip) (View true o e cs id 0x70 [] rg co' fd').
Proof.
  intros Hr He. eexists _, _. unfold nand_wait. rewrite He. cbn [andb].
  eapply goes_bind; [apply goes_plain_command; [in_list|apply goes_cmd_latch; [in_list|done]|done]|].
  change (1000 * 20 / 1000) with 20.
  eapply goes_ext; [intros h; symmetry; apply (io_bind_assoc (get_timer 0))|].
  eapply goes_bind.
  - intros h Hs. destruct (ready_in_time (set_W NFDATA chip) h) as (h' & Hw & Hc).
    exists true, h'. split; [exact Hw|]. split; [done|]. by rewrite Hc.
  - cbv iota. eapply goes_bind; [by apply goes_read_status|]. apply goes_ret.
Qed.

(** The second stage programs the data and the bytes taken for its codes. *)
Lemma goes_nand_write_page P ecccalc buf page chip s o e cs id cm ad rg co fd :
  (forall m c, P m c -> length c = 13%nat /\ byte_list c) ->
  (forall s o cs id cm ad rg co fd, length fd = 512%nat ->
    goes_to s5pv210_nand_calculate_ecc (View s o true cs id cm ad rg co fd)
      (fun r v' => r.1 = 0 /\ P fd r.2 /\ v' = View s false true cs id cm ad rg co fd)) ->
  0 <= page < 2 ^ 24 -> large_page geo ->
  IO_ADDR_R chip = NFDATA -> oob_poi chip = replicate 64 0xFF -> erasing chip = false ->
  (2048 <= length buf)%nat -> byte_list buf -> (52 <= length ecccalc)%nat ->
  goes_to (nand_write_page fuel get_timer udelay rst_sts_cnt ops geo ecccalc buf false page false chip)
    (View s o e cs id cm ad rg co fd)
    (fun r v' => exists c o' e' rg' co' fd', code_list P 4 buf c /\ r.1 = 0 /\
       v' = View true o' e' (program cs page (page_with buf c)) id 0x70 [] rg' co' fd').
Proof.
  intros HP Hcalc Hp Hgeo Hr Hoob He Hl Hb Hecc. unfold nand_write_page.
  eapply goes_then; [by apply goes_seqin|]. cbv iota.
  eapply goes_to_bind; [by apply (goes_write_page_hwecc P)|].
  intros r v' (c & o' & e' & fd' & Hc & -> & ->). cbv beta iota. cbn [Z.ltb Z.compare].
  destruct (goes_nand_wait (set_W NFDATA (set_oob (oob_with c) (set_W NFDATA chip))) true o' e'
    (program cs page (page_with buf c)) id 0x10 [] (page_with buf c) 2112 fd') as (co' & fd'' & Hnw); [done..|].
  eapply goes_then; [apply goes_plain_command; [in_list|apply goes_cmd_commit|done]|].
  rewrite row_cycles by done. eapply goes_then; [exact Hnw|]. apply goes_to_ret.
  by exists c, o', e', (page_with buf c), co', fd''.
Qed.

Lemma goes_board_init chip s o e cs id cm ad rg co fd :
  goes (board_nand_init rom chip) (View s o e cs id cm ad rg co fd)
    (0, NandChip_ NFDATA NFDATA (oob_poi chip) (erasing chip), ops) (View false true e cs id cm ad rg co fd).
Proof.
  unfold board_nand_init.
  eapply goes_bind; [apply goes_write; intros c Hc; exact Hc|].
  eapply goes_bind.
  { apply goes_write. intros c Hc. by apply (sees_cont c 3 _ _ _ _ _ _ _ _ _ _ Hc). }
  eapply goes_bind; [apply (goes_modify _ (fun y => y .& ~32 (0xFFFF .<< 8))); [done|]; intros c y _ Hc; exact Hc|].
  eapply goes_bind; [by apply goes_or_other|].
  eapply goes_bind; [apply goes_write; intros c Hc; exact Hc|].
  eapply goes_bind; [apply goes_write; intros c Hc; exact Hc|]. apply goes_ret.
Qed.

(** Initialise the driver of the second stage, write a page with it, and read the page
    with the first stage's driver. *)
Definition write_then_boot (ecccalc buf dst : list Z) (page : Z) (chip : nand_chip) : io D (Z * (Z * list Z)) :=
  r <- board_nand_init rom chip ;;
  w <- nand_write_page fuel get_timer udelay rst_sts_cnt r.2 geo ecccalc buf false page false r.1.2 ;;
  x <- nand_read_page_8bit fuel dst (page * PAGE_SIZE) ;;
  io_ret (w.1, x).

(** What the first stage makes of a page with the bytes [c] in the place of its codes: how many chunks it cannot correct, and the
    corrected chunks. *)
Definition read_back (buf c dst : list Z) : Z * list Z :=
  let pg := page_with buf c in (failed_chunks pg (drop 2048 pg) 0 4, fixed_chunks pg (drop 2048 pg) 0 4 ++ drop 2048 dst).

Lemma written_then_read P ecccalc buf dst page chip h :
  (forall m c, P m c -> length c = 13%nat /\ byte_list c) ->
  (forall s o cs id cm ad rg co fd, length fd = 512%nat ->
    goes_to s5pv210_nand_calculate_ecc (View s o true cs id cm ad rg co fd)
      (fun r v' => r.1 = 0 /\ P fd r.2 /\ v' = View s false true cs id cm ad rg co fd)) ->
  0 <= page < 2 ^ 19 -> large_page geo ->
  oob_poi chip = replicate 64 0xFF -> erasing chip = false ->
  (2048 <= length buf)%nat -> byte_list buf -> (52 <= length ecccalc)%nat ->
  (2048 <= length dst)%nat -> byte_list dst ->
  chip_sane (chip_of (dev h)) -> page_at (cells (chip_of (dev h))) page = erased ->
  runs (write_then_boot ecccalc buf dst page chip) h (fun r _ => exists c, code_list P 4 buf c /\ r = (0, read_back buf c dst)).
Proof.
  intros HP Hcalc Hp Hgeo Hoob Her Hl Hb Hecc Hdl Hdb Hs Hpg. unfold write_then_boot.
  assert (page * PAGE_SIZE / PAGE_SIZE = page) as Hdiv by (by apply Z.div_mul).
  eapply runs_bind; [eapply goes_cells; [exact Hs|apply goes_board_init]|]. cbn [fst snd].
  intros r h1 (-> & Hs1 & Hc1 & _). cbn [fst snd].
  eapply runs_bind; [apply goes_to_runs; [exact Hs1|];
    apply (goes_nand_write_page P ecccalc buf page (NandChip_ NFDATA NFDATA (oob_poi chip) (erasing chip))); done || lia|].
  intros w h2 (v2 & (c & o & e & rg & co & fd & Hc & Hw & ->) & (Hn1 & Hn2 & Hv2)).
  injection Hv2 as _ _ _ Hc2 _ _ _ _ _ _. destruct (code_list_ok P HP _ _ _ Hc) as [Hcl Hcb].
  assert (chip_sane (chip_of (dev h2))) as Hs2 by (by split).
  assert (page_at (cells (chip_of (dev h2))) page = page_with buf c) as Hpg2.
  { rewrite <- Hc2. destruct (page_with_ok buf c Hl Hb Hcl Hcb). apply page_at_program_eq; [by rewrite Hc1|done..]. }
  edestruct (goes_read_page_8bit dst (page * PAGE_SIZE)) as (o1 & e1 & cm1 & ad1 & co1 & fd1 & Hr);
    [unfold PAGE_SIZE; lia|by apply Z.mod_mul|done|done| |].
  2: { eapply runs_bind; [eapply goes_cells; [exact Hs2|exact Hr]|]. simpl. intros x h3 (-> & _).
    apply runs_ret. exists c. split; [done|]. rewrite Hdiv, Hpg2, Hw. done. }
  rewrite Hdiv, Hpg2. by apply page_with_ok.
Qed.

Lemma prompt_codes : ecc_prompt -> forall n buf c, code_list code_read n buf c -> c = codes n buf.
Proof.
  intros Hp. induction n as [|n IH]; intros buf c; cbn [code_list codes]; [done|].
  intros (c0 & c' & -> & (_ & _ & H0) & Hc). by rewrite (H0 Hp), (IH _ _ Hc).
Qed.

Lemma read_back_good buf dst : (2048 <= length buf)%nat -> byte_list buf ->
  (forall l, length l = 512%nat -> byte_list l -> ecc_decode l (ecc_encode l) = Some []) ->
  read_back buf (codes 4 buf) dst = (0, take 2048 buf ++ drop 2048 dst).
Proof.
  intros Hl Hb Hcodec. unfold read_back. change (page_with buf (codes 4 buf)) with (page_image buf).
  apply read_good; [done|]. intros k Hk. exists [].
  rewrite raw_chunk_image, raw_code_image by done. split; [|done]. apply Hcodec.
  - rewrite length_take, length_drop. lia.
  - by apply Forall_take, Forall_drop.
Qed.

(** C3: the first stage reads what the second stage writes, if the ECC engine is quick.  After [board_nand_init], writing 2048 bytes through
    the generic core ([nand_write_page]) to an erased page always reports success and stores these bytes, twelve free bytes and four times
    thirteen bytes [c], where the first stage expects the codes; [nand_read_page_8bit] of the first stage then returns what the
    decoder makes of the chunks with these bytes.  The second stage reads [c] from the engine without waiting for the end of encoding, so
    nothing more is known of them in general.  If the engine has a code ready as soon as the last byte of its chunk was written
    ([ecc_prompt], which the driver relies on and does not check), [c] are the codes, and with a decoder that accepts undamaged chunks
    the first stage returns 0 and the 2048 bytes. *)
Theorem second_stage_page_boots ecccalc buf dst page chip h :
  0 <= page < 2 ^ 19 -> large_page geo ->
  oob_poi chip = replicate 64 0xFF -> erasing chip = false ->
  (2048 <= length buf)%nat -> byte_list buf -> (52 <= length ecccalc)%nat ->
  (2048 <= length dst)%nat -> byte_list dst ->
  chip_sane (chip_of (dev h)) -> page_at (cells (chip_of (dev h))) page = erased ->
  runs (write_then_boot ecccalc buf dst page chip) h (fun r _ => exists c,
    length c = 52%nat /\ byte_list c /\ r = (0, read_back buf c dst) /\
    (ecc_prompt -> c = codes 4 buf /\
      ((forall l, length l = 512%nat -> byte_list l -> ecc_decode l (ecc_encode l) = Some []) ->
       r = (0, (0, take 2048 buf ++ drop 2048 dst))))).
Proof.
  intros Hp Hgeo Hoob Her Hl Hb Hecc Hdl Hdb Hs Hpg.
  assert (forall m c, code_read m c -> length c = 13%nat /\ byte_list c) as HP by (by intros m c (? & ? & _)).
  eapply runs_mono; [by apply (written_then_read code_read); [| |..]; [|intros; apply goes_calculate_ecc|..]|].
  intros r _ (c & Hc & ->). destruct (code_list_ok code_read HP _ _ _ Hc) as [Hcl Hcb]. exists c. split_and!; [done..|].
  intros Hprompt. pose proof (prompt_codes Hprompt _ _ _ Hc) as ->. split; [done|]. intros Hcodec. by rewrite read_back_good.
Qed.
End Writing.

(** ** A slow engine

    A device that keeps to [NandChip] and needs time for its codes: the result registers read as 0 until the status register of the
    engine has been looked at after the last access that moves data or changes a register. *)
Module Slow.
Definition device : Type := chip * bool.

#[global] Instance slow_bus {E : EccCodec} : Bus device := {|
  dev_val := fun a (d : chip * bool) =>
    match chip_val a d.1 with
    | Some v => v
    | None => match ecc_val a d.1 with
              | Some v => if d.2 then v else 0
              | None => if a =? NFSTAT then 1 else if a =? NFECCSTAT then 0x3000000 else 0
              end
    end;
  dev_rd := fun a (d : chip * bool) => (chip_rd a d.1, if a =? NFECCSTAT then true else if a =? NFDATA then false else d.2);
  dev_wr := fun a v (d : chip * bool) => (chip_wr a v d.1, false)
|}.

#[global] Instance slow_chip {E : EccCodec} : NandChip device 1.
Proof.
  refine {| chip_of := fst; ecc_settled := fun d => d.2 = true |}.
  - done.
  - done.
  - intros a d v Hv. unfold dev_val, slow_bus. by rewrite Hv.
  - intros a d v Hd Hv. unfold dev_val, slow_bus. by rewrite (ecc_val_only a d.1 v Hv), Hv, Hd.
  - intros a d Ha Hd. cbn. rewrite (proj2 (Z.eqb_neq a NFDATA) Ha). by destruct (a =? NFECCSTAT).
  - intros h. eexists. by split; [reflexivity|].
  - intros h _ _. eexists. by split; [reflexivity|].
  - intros h _ _. eexists. by split; [reflexivity|].
  - intros h _ _. eexists. by split; [reflexivity|].
Defined.

#[global] Instance slow_timed {E : EccCodec} rom : NandTimed device 1 (board_ops rom) (fun _ => io_ret 0).
Proof. constructor. intros c h. eexists. split; [reflexivity|done]. Defined.

Section Race.
Context {E : EccCodec}.

Lemma step_ok {A A'} (m : io device A) (f : A -> io device A') h a h' : m h = Ok (a, h') -> io_bind m f h = f a h'.
Proof using Type. intros Hm. unfold io_bind. by rewrite Hm. Qed.

(** A code word that is read too early. *)
Lemma early_word a (h : hw device) : a ∈ [NFECCPRGECC0; NFECCPRGECC1; NFECCPRGECC2; NFECCPRGECC3] -> (dev h).2 = false ->
  exists h', mmio_read a h = Ok (0, h') /\ (dev h').1 = (dev h).1 /\ (dev h').2 = false.
Proof.
  intros Ha Hf. unfold mmio_read. eexists. split; [f_equal; f_equal|].
  - cbn [dev_val slow_bus]. rewrite Hf. repeat (apply elem_of_cons in Ha as [->|Ha]; [reflexivity|]). by apply elem_of_nil in Ha.
  - cbn [dev dev_rd slow_bus fst snd]. repeat (apply elem_of_cons in Ha as [->|Ha]; [by split|]). by apply elem_of_nil in Ha.
Qed.

Lemma goes_calculate_early s o cs id cm ad rg co fd :
  goes_to (D := device) (E := E) (fuel := 1) s5pv210_nand_calculate_ecc (View s o true cs id cm ad rg co fd)
    (fun r v' => r.1 = 0 /\ r.2 = replicate 13 0 /\ v' = View s false true cs id cm ad rg co fd).
Proof.
  intros h Hs. destruct (goes_lock (D := device) (E := E) (fuel := 1) s o true cs id cm ad rg co fd h Hs) as (u & h1 & E1 & _ & Hs1).
  assert ((dev h1).2 = false) as H1 by (unfold mmio_or, io_bind, mmio_read, mmio_write in E1; cbn [res_bind] in E1; by injection E1 as _ <-).
  destruct (early_word NFECCPRGECC0 h1 ltac:(in_list) H1) as (h2 & E2 & Hc2 & H2).
  destruct (early_word NFECCPRGECC1 h2 ltac:(in_list) H2) as (h3 & E3 & Hc3 & H3).
  destruct (early_word NFECCPRGECC2 h3 ltac:(in_list) H3) as (h4 & E4 & Hc4 & H4).
  destruct (early_word NFECCPRGECC3 h4 ltac:(in_list) H4) as (h5 & E5 & Hc5 & _).
  exists (0, replicate 13 0), h5. split.
  - unfold s5pv210_nand_calculate_ecc. by rewrite (step_ok _ _ _ _ _ E1), (step_ok _ _ _ _ _ E2), (step_ok _ _ _ _ _ E3), (step_ok _ _ _ _ _ E4), (step_ok _ _ _ _ _ E5).
  - eexists. split; [by split_and!|]. change (chip_of (dev h5)) with (dev h5).1. by rewrite Hc5, Hc4, Hc3, Hc2.
Qed.

Lemma zero_codes n : forall buf c, code_list (fun _ c => c = replicate 13 0) n buf c -> c = replicate (13 * n) 0.
Proof using Type.
  induction n as [|n IH]; intros buf c; cbn [code_list]; [done|]. intros (c0 & c' & -> & -> & Hc). rewrite (IH _ _ Hc).
  rewrite <- replicate_add. f_equal. lia.
Qed.
End Race.
End Slow.

(** On the slow device, whatever the code of its engine: the second stage reports success for every page it writes, but the codes it stores are
    zeros, and the first stage finds as many bad chunks as its decoder rejects with zeros for a code.  The first stage, which waits, stores the
    codes on the same device. *)
Theorem slow_engine_race {E : EccCodec} rom udelay rst_sts_cnt geo ecccalc buf dst page chip (h : hw Slow.device) :
  0 <= page < 2 ^ 19 -> large_page geo ->
  oob_poi chip = replicate 64 0xFF -> erasing chip = false ->
  (2048 <= length buf)%nat -> byte_list buf -> (52 <= length ecccalc)%nat ->
  (2048 <= length dst)%nat -> byte_list dst ->
  chip_sane (dev h).1 -> page_at (cells (dev h).1) page = erased ->
  runs (write_then_boot (fuel := 1) rom (fun _ => io_ret 0) udelay rst_sts_cnt geo ecccalc buf dst page chip) h
    (fun r _ => r = (0, read_back buf (replicate 52 0) dst)) /\
  runs (nand_write_page_8bit 1 buf (page * PAGE_SIZE)) h (fun _ h' => page_at (cells (dev h').1) page = page_image buf).
Proof.
  intros Hp Hgeo Hoob Her Hl Hb Hecc Hdl Hdb Hs Hpg. split.
  - eapply runs_mono; [apply (written_then_read (fuel := 1) rom (fun _ => io_ret 0) udelay rst_sts_cnt geo (fun _ c => c = replicate 13 0)); try done|].
    + intros m c ->. split; [done|]. apply Forall_replicate. lia.
    + intros s o cs id cm ad rg co fd _. apply Slow.goes_calculate_early.
    + intros r _ (c & Hc & ->). by rewrite (Slow.zero_codes _ _ _ Hc).
  - assert (page * PAGE_SIZE / PAGE_SIZE = page) as Hdiv by (by apply Z.div_mul).
    eapply runs_mono; [apply (nand_write_page_8bit_stores (fuel := 1)); [unfold PAGE_SIZE; lia|by apply Z.mod_mul|done..]|].
    rewrite Hdiv. intros _ h' (_ & _ & _ & He & _). by apply He.
Qed.

(** ** What the board's [correct] function accepts *)

(** The board's correction function never corrects: it accepts a chunk exactly when the first three
    of the thirteen code bytes agree, whatever the other ten say and whatever the data is, and
    reports every other chunk as uncorrectable. *)
Theorem correct_data_checks_three {D : Type} {B : Bus D} (read_ecc calc_ecc : list Z) (h : hw D) :
  length read_ecc = 13%nat -> length calc_ecc = 13%nat ->
  s5pv210_nand_correct_data read_ecc calc_ecc h =
    Ok (if decide (take 3 read_ecc = take 3 calc_ecc) then 0 else -1, h).
Proof.
  intros Hr Hc. destruct read_ecc as [|r0 [|r1 [|r2 r]]], calc_ecc as [|c0 [|c1 [|c2 c]]]; simpl in *; try lia.
  destruct (Z.eqb_spec r0 c0) as [->|], (Z.eqb_spec r1 c1) as [->|], (Z.eqb_spec r2 c2) as [->|]; simpl;
    case_decide; (done || congruence).
Qed.

(** ** Witnesses *)

Definition k9f2g08 : geometry := Geometry 2048 64 (256 * 1024 * 1024) 0 20 4 52.

#[global] Instance sim_timed rom : NandTimed chip 1 (board_ops rom) (fun _ => io_ret 0).
Proof. constructor. intros c h. eexists. split; [reflexivity|done]. Defined.

Lemma second_stage_page_boots_witness :
  exists h', write_then_boot (fuel := 1) (fun _ _ b => io_ret (0, b)) (fun _ => io_ret 0) (fun _ => io_ret tt) 0 k9f2g08
    (replicate 64 0) NandSim.sample NandSim.empty_buffer 5 (NandChip_ 0 0 (replicate 64 0xFF) false) NandSim.blank =
    Ok ((0, (0, NandSim.sample)), h').
Proof.
  destruct (second_stage_page_boots (fuel := 1) (fun _ _ b => io_ret (0, b)) (fun _ => io_ret 0) (fun _ => io_ret tt) 0 k9f2g08
    (replicate 64 0) NandSim.sample NandSim.empty_buffer 5 (NandChip_ 0 0 (replicate 64 0xFF) false) NandSim.blank)
    as (r & h' & Hrun & c & _ & _ & _ & Hprompt).
  - lia.
  - split_and!; reflexivity.
  - reflexivity.
  - reflexivity.
  - vm_compute. lia.
  - bytes_ok.
  - vm_compute. lia.
  - vm_compute. lia.
  - bytes_ok.
  - apply blank_sane.
  - reflexivity.
  - exists h'. destruct (Hprompt ltac:(intros d _ _; exact I)) as [_ Hr]. rewrite Hrun, (Hr ltac:(intros l _ _; apply hamming_clean)). f_equal.
Defined.

(** The same page on the slow device: success for the second stage, four bad chunks for the first. *)
Definition slow_blank : hw Slow.device := Hw (dev NandSim.blank, false) [].
Lemma slow_engine_race_witness : exists data h',
  write_then_boot (D := Slow.device) (fuel := 1) (fun _ _ b => io_ret (0, b)) (fun _ => io_ret 0) (fun _ => io_ret tt) 0 k9f2g08
    (replicate 64 0) NandSim.sample NandSim.empty_buffer 5 (NandChip_ 0 0 (replicate 64 0xFF) false) slow_blank = Ok ((0, (4, data)), h').
Proof.
  destruct (slow_engine_race (fun _ _ b => io_ret (0, b)) (fun _ => io_ret tt) 0 k9f2g08
    (replicate 64 0) NandSim.sample NandSim.empty_buffer 5 (NandChip_ 0 0 (replicate 64 0xFF) false) slow_blank) as [(r & h' & Hrun & Hr) _].
  - lia.
  - split_and!; reflexivity.
  - reflexivity.
  - reflexivity.
  - vm_compute. lia.
  - bytes_ok.
  - vm_compute. lia.
  - vm_compute. lia.
  - bytes_ok.
  - apply blank_sane.
  - reflexivity.
  - exists (read_back NandSim.sample (replicate 52 0) NandSim.empty_buffer).2, h'. rewrite Hrun, Hr.
    assert ((read_back NandSim.sample (replicate 52 0) NandSim.empty_buffer).1 = 4) as <- by (vm_compute; reflexivity).
    by destruct (read_back _ _ _).
Defined.

Lemma correct_data_checks_three_witness :
  s5pv210_nand_correct_data (replicate 13 0) (replicate 3 0 ++ replicate 10 1) NandSim.blank = Ok (0, NandSim.blank).
Proof.
  rewrite (correct_data_checks_three (replicate 13 0) (replicate 3 0 ++ replicate 10 1) NandSim.blank); reflexivity.
Defined.
