(* ===== verification/Lmb.v ===== *)
(** * Logical memory blocks ([lib/lmb.c], [include/lmb.h])

    The allocator that keeps track of RAM and of its reserved parts while an operating
    system is loaded.  A region table is an array of nine (base, size) pairs of which the
    first [cnt] are in use, sorted by address.  The theorems: the table stays sorted,
    separated and in bounds; adding and freeing a block change the set of covered
    addresses by exactly that block; an allocation is aligned, lies in RAM, below the limit
    and was free. *)
From S2P Require Import Prelude.

Definition MAX_LMB_REGIONS : Z := 8.
Definition LMB_ALLOC_ANYWHERE : Z := 0.

Record lmb_property := Blk { p_base : Z; p_size : Z }.
(** The array has [MAX_LMB_REGIONS + 1] elements; the field [size] of the C structure is
    written by [lmb_init] only. *)
Record lmb_region := Rgn { cnt : Z; r_size : Z; region : list lmb_property }.
Record lmb := Lmb { memory : lmb_region; reserved : lmb_region }.

(** Array accesses; an index outside the array is undefined. *)
Definition aget (r : lmb_region) (i : Z) : res lmb_property :=
  if i <? 0 then Ub else res_of_option (region r !! Z.to_nat i).
Definition aset (r : lmb_region) (i : Z) (p : lmb_property) : res lmb_region :=
  if (i <? 0) || (Z.of_nat (length (region r)) <=? i) then Ub
  else Ok (Rgn (cnt r) (r_size r) (<[Z.to_nat i := p]> (region r))).
Definition set_cnt (r : lmb_region) (n : Z) : lmb_region := Rgn n (r_size r) (region r).

Definition lmb_addrs_overlap (base1 size1 base2 size2 : Z) : bool :=
  (base1 <? u32 (base2 + size2)) && (base2 <? u32 (base1 + size1)).

Definition lmb_addrs_adjacent (base1 size1 base2 size2 : Z) : Z :=
  if base2 =? u32 (base1 + size1) then 1
  else if base1 =? u32 (base2 + size2) then -1
  else 0.

Definition lmb_regions_adjacent (rgn : lmb_region) (r1 r2 : Z) : res Z :=
  let* p1 := aget rgn r1 in
  let* p2 := aget rgn r2 in
  Ok (lmb_addrs_adjacent (p_base p1) (p_size p1) (p_base p2) (p_size p2)).

(** [for (i = r; i < rgn->cnt - 1; i++)]: with an empty table [cnt - 1] wraps and the loop
    runs out of the array; ten rounds are more than the array has elements. *)
Fixpoint remove_loop (n : nat) (rgn : lmb_region) (i : Z) : res lmb_region :=
  match n with
  | O => Hang
  | S n =>
    if i <? u32 (cnt rgn - 1) then
      let* p := aget rgn (i + 1) in
      let* rgn := aset rgn i p in
      remove_loop n rgn (i + 1)
    else Ok rgn
  end.

Definition lmb_remove_region (rgn : lmb_region) (r : Z) : res lmb_region :=
  let* rgn := remove_loop 10 rgn r in
  Ok (set_cnt rgn (u32 (cnt rgn - 1))).

Definition lmb_coalesce_regions (rgn : lmb_region) (r1 r2 : Z) : res lmb_region :=
  let* p1 := aget rgn r1 in
  let* p2 := aget rgn r2 in
  let* rgn := aset rgn r1 (Blk (p_base p1) (u32 (p_size p1 + p_size p2))) in
  lmb_remove_region rgn r2.

(** [stale] are the array elements left in memory. *)
Definition lmb_init (l : lmb) : res lmb :=
  let* m := aset (memory l) 0 (Blk 0 0) in
  let* r := aset (reserved l) 0 (Blk 0 0) in
  Ok (Lmb (Rgn 1 0 (region m)) (Rgn 1 0 (region r))).

(** How the first loop of [lmb_add_region] ends: the block is there already, it was merged
    with entry [i], or [i] has reached [cnt]. *)
Inductive scan :=
  | Present
  | Merged (i : Z) (rgn : lmb_region)
  | NotFound (i : Z).

Fixpoint add_scan (n : nat) (rgn : lmb_region) (base size i : Z) : res scan :=
  match n with
  | O => Hang
  | S n =>
    if i <? cnt rgn then
      let* p := aget rgn i in
      let rgnbase := p_base p in
      let rgnsize := p_size p in
      if (rgnbase =? base) && (rgnsize =? size) then Ok Present
      else
        let adjacent := lmb_addrs_adjacent base size rgnbase rgnsize in
        if 0 <? adjacent then
          let* rgn := aset rgn i (Blk (u32 (rgnbase - size)) (u32 (rgnsize + size))) in
          Ok (Merged i rgn)
        else if adjacent <? 0 then
          let* rgn := aset rgn i (Blk rgnbase (u32 (rgnsize + size))) in
          Ok (Merged i rgn)
        else add_scan n rgn base size (i + 1)
    else Ok (NotFound i)
  end.

(** The insertion loop, from entry [k - 1] down. *)
Fixpoint insert_loop (k : nat) (rgn : lmb_region) (base size : Z) : res lmb_region :=
  match k with
  | O => Ok rgn
  | S k =>
    let i := Z.of_nat k in
    let* p := aget rgn i in
    if base <? p_base p then
      let* rgn := aset rgn (i + 1) p in
      insert_loop k rgn base size
    else aset rgn (i + 1) (Blk base size)
  end.

(** After the first loop: entry [i], if it has a successor it is now adjacent to, is joined
    with it. *)
Definition join_next (rgn : lmb_region) (i coalesced : Z) : res (Z * lmb_region) :=
  let* adj := (if i <? u32 (cnt rgn - 1) then lmb_regions_adjacent rgn i (i + 1) else Ok 0) in
  if negb (adj =? 0) then
    let* rgn := lmb_coalesce_regions rgn i (i + 1) in Ok (coalesced + 1, rgn)
  else Ok (coalesced, rgn).

(** The result and the new table. *)
Definition lmb_add_region (rgn : lmb_region) (base size : Z) : res (Z * lmb_region) :=
  let* p0 := aget rgn 0 in
  if (cnt rgn =? 1) && (p_size p0 =? 0) then
    let* rgn := aset rgn 0 (Blk base size) in
    Ok (0, rgn)
  else
    let* s := add_scan 10 rgn base size 0 in
    match s with
    | Present => Ok (0, rgn)
    | Merged _ _ | NotFound _ =>
      let i := match s with Merged i _ | NotFound i => i | _ => 0 end in
      let rgn := match s with Merged _ r => r | _ => rgn end in
      let coalesced := match s with Merged _ _ => 1 | _ => 0 end in
      let* (coalesced, rgn) := join_next rgn i coalesced in
      if negb (coalesced =? 0) then Ok (coalesced, rgn)
      else if MAX_LMB_REGIONS <=? cnt rgn then Ok (-1, rgn)
      else
        let* rgn := insert_loop (Z.to_nat (s32 (u32 (cnt rgn - 1)) + 1)) rgn base size in
        let* p0 := aget rgn 0 in
        let* rgn := (if base <? p_base p0 then aset rgn 0 (Blk base size) else Ok rgn) in
        Ok (0, set_cnt rgn (u32 (cnt rgn + 1)))
    end.

Definition lmb_add (l : lmb) (base size : Z) : res (Z * lmb) :=
  let* (r, m) := lmb_add_region (memory l) base size in Ok (r, Lmb m (reserved l)).

Definition lmb_reserve (l : lmb) (base size : Z) : res (Z * lmb) :=
  let* (r, m) := lmb_add_region (reserved l) base size in Ok (r, Lmb (memory l) m).

(** The search of [lmb_free]: the entry that contains the block, with its bounds. *)
Fixpoint free_scan (n : nat) (rgn : lmb_region) (base end_ i rgnbegin rgnend : Z) : res (Z * Z * Z) :=
  match n with
  | O => Hang
  | S n =>
    if i <? cnt rgn then
      let* p := aget rgn i in
      let rgnbegin := p_base p in
      let rgnend := u32 (rgnbegin + p_size p) in
      if (rgnbegin <=? base) && (end_ <=? rgnend) then Ok (i, rgnbegin, rgnend)
      else free_scan n rgn base end_ (i + 1) rgnbegin rgnend
    else Ok (i, rgnbegin, rgnend)
  end.

Definition free_region (rgn : lmb_region) (base size : Z) : res (Z * lmb_region) :=
  let end_ := u32 (base + size) in
  let* (i, rgnbegin, rgnend) := free_scan 10 rgn base end_ 0 0 0 in
  if i =? cnt rgn then Ok (-1, rgn)
  else if (rgnbegin =? base) && (rgnend =? end_) then
    let* rgn := lmb_remove_region rgn i in Ok (0, rgn)
  else
    let* p := aget rgn i in
    if rgnbegin =? base then
      let* rgn := aset rgn i (Blk end_ (u32 (p_size p - size))) in Ok (0, rgn)
    else if rgnend =? end_ then
      let* rgn := aset rgn i (Blk (p_base p) (u32 (p_size p - size))) in Ok (0, rgn)
    else
      let* rgn := aset rgn i (Blk (p_base p) (u32 (base - p_base p))) in
      lmb_add_region rgn end_ (u32 (rgnend - end_)).

Definition lmb_free (l : lmb) (base size : Z) : res (Z * lmb) :=
  let* (r, m) := free_region (reserved l) base size in Ok (r, Lmb (memory l) m).

Fixpoint overlaps_scan (n : nat) (rgn : lmb_region) (base size i : Z) : res Z :=
  match n with
  | O => Hang
  | S n =>
    if i <? cnt rgn then
      let* p := aget rgn i in
      if lmb_addrs_overlap base size (p_base p) (p_size p) then Ok i
      else overlaps_scan n rgn base size (i + 1)
    else Ok i
  end.

Definition lmb_overlaps_region (rgn : lmb_region) (base size : Z) : res Z :=
  let* i := overlaps_scan 10 rgn base size 0 in
  Ok (if i <? cnt rgn then i else -1).

Definition lmb_align_down (addr size : Z) : Z := addr .& ~32 (size - 1).
Definition lmb_align_up (addr size : Z) : Z := u32 (addr + (size - 1)) .& ~32 (size - 1).

(** The inner loop of [__lmb_alloc_base] for one memory block: [Some] is a return, [None]
    means the loop has ended and the next memory block is tried. *)
Fixpoint alloc_loop (n : nat) (l : lmb) (size align lmbbase base : Z) : res (option (Z * lmb)) :=
  match n with
  | O => Hang
  | S n =>
    if negb (base =? 0) && (lmbbase <=? base) then
      let* j := lmb_overlaps_region (reserved l) base size in
      if j <? 0 then
        let* (r, m) := lmb_add_region (reserved l) base (lmb_align_up size align) in
        Ok (Some (if r <? 0 then 0 else base, Lmb (memory l) m))
      else
        let* p := aget (reserved l) j in
        let res_base := p_base p in
        if res_base <? size then Ok None
        else alloc_loop n l size align lmbbase (lmb_align_down (u32 (res_base - size)) align)
    else Ok None
  end.

(** The outer loop, from memory block [k - 1] down. *)
Fixpoint alloc_blocks (k : nat) (l : lmb) (size align max_addr : Z) : res (Z * lmb) :=
  match k with
  | O => Ok (0, l)
  | S k =>
    let* p := aget (memory l) (Z.of_nat k) in
    let lmbbase := p_base p in
    let lmbsize := p_size p in
    if lmbsize <? size then alloc_blocks k l size align max_addr
    else if negb (max_addr =? LMB_ALLOC_ANYWHERE) && (max_addr <=? lmbbase)
    then alloc_blocks k l size align max_addr
    else
      let base :=
        if max_addr =? LMB_ALLOC_ANYWHERE
        then lmb_align_down (u32 (u32 (lmbbase + lmbsize) - size)) align
        else lmb_align_down (u32 (Z.min (u32 (lmbbase + lmbsize)) max_addr - size)) align in
      let* r := alloc_loop 10 l size align lmbbase base in
      match r with
      | Some a => Ok a
      | None => alloc_blocks k l size align max_addr
      end
  end.

Definition __lmb_alloc_base (l : lmb) (size align max_addr : Z) : res (Z * lmb) :=
  alloc_blocks (Z.to_nat (s32 (u32 (cnt (memory l) - 1)) + 1)) l size align max_addr.

(** The error message of [lmb_alloc_base] is left out. *)
Definition lmb_alloc_base (l : lmb) (size align max_addr : Z) : res (Z * lmb) :=
  __lmb_alloc_base l size align max_addr.

Definition lmb_alloc (l : lmb) (size align : Z) : res (Z * lmb) :=
  lmb_alloc_base l size align LMB_ALLOC_ANYWHERE.

Fixpoint reserved_scan (n : nat) (rgn : lmb_region) (addr i : Z) : res Z :=
  match n with
  | O => Hang
  | S n =>
    if i <? cnt rgn then
      let* p := aget rgn i in
      let upper := u32 (p_base p + p_size p - 1) in
      if (p_base p <=? addr) && (addr <=? upper) then Ok 1 else reserved_scan n rgn addr (i + 1)
    else Ok 0
  end.

Definition lmb_is_reserved (l : lmb) (addr : Z) : res Z := reserved_scan 10 (reserved l) addr 0.

(** ** The table as a list of blocks *)

Definition p_end (p : lmb_property) : Z := p_base p + p_size p.

(** The entries in use. *)
Definition live (r : lmb_region) : list lmb_property := take (Z.to_nat (cnt r)) (region r).

(** Blocks in ascending order from [lo] on, not empty, separated by at least one address,
    and ending before the last address. *)
Fixpoint sep (lo : Z) (l : list lmb_property) : Prop :=
  match l with
  | [] => True
  | p :: l => lo <= p_base p /\ 0 < p_size p /\ p_end p < 2 ^ 32 /\ sep (p_end p + 1) l
  end.

(** A table whose entries in use are [l], followed by the unused array elements. *)
Definition tab (s : Z) (l rest : list lmb_property) : lmb_region := Rgn (Z.of_nat (length l)) s (l ++ rest).
Definition table (l : list lmb_property) (r : lmb_region) : Prop :=
  exists s rest, r = tab s l rest /\ length (l ++ rest) = 9%nat /\ (1 <= length l <= 8)%nat /\ sep 0 l.

(** The addresses the blocks cover. *)
Definition within (p : lmb_property) (a : Z) : Prop := p_base p <= a < p_end p.
Definition covers (l : list lmb_property) (a : Z) : Prop := Exists (fun p => within p a) l.

Lemma covers_nil a : covers [] a <-> False.
Proof. unfold covers. by rewrite Exists_nil. Qed.
Lemma covers_cons p l a : covers (p :: l) a <-> within p a \/ covers l a.
Proof. unfold covers. by rewrite Exists_cons. Qed.
Lemma covers_app l1 l2 a : covers (l1 ++ l2) a <-> covers l1 a \/ covers l2 a.
Proof. unfold covers. by rewrite Exists_app. Qed.

Create Rewrite HintDb lmb_cov.
#[export] Hint Rewrite covers_nil covers_cons covers_app : lmb_cov.

(** The lowest address for a block behind [l]. *)
Fixpoint after (lo : Z) (l : list lmb_property) : Z :=
  match l with [] => lo | p :: l => after (p_end p + 1) l end.

Lemma sep_app lo l1 l2 : sep lo (l1 ++ l2) <-> sep lo l1 /\ sep (after lo l1) l2.
Proof. revert lo. induction l1 as [|p l1 IH]; intros lo; simpl; [tauto|]. rewrite IH. tauto. Qed.

Lemma after_app lo l1 l2 : after lo (l1 ++ l2) = after (after lo l1) l2.
Proof. revert lo. induction l1 as [|p l1 IH]; intros lo; simpl; [done|]. apply IH. Qed.

Lemma sep_after lo l : sep lo l -> lo <= after lo l.
Proof.
  revert lo. induction l as [|p l IH]; intros lo; simpl; [lia|]. intros (H1 & H2 & _ & H).
  apply IH in H. unfold p_end in *. lia.
Qed.

Lemma sep_mono lo lo' l : lo' <= lo -> sep lo l -> sep lo' l.
Proof. destruct l as [|p l]; simpl; [done|]. intros ? (? & ?). split; [lia|done]. Qed.

(** Everything before a point ends below it, everything behind starts above it. *)
Lemma sep_ends lo l p : sep lo l -> p ∈ l -> lo <= p_base p /\ 0 < p_size p /\ p_end p < after lo l /\ p_end p < 2 ^ 32.
Proof.
  revert lo. induction l as [|q l IH]; intros lo Hs Hin; [by apply elem_of_nil in Hin|].
  simpl in Hs. destruct Hs as (H1 & H2 & H3 & Hs). apply elem_of_cons in Hin as [->|Hin]; simpl.
  - pose proof (sep_after _ _ Hs). lia.
  - specialize (IH _ Hs Hin). unfold p_end in *. lia.
Qed.

Lemma covers_bounds lo l a : sep lo l -> covers l a -> lo <= a < after lo l.
Proof.
  intros Hs Hc. apply Exists_exists in Hc as (p & Hin & Hw). unfold within in Hw.
  pose proof (sep_ends _ _ _ Hs Hin). lia.
Qed.

(** ** Array operations on a table *)

Lemma live_tab s l rest : live (tab s l rest) = l.
Proof. unfold live, tab. simpl. rewrite Nat2Z.id. by rewrite take_app_length. Qed.

Lemma aset_mid c s l1 p rest q :
  aset (Rgn c s (l1 ++ p :: rest)) (Z.of_nat (length l1)) q = Ok (Rgn c s (l1 ++ q :: rest)).
Proof.
  unfold aset. simpl. destruct (Z.ltb_spec (Z.of_nat (length l1)) 0); [lia|].
  rewrite length_app. simpl. destruct (Z.leb_spec (Z.of_nat (length l1 + S (length rest))) (Z.of_nat (length l1))); [lia|].
  simpl. rewrite Nat2Z.id. replace (length l1) with (length l1 + 0)%nat by lia. by rewrite insert_app_r.
Qed.

Lemma aget_mid c s l1 p rest : aget (Rgn c s (l1 ++ p :: rest)) (Z.of_nat (length l1)) = Ok p.
Proof.
  unfold aget. destruct (Z.ltb_spec (Z.of_nat (length l1)) 0); [lia|].
  rewrite Nat2Z.id. simpl. by rewrite list_lookup_middle.
Qed.

Lemma tab_mid s l1 p l2 rest :
  tab s (l1 ++ p :: l2) rest = Rgn (Z.of_nat (length (l1 ++ p :: l2))) s (l1 ++ p :: l2 ++ rest).
Proof. unfold tab. by rewrite <- app_assoc. Qed.

Lemma aget_tab s l1 p l2 rest : aget (tab s (l1 ++ p :: l2) rest) (Z.of_nat (length l1)) = Ok p.
Proof. rewrite tab_mid. apply aget_mid. Qed.

(** Replacing an entry. *)
Lemma aset_tab s l1 p l2 rest q :
  aset (tab s (l1 ++ p :: l2) rest) (Z.of_nat (length l1)) q = Ok (tab s (l1 ++ q :: l2) rest).
Proof. rewrite tab_mid, aset_mid. unfold tab. by rewrite <- app_assoc, !length_app. Qed.

(** The loop condition of the scans, and of the loops up to [cnt - 1]. *)
Lemma before_cnt s l1 l2 rest :
  (Z.of_nat (length l1) <? cnt (tab s (l1 ++ l2) rest)) = bool_decide (l2 <> []).
Proof.
  unfold tab. simpl. rewrite length_app. case_bool_decide as H.
  - destruct l2; [done|]. simpl. apply Z.ltb_lt. lia.
  - destruct l2; [|done]. apply Z.ltb_ge. simpl. lia.
Qed.

Lemma aget_at r i l1 p rest : region r = l1 ++ p :: rest -> i = Z.of_nat (length l1) -> aget r i = Ok p.
Proof. destruct r as [c s a]. simpl. intros -> ->. apply aget_mid. Qed.

(** Removing an entry: the later ones move down. *)
Lemma remove_loop_spec n : forall c s l1 p l2 rest,
  c = Z.of_nat (length l1 + S (length l2)) -> c <= 2 ^ 31 -> (length l2 < n)%nat ->
  exists q, remove_loop n (Rgn c s (l1 ++ p :: l2 ++ rest)) (Z.of_nat (length l1)) =
    Ok (Rgn c s (l1 ++ l2 ++ q :: rest)).
Proof.
  induction n as [|n IH]; intros c s l1 p l2 rest Hc Hmax Hn; [lia|]. simpl.
  rewrite wrap_small by lia. destruct l2 as [|q l2].
  - destruct (Z.ltb_spec (Z.of_nat (length l1)) (c - 1)); [simpl in *; lia|]. by exists p.
  - simpl in Hc. destruct (Z.ltb_spec (Z.of_nat (length l1)) (c - 1)); [|lia].
    rewrite (aget_at _ _ (l1 ++ [p]) q (l2 ++ rest)); [|simpl; by rewrite <- app_assoc|rewrite length_app; simpl; lia].
    cbn [res_bind]. rewrite aset_mid. cbn [res_bind].
    destruct (IH c s (l1 ++ [q]) q l2 rest) as (q' & E); [rewrite length_app; simpl; lia|done|simpl in Hn; lia|].
    exists q'. rewrite <- app_assoc in E. rewrite length_app, Nat2Z.inj_add in E. change (Z.of_nat (length [q])) with 1 in E. simpl in E |- *. rewrite E.
    by rewrite <- app_assoc.
Qed.

Lemma remove_tab s l1 p l2 rest :
  length (l1 ++ p :: l2 ++ rest) = 9%nat ->
  exists q, lmb_remove_region (tab s (l1 ++ p :: l2) rest) (Z.of_nat (length l1)) =
    Ok (tab s (l1 ++ l2) (q :: rest)).
Proof.
  intros Hl. rewrite length_app in Hl. simpl in Hl. rewrite length_app in Hl.
  unfold lmb_remove_region. rewrite tab_mid.
  destruct (remove_loop_spec 10 (Z.of_nat (length (l1 ++ p :: l2))) s l1 p l2 rest) as (q & E).
  { rewrite length_app. simpl. lia. }
  { rewrite length_app. simpl. lia. }
  { lia. }
  rewrite E. exists q. cbn [res_bind]. unfold set_cnt, tab. cbn [cnt r_size region].
  rewrite <- app_assoc. do 2 f_equal. rewrite !length_app. simpl. rewrite wrap_small by lia. lia.
Qed.

(** ** Adding a block *)

(** The block touches no entry. *)
Definition apart (base size : Z) (p : lmb_property) : Prop := p_end p < base \/ base + size < p_base p.
(** Nor does it overlap one, but it may be adjacent. *)
Definition clear_of (base size : Z) (p : lmb_property) : Prop := p_end p <= base \/ base + size <= p_base p.

Lemma adjacent_spec base size p :
  0 <= base -> 0 < size -> base + size < 2 ^ 32 -> 0 <= p_base p -> 0 < p_size p -> p_end p < 2 ^ 32 ->
  clear_of base size p ->
  ((p_base p =? base) && (p_size p =? size) = false) /\
  lmb_addrs_adjacent base size (p_base p) (p_size p) =
    if p_base p =? base + size then 1 else if base =? p_end p then -1 else 0.
Proof.
  intros Hb Hs He Hpb Hps Hpe Hc. unfold clear_of, p_end, lmb_addrs_adjacent in *.
  rewrite !wrap_small by lia. split; [|done]. lia.
Qed.

(** What the scan finds in a table: the first entry the block is adjacent to. *)
Lemma add_scan_spec n : forall s l1 l2 rest base size,
  (length l2 < n)%nat -> 0 <= base -> 0 < size -> base + size < 2 ^ 32 ->
  Forall (fun p => 0 <= p_base p /\ 0 < p_size p /\ p_end p < 2 ^ 32) l2 -> Forall (clear_of base size) l2 ->
  exists la lb, l2 = la ++ lb /\ Forall (apart base size) la /\
    match lb with
    | [] => add_scan n (tab s (l1 ++ l2) rest) base size (Z.of_nat (length l1)) =
              Ok (NotFound (Z.of_nat (length (l1 ++ l2))))
    | p :: lb =>
      (p_base p = base + size /\
       add_scan n (tab s (l1 ++ l2) rest) base size (Z.of_nat (length l1)) =
         Ok (Merged (Z.of_nat (length (l1 ++ la))) (tab s (l1 ++ la ++ Blk base (p_size p + size) :: lb) rest))) \/
      (p_end p = base /\
       add_scan n (tab s (l1 ++ l2) rest) base size (Z.of_nat (length l1)) =
         Ok (Merged (Z.of_nat (length (l1 ++ la))) (tab s (l1 ++ la ++ Blk (p_base p) (p_size p + size) :: lb) rest)))
    end.
Proof.
  induction n as [|n IH]; intros s l1 l2 rest base size Hn Hb Hs He Hok Hcl; [lia|].
  cbn [add_scan]. rewrite before_cnt. destruct l2 as [|p l2].
  { exists [], []. split; [done|]. split; [constructor|]. by rewrite app_nil_r. }
  rewrite bool_decide_eq_true_2 by done. rewrite aget_tab. cbn [res_bind].
  inversion Hok as [|? ? (Hpb & Hps & Hpe) Hok']; subst. inversion Hcl as [|? ? Hc Hcl']; subst.
  destruct (adjacent_spec base size p Hb Hs He Hpb Hps Hpe Hc) as [-> ->].
  destruct (Z.eqb_spec (p_base p) (base + size)) as [Eb|Eb].
  - exists [], (p :: l2). split; [done|]. split; [constructor|]. left. split; [done|]. cbn [Z.ltb Z.compare].
    rewrite aset_tab. cbn [res_bind app]. rewrite app_nil_r. unfold p_end in Hpe.
    rewrite !wrap_small by lia. repeat f_equal. lia.
  - destruct (Z.eqb_spec base (p_end p)) as [Ee|Ee].
    + exists [], (p :: l2). split; [done|]. split; [constructor|]. right. split; [done|]. cbn [Z.ltb Z.compare].
      rewrite aset_tab. cbn [res_bind app]. rewrite app_nil_r. unfold p_end in *.
      rewrite !wrap_small by lia. done.
    + cbn [Z.ltb Z.compare].
      replace (Z.of_nat (length l1) + 1) with (Z.of_nat (length (l1 ++ [p]))) by (rewrite length_app; simpl; lia).
      replace (l1 ++ p :: l2) with ((l1 ++ [p]) ++ l2) by by rewrite <- app_assoc.
      destruct (IH s (l1 ++ [p]) l2 rest base size) as (la & lb & -> & Hap & Hres); [simpl in Hn; lia|done..|].
      exists (p :: la), lb. split; [done|]. split.
      { constructor; [|done]. unfold apart, clear_of in *. lia. }
      destruct lb as [|q lb]; [by rewrite Hres|].
      replace (l1 ++ p :: la) with ((l1 ++ [p]) ++ la) by by rewrite <- app_assoc.
      replace (l1 ++ (p :: la) ++ Blk base (p_size q + size) :: lb)
        with ((l1 ++ [p]) ++ la ++ Blk base (p_size q + size) :: lb) by by rewrite <- !app_assoc.
      replace (l1 ++ (p :: la) ++ Blk (p_base q) (p_size q + size) :: lb)
        with ((l1 ++ [p]) ++ la ++ Blk (p_base q) (p_size q + size) :: lb) by by rewrite <- !app_assoc.
      exact Hres.
Qed.

Lemma cnt_tab s l rest : cnt (tab s l rest) = Z.of_nat (length l).
Proof. reflexivity. Qed.

(** The entry after a merge: joined with its successor exactly if they now touch. *)
Lemma join_next_spec s la p lb rest c :
  length (la ++ p :: lb ++ rest) = 9%nat ->
  0 <= p_base p -> 0 < p_size p -> sep (p_end p) lb ->
  (match lb with [] => p_end p < 2 ^ 32 | _ => True end) ->
  exists c' l' rest', join_next (tab s (la ++ p :: lb) rest) (Z.of_nat (length la)) c = Ok (c', tab s l' rest') /\
    c <= c' /\ length (l' ++ rest') = 9%nat /\ (1 <= length l' <= length (la ++ p :: lb))%nat /\
    (forall lo, sep lo la -> after lo la <= p_base p -> sep lo l') /\
    (forall a, covers l' a <-> covers (la ++ p :: lb) a).
Proof.
  intros Hl Hb Hs Hsep Hlast. unfold join_next. rewrite cnt_tab.
  rewrite length_app in Hl |- *. simpl length in Hl |- *. rewrite length_app in Hl.
  rewrite wrap_small by lia. destruct lb as [|q lb].
  - simpl length. destruct (Z.ltb_spec (Z.of_nat (length la)) (Z.of_nat (length la + 1) - 1)); [lia|]. cbn [res_bind].
    exists c, (la ++ [p]), rest. split; [done|]. split; [lia|]. rewrite !length_app. simpl in *. split; [lia|].
    split; [lia|]. split; [|done].
    intros lo Hla Haf. apply sep_app. split; [done|]. simpl. tauto.
  - simpl in Hsep. destruct Hsep as (Hq1 & Hq2 & Hq3 & Hsep). simpl in Hl.
    simpl length. destruct (Z.ltb_spec (Z.of_nat (length la)) (Z.of_nat (length la + S (S (length lb))) - 1)); [|lia].
    unfold lmb_regions_adjacent. rewrite aget_tab. cbn [res_bind].
    assert (aget (tab s (la ++ p :: q :: lb) rest) (Z.of_nat (length la) + 1) = Ok q) as Hget.
    { apply (aget_at _ _ (la ++ [p]) q (lb ++ rest)); [unfold tab; simpl; by rewrite <- !app_assoc|].
      rewrite length_app. simpl. lia. }
    rewrite Hget. cbn [res_bind]. unfold lmb_addrs_adjacent. unfold p_end in *. rewrite !wrap_small by lia.
    destruct (Z.eqb_spec (p_base q) (p_base p + p_size p)) as [E|E]; cbn [res_bind Z.eqb negb].
    + unfold lmb_coalesce_regions. rewrite aget_tab. cbn [res_bind]. rewrite Hget. cbn [res_bind].
      rewrite aset_tab. cbn [res_bind]. rewrite wrap_small by lia.
      set (j := Blk (p_base p) (p_size p + p_size q)).
      destruct (remove_tab s (la ++ [j]) q lb rest) as (x & Er).
      { rewrite !length_app. simpl. rewrite length_app. lia. }
      rewrite <- app_assoc in Er. rewrite length_app, Nat2Z.inj_add in Er. change (Z.of_nat (length [j])) with 1 in Er.
      simpl app in Er. rewrite Er. cbn [res_bind]. eexists _, _, _. split; [reflexivity|].
      split; [lia|]. rewrite !length_app. simpl.
      split; [lia|]. split; [lia|]. split.
      * intros lo Hla Haf. rewrite <- app_assoc. apply sep_app. split; [done|]. unfold j. simpl. unfold p_end. simpl.
        split; [done|]. split; [lia|]. split; [lia|]. by replace (p_base p + (p_size p + p_size q)) with (p_base q + p_size q) by lia.
      * intros a. autorewrite with lmb_cov. unfold j, within, p_end. simpl. intuition lia.
    + destruct (Z.eqb_spec (p_base p) (p_base q + p_size q)); [lia|]. cbn [res_bind Z.eqb negb].
      exists c, (la ++ p :: q :: lb), rest. split; [done|]. split; [lia|]. rewrite !length_app. simpl. split; [lia|].
      split; [lia|]. split; [|done]. intros lo Hla Haf. apply sep_app. split; [done|]. simpl. unfold p_end.
      split; [done|]. split; [lia|]. split; [lia|]. split; [lia|]. tauto.
Qed.

(** Insertion in front of the entries with larger addresses. *)
Lemma insert_behind c s base size la z lb : forall x rest,
  Forall (fun p => base < p_base p) lb -> p_base z <= base ->
  insert_loop (length (la ++ [z]) + length lb) (Rgn c s ((la ++ [z]) ++ lb ++ x :: rest)) base size =
    Ok (Rgn c s ((la ++ [z]) ++ Blk base size :: lb ++ rest)).
Proof.
  induction lb as [|b lb IH] using rev_ind; intros x rest Hlb Hz.
  - rewrite Nat.add_0_r, length_app, Nat.add_1_r. cbn [insert_loop].
    rewrite (aget_at _ _ la z (x :: rest)); [|simpl; by rewrite <- app_assoc|done]. cbn [res_bind].
    destruct (Z.ltb_spec base (p_base z)); [lia|].
    replace (Z.of_nat (length la) + 1) with (Z.of_nat (length (la ++ [z]))) by (rewrite length_app; simpl; lia).
    simpl app. apply aset_mid.
  - rewrite Forall_app in Hlb. destruct Hlb as [Hlb Hb]. rewrite Forall_singleton in Hb.
    rewrite (length_app lb), Nat.add_1_r, Nat.add_succ_r. cbn [insert_loop].
    rewrite (aget_at _ _ ((la ++ [z]) ++ lb) b (x :: rest));
      [|simpl; by rewrite <- !app_assoc|by rewrite (length_app _ lb)]. cbn [res_bind].
    destruct (Z.ltb_spec base (p_base b)); [|lia].
    replace ((la ++ [z]) ++ (lb ++ [b]) ++ x :: rest) with (((la ++ [z]) ++ lb ++ [b]) ++ x :: rest)
      by by rewrite <- !app_assoc.
    replace (Z.of_nat (length (la ++ [z]) + length lb) + 1) with (Z.of_nat (length ((la ++ [z]) ++ lb ++ [b])))
      by (rewrite !length_app; simpl; lia).
    rewrite aset_mid. cbn [res_bind].
    replace (((la ++ [z]) ++ lb ++ [b]) ++ b :: rest) with ((la ++ [z]) ++ lb ++ b :: b :: rest) by by rewrite <- !app_assoc.
    rewrite IH by done. by rewrite <- !app_assoc.
Qed.

Lemma insert_front c s base size b0 lb : forall x rest,
  Forall (fun p => base < p_base p) (b0 :: lb) ->
  insert_loop (length (b0 :: lb)) (Rgn c s ((b0 :: lb) ++ x :: rest)) base size =
    Ok (Rgn c s (b0 :: (b0 :: lb) ++ rest)).
Proof.
  induction lb as [|b lb IH] using rev_ind; intros x rest Hlb.
  - rewrite Forall_singleton in Hlb. cbn [length insert_loop].
    rewrite (aget_at _ _ [] b0 (x :: rest)) by done. cbn [res_bind].
    rewrite (proj2 (Z.ltb_lt base (p_base b0))) by done.
    change (Z.of_nat 0 + 1) with (Z.of_nat (length [b0])). by rewrite aset_mid.
  - rewrite app_comm_cons in *. rewrite Forall_app in Hlb. destruct Hlb as [Hlb Hb]. rewrite Forall_singleton in Hb.
    rewrite length_app, Nat.add_1_r. cbn [insert_loop].
    rewrite (aget_at _ _ (b0 :: lb) b (x :: rest)); [|simpl; by rewrite <- !app_assoc|done]. cbn [res_bind].
    rewrite (proj2 (Z.ltb_lt base (p_base b))) by done.
    replace (Z.of_nat (length (b0 :: lb)) + 1) with (Z.of_nat (length ((b0 :: lb) ++ [b]))) by (rewrite length_app; simpl; lia).
    rewrite aset_mid. cbn [res_bind]. rewrite <- app_assoc. change ([b] ++ b :: rest) with (b :: b :: rest).
    rewrite IH by done. by rewrite <- !app_assoc.
Qed.

(** *** Orders *)
Lemma sep_split lo l base : sep lo l ->
  exists la lb, l = la ++ lb /\ Forall (fun p => p_base p <= base) la /\ Forall (fun p => base < p_base p) lb.
Proof.
  revert lo. induction l as [|p l IH]; intros lo Hs; [by exists [], []|].
  simpl in Hs. destruct Hs as (H1 & H2 & H3 & Hs). destruct (IH _ Hs) as (la & lb & -> & Ha & Hb).
  destruct (decide (p_base p <= base)) as [Hle|Hgt]; [exists (p :: la), lb; by auto|].
  exists [], (p :: la ++ lb). split; [done|]. split; [done|]. constructor; [lia|].
  apply Forall_forall. intros q Hq. pose proof (sep_ends _ _ _ Hs Hq). unfold p_end in *. lia.
Qed.

Lemma after_le lo l b : sep lo l -> lo <= b -> Forall (fun p => p_end p < b) l -> after lo l <= b.
Proof.
  revert lo. induction l as [|p l IH]; intros lo Hs Hlo Hall; simpl; [done|].
  simpl in Hs. inversion Hall; subst. apply IH; [tauto|lia|done].
Qed.

Lemma sep_from lo lo' l : sep lo l -> Forall (fun p => lo' <= p_base p) l -> sep lo' l.
Proof. destruct l as [|p l]; simpl; [done|]. intros (? & ?) Hall. inversion Hall; subst. tauto. Qed.

Lemma sep_valid lo l : 0 <= lo -> sep lo l ->
  Forall (fun p => 0 <= p_base p /\ 0 < p_size p /\ p_end p < 2 ^ 32) l.
Proof. intros Hlo Hs. apply Forall_forall. intros p Hp. pose proof (sep_ends _ _ _ Hs Hp). lia. Qed.

(** Inserting a block that touches none. *)
Lemma sep_insert la lb base size :
  0 <= base -> 0 < size -> base + size < 2 ^ 32 -> sep 0 (la ++ lb) ->
  Forall (fun p => p_base p <= base) la -> Forall (fun p => base < p_base p) lb ->
  Forall (apart base size) (la ++ lb) -> sep 0 (la ++ Blk base size :: lb).
Proof.
  intros Hb Hs He Hsep Hla Hlb Hap. apply sep_app in Hsep as [Hsa Hsb]. apply sep_app. split; [done|].
  rewrite Forall_app in Hap. destruct Hap as [Hapa Hapb]. simpl. unfold p_end. simpl.
  split; [|split; [done|split; [done|]]].
  - apply after_le; [done|done|]. apply Forall_forall. intros p Hp.
    rewrite Forall_forall in Hla, Hapa. specialize (Hla p Hp). destruct (Hapa p Hp); [done|].
    cbv beta in Hla. lia.
  - eapply sep_from; [exact Hsb|]. apply Forall_forall. intros p Hp.
    rewrite Forall_forall in Hlb, Hapb. specialize (Hlb p Hp). cbv beta in Hlb.
    pose proof (sep_ends _ _ _ Hsb Hp). destruct (Hapb p Hp); unfold p_end in *; lia.
Qed.

Lemma aset_head c s p rest q : aset (Rgn c s (p :: rest)) 0 q = Ok (Rgn c s (q :: rest)).
Proof. apply (aset_mid c s [] p rest q). Qed.

(** The last part of [lmb_add_region]. *)
Lemma insert_tab s l rest base size x :
  length (l ++ x :: rest) = 9%nat -> (1 <= length l < 8)%nat -> sep 0 l ->
  0 <= base -> 0 < size -> base + size < 2 ^ 32 -> Forall (apart base size) l ->
  exists l', (let* rgn := insert_loop (Z.to_nat (s32 (u32 (cnt (tab s l (x :: rest)) - 1)) + 1)) (tab s l (x :: rest)) base size in
     let* p0 := aget rgn 0 in
     let* rgn := (if base <? p_base p0 then aset rgn 0 (Blk base size) else Ok rgn) in
     Ok (0, set_cnt rgn (u32 (cnt rgn + 1)))) = Ok (0, tab s l' rest) /\
    length l' = S (length l) /\ sep 0 l' /\
    (forall a, covers l' a <-> covers l a \/ base <= a < base + size).
Proof.
  intros Hlen Hmax Hsep Hb Hs He Hap. rewrite cnt_tab, wrap_small, swrap_small by lia.
  replace (Z.to_nat (Z.of_nat (length l) - 1 + 1)) with (length l) by lia.
  destruct (sep_split 0 l base Hsep) as (la & lb & -> & Hla & Hlb).
  exists (la ++ Blk base size :: lb). split.
  - destruct la as [|z la _] using rev_ind.
    + destruct lb as [|b0 lb]; [simpl in Hmax; lia|]. unfold tab. rewrite !app_nil_l. rewrite insert_front by done.
      cbn [res_bind]. rewrite (aget_at _ 0 [] b0 ((b0 :: lb) ++ rest)) by done. cbn [res_bind].
      inversion Hlb; subst. rewrite (proj2 (Z.ltb_lt base (p_base b0))) by done.
      rewrite aset_head. cbn [res_bind].
      unfold set_cnt. cbn [cnt r_size region]. simpl in Hmax. rewrite wrap_small by (simpl length; lia).
      do 3 f_equal. simpl length. lia.
    + unfold tab. rewrite <- (app_assoc (la ++ [z]) lb). rewrite (length_app (la ++ [z]) lb).
      rewrite Forall_app, Forall_singleton in Hla. destruct Hla as [_ Hz].
      rewrite insert_behind by done. cbn [res_bind].
      assert (exists z0 rest0, (la ++ [z]) = z0 :: rest0 /\ p_base z0 <= base) as (z0 & la0 & E & Hz0).
      { destruct la as [|z0 la]; [by exists z, []|]. exists z0, (la ++ [z]). split; [done|].
        rewrite <- !app_assoc in Hsep. simpl in Hsep. destruct Hsep as (_ & Hzs & _ & Hsep).
        assert (z ∈ la ++ [z] ++ lb) as Hin by (apply elem_of_app; right; apply elem_of_app; left; by apply list_elem_of_singleton).
        pose proof (sep_ends _ _ _ Hsep Hin). unfold p_end in *. lia. }
      rewrite E. rewrite (aget_at _ 0 [] z0 (la0 ++ Blk base size :: lb ++ rest)) by done. cbn [res_bind].
      destruct (Z.ltb_spec base (p_base z0)); [lia|]. cbn [res_bind].
      unfold set_cnt. cbn [cnt r_size region]. rewrite <- E. rewrite !length_app in *. simpl in Hmax.
      rewrite wrap_small by lia. rewrite <- !app_assoc. do 3 f_equal. simpl length. lia.
  - split; [rewrite !length_app; simpl; lia|]. split; [by apply sep_insert|].
    intros a. autorewrite with lmb_cov. unfold within, p_end. simpl. intuition lia.
Qed.

(** An entry merged with the block, then perhaps with its successor. *)
Lemma merged_tab s la p lb rest p' base size :
  length (la ++ p :: lb ++ rest) = 9%nat -> (length (la ++ p :: lb) <= 8)%nat -> sep 0 (la ++ p :: lb) ->
  0 <= base -> 0 < size -> base + size < 2 ^ 32 ->
  Forall (apart base size) la -> Forall (clear_of base size) lb ->
  (p_base p = base + size /\ p' = Blk base (p_size p + size)) \/
  (p_end p = base /\ p' = Blk (p_base p) (p_size p + size)) ->
  exists c' l' rest', join_next (tab s (la ++ p' :: lb) rest) (Z.of_nat (length la)) 1 = Ok (c', tab s l' rest') /\
    1 <= c' /\ length (l' ++ rest') = 9%nat /\ (1 <= length l' <= 8)%nat /\ sep 0 l' /\
    (forall a, covers l' a <-> covers (la ++ p :: lb) a \/ base <= a < base + size).
Proof.
  intros Hlen Hmax Hsep Hb Hs He Hla Hlb Hp. apply sep_app in Hsep as [Hsa Hsp]. simpl in Hsp.
  destruct Hsp as (Hp1 & Hp2 & Hp3 & Hsb). pose proof (sep_after _ _ Hsa).
  assert (p_base p' = Z.min (p_base p) base /\ p_size p' = p_size p + size /\ p_end p' < 2 ^ 32 /\
    0 <= p_base p') as (Eb & Es & Hend & Hb0).
  { unfold p_end in *. destruct Hp as [[? ->]|[? ->]]; simpl; lia. }
  assert (sep (p_end p') lb) as Hsb'.
  { eapply sep_from; [exact Hsb|]. apply Forall_forall. intros q Hq. rewrite Forall_forall in Hlb.
    pose proof (Hlb q Hq) as Hcl. pose proof (sep_ends _ _ _ Hsb Hq). unfold clear_of, p_end in *. lia. }
  destruct (join_next_spec s la p' lb rest 1) as (c' & l' & rest' & E & Hc & Hl' & Hn & Hsl & Hcov);
    [rewrite length_app in *; exact Hlen|done|lia|done|by destruct lb|].
  exists c', l', rest'. split; [done|]. split; [done|]. split; [done|].
  rewrite !length_app in *. simpl in *. split; [lia|]. split.
  - apply Hsl; [done|]. apply after_le; [done|done|]. apply Forall_forall. intros q Hq.
    rewrite Forall_forall in Hla. pose proof (Hla q Hq) as Ha. pose proof (sep_ends _ _ _ Hsa Hq).
    unfold apart, p_end in *. lia.
  - intros a. rewrite Hcov. autorewrite with lmb_cov. unfold within, p_end in *. intuition lia.
Qed.

(** [lmb_add_region] on a table, for a block that overlaps no entry. *)
Lemma add_region_tab s l rest base size :
  length (l ++ rest) = 9%nat -> (1 <= length l <= 8)%nat -> sep 0 l ->
  0 <= base -> 0 < size -> base + size < 2 ^ 32 -> Forall (clear_of base size) l ->
  exists ret l' rest', lmb_add_region (tab s l rest) base size = Ok (ret, tab s l' rest') /\
    length (l' ++ rest') = 9%nat /\ (1 <= length l' <= 8)%nat /\ sep 0 l' /\
    ((ret = -1 /\ l' = l /\ length l = 8%nat) \/
     (0 <= ret /\ forall a, covers l' a <-> covers l a \/ base <= a < base + size)).
Proof.
  intros Hlen Hmax Hsep Hb Hs He Hcl. destruct l as [|p0 l0]; [simpl in Hmax; lia|].
  unfold lmb_add_region. rewrite (aget_at _ 0 [] p0 (l0 ++ rest)) by done. cbn [res_bind].
  assert (0 < p_size p0) by (simpl in Hsep; tauto).
  rewrite (proj2 (Z.eqb_neq (p_size p0) 0)), andb_false_r by lia.
  set (l := p0 :: l0) in *. clearbody l.
  destruct (add_scan_spec 10 s [] l rest base size) as (la & lb & El & Hap & Hscan);
    [lia|done|done|done|by apply (sep_valid 0)|done|].
  change (Z.of_nat (length [])) with 0 in Hscan. simpl app in Hscan. destruct lb as [|p lb].
  - rewrite Hscan. cbn [res_bind]. unfold join_next. rewrite cnt_tab, wrap_small by lia.
    destruct (Z.ltb_spec (Z.of_nat (length l)) (Z.of_nat (length l) - 1)); [lia|]. cbn [res_bind Z.eqb negb].
    rewrite app_nil_r in El. subst la. unfold MAX_LMB_REGIONS. rewrite cnt_tab.
    destruct (Z.leb_spec 8 (Z.of_nat (length l))).
    + exists (-1), l, rest. split; [done|]. split; [done|]. split; [done|]. split; [done|]. left. split; [done|]. split; [done|lia].
    + destruct rest as [|x rest]; [rewrite app_nil_r in Hlen; lia|].
      destruct (insert_tab s l rest base size x) as (l' & E & El' & Hs' & Hcov); [done|lia|done..|].
      exists 0, l', rest. split; [exact E|]. rewrite length_app in *. simpl in Hlen.
      split; [lia|]. split; [lia|]. split; [done|]. right. by split.
  - assert (Hmid : exists p', add_scan 10 (tab s l rest) base size 0 =
        Ok (Merged (Z.of_nat (length la)) (tab s (la ++ p' :: lb) rest)) /\
      ((p_base p = base + size /\ p' = Blk base (p_size p + size)) \/
       (p_end p = base /\ p' = Blk (p_base p) (p_size p + size)))).
    { destruct Hscan as [[Hp E]|[Hp E]]; eexists; (split; [exact E|]); tauto. }
    destruct Hmid as (p' & E & Hp'). rewrite E. cbn [res_bind]. subst l.
    rewrite Forall_app in Hcl. destruct Hcl as [_ Hcl]. inversion Hcl; subst.
    destruct (merged_tab s la p lb rest p' base size) as (c' & l' & rest' & Ej & Hc & Hl' & Hn & Hs' & Hcov);
      [by rewrite <- app_assoc in Hlen|lia|done..|].
    rewrite Ej. cbn [res_bind]. assert (negb (c' =? 0) = true) as -> by lia.
    exists c', l', rest'. split; [done|]. split; [done|]. split; [done|]. split; [done|]. right. split; [lia|done].
Qed.

(** A table that holds the blocks [l]: in use, or as [lmb_init] leaves it. *)
Definition blocks (l : list lmb_property) (r : lmb_region) : Prop :=
  table l r \/ (l = [] /\ exists s rest, r = Rgn 1 s (Blk 0 0 :: rest) /\ length rest = 8%nat).

(** A block of addresses. *)
Definition valid_block (base size : Z) : Prop := 0 <= base /\ 0 < size /\ base + size < 2 ^ 32.

Lemma add_region_blocks l r base size :
  blocks l r -> valid_block base size -> Forall (clear_of base size) l ->
  exists ret r' l', lmb_add_region r base size = Ok (ret, r') /\ table l' r' /\
    ((ret = -1 /\ l' = l /\ length l = 8%nat) \/
     (0 <= ret /\ forall a, covers l' a <-> covers l a \/ base <= a < base + size)).
Proof.
  intros [(s & rest & -> & Hlen & Hmax & Hsep)|(-> & s & rest & -> & Hlen)] (Hb & Hs & He) Hcl.
  - destruct (add_region_tab s l rest base size) as (ret & l' & rest' & E & Hl' & Hm' & Hs' & Hr); [done..|].
    exists ret, (tab s l' rest'), l'. split; [done|]. split; [|done]. by exists s, rest'.
  - exists 0, (tab s [Blk base size] rest), [Blk base size]. split; [|split].
    + unfold lmb_add_region. rewrite (aget_at _ 0 [] (Blk 0 0) rest) by done. cbn [res_bind]. by rewrite aset_head.
    + exists s, rest. split; [done|]. simpl. rewrite Hlen. unfold p_end. simpl. split; [done|]. split; [lia|]. tauto.
    + right. split; [done|]. intros a. autorewrite with lmb_cov. unfold within, p_end. simpl. intuition lia.
Qed.

(** ** Freeing a block *)

Definition contains (p : lmb_property) (base size : Z) : Prop := p_base p <= base /\ base + size <= p_end p.

Lemma free_scan_spec n : forall s l1 l2 rest base size b0 e0,
  (length l2 < n)%nat -> Forall (fun p => 0 <= p_base p /\ 0 < p_size p /\ p_end p < 2 ^ 32) l2 ->
  (exists la p lb, l2 = la ++ p :: lb /\ contains p base size /\
     free_scan n (tab s (l1 ++ l2) rest) base (base + size) (Z.of_nat (length l1)) b0 e0 =
       Ok (Z.of_nat (length (l1 ++ la)), p_base p, p_end p)) \/
  (Forall (fun p => ~ contains p base size) l2 /\ exists b e,
     free_scan n (tab s (l1 ++ l2) rest) base (base + size) (Z.of_nat (length l1)) b0 e0 =
       Ok (Z.of_nat (length (l1 ++ l2)), b, e)).
Proof.
  induction n as [|n IH]; intros s l1 l2 rest base size b0 e0 Hn Hok; [lia|].
  cbn [free_scan]. rewrite before_cnt. destruct l2 as [|p l2].
  { right. split; [constructor|]. rewrite app_nil_r. by eexists _, _. }
  rewrite bool_decide_eq_true_2 by done. rewrite aget_tab. cbn [res_bind].
  inversion Hok as [|? ? (Hpb & Hps & Hpe) Hok']; subst.
  rewrite wrap_small by (unfold p_end in *; lia). change (p_base p + p_size p) with (p_end p).
  destruct (Z.leb_spec (p_base p) base), (Z.leb_spec (base + size) (p_end p)); cbn [andb].
  { left. exists [], p, l2. split; [done|]. split; [by split|]. by rewrite app_nil_r. }
  all: (destruct (IH s (l1 ++ [p]) l2 rest base size (p_base p) (p_end p)) as [(la & q & lb & -> & Hq & E)|(Hno & b & e & E)];
    [simpl in Hn; lia|done|..]; rewrite <- !app_assoc, length_app, Nat2Z.inj_add in E;
    change (Z.of_nat (length [p])) with 1 in E; simpl app in E);
    [left; exists (p :: la), q, lb; by rewrite E
    |right; split; [constructor; [unfold contains; lia|done]|by exists b, e; rewrite E]].
Qed.

(** Replacing the entry that contains the block by what is left of it. *)
Lemma free_covers la p lb base size p' :
  sep 0 (la ++ p :: lb) -> 0 < size -> contains p base size ->
  (forall a, within p' a <-> within p a /\ ~ (base <= a < base + size)) ->
  forall a, covers (la ++ p' :: lb) a <-> covers (la ++ p :: lb) a /\ ~ (base <= a < base + size).
Proof.
  intros Hsep Hs [Hc1 Hc2] Hp' a. apply sep_app in Hsep as [Hsa Hsp]. simpl in Hsp.
  destruct Hsp as (Hp1 & Hp2 & Hp3 & Hsb). autorewrite with lmb_cov. rewrite Hp'.
  pose proof (covers_bounds 0 la a Hsa). pose proof (covers_bounds _ lb a Hsb).
  unfold within. intuition lia.
Qed.

Lemma sep_replace la p lb p' :
  sep 0 (la ++ p :: lb) -> p_base p <= p_base p' -> 0 < p_size p' -> p_end p' <= p_end p ->
  sep 0 (la ++ p' :: lb).
Proof.
  intros Hsep Hb Hs He. apply sep_app in Hsep as [Hsa Hsp]. simpl in Hsp. destruct Hsp as (Hp1 & Hp2 & Hp3 & Hsb).
  apply sep_app. split; [done|]. simpl. split; [lia|]. split; [done|]. split; [lia|].
  eapply sep_mono; [|exact Hsb]. lia.
Qed.

Lemma sep_remove la p lb : sep 0 (la ++ p :: lb) -> sep 0 (la ++ lb).
Proof.
  intros Hsep. apply sep_app in Hsep as [Hsa Hsp]. simpl in Hsp. destruct Hsp as (Hp1 & Hp2 & Hp3 & Hsb).
  apply sep_app. split; [done|]. eapply sep_mono; [|exact Hsb]. unfold p_end. lia.
Qed.

(** Cutting a hole into an entry: the entry keeps its front, the tail is added. *)
Lemma free_split s la p lb rest base size :
  length ((la ++ p :: lb) ++ rest) = 9%nat -> (length (la ++ p :: lb) <= 8)%nat -> sep 0 (la ++ p :: lb) ->
  valid_block base size -> p_base p < base -> base + size < p_end p ->
  exists ret l' rest',
    lmb_add_region (tab s (la ++ Blk (p_base p) (base - p_base p) :: lb) rest) (base + size) (p_end p - (base + size)) =
      Ok (ret, tab s l' rest') /\ length (l' ++ rest') = 9%nat /\ (1 <= length l' <= 8)%nat /\ sep 0 l' /\
    ((0 <= ret /\ forall a, covers l' a <-> covers (la ++ p :: lb) a /\ ~ (base <= a < base + size)) \/
     (ret = -1 /\ length (la ++ p :: lb) = 8%nat /\
      forall a, covers l' a <-> covers (la ++ p :: lb) a /\ ~ (base <= a < p_end p))).
Proof.
  intros Hlen Hmax Hsep (Hb & Hs & He) H1 H2. set (front := Blk (p_base p) (base - p_base p)).
  assert (length (la ++ front :: lb) = length (la ++ p :: lb)) as Hsame by by rewrite !length_app.
  assert (sep 0 (la ++ front :: lb)) as Hsf by (eapply sep_replace; [exact Hsep|unfold front, p_end in *; simpl; lia..]).
  pose proof Hsep as Hsep'. apply sep_app in Hsep' as [Hsa Hsp]. simpl in Hsp.
  destruct Hsp as (Hp1 & Hp2 & Hp3 & Hsb). pose proof (sep_after _ _ Hsa).
  destruct (add_region_tab s (la ++ front :: lb) rest (base + size) (p_end p - (base + size)))
    as (ret & l' & rest' & E & Hl' & Hn & Hs' & Hr).
  { rewrite <- Hlen, !length_app. done. }
  { rewrite Hsame, length_app in *. simpl in *. lia. }
  { done. } { lia. } { lia. } { lia. }
  { apply Forall_app. split; [|constructor].
    - apply Forall_forall. intros q Hq. pose proof (sep_ends _ _ _ Hsa Hq). left. lia.
    - left. unfold front, p_end. simpl. lia.
    - apply Forall_forall. intros q Hq. pose proof (sep_ends _ _ _ Hsb Hq). right. unfold p_end in *. lia. }
  exists ret, l', rest'. split; [done|]. split; [done|]. split; [done|]. split; [done|].
  assert (forall a, covers (la ++ front :: lb) a <-> covers (la ++ p :: lb) a /\ ~ (base <= a < p_end p)) as Hfront.
  { intros a. pose proof (free_covers la p lb base (p_end p - base) front Hsep ltac:(lia)) as Hfc.
    replace (base + (p_end p - base)) with (p_end p) in Hfc by lia. apply Hfc; [split; lia|].
    intros b. unfold within, front, p_end in *. simpl. lia. }
  destruct Hr as [(-> & -> & Hfull)|(Hret & Hcov)].
  - right. split; [done|]. split; [by rewrite <- Hsame|done].
  - left. split; [done|]. intros a. rewrite Hcov, Hfront. autorewrite with lmb_cov.
    pose proof (covers_bounds 0 la a Hsa). pose proof (covers_bounds _ lb a Hsb). unfold within. intuition lia.
Qed.

(** [lmb_free] on a table. *)
Lemma free_region_tab s l rest base size :
  length (l ++ rest) = 9%nat -> (length l <= 8)%nat -> sep 0 l -> valid_block base size ->
  Exists (fun p => contains p base size) l ->
  exists ret l' rest', free_region (tab s l rest) base size = Ok (ret, tab s l' rest') /\
    length (l' ++ rest') = 9%nat /\ (length l' <= 8)%nat /\ sep 0 l' /\
    ((0 <= ret /\ (l' = [] -> exists p, l = [p]) /\
      forall a, covers l' a <-> covers l a /\ ~ (base <= a < base + size)) \/
     (ret = -1 /\ length l = 8%nat /\ exists p, p ∈ l /\ p_base p < base /\ base + size < p_end p /\
      forall a, covers l' a <-> covers l a /\ ~ (base <= a < p_end p))).
Proof.
  intros Hlen Hmax Hsep Hv Hex. pose proof Hv as (Hb & Hs & He). unfold free_region. rewrite (wrap_small 32 (base + size)) by lia.
  destruct (free_scan_spec 10 s [] l rest base size 0 0) as [(la & p & lb & -> & Hc & E)|(Hno & _)];
    [lia|by apply (sep_valid 0)| |].
  2: { apply Exists_exists in Hex as (p & Hin & Hp). rewrite Forall_forall in Hno. by destruct (Hno p Hin). }
  change (Z.of_nat (length [])) with 0 in E. simpl app in E. rewrite E. cbn [res_bind].
  rewrite cnt_tab, length_app. simpl length.
  destruct (Z.eqb_spec (Z.of_nat (length la)) (Z.of_nat (length la + S (length lb)))); [lia|].
  pose proof Hsep as Hsep'. apply sep_app in Hsep' as [Hsa Hsp]. simpl in Hsp.
  destruct Hsp as (Hp1 & Hp2 & Hp3 & Hsb). pose proof (sep_after _ _ Hsa). destruct Hc as [Hc1 Hc2].
  destruct (Z.eqb_spec (p_base p) base) as [Eb|Eb], (Z.eqb_spec (p_end p) (base + size)) as [Ee|Ee]; cbn [andb].
  - destruct (remove_tab s la p lb rest) as (q & Eq); [by rewrite <- app_assoc in Hlen|].
    rewrite Eq. cbn [res_bind]. exists 0, (la ++ lb), (q :: rest). split; [done|].
    rewrite !length_app in *. simpl in *. split; [lia|]. split; [lia|]. split; [by eapply sep_remove|].
    left. split; [done|]. split.
    { intros Hnil. apply app_eq_nil in Hnil as [-> ->]. by exists p. }
    intros a. autorewrite with lmb_cov. pose proof (covers_bounds 0 la a Hsa). pose proof (covers_bounds _ lb a Hsb).
    unfold within. intuition lia.
  - rewrite aget_tab. cbn [res_bind]. unfold p_end in *. rewrite wrap_small by lia. rewrite aset_tab. cbn [res_bind].
    eexists 0, _, rest. split; [reflexivity|]. rewrite !length_app in *. simpl in *. split; [lia|]. split; [lia|]. split.
    { eapply sep_replace; [exact Hsep|unfold p_end; simpl; lia..]. }
    left. split; [done|]. split; [intros Hnil; by apply app_eq_nil in Hnil as [_ ?]|].
    apply free_covers; [done|done|split; unfold p_end; lia|].
    intros a. unfold within, p_end. simpl. lia.
  - rewrite aget_tab. cbn [res_bind]. unfold p_end in *. rewrite wrap_small by lia. rewrite aset_tab. cbn [res_bind].
    eexists 0, _, rest. split; [reflexivity|]. rewrite !length_app in *. simpl in *. split; [lia|]. split; [lia|]. split.
    { eapply sep_replace; [exact Hsep|unfold p_end; simpl; lia..]. }
    left. split; [done|]. split; [intros Hnil; by apply app_eq_nil in Hnil as [_ ?]|].
    apply free_covers; [done|done|split; unfold p_end; lia|].
    intros a. unfold within, p_end. simpl. lia.
  - rewrite aget_tab. cbn [res_bind]. rewrite !(wrap_small 32) by (unfold p_end in *; lia). rewrite aset_tab. cbn [res_bind].
    destruct (free_split s la p lb rest base size) as (ret & l' & rest' & Ef & Hl' & Hn & Hs' & Hr); [done..|lia|lia|].
    exists ret, l', rest'. split; [done|]. split; [done|]. split; [lia|]. split; [done|].
    destruct Hr as [(Hret & Hcov)|(-> & H8 & Hcov)]; [left|right].
    + split; [done|]. split; [intros ->; simpl in Hn; lia|done].
    + split; [done|]. split; [by rewrite length_app in H8|]. exists p. split; [apply elem_of_app; right; by left|]. split; [lia|]. split; [lia|done].
Qed.

(** ** Properties *)

(** C19: Reserving or adding a block that overlaps no entry.  [lmb_add_region] always
    returns, never leaves the array, and keeps the table sorted, separated and within its
    eight entries.  Either the table was full and nothing could be merged, then the result
    is -1 and the table is as before; or the covered addresses are the old ones and the
    block. *)
Theorem lmb_add_region_covers l r base size :
  blocks l r -> valid_block base size -> Forall (clear_of base size) l ->
  exists ret r' l', lmb_add_region r base size = Ok (ret, r') /\ table l' r' /\
    ((ret = -1 /\ l' = l /\ length l = 8%nat) \/
     (0 <= ret /\ forall a, covers l' a <-> covers l a \/ base <= a < base + size)).
Proof. apply add_region_blocks. Qed.

(** Memory at 0x20000000, with a block between two reserved ones: all three are joined. *)
Definition two_blocks : lmb_region :=
  tab 0 [Blk 0x20000000 0x1000; Blk 0x20003000 0x1000] (replicate 7 (Blk 0 0)).

Lemma two_blocks_table : table [Blk 0x20000000 0x1000; Blk 0x20003000 0x1000] two_blocks.
Proof. exists 0, (replicate 7 (Blk 0 0)). split; [done|]. split; [done|]. split; [simpl; lia|]. unfold sep, p_end. simpl. lia. Qed.

Lemma lmb_add_region_covers_witness :
  exists ret r' l', lmb_add_region two_blocks 0x20001000 0x2000 = Ok (ret, r') /\ table l' r' /\
    ((ret = -1 /\ l' = [Blk 0x20000000 0x1000; Blk 0x20003000 0x1000] /\ 2%nat = 8%nat) \/
     (0 <= ret /\ forall a, covers l' a <->
       covers [Blk 0x20000000 0x1000; Blk 0x20003000 0x1000] a \/ 0x20001000 <= a < 0x20001000 + 0x2000)).
Proof.
  apply (lmb_add_region_covers [Blk 0x20000000 0x1000; Blk 0x20003000 0x1000] two_blocks 0x20001000 0x2000).
  - left. exact two_blocks_table.
  - split; [|split]; lia.
  - repeat constructor; unfold clear_of, p_end; simpl; lia.
Defined.

(** Freeing.  A block that no entry contains is refused with -1 and nothing changes.
    Otherwise the covered addresses are the old ones without the block, and the table is
    again sorted and separated (it is empty when the only entry was freed) -- except that
    cutting a hole into an entry of a full table returns -1 after the entry has been cut:
    then the part of the entry behind the block is lost as well. *)
Theorem lmb_free_removes m l r base size :
  table l r -> valid_block base size ->
  (Forall (fun p => ~ contains p base size) l -> lmb_free (Lmb m r) base size = Ok (-1, Lmb m r)) /\
  (Exists (fun p => contains p base size) l ->
    exists ret r' l', lmb_free (Lmb m r) base size = Ok (ret, Lmb m r') /\
      live r' = l' /\ sep 0 l' /\ (l' <> [] -> table l' r') /\ (l' = [] -> exists p, l = [p]) /\
      ((0 <= ret /\ forall a, covers l' a <-> covers l a /\ ~ (base <= a < base + size)) \/
       (ret = -1 /\ length l = 8%nat /\ exists p, p ∈ l /\ p_base p < base /\ base + size < p_end p /\
        forall a, covers l' a <-> covers l a /\ ~ (base <= a < p_end p)))).
Proof.
  intros (s & rest & -> & Hlen & Hmax & Hsep) Hv. unfold lmb_free. simpl reserved. simpl memory. split.
  - intros Hno. unfold free_region. pose proof Hv as (Hb & Hs & He). rewrite (wrap_small 32 (base + size)) by lia.
    destruct (free_scan_spec 10 s [] l rest base size 0 0) as [(la & p & lb & -> & Hc & E)|(_ & b & e & E)];
      [lia|by apply (sep_valid 0)|..].
    + rewrite Forall_app, Forall_cons in Hno. tauto.
    + change (Z.of_nat (length [])) with 0 in E. simpl app in E. rewrite E. cbn [res_bind].
      rewrite cnt_tab, Z.eqb_refl. reflexivity.
  - intros Hex. destruct (free_region_tab s l rest base size) as (ret & l' & rest' & E & Hl' & Hn & Hs' & Hr);
      [done|lia|done..|].
    exists ret, (tab s l' rest'), l'. rewrite E. cbn [res_bind]. split; [done|]. split; [apply live_tab|].
    split; [done|]. split.
    { intros Hne. exists s, rest'. split; [done|]. split; [done|]. split; [|done]. destruct l'; [done|simpl in *; lia]. }
    destruct Hr as [(Hret & Hnil & Hcov)|(-> & H8 & p & Hin & H1 & H2 & Hcov)].
    + split; [done|]. left. by split.
    + split; [|right; split; [done|]; split; [done|]; by exists p].
      intros ->. exfalso. specialize (Hcov (p_base p)). rewrite covers_nil in Hcov. apply Hcov.
      split; [|lia]. apply Exists_exists. exists p. split; [done|].
      pose proof (sep_ends _ _ _ Hsep Hin). unfold within, p_end in *. lia.
Qed.

Lemma lmb_free_removes_witness :
  exists ret r' l', lmb_free (Lmb two_blocks two_blocks) 0x20003400 0x800 = Ok (ret, Lmb two_blocks r') /\ live r' = l' /\
    (ret = -1 \/ forall a, covers l' a <->
      covers [Blk 0x20000000 0x1000; Blk 0x20003000 0x1000] a /\ ~ (0x20003400 <= a < 0x20003400 + 0x800)).
Proof.
  destruct (lmb_free_removes two_blocks _ two_blocks 0x20003400 0x800 two_blocks_table) as [_ H].
  - split; [|split]; lia.
  - destruct H as (ret & r' & l' & E & Hl & _ & _ & _ & Hr).
    { right. left. split; unfold p_end; simpl; lia. }
    exists ret, r', l'. split; [exact E|]. split; [exact Hl|].
    destruct Hr as [[_ Hr]|[Hr _]]; [right; exact Hr|left; exact Hr].
Defined.

(** After the last entry has been freed the table forgets.  Freeing the only entry
    leaves [cnt] at zero, and a later reservation at or above the freed address is reported
    as done while the table holds the freed block again instead of the new one (the unused
    array element behind it not being adjacent). *)
Theorem lmb_reserve_after_last_free m s p q rest base size :
  length rest = 7%nat -> sep 0 [p] ->
  lmb_addrs_adjacent (p_base p) (p_size p) (p_base q) (p_size q) = 0 ->
  p_base p <= base ->
  (let* (r1, l1) := lmb_free (Lmb m (tab s [p] (q :: rest))) (p_base p) (p_size p) in
  let* (r2, l2) := lmb_reserve l1 base size in
  Ok (r1, r2, l2)) = Ok (0, 0, Lmb m (tab s [p] (q :: rest))).
Proof.
  intros Hlen Hsep Hadj Hbase. simpl in Hsep. destruct Hsep as (H1 & H2 & H3 & _).
  assert (lmb_free (Lmb m (tab s [p] (q :: rest))) (p_base p) (p_size p) =
    Ok (0, Lmb m (Rgn 0 s (p :: q :: rest)))) as ->.
  { unfold lmb_free, free_region. simpl reserved. unfold p_end in *. rewrite (wrap_small 32 (p_base p + p_size p)) by lia.
    cbn [free_scan]. change (0 <? cnt (tab s [p] (q :: rest))) with true. cbn iota.
    rewrite (aget_at _ 0 [] p (q :: rest)) by done. cbn [res_bind].
    rewrite (wrap_small 32 (p_base p + p_size p)) by lia. rewrite !Z.leb_refl. cbn [andb res_bind].
    change (0 =? cnt (tab s [p] (q :: rest))) with false. cbn iota. rewrite !Z.eqb_refl. cbn [andb].
    unfold lmb_remove_region. cbn [remove_loop]. change (0 <? u32 (cnt (tab s [p] (q :: rest)) - 1)) with false.
    cbn iota. reflexivity. }
  cbn [res_bind]. unfold lmb_reserve, lmb_add_region. cbn [reserved memory].
  rewrite (aget_at _ 0 [] p (q :: rest)) by done. cbn [res_bind cnt Z.eqb andb].
  change (add_scan 10 (Rgn 0 s (p :: q :: rest)) base size 0) with (Ok (NotFound 0)). cbn [res_bind].
  unfold join_next. cbn [cnt]. change (0 <? u32 (0 - 1)) with true. cbn iota.
  unfold lmb_regions_adjacent. rewrite (aget_at _ 0 [] p (q :: rest)) by done.
  rewrite (aget_at _ (0 + 1) [p] q rest) by done. cbn [res_bind]. rewrite Hadj. cbn [res_bind Z.eqb negb].
  change (MAX_LMB_REGIONS <=? cnt (Rgn 0 s (p :: q :: rest))) with false. cbn iota.
  change (insert_loop (Z.to_nat (s32 (u32 (cnt (Rgn 0 s (p :: q :: rest)) - 1)) + 1)) (Rgn 0 s (p :: q :: rest)) base size)
    with (Ok (Rgn 0 s (p :: q :: rest))). cbn [res_bind].
  rewrite (aget_at _ 0 [] p (q :: rest)) by done. cbn [res_bind].
  destruct (Z.ltb_spec base (p_base p)); [lia|]. reflexivity.
Qed.

Lemma lmb_reserve_after_last_free_witness :
  (let* (r1, l1) := lmb_free (Lmb two_blocks (tab 0 [Blk 0x20000000 0x1000] (replicate 8 (Blk 0 0)))) 0x20000000 0x1000 in
  let* (r2, l2) := lmb_reserve l1 0x28000000 0x4000 in
  Ok (r1, r2, l2)) = Ok (0, 0, Lmb two_blocks (tab 0 [Blk 0x20000000 0x1000] (replicate 8 (Blk 0 0)))).
Proof.
  apply (lmb_reserve_after_last_free two_blocks 0 (Blk 0x20000000 0x1000) (Blk 0 0) (replicate 7 (Blk 0 0)) 0x28000000 0x4000);
    [reflexivity|unfold sep, p_end; simpl; lia|vm_compute; reflexivity|simpl; lia].
Defined.

(** ** Allocation *)

Lemma align_down_spec x k : 0 <= x < 2 ^ 32 -> 0 <= k < 32 -> lmb_align_down x (2 ^ k) = x / 2 ^ k * 2 ^ k.
Proof.
  intros Hx Hk. unfold lmb_align_down. rewrite <- Z.shiftr_div_pow2, <- Z.shiftl_mul_pow2 by lia.
  apply Z.bits_inj'. intros i Hi. rewrite Z.land_spec, testbit_wrap, Z.lnot_spec, Z.shiftl_spec by lia.
  rewrite Z.sub_1_r, <- Z.ones_equiv, Z.testbit_ones_nonneg by lia.
  destruct (Z.ltb_spec i 32).
  - destruct (Z.ltb_spec i k); simpl.
    + rewrite andb_false_r. by rewrite Z.testbit_neg_r by lia.
    + rewrite andb_true_r, Z.shiftr_spec by lia. f_equal. lia.
  - rewrite (testbit_high 32 x) by lia. rewrite Z.shiftr_spec by lia. by rewrite (testbit_high 32 x) by lia.
Qed.

Lemma align_down_facts x k : 0 <= x < 2 ^ 32 -> 0 <= k < 32 ->
  0 <= lmb_align_down x (2 ^ k) <= x /\ lmb_align_down x (2 ^ k) mod 2 ^ k = 0.
Proof.
  intros Hx Hk. rewrite align_down_spec by done.
  pose proof (Z.mul_div_le x (2 ^ k) ltac:(lia)). assert (0 <= x / 2 ^ k) by (apply Z.div_pos; lia).
  split; [nia|]. apply Z_mod_mult.
Qed.

(** A size that is a multiple of the alignment is not rounded. *)
Lemma align_up_id x k : 0 < x -> x + 2 ^ k <= 2 ^ 32 -> 0 <= k < 32 -> x mod 2 ^ k = 0 -> lmb_align_up x (2 ^ k) = x.
Proof.
  intros Hx He Hk Hm. unfold lmb_align_up. rewrite wrap_small by lia.
  change (lmb_align_down (x + (2 ^ k - 1)) (2 ^ k) = x). rewrite align_down_spec by lia.
  pose proof (Z.div_mod x (2 ^ k) ltac:(lia)) as Hd. rewrite Hm in Hd.
  assert ((x + (2 ^ k - 1)) / 2 ^ k = x / 2 ^ k) as ->.
  { symmetry. apply Z.div_unique with (2 ^ k - 1); lia. }
  lia.
Qed.

Lemma overlap_spec base size p :
  valid_block base size -> 0 <= p_base p -> 0 < p_size p -> p_end p < 2 ^ 32 ->
  lmb_addrs_overlap base size (p_base p) (p_size p) = false <-> clear_of base size p.
Proof.
  intros (Hb & Hs & He) Hp1 Hp2 Hp3. unfold lmb_addrs_overlap, clear_of, p_end in *.
  rewrite !wrap_small by lia. rewrite andb_false_iff, !Z.ltb_ge. lia.
Qed.

Lemma overlaps_scan_spec n : forall s l1 l2 rest base size,
  (length l2 < n)%nat -> valid_block base size ->
  Forall (fun p => 0 <= p_base p /\ 0 < p_size p /\ p_end p < 2 ^ 32) l2 ->
  (exists la p lb, l2 = la ++ p :: lb /\ ~ clear_of base size p /\
     overlaps_scan n (tab s (l1 ++ l2) rest) base size (Z.of_nat (length l1)) = Ok (Z.of_nat (length (l1 ++ la)))) \/
  (Forall (clear_of base size) l2 /\
     overlaps_scan n (tab s (l1 ++ l2) rest) base size (Z.of_nat (length l1)) = Ok (Z.of_nat (length (l1 ++ l2)))).
Proof.
  induction n as [|n IH]; intros s l1 l2 rest base size Hn Hv Hok; [lia|].
  cbn [overlaps_scan]. rewrite before_cnt. destruct l2 as [|p l2].
  { right. split; [constructor|]. by rewrite app_nil_r. }
  rewrite bool_decide_eq_true_2 by done. rewrite aget_tab. cbn [res_bind].
  inversion Hok as [|? ? (Hpb & Hps & Hpe) Hok']; subst.
  pose proof (overlap_spec base size p Hv Hpb Hps Hpe) as Hov.
  destruct (lmb_addrs_overlap _ _ _ _).
  - left. exists [], p, l2. split; [done|]. rewrite app_nil_r. split; [|done]. rewrite <- Hov. done.
  - destruct (IH s (l1 ++ [p]) l2 rest base size) as [(la & q & lb & -> & Hq & E)|(Hno & E)];
      [simpl in Hn; lia|done|done|..]; rewrite <- !app_assoc, length_app, Nat2Z.inj_add in E;
      change (Z.of_nat (length [p])) with 1 in E; simpl app in E.
    + left. exists (p :: la), q, lb. by rewrite E.
    + right. split; [constructor; [by apply Hov|done]|by rewrite E].
Qed.

Lemma overlaps_blocks l r base size :
  blocks l r -> valid_block base size ->
  (lmb_overlaps_region r base size = Ok (-1) /\ Forall (clear_of base size) l) \/
  (exists j p, lmb_overlaps_region r base size = Ok j /\ 0 <= j /\ aget r j = Ok p /\ p ∈ l /\ ~ clear_of base size p).
Proof.
  unfold lmb_overlaps_region.
  intros [(s & rest & -> & Hlen & Hmax & Hsep)|(-> & s & rest & -> & Hlen)] Hv.
  - destruct (overlaps_scan_spec 10 s [] l rest base size) as [(la & p & lb & -> & Hp & E)|(Hcl & E)];
      [lia|done|by apply (sep_valid 0)|..]; change (Z.of_nat (length [])) with 0 in E; simpl app in E; rewrite E;
      cbn [res_bind]; rewrite cnt_tab.
    + right. exists (Z.of_nat (length la)), p. rewrite length_app. simpl length.
      destruct (Z.ltb_spec (Z.of_nat (length la)) (Z.of_nat (length la + S (length lb)))); [|lia].
      split; [done|]. split; [lia|]. split; [apply aget_tab|]. split; [|done]. apply elem_of_app. right. by left.
    + left. by rewrite Z.ltb_irrefl.
  - left. split; [|constructor]. destruct Hv as (Hb & Hs & He).
    cbn [overlaps_scan cnt]. change (0 <? 1) with true. cbn iota.
    rewrite (aget_at _ 0 [] (Blk 0 0) rest) by done. cbn [res_bind p_base p_size].
    unfold lmb_addrs_overlap. change (u32 (0 + 0)) with 0. rewrite (proj2 (Z.ltb_ge base 0)) by lia. reflexivity.
Qed.

Lemma filter_length_lt {A} (P Q : A -> Prop) `{!forall x, Decision (P x), !forall x, Decision (Q x)} (l : list A) p :
  (forall x, P x -> Q x) -> p ∈ l -> Q p -> ~ P p -> (length (filter P l) < length (filter Q l))%nat.
Proof.
  intros HPQ Hin HQ HP.
  assert (forall l', (length (filter P l') <= length (filter Q l'))%nat) as Hle.
  { induction l' as [|x l' IH]; [done|]. rewrite !filter_cons. repeat case_decide; simpl; [lia| |lia|lia].
    exfalso. auto. }
  induction l as [|x l IH]; [by apply elem_of_nil in Hin|]. rewrite !filter_cons.
  apply elem_of_cons in Hin as [->|Hin].
  - rewrite (decide_False _ _ HP), (decide_True _ _ HQ). simpl. specialize (Hle l). lia.
  - specialize (IH Hin). repeat case_decide; simpl; [lia| |lia|lia]. exfalso. auto.
Qed.

(** What an allocation attempt gives: nothing (the reserved blocks are as before), or an
    aligned free block that is now reserved. *)
Definition alloc_result (lr : list lmb_property) (l : lmb) (size align lo hi b : Z) (l' : lmb) : Prop :=
  memory l' = memory l /\
  ((b = 0 /\ blocks lr (reserved l')) \/
   (b <> 0 /\ lo <= b /\ b + size <= hi /\ b mod align = 0 /\ Forall (clear_of b size) lr /\
    exists lr', table lr' (reserved l') /\ forall a, covers lr' a <-> covers lr a \/ b <= a < b + size)).

Section Alloc.
Context (lr : list lmb_property) (size k : Z).
Context (Hsize : 0 < size) (Hk : 0 <= k < 32) (Hmult : size mod 2 ^ k = 0) (Hroom : size + 2 ^ k <= 2 ^ 32).

Lemma alloc_loop_ends n : forall l lmbbase base,
  blocks lr (reserved l) -> 0 <= base -> base + size < 2 ^ 32 -> base mod 2 ^ k = 0 ->
  (length (filter (fun p => (p_base p < base + size)%Z) lr) < n)%nat ->
  exists r, alloc_loop n l size (2 ^ k) lmbbase base = Ok r /\
    match r with
    | None => True
    | Some (b, l') => alloc_result lr l size (2 ^ k) lmbbase (base + size) b l'
    end.
Proof.
  induction n as [|n IH]; intros l lmbbase base Hbl Hb He Hal Hn; [lia|]. cbn [alloc_loop].
  destruct (Z.eqb_spec base 0) as [->|Hnz]; cbn [negb andb]; [by exists None|].
  destruct (Z.leb_spec lmbbase base) as [Hlo|Hlo]; [|by exists None].
  assert (valid_block base size) as Hv by (split; [|split]; lia).
  destruct (overlaps_blocks lr (reserved l) base size Hbl Hv) as [[E Hcl]|(j & p & E & Hj & Hget & Hin & Hncl)];
    rewrite E; cbn [res_bind].
  - change (-1 <? 0) with true. cbn iota. rewrite align_up_id by done.
    destruct (add_region_blocks lr (reserved l) base size Hbl Hv Hcl) as (ret & r' & l' & Ea & Htab & Hr).
    rewrite Ea. cbn [res_bind]. eexists. split; [reflexivity|]. cbn iota. split; [done|]. cbn [reserved].
    destruct Hr as [(-> & -> & _)|(Hret & Hcov)].
    + left. split; [done|]. by left.
    + right. rewrite (proj2 (Z.ltb_ge ret 0)) by lia. split; [done|]. split; [done|]. split; [lia|]. split; [done|].
      split; [done|]. by exists l'.
  - rewrite (proj2 (Z.ltb_ge j 0)) by lia. rewrite Hget. cbn [res_bind].
    destruct (Z.ltb_spec (p_base p) size) as [Hsm|Hsm]; [by exists None|].
    assert (p_base p < base + size) as Hpb by (unfold clear_of in Hncl; lia).
    rewrite (wrap_small 32 (p_base p - size)) by lia.
    destruct (align_down_facts (p_base p - size) k) as [Hal1 Hal2]; [lia|done|].
    destruct (IH l lmbbase (lmb_align_down (p_base p - size) (2 ^ k))) as (r & Er & Hr); [done|lia|lia|done|..].
    { apply Nat.lt_le_trans with (length (filter (fun p => p_base p < base + size) lr)); [|lia].
      apply (filter_length_lt _ _ lr p); [intros q Hq; lia|done|done|lia]. }
    exists r. split; [done|]. destruct r as [[b l']|]; [|done]. destruct Hr as [Hm Hr]. split; [done|].
    destruct Hr as [Hr|(Hb0 & Hb1 & Hb2 & Hr)]; [by left|]. right. split; [done|]. split; [done|]. split; [lia|done].
Qed.
End Alloc.

Lemma blocks_few l r : blocks l r -> (length l <= 8)%nat.
Proof. intros [(s & rest & _ & _ & ? & _)|[-> _]]; simpl; lia. Qed.

Lemma alloc_blocks_ends lm lr size k max_addr s rest : forall n l,
  length (lm ++ rest) = 9%nat -> sep 0 lm -> memory l = tab s lm rest -> blocks lr (reserved l) ->
  0 < size -> 0 <= k < 32 -> size mod 2 ^ k = 0 -> size + 2 ^ k <= 2 ^ 32 ->
  max_addr = LMB_ALLOC_ANYWHERE \/ size <= max_addr < 2 ^ 32 -> (n <= length lm)%nat ->
  exists b l', alloc_blocks n l size (2 ^ k) max_addr = Ok (b, l') /\ memory l' = memory l /\
    ((b = 0 /\ blocks lr (reserved l')) \/
     exists m, m ∈ lm /\ alloc_result lr l size (2 ^ k) (p_base m) (p_end m) b l' /\
       (b <> 0 /\ (max_addr = LMB_ALLOC_ANYWHERE \/ b + size <= max_addr))).
Proof.
  induction n as [|n IH]; intros l Hlen Hsep Hmem Hbl Hs Hk Hm Hr Hmax Hn.
  { exists 0, l. split; [done|]. split; [done|]. by left. }
  specialize (IH l Hlen Hsep Hmem Hbl Hs Hk Hm Hr Hmax ltac:(lia)). cbn [alloc_blocks].
  destruct (lookup_lt_is_Some_2 lm n ltac:(lia)) as [m Hlook].
  pose proof (list_elem_of_lookup_2 _ _ _ Hlook) as Hin. pose proof (sep_ends _ _ _ Hsep Hin) as (Hm1 & Hm2 & _ & Hm3).
  assert (aget (memory l) (Z.of_nat n) = Ok m) as ->.
  { rewrite Hmem. apply list_elem_of_split_length in Hlook as (la & lb & -> & ->). apply aget_tab. }
  cbn [res_bind]. destruct (Z.ltb_spec (p_size m) size); [done|].
  destruct (negb (max_addr =? LMB_ALLOC_ANYWHERE) && (max_addr <=? p_base m)) eqn:Eskip; [done|].
  unfold p_end in Hm3. rewrite (wrap_small 32 (p_base m + p_size m)) by lia.
  set (top := if max_addr =? LMB_ALLOC_ANYWHERE then p_base m + p_size m else Z.min (p_base m + p_size m) max_addr).
  assert (size <= top <= p_base m + p_size m /\ (max_addr = LMB_ALLOC_ANYWHERE \/ top <= max_addr)) as [Htop Htop'].
  { unfold top, LMB_ALLOC_ANYWHERE in *. destruct (Z.eqb_spec max_addr 0); lia. }
  assert ((if max_addr =? LMB_ALLOC_ANYWHERE
     then lmb_align_down (u32 (p_base m + p_size m - size)) (2 ^ k)
     else lmb_align_down (u32 (Z.min (p_base m + p_size m) max_addr - size)) (2 ^ k)) =
     lmb_align_down (top - size) (2 ^ k)) as ->.
  { unfold top in *. destruct (max_addr =? LMB_ALLOC_ANYWHERE); rewrite (wrap_small 32) by lia; done. }
  destruct (align_down_facts (top - size) k) as [Hal1 Hal2]; [lia|done|].
  destruct (alloc_loop_ends lr size k Hs Hk Hm Hr 10 l (p_base m) (lmb_align_down (top - size) (2 ^ k)))
    as (r & Er & Hres); [done|lia|lia|done|..].
  { pose proof (length_filter (fun p => p_base p < lmb_align_down (top - size) (2 ^ k) + size) lr).
    pose proof (blocks_few _ _ Hbl). lia. }
  rewrite Er. cbn [res_bind]. destruct r as [[b l']|]; [|done].
  exists b, l'. split; [done|]. pose proof Hres as [Hmm Hcase]. split; [done|].
  destruct Hcase as [Hz|(Hb0 & Hb1 & Hb2 & Hb3)]; [by left|]. right. exists m. split; [done|].
  split; [|split; [done|destruct Htop'; [by left|right; lia]]].
  split; [done|]. right. unfold p_end. split; [done|]. split; [done|]. split; [lia|]. done.
Qed.

(** C18: Allocation.  For a size that is a multiple of a power-of-two alignment (and not
    larger than the limit, if one is given) [__lmb_alloc_base] always returns, with at most
    ten probes of the reserved table per memory block.  A nonzero result is an aligned
    block inside one memory block, below the limit, free before and reserved afterwards;
    on a result of zero the reserved blocks are unchanged. *)
Theorem lmb_alloc_base_sound lm lr l size k max_addr :
  table lm (memory l) -> blocks lr (reserved l) ->
  0 < size -> 0 <= k < 32 -> size mod 2 ^ k = 0 -> size + 2 ^ k <= 2 ^ 32 ->
  max_addr = LMB_ALLOC_ANYWHERE \/ size <= max_addr < 2 ^ 32 ->
  exists b l', __lmb_alloc_base l size (2 ^ k) max_addr = Ok (b, l') /\ memory l' = memory l /\
    (b = 0 -> blocks lr (reserved l')) /\
    (b <> 0 ->
      b mod 2 ^ k = 0 /\ Exists (fun m => p_base m <= b /\ b + size <= p_end m) lm /\
      (max_addr = LMB_ALLOC_ANYWHERE \/ b + size <= max_addr) /\ Forall (clear_of b size) lr /\
      exists lr', table lr' (reserved l') /\ forall a, covers lr' a <-> covers lr a \/ b <= a < b + size).
Proof.
  intros (s & rest & Hmem & Hlen & Hmax & Hsep) Hbl Hs Hk Hm Hr Hlim. unfold __lmb_alloc_base.
  rewrite Hmem, cnt_tab, wrap_small, swrap_small by lia. rewrite <- Hmem.
  destruct (alloc_blocks_ends lm lr size k max_addr s rest (Z.to_nat (Z.of_nat (length lm) - 1 + 1)) l)
    as (b & l' & E & Hmm & Hres); [done..|lia|].
  exists b, l'. split; [done|]. split; [done|].
  destruct Hres as [[-> Hb]|(m & Hin & [_ [[-> ?]|(Hb0 & Hb1 & Hb2 & Hb3 & Hb4 & Hb5)]] & Hnz & Hb6)]; [done|done|].
  split; [done|]. intros _. split; [done|]. split; [|done]. apply Exists_exists. by exists m.
Qed.

(** 64 KiB aligned to a page in the board's 256 MiB, with the last megabyte reserved. *)
Lemma lmb_alloc_base_sound_witness :
  exists b l', __lmb_alloc_base (Lmb (tab 0 [Blk 0x20000000 0x10000000] (replicate 8 (Blk 0 0)))
                  (tab 0 [Blk 0x2FF00000 0x100000] (replicate 8 (Blk 0 0)))) 0x10000 (2 ^ 12) 0 = Ok (b, l') /\
    b = 0x2FEF0000 /\ Forall (clear_of b 0x10000) [Blk 0x2FF00000 0x100000].
Proof.
  destruct (lmb_alloc_base_sound [Blk 0x20000000 0x10000000] [Blk 0x2FF00000 0x100000]
    (Lmb (tab 0 [Blk 0x20000000 0x10000000] (replicate 8 (Blk 0 0)))
         (tab 0 [Blk 0x2FF00000 0x100000] (replicate 8 (Blk 0 0)))) 0x10000 12 0) as (b & l' & E & _ & _ & H).
  - exists 0, (replicate 8 (Blk 0 0)). repeat (split; [simpl; lia || reflexivity|]). unfold sep, p_end. simpl. lia.
  - left. exists 0, (replicate 8 (Blk 0 0)). repeat (split; [simpl; lia || reflexivity|]). unfold sep, p_end. simpl. lia.
  - lia.
  - lia.
  - reflexivity.
  - lia.
  - left. reflexivity.
  - assert (b = 0x2FEF0000) as Hb by (vm_compute in E; injection E as <- _; reflexivity).
    exists b, l'. split; [exact E|]. split; [exact Hb|]. apply H. rewrite Hb. lia.
Defined.

(** *** Initial state and queries *)

(** [lmb_init] leaves two tables without blocks, whatever the arrays held. *)
Lemma lmb_init_blocks l :
  length (region (memory l)) = 9%nat -> length (region (reserved l)) = 9%nat ->
  exists l', lmb_init l = Ok l' /\ blocks [] (memory l') /\ blocks [] (reserved l').
Proof.
  destruct l as [[c1 s1 a1] [c2 s2 a2]]. simpl. intros H1 H2.
  destruct a1 as [|p1 a1]; [done|]. destruct a2 as [|p2 a2]; [done|].
  unfold lmb_init. simpl memory. simpl reserved. rewrite !aset_head. cbn [res_bind region].
  eexists. split; [reflexivity|]. simpl in *.
  split; right; (split; [done|]); eexists _, _; (split; [done|lia]).
Qed.

Lemma reserved_scan_spec n : forall s l1 l2 rest addr,
  (length l2 < n)%nat -> Forall (fun p => 0 <= p_base p /\ 0 < p_size p /\ p_end p < 2 ^ 32) l2 ->
  exists v, reserved_scan n (tab s (l1 ++ l2) rest) addr (Z.of_nat (length l1)) = Ok v /\
    ((v = 1 /\ covers l2 addr) \/ (v = 0 /\ ~ covers l2 addr)).
Proof.
  induction n as [|n IH]; intros s l1 l2 rest addr Hn Hok; [lia|].
  cbn [reserved_scan]. rewrite before_cnt. destruct l2 as [|p l2].
  { exists 0. split; [done|]. right. rewrite covers_nil. tauto. }
  rewrite bool_decide_eq_true_2 by done. rewrite aget_tab. cbn [res_bind].
  inversion Hok as [|? ? (Hpb & Hps & Hpe) Hok']; subst. unfold p_end in Hpe. rewrite wrap_small by lia.
  destruct (Z.leb_spec (p_base p) addr), (Z.leb_spec addr (p_base p + p_size p - 1)); cbn [andb].
  { exists 1. split; [done|]. left. split; [done|]. rewrite covers_cons. left. unfold within, p_end. lia. }
  all: destruct (IH s (l1 ++ [p]) l2 rest addr) as (v & E & Hv); [simpl in Hn; lia|done|];
    rewrite <- !app_assoc, length_app, Nat2Z.inj_add in E; change (Z.of_nat (length [p])) with 1 in E;
    simpl app in E; exists v; (split; [by rewrite E|]); rewrite covers_cons; unfold within, p_end; intuition lia.
Qed.

(** [lmb_is_reserved] decides whether an address is covered by a reserved block. *)
Theorem lmb_is_reserved_decides m l r addr :
  table l r ->
  exists v, lmb_is_reserved (Lmb m r) addr = Ok v /\ ((v = 1 /\ covers l addr) \/ (v = 0 /\ ~ covers l addr)).
Proof.
  intros (s & rest & -> & Hlen & Hmax & Hsep). unfold lmb_is_reserved. cbn [reserved].
  apply (reserved_scan_spec 10 s [] l rest addr); [lia|]. by apply (sep_valid 0).
Qed.
