(* ===== verification/Ctype.v ===== *)
(** * Character classes ([include/linux/ctype.h], [lib/ctype.c])

    The table of the second stage: ASCII and the upper half of Latin-1. *)
From S2P Require Import Prelude.

Definition _U : Z := 0x01.
Definition _L : Z := 0x02.
Definition _D : Z := 0x04.
Definition _C : Z := 0x08.
Definition _P : Z := 0x10.
Definition _S : Z := 0x20.
Definition _X : Z := 0x40.
Definition _SP : Z := 0x80.

(** The rows of the source. *)
Definition _ctype : list Z := Eval cbv in concat [
  [_C;_C;_C;_C;_C;_C;_C;_C];
  [_C;_C.|_S;_C.|_S;_C.|_S;_C.|_S;_C.|_S;_C;_C];
  [_C;_C;_C;_C;_C;_C;_C;_C];
  [_C;_C;_C;_C;_C;_C;_C;_C];
  [_S.|_SP;_P;_P;_P;_P;_P;_P;_P];
  [_P;_P;_P;_P;_P;_P;_P;_P];
  [_D;_D;_D;_D;_D;_D;_D;_D];
  [_D;_D;_P;_P;_P;_P;_P;_P];
  [_P;_U.|_X;_U.|_X;_U.|_X;_U.|_X;_U.|_X;_U.|_X;_U];
  [_U;_U;_U;_U;_U;_U;_U;_U];
  [_U;_U;_U;_U;_U;_U;_U;_U];
  [_U;_U;_U;_P;_P;_P;_P;_P];
  [_P;_L.|_X;_L.|_X;_L.|_X;_L.|_X;_L.|_X;_L.|_X;_L];
  [_L;_L;_L;_L;_L;_L;_L;_L];
  [_L;_L;_L;_L;_L;_L;_L;_L];
  [_L;_L;_L;_P;_P;_P;_P;_C];
  [0;0;0;0;0;0;0;0;0;0;0;0;0;0;0;0];
  [0;0;0;0;0;0;0;0;0;0;0;0;0;0;0;0];
  [_S.|_SP;_P;_P;_P;_P;_P;_P;_P;_P;_P;_P;_P;_P;_P;_P;_P];
  [_P;_P;_P;_P;_P;_P;_P;_P;_P;_P;_P;_P;_P;_P;_P;_P];
  [_U;_U;_U;_U;_U;_U;_U;_U;_U;_U;_U;_U;_U;_U;_U;_U];
  [_U;_U;_U;_U;_U;_U;_U;_P;_U;_U;_U;_U;_U;_U;_U;_L];
  [_L;_L;_L;_L;_L;_L;_L;_L;_L;_L;_L;_L;_L;_L;_L;_L];
  [_L;_L;_L;_L;_L;_L;_L;_P;_L;_L;_L;_L;_L;_L;_L;_L] ].

(** The index is an [unsigned char], so it is inside the table. *)
Definition __ismask (x : Z) : Z := nth (Z.to_nat (u8 x)) _ctype 0.
Definition isalnum (c : Z) : bool := tst (__ismask c) (_U .| _L .| _D).
Definition isalpha (c : Z) : bool := tst (__ismask c) (_U .| _L).
Definition iscntrl (c : Z) : bool := tst (__ismask c) _C.
Definition isdigit (c : Z) : bool := tst (__ismask c) _D.
Definition isgraph (c : Z) : bool := tst (__ismask c) (_P .| _U .| _L .| _D).
Definition islower (c : Z) : bool := tst (__ismask c) _L.
Definition isprint (c : Z) : bool := tst (__ismask c) (_P .| _U .| _L .| _D .| _SP).
Definition ispunct (c : Z) : bool := tst (__ismask c) _P.
Definition isspace (c : Z) : bool := tst (__ismask c) _S.
Definition isupper (c : Z) : bool := tst (__ismask c) _U.
Definition isxdigit (c : Z) : bool := tst (__ismask c) (_D .| _X).
Definition isblank (c : Z) : bool := (c =? 0x20) || (c =? 0x09).
Definition isascii (c : Z) : bool := u8 c <=? 0x7f.
Definition toascii (c : Z) : Z := u8 c .& 0x7f.

Definition tolower (c : Z) : Z := if isupper (u8 c) then u8 (u8 c - (0x41 - 0x61)) else u8 c.
Definition toupper (c : Z) : Z := if islower (u8 c) then u8 (u8 c - (0x61 - 0x41)) else u8 c.

(** A decidable fact about every byte. *)
Lemma all_bytes (P : Z -> bool) :
  forallb P (map Z.of_nat (seq 0 256)) = true -> forall c, 0 <= c < 256 -> P c = true.
Proof.
  intros H c Hc. rewrite forallb_forall in H. apply H. apply in_map_iff.
  exists (Z.to_nat c). split; [lia|]. apply in_seq. lia.
Qed.

Lemma tolower_range c : 0 <= tolower c < 256.
Proof. unfold tolower. case_if; by apply (wrap_range 8). Qed.

(** Lowering twice changes nothing more. *)
Lemma tolower_idem c : 0 <= c < 256 -> tolower (tolower c) = tolower c.
Proof.
  intros Hc. apply Z.eqb_eq.
  by apply (all_bytes (fun c => tolower (tolower c) =? tolower c)).
Qed.

(** Only NUL lowers to NUL. *)
Lemma tolower_nul c : 0 <= c < 256 -> tolower c = 0 <-> c = 0.
Proof.
  intros Hc. enough (Bool.eqb (tolower c =? 0) (c =? 0) = true) as E%Bool.eqb_prop.
  { rewrite <- !Z.eqb_eq, E. done. }
  by apply (all_bytes (fun c => Bool.eqb (tolower c =? 0) (c =? 0))).
Qed.
