(* ===== verification/Crc.v ===== *)
(** * Checksums ([lib/crc32.c], [lib/crc16.c], [lib/crc8.c], [lib/crc7.c])

    The table-driven loops of the second stage.  The theorems: each is the bit-by-bit
    division by its polynomial, for every alignment of the buffer, and the 16-bit checksum is
    the one the first stage's XMODEM receiver computes. *)
From S2P Require Import Prelude Gf2 Xmodem Ctype.

(** ** CRC-32 *)

Definition crc_table : list Z := [
   0x00000000; 0x77073096; 0xee0e612c; 0x990951ba;
   0x076dc419; 0x706af48f; 0xe963a535; 0x9e6495a3;
   0x0edb8832; 0x79dcb8a4; 0xe0d5e91e; 0x97d2d988;
   0x09b64c2b; 0x7eb17cbd; 0xe7b82d07; 0x90bf1d91;
   0x1db71064; 0x6ab020f2; 0xf3b97148; 0x84be41de;
   0x1adad47d; 0x6ddde4eb; 0xf4d4b551; 0x83d385c7;
   0x136c9856; 0x646ba8c0; 0xfd62f97a; 0x8a65c9ec;
   0x14015c4f; 0x63066cd9; 0xfa0f3d63; 0x8d080df5;
   0x3b6e20c8; 0x4c69105e; 0xd56041e4; 0xa2677172;
   0x3c03e4d1; 0x4b04d447; 0xd20d85fd; 0xa50ab56b;
   0x35b5a8fa; 0x42b2986c; 0xdbbbc9d6; 0xacbcf940;
   0x32d86ce3; 0x45df5c75; 0xdcd60dcf; 0xabd13d59;
   0x26d930ac; 0x51de003a; 0xc8d75180; 0xbfd06116;
   0x21b4f4b5; 0x56b3c423; 0xcfba9599; 0xb8bda50f;
   0x2802b89e; 0x5f058808; 0xc60cd9b2; 0xb10be924;
   0x2f6f7c87; 0x58684c11; 0xc1611dab; 0xb6662d3d;
   0x76dc4190; 0x01db7106; 0x98d220bc; 0xefd5102a;
   0x71b18589; 0x06b6b51f; 0x9fbfe4a5; 0xe8b8d433;
   0x7807c9a2; 0x0f00f934; 0x9609a88e; 0xe10e9818;
   0x7f6a0dbb; 0x086d3d2d; 0x91646c97; 0xe6635c01;
   0x6b6b51f4; 0x1c6c6162; 0x856530d8; 0xf262004e;
   0x6c0695ed; 0x1b01a57b; 0x8208f4c1; 0xf50fc457;
   0x65b0d9c6; 0x12b7e950; 0x8bbeb8ea; 0xfcb9887c;
   0x62dd1ddf; 0x15da2d49; 0x8cd37cf3; 0xfbd44c65;
   0x4db26158; 0x3ab551ce; 0xa3bc0074; 0xd4bb30e2;
   0x4adfa541; 0x3dd895d7; 0xa4d1c46d; 0xd3d6f4fb;
   0x4369e96a; 0x346ed9fc; 0xad678846; 0xda60b8d0;
   0x44042d73; 0x33031de5; 0xaa0a4c5f; 0xdd0d7cc9;
   0x5005713c; 0x270241aa; 0xbe0b1010; 0xc90c2086;
   0x5768b525; 0x206f85b3; 0xb966d409; 0xce61e49f;
   0x5edef90e; 0x29d9c998; 0xb0d09822; 0xc7d7a8b4;
   0x59b33d17; 0x2eb40d81; 0xb7bd5c3b; 0xc0ba6cad;
   0xedb88320; 0x9abfb3b6; 0x03b6e20c; 0x74b1d29a;
   0xead54739; 0x9dd277af; 0x04db2615; 0x73dc1683;
   0xe3630b12; 0x94643b84; 0x0d6d6a3e; 0x7a6a5aa8;
   0xe40ecf0b; 0x9309ff9d; 0x0a00ae27; 0x7d079eb1;
   0xf00f9344; 0x8708a3d2; 0x1e01f268; 0x6906c2fe;
   0xf762575d; 0x806567cb; 0x196c3671; 0x6e6b06e7;
   0xfed41b76; 0x89d32be0; 0x10da7a5a; 0x67dd4acc;
   0xf9b9df6f; 0x8ebeeff9; 0x17b7be43; 0x60b08ed5;
   0xd6d6a3e8; 0xa1d1937e; 0x38d8c2c4; 0x4fdff252;
   0xd1bb67f1; 0xa6bc5767; 0x3fb506dd; 0x48b2364b;
   0xd80d2bda; 0xaf0a1b4c; 0x36034af6; 0x41047a60;
   0xdf60efc3; 0xa867df55; 0x316e8eef; 0x4669be79;
   0xcb61b38c; 0xbc66831a; 0x256fd2a0; 0x5268e236;
   0xcc0c7795; 0xbb0b4703; 0x220216b9; 0x5505262f;
   0xc5ba3bbe; 0xb2bd0b28; 0x2bb45a92; 0x5cb36a04;
   0xc2d7ffa7; 0xb5d0cf31; 0x2cd99e8b; 0x5bdeae1d;
   0x9b64c2b0; 0xec63f226; 0x756aa39c; 0x026d930a;
   0x9c0906a9; 0xeb0e363f; 0x72076785; 0x05005713;
   0x95bf4a82; 0xe2b87a14; 0x7bb12bae; 0x0cb61b38;
   0x92d28e9b; 0xe5d5be0d; 0x7cdcefb7; 0x0bdbdf21;
   0x86d3d2d4; 0xf1d4e242; 0x68ddb3f8; 0x1fda836e;
   0x81be16cd; 0xf6b9265b; 0x6fb077e1; 0x18b74777;
   0x88085ae6; 0xff0f6a70; 0x66063bca; 0x11010b5c;
   0x8f659eff; 0xf862ae69; 0x616bffd3; 0x166ccf45;
   0xa00ae278; 0xd70dd2ee; 0x4e048354; 0x3903b3c2;
   0xa7672661; 0xd06016f7; 0x4969474d; 0x3e6e77db;
   0xaed16a4a; 0xd9d65adc; 0x40df0b66; 0x37d83bf0;
   0xa9bcae53; 0xdebb9ec5; 0x47b2cf7f; 0x30b5ffe9;
   0xbdbdf21c; 0xcabac28a; 0x53b39330; 0x24b4a3a6;
   0xbad03605; 0xcdd70693; 0x54de5729; 0x23d967bf;
   0xb3667a2e; 0xc4614ab8; 0x5d681b02; 0x2a6f2b94;
   0xb40bbe37; 0xc30c8ea1; 0x5a05df1b; 0x2d02ef8d].

(** [make_crc_table]: the pattern made from the terms of the polynomial, and the table. *)
Definition crc_terms : list Z := [0;1;2;4;5;7;8;10;11;12;16;22;23;26].
Definition crc_poly : Z := foldl (fun poly p => poly .| (1 .<< (31 - p))) 0 crc_terms.
Definition crc_entry_step (poly c : Z) : Z := if tst c 1 then poly .^ (c .>> 1) else c .>> 1.
Definition make_crc_table : list Z :=
  map (fun n => Nat.iter 8 (crc_entry_step crc_poly) (Z.of_nat n)) (seq 0 256).

(** The macro [DO_CRC], little endian. *)
Definition DO_CRC (crc x : Z) : Z := nth (Z.to_nat ((crc .^ x) .& 255)) crc_table 0 .^ (crc .>> 8).

(** The bytes up to a word boundary: [while ((--len) && ((long)p)&3)], after the first one. *)
Fixpoint align_loop (crc : Z) (p : Z) (buf : list Z) : Z * list Z :=
  match buf with
  | [] => (crc, [])
  | x :: buf =>
    let crc := DO_CRC crc x in
    let p := p + 1 in
    if negb (bool_decide (buf = [])) && tst p 3 then align_loop crc p buf else (crc, buf)
  end.

(** A little-endian word at a time. *)
Fixpoint word_loop (crc : Z) (buf : list Z) : Z * list Z :=
  match buf with
  | b0 :: b1 :: b2 :: b3 :: buf =>
    let crc := crc .^ (b0 + 2 ^ 8 * b1 + 2 ^ 16 * b2 + 2 ^ 24 * b3) in
    let crc := DO_CRC crc 0 in
    let crc := DO_CRC crc 0 in
    let crc := DO_CRC crc 0 in
    let crc := DO_CRC crc 0 in
    word_loop crc buf
  | rest => (crc, rest)
  end.

(** [addr] is the address of [buf], [buf] the [len] bytes there. *)
Definition crc32_no_comp (crc addr : Z) (buf : list Z) : Z :=
  let '(crc, buf) := if tst addr 3 && negb (bool_decide (buf = [])) then align_loop crc addr buf else (crc, buf) in
  let '(crc, rest) := word_loop crc buf in
  foldl DO_CRC crc rest.

Definition crc32 (crc addr : Z) (buf : list Z) : Z :=
  crc32_no_comp (crc .^ 0xffffffff) addr buf .^ 0xffffffff.

(** The version with a watchdog: in pieces of at most [chunk_sz] bytes. *)
Fixpoint wd_loop (n : nat) (crc addr : Z) (buf : list Z) (chunk_sz : nat) : res Z :=
  match buf with
  | [] => Ok crc
  | _ =>
    match n with
    | O => Hang
    | S n =>
      let chunk := Nat.min (length buf) chunk_sz in
      let crc := crc32 crc addr (take chunk buf) in
      wd_loop n crc (addr + Z.of_nat chunk) (drop chunk buf) chunk_sz
    end
  end.
Definition crc32_wd (watchdog : bool) (n : nat) (crc addr : Z) (buf : list Z) (chunk_sz : nat) : res Z :=
  if watchdog then wd_loop n crc addr buf chunk_sz else Ok (crc32 crc addr buf).

(** The bytes stored to [output]: [htonl], highest byte first. *)
Definition crc32_wd_buf (watchdog : bool) (n : nat) (addr : Z) (input : list Z) (chunk_sz : nat) : res (list Z) :=
  let* crc := crc32_wd watchdog n 0 addr input chunk_sz in
  Ok [u8 (crc .>> 24); u8 (crc .>> 16); u8 (crc .>> 8); u8 crc].

(** ** CRC-16, CRC-8, CRC-7 *)

Definition crc16_tab : list Z := [
   0x0000; 0x1021; 0x2042; 0x3063; 0x4084; 0x50a5; 0x60c6; 0x70e7;
   0x8108; 0x9129; 0xa14a; 0xb16b; 0xc18c; 0xd1ad; 0xe1ce; 0xf1ef;
   0x1231; 0x0210; 0x3273; 0x2252; 0x52b5; 0x4294; 0x72f7; 0x62d6;
   0x9339; 0x8318; 0xb37b; 0xa35a; 0xd3bd; 0xc39c; 0xf3ff; 0xe3de;
   0x2462; 0x3443; 0x0420; 0x1401; 0x64e6; 0x74c7; 0x44a4; 0x5485;
   0xa56a; 0xb54b; 0x8528; 0x9509; 0xe5ee; 0xf5cf; 0xc5ac; 0xd58d;
   0x3653; 0x2672; 0x1611; 0x0630; 0x76d7; 0x66f6; 0x5695; 0x46b4;
   0xb75b; 0xa77a; 0x9719; 0x8738; 0xf7df; 0xe7fe; 0xd79d; 0xc7bc;
   0x48c4; 0x58e5; 0x6886; 0x78a7; 0x0840; 0x1861; 0x2802; 0x3823;
   0xc9cc; 0xd9ed; 0xe98e; 0xf9af; 0x8948; 0x9969; 0xa90a; 0xb92b;
   0x5af5; 0x4ad4; 0x7ab7; 0x6a96; 0x1a71; 0x0a50; 0x3a33; 0x2a12;
   0xdbfd; 0xcbdc; 0xfbbf; 0xeb9e; 0x9b79; 0x8b58; 0xbb3b; 0xab1a;
   0x6ca6; 0x7c87; 0x4ce4; 0x5cc5; 0x2c22; 0x3c03; 0x0c60; 0x1c41;
   0xedae; 0xfd8f; 0xcdec; 0xddcd; 0xad2a; 0xbd0b; 0x8d68; 0x9d49;
   0x7e97; 0x6eb6; 0x5ed5; 0x4ef4; 0x3e13; 0x2e32; 0x1e51; 0x0e70;
   0xff9f; 0xefbe; 0xdfdd; 0xcffc; 0xbf1b; 0xaf3a; 0x9f59; 0x8f78;
   0x9188; 0x81a9; 0xb1ca; 0xa1eb; 0xd10c; 0xc12d; 0xf14e; 0xe16f;
   0x1080; 0x00a1; 0x30c2; 0x20e3; 0x5004; 0x4025; 0x7046; 0x6067;
   0x83b9; 0x9398; 0xa3fb; 0xb3da; 0xc33d; 0xd31c; 0xe37f; 0xf35e;
   0x02b1; 0x1290; 0x22f3; 0x32d2; 0x4235; 0x5214; 0x6277; 0x7256;
   0xb5ea; 0xa5cb; 0x95a8; 0x8589; 0xf56e; 0xe54f; 0xd52c; 0xc50d;
   0x34e2; 0x24c3; 0x14a0; 0x0481; 0x7466; 0x6447; 0x5424; 0x4405;
   0xa7db; 0xb7fa; 0x8799; 0x97b8; 0xe75f; 0xf77e; 0xc71d; 0xd73c;
   0x26d3; 0x36f2; 0x0691; 0x16b0; 0x6657; 0x7676; 0x4615; 0x5634;
   0xd94c; 0xc96d; 0xf90e; 0xe92f; 0x99c8; 0x89e9; 0xb98a; 0xa9ab;
   0x5844; 0x4865; 0x7806; 0x6827; 0x18c0; 0x08e1; 0x3882; 0x28a3;
   0xcb7d; 0xdb5c; 0xeb3f; 0xfb1e; 0x8bf9; 0x9bd8; 0xabbb; 0xbb9a;
   0x4a75; 0x5a54; 0x6a37; 0x7a16; 0x0af1; 0x1ad0; 0x2ab3; 0x3a92;
   0xfd2e; 0xed0f; 0xdd6c; 0xcd4d; 0xbdaa; 0xad8b; 0x9de8; 0x8dc9;
   0x7c26; 0x6c07; 0x5c64; 0x4c45; 0x3ca2; 0x2c83; 0x1ce0; 0x0cc1;
   0xef1f; 0xff3e; 0xcf5d; 0xdf7c; 0xaf9b; 0xbfba; 0x8fd9; 0x9ff8;
   0x6e17; 0x7e36; 0x4e55; 0x5e74; 0x2e93; 0x3eb2; 0x0ed1; 0x1ef0].

Definition crc16_step (cksum b : Z) : Z :=
  u16 (nth (Z.to_nat (((cksum .>> 8) .^ b) .& 0xFF)) crc16_tab 0 .^ (cksum .<< 8)).
Definition cyg_crc16 (buf : list Z) : Z := foldl crc16_step 0 buf.

Definition crc8_bit (crc : Z) : Z :=
  let crc := if tst crc 0x8000 then crc .^ (0x1070 .<< 3) else crc in u32 (crc .<< 1).
Definition crc8_step (crc b : Z) : Z := Nat.iter 8 crc8_bit (crc .^ (b .<< 8)).
Definition crc8 (data : list Z) : Z := (foldl crc8_step 0 data .>> 8) .& 0xff.

Definition crc7_syndrome_table : list Z := [
   0x00; 0x09; 0x12; 0x1b; 0x24; 0x2d; 0x36; 0x3f;
   0x48; 0x41; 0x5a; 0x53; 0x6c; 0x65; 0x7e; 0x77;
   0x19; 0x10; 0x0b; 0x02; 0x3d; 0x34; 0x2f; 0x26;
   0x51; 0x58; 0x43; 0x4a; 0x75; 0x7c; 0x67; 0x6e;
   0x32; 0x3b; 0x20; 0x29; 0x16; 0x1f; 0x04; 0x0d;
   0x7a; 0x73; 0x68; 0x61; 0x5e; 0x57; 0x4c; 0x45;
   0x2b; 0x22; 0x39; 0x30; 0x0f; 0x06; 0x1d; 0x14;
   0x63; 0x6a; 0x71; 0x78; 0x47; 0x4e; 0x55; 0x5c;
   0x64; 0x6d; 0x76; 0x7f; 0x40; 0x49; 0x52; 0x5b;
   0x2c; 0x25; 0x3e; 0x37; 0x08; 0x01; 0x1a; 0x13;
   0x7d; 0x74; 0x6f; 0x66; 0x59; 0x50; 0x4b; 0x42;
   0x35; 0x3c; 0x27; 0x2e; 0x11; 0x18; 0x03; 0x0a;
   0x56; 0x5f; 0x44; 0x4d; 0x72; 0x7b; 0x60; 0x69;
   0x1e; 0x17; 0x0c; 0x05; 0x3a; 0x33; 0x28; 0x21;
   0x4f; 0x46; 0x5d; 0x54; 0x6b; 0x62; 0x79; 0x70;
   0x07; 0x0e; 0x15; 0x1c; 0x23; 0x2a; 0x31; 0x38;
   0x41; 0x48; 0x53; 0x5a; 0x65; 0x6c; 0x77; 0x7e;
   0x09; 0x00; 0x1b; 0x12; 0x2d; 0x24; 0x3f; 0x36;
   0x58; 0x51; 0x4a; 0x43; 0x7c; 0x75; 0x6e; 0x67;
   0x10; 0x19; 0x02; 0x0b; 0x34; 0x3d; 0x26; 0x2f;
   0x73; 0x7a; 0x61; 0x68; 0x57; 0x5e; 0x45; 0x4c;
   0x3b; 0x32; 0x29; 0x20; 0x1f; 0x16; 0x0d; 0x04;
   0x6a; 0x63; 0x78; 0x71; 0x4e; 0x47; 0x5c; 0x55;
   0x22; 0x2b; 0x30; 0x39; 0x06; 0x0f; 0x14; 0x1d;
   0x25; 0x2c; 0x37; 0x3e; 0x01; 0x08; 0x13; 0x1a;
   0x6d; 0x64; 0x7f; 0x76; 0x49; 0x40; 0x5b; 0x52;
   0x3c; 0x35; 0x2e; 0x27; 0x18; 0x11; 0x0a; 0x03;
   0x74; 0x7d; 0x66; 0x6f; 0x50; 0x59; 0x42; 0x4b;
   0x17; 0x1e; 0x05; 0x0c; 0x33; 0x3a; 0x21; 0x28;
   0x5f; 0x56; 0x4d; 0x44; 0x7b; 0x72; 0x69; 0x60;
   0x0e; 0x07; 0x1c; 0x15; 0x2a; 0x23; 0x38; 0x31;
   0x46; 0x4f; 0x54; 0x5d; 0x62; 0x6b; 0x70; 0x79].

(** [crc7_byte] of [include/linux/crc7.h]; a table index out of bounds is undefined. *)
Definition crc7_byte (crc data : Z) : res Z :=
  res_of_option (crc7_syndrome_table !! Z.to_nat ((crc .<< 1) .^ data)).
Fixpoint crc7 (crc : Z) (buffer : list Z) : res Z :=
  match buffer with
  | [] => Ok crc
  | b :: buffer => let* crc := crc7_byte crc b in crc7 crc buffer
  end.

(** ** Reference: division by the polynomial, one bit at a time *)

(** Polynomial 0xedb88320 (reflected), least significant bit first. *)
Definition crc32_bit (c : Z) : Z := (c .>> 1) .^ (if Z.testbit c 0 then 0xedb88320 else 0).
Definition crc32_byte (c b : Z) : Z := Nat.iter 8 crc32_bit (c .^ b).
Definition crc32_ref (c : Z) (msg : list Z) : Z := foldl crc32_byte c msg.
Arguments crc32_byte : simpl never.
Strategy 100 [crc32_bit crc32_byte].

#[local] Instance crc32_bit_linear : XorLinear crc32_bit.
Proof. unfold crc32_bit. apply _. Qed.

#[local] Instance crc32_iter_linear n : XorLinear (Nat.iter n crc32_bit).
Proof. apply linear_iter, _. Qed.

Lemma crc32_bit_range c : 0 <= c < 2 ^ 32 -> 0 <= crc32_bit c < 2 ^ 32.
Proof.
  intros Hc. unfold crc32_bit. apply lxor_range; [|case_if; lia].
  rewrite Z.shiftr_div_pow2 by lia. split; [apply Z.div_pos; lia|apply Z.div_lt_upper_bound; lia].
Qed.

Lemma crc32_iter_range n c : 0 <= c < 2 ^ 32 -> 0 <= Nat.iter n crc32_bit c < 2 ^ 32.
Proof. intros Hc. induction n as [|n IH]; [done|]. by apply crc32_bit_range. Qed.

Lemma crc32_byte_range c b : 0 <= c < 2 ^ 32 -> 0 <= b < 256 -> 0 <= crc32_byte c b < 2 ^ 32.
Proof. intros Hc Hb. apply crc32_iter_range, lxor_range; lia. Qed.

Lemma crc32_ref_range msg : forall c, 0 <= c < 2 ^ 32 -> byte_list msg -> 0 <= crc32_ref c msg < 2 ^ 32.
Proof.
  induction msg as [|b msg IH]; intros c Hc Hm; [done|]. inversion_clear Hm.
  apply IH; [by apply crc32_byte_range|done].
Qed.

(** The generated table is the one in the source, and its entries are remainders. *)
Lemma crc_table_made : make_crc_table = crc_table.
Proof. vm_compute. reflexivity. Qed.

Lemma crc_table_entry n : 0 <= n < 256 -> nth (Z.to_nat n) crc_table 0 = Nat.iter 8 crc32_bit n.
Proof.
  intros Hn. apply Z.eqb_eq.
  by apply (all_bytes (fun n => nth (Z.to_nat n) crc_table 0 =? Nat.iter 8 crc32_bit n)); [vm_compute|].
Qed.

(** Eight steps: the low byte decides what is added to the rest. *)
Lemma eight_steps z : 0 <= z < 2 ^ 32 -> Nat.iter 8 crc32_bit (z .& 255) .^ (z .>> 8) = Nat.iter 8 crc32_bit z.
Proof.
  apply (linear_ext_check 32 (fun z => Nat.iter 8 crc32_bit (z .& 255) .^ (z .>> 8)) (Nat.iter 8 crc32_bit)).
  - apply linear_lxor; [|apply _]. apply (linear_compose (Nat.iter 8 crc32_bit) (fun z => z .& 255)); apply _.
  - apply _.
  - vm_compute. reflexivity.
Qed.

(** Eight steps shift out a zero byte. *)
Lemma zero_byte r : 0 <= r < 2 ^ 24 -> Nat.iter 8 crc32_bit (r .<< 8) = r.
Proof.
  apply (linear_ext_check 24 (fun r => Nat.iter 8 crc32_bit (r .<< 8)) (fun r => r)).
  - apply (linear_compose (Nat.iter 8 crc32_bit) (fun r => r .<< 8)); apply _.
  - apply _.
  - vm_compute. reflexivity.
Qed.

Lemma shiftr_small x : 0 <= x < 256 -> x .>> 8 = 0.
Proof. intros Hx. rewrite Z.shiftr_div_pow2 by lia. apply Z.div_small. lia. Qed.

(** [DO_CRC] is one byte of the division. *)
Lemma do_crc_byte c b : 0 <= c < 2 ^ 32 -> 0 <= b < 256 -> DO_CRC c b = crc32_byte c b.
Proof.
  intros Hc Hb. unfold DO_CRC, crc32_byte. rewrite crc_table_entry by (apply (land_range 8); lia).
  rewrite <- (eight_steps (c .^ b)) by (apply lxor_range; lia). f_equal.
  by rewrite Z.shiftr_lxor, (shiftr_small b), Z.lxor_0_r.
Qed.

Lemma fold_do_crc msg : forall c, 0 <= c < 2 ^ 32 -> byte_list msg -> foldl DO_CRC c msg = crc32_ref c msg.
Proof.
  induction msg as [|b msg IH]; intros c Hc Hm; [done|]. inversion_clear Hm. simpl.
  rewrite do_crc_byte by done. apply IH; [by apply crc32_byte_range|done].
Qed.

(** Splitting the lowest byte off a word. *)
Lemma low_byte_split b r : 0 <= b < 256 -> 0 <= r -> b + 256 * r = b .^ (r .<< 8).
Proof.
  intros Hb Hr. rewrite Z.shiftl_mul_pow2 by lia. change (2 ^ 8) with 256. rewrite (Z.mul_comm r).
  rewrite Z.add_nocarry_lxor; [done|]. apply Z.bits_inj'. intros i Hi. rewrite Z.land_spec, Z.testbit_0_l.
  destruct (Z.lt_ge_cases i 8).
  - replace (256 * r) with (r * 2 ^ 8) by lia. by rewrite Z.mul_pow2_bits_low, andb_false_r by lia.
  - by rewrite (testbit_high 8 b i).
Qed.

(** One round with the lowest byte of a word folded in leaves the rest of the word. *)
Lemma word_round c b r :
  0 <= c < 2 ^ 32 -> 0 <= b < 256 -> 0 <= r < 2 ^ 24 ->
  Nat.iter 8 crc32_bit (c .^ (b + 256 * r)) = crc32_byte c b .^ r.
Proof.
  intros Hc Hb Hr. rewrite low_byte_split by lia. rewrite <- Z.lxor_assoc.
  rewrite (crc32_iter_linear 8 (c .^ b) (r .<< 8)), zero_byte by done. unfold crc32_byte. reflexivity.
Qed.

Lemma do_crc_0 c : 0 <= c < 2 ^ 32 -> DO_CRC c 0 = Nat.iter 8 crc32_bit c.
Proof. intros Hc. rewrite do_crc_byte by lia. unfold crc32_byte. by rewrite Z.lxor_0_r. Qed.

Lemma do_crc_word c b r :
  0 <= c < 2 ^ 32 -> 0 <= b < 256 -> 0 <= r < 2 ^ 24 ->
  DO_CRC (c .^ (b + 256 * r)) 0 = crc32_byte c b .^ r.
Proof. intros Hc Hb Hr. rewrite do_crc_0 by (apply lxor_range; lia). by apply word_round. Qed.

Lemma word_step c b0 b1 b2 b3 :
  0 <= c < 2 ^ 32 -> 0 <= b0 < 256 -> 0 <= b1 < 256 -> 0 <= b2 < 256 -> 0 <= b3 < 256 ->
  DO_CRC (DO_CRC (DO_CRC (DO_CRC (c .^ (b0 + 2 ^ 8 * b1 + 2 ^ 16 * b2 + 2 ^ 24 * b3)) 0) 0) 0) 0 =
  crc32_ref c [b0; b1; b2; b3].
Proof.
  intros Hc H0 H1 H2 H3.
  replace (b0 + 2 ^ 8 * b1 + 2 ^ 16 * b2 + 2 ^ 24 * b3)
    with (b0 + 256 * (b1 + 256 * (b2 + 256 * (b3 + 256 * 0)))) by lia.
  pose proof (crc32_byte_range c b0 Hc H0) as R0.
  pose proof (crc32_byte_range _ b1 R0 H1) as R1.
  pose proof (crc32_byte_range _ b2 R1 H2) as R2.
  rewrite (do_crc_word c b0), (do_crc_word _ b1), (do_crc_word _ b2), (do_crc_word _ b3), Z.lxor_0_r by (done || lia).
  done.
Qed.

Lemma crc32_ref_app c l1 l2 : crc32_ref c (l1 ++ l2) = crc32_ref (crc32_ref c l1) l2.
Proof. apply foldl_app. Qed.

Lemma word_loop_ok n : forall buf c, (length buf < n)%nat -> 0 <= c < 2 ^ 32 -> byte_list buf ->
  let '(c', rest) := word_loop c buf in
  crc32_ref c' rest = crc32_ref c buf /\ 0 <= c' < 2 ^ 32 /\ byte_list rest.
Proof.
  induction n as [|n IH]; intros buf c Hn Hc Hb; [lia|].
  destruct buf as [|b0 [|b1 [|b2 [|b3 buf]]]]; cbn [word_loop]; try done.
  apply (Forall_app _ [b0; b1; b2; b3] buf) in Hb as [Hw Hb].
  pose proof (crc32_ref_range _ c Hc Hw) as Hr.
  rewrite Forall_cons, Forall_cons, Forall_cons, Forall_singleton in Hw. destruct Hw as (? & ? & ? & ?).
  rewrite word_step by done.
  specialize (IH buf (crc32_ref c [b0; b1; b2; b3])). destruct (word_loop _ buf) as [c' rest].
  destruct IH as (E & ? & ?); [simpl in Hn; lia|done|done|]. split_and!; [|lia..|done].
  rewrite E. exact (eq_sym (crc32_ref_app c [b0; b1; b2; b3] buf)).
Qed.

Lemma align_loop_ok buf : forall c p, 0 <= c < 2 ^ 32 -> byte_list buf ->
  let '(c', rest) := align_loop c p buf in
  crc32_ref c' rest = crc32_ref c buf /\ 0 <= c' < 2 ^ 32 /\ byte_list rest.
Proof.
  induction buf as [|b buf IH]; intros c p Hc Hb; cbn [align_loop]; [done|]. inversion_clear Hb.
  rewrite do_crc_byte by done. pose proof (crc32_byte_range c b) as Hr.
  destruct (negb _ && _).
  - specialize (IH (crc32_byte c b) (p + 1)). destruct (align_loop _ _ buf). apply IH; [by apply Hr|done].
  - split_and!; [done|apply Hr; done..|done].
Qed.

Lemma crc32_div crc addr buf :
  0 <= crc < 2 ^ 32 -> byte_list buf ->
  crc32 crc addr buf = crc32_ref (crc .^ 0xffffffff) buf .^ 0xffffffff.
Proof.
  intros Hc Hb. unfold crc32. f_equal.
  assert (0 <= crc .^ 0xffffffff < 2 ^ 32) as Hc' by (apply lxor_range; lia).
  revert Hc'. generalize (crc .^ 0xffffffff). clear crc Hc. intros c Hc. unfold crc32_no_comp.
  assert (let '(c', rest) := if tst addr 3 && negb (bool_decide (buf = [])) then align_loop c addr buf else (c, buf) in
    crc32_ref c' rest = crc32_ref c buf /\ 0 <= c' < 2 ^ 32 /\ byte_list rest) as Ha.
  { destruct (tst addr 3 && _); [by apply align_loop_ok|done]. }
  destruct (if tst addr 3 && _ then _ else _) as [c' rest]. destruct Ha as (<- & Hc' & Hr).
  pose proof (word_loop_ok (S (length rest)) rest c' ltac:(lia) Hc' Hr) as Hw.
  destruct (word_loop c' rest) as [c'' rest']. destruct Hw as (<- & ? & ?). by apply fold_do_crc.
Qed.

Lemma crc32_range crc addr buf : 0 <= crc < 2 ^ 32 -> byte_list buf -> 0 <= crc32 crc addr buf < 2 ^ 32.
Proof.
  intros Hc Hb. rewrite crc32_div by done. apply lxor_range; [|lia]. apply crc32_ref_range; [|done].
  apply lxor_range; lia.
Qed.

(** Two pieces. *)
Lemma crc32_join crc addr addr' buf buf' :
  0 <= crc < 2 ^ 32 -> byte_list buf -> byte_list buf' ->
  crc32 (crc32 crc addr buf) addr' buf' = crc32 crc addr (buf ++ buf').
Proof.
  intros Hc Hb Hb'. rewrite (crc32_div (crc32 crc addr buf)) by (done || by apply crc32_range).
  rewrite (crc32_div crc addr buf), (crc32_div crc addr (buf ++ buf')) by (done || by apply Forall_app).
  by rewrite Z.lxor_assoc, Z.lxor_nilpotent, Z.lxor_0_r, crc32_ref_app.
Qed.

Lemma wd_loop_same n : forall crc addr buf (chunk_sz : nat),
  0 <= crc < 2 ^ 32 -> byte_list buf -> (0 < chunk_sz)%nat -> (length buf <= n)%nat ->
  wd_loop n crc addr buf chunk_sz = Ok (crc32 crc addr buf).
Proof.
  induction n as [|n IH]; intros crc addr buf k Hc Hb Hk Hn.
  all: destruct buf as [|b buf]; [cbn [wd_loop]; rewrite crc32_div by done;
    unfold crc32_ref; cbn [foldl]; by rewrite Z.lxor_assoc, Z.lxor_nilpotent, Z.lxor_0_r|].
  - simpl in Hn. lia.
  - cbn [wd_loop]. set (l := b :: buf) in *. set (m := Nat.min (length l) k).
    assert (0 < m)%nat by (unfold m, l; cbn [length]; lia).
    rewrite IH; [|by apply crc32_range, Forall_take|by apply Forall_drop|done|rewrite length_drop; lia].
    f_equal. rewrite crc32_join; [by rewrite take_drop|done|by apply Forall_take|by apply Forall_drop].
Qed.

(** C35: the table-driven [crc32], which walks to a word boundary, takes four bytes at a time and
    then the rest, is the bit-by-bit division by the CRC-32 polynomial, whatever the address of
    the buffer; and [crc32_wd], which with a watchdog works in pieces of [chunk_sz] bytes, ends
    and returns the same checksum. *)
Theorem crc32_is_division crc addr buf watchdog (n chunk_sz : nat) :
  0 <= crc < 2 ^ 32 -> byte_list buf -> (0 < chunk_sz)%nat -> (length buf <= n)%nat ->
  crc32 crc addr buf = crc32_ref (crc .^ 0xffffffff) buf .^ 0xffffffff /\
  crc32_wd watchdog n crc addr buf chunk_sz = Ok (crc32 crc addr buf).
Proof.
  intros Hc Hb Hk Hn. split; [by apply crc32_div|]. unfold crc32_wd.
  destruct watchdog; [by apply wd_loop_same|done].
Qed.

Lemma crc32_is_division_witness :
  crc32 0 2 (cstr "123456789") = 0xcbf43926 /\
  crc32_wd true 9 0 2 (cstr "123456789") 4 = Ok 0xcbf43926.
Proof.
  destruct (crc32_is_division 0 2 (cstr "123456789") true 9 4) as [E ->]; [lia|in_list|lia|simpl; lia|].
  split; [rewrite E; vm_compute; reflexivity|]. vm_compute. reflexivity.
Defined.

(** ** The 16-, 8- and 7-bit checksums *)

Lemma crc16_entry n : 0 <= n < 256 -> nth (Z.to_nat n) crc16_tab 0 = Nat.iter 8 crc_bit (n .<< 8).
Proof.
  intros Hn. apply Z.eqb_eq.
  by apply (all_bytes (fun n => nth (Z.to_nat n) crc16_tab 0 =? Nat.iter 8 crc_bit (n .<< 8))); [vm_compute|].
Qed.

#[local] Instance crc_bit_lin : XorLinear crc_bit.
Proof. unfold crc_bit. apply _. Qed.

(** Eight steps: the high byte decides what is added to the rest. *)
Lemma eight_steps_16 z :
  0 <= z < 2 ^ 16 -> u16 (Nat.iter 8 crc_bit (((z .>> 8) .& 0xFF) .<< 8) .^ (z .<< 8)) = Nat.iter 8 crc_bit z.
Proof.
  apply (linear_ext_check 16 (fun z => u16 (Nat.iter 8 crc_bit (((z .>> 8) .& 0xFF) .<< 8) .^ (z .<< 8)))
    (Nat.iter 8 crc_bit)).
  - apply (linear_wrap 16), linear_lxor; [|apply _].
    apply (linear_compose (Nat.iter 8 crc_bit) (fun z => ((z .>> 8) .& 0xFF) .<< 8)); [apply linear_iter, _|apply _].
  - apply linear_iter, _.
  - vm_compute. reflexivity.
Qed.

Lemma u16_high b x : u16 (x .^ ((b .<< 8) .<< 8)) = u16 x.
Proof.
  rewrite Z.shiftl_shiftl by lia. apply Z.bits_inj'. intros i Hi. push_testbit.
  destruct (Z.ltb_spec i 16); [|done]. rewrite (Z.testbit_neg_r b) by lia. by rewrite xorb_false_r.
Qed.

Lemma crc16_step_byte c b : 0 <= c < 2 ^ 16 -> 0 <= b < 256 -> crc16_step c b = crc_byte c b.
Proof.
  intros Hc Hb. unfold crc16_step. rewrite crc16_entry by (apply (land_range 8); lia).
  rewrite crc_byte_iter, <- (eight_steps_16 (c .^ (b .<< 8))).
  - rewrite Z.shiftr_lxor, Z.shiftr_shiftl_l by lia. change (8 - 8) with 0. rewrite Z.shiftl_0_r.
    by rewrite Z.shiftl_lxor, <- (Z.lxor_assoc _ (c .<< 8)), u16_high.
  - apply lxor_range; [lia|]. rewrite Z.shiftl_mul_pow2 by lia. lia.
Qed.

(** [cyg_crc16] of the second stage's library is the checksum the first stage computes over a
    received XMODEM packet ([calcCrc]), byte for byte of any message: both are the division by
    x^16 + x^12 + x^5 + 1. *)
Theorem cyg_crc16_is_xmodem msg :
  byte_list msg -> cyg_crc16 msg = crc16 msg /\ cyg_crc16 msg = foldl calcCrc_step 0 msg.
Proof.
  intros Hm.
  assert (forall c, 0 <= c < 2 ^ 16 ->
    foldl crc16_step c msg = foldl crc_byte c msg /\ foldl crc_byte c msg = foldl calcCrc_step c msg) as H.
  { induction Hm as [|b msg Hb Hm IH]; intros c Hc; [done|]. simpl.
    rewrite crc16_step_byte, calcCrc_step_byte by done. apply IH, crc_byte_range. }
  unfold cyg_crc16, crc16. destruct (H 0) as [-> <-]; [lia|]. done.
Qed.

Lemma cyg_crc16_is_xmodem_witness : cyg_crc16 (cstr "123456789") = crc16 (cstr "123456789") /\ cyg_crc16 (cstr "123456789") = foldl calcCrc_step 0 (cstr "123456789").
Proof. apply (cyg_crc16_is_xmodem (cstr "123456789")). in_list. Defined.

(** CRC-8 with the polynomial x^8 + x^2 + x + 1. *)
Definition crc8_ref_bit (c : Z) : Z := u8 (c .<< 1) .^ (if Z.testbit c 7 then 0x07 else 0).
Definition crc8_ref (msg : list Z) : Z := foldl (fun c b => Nat.iter 8 crc8_ref_bit (c .^ b)) 0 msg.

Lemma crc8_ref_bit_range c : 0 <= crc8_ref_bit c < 256.
Proof. apply (lxor_range 8); [by apply wrap_range|]. case_if; lia. Qed.

Lemma crc8_bit_high c : 0 <= c < 256 -> crc8_bit (c .<< 8) = crc8_ref_bit c .<< 8.
Proof.
  intros Hc. apply Z.eqb_eq.
  by apply (all_bytes (fun c => crc8_bit (c .<< 8) =? crc8_ref_bit c .<< 8)); [vm_compute|].
Qed.

Lemma crc8_iter_high n : forall c, 0 <= c < 256 ->
  Nat.iter n crc8_bit (c .<< 8) = Nat.iter n crc8_ref_bit c .<< 8 /\ 0 <= Nat.iter n crc8_ref_bit c < 256.
Proof.
  induction n as [|n IH]; intros c Hc; [done|]. destruct (IH c Hc) as [E Hr]. simpl.
  rewrite E, crc8_bit_high by done. split; [done|]. apply crc8_ref_bit_range.
Qed.

(** [crc8] keeps the remainder in the upper byte of a 16-bit register. *)
Theorem crc8_is_division msg : byte_list msg -> crc8 msg = crc8_ref msg.
Proof.
  intros Hm. unfold crc8, crc8_ref.
  assert (forall c, 0 <= c < 256 ->
    foldl crc8_step (c .<< 8) msg = foldl (fun c b => Nat.iter 8 crc8_ref_bit (c .^ b)) c msg .<< 8 /\
    0 <= foldl (fun c b => Nat.iter 8 crc8_ref_bit (c .^ b)) c msg < 256) as H.
  { induction Hm as [|b msg Hb Hm IH]; intros c Hc; [done|]. cbn [foldl].
    assert (0 <= c .^ b < 256) as Hx by (by apply (lxor_range 8)).
    destruct (crc8_iter_high 8 (c .^ b) Hx) as [E Hr].
    unfold crc8_step at 2. rewrite <- Z.shiftl_lxor, E. by apply IH. }
  destruct (H 0) as [E Hr]; [lia|]. change (0 .<< 8) with 0 in E. rewrite E.
  rewrite Z.shiftr_shiftl_l by lia. change (8 - 8) with 0. rewrite Z.shiftl_0_r.
  change 0xff with (Z.ones 8). rewrite Z.land_ones by lia. by apply Z.mod_small.
Qed.

(** CRC-7 with the polynomial x^7 + x^3 + 1, the remainder in the upper seven bits. *)
Definition crc7_ref_bit (r : Z) : Z := u8 (r .<< 1) .^ (if Z.testbit r 7 then 0x12 else 0).
Definition crc7_rem (r : Z) : Z := Nat.iter 8 crc7_ref_bit r .>> 1.
Definition crc7_ref_byte (c b : Z) : Z := crc7_rem ((c .<< 1) .^ b).

Definition crc7_entry_ok (n : Z) : bool :=
  match crc7_syndrome_table !! Z.to_nat n with
  | Some v => (v =? crc7_rem n) && ((0 <=? v) && (v <? 128))
  | None => false
  end.

Lemma crc7_entry n : 0 <= n < 256 ->
  crc7_syndrome_table !! Z.to_nat n = Some (crc7_rem n) /\
  0 <= crc7_rem n < 128.
Proof.
  intros Hn. assert (crc7_entry_ok n = true) as H by (by apply all_bytes; [vm_compute|]).
  unfold crc7_entry_ok in H. destruct (crc7_syndrome_table !! Z.to_nat n) as [v|]; [|done].
  apply andb_true_iff in H as [->%Z.eqb_eq H2]. split; [done|lia].
Qed.

Opaque crc7_rem.

(** From a 7-bit start value [crc7] stays inside its table and computes the division. *)
Theorem crc7_is_division buffer : forall crc,
  0 <= crc < 128 -> byte_list buffer -> crc7 crc buffer = Ok (foldl crc7_ref_byte crc buffer).
Proof.
  induction buffer as [|b buffer IH]; intros crc Hc Hb; [done|]. inversion_clear Hb. cbn [crc7 foldl].
  assert (0 <= (crc .<< 1) .^ b < 256) as Hx.
  { apply (lxor_range 8); [|done]. rewrite Z.shiftl_mul_pow2 by lia. lia. }
  destruct (crc7_entry _ Hx) as [E Hr].
  unfold crc7_byte, crc7_ref_byte at 2. rewrite E. cbn [res_of_option res_bind].
  apply IH; [exact Hr|assumption].
Qed.
