(* ===== verification/Div64.v ===== *)
(** * Division of 64-bit numbers ([lib/div64.c], [include/div64.h])

    The processor divides 32-bit numbers only; [__div64_32] is shift-and-subtract.  The theorem:
    quotient and remainder are right for every dividend and every non-zero divisor, within 65
    rounds of each loop. *)
From S2P Require Import Prelude.

Abbreviation s64 := (swrap 64).

(** [while ((int64_t)b > 0 && b < rem)] *)
Fixpoint double_loop (n : nat) (rem b d : Z) : res (Z * Z) :=
  match n with
  | O => Hang
  | S n =>
    if (0 <? s64 b) && (b <? rem) then double_loop n rem (u64 (b + b)) (u64 (d + d)) else Ok (b, d)
  end.

(** [do ... while (d)]; the results are [rem] and [res]. *)
Fixpoint subtract_loop (n : nat) (rem b d res : Z) : Prelude.res (Z * Z) :=
  match n with
  | O => Hang
  | S n =>
    let '(rem, res) := if b <=? rem then (u64 (rem - b), u64 (res + d)) else (rem, res) in
    let b := b .>> 1 in
    let d := d .>> 1 in
    if negb (d =? 0) then subtract_loop n rem b d res else Ok (rem, res)
  end.

(** The returned remainder and the new value of the dividend.  A division by zero is
    undefined. *)
Definition __div64_32 (n base : Z) : res (Z * Z) :=
  let rem := n in
  let b := base in
  let d := 1 in
  let high := u32 (rem .>> 32) in
  let* (res, rem) :=
    if base <=? high then
      if base =? 0 then Ub
      else
        let high := high / base in
        Ok (u64 (high .<< 32), u64 (rem - u64 (u32 (high * base) .<< 32)))
    else Ok (0, rem) in
  let* (b, d) := double_loop 65 rem b d in
  subtract_loop 65 rem b d res.

(** The macro [do_div]: 32-bit division when the dividend fits. *)
Definition do_div (n base : Z) : res (Z * Z) :=
  if n .>> 32 =? 0 then if base =? 0 then Ub else Ok (u32 n mod base, u32 n / base)
  else __div64_32 n base.

Definition lldiv (dividend divisor : Z) : res Z := let* (_, __res) := do_div dividend divisor in Ok __res.

Lemma s64_pos b : 0 <= b < 2 ^ 64 -> (0 <? s64 b) = true -> 0 < b < 2 ^ 63.
Proof.
  intros Hb Hp%Z.ltb_lt. unfold swrap in Hp. change (2 ^ (64 - 1)) with (2 ^ 63) in Hp.
  destruct (Z.lt_ge_cases b (2 ^ 63)).
  - rewrite Z.mod_small in Hp by lia. lia.
  - replace (b + 2 ^ 63) with (b - 2 ^ 63 + 1 * 2 ^ 64) in Hp by lia.
    rewrite Z.mod_add, Z.mod_small in Hp by lia. lia.
Qed.

Lemma s64_not_pos b : 0 < b < 2 ^ 64 -> (0 <? s64 b) = false -> 2 ^ 63 <= b.
Proof.
  intros Hb Hp%Z.ltb_ge. unfold swrap in Hp. change (2 ^ (64 - 1)) with (2 ^ 63) in Hp.
  destruct (Z.lt_ge_cases b (2 ^ 63)); [|done]. rewrite Z.mod_small in Hp by lia. lia.
Qed.

(** Doubling stops with [base * 2^k] above half of [rem]. *)
Lemma double_loop_ok n : forall k rem base,
  0 < base -> 0 <= rem < 2 ^ 64 -> base * 2 ^ Z.of_nat k < 2 ^ 64 -> (65 <= k + n)%nat ->
  exists k', (k <= k')%nat /\ base * 2 ^ Z.of_nat k' < 2 ^ 64 /\ rem < 2 * (base * 2 ^ Z.of_nat k') /\
    double_loop n rem (base * 2 ^ Z.of_nat k) (2 ^ Z.of_nat k) = Ok (base * 2 ^ Z.of_nat k', 2 ^ Z.of_nat k').
Proof.
  induction n as [|n IH]; intros k rem base Hb Hr Hk Hn.
  { exfalso. assert (2 ^ 64 <= 2 ^ Z.of_nat k) by (apply Z.pow_le_mono_r; lia). nia. }
  cbn [double_loop]. assert (0 < 2 ^ Z.of_nat k) by lia.
  assert (0 < base * 2 ^ Z.of_nat k) by nia.
  destruct (0 <? s64 _) eqn:Hs; cbn [andb].
  - apply s64_pos in Hs; [|lia]. destruct (Z.ltb_spec (base * 2 ^ Z.of_nat k) rem) as [Hlt|Hge].
    + assert (2 ^ Z.of_nat k + 2 ^ Z.of_nat k = 2 ^ Z.of_nat (S k)) as Ed.
      { rewrite Nat2Z.inj_succ, Z.pow_succ_r by lia. lia. }
      assert (base * 2 ^ Z.of_nat k + base * 2 ^ Z.of_nat k = base * 2 ^ Z.of_nat (S k)) as Eb by (rewrite <- Ed; lia).
      rewrite Ed, Eb. assert (2 ^ Z.of_nat (S k) <= base * 2 ^ Z.of_nat (S k)) by nia.
      rewrite !wrap_small by lia.
      destruct (IH (S k) rem base) as (k' & ? & ? & ? & ?); [lia..|]. exists k'. split; [lia|done].
    + exists k. split_and!; [lia..|done].
  - apply s64_not_pos in Hs; [|lia]. exists k. split_and!; [lia..|done].
Qed.

Lemma shiftr_pow k : 2 ^ Z.of_nat (S k) .>> 1 = 2 ^ Z.of_nat k.
Proof.
  rewrite Z.shiftr_div_pow2, Nat2Z.inj_succ, Z.pow_succ_r, Z.mul_comm by lia. by apply Z.div_mul.
Qed.

(** One subtraction per bit of the quotient. *)
Lemma subtract_loop_ok k : forall n rem base q,
  0 < base -> 0 <= rem -> 0 <= q -> q * base + rem < 2 ^ 64 ->
  rem < 2 * (base * 2 ^ Z.of_nat k) -> (k < n)%nat ->
  subtract_loop n rem (base * 2 ^ Z.of_nat k) (2 ^ Z.of_nat k) q =
    Ok ((q * base + rem) mod base, (q * base + rem) / base).
Proof.
  assert (forall rem base q d, 0 < base -> 0 <= rem -> 0 <= q -> 0 < d -> q * base + rem < 2 ^ 64 ->
    base * d <= rem -> u64 (rem - base * d) = rem - base * d /\ u64 (q + d) = q + d) as Hw.
  { intros rem base q d Hb Hr Hq Hd Hm Hle. split; apply wrap_small; nia. }
  induction k as [|k IH]; intros [|n] rem base q Hb Hr Hq Hm Hlt Hn; try lia; cbn [subtract_loop].
  - change (2 ^ Z.of_nat 0) with 1 in *. rewrite Z.mul_1_r in *. change (1 .>> 1) with 0. simpl negb. cbv iota.
    destruct (Z.leb_spec base rem).
    + destruct (Hw rem base q 1) as [E1 E2]; [lia..|]. rewrite Z.mul_1_r in E1. rewrite E1, E2.
      f_equal. f_equal; [apply (Z.mod_unique _ _ (q + 1))|apply (Z.div_unique _ _ _ (rem - base))]; lia.
    + f_equal. f_equal; [apply (Z.mod_unique _ _ q)|apply (Z.div_unique _ _ _ rem)]; lia.
  - rewrite shiftr_pow. assert (0 < 2 ^ Z.of_nat k) by lia.
    assert (2 ^ Z.of_nat (S k) = 2 * 2 ^ Z.of_nat k) as Ek by (rewrite Nat2Z.inj_succ, Z.pow_succ_r; lia).
    assert ((base * 2 ^ Z.of_nat (S k)) .>> 1 = base * 2 ^ Z.of_nat k) as Eb.
    { rewrite Z.shiftr_div_pow2 by lia. change (2 ^ 1) with 2. rewrite Ek.
      replace (base * (2 * 2 ^ Z.of_nat k)) with (base * 2 ^ Z.of_nat k * 2) by lia. by apply Z.div_mul. }
    rewrite Eb. destruct (Z.eqb_spec (2 ^ Z.of_nat k) 0); [lia|]. cbn [negb].
    destruct (Z.leb_spec (base * 2 ^ Z.of_nat (S k)) rem) as [Hle|Hgt].
    + destruct (Hw rem base q (2 ^ Z.of_nat (S k))) as [E1 E2]; [lia..|]. rewrite E1, E2. cbv iota.
      rewrite IH; [|lia|lia|lia|nia|rewrite Ek in *; lia|lia].
      replace ((q + 2 ^ Z.of_nat (S k)) * base + (rem - base * 2 ^ Z.of_nat (S k))) with (q * base + rem) by lia. done.
    + cbv iota. rewrite IH; [done|lia..| |lia]. rewrite Ek in Hgt. lia.
Qed.

Lemma div64_ok n base :
  0 <= n < 2 ^ 64 -> 0 < base < 2 ^ 32 ->
  __div64_32 n base = Ok (n mod base, n / base) /\ do_div n base = Ok (n mod base, n / base).
Proof.
  intros Hn Hb.
  enough (__div64_32 n base = Ok (n mod base, n / base)) as H.
  { split; [done|]. unfold do_div. destruct (Z.eqb_spec (n .>> 32) 0) as [Hz|]; [|done].
    rewrite Z.shiftr_div_pow2 in Hz by lia. apply Z.div_small_iff in Hz; [|lia].
    destruct (Z.eqb_spec base 0); [lia|]. by rewrite wrap_small by lia. }
  assert (exists q rem, (if base <=? u32 (n .>> 32) then
      if base =? 0 then Ub
      else Ok (u64 ((u32 (n .>> 32) / base) .<< 32),
               u64 (n - u64 (u32 (u32 (n .>> 32) / base * base) .<< 32)))
    else Ok (0, n)) = Ok (q, rem) /\ 0 <= q /\ 0 <= rem < 2 ^ 64 /\ q * base + rem = n) as (q & rem & E & Hq & Hr & Hsum).
  { assert (u32 (n .>> 32) = n / 2 ^ 32) as ->.
    { rewrite Z.shiftr_div_pow2 by lia. apply wrap_small. Z.div_mod_to_equations. lia. }
    destruct (Z.leb_spec base (n / 2 ^ 32)); [|exists 0, n; split_and!; (done || lia)].
    destruct (Z.eqb_spec base 0); [lia|]. set (h := n / 2 ^ 32) in *.
    assert (0 <= h < 2 ^ 32) by (unfold h; Z.div_mod_to_equations; lia).
    assert (0 <= h / base <= h).
    { split; [apply Z.div_pos; lia|]. apply Z.div_le_upper_bound; [lia|]. nia. }
    assert (h / base * base <= h) by (pose proof (Z.mul_div_le h base); lia).
    assert (h * 2 ^ 32 <= n) by (unfold h; pose proof (Z.mul_div_le n (2 ^ 32)); lia).
    rewrite !Z.shiftl_mul_pow2 by lia. rewrite (wrap_small 32) by nia.
    assert (0 <= h / base * 2 ^ 32 < 2 ^ 64) by nia. assert (0 <= h / base * base * 2 ^ 32 <= n) by nia.
    rewrite (wrap_small 64 (h / base * 2 ^ 32)), (wrap_small 64 (h / base * base * 2 ^ 32)) by lia.
    rewrite (wrap_small 64 (n - _)) by lia.
    eexists _, _. split; [reflexivity|]. generalize dependent (h / base). intros t ? ? ? ?. split_and!; [lia|lia|lia|ring]. }
  unfold __div64_32. rewrite E. cbn [res_bind].
  destruct (double_loop_ok 65 0 rem base) as (k & _ & Hk & Hrem & Hd); [lia..|].
  change (2 ^ Z.of_nat 0) with 1 in Hd. rewrite Z.mul_1_r in Hd. rewrite Hd. cbn [res_bind].
  rewrite subtract_loop_ok; [by rewrite Hsum|lia..|].
  destruct (decide (k < 65)%nat); [done|]. exfalso.
  assert (2 ^ 65 <= 2 ^ Z.of_nat k) by (apply Z.pow_le_mono_r; lia). nia.
Qed.

(** [do_div], with its shift-and-subtract fallback [__div64_32], returns the remainder and leaves the
    quotient, for every 64-bit dividend and every non-zero 32-bit divisor; both loops end within
    65 rounds. *)
Theorem do_div_divides n base :
  0 <= n < 2 ^ 64 -> 0 < base < 2 ^ 32 ->
  __div64_32 n base = Ok (n mod base, n / base) /\ do_div n base = Ok (n mod base, n / base).
Proof. apply div64_ok. Qed.

Lemma do_div_divides_witness :
  __div64_32 (2 ^ 63 + 12345678901) 100000 = Ok ((2 ^ 63 + 12345678901) mod 100000, (2 ^ 63 + 12345678901) / 100000) /\
  do_div (2 ^ 63 + 12345678901) 100000 = Ok ((2 ^ 63 + 12345678901) mod 100000, (2 ^ 63 + 12345678901) / 100000).
Proof. apply (do_div_divides (2 ^ 63 + 12345678901) 100000); lia. Defined.
