(* ===== verification/Vsprintf.v ===== *)
(** * Reading and printing numbers ([lib/vsprintf.c])

    Strings are the bytes before their NUL; reading at the end of one yields the NUL.  The
    printing functions append characters through [ADDCH], which is a parameter [Out -> Z -> Out]:
    with an unbounded output it is plain [sprintf], with a buffer of a given size it is the safe
    version ([CONFIG_SYS_VSNPRINTF]).  Arguments of the variable list carry their type; fetching
    one with the wrong type is undefined. *)
From S2P Require Import Prelude Ctype Div64.

Definition cur (s : list Z) : Z := nth 0 s 0.

(** ** Reading numbers *)

(** The value of a hexadecimal digit. *)
Definition digit_val (c : Z) : Z :=
  if isdigit c then c - 0x30 else (if islower c then toupper c else c) - 0x41 + 10.

(** The [while] loop; [w] is the width of the result. *)
Fixpoint digits_loop (w base result : Z) (cp : list Z) : Z * list Z :=
  match cp with
  | [] => (result, [])
  | c :: cp' =>
    if isxdigit c && (digit_val c <? base)
    then digits_loop w base (wrap w (result * base + digit_val c)) cp'
    else (result, cp)
  end.

(** The base and the digits: a leading [0] selects octal, [0x] hexadecimal. *)
Definition number_base (cp : list Z) (base : Z) : Z * list Z :=
  let '(base, cp) :=
    if cur cp =? 0x30 then
      let cp := tail cp in
      let '(base, cp) := if (cur cp =? 0x78) && isxdigit (nth 1 cp 0) then (16, tail cp) else (base, cp) in
      (if base =? 0 then 8 else base, cp)
    else (base, cp) in
  (if base =? 0 then 10 else base, cp).

(** The value and the string at [*endp]. *)
Definition simple_strtoul (cp : list Z) (base : Z) : Z * list Z :=
  let '(base, cp) := number_base cp base in digits_loop 32 base 0 cp.
Definition simple_strtoull (cp : list Z) (base : Z) : Z * list Z :=
  let '(base, cp) := number_base cp base in digits_loop 64 base 0 cp.

Definition EINVAL : Z := 22.

(** The result and the value stored to [*res]. *)
Definition strict_strtoul (cp : list Z) (base : Z) : Z * Z :=
  let len := length cp in
  if (len =? 0)%nat then (- EINVAL, 0)
  else
    let '(val, tail) := simple_strtoul cp base in
    if (length tail =? len)%nat then (- EINVAL, 0)
    else if bool_decide (tail = []) || ((len =? (len - length tail) + 1)%nat && (cur tail =? 0x0A))
    then (0, val)
    else (- EINVAL, 0).

Definition simple_strtol (cp : list Z) (base : Z) : Z * list Z :=
  if cur cp =? 0x2D
  then let '(v, e) := simple_strtoul (tail cp) base in (s32 (u32 (- v)), e)
  else let '(v, e) := simple_strtoul cp base in (s32 v, e).

(** The size suffix at [*endp], for a result of width [w]. *)
Definition size_suffix (w result : Z) (e : list Z) : Z * list Z :=
  let caseK r := (wrap w (r * 1024),
    if nth 1 e 0 =? 0x69 then if nth 2 e 0 =? 0x42 then drop 3 e else drop 2 e else e) in
  let caseM r := caseK (wrap w (r * 1024)) in
  let caseG r := caseM (wrap w (r * 1024)) in
  if cur e =? 0x47 then caseG result
  else if cur e =? 0x4D then caseM result
  else if (cur e =? 0x4B) || (cur e =? 0x6B) then caseK result
  else (result, e).
Definition ustrtoul (cp : list Z) (base : Z) : Z * list Z :=
  let '(result, e) := simple_strtoul cp base in size_suffix 32 result e.
Definition ustrtoull (cp : list Z) (base : Z) : Z * list Z :=
  let '(result, e) := simple_strtoull cp base in size_suffix 64 result e.

Definition is_digit (c : Z) : bool := (0x30 <=? c) && (c <=? 0x39).

(** Overflow of the [int] is undefined. *)
Fixpoint skip_atoi (i : Z) (s : list Z) : res (Z * list Z) :=
  match s with
  | [] => Ok (i, [])
  | c :: s' =>
    if is_digit c then
      let i := i * 10 + c - 0x30 in
      if i <? 2 ^ 31 then skip_atoi i s' else Ub
    else Ok (i, s)
  end.

(** ** Decimal digits, least significant first *)

Definition put_dec_trunc (q : Z) : list Z :=
  let d1 := (q .>> 4) .& 0xf in
  let d2 := (q .>> 8) .& 0xf in
  let d3 := q .>> 12 in
  let d0 := u32 (6 * (d3 + d2 + d1) + (q .& 0xf)) in
  let q := u32 (d0 * 0xcd) .>> 11 in
  let d0 := u32 (d0 - 10 * q) in
  let d1 := u32 (q + 9 * d3 + 5 * d2 + d1) in
  u8 (d0 + 0x30) ::
  if negb (d1 =? 0) then
    let q := u32 (d1 * 0xcd) .>> 11 in
    let d1 := u32 (d1 - 10 * q) in
    let d2 := u32 (q + 2 * d2) in
    u8 (d1 + 0x30) ::
    if negb (d2 =? 0) || negb (d3 =? 0) then
      let q := u32 (d2 * 0xd) .>> 7 in
      let d2 := u32 (d2 - 10 * q) in
      let d3 := u32 (q + 4 * d3) in
      u8 (d2 + 0x30) ::
      if negb (d3 =? 0) then
        let q := u32 (d3 * 0xcd) .>> 11 in
        let d3 := u32 (d3 - 10 * q) in
        u8 (d3 + 0x30) ::
        if negb (q =? 0) then [u8 (q + 0x30)] else []
      else []
    else []
  else [].

Definition put_dec_full (q : Z) : list Z :=
  let d1 := (q .>> 4) .& 0xf in
  let d2 := (q .>> 8) .& 0xf in
  let d3 := q .>> 12 in
  let d0 := u32 (6 * (d3 + d2 + d1) + (q .& 0xf)) in
  let q := u32 (d0 * 0xcd) .>> 11 in
  let c0 := u8 (u32 (d0 - 10 * q) + 0x30) in
  let d1 := u32 (q + 9 * d3 + 5 * d2 + d1) in
  let q := u32 (d1 * 0xcd) .>> 11 in
  let c1 := u8 (u32 (d1 - 10 * q) + 0x30) in
  let d2 := u32 (q + 2 * d2) in
  let q := u32 (d2 * 0xd) .>> 7 in
  let c2 := u8 (u32 (d2 - 10 * q) + 0x30) in
  let d3 := u32 (q + 4 * d3) in
  let q := u32 (d3 * 0xcd) .>> 11 in
  let c3 := u8 (u32 (d3 - 10 * q) + 0x30) in
  [c0; c1; c2; c3; u8 (q + 0x30)].

Fixpoint put_dec (n : nat) (num : Z) : res (list Z) :=
  match n with
  | O => Hang
  | S n =>
    if num <? 100000 then Ok (put_dec_trunc num)
    else
      let* (rem, num) := do_div num 100000 in
      let* rest := put_dec n num in
      Ok (put_dec_full rem ++ rest)
  end.

(** ** Formatting *)

Definition ZEROPAD : Z := 1.
Definition SIGN : Z := 2.
Definition PLUS : Z := 4.
Definition SPACE : Z := 8.
Definition LEFT : Z := 16.
Definition SMALL : Z := 32.
Definition SPECIAL : Z := 64.

Definition upper_digits : list Z := cstr "0123456789ABCDEF".

(** The [do] loop for the bases 8 and 16. *)
Fixpoint pow2_digits (n : nat) (num mask shift locase : Z) : res (list Z) :=
  match n with
  | O => Hang
  | S n =>
    let c := nth (Z.to_nat (u8 num .& mask)) upper_digits 0 .| locase in
    let num := num .>> shift in
    if negb (num =? 0) then let* rest := pow2_digits n num mask shift locase in Ok (c :: rest) else Ok [c]
  end.

(** The contents of [tmp]: the digits in reverse order. *)
Definition reversed_digits (num base locase : Z) : res (list Z) :=
  if num =? 0 then Ok [0x30]
  else if negb (base =? 10) then
    pow2_digits 65 num (base - 1) (if base =? 16 then 4 else 3) locase
  else put_dec 5 num.

Definition hex_asc : list Z := cstr "0123456789abcdef".
Definition pack_hex_byte (byte : Z) : list Z :=
  [nth (Z.to_nat ((byte .& 0xf0) .>> 4)) hex_asc 0; nth (Z.to_nat (byte .& 0x0f)) hex_asc 0].

(** An argument: a 32-bit or a 64-bit integer, a string (or [NULL]), or a pointer with the bytes it
    points to. *)
Inductive va :=
  | VInt (v : Z)
  | VLong (v : Z)
  | VStr (s : option (list Z))
  | VPtr (p : Z) (bytes : list Z).

Section Output.
Context {Out : Type} (ADDCH : Out -> Z -> Out) (position : Out -> Z).

Fixpoint addchs (n : nat) (c : Z) (buf : Out) : Out :=
  match n with O => buf | S n => addchs n c (ADDCH buf c) end.

(** [while (--size >= 0) ADDCH(buf, c);] *)
Definition pad (c size : Z) (buf : Out) : Out * Z :=
  (addchs (Z.to_nat size) c buf, if 0 <=? size then -1 else size - 1).

(** The magnitude of a negative number overflows for the least 64-bit one, and a precision close to the
    largest [int] makes [size] underflow. *)
Definition number (buf : Out) (num base size precision type : Z) : res Out :=
  let need_pfx := tst type SPECIAL && negb (base =? 10) in
  let locase := type .& SMALL in
  let type := if tst type LEFT then type .& Z.lnot ZEROPAD else type in
  let '(sign, num, size) :=
    if tst type SIGN then
      if s64 num <? 0 then (0x2D, u64 (- s64 num), size - 1)
      else if tst type PLUS then (0x2B, num, size - 1)
      else if tst type SPACE then (0x20, num, size - 1)
      else (0, num, size)
    else (0, num, size) in
  let size := if need_pfx then if base =? 16 then size - 2 else size - 1 else size in
  if tst type SIGN && (num =? 2 ^ 63) then Ub else
  let* tmp := reversed_digits num base locase in
  let i := Z.of_nat (length tmp) in
  let precision := if i >? precision then i else precision in
  let size := size - precision in
  let '(buf, size) := if tst type (ZEROPAD + LEFT) then (buf, size) else pad 0x20 size buf in
  let buf := if negb (sign =? 0) then ADDCH buf sign else buf in
  let buf := if need_pfx then
               let buf := ADDCH buf 0x30 in
               if base =? 16 then ADDCH buf (0x58 .| locase) else buf
             else buf in
  let '(buf, size) := if tst type LEFT then (buf, size)
                      else pad (if tst type ZEROPAD then 0x30 else 0x20) size buf in
  let buf := addchs (Z.to_nat (precision - i)) 0x30 buf in
  let buf := foldl ADDCH buf (rev tmp) in
  let '(buf, size) := pad 0x20 size buf in
  if size <? -2 ^ 31 then Ub else Ok buf.

(** [while (len < field_width--) ADDCH(buf, ' ');] *)
Definition widen (len field_width : Z) (buf : Out) : Out * Z :=
  (addchs (Z.to_nat (field_width - len)) 0x20 buf, Z.min field_width len - 1).

Definition string_ (buf : Out) (s : option (list Z)) (field_width precision flags : Z) : Out :=
  let s := match s with None => cstr "<NULL>" | Some s => s end in
  let len := Z.min (Z.of_nat (length s)) (u32 precision) in
  let '(buf, field_width) := if tst flags LEFT then (buf, field_width) else widen len field_width buf in
  let buf := foldl ADDCH buf (take (Z.to_nat len) s) in
  (widen len field_width buf).1.

(** The separated bytes of an address. *)
Fixpoint mac_bytes (addr : list Z) (sep : bool) : list Z :=
  match addr with
  | [] => []
  | [b] => pack_hex_byte b
  | b :: addr => pack_hex_byte b ++ (if sep then [0x3A] else []) ++ mac_bytes addr sep
  end.
Fixpoint ip6_words (addr : list Z) (sep : bool) : list Z :=
  match addr with
  | b0 :: b1 :: addr =>
    pack_hex_byte b0 ++ pack_hex_byte b1 ++
    match addr with [] => [] | _ => (if sep then [0x3A] else []) ++ ip6_words addr sep end
  | _ => []
  end.
Fixpoint ip4_quads (addr : list Z) : list Z :=
  match addr with
  | [] => []
  | [b] => rev (put_dec_trunc b)
  | b :: addr => rev (put_dec_trunc b) ++ [0x2E] ++ ip4_quads addr
  end.

Definition mac_address_string (buf : Out) (addr : list Z) (field_width precision flags : Z) : res Out :=
  if decide (6 <= length addr)%nat
  then Ok (string_ buf (Some (mac_bytes (take 6 addr) (negb (tst flags SPECIAL)))) field_width precision
             (flags .& Z.lnot SPECIAL))
  else Ub.
Definition ip6_addr_string (buf : Out) (addr : list Z) (field_width precision flags : Z) : res Out :=
  if decide (16 <= length addr)%nat
  then Ok (string_ buf (Some (ip6_words (take 16 addr) (negb (tst flags SPECIAL)))) field_width precision
             (flags .& Z.lnot SPECIAL))
  else Ub.
Definition ip4_addr_string (buf : Out) (addr : list Z) (field_width precision flags : Z) : res Out :=
  if decide (4 <= length addr)%nat
  then Ok (string_ buf (Some (ip4_quads (take 4 addr))) field_width precision (flags .& Z.lnot SPECIAL))
  else Ub.

Definition pointer (fmt : list Z) (buf : Out) (p : Z) (bytes : list Z) (field_width precision flags : Z) : res Out :=
  let plain flags :=
    let flags := flags .| SMALL in
    let '(field_width, flags) := if field_width =? -1 then (8, flags .| ZEROPAD) else (field_width, flags) in
    number buf (u32 p) 16 field_width precision flags in
  let c := cur fmt in
  if c =? 0x6D then mac_address_string buf bytes field_width precision (flags .| SPECIAL)
  else if c =? 0x4D then mac_address_string buf bytes field_width precision flags
  else if (c =? 0x69) || (c =? 0x49) then
    let flags := if c =? 0x69 then flags .| SPECIAL else flags in
    if nth 1 fmt 0 =? 0x36 then ip6_addr_string buf bytes field_width precision flags
    else if nth 1 fmt 0 =? 0x34 then ip4_addr_string buf bytes field_width precision flags
    else plain (flags .& Z.lnot SPECIAL)
  else plain flags.

(** The flags after a percent sign. *)
Fixpoint flags_loop (flags : Z) (fmt : list Z) : Z * list Z :=
  match fmt with
  | [] => (flags, [])
  | c :: fmt' =>
    if c =? 0x2D then flags_loop (flags .| LEFT) fmt'
    else if c =? 0x2B then flags_loop (flags .| PLUS) fmt'
    else if c =? 0x20 then flags_loop (flags .| SPACE) fmt'
    else if c =? 0x23 then flags_loop (flags .| SPECIAL) fmt'
    else if c =? 0x30 then flags_loop (flags .| ZEROPAD) fmt'
    else (flags, fmt)
  end.

Definition va_int (args : list va) : res (Z * list va) :=
  match args with VInt v :: args => Ok (v, args) | _ => Ub end.

Definition get_width (flags : Z) (fmt : list Z) (args : list va) : res (Z * Z * list Z * list va) :=
  if is_digit (cur fmt) then let* (w, fmt) := skip_atoi 0 fmt in Ok (w, flags, fmt, args)
  else if cur fmt =? 0x2A then
    let* (w, args) := va_int args in
    let w := s32 w in
    if w =? - 2 ^ 31 then Ub
    else if w <? 0 then Ok (- w, flags .| LEFT, tail fmt, args) else Ok (w, flags, tail fmt, args)
  else Ok (-1, flags, fmt, args).

Definition get_precision (fmt : list Z) (args : list va) : res (Z * list Z * list va) :=
  if cur fmt =? 0x2E then
    let fmt := tail fmt in
    let* (p, fmt, args) :=
      if is_digit (cur fmt) then let* (p, fmt) := skip_atoi 0 fmt in Ok (p, fmt, args)
      else if cur fmt =? 0x2A then let* (p, args) := va_int args in Ok (s32 p, tail fmt, args)
      else Ok (-1, fmt, args) in
    Ok (if p <? 0 then 0 else p, fmt, args)
  else Ok (-1, fmt, args).

Definition get_qualifier (fmt : list Z) : Z * list Z :=
  let c := cur fmt in
  if (c =? 0x68) || (c =? 0x6C) || (c =? 0x4C) || (c =? 0x5A) || (c =? 0x7A) || (c =? 0x74) then
    let fmt := tail fmt in
    if (c =? 0x6C) && (cur fmt =? 0x6C) then (0x4C, tail fmt) else (c, fmt)
  else (-1, fmt).

(** The integer argument as the 64-bit [num]. *)
Definition get_num (qualifier flags : Z) (args : list va) : res (Z * list va) :=
  if qualifier =? 0x4C then match args with VLong v :: args => Ok (u64 v, args) | _ => Ub end
  else
    let* (v, args) := va_int args in
    let signed := tst flags SIGN in
    Ok (if qualifier =? 0x6C then if signed then u64 (s32 v) else u32 v
        else if (qualifier =? 0x5A) || (qualifier =? 0x7A) then u32 v
        else if qualifier =? 0x74 then u64 (s32 v)
        else if qualifier =? 0x68 then if signed then u64 (s16 v) else u16 v
        else if signed then u64 (s32 v) else u32 v, args).

(** [while (isalnum(fmt[1])) fmt++;], from the conversion character on. *)
Fixpoint skip_suffix (fmt : list Z) : list Z :=
  match fmt with
  | [] => []
  | c :: fmt' => if isalnum (cur fmt') then skip_suffix fmt' else fmt
  end.

(** One conversion, from its character on: the output, the rest of the format, the arguments left and
    what [%n] stores. *)
Definition convert (fmt : list Z) (args : list va) (str : Out) (flags field_width precision qualifier : Z)
  : res (Out * list Z * list va * list (Z * Z)) :=
  let c := cur fmt in
  let integer base flags :=
    let* (num, args) := get_num qualifier flags args in
    let* str := number str num base field_width precision flags in
    Ok (str, tail fmt, args, []) in
  if c =? 0x63 then
    let* (v, args) := va_int args in
    let n := Z.to_nat (field_width - 1) in
    let str := if tst flags LEFT then str else addchs n 0x20 str in
    let str := ADDCH str (u8 v) in
    let str := if tst flags LEFT then addchs n 0x20 str else str in
    Ok (str, tail fmt, args, [])
  else if c =? 0x73 then
    match args with
    | VStr s :: args => Ok (string_ str s field_width precision flags, tail fmt, args, [])
    | _ => Ub
    end
  else if c =? 0x70 then
    match args with
    | VPtr p bytes :: args =>
      let* str := pointer (tail fmt) str p bytes field_width precision flags in
      Ok (str, tail (skip_suffix fmt), args, [])
    | _ => Ub
    end
  else if c =? 0x6E then
    match args with
    | VPtr ip _ :: args => Ok (str, tail fmt, args, [(ip, position str)])
    | _ => Ub
    end
  else if c =? 0x25 then Ok (ADDCH str 0x25, tail fmt, args, [])
  else if c =? 0x6F then integer 8 flags
  else if c =? 0x78 then integer 16 (flags .| SMALL)
  else if c =? 0x58 then integer 16 flags
  else if (c =? 0x64) || (c =? 0x69) then integer 10 (flags .| SIGN)
  else if c =? 0x75 then integer 10 flags
  else
    let str := ADDCH str 0x25 in
    match fmt with
    | c :: fmt => Ok (ADDCH str c, fmt, args, [])
    | [] => Ok (str, [], args, [])
    end.

(** The loop over the format. *)
Fixpoint format_loop (n : nat) (fmt : list Z) (args : list va) (str : Out) : res (Out * list (Z * Z)) :=
  match n with
  | O => Hang
  | S n =>
    match fmt with
    | [] => Ok (str, [])
    | c :: fmt =>
      if negb (c =? 0x25) then format_loop n fmt args (ADDCH str c)
      else
        let '(flags, fmt) := flags_loop 0 fmt in
        let* (field_width, flags, fmt, args) := get_width flags fmt args in
        let* (precision, fmt, args) := get_precision fmt args in
        let '(qualifier, fmt) := get_qualifier fmt in
        let* (str, fmt, args, w) := convert fmt args str flags field_width precision qualifier in
        let* (str, ws) := format_loop n fmt args str in
        Ok (str, w ++ ws)
    end
  end.
End Output.

(** ** Memory

    The destination is memory from the address [buf] on.  What [%n] stores is kept apart, as the list
    of addresses and values. *)

Record out := Out { str : Z; mem : Z -> Z }.

Definition store (m : Z -> Z) (a v : Z) : Z -> Z := fun b => if b =? a then v else m b.

(** With [CONFIG_SYS_VSNPRINTF], and without. *)
Definition ADDCH_safe (end_ : Z) (o : out) (ch : Z) : out :=
  {| str := u32 (str o + 1); mem := if str o <? end_ then store (mem o) (str o) ch else mem o |}.
Definition ADDCH_fast (o : out) (ch : Z) : out :=
  {| str := u32 (str o + 1); mem := store (mem o) (str o) ch |}.

(** [str - buf] as an [int]. *)
Definition written (buf : Z) (o : out) : Z := s32 (str o - buf).

(** The result, the memory, and the stores of [%n]. *)
Definition vsnprintf_internal (buf size : Z) (fmt : list Z) (args : list va) (m : Z -> Z)
  : res (Z * (Z -> Z) * list (Z * Z)) :=
  let end_ := u32 (buf + size) in
  let '(end_, size) := if end_ <? buf then (0xFFFFFFFF, 0xFFFFFFFF - buf) else (end_, size) in
  let* (o, ws) := format_loop (ADDCH_safe end_) (written buf) (S (length fmt)) fmt args (Out buf m) in
  let o :=
    if 0 <? size then
      let o := ADDCH_safe end_ o 0 in
      let m := if end_ <? str o then store (mem o) (u32 (end_ - 1)) 0 else mem o in
      {| str := u32 (str o - 1); mem := m |}
    else o in
  Ok (written buf o, mem o, ws).

(** The same function without [CONFIG_SYS_VSNPRINTF]. *)
Definition vsnprintf_internal_fast (buf size : Z) (fmt : list Z) (args : list va) (m : Z -> Z)
  : res (Z * (Z -> Z) * list (Z * Z)) :=
  let* (o, ws) := format_loop ADDCH_fast (written buf) (S (length fmt)) fmt args (Out buf m) in
  Ok (written buf o, store (mem o) (str o) 0, ws).

Definition vsnprintf := vsnprintf_internal.

Definition vscnprintf (buf size : Z) (fmt : list Z) (args : list va) (m : Z -> Z)
  : res (Z * (Z -> Z) * list (Z * Z)) :=
  let* (i, m, ws) := vsnprintf buf size fmt args m in
  Ok (if u32 i <? size then i else if negb (size =? 0) then s32 (size - 1) else 0, m, ws).

Definition vsprintf (buf : Z) (fmt : list Z) (args : list va) (m : Z -> Z) := vsnprintf_internal buf 0x7FFFFFFF fmt args m.
Definition vsprintf_fast (buf : Z) (fmt : list Z) (args : list va) (m : Z -> Z) :=
  vsnprintf_internal_fast buf 0x7FFFFFFF fmt args m.

(** The variadic functions hand their arguments on. *)
Definition snprintf (buf size : Z) (fmt : list Z) (args : list va) (m : Z -> Z) := vsnprintf buf size fmt args m.
Definition scnprintf (buf size : Z) (fmt : list Z) (args : list va) (m : Z -> Z) := vscnprintf buf size fmt args m.
Definition sprintf (buf : Z) (fmt : list Z) (args : list va) (m : Z -> Z) := vsprintf buf fmt args m.

(** ** The text alone *)

Definition emit (text : list Z) (c : Z) : list Z := text ++ [c].

Definition text_of (fmt : list Z) (args : list va) : res (list Z * list (Z * Z)) :=
  format_loop emit (fun text => s32 (Z.of_nat (length text))) (S (length fmt)) fmt args [].

(** ** Other conversions to text *)

(** The [do] loop of [simple_itoa]: characters are put in front of the text. *)
Fixpoint itoa_loop (n : nat) (i : Z) (p : list Z) : res (list Z) :=
  match n with
  | O => Hang
  | S n =>
    let p := u8 (0x30 + i mod 10) :: p in
    let i := i / 10 in
    if 0 <? i then itoa_loop n i p else Ok p
  end.
(** A text that does not fit its buffer is undefined. *)
Definition simple_itoa (i : Z) : res (list Z) :=
  let* p := itoa_loop 22 i [] in
  if decide (length p <= 21)%nat then Ok p else Ub.

(** What the loop of [print_grouped_ull] prints, from a position of [str] on, with the character
    before it. *)
Fixpoint grouped_loop (n : nat) (prev : option Z) (s : list Z) : res (list Z) :=
  match n with
  | O => Hang
  | S n =>
    match s with
    | [] => Ok []
    | _ =>
      let sep := match prev with
                 | None => []
                 | Some c => [if negb (c =? 0x20) then 0x2C else 0x20]
                 end in
      let* (t, _) := text_of (cstr "%.*s") [VInt 3; VStr (Some s)] in
      if decide (length s < 3)%nat then Ub
      else
        let* rest := grouped_loop n (s !! 2%nat) (drop 3 s) in
        Ok (sep ++ t ++ rest)
    end
  end.
Definition print_grouped_ull (int_val digits : Z) : res (list Z) :=
  let digits := Z.quot (digits + 2) 3 in
  let* (str, _) := text_of (cstr "%*llu") [VInt (digits * 3); VLong int_val] in
  if decide (length str <= 20)%nat then grouped_loop 21 None str else Ub.
