(* ===== verification/VspProps.v ===== *)
(** * Properties of number conversion and formatting ([lib/vsprintf.c])

    - The decimal routines without division print every 64-bit number.
    - What the number printer writes, the number reader reads back.
    - The bounded version writes what the unbounded one would write, cut to the size of the buffer,
      and always a NUL; it changes nothing outside the buffer. *)
From S2P Require Import Prelude Ctype Div64 Vsprintf.

(** ** Two outputs in step

    The formatting functions use their output only through [ADDCH] and the position, so two outputs
    related by a relation that both respect stay related. *)

Inductive res_rel {A B} (R : A -> B -> Prop) : res A -> res B -> Prop :=
  | rel_ok a b : R a b -> res_rel R (Ok a) (Ok b)
  | rel_ub : res_rel R Ub Ub
  | rel_hang : res_rel R Hang Hang.

Lemma res_rel_bind {A B A' B'} (R : A -> B -> Prop) (R' : A' -> B' -> Prop) m m' f f' :
  res_rel R m m' -> (forall a b, R a b -> res_rel R' (f a) (f' b)) ->
  res_rel R' (res_bind m f) (res_bind m' f').
Proof. intros [a b H| |] Hf; simpl; [by apply Hf|constructor..]. Qed.

Lemma res_rel_same {A A' B'} (R' : A' -> B' -> Prop) (m : res A) f f' :
  (forall a, res_rel R' (f a) (f' a)) -> res_rel R' (res_bind m f) (res_bind m f').
Proof. intros Hf. destruct m; simpl; [by apply Hf|constructor..]. Qed.

(** The conditions of the goal. *)
Ltac same_branches :=
  repeat match goal with
  | |- context [if ?c then _ else _] => destruct c; cbv beta iota zeta
  end.

Section Simulation.
Context {O1 O2 : Type} (add1 : O1 -> Z -> O1) (add2 : O2 -> Z -> O2) (pos1 : O1 -> Z) (pos2 : O2 -> Z).
Context (R : O1 -> O2 -> Prop).
Hypothesis R_add : forall a b c, R a b -> R (add1 a c) (add2 b c).
Hypothesis R_pos : forall a b, R a b -> pos1 a = pos2 b.

Lemma addchs_sim n c : forall a b, R a b -> R (addchs add1 n c a) (addchs add2 n c b).
Proof using R_add. induction n as [|n IH]; intros a b H; simpl; [done|]. by apply IH, R_add. Qed.

Lemma foldl_sim l : forall a b, R a b -> R (foldl add1 a l) (foldl add2 b l).
Proof using R_add. induction l as [|c l IH]; intros a b H; simpl; [done|]. by apply IH, R_add. Qed.

Create HintDb sim.
Hint Resolve R_add addchs_sim foldl_sim : sim.

Lemma number_sim a b num base size precision type :
  R a b -> res_rel R (number add1 a num base size precision type) (number add2 b num base size precision type).
Proof using R_add.
  intros H. unfold number, pad.
  destruct (if tst _ SIGN then _ else _) as [[sign num'] size']. cbv beta iota zeta.
  destruct (_ && (num' =? _)); [constructor|]. apply res_rel_same. intros tmp.
  same_branches; constructor; auto 12 with sim.
Qed.
Hint Resolve number_sim : sim.

Lemma string_sim a b s field_width precision flags :
  R a b -> R (string_ add1 a s field_width precision flags) (string_ add2 b s field_width precision flags).
Proof using R_add. intros H. unfold string_, widen. cbv zeta. same_branches; simpl; auto with sim. Qed.
Hint Resolve string_sim : sim.

Lemma pointer_sim fmt a b p bytes field_width precision flags :
  R a b -> res_rel R (pointer add1 fmt a p bytes field_width precision flags)
                     (pointer add2 fmt b p bytes field_width precision flags).
Proof using R_add.
  intros H. unfold pointer, mac_address_string, ip6_addr_string, ip4_addr_string. cbv zeta.
  same_branches; try constructor; auto with sim.
Qed.

(** The results of a conversion: related outputs, the rest equal. *)
Definition step_rel (x : O1 * list Z * list va * list (Z * Z)) (y : O2 * list Z * list va * list (Z * Z)) : Prop :=
  R x.1.1.1 y.1.1.1 /\ x.1.1.2 = y.1.1.2 /\ x.1.2 = y.1.2 /\ x.2 = y.2.

Lemma convert_sim fmt args a b flags field_width precision qualifier :
  R a b -> res_rel step_rel (convert add1 pos1 fmt args a flags field_width precision qualifier)
                            (convert add2 pos2 fmt args b flags field_width precision qualifier).
Proof using R_add R_pos.
  intros H. unfold convert. cbv zeta.
  repeat match goal with
  | |- res_rel _ (if ?c then _ else _) _ => destruct c
  | |- res_rel _ (match ?l with [] => _ | _ => _ end) _ => destruct l
  | |- res_rel _ (match ?v with VInt _ => _ | _ => _ end) _ => destruct v
  | |- res_rel _ (res_bind (va_int _) _) _ => apply res_rel_same; intros []
  | |- res_rel _ (res_bind (get_num _ _ _) _) _ => apply res_rel_same; intros []
  | |- res_rel _ (res_bind (number _ _ _ _ _ _ _) _) _ =>
      eapply res_rel_bind; [by apply number_sim|intros ???]
  | |- res_rel _ (res_bind (pointer _ _ _ _ _ _ _ _) _) _ =>
      eapply res_rel_bind; [by apply pointer_sim|intros ???]
  end; constructor; unfold step_rel; cbn [fst snd]; split_and!; auto 6 with sim.
  - destruct (tst flags LEFT); auto 6 with sim.
  - by rewrite (R_pos _ _ H).
Qed.

Definition end_rel (x : O1 * list (Z * Z)) (y : O2 * list (Z * Z)) : Prop := R x.1 y.1 /\ x.2 = y.2.

Lemma format_loop_sim n : forall fmt args a b,
  R a b -> res_rel end_rel (format_loop add1 pos1 n fmt args a) (format_loop add2 pos2 n fmt args b).
Proof using R_add R_pos.
  induction n as [|n IH]; intros fmt args a b H; cbn [format_loop]; [constructor|].
  destruct fmt as [|c fmt]; [by constructor|]. destruct (negb _); [auto with sim|].
  destruct (flags_loop 0 fmt) as [flags fmt1].
  apply res_rel_same. intros [[[w flags'] fmt2] args2]. apply res_rel_same. intros [[p fmt3] args3].
  destruct (get_qualifier fmt3) as [q fmt4].
  eapply res_rel_bind; [by apply convert_sim|].
  intros [[[a' ?] ?] ?] [[[b' f5] as5] ws] (Hab & E1 & E2 & E3). cbn [fst snd] in *. subst.
  eapply res_rel_bind; [by apply IH|].
  intros [a2 ws1] [b2 ws2] [? E]. cbn [fst snd] in *. subst. by constructor.
Qed.
End Simulation.

(** ** The fuel of the loops is enough

    Every round of the loop over the format consumes a character, and a 64-bit number has at most 22
    octal digits and four groups of five decimal digits. *)

(** The call does not run out of fuel, and what it returns satisfies [Q]. *)
Definition ends {A} (m : res A) (Q : A -> Prop) : Prop :=
  match m with Ok a => Q a | Hang => False | Ub => True end.

Lemma ends_bind {A B} (m : res A) (f : A -> res B) P Q :
  ends m P -> (forall a, P a -> ends (f a) Q) -> ends (res_bind m f) Q.
Proof. destruct m; simpl; auto. Qed.

Lemma ends_weaken {A} (m : res A) (P Q : A -> Prop) : ends m P -> (forall a, P a -> Q a) -> ends m Q.
Proof. destruct m; simpl; auto. Qed.

Lemma tail_length {A} (l : list A) : (length (tail l) <= length l)%nat.
Proof. destruct l; simpl; lia. Qed.

Lemma flags_loop_length fmt : forall flags, (length (flags_loop flags fmt).2 <= length fmt)%nat.
Proof.
  induction fmt as [|c fmt IH]; intros flags; simpl; [lia|].
  repeat case_if; simpl; try lia; (etrans; [apply IH|lia]).
Qed.

Lemma skip_atoi_ends s : forall i, ends (skip_atoi i s) (fun r => (length r.2 <= length s)%nat).
Proof.
  induction s as [|c s IH]; intros i; simpl; [lia|]. repeat case_if; simpl; try lia.
  eapply ends_weaken; [apply IH|]. simpl. lia.
Qed.

Lemma va_int_ends args : ends (va_int args) (fun _ => True).
Proof. by destruct args as [|[]]. Qed.

Lemma get_width_ends flags fmt args :
  ends (get_width flags fmt args) (fun r => (length r.1.2 <= length fmt)%nat).
Proof.
  unfold get_width. pose proof (tail_length fmt). repeat case_if; simpl; [|eapply ends_bind; [apply va_int_ends|]|lia].
  - eapply ends_bind; [apply skip_atoi_ends|]. by intros [].
  - intros [w args'] _. cbv zeta. repeat case_if; simpl; lia || done.
Qed.

Lemma get_precision_ends fmt args :
  ends (get_precision fmt args) (fun r => (length r.1.2 <= length fmt)%nat).
Proof.
  unfold get_precision. pose proof (tail_length fmt). pose proof (tail_length (tail fmt)). case_if; [|simpl; lia].
  eapply (ends_bind _ _ (fun r => (length r.1.2 <= length fmt)%nat)); [|by intros [[] ]].
  repeat case_if; [..|simpl; lia].
  - eapply ends_bind; [apply skip_atoi_ends|]. intros []; simpl. lia.
  - eapply ends_bind; [apply va_int_ends|]. intros []; simpl. lia.
Qed.

Lemma get_qualifier_length fmt : (length (get_qualifier fmt).2 <= length fmt)%nat.
Proof.
  unfold get_qualifier. pose proof (tail_length fmt). pose proof (tail_length (tail fmt)).
  repeat case_if; simpl; lia.
Qed.

Lemma skip_suffix_length fmt : (length (skip_suffix fmt) <= length fmt)%nat.
Proof. induction fmt as [|c fmt IH]; simpl; [lia|]. case_if; simpl; lia. Qed.

(** ** Digits *)

(** The number with the given digits, least significant first. *)
Fixpoint le_val (base : Z) (ds : list Z) : Z :=
  match ds with [] => 0 | d :: ds => d + base * le_val base ds end.

(** A digit as [number] writes it. *)
Definition digit_char (locase d : Z) : Z := nth (Z.to_nat d) upper_digits 0 .| locase.

(** [ds] are the digits of [num], without leading zeros. *)
Definition digits_of (base num : Z) (ds : list Z) : Prop :=
  Forall (fun d => 0 <= d < base) ds /\ le_val base ds = num /\ (exists d, last ds = Some d /\ (d <> 0 \/ ds = [0])).

Lemma le_val_app base ds1 ds2 : le_val base (ds1 ++ ds2) = le_val base ds1 + base ^ Z.of_nat (length ds1) * le_val base ds2.
Proof.
  induction ds1 as [|d ds1 IH]; cbn [le_val app length]; [simpl; lia|].
  rewrite IH, Nat2Z.inj_succ, Z.pow_succ_r by lia. lia.
Qed.

Lemma tenth x : 0 <= x < 512 -> u32 (x * 0xcd) .>> 11 = x / 10.
Proof.
  intros Hx. rewrite wrap_small by lia. rewrite Z.shiftr_div_pow2 by lia. change (2 ^ 11) with 2048.
  Z.div_mod_to_equations. lia.
Qed.
Lemma tenth' x : 0 <= x < 69 -> u32 (x * 0xd) .>> 7 = x / 10.
Proof.
  intros Hx. rewrite wrap_small by lia. rewrite Z.shiftr_div_pow2 by lia. change (2 ^ 7) with 128.
  Z.div_mod_to_equations. lia.
Qed.
Lemma tenth_rem x : 0 <= x < 512 -> u32 (x - 10 * (x / 10)) = x mod 10.
Proof. intros Hx. rewrite wrap_small; Z.div_mod_to_equations; lia. Qed.
Lemma char_small d : 0 <= d < 16 -> u8 (d + 0x30) = 0x30 + d.
Proof. intros Hd. rewrite wrap_small; lia. Qed.

(** The nibbles of a number, and the digit sums the two routines compute from them. *)
Lemma nibbles q : 0 <= q < 100000 ->
  let d0 := q .& 0xf in let d1 := (q .>> 4) .& 0xf in let d2 := (q .>> 8) .& 0xf in let d3 := q .>> 12 in
  0 <= d0 < 16 /\ 0 <= d1 < 16 /\ 0 <= d2 < 16 /\ 0 <= d3 < 25 /\ q = d0 + 16 * d1 + 256 * d2 + 4096 * d3.
Proof.
  intros Hq. change 0xf with (Z.ones 4). rewrite !Z.land_ones, !Z.shiftr_div_pow2 by lia.
  change (2 ^ 4) with 16. change (2 ^ 8) with 256. change (2 ^ 12) with 4096.
  Z.div_mod_to_equations. lia.
Qed.

Section Decimal.
Context (q : Z) (Hq : 0 <= q < 100000).
Let d0 := q .& 0xf.
Let d1 := (q .>> 4) .& 0xf.
Let d2 := (q .>> 8) .& 0xf.
Let d3 := q .>> 12.
Let a0 := 6 * (d3 + d2 + d1) + d0.
Let a1 := a0 / 10 + 9 * d3 + 5 * d2 + d1.
Let a2 := a1 / 10 + 2 * d2.
Let a3 := a2 / 10 + 4 * d3.

Lemma sums : 0 <= a0 < 512 /\ 0 <= a1 < 512 /\ 0 <= a2 < 69 /\ 0 <= a3 < 100 /\ 0 <= d2 /\ 0 <= d3 /\
  q = a0 mod 10 + 10 * (a1 mod 10) + 100 * (a2 mod 10) + 1000 * a3.
Proof using Hq.
  pose proof (nibbles q Hq) as H. cbv zeta in H. fold d0 d1 d2 d3 in H. destruct H as (? & ? & ? & ? & E).
  clearbody d0 d1 d2 d3. subst a0. assert (0 <= 6 * (d3 + d2 + d1) + d0 < 340) by lia.
  subst a1 a2 a3. Z.div_mod_to_equations. lia.
Qed.

Lemma put_dec_full_eq :
  put_dec_full q = map (Z.add 0x30) [a0 mod 10; a1 mod 10; a2 mod 10; a3 mod 10; a3 / 10].
Proof using Hq.
  pose proof sums as (? & ? & ? & ? & ? & ? & _). unfold put_dec_full. fold d0 d1 d2 d3.
  rewrite (wrap_small 32 (6 * _ + _)) by (fold a0; lia). fold a0. rewrite tenth, tenth_rem by lia.
  rewrite (wrap_small 32 (a0 / 10 + _ + _ + _)) by (fold a1; lia). fold a1. rewrite tenth, tenth_rem by lia.
  rewrite (wrap_small 32 (a1 / 10 + _)) by (fold a2; lia). fold a2. rewrite tenth', tenth_rem by lia.
  rewrite (wrap_small 32 (a2 / 10 + _)) by (fold a3; lia). fold a3. rewrite tenth, tenth_rem by lia.
  rewrite !char_small by (Z.div_mod_to_equations; lia). done.
Qed.

Lemma put_dec_trunc_eq :
  put_dec_trunc q = map (Z.add 0x30)
    (a0 mod 10 :: if negb (a1 =? 0) then
       a1 mod 10 :: if negb (a2 =? 0) || negb (d3 =? 0) then
         a2 mod 10 :: if negb (a3 =? 0) then
           a3 mod 10 :: if negb (a3 / 10 =? 0) then [a3 / 10] else []
         else [] else [] else []).
Proof using Hq.
  pose proof sums as (? & ? & ? & ? & ? & ? & _). unfold put_dec_trunc. fold d0 d1 d2 d3.
  rewrite (wrap_small 32 (6 * _ + _)) by (fold a0; lia). fold a0. rewrite tenth, tenth_rem by lia.
  rewrite (wrap_small 32 (a0 / 10 + _ + _ + _)) by (fold a1; lia). fold a1. rewrite tenth, tenth_rem by lia.
  rewrite (wrap_small 32 (a1 / 10 + _)) by (fold a2; lia). fold a2. rewrite tenth', tenth_rem by lia.
  rewrite (wrap_small 32 (a2 / 10 + _)) by (fold a3; lia). fold a3. rewrite tenth, tenth_rem by lia.
  rewrite !char_small by (Z.div_mod_to_equations; lia). repeat case_if; done.
Qed.
End Decimal.

Lemma put_dec_full_ok q : 0 <= q < 100000 ->
  exists ds, put_dec_full q = map (Z.add 0x30) ds /\ length ds = 5%nat /\
    Forall (fun d => 0 <= d < 10) ds /\ le_val 10 ds = q.
Proof.
  intros Hq. rewrite put_dec_full_eq by done. eexists. split; [done|]. split; [done|].
  pose proof (sums q Hq) as (_ & _ & _ & H3 & _ & _ & E).
  split; [|cbn [le_val]; Z.div_mod_to_equations; lia].
  repeat constructor; try (apply Z.mod_pos_bound; lia); Z.div_mod_to_equations; lia.
Qed.

Lemma put_dec_trunc_ok q : 0 <= q < 100000 ->
  exists ds, put_dec_trunc q = map (Z.add 0x30) ds /\ (length ds <= 5)%nat /\ digits_of 10 q ds.
Proof.
  intros Hq. rewrite put_dec_trunc_eq by done. eexists. split; [done|].
  pose proof (sums q Hq) as (H0 & H1 & H2 & H3 & Hd2 & Hd3 & E).
  match goal with |- context [?a :: _] => match a with ?x mod 10 => set (a0 := x) in * end end.
  set (a1 := a0 / 10 + _ + _ + _) in *. set (a2 := a1 / 10 + _) in *. set (a3 := a2 / 10 + _) in *.
  pose proof (nibbles q Hq) as (_ & Hd1 & _). cbv zeta in Hd1.
  assert (a1 = 0 -> a2 = 0 /\ a3 = 0) by (intros; subst a3 a2 a1; clearbody a0; Z.div_mod_to_equations; lia).
  assert (a2 = 0 -> a3 = 4 * (q .>> 12)) by (intros; subst a3; clearbody a2; Z.div_mod_to_equations; lia).
  assert (a2 = 0 -> a1 < 10) by (intros; subst a3 a2; clearbody a1; Z.div_mod_to_equations; lia).
  assert (a3 = 0 -> a2 < 10 /\ q .>> 12 = 0) by (intros; subst a3; clearbody a2; Z.div_mod_to_equations; lia).
  clearbody a0 a1 a2 a3. clear Hd1 Hd2. unfold digits_of.
  pose proof (Z.mod_pos_bound a0 10). pose proof (Z.mod_pos_bound a1 10).
  pose proof (Z.mod_pos_bound a2 10). pose proof (Z.mod_pos_bound a3 10). pose proof (Z.div_mod a3 10).
  assert (0 <= a3 / 10 < 10) by (Z.div_mod_to_equations; lia).
  destruct (Z.eqb_spec a1 0); simpl negb; cbv iota.
  { split; [simpl; lia|]. split; [repeat constructor; lia|]. split; [cbn [le_val]; Z.div_mod_to_equations; lia|].
    eexists. split; [done|]. destruct (Z.eq_dec (a0 mod 10) 0) as [->|]; auto. }
  destruct (Z.eqb_spec a2 0), (Z.eqb_spec (q .>> 12) 0); simpl negb; cbv iota; simpl orb; cbv iota;
    try (destruct (Z.eqb_spec a3 0); simpl negb; cbv iota);
    try (destruct (Z.eqb_spec (a3 / 10) 0); simpl negb; cbv iota);
    (split; [simpl; lia|]); (split; [repeat constructor; lia|]);
    (split; [cbn [le_val]; Z.div_mod_to_equations; lia|]);
    (eexists; split; [reflexivity|left; try rewrite Z.mod_small; lia]).
Qed.

Lemma digits_of_app base num lo hi :
  0 < base -> Forall (fun d => 0 <= d < base) lo -> 0 < num -> digits_of base num hi ->
  digits_of base (le_val base lo + base ^ Z.of_nat (length lo) * num) (lo ++ hi).
Proof.
  intros Hb Hlo Hn (Hhi & E & d & Hl & Hd). split; [by apply Forall_app|].
  split; [by rewrite le_val_app, E|]. exists d. rewrite last_app, Hl. split; [done|].
  destruct Hd as [|Hz]; [by left|]. subst hi. simpl in E. lia.
Qed.

Lemma put_dec_ok n : forall num, 0 <= num < 2 ^ 64 -> num < 100000 ^ Z.of_nat n -> (0 < n)%nat ->
  exists ds, put_dec n num = Ok (map (Z.add 0x30) ds) /\ (length ds <= 5 * n)%nat /\ digits_of 10 num ds.
Proof.
  induction n as [|n IH]; intros num Hn Hb Hpos; [lia|]. cbn [put_dec].
  destruct (Z.ltb_spec num 100000) as [|Hge].
  { destruct (put_dec_trunc_ok num) as (ds & -> & ? & ?); [lia|]. exists ds. split; [done|]. split; [lia|done]. }
  destruct (div64_ok num 100000) as [_ ->]; [lia..|]. cbn [res_bind].
  rewrite Nat2Z.inj_succ, Z.pow_succ_r in Hb by lia.
  assert (0 < num / 100000) by (apply Z.div_str_pos; lia).
  destruct n as [|n']; [simpl in Hb; lia|]. set (n := S n') in *.
  destruct (IH (num / 100000)) as (hi & -> & Hlen & Hhi); [Z.div_mod_to_equations; lia|apply Z.div_lt_upper_bound; lia|lia|].
  destruct (put_dec_full_ok (num mod 100000)) as (lo & -> & Hl & Hlo & E); [apply Z.mod_pos_bound; lia|].
  cbn [res_bind]. exists (lo ++ hi). rewrite map_app, length_app. split; [done|]. split; [lia|].
  replace num with (le_val 10 lo + 10 ^ Z.of_nat (length lo) * (num / 100000)).
  { by apply digits_of_app. }
  rewrite E, Hl. change (10 ^ Z.of_nat 5) with 100000. Z.div_mod_to_equations; lia.
Qed.

Lemma pow2_digits_ok s locase n : forall num, 0 < s <= 8 -> 0 < num -> num < 2 ^ (s * Z.of_nat n) ->
  exists ds, pow2_digits n num (2 ^ s - 1) s locase = Ok (map (digit_char locase) ds) /\ (length ds <= n)%nat /\
    digits_of (2 ^ s) num ds.
Proof.
  induction n as [|n IH]; intros num Hs Hpos Hb.
  { rewrite Z.mul_0_r in Hb. simpl in Hb. lia. }
  cbn [pow2_digits]. assert (0 < 2 ^ s) by lia.
  assert (u8 num .& (2 ^ s - 1) = num mod 2 ^ s) as ->.
  { replace (2 ^ s - 1) with (Z.ones s) by (rewrite Z.ones_equiv; lia). rewrite Z.land_ones by lia.
    unfold wrap. replace (2 ^ 8) with (2 ^ s * 2 ^ (8 - s)) by (rewrite <- Z.pow_add_r by lia; f_equal; lia).
    rewrite Z.rem_mul_r by lia. rewrite (Z.mul_comm (2 ^ s) (_ mod _)), Z.mod_add, Z.mod_mod by lia. done. }
  rewrite Z.shiftr_div_pow2 by lia. set (r := num mod 2 ^ s).
  assert (0 <= r < 2 ^ s) by (apply Z.mod_pos_bound; lia).
  assert (num = r + 2 ^ s * (num / 2 ^ s)) as En by (subst r; rewrite (Z.div_mod num (2 ^ s)) at 1; lia).
  assert (0 <= num / 2 ^ s) by (apply Z.div_pos; lia).
  destruct (Z.eqb_spec (num / 2 ^ s) 0) as [Ez|Hnz]; cbn [negb].
  { exists [r]. split; [done|]. split; [simpl; lia|]. rewrite Ez in En.
    split; [by constructor|]. split; [simpl; lia|]. exists r. split; [done|]. left. lia. }
  destruct (IH (num / 2 ^ s)) as (hi & -> & Hlen & Hhi); [done|lia| |].
  { apply Z.div_lt_upper_bound; [lia|]. rewrite <- Z.pow_add_r by lia.
    replace (s + s * Z.of_nat n) with (s * Z.of_nat (S n)) by lia. done. }
  exists (r :: hi). split; [done|]. split; [simpl; lia|].
  rewrite En. replace (r + 2 ^ s * (num / 2 ^ s)) with (le_val (2 ^ s) [r] + (2 ^ s) ^ Z.of_nat (length [r]) * (num / 2 ^ s)).
  2: { cbn [le_val length]. rewrite Z.pow_1_r. lia. }
  apply (digits_of_app _ _ [r]); [lia|by constructor|lia|done].
Qed.

Lemma digit_char_dec locase d : locase = 0 \/ locase = SMALL -> 0 <= d < 10 -> digit_char locase d = 0x30 + d.
Proof.
  intros Hl Hd. assert (d = 0 \/ d = 1 \/ d = 2 \/ d = 3 \/ d = 4 \/ d = 5 \/ d = 6 \/ d = 7 \/ d = 8 \/ d = 9) as Hc by lia.
  destruct Hl; subst; repeat destruct Hc as [->|Hc]; try subst; reflexivity.
Qed.

(** The printed digits, for the three bases. *)
Lemma reversed_digits_ok num base locase :
  0 <= num < 2 ^ 64 -> base = 8 \/ base = 10 \/ base = 16 -> locase = 0 \/ locase = SMALL ->
  exists ds, reversed_digits num base locase = Ok (map (digit_char locase) ds) /\ (length ds <= 66)%nat /\
    digits_of base num ds.
Proof.
  intros Hn Hbase Hl. unfold reversed_digits. destruct (Z.eqb_spec num 0) as [->|Hz].
  { exists [0]. destruct Hl; subst; (split; [done|]); (split; [simpl; lia|]);
      (split; [repeat constructor; lia|]); (split; [simpl; lia|]); exists 0; auto. }
  destruct Hbase as [-> | [-> | ->]]; simpl (negb (_ =? 10)); cbv iota.
  - destruct (pow2_digits_ok 3 locase 65 num) as (ds & E & ? & ?); [lia..|]. exists ds. split; [done|]. split; [lia|done].
  - destruct (put_dec_ok 5 num) as (ds & -> & Hlen & Hds); [lia..|]. exists ds.
    split; [|split; [lia|done]]. f_equal. apply map_ext_Forall.
    destruct Hds as [HF _]. eapply Forall_impl; [exact HF|]. simpl. intros d Hd. by rewrite digit_char_dec.
  - destruct (pow2_digits_ok 4 locase 65 num) as (ds & E & ? & ?); [lia..|]. exists ds. split; [done|]. split; [lia|done].
Qed.

Lemma locase_cases type : type .& SMALL = 0 \/ type .& SMALL = SMALL.
Proof.
  destruct (Z.testbit type 5) eqn:E; [right|left]; apply Z.bits_inj'; intros i Hi; unfold SMALL; push_testbit;
    change 32 with (2 ^ 5); rewrite ?Z.bits_0, !Z.pow2_bits_eqb by lia;
    destruct (Z.eqb_spec 5 i) as [<-|]; rewrite ?E, ?andb_false_r; done.
Qed.

(** The number whose digits [number] prints. *)
Lemma number_ends {Out} (add : Out -> Z -> Out) buf num base size precision type :
  0 <= num < 2 ^ 64 -> base = 8 \/ base = 10 \/ base = 16 ->
  ends (number add buf num base size precision type) (fun _ => True).
Proof.
  intros Hn Hb. unfold number, pad.
  destruct (if tst _ SIGN then _ else _) as [[sign num'] size'] eqn:E.
  assert (0 <= num' < 2 ^ 64).
  { pose proof (wrap_range 64 (- s64 num)). revert E. same_branches; intros; simplify_eq; lia. }
  case_if; [done|]. destruct (reversed_digits_ok num' base (type .& SMALL)) as (ds & -> & _);
    [done..|apply locase_cases|]. cbn [res_bind].
  same_branches; done.
Qed.

Lemma pointer_ends {Out} (add : Out -> Z -> Out) fmt buf p bytes field_width precision flags :
  ends (pointer add fmt buf p bytes field_width precision flags) (fun _ => True).
Proof.
  pose proof (wrap_range 32 p). unfold pointer, mac_address_string, ip6_addr_string, ip4_addr_string.
  same_branches; try done; apply number_ends; lia.
Qed.

Lemma get_num_ends qualifier flags args : ends (get_num qualifier flags args) (fun r => 0 <= r.1 < 2 ^ 64).
Proof.
  unfold get_num. case_if.
  { destruct args as [|[]]; simpl; try done. apply wrap_range. lia. }
  eapply ends_bind; [apply va_int_ends|]. intros [v args'] _. simpl.
  pose proof (wrap_range 32 v). pose proof (wrap_range 16 v).
  repeat case_if; simpl; lia || (apply (wrap_range 64); lia).
Qed.

Lemma convert_ends {Out} (add : Out -> Z -> Out) pos fmt args buf flags field_width precision qualifier :
  ends (convert add pos fmt args buf flags field_width precision qualifier)
    (fun r => (length r.1.1.2 <= length fmt)%nat).
Proof.
  pose proof (tail_length fmt). pose proof (tail_length (skip_suffix fmt)). pose proof (skip_suffix_length fmt).
  assert (forall base flags', base = 8 \/ base = 10 \/ base = 16 ->
    ends (let* (num, args) := get_num qualifier flags' args in
          let* str := number add buf num base field_width precision flags' in
          Ok (str, tail fmt, args, [] : list (Z * Z)))
      (fun r => (length r.1.1.2 <= length fmt)%nat)) as Hint_.
  { intros base flags' Hb. eapply ends_bind; [apply get_num_ends|]. intros [num args'] Hn.
    eapply ends_bind; [by apply number_ends|]. simpl. lia. }
  unfold convert. cbv zeta.
  case_if; [eapply ends_bind; [apply va_int_ends|]; intros []; simpl; lia|].
  case_if; [destruct args as [|[]]; simpl; done || lia|].
  case_if; [destruct args as [|[]]; simpl; try done; eapply ends_bind; [apply pointer_ends|]; simpl; lia|].
  case_if; [destruct args as [|[]]; simpl; done || lia|].
  repeat (case_if; [solve [simpl; lia | apply Hint_; lia]|]).
  destruct fmt; simpl in *; lia.
Qed.

Lemma format_loop_ends {Out} (add : Out -> Z -> Out) pos n : forall fmt args buf,
  (length fmt < n)%nat -> ends (format_loop add pos n fmt args buf) (fun _ => True).
Proof.
  induction n as [|n IH]; intros fmt args buf Hn; [lia|]. cbn [format_loop].
  destruct fmt as [|c fmt]; [done|]. simpl in Hn. case_if; [apply IH; lia|].
  pose proof (flags_loop_length fmt 0). destruct (flags_loop 0 fmt) as [flags f1]. simpl in *.
  eapply ends_bind; [apply get_width_ends|]. intros [[[w flags'] f2] args2] ?. simpl in *.
  eapply ends_bind; [apply get_precision_ends|]. intros [[p f3] args3] ?. simpl in *.
  pose proof (get_qualifier_length f3). destruct (get_qualifier f3) as [q f4]. simpl in *.
  eapply ends_bind; [apply convert_ends|]. intros [[[b5 f5] as5] w5] ?. simpl in *.
  eapply ends_bind; [apply IH; lia|]. by intros [].
Qed.

(** ** The destination *)

(** [m'] is [m] with the bytes at [buf], and nothing else, replaced. *)
Definition stored_at (m m' : Z -> Z) (buf : Z) (bytes : list Z) : Prop :=
  forall a, m' a = if decide (buf <= a < buf + Z.of_nat (length bytes))
                   then nth (Z.to_nat (a - buf)) bytes 0 else m a.

Lemma stored_at_nil m buf : stored_at m m buf [].
Proof. intros a. simpl. rewrite decide_False by lia. done. Qed.

Lemma stored_at_store m m' buf bytes c :
  stored_at m m' buf bytes -> stored_at m (store m' (buf + Z.of_nat (length bytes)) c) buf (bytes ++ [c]).
Proof.
  intros H a. unfold store. rewrite (H a), length_app. simpl length.
  destruct (Z.eqb_spec a (buf + Z.of_nat (length bytes))) as [->|Hne].
  - rewrite decide_True by lia. replace (Z.to_nat _) with (length bytes) by lia.
    rewrite app_nth2 by lia. by rewrite Nat.sub_diag.
  - repeat case_decide; try lia; try done. by rewrite app_nth1 by lia.
Qed.

(** The last byte overwritten. *)
Lemma stored_at_last m m' buf bytes b c :
  stored_at m m' buf (bytes ++ [b]) -> stored_at m (store m' (buf + Z.of_nat (length bytes)) c) buf (bytes ++ [c]).
Proof.
  intros H a. unfold store. rewrite (H a), !length_app. simpl length.
  destruct (Z.eqb_spec a (buf + Z.of_nat (length bytes))) as [->|Hne].
  - rewrite decide_True by lia. replace (Z.to_nat _) with (length bytes) by lia.
    rewrite app_nth2 by lia. by rewrite Nat.sub_diag.
  - repeat case_decide; try lia; try done. by rewrite !app_nth1 by lia.
Qed.

Section Destination.
Context (buf : Z) (m : Z -> Z) (Hbuf : 0 <= buf < 2 ^ 32).

(** The pointer after the text, in both versions. *)
Lemma str_after (add : out -> Z -> out) t :
  (forall o c, str (add o c) = u32 (str o + 1)) ->
  str (foldl add (Out buf m) t) = u32 (buf + Z.of_nat (length t)).
Proof using Hbuf.
  intros Hadd. induction t as [|c t IH] using rev_ind; simpl.
  - by rewrite Z.add_0_r, wrap_small by lia.
  - rewrite foldl_app, length_app. simpl. rewrite Hadd, IH, wrap_add_l. f_equal. lia.
Qed.

Lemma written_after (add : out -> Z -> out) t :
  (forall o c, str (add o c) = u32 (str o + 1)) ->
  written buf (foldl add (Out buf m) t) = s32 (Z.of_nat (length t)).
Proof using Hbuf.
  intros Hadd. unfold written. rewrite str_after by done. unfold swrap, wrap.
  f_equal. rewrite <- Z.add_sub_swap. rewrite <- Z.add_opp_r, <- Z.add_assoc, Zplus_mod_idemp_l. f_equal. lia.
Qed.

(** What the formatter does to any output is what its text does to it. *)
Lemma format_text (add : out -> Z -> out) fmt args :
  (forall o c, str (add o c) = u32 (str o + 1)) ->
  res_rel (fun x y => x.1 = foldl add (Out buf m) y.1 /\ x.2 = y.2)
    (format_loop add (written buf) (S (length fmt)) fmt args (Out buf m)) (text_of fmt args).
Proof using Hbuf.
  intros Hadd.
  apply (format_loop_sim add emit (written buf) (fun t => s32 (Z.of_nat (length t)))
           (fun o t => o = foldl add (Out buf m) t)); [| |done].
  - intros a t c ->. unfold emit. by rewrite foldl_app.
  - intros a t ->. by apply written_after.
Qed.

Lemma safe_text end_ t :
  buf <= end_ -> buf + Z.of_nat (length t) < 2 ^ 32 ->
  stored_at m (mem (foldl (ADDCH_safe end_) (Out buf m) t)) buf (take (Z.to_nat (end_ - buf)) t).
Proof using Hbuf.
  intros He. induction t as [|c t IH] using rev_ind; intros Hlen; [rewrite take_nil; apply stored_at_nil|].
  rewrite length_app in Hlen. simpl in Hlen. rewrite foldl_app. cbn [foldl]. unfold ADDCH_safe at 1. cbn [mem].
  rewrite str_after by done. rewrite wrap_small by lia. specialize (IH ltac:(lia)).
  case_if.
  - rewrite !take_ge in * by (rewrite ?length_app; simpl; lia). by apply stored_at_store.
  - by rewrite take_app_le by lia.
Qed.

Lemma fast_text t :
  buf + Z.of_nat (length t) < 2 ^ 32 -> stored_at m (mem (foldl ADDCH_fast (Out buf m) t)) buf t.
Proof using Hbuf.
  induction t as [|c t IH] using rev_ind; intros Hlen; [apply stored_at_nil|].
  rewrite length_app in Hlen. simpl in Hlen. rewrite foldl_app. cbn [foldl]. unfold ADDCH_fast at 1. cbn [mem].
  rewrite str_after by done. rewrite wrap_small by lia. apply stored_at_store, IH. lia.
Qed.
End Destination.

(** The end of the buffer, when it is moved back from past the end of memory. *)
Lemma clipped_end buf size : 0 <= buf < 2 ^ 32 -> 0 <= size < 2 ^ 32 ->
  (if u32 (buf + size) <? buf then (0xFFFFFFFF, 0xFFFFFFFF - buf) else (u32 (buf + size), size)) =
  (buf + Z.min size (0xFFFFFFFF - buf), Z.min size (0xFFFFFFFF - buf)).
Proof.
  intros Hb Hs. unfold wrap. destruct (Z.lt_ge_cases (buf + size) (2 ^ 32)).
  - rewrite Z.mod_small by lia. case_if; [lia|]. f_equal; lia.
  - replace (buf + size) with (buf + size - 2 ^ 32 + 1 * 2 ^ 32) by lia.
    rewrite Z.mod_add, Z.mod_small by lia. case_if; [f_equal; lia|lia].
Qed.

Lemma vsnprintf_ok buf size fmt args m t ws :
  0 <= buf < 2 ^ 32 -> 0 <= size < 2 ^ 32 -> text_of fmt args = Ok (t, ws) ->
  buf + Z.of_nat (length t) + 1 < 2 ^ 32 -> Z.of_nat (length t) < 2 ^ 31 ->
  let cap := Z.min size (0xFFFFFFFF - buf) in
  exists m', vsnprintf buf size fmt args m = Ok (Z.of_nat (length t), m', ws) /\
    stored_at m m' buf (if 0 <? cap then take (Z.to_nat (cap - 1)) t ++ [0] else []).
Proof.
  intros Hb Hs Ht Hlen H31 cap. unfold vsnprintf, vsnprintf_internal. rewrite clipped_end by done. fold cap.
  pose proof (format_text buf m Hb (ADDCH_safe (buf + cap)) fmt args ltac:(done)) as Hf. rewrite Ht in Hf.
  destruct (format_loop _ _ _ _ _ _) as [[o ws']| |]; inversion Hf as [? ? [Eo Ew]| |]. cbn [fst snd] in *.
  subst ws'. cbn [res_bind]. cbv beta iota zeta. clear Hf.
  pose proof (str_after buf m Hb (ADDCH_safe (buf + cap)) t ltac:(done)) as Hstr. rewrite <- Eo in Hstr.
  rewrite wrap_small in Hstr by lia.
  pose proof (safe_text buf m Hb (buf + cap) t ltac:(lia) ltac:(lia)) as Hw. rewrite <- Eo in Hw.
  replace (buf + cap - buf) with cap in Hw by lia.
  destruct (Z.ltb_spec 0 cap) as [Hc|Hc].
  2: { eexists. split.
       - unfold written. rewrite Hstr, swrap_small by (simpl; lia). f_equal. f_equal. f_equal. lia.
       - replace (Z.to_nat cap) with 0%nat in Hw by lia. done. }
  unfold written, ADDCH_safe. cbn [str mem]. rewrite Hstr, (wrap_small 32 (_ + 1)) by lia.
  rewrite (wrap_small 32 (_ + 1 - 1)) by lia. rewrite swrap_small by (simpl; lia). eexists. split.
  { f_equal. f_equal. f_equal. lia. }
  rewrite (wrap_small 32 (buf + cap - 1)) by lia.
  destruct (Z.ltb_spec (buf + Z.of_nat (length t)) (buf + cap)), (Z.ltb_spec (buf + cap) (buf + Z.of_nat (length t) + 1)); try lia.
  - rewrite !take_ge in * by lia. by apply stored_at_store.
  - destruct (lookup_lt_is_Some_2 t (Z.to_nat (cap - 1))) as [c Hc']; [lia|].
    replace (Z.to_nat cap) with (S (Z.to_nat (cap - 1))) in Hw by lia. rewrite (take_S_r _ _ c) in Hw by done.
    replace (buf + cap - 1) with (buf + Z.of_nat (length (take (Z.to_nat (cap - 1)) t))) by (rewrite length_take; lia).
    eapply stored_at_last, Hw.
Qed.

Lemma vsnprintf_ub buf size fmt args m :
  0 <= buf < 2 ^ 32 -> text_of fmt args = Ub -> vsnprintf buf size fmt args m = Ub.
Proof.
  intros Hb Ht. unfold vsnprintf, vsnprintf_internal. destruct (if _ <? _ then _ else _) as [end_ size'].
  pose proof (format_text buf m Hb (ADDCH_safe end_) fmt args ltac:(done)) as Hf. rewrite Ht in Hf.
  destruct (format_loop _ _ _ _ _ _) as [[o ws']| |]; by inversion Hf.
Qed.

(** Without [CONFIG_SYS_VSNPRINTF] (this board), the whole text and a NUL are stored, whatever the size. *)
Lemma vsprintf_fast_ok buf fmt args m t ws :
  0 <= buf < 2 ^ 32 -> text_of fmt args = Ok (t, ws) ->
  buf + Z.of_nat (length t) + 1 < 2 ^ 32 -> Z.of_nat (length t) < 2 ^ 31 ->
  exists m', vsprintf_fast buf fmt args m = Ok (Z.of_nat (length t), m', ws) /\ stored_at m m' buf (t ++ [0]).
Proof.
  intros Hb Ht Hlen H31. unfold vsprintf_fast, vsnprintf_internal_fast.
  pose proof (format_text buf m Hb ADDCH_fast fmt args ltac:(done)) as Hf. rewrite Ht in Hf.
  destruct (format_loop _ _ _ _ _ _) as [[o ws']| |]; inversion Hf as [? ? [Eo Ew]| |]. cbn [fst snd] in *.
  subst ws' o. cbn [res_bind]. rewrite written_after, str_after, wrap_small, swrap_small by (done || simpl; lia).
  eexists. split; [done|]. apply stored_at_store, fast_text; done || lia.
Qed.

(** [vscnprintf] returns the number of characters stored before the NUL. *)
Lemma vscnprintf_ok buf size fmt args m t ws :
  0 <= buf -> 0 < size < 2 ^ 31 -> buf + size < 2 ^ 32 -> text_of fmt args = Ok (t, ws) ->
  buf + Z.of_nat (length t) + 1 < 2 ^ 32 -> Z.of_nat (length t) < 2 ^ 31 ->
  exists m', vscnprintf buf size fmt args m = Ok (Z.of_nat (length (take (Z.to_nat (size - 1)) t)), m', ws) /\
    stored_at m m' buf (take (Z.to_nat (size - 1)) t ++ [0]).
Proof.
  intros Hb Hs Hbs Ht Hlen H31. destruct (vsnprintf_ok buf size fmt args m t ws) as (m' & E & Hw); [lia..|done|lia|lia|].
  exists m'. unfold vscnprintf. rewrite E. cbn [res_bind].
  replace (Z.min size (0xFFFFFFFF - buf)) with size in Hw by lia.
  rewrite (proj2 (Z.ltb_lt 0 size)) in Hw by lia. split; [|done]. rewrite wrap_small, length_take by lia.
  repeat case_if; rewrite ?swrap_small by (simpl; lia); do 3 f_equal; lia.
Qed.

(** C30: the bounded formatter against the text alone.  For every format and argument list, producing the
    text ends within the fuel of the model; when the arguments do not fit the format, the bounded
    formatter has undefined behaviour too; otherwise [vsnprintf] returns the length of the whole text,
    and the bytes it changes are the text cut to the capacity minus one followed by a NUL (nothing at
    all when the capacity is zero).  The capacity is the size, or what is left of the 32-bit address
    space; the text is shorter than [2^31] and does not run the pointer over the end of memory. *)
Theorem vsnprintf_truncates buf size fmt args m :
  0 <= buf < 2 ^ 32 -> 0 <= size < 2 ^ 32 ->
  let cap := Z.min size (0xFFFFFFFF - buf) in
  match text_of fmt args with
  | Ok (t, ws) =>
    buf + Z.of_nat (length t) + 1 < 2 ^ 32 -> Z.of_nat (length t) < 2 ^ 31 ->
    exists m', vsnprintf buf size fmt args m = Ok (Z.of_nat (length t), m', ws) /\
      stored_at m m' buf (if 0 <? cap then take (Z.to_nat (cap - 1)) t ++ [0] else [])
  | Hang => False
  | Ub => vsnprintf buf size fmt args m = Ub
  end.
Proof.
  intros Hb Hs cap. pose proof (format_loop_ends emit (fun t => s32 (Z.of_nat (length t))) (S (length fmt)) fmt args []) as He.
  fold (text_of fmt args) in He. destruct (text_of fmt args) as [[t ws]| |] eqn:Ht.
  - intros Hlen H31. by apply vsnprintf_ok.
  - simpl in He. lia.
  - by apply vsnprintf_ub.
Qed.

Lemma vsnprintf_truncates_witness :
  exists m', vsnprintf 0x1000 4 (cstr "%d-%s") [VInt 42; VStr (Some (cstr "go"))] (fun _ => 0xFF) = Ok (5, m', []) /\
    stored_at (fun _ => 0xFF) m' 0x1000 (cstr "42-" ++ [0]).
Proof.
  pose proof (vsnprintf_truncates 0x1000 4 (cstr "%d-%s") [VInt 42; VStr (Some (cstr "go"))] (fun _ => 0xFF)
    ltac:(lia) ltac:(lia)) as H.
  assert (text_of (cstr "%d-%s") [VInt 42; VStr (Some (cstr "go"))] = Ok (cstr "42-go", [])) as Ht
    by (vm_compute; reflexivity).
  rewrite Ht in H. exact (H ltac:(vm_compute; reflexivity) ltac:(vm_compute; reflexivity)).
Defined.

(** ** Reading a printed number *)

(** What follows the number: no digit, and no [x] after a lone zero. *)
Definition stops (rest : list Z) : Prop := isxdigit (cur rest) = false /\ cur rest <> 0x78.

Lemma digit_cases (P : Z -> bool) : forallb P (seqZ 0 16) = true -> forall d, 0 <= d < 16 -> P d = true.
Proof. intros H d Hd. rewrite forallb_forall in H. apply H. apply list_elem_of_In, elem_of_seqZ. lia. Qed.

Lemma digit_char_read locase d : locase = 0 \/ locase = SMALL -> 0 <= d < 16 ->
  isxdigit (digit_char locase d) = true /\ digit_val (digit_char locase d) = d /\ digit_char locase d <> 0x78 /\
  (digit_char locase d = 0x30 -> d = 0) /\ digit_char locase d <> 0x2D.
Proof.
  intros Hl Hd.
  assert (bool_decide (isxdigit (digit_char locase d) = true /\ digit_val (digit_char locase d) = d /\
    digit_char locase d <> 0x78 /\ (digit_char locase d = 0x30 -> d = 0) /\ digit_char locase d <> 0x2D) = true) as H.
  { revert d Hd. apply digit_cases. destruct Hl; subst; vm_compute; reflexivity. }
  by apply bool_decide_eq_true in H.
Qed.

Lemma le_val_nonneg base ds : 0 < base -> Forall (fun d => 0 <= d < base) ds -> 0 <= le_val base ds.
Proof. intros Hb. induction 1 as [|d ds Hd _ IH]; cbn [le_val]; nia. Qed.

(** The reader is Horner's rule. *)
Lemma digits_loop_ok w base locase rest : 0 < base <= 16 -> locase = 0 \/ locase = SMALL -> isxdigit (cur rest) = false ->
  forall ds acc, Forall (fun d => 0 <= d < base) ds -> 0 <= acc ->
  acc * base ^ Z.of_nat (length ds) + le_val base (rev ds) < 2 ^ w ->
  digits_loop w base acc (map (digit_char locase) ds ++ rest) =
    (acc * base ^ Z.of_nat (length ds) + le_val base (rev ds), rest).
Proof.
  intros Hb Hl Hr. induction ds as [|d ds IH]; intros acc HF Hacc Hlt.
  { rewrite Z.pow_0_r in *. cbn [rev le_val map app length] in *. replace (acc * 1 + 0) with acc by lia.
    destruct rest as [|c rest]; [done|]. cbn [digits_loop]. change (cur (c :: rest)) with c in Hr. by rewrite Hr. }
  inversion HF as [|? ? Hd HF']; subst. cbn [map app digits_loop].
  destruct (digit_char_read locase d) as (-> & -> & _); [done|lia|].
  rewrite (proj2 (Z.ltb_lt _ _)) by lia. cbn [andb].
  cbn [rev length] in *. rewrite le_val_app, length_rev in *. cbn [le_val] in *. rewrite Z.mul_0_r, Z.add_0_r in *.
  rewrite Nat2Z.inj_succ, Z.pow_succ_r in * by lia.
  assert (acc * (base * base ^ Z.of_nat (length ds)) + (le_val base (rev ds) + base ^ Z.of_nat (length ds) * d) =
    (acc * base + d) * base ^ Z.of_nat (length ds) + le_val base (rev ds)) as E by lia. rewrite E in *.
  assert (0 <= le_val base (rev ds)) by (apply le_val_nonneg; [lia|by apply Forall_rev]).
  assert (0 < base ^ Z.of_nat (length ds)) by lia.
  assert (0 <= acc * base + d) by nia.
  rewrite wrap_small by nia. by apply IH.
Qed.

Lemma foldl_emit l : forall t, foldl emit t l = t ++ l.
Proof. induction l as [|c l IH]; intros t; simpl; [by rewrite app_nil_r|]. rewrite IH. unfold emit. by rewrite <- app_assoc. Qed.

Lemma pad_neg {Out} (add : Out -> Z -> Out) c size buf : size < 0 -> pad add c size buf = (buf, size - 1).
Proof. intros H. unfold pad. rewrite Z2Nat.nonpos by lia. simpl. by rewrite (proj2 (Z.leb_gt _ _)) by lia. Qed.

(** Decide the tests of constant flags. *)
Ltac const_flags :=
  repeat (match goal with
  | |- context [tst ?a ?b] => let v := eval vm_compute in (tst a b) in change (tst a b) with v
  | |- context [Z.pos ?a =? ?b] => let v := eval vm_compute in (Z.pos a =? b) in change (Z.pos a =? b) with v
  | |- context [0 =? 0] => change (0 =? 0) with true
  end; cbn [andb orb negb]; cbv beta iota).

(** The text of a number, without width and precision. *)
Lemma number_text num base type :
  0 <= num < 2 ^ 64 -> base = 8 \/ base = 10 \/ base = 16 -> In type [0; SMALL; SPECIAL; SPECIAL .| SMALL] ->
  exists ds, digits_of base num ds /\
    number emit [] num base (-1) (-1) type =
    Ok ((if tst type SPECIAL && negb (base =? 10) then 0x30 :: if base =? 16 then [0x58 .| (type .& SMALL)] else [] else [])
        ++ map (digit_char (type .& SMALL)) (rev ds)).
Proof.
  intros Hn Hb Ht. destruct (reversed_digits_ok num base (type .& SMALL)) as (ds & E & Hlen & Hds);
    [done..|apply locase_cases|]. exists ds. split; [done|]. unfold number.
  destruct Hb as [->|[->| ->]], Ht as [<-|[<-|[<-|[<-|[]]]]]; const_flags;
  (rewrite E; cbn [res_bind]; rewrite length_map;
   rewrite (proj2 (Z.gtb_gt _ (-1))) by lia; rewrite Z.sub_diag;
   repeat (rewrite pad_neg by lia; cbv beta iota zeta); rewrite (proj2 (Z.ltb_ge _ _)) by lia;
   rewrite foldl_emit, map_rev; reflexivity).
Qed.

Lemma number_signed v :
  -2 ^ 31 <= v < 2 ^ 31 ->
  exists ds, digits_of 10 (Z.abs v) ds /\
    number emit [] (u64 v) 10 (-1) (-1) SIGN = Ok ((if v <? 0 then [0x2D] else []) ++ map (digit_char 0) (rev ds)).
Proof.
  intros Hv. destruct (reversed_digits_ok (Z.abs v) 10 0) as (ds & E & Hlen & Hds); [lia|lia|lia|].
  exists ds. split; [done|]. unfold number. const_flags.
  change (SIGN .& SMALL) with 0.
  assert (s64 (u64 v) = v) as Es.
  { unfold swrap, wrap. rewrite Zplus_mod_idemp_l. rewrite Z.mod_small; [lia|simpl; lia]. }
  rewrite Es. destruct (Z.ltb_spec v 0).
  - rewrite (wrap_small 64 (- v)) by lia. replace (- v) with (Z.abs v) by lia.
    rewrite (proj2 (Z.eqb_neq _ _)) by lia. rewrite E. cbn [res_bind]. rewrite length_map.
    rewrite (proj2 (Z.gtb_gt _ (-1))) by lia. rewrite Z.sub_diag. const_flags.
    repeat (rewrite pad_neg by lia; cbv beta iota zeta). rewrite (proj2 (Z.ltb_ge _ _)) by lia.
    rewrite foldl_emit, map_rev. reflexivity.
  - rewrite (wrap_small 64 v) by lia. replace (reversed_digits v) with (reversed_digits (Z.abs v)) by (f_equal; lia).
    rewrite (proj2 (Z.eqb_neq _ _)) by lia. rewrite E. cbn [res_bind]. rewrite length_map.
    rewrite (proj2 (Z.gtb_gt _ (-1))) by lia. rewrite Z.sub_diag. const_flags.
    repeat (rewrite pad_neg by lia; cbv beta iota zeta). rewrite (proj2 (Z.ltb_ge _ _)) by lia.
    rewrite foldl_emit, map_rev. reflexivity.
Qed.

(** *** The reader on printed digits *)

Section Reading.
Context (w num base locase : Z) (ds rest : list Z).
Hypothesis (Hnum : 0 <= num < 2 ^ w) (Hlocase : locase = 0 \/ locase = SMALL).
Hypothesis (Hds : digits_of base num ds) (Hrest : stops rest).

Let chars := map (digit_char locase) (rev ds).

Lemma read_digits : 0 < base <= 16 -> digits_loop w base 0 (chars ++ rest) = (num, rest).
Proof using Hnum Hlocase Hds Hrest.
  destruct Hds as (HF & E & _). intros Hb. subst chars.
  rewrite digits_loop_ok; try done.
  - by rewrite rev_involutive, E, Z.mul_0_l.
  - by apply Hrest.
  - by apply Forall_rev.
  - rewrite rev_involutive, E. lia.
Qed.

(** The first character is the digit of the highest place. *)
Lemma first_char : 0 < base <= 16 ->
  exists d ds', chars = digit_char locase d :: ds' /\ 0 <= d < 16 /\ (d = 0 -> ds' = [] /\ num = 0).
Proof using Hnum Hlocase Hds.
  destruct Hds as (HF & E & d & Hl & Hd). intros Hb. apply last_Some in Hl as [lo El].
  exists d, (map (digit_char locase) (rev lo)). subst chars. subst ds. rewrite rev_app_distr.
  split; [done|]. apply Forall_app in HF as [_ HF]. inversion HF; subst. split; [lia|].
  intros ->. destruct Hd as [|Hd]; [done|]. destruct lo as [|? []]; simplify_eq. split; [done|]. simpl. lia.
Qed.

Lemma read_hex : base = 16 ->
  (let '(b, cp) := number_base (0x30 :: 0x78 :: chars ++ rest) 0 in digits_loop w b 0 cp) = (num, rest).
Proof using Hnum Hlocase Hds Hrest.
  intros Hb. destruct first_char as (d & ds' & E & Hd & _); [lia|].
  destruct (digit_char_read locase d) as (Hx & _); [done..|]. unfold number_base, cur.
  rewrite E. cbn -[isxdigit digit_char digits_loop]. rewrite Hx. cbn -[isxdigit digit_char digits_loop]. rewrite app_comm_cons, <- E, <- Hb. apply read_digits. lia.
Qed.

Lemma read_oct : base = 8 ->
  (let '(b, cp) := number_base (0x30 :: chars ++ rest) 0 in digits_loop w b 0 cp) = (num, rest).
Proof using Hnum Hlocase Hds Hrest.
  intros Hb. destruct first_char as (d & ds' & E & Hd & _); [lia|].
  destruct (digit_char_read locase d) as (_ & _ & Hx & _); [done..|]. unfold number_base, cur.
  rewrite E. cbn -[isxdigit digit_char digits_loop Z.eqb]. rewrite (proj2 (Z.eqb_neq _ _) Hx).
  cbn -[isxdigit digit_char digits_loop]. rewrite app_comm_cons, <- E, <- Hb. apply read_digits. lia.
Qed.

Lemma read_dec b0 : base = 10 -> b0 = 0 \/ b0 = 10 ->
  (let '(b, cp) := number_base (chars ++ rest) b0 in digits_loop w b 0 cp) = (num, rest).
Proof using Hnum Hlocase Hds Hrest.
  intros Hb Hb0. destruct first_char as (d & ds' & E & Hd & Hz); [lia|].
  destruct (digit_char_read locase d) as (_ & _ & _ & H0 & _); [done..|]. unfold number_base.
  rewrite E. cbn [app]. change (cur (digit_char locase d :: ds' ++ rest)) with (digit_char locase d).
  destruct (Z.eqb_spec (digit_char locase d) 0x30) as [Ed|].
  - destruct (Hz (H0 Ed)) as [-> ->]. cbn [tail app]. destruct Hrest as [Hr1 Hr2].
    rewrite (proj2 (Z.eqb_neq _ _) Hr2). destruct Hb0 as [->| ->]; cbn;
      (destruct rest as [|c r]; [done|]; cbn [digits_loop]; change (cur (c :: r)) with c in Hr1; by rewrite Hr1).
  - destruct Hb0 as [->| ->]; cbn -[isxdigit digit_char digits_loop]; rewrite app_comm_cons, <- E, <- Hb; apply read_digits; lia.
Qed.
End Reading.

(** A format that is one integer conversion. *)
Lemma text_single f args flags f1 q f2 (m : res (list Z)) :
  flags_loop 0 f = (flags, f1) -> get_width flags f1 args = Ok (-1, flags, f1, args) ->
  get_precision f1 args = Ok (-1, f1, args) -> get_qualifier f1 = (q, f2) ->
  convert emit (fun t => s32 (Z.of_nat (length t))) f2 args [] flags (-1) (-1) q = (let* t := m in Ok (t, [], [], [])) ->
  f <> [] -> text_of (0x25 :: f) args = let* t := m in Ok (t, []).
Proof.
  intros E1 E2 E3 E4 E5 Hf. unfold text_of. cbn [length format_loop]. change (negb (0x25 =? 0x25)) with false. cbv iota.
  rewrite E1, E2. cbn [res_bind]. rewrite E3. cbn [res_bind]. rewrite E4, E5. destruct f; [done|]. by destruct m.
Qed.

Ltac one_conversion := eapply text_single; [reflexivity..|lazy -[number wrap swrap emit]; reflexivity|done].

Lemma text_u v : text_of (cstr "%u") [VInt v] = let* t := number emit [] (u32 v) 10 (-1) (-1) 0 in Ok (t, []).
Proof. one_conversion. Qed.
Lemma text_x v : text_of (cstr "%#x") [VInt v] = let* t := number emit [] (u32 v) 16 (-1) (-1) (SPECIAL .| SMALL) in Ok (t, []).
Proof. one_conversion. Qed.
Lemma text_o v : text_of (cstr "%#o") [VInt v] = let* t := number emit [] (u32 v) 8 (-1) (-1) SPECIAL in Ok (t, []).
Proof. one_conversion. Qed.
Lemma text_d v : text_of (cstr "%d") [VInt v] = let* t := number emit [] (u64 (s32 v)) 10 (-1) (-1) SIGN in Ok (t, []).
Proof. one_conversion. Qed.
Lemma text_llu v : text_of (cstr "%llu") [VLong v] = let* t := number emit [] (u64 v) 10 (-1) (-1) 0 in Ok (t, []).
Proof. one_conversion. Qed.
Lemma text_llx v : text_of (cstr "%#llx") [VLong v] = let* t := number emit [] (u64 v) 16 (-1) (-1) (SPECIAL .| SMALL) in Ok (t, []).
Proof. one_conversion. Qed.
Lemma text_llo v : text_of (cstr "%#llo") [VLong v] = let* t := number emit [] (u64 v) 8 (-1) (-1) SPECIAL in Ok (t, []).
Proof. one_conversion. Qed.

(** The three unsigned conversions read back by either reader, whose width is [w]. *)
Lemma unsigned_read w num base type rest :
  0 <= num < 2 ^ w -> w <= 64 -> stops rest -> In (base, type) [(10, 0); (16, SPECIAL .| SMALL); (8, SPECIAL)] ->
  exists t, number emit [] num base (-1) (-1) type = Ok t /\
    (let '(b, cp) := number_base (t ++ rest) 0 in digits_loop w b 0 cp) = (num, rest).
Proof.
  intros Hn Hw Hr Hin. assert (0 <= w) by (destruct (Z.lt_ge_cases w 0); [rewrite Z.pow_neg_r in Hn|]; lia).
  assert (2 ^ w <= 2 ^ 64) by (apply Z.pow_le_mono_r; lia).
  destruct Hin as [[= <- <-]|[[= <- <-]|[[= <- <-]|[]]]]; match goal with |- context [number emit [] num ?b _ _ ?ty] =>
    destruct (number_text num b ty) as (ds & Hds & E) end; try lia; try (simpl; tauto);
    (eexists; split; [exact E|]).
  - apply (read_dec w num 10); auto.
  - apply (read_hex w num 16); auto.
  - apply (read_oct w num 8); auto.
Qed.

Lemma signed_read v rest :
  -2 ^ 31 <= v < 2 ^ 31 -> stops rest ->
  exists t, number emit [] (u64 v) 10 (-1) (-1) SIGN = Ok t /\ simple_strtol (t ++ rest) 0 = (v, rest).
Proof.
  intros Hv Hr. destruct (number_signed v Hv) as (ds & Hds & E). eexists. split; [exact E|].
  assert (simple_strtoul (map (digit_char 0) (rev ds) ++ rest) 0 = (Z.abs v, rest)) as Hread.
  { apply (read_dec 32 (Z.abs v) 10); auto. lia. }
  unfold simple_strtol. destruct (Z.ltb_spec v 0).
  - cbn [app]. change (cur (0x2D :: _)) with 0x2D. rewrite Z.eqb_refl. cbn [tail]. rewrite Hread. f_equal.
    unfold swrap, wrap. rewrite Zplus_mod_idemp_l. rewrite Z.mod_small; simpl; lia.
  - destruct (first_char 32 (Z.abs v) 10 0 ds) as (d & ds' & Ec & Hd & _); [lia|auto|done|lia|].
    destruct (digit_char_read 0 d) as (_ & _ & _ & _ & Hm); [auto|lia|]. cbn [app].
    assert (cur (map (digit_char 0) (rev ds) ++ rest) = digit_char 0 d) as -> by (by rewrite Ec).
    rewrite (proj2 (Z.eqb_neq _ _) Hm). rewrite Hread. f_equal. rewrite swrap_small by (simpl; lia). lia.
Qed.

(** C31: numbers survive printing and reading.  A 32-bit number printed with %u, %#x or %#o and read with
    [simple_strtoul] in base 0 gives the number back, and the reader stops exactly behind it; so do the
    64-bit conversions with [simple_strtoull], and %d with [simple_strtol].  The number may be followed
    by anything but a hexadecimal digit or an x. *)
Theorem print_then_read v rest : stops rest ->
  (0 <= v < 2 ^ 32 -> forall f, In f ["%u"%string; "%#x"%string; "%#o"%string] ->
     exists t, text_of (cstr f) [VInt v] = Ok (t, []) /\ simple_strtoul (t ++ rest) 0 = (v, rest)) /\
  (0 <= v < 2 ^ 64 -> forall f, In f ["%llu"%string; "%#llx"%string; "%#llo"%string] ->
     exists t, text_of (cstr f) [VLong v] = Ok (t, []) /\ simple_strtoull (t ++ rest) 0 = (v, rest)) /\
  (-2 ^ 31 <= v < 2 ^ 31 ->
     exists t, text_of (cstr "%d") [VInt (u32 v)] = Ok (t, []) /\ simple_strtol (t ++ rest) 0 = (v, rest)).
Proof.
  intros Hr. split_and!.
  - intros Hv f [<-|[<-|[<-|[]]]]; rewrite ?text_u, ?text_x, ?text_o, wrap_small by lia;
      match goal with |- context [number emit [] v ?b _ _ ?ty] =>
        destruct (unsigned_read 32 v b ty rest) as (t & -> & Ht) end; try lia; auto; try (simpl; tauto);
      by exists t.
  - intros Hv f [<-|[<-|[<-|[]]]]; rewrite ?text_llu, ?text_llx, ?text_llo, wrap_small by lia;
      match goal with |- context [number emit [] v ?b _ _ ?ty] =>
        destruct (unsigned_read 64 v b ty rest) as (t & -> & Ht) end; try lia; auto; try (simpl; tauto);
      by exists t.
  - intros Hv. rewrite text_d. assert (s32 (u32 v) = v) as ->.
    { unfold swrap, wrap. rewrite Zplus_mod_idemp_l. rewrite Z.mod_small; simpl; lia. }
    destruct (signed_read v rest) as (t & -> & Ht); [done..|]. by exists t.
Qed.

Lemma print_then_read_witness :
  exists t, text_of (cstr "%d") [VInt (u32 (-1234))] = Ok (t, []) /\ simple_strtol (t ++ cstr ",x") 0 = (-1234, cstr ",x").
Proof. apply (print_then_read (-1234) (cstr ",x")); [by split|lia]. Defined.

(** ** [simple_itoa] *)

Lemma digits_tail base num d ds :
  0 < base -> digits_of base num (d :: ds) -> d = num mod base /\ (ds = [] \/ digits_of base (num / base) ds).
Proof.
  intros Hb (HF & E & e & Hl & He). inversion HF as [|? ? Hd HF']; subst. cbn [le_val].
  rewrite (Z.mul_comm base), Z.mod_add, Z.div_add, Z.mod_small, (Z.div_small d) by lia. split; [done|].
  destruct ds as [|d' ds]; [by left|right]. split; [done|]. split; [done|]. exists e. split; [done|].
  destruct He as [|[=]]; by left.
Qed.

(** A number has one list of digits. *)
Lemma digits_unique base num ds1 : 0 < base -> forall ds2, digits_of base num ds1 -> digits_of base num ds2 -> ds1 = ds2.
Proof.
  intros Hb. revert num. 
  assert (forall ds, digits_of base 0 ds -> ds = [0]) as Hzero.
  { induction ds as [|d ds IH]; intros (HF & E & e & Hl & He); [done|]. inversion HF as [|? ? Hd HF']; subst.
    cbn [le_val] in E. pose proof (le_val_nonneg base ds Hb HF'). assert (d = 0) as -> by nia.
    destruct ds as [|d' ds]; [done|]. destruct He as [He|[=]].
    assert (d' :: ds = [0]) as [= -> ->]; [|by simplify_eq/=].
    apply IH. split; [done|]. split; [nia|]. exists e. auto. }
  induction ds1 as [|d1 ds1 IH]; intros num [|d2 ds2] H1 H2; [done| | |].
  - destruct H1 as (_ & _ & ? & ? & _). done.
  - destruct H2 as (_ & _ & ? & ? & _). done.
  - destruct (digits_tail base num d1 ds1 Hb H1) as [-> [-> | Ht1]], (digits_tail base num d2 ds2 Hb H2) as [-> [-> | Ht2]]; try done.
    + exfalso. destruct H1 as (_ & E & _). cbn [le_val] in E.
      assert (num / base = 0) as Ez. { rewrite <- E at 1. rewrite Z.mul_0_r, Z.add_0_r. apply Z.div_small, Z.mod_pos_bound, Hb. }
      rewrite Ez in Ht2. apply Hzero in Ht2. subst ds2. destruct H2 as (_ & _ & e & [= <-] & [?|[=]]). done.
    + exfalso. destruct H2 as (_ & E & _). cbn [le_val] in E.
      assert (num / base = 0) as Ez. { rewrite <- E at 1. rewrite Z.mul_0_r, Z.add_0_r. apply Z.div_small, Z.mod_pos_bound, Hb. }
      rewrite Ez in Ht1. apply Hzero in Ht1. subst ds1. destruct H1 as (_ & _ & e & [= <-] & [?|[=]]). done.
    + f_equal. by apply (IH (num / base)).
Qed.

Lemma itoa_loop_ok n : forall i p, 0 <= i < 10 ^ Z.of_nat n -> (0 < n)%nat ->
  exists ds, itoa_loop n i p = Ok (map (Z.add 0x30) (rev ds) ++ p) /\ (length ds <= n)%nat /\ digits_of 10 i ds.
Proof.
  induction n as [|n IH]; intros i p Hi Hn; [lia|]. cbn [itoa_loop].
  pose proof (Z.mod_pos_bound i 10 ltac:(lia)). rewrite wrap_small by lia.
  destruct (Z.ltb_spec 0 (i / 10)).
  - destruct (IH (i / 10) (0x30 + i mod 10 :: p)) as (hi & -> & Hlen & Hhi).
    { split; [lia|]. apply Z.div_lt_upper_bound; [lia|]. rewrite Nat2Z.inj_succ, Z.pow_succ_r in Hi; lia. }
    { destruct n; [|lia]. simpl in Hi. Z.div_mod_to_equations. lia. }
    exists (i mod 10 :: hi). cbn [rev]. rewrite map_app, <- app_assoc. split; [done|]. split; [simpl; lia|].
    rewrite (Z.div_mod i 10) at 1 by lia.
    replace (10 * (i / 10) + i mod 10) with (le_val 10 [i mod 10] + 10 ^ Z.of_nat (length [i mod 10]) * (i / 10))
      by (cbn [le_val length]; lia).
    apply (digits_of_app _ _ [i mod 10]); [lia|by constructor|lia|done].
  - exists [i mod 10]. split; [done|]. split; [simpl; lia|]. split; [by constructor|].
    split; [cbn [le_val]; Z.div_mod_to_equations; lia|]. eexists. split; [done|].
    destruct (Z.eq_dec (i mod 10) 0) as [->|]; auto.
Qed.

(** Both decimal printers of the library agree. *)
Theorem simple_itoa_is_u i : 0 <= i < 2 ^ 32 -> text_of (cstr "%u") [VInt i] = let* t := simple_itoa i in Ok (t, []).
Proof.
  intros Hi. rewrite text_u, wrap_small by lia.
  destruct (number_text i 10 0) as (ds & Hds & ->); [lia|auto|simpl; auto|].
  unfold simple_itoa. destruct (itoa_loop_ok 22 i []) as (ds' & -> & Hlen & Hds'); [lia..|].
  assert (ds' = ds) as -> by (by apply (digits_unique 10 i)).
  destruct (itoa_loop_ok 10 i []) as (ds'' & _ & Hlen' & Hds''); [lia..|].
  assert (ds'' = ds) as -> by (by apply (digits_unique 10 i)).
  cbn [res_bind]. rewrite app_nil_r, decide_True by (rewrite length_map, length_rev; lia). cbn [res_bind].
  do 2 f_equal. simpl. apply map_ext_Forall. apply Forall_rev. destruct Hds as [HF _].
  eapply Forall_impl; [exact HF|]. simpl. intros d Hd. rewrite digit_char_dec; auto.
Qed.

(** [strict_strtoul] accepts a number that does not fit, and stores it modulo [2^32]. *)
Example strict_strtoul_overflow : strict_strtoul (cstr "4294967297") 10 = (0, 1).
Proof. vm_compute. reflexivity. Qed.

(** [print_grouped_ull] on a number longer than the given digits steps over the NUL, and with 19 digits
    or more it overflows its buffer. *)
Example print_grouped_short : print_grouped_ull 1234567 3 = Ub /\ print_grouped_ull 1234567 19 = Ub.
Proof. by vm_compute. Qed.
Example print_grouped_fits : print_grouped_ull 1234567 10 = Ok (cstr "      1,234,567").
Proof. by vm_compute. Qed.
