(* ===== verification/Circbuf.v ===== *)
(** * Circular buffer ([lib/circbuf.c], [include/circbuf.h])

    A ring of bytes between the USB device driver and the console.  The theorems refine it
    to a bounded queue: pushing appends and drops the oldest bytes when there are too many,
    popping takes from the front, and neither ever leaves the array. *)
From S2P Require Import Prelude.

(** [struct circbuf]; the pointers [top] and [tail] are offsets into [data], whose length
    is [totalsize], and [end] is that length. *)
Record circbuf := Circ {
  c_size : nat;
  totalsize : nat;
  top : nat;
  tail : nat;
  data : list Z
}.

(** [fresh] is the content of the memory [malloc] returns. *)
Definition buf_init (size : nat) (fresh : nat -> Z) : circbuf :=
  Circ 0 size 0 0 (fresh <$> seq 0 size).

Definition buf_free (buf : circbuf) : circbuf := Circ 0 0 0 0 [].

(** [p++] and back to the start at the end of the array. *)
Definition step (buf : circbuf) (p : nat) : nat := if decide (S p = totalsize buf) then 0%nat else S p.

(** The loop of [buf_pop]: the bytes copied out and the final pointer. *)
Fixpoint pop_loop (n : nat) (buf : circbuf) (p : nat) : res (list Z * nat) :=
  match n with
  | O => Ok ([], p)
  | S n =>
    let* c := res_of_option (data buf !! p) in
    let* (l, p) := pop_loop n buf (step buf p) in
    Ok (c :: l, p)
  end.

(** The return value is the length of the list of bytes stored to [dest]. *)
Definition buf_pop (buf : circbuf) (len : nat) : res (list Z * circbuf) :=
  let len := if decide (c_size buf < len)%nat then c_size buf else len in
  let* (dest, p) := pop_loop len buf (top buf) in
  Ok (dest, Circ (c_size buf - len) (totalsize buf) p (tail buf) (data buf)).

Fixpoint push_loop (src : list Z) (buf : circbuf) (p : nat) : res (circbuf * nat) :=
  match src with
  | [] => Ok (buf, p)
  | c :: src =>
    let* a := (if decide (p < length (data buf))%nat then Ok (<[p := c]> (data buf)) else Ub) in
    let p := step buf p in
    let buf :=
      if decide (c_size buf < totalsize buf)%nat
      then Circ (S (c_size buf)) (totalsize buf) (top buf) (tail buf) a
      else Circ (c_size buf) (totalsize buf) (step buf (top buf)) (tail buf) a in
    push_loop src buf p
  end.

Definition buf_push (buf : circbuf) (src : list Z) : res (nat * circbuf) :=
  let* (buf, p) := push_loop src buf (tail buf) in
  Ok (length src, Circ (c_size buf) (totalsize buf) (top buf) p (data buf)).

(** ** The queue it implements *)

(** The array slot of the [i]-th byte from [t] on. *)
Definition slot (n t i : nat) : nat := if decide (t + i < n)%nat then (t + i)%nat else (t + i - n)%nat.

(** The bytes held, oldest first. *)
Definition queue (b : circbuf) : list Z :=
  (fun i => default 0 (data b !! slot (totalsize b) (top b) i)) <$> seq 0 (c_size b).

Record circ_ok (b : circbuf) : Prop := {
  circ_room : (0 < totalsize b)%nat;
  circ_len : length (data b) = totalsize b;
  circ_size : (c_size b <= totalsize b)%nat;
  circ_top : (top b < totalsize b)%nat;
  circ_tail : tail b = slot (totalsize b) (top b) (c_size b)
}.

(** The last [n] bytes of a list. *)
Definition last_bytes (n : nat) (l : list Z) : list Z := drop (length l - n) l.

Lemma queue_length b : length (queue b) = c_size b.
Proof. unfold queue. by rewrite length_fmap, length_seq. Qed.

Lemma queue_lookup b i : (i < c_size b)%nat ->
  queue b !! i = Some (default 0 (data b !! slot (totalsize b) (top b) i)).
Proof. intros Hi. unfold queue. rewrite list_lookup_fmap, lookup_seq_lt by done. done. Qed.

Lemma slot_step b t i : (t < totalsize b)%nat -> (i < totalsize b)%nat ->
  slot (totalsize b) (step b t) i = slot (totalsize b) t (S i).
Proof. intros Ht Hi. unfold slot, step. repeat case_decide; lia. Qed.

Lemma slot_inj n t i j : (t < n)%nat -> (i < n)%nat -> (j < n)%nat -> slot n t i = slot n t j -> i = j.
Proof. intros. unfold slot in *. repeat case_decide; lia. Qed.

Lemma slot_lt n t i : (t < n)%nat -> (i <= n)%nat -> (slot n t i < n)%nat.
Proof. intros. unfold slot. case_decide; lia. Qed.

(** One byte in. *)
Lemma push_step b c :
  circ_ok b ->
  exists b', push_loop [c] b (tail b) = Ok (b', step b (tail b)) /\ totalsize b' = totalsize b /\
    circ_ok (Circ (c_size b') (totalsize b') (top b') (step b (tail b)) (data b')) /\
    queue b' = last_bytes (totalsize b) (queue b ++ [c]).
Proof.
  intros [Hr Hl Hs Ht Hta]. pose proof (slot_lt (totalsize b) (top b) (c_size b) Ht Hs) as Hlt.
  cbn [push_loop]. rewrite decide_True by lia. cbn [res_bind].
  destruct (decide (c_size b < totalsize b)%nat) as [Hroom|Hfull].
  - eexists. split; [reflexivity|]. cbn [totalsize]. split; [done|]. split.
    { constructor; cbn [c_size totalsize top tail data]; [done|by rewrite length_insert|lia|done|].
      rewrite Hta. unfold step, slot. repeat case_decide; lia. }
    unfold last_bytes. rewrite length_app, queue_length. cbn [length].
    replace (c_size b + 1 - totalsize b)%nat with 0%nat by lia. rewrite drop_0.
    unfold queue. cbn [c_size totalsize top data]. rewrite seq_S, fmap_app. cbn [fmap list_fmap]. f_equal.
    + apply list_fmap_ext. intros j i [-> Hi]%lookup_seq. rewrite list_lookup_insert_ne; [done|].
      rewrite Hta, Nat.add_0_l. intros Heq. apply slot_inj in Heq; lia.
    + rewrite Nat.add_0_l, <- Hta. by rewrite list_lookup_insert_eq by lia.
  - assert (c_size b = totalsize b) as Hn by lia. eexists. split; [reflexivity|]. cbn [totalsize]. split; [done|].
    assert (tail b = top b) as Htt by (rewrite Hta, Hn; unfold slot; case_decide; lia). split.
    { constructor; cbn [c_size totalsize top tail data]; [done|by rewrite length_insert|lia| |].
      - unfold step. case_decide; lia.
      - rewrite Htt. unfold step, slot. repeat case_decide; lia. }
    unfold last_bytes. rewrite length_app, queue_length. cbn [length].
    replace (c_size b + 1 - totalsize b)%nat with 1%nat by lia.
    apply list_eq_same_length with (n := c_size b); [|by rewrite queue_length|].
    { rewrite length_drop, length_app, queue_length. simpl. lia. }
    intros i x y Hi Hx Hy. rewrite queue_lookup in Hx by done. cbn [totalsize top data] in Hx.
    rewrite slot_step in Hx by lia. rewrite lookup_drop in Hy. change (1 + i)%nat with (S i) in Hy.
    destruct (decide (S i < c_size b)%nat).
    + rewrite lookup_app_l in Hy by (rewrite queue_length; lia). rewrite queue_lookup in Hy by lia.
      rewrite list_lookup_insert_ne in Hx; [congruence|]. rewrite Htt. intros Heq.
      assert (slot (totalsize b) (top b) 0 = top b) as H0 by (unfold slot; case_decide; lia).
      rewrite <- H0 in Heq at 1. apply slot_inj in Heq; lia.
    + replace (S i) with (c_size b) in Hy by lia. replace (S i) with (totalsize b) in Hx by lia.
      rewrite lookup_app_r in Hy by (rewrite queue_length; lia). rewrite queue_length, Nat.sub_diag in Hy.
      injection Hy as <-. assert (slot (totalsize b) (top b) (totalsize b) = tail b) as Hsl
        by (rewrite Htt; unfold slot; case_decide; lia).
      rewrite Hsl, list_lookup_insert_eq in Hx by lia. by injection Hx.
Qed.

Definition set_tail (b : circbuf) (p : nat) : circbuf := Circ (c_size b) (totalsize b) (top b) p (data b).

(** The loop does not look at the stored tail. *)
Lemma push_loop_tail src : forall b p t,
  push_loop src (set_tail b t) p = let* (b', p') := push_loop src b p in Ok (set_tail b' t, p').
Proof.
  induction src as [|c src IH]; intros b p t; [done|]. destruct b as [sz n tp tl d]. unfold set_tail at 1.
  cbn [push_loop c_size totalsize top tail data]. destruct (decide (p < length d)%nat); [|done]. cbn [res_bind].
  destruct (decide (sz < n)%nat).
  - apply (IH (Circ (S sz) n tp tl (<[p:=c]> d))).
  - apply (IH (Circ sz n (step (Circ sz n tp tl d) tp) tl (<[p:=c]> d))).
Qed.

Lemma push_loop_cons c src b p :
  push_loop (c :: src) b p = let* (b1, p1) := push_loop [c] b p in push_loop src b1 p1.
Proof. cbn [push_loop]. destruct (decide _); done. Qed.

Lemma last_bytes_app n l m : last_bytes n (last_bytes n l ++ m) = last_bytes n (l ++ m).
Proof.
  unfold last_bytes. rewrite <- drop_app_le by lia. rewrite drop_drop, length_drop, length_app. f_equal. lia.
Qed.

Lemma push_loop_spec src : forall b,
  circ_ok b ->
  exists b' p', push_loop src b (tail b) = Ok (b', p') /\ totalsize b' = totalsize b /\ circ_ok (set_tail b' p') /\
    queue b' = last_bytes (totalsize b) (queue b ++ src).
Proof.
  induction src as [|c src IH]; intros b Hok.
  - exists b, (tail b). split; [done|]. split; [done|]. split; [by destruct b|].
    unfold last_bytes. rewrite app_nil_r, queue_length.
    replace (c_size b - totalsize b)%nat with 0%nat by (pose proof (circ_size b Hok); lia). done.
  - destruct (push_step b c Hok) as (b1 & E1 & Hn1 & Hok1 & Hq1).
    rewrite push_loop_cons, E1. cbn [res_bind].
    destruct (IH (set_tail b1 (step b (tail b)))) as (b' & p' & E & Hn & Hok' & Hq); [exact Hok1|].
    rewrite push_loop_tail in E. cbn [tail set_tail] in E.
    destruct (push_loop src b1 (step b (tail b))) as [[b2 p2]| |]; cbn [res_bind] in E; [|done..].
    injection E as <- <-. exists b2, p2. split; [done|]. split; [by rewrite <- Hn1|]. split; [exact Hok'|].
    change (queue (set_tail b2 (step b (tail b)))) with (queue b2) in Hq.
    change (queue (set_tail b1 (step b (tail b)))) with (queue b1) in Hq.
    rewrite Hq, Hq1. cbn [totalsize set_tail]. rewrite Hn1, last_bytes_app, <- app_assoc. done.
Qed.

(** Bytes out. *)
Lemma pop_loop_spec n : forall b p k,
  circ_ok b -> (top b < totalsize b)%nat -> (k + n <= c_size b)%nat -> p = slot (totalsize b) (top b) k ->
  pop_loop n b p = Ok (take n (drop k (queue b)), slot (totalsize b) (top b) (k + n)).
Proof.
  induction n as [|n IH]; intros b p k Hok Ht Hk ->; cbn [pop_loop].
  - by rewrite Nat.add_0_r.
  - pose proof (circ_size b Hok). pose proof (slot_lt (totalsize b) (top b) k Ht ltac:(lia)) as Hlt.
    pose proof (circ_len b Hok) as Hl.
    destruct (lookup_lt_is_Some_2 (data b) (slot (totalsize b) (top b) k) ltac:(lia)) as [x Hx].
    rewrite Hx. cbn [res_of_option res_bind].
    assert (step b (slot (totalsize b) (top b) k) = slot (totalsize b) (top b) (S k)) as Hst.
    { unfold step, slot in *. repeat case_decide; lia. }
    rewrite (IH b _ (S k)) by (done || lia). cbn [res_bind].
    assert (queue b !! k = Some x) as Hq by (rewrite queue_lookup by lia; by rewrite Hx).
    rewrite (drop_S _ _ _ Hq). cbn [take]. by rewrite Nat.add_succ_r.
Qed.

(** ** Properties *)

(** C29: The circular buffer is a bounded queue.  From a well-formed buffer, pushing any
    number of bytes returns that number, keeps the buffer well-formed and leaves the last
    [totalsize] of the held and the pushed bytes; popping returns up to [len] bytes from
    the front and keeps the rest.  No access leaves the array. *)
Theorem circbuf_is_queue b src len :
  circ_ok b ->
  (exists b', buf_push b src = Ok (length src, b') /\ circ_ok b' /\ totalsize b' = totalsize b /\
    queue b' = last_bytes (totalsize b) (queue b ++ src)) /\
  (exists b', buf_pop b len = Ok (take len (queue b), b') /\ circ_ok b' /\ totalsize b' = totalsize b /\
    queue b' = drop len (queue b)).
Proof.
  intros Hok. split.
  - destruct (push_loop_spec src b Hok) as (b' & p' & E & Hn & Hok' & Hq).
    exists (set_tail b' p'). unfold buf_push. rewrite E. split; [done|]. split; [done|]. by split.
  - unfold buf_pop. set (n := if decide (c_size b < len)%nat then c_size b else len).
    assert (n <= c_size b)%nat as Hn by (unfold n; case_decide; lia). destruct Hok as [Hr Hl Hs Ht Hta].
    rewrite (pop_loop_spec n b (top b) 0) by (done || (unfold slot; case_decide; lia)).
    cbn [res_bind]. rewrite drop_0.
    assert (take n (queue b) = take len (queue b)) as ->.
    { unfold n. case_decide; [|done]. by rewrite !take_ge by (rewrite queue_length; lia). }
    eexists. split; [reflexivity|]. split.
    { constructor; cbn [c_size totalsize top tail data]; [done|done|lia| |].
      - unfold slot. case_decide; lia.
      - rewrite Hta. unfold slot. repeat case_decide; lia. }
    split; [done|]. apply list_eq_same_length with (n := (c_size b - n)%nat).
    + rewrite length_drop, queue_length. unfold n. case_decide; lia.
    + by rewrite queue_length.
    + intros i x y Hi Hx Hy. rewrite queue_lookup in Hx by done. cbn [totalsize top data] in Hx.
      rewrite lookup_drop in Hy. assert (n = len) as Hnl by (unfold n in *; case_decide; lia). rewrite <- Hnl in Hy.
      rewrite queue_lookup in Hy by lia.
      assert (slot (totalsize b) (slot (totalsize b) (top b) (0 + n)) i = slot (totalsize b) (top b) (n + i)) as Hsl
        by (unfold slot; repeat case_decide; lia).
      rewrite Hsl in Hx. congruence.
Qed.

(** Three bytes of room: five bytes in, the last three stay. *)
Lemma circbuf_is_queue_witness :
  exists b b', buf_push (buf_init 3 (fun _ => 0)) [1; 2; 3; 4; 5] = Ok (5%nat, b) /\
    buf_pop b 2 = Ok ([3; 4], b') /\ queue b' = [5].
Proof.
  assert (Hinit : circ_ok (buf_init 3 (fun _ => 0))) by (constructor; simpl; (lia || reflexivity)).
  destruct (circbuf_is_queue (buf_init 3 (fun _ => 0)) [1; 2; 3; 4; 5] 0 Hinit) as [(b & E & Hb & _ & Hq) _].
  destruct (circbuf_is_queue b [] 2 Hb) as [_ (b' & E' & _ & _ & Hq')].
  rewrite Hq in E', Hq'. exists b, b'. split; [exact E|]. split; [exact E'|]. rewrite Hq'. reflexivity.
Defined.
