(* ===== verification/Memsize.v ===== *)
(** * Sizing the RAM ([common/memsize.c])

    [get_ram_size] writes a pattern at every power-of-two word offset and looks which ones
    survive.  The RAM is a parameter: smaller chips appear several times in the address
    range.  The theorem: the size found is the real one, and which words have changed. *)
From S2P Require Import Prelude Mmio.

Section Memsize.
Context {D : Type} {B : Bus D} (base : Z).

(** [base + cnt], in words of a [long]. *)
Definition word (cnt : Z) : Z := base + 4 * cnt.

(** The first loop; [save] holds the words saved so far, in an array of 32. *)
Fixpoint save_loop (n : nat) (cnt : Z) (save : list Z) : io D (list Z) :=
  match n with
  | O => fun _ => Hang
  | S n =>
    if 0 <? cnt then
      v <- mmio_read (word cnt) ;;
      save <- io_lift (if decide (length save < 32)%nat then Ok (save ++ [v]) else Ub) ;;
      mmio_write (word cnt) (~32 cnt) ;;;
      save_loop n (cnt .>> 1) save
    else io_ret save
  end.

(** [*addr = save[--i]] for [cnt], [2 cnt], ... below [limit]. *)
Fixpoint restore_loop (n : nat) (cnt limit : Z) (save : list Z) (i : nat) : io D unit :=
  match n with
  | O => fun _ => Hang
  | S n =>
    if cnt <? limit then
      match i with
      | O => fun _ => Ub
      | S i =>
        v <- io_lift (res_of_option (save !! i)) ;;
        mmio_write (word cnt) v ;;;
        restore_loop n (cnt .<< 1) limit save i
      end
    else io_ret tt
  end.

(** The second loop; [None] means that all patterns were found. *)
Fixpoint check_loop (n : nat) (cnt limit : Z) (save : list Z) (i : nat) : io D (option Z) :=
  match n with
  | O => fun _ => Hang
  | S n =>
    if cnt <? limit then
      val <- mmio_read (word cnt) ;;
      match i with
      | O => fun _ => Ub
      | S i =>
        v <- io_lift (res_of_option (save !! i)) ;;
        mmio_write (word cnt) v ;;;
        if negb (val =? ~32 cnt) then
          let size := cnt * 4 in
          restore_loop n (cnt .<< 1) limit save i ;;;
          io_ret (Some size)
        else check_loop n (cnt .<< 1) limit save i
      end
    else io_ret None
  end.

(** [maxsize / sizeof (long)] is an unsigned division; 33 rounds are more than a word has
    bits. *)
Definition get_ram_size (maxsize : Z) : io D Z :=
  let limit := u32 maxsize / 4 in
  save <- save_loop 33 (limit .>> 1) [] ;;
  v0 <- mmio_read (word 0) ;;
  io_lift (if decide (length save < 32)%nat then Ok tt else Ub) ;;;
  mmio_write (word 0) 0 ;;;
  val <- mmio_read (word 0) ;;
  if negb (val =? 0) then
    mmio_write (word 0) v0 ;;;
    restore_loop 33 1 limit save (length save) ;;;
    io_ret 0
  else
    r <- check_loop 33 1 limit save (length save) ;;
    io_ret (match r with Some size => size | None => maxsize end).
End Memsize.

(** ** Mirrored memory *)

(** [2 ^ r] words of RAM that repeat throughout the address range. *)
Class MirrorRam (D : Type) {B : Bus D} (base r : Z) := {
  cell : D -> Z -> Z;
  ram_val i d : 0 <= i < 2 ^ 30 -> u32 (dev_val (base + 4 * i) d) = cell d (i mod 2 ^ r);
  ram_rd i j d : cell (dev_rd (base + 4 * i) d) j = cell d j;
  ram_wr i v d j : 0 <= i < 2 ^ 30 -> 0 <= v < 2 ^ 32 -> 0 <= j < 2 ^ r ->
    cell (dev_wr (base + 4 * i) v d) j = if decide (j = i mod 2 ^ r) then v else cell d j
}.

(** The word that the offset [2 ^ e] reaches. *)
Definition ix (r : Z) (e : nat) : Z := if decide (Z.of_nat e < r) then 2 ^ Z.of_nat e else 0.

Section Ram.
Context {D : Type} {B : Bus D} {base r : Z} {M : MirrorRam D base r} (Hr : 0 <= r).

(** The RAM holds [R]. *)
Definition ram (d : D) (R : contents) : Prop := forall j, 0 <= j < 2 ^ r -> cell d j = R j.

Lemma ix_mod e : 2 ^ Z.of_nat e mod 2 ^ r = ix r e.
Proof.
  unfold ix. case_decide.
  - apply Z.mod_small. split; [lia|]. apply Z.pow_lt_mono_r; lia.
  - replace (Z.of_nat e) with (r + (Z.of_nat e - r)) by lia.
    rewrite Z.pow_add_r, Z.mul_comm by lia. apply Z_mod_mult.
Qed.

Lemma pow_range e : (e <= 29)%nat -> 0 <= 2 ^ Z.of_nat e < 2 ^ 30.
Proof. intros He. split; [lia|]. apply Z.pow_lt_mono_r; lia. Qed.

Lemma ram_read i h R : ram (dev h) R -> 0 <= i < 2 ^ 30 ->
  runs (mmio_read (word base i)) h (fun v h' => v = R (i mod 2 ^ r) /\ ram (dev h') R).
Proof.
  intros HR Hi. eexists _, _. split; [reflexivity|]. cbn [dev]. unfold word. rewrite ram_val by done. split.
  - apply HR. apply Z.mod_pos_bound. lia.
  - intros j Hj. rewrite ram_rd. by apply HR.
Qed.

Lemma ram_write i v h R : ram (dev h) R -> 0 <= i < 2 ^ 30 ->
  runs (mmio_write (word base i) v) h (fun _ h' => ram (dev h') (upd (i mod 2 ^ r) (u32 v) R)).
Proof.
  intros HR Hi. eexists _, _. split; [reflexivity|]. cbn [dev]. unfold word. intros j Hj.
  rewrite ram_wr by (done || apply wrap_range; lia). unfold upd. case_decide; [done|]. by apply HR.
Qed.

Lemma ram_same d R R' : ram d R -> same R R' -> ram d R'.
Proof. intros H HRR j Hj. rewrite H by done. apply HRR. Qed.

End Ram.

Section Sizing.
Context {D : Type} {B : Bus D} {base r : Z} {M : MirrorRam D base r} (Hr : 0 <= r).
Context (m : nat) (Hm : (m <= 29)%nat).

(** The contents after the first [k] patterns, at offsets [2 ^ (m - 1)] downwards, and the
    word saved before the next one. *)
Fixpoint marked (R : contents) (k : nat) : contents :=
  match k with
  | O => R
  | S k => upd (ix r (m - 1 - k)) (~32 (2 ^ Z.of_nat (m - 1 - k))) (marked R k)
  end.
Definition saved (R : contents) (k : nat) : Z := marked R k (ix r (m - 1 - k)).

(** The saving loop with [k] patterns written. *)
Lemma save_loop_spec R n : forall k h,
  (k <= m)%nat -> (m - k < n)%nat -> ram (dev h) (marked R k) ->
  runs (save_loop base n (if decide (k < m)%nat then 2 ^ Z.of_nat (m - 1 - k) else 0) (saved R <$> seq 0 k)) h
    (fun s h' => s = saved R <$> seq 0 m /\ ram (dev h') (marked R m)).
Proof.
  induction n as [|n IH]; intros k h Hk Hn HR; [lia|]. cbn [save_loop].
  destruct (decide (k < m)%nat) as [Hlt|Hge].
  - rewrite (proj2 (Z.ltb_lt 0 (2 ^ Z.of_nat (m - 1 - k)))) by lia.
    pose proof (pow_range (m - 1 - k) ltac:(lia)) as Hp.
    eapply runs_bind; [by apply (ram_read Hr)|]. intros v h1 [-> HR1]. rewrite (ix_mod (r := r) Hr).
    rewrite decide_True by (rewrite length_fmap, length_seq; lia).
    eapply (runs_bind _ _ _ (fun s h' => s = (saved R <$> seq 0 k) ++ [saved R k] /\ h' = h1)); [by eexists _, _|].
    intros s h' [-> ->]. eapply runs_bind; [by apply ram_write|]. intros ? h2 HR2. cbv beta in HR2.
    rewrite (ix_mod (r := r) Hr), wrap_idem in HR2.
    replace ((saved R <$> seq 0 k) ++ [saved R k]) with (saved R <$> seq 0 (S k)) by by rewrite seq_S, fmap_app.
    assert (2 ^ Z.of_nat (m - 1 - k) .>> 1 = if decide (S k < m)%nat then 2 ^ Z.of_nat (m - 1 - S k) else 0) as ->.
    { rewrite Z.shiftr_div_pow2 by lia. case_decide.
      - replace (Z.of_nat (m - 1 - k)) with (Z.of_nat (m - 1 - S k) + 1) by lia.
        rewrite Z.pow_add_r by lia. by rewrite Z.div_mul by lia.
      - replace (m - 1 - k)%nat with 0%nat by lia. reflexivity. }
    apply IH; [lia|lia|exact HR2].
  - replace k with m in * by lia. cbn [Z.ltb Z.compare]. by apply runs_ret.
Qed.

(** Undoing the last pattern. *)
Lemma undo R k : same (upd (ix r (m - 1 - k)) (saved R k) (marked R (S k))) (marked R k).
Proof. intros a. unfold saved. cbn [marked]. unfold upd. repeat case_decide; subst; done. Qed.

Lemma saved_lookup R k : (k < m)%nat -> (saved R <$> seq 0 m) !! k = Some (saved R k).
Proof. intros Hk. by rewrite list_lookup_fmap, lookup_seq_lt. Qed.
Lemma marked_range R k : (forall a, 0 <= R a < 2 ^ 32) -> forall a, 0 <= marked R k a < 2 ^ 32.
Proof.
  intros HR. induction k as [|k IH]; intros a; cbn [marked]; [apply HR|]. unfold upd. case_decide; [|apply IH].
  apply wrap_range. lia.
Qed.

Lemma shl_pow e : 2 ^ Z.of_nat e .<< 1 = 2 ^ Z.of_nat (S e).
Proof. rewrite Z.shiftl_mul_pow2, Nat2Z.inj_succ, Z.pow_succ_r by lia. lia. Qed.

Lemma pow_lt_limit e : (2 ^ Z.of_nat e <? 2 ^ Z.of_nat m) = bool_decide (e < m)%nat.
Proof.
  case_bool_decide.
  - apply Z.ltb_lt, Z.pow_lt_mono_r; lia.
  - apply Z.ltb_ge, Z.pow_le_mono_r; lia.
Qed.

(** Restoring from offset [2 ^ e] on undoes the remaining patterns. *)
Lemma restore_loop_spec R (HR32 : forall a, 0 <= R a < 2 ^ 32) n : forall e h,
  (e <= m)%nat -> (m - e < n)%nat -> ram (dev h) (marked R (m - e)) ->
  runs (restore_loop base n (2 ^ Z.of_nat e) (2 ^ Z.of_nat m) (saved R <$> seq 0 m) (m - e)) h
    (fun _ h' => ram (dev h') R).
Proof.
  induction n as [|n IH]; intros e h He Hn HR; [lia|]. cbn [restore_loop]. rewrite pow_lt_limit.
  case_bool_decide as Hlt.
  - destruct (m - e)%nat as [|i] eqn:Ei; [lia|]. rewrite saved_lookup by lia. cbn [res_of_option].
    eapply (runs_bind _ _ _ (fun v h' => v = saved R i /\ h' = h)); [by eexists _, _|]. intros v h' [-> ->].
    eapply runs_bind; [apply ram_write; [exact HR|apply pow_range; lia]|]. intros u1 h1 HR1. cbv beta in HR1. clear u1.
    rewrite (ix_mod Hr) in HR1. rewrite wrap_small in HR1 by (by apply marked_range).
    rewrite shl_pow. replace i with (m - S e)%nat by lia. apply IH; [lia|lia|].
    eapply ram_same; [exact HR1|]. replace (m - S e)%nat with i by lia.
    replace e with (m - 1 - i)%nat by lia. apply undo.
  - replace (m - e)%nat with 0%nat in HR by lia. by apply runs_ret.
Qed.

(** Checking from offset [2 ^ e] on, with the first word zero. *)
Lemma check_loop_spec R (HR32 : forall a, 0 <= R a < 2 ^ 32) n : forall e h,
  (e <= m)%nat -> Z.of_nat e <= r -> (m - e < n)%nat -> ram (dev h) (upd 0 0 (marked R (m - e))) ->
  runs (check_loop base n (2 ^ Z.of_nat e) (2 ^ Z.of_nat m) (saved R <$> seq 0 m) (m - e)) h
    (fun v h' => (r < Z.of_nat m /\ v = Some (2 ^ r * 4) /\ ram (dev h') R) \/
                 (Z.of_nat m <= r /\ v = None /\ ram (dev h') (upd 0 0 R))).
Proof.
  induction n as [|n IH]; intros e h He Her Hn HR; [lia|]. cbn [check_loop]. rewrite pow_lt_limit.
  case_bool_decide as Hlt.
  - eapply runs_bind; [apply (ram_read Hr); [exact HR|apply pow_range; lia]|]. intros v h1 [-> HR1].
    rewrite (ix_mod Hr). destruct (m - e)%nat as [|i] eqn:Ei; [lia|]. rewrite saved_lookup by lia. cbn [res_of_option].
    eapply (runs_bind _ _ _ (fun v h' => v = saved R i /\ h' = h1)); [by eexists _, _|]. intros v h' [-> ->].
    eapply runs_bind; [apply ram_write; [exact HR1|apply pow_range; lia]|]. intros u2 h2 HR2. cbv beta in HR2. clear u2.
    rewrite (ix_mod Hr) in HR2. rewrite wrap_small in HR2 by (by apply marked_range).
    assert (m - 1 - i = e)%nat as Eidx by lia. pose proof (undo R i) as Hundo. rewrite Eidx in Hundo.
    destruct (decide (Z.of_nat e = r)) as [Er|Er].
    + assert (ix r e = 0) as Ex by (unfold ix; rewrite decide_False by lia; done). rewrite Ex in *.
      rewrite upd_eq. assert (negb (0 =? ~32 (2 ^ Z.of_nat e)) = true) as ->.
      { apply negb_true_iff, Z.eqb_neq. intros Hz.
        assert (Z.testbit (~32 (2 ^ Z.of_nat e)) 31 = true) as Hbit.
        { rewrite testbit_wrap, Z.lnot_spec, Z.pow2_bits_eqb by lia.
          rewrite (proj2 (Z.eqb_neq (Z.of_nat e) 31)) by lia. done. }
        rewrite <- Hz in Hbit. done. }
      eapply runs_bind.
      { rewrite shl_pow. replace i with (m - S e)%nat by lia. apply (restore_loop_spec R HR32); [lia|lia|].
        eapply ram_same; [exact HR2|]. replace (m - S e)%nat with i by lia.
        intros a. rewrite <- (Hundo a). unfold upd. repeat case_decide; done. }
      intros ? h3 HR3. apply runs_ret. left. split; [lia|]. split; [by rewrite Er|done].
    + assert (ix r e = 2 ^ Z.of_nat e) as Ex by (unfold ix; rewrite decide_True by lia; done).
      assert (2 ^ Z.of_nat e <> 0) as Hnz by lia.
      assert (upd 0 0 (marked R (S i)) (ix r e) = ~32 (2 ^ Z.of_nat e)) as ->.
      { rewrite upd_ne by (rewrite Ex; done). cbn [marked]. rewrite Eidx. apply upd_eq. }
      rewrite Z.eqb_refl. cbn [negb]. rewrite shl_pow. replace i with (m - S e)%nat by lia.
      apply IH; [lia|lia|lia|]. eapply ram_same; [exact HR2|]. replace (m - S e)%nat with i by lia.
      intros a. unfold upd at 3. case_decide as Ha.
      * subst a. rewrite upd_ne by (rewrite Ex; lia). apply upd_eq.
      * rewrite <- (Hundo a). unfold upd. repeat case_decide; done.
  - replace (m - e)%nat with 0%nat in HR by lia. apply runs_ret. right. split; [lia|]. done.
Qed.
End Sizing.

(** ** Properties *)

(** [get_ram_size].  On [2 ^ r] words of RAM that repeat throughout the range, asked
    for a range of [2 ^ m] words, the result is the real size in bytes, capped to the range.
    If the RAM is smaller than the range every word holds what it held before; if it fills
    the range the first word is left zero: on that path it is not restored. *)
Theorem get_ram_size_finds {D} {B : Bus D} {base r} {M : MirrorRam D base r} (m : nat) (h : hw D) R :
  0 <= r -> (m <= 28)%nat -> (forall j, 0 <= R j < 2 ^ 32) ->
  (forall j, 0 <= j < 2 ^ r -> cell (dev h) j = R j) ->
  runs (get_ram_size base (4 * 2 ^ Z.of_nat m)) h (fun size h' =>
    size = 4 * 2 ^ Z.min r (Z.of_nat m) /\
    forall j, 0 <= j < 2 ^ r ->
      cell (dev h') j = if decide (j = 0 /\ Z.of_nat m <= r) then 0 else R j).
Proof.
  intros Hr Hm HR32 HR. unfold get_ram_size.
  assert (0 < 2 ^ Z.of_nat m <= 2 ^ 28) as Hpow by (split; [lia|]; apply Z.pow_le_mono_r; lia).
  rewrite wrap_small by lia. rewrite Z.mul_comm, Z.div_mul by lia.
  assert (2 ^ Z.of_nat m .>> 1 = if decide (0 < m)%nat then 2 ^ Z.of_nat (m - 1 - 0) else 0) as ->.
  { rewrite Z.shiftr_div_pow2 by lia. case_decide.
    - replace (Z.of_nat m) with (Z.of_nat (m - 1 - 0) + 1) by lia. rewrite Z.pow_add_r by lia. by rewrite Z.div_mul by lia.
    - by replace m with 0%nat by lia. }
  eapply runs_bind; [apply (save_loop_spec Hr m ltac:(lia) R 33 0 h); [lia|lia|exact HR]|].
  intros save h1 [-> HR1].
  eapply runs_bind; [apply (ram_read Hr); [exact HR1|lia]|]. intros v0 h2 [-> HR2].
  rewrite decide_True by (rewrite length_fmap, length_seq; lia).
  eapply (runs_bind _ _ _ (fun _ h' => h' = h2)); [by eexists _, _|]. intros _ ? ->.
  eapply runs_bind; [apply ram_write; [exact HR2|lia]|]. intros ? h3 HR3. cbv beta in HR3.
  rewrite Z.mod_0_l in HR3 by lia. change (u32 0) with 0 in HR3.
  eapply runs_bind; [apply (ram_read Hr); [exact HR3|lia]|]. intros v h4 [-> HR4].
  rewrite Z.mod_0_l, upd_eq by lia. cbn [Z.eqb negb]. rewrite length_fmap, length_seq.
  eapply runs_bind.
  { pose proof (check_loop_spec Hr m ltac:(lia) R HR32 33 0 h4) as Hc. rewrite Nat.sub_0_r in Hc.
    apply Hc; [lia|lia|lia|exact HR4]. }
  intros v h5 [(Hlt & -> & HR5)|(Hge & -> & HR5)]; apply runs_ret.
  - rewrite Z.min_l by lia. split; [lia|]. intros j Hj. rewrite decide_False by lia. by apply HR5.
  - rewrite Z.min_r by lia. split; [lia|]. intros j Hj. rewrite HR5 by done. unfold upd.
    repeat case_decide; (done || lia).
Qed.

(** Four words of RAM at 0x20000000, mirrored. *)
Module SmallRam.
Definition origin := 0x20000000.
Record chip := Chip { words : Z -> Z }.
Definition index (a : Z) : Z := (a - origin) / 4 mod 4.
#[global] Instance chip_bus : Bus chip := {|
  dev_val a d := words d (index a);
  dev_rd a d := d;
  dev_wr a v d := Chip (upd (index a) v (words d))
|}.
Lemma index_word i : index (origin + 4 * i) = i mod 2 ^ 2.
Proof. unfold index. replace (origin + 4 * i - origin) with (i * 4) by lia. by rewrite Z.div_mul by lia. Qed.
#[global] Instance chip_ram : MirrorRam chip origin 2.
Proof.
  refine {| cell := fun d j => u32 (words d j) |}.
  - intros i d _. cbn [dev_val chip_bus]. by rewrite index_word.
  - done.
  - intros i v d j _ Hv Hj. cbn [dev_wr chip_bus words]. rewrite index_word. unfold upd.
    case_decide; [by apply wrap_small|done].
Defined.
End SmallRam.

Lemma get_ram_size_finds_witness :
  runs (get_ram_size SmallRam.origin (4 * 2 ^ 10)) (Hw (SmallRam.Chip (fun j => j + 7)) []) (fun size h' =>
    size = 16 /\ cell (dev h') 3 = 10 /\ cell (dev h') 0 = 7).
Proof.
  eapply runs_mono.
  - apply (get_ram_size_finds (M := SmallRam.chip_ram) 10 (Hw (SmallRam.Chip (fun j => j + 7)) [])
      (fun j => u32 (j + 7))); [lia|lia|intros j; apply wrap_range; lia|intros j _; reflexivity].
  - intros size h' [Hs Hc]. split; [exact Hs|].
    split; [rewrite (Hc 3) by lia; reflexivity|rewrite (Hc 0) by lia; reflexivity].
Defined.
