(* ===== verification/Cstring.v ===== *)
(** * The string and memory routines ([lib/string.c])

    The C library of the second stage, on a byte memory: a load or store outside the
    mapped addresses is undefined.  Loops that search for a NUL take the number of rounds
    they may spend; the theorems show that the length of the string is enough.  A plain
    [char] is unsigned on this target. *)
From S2P Require Import Prelude Ctype.

(** ** Memory *)
Abbreviation mem := (gmap Z Z).
Definition load (m : mem) (a : Z) : res Z := res_of_option (m !! a).
Definition store (m : mem) (a v : Z) : res mem :=
  match m !! a with Some _ => Ok (<[a := u8 v]> m) | None => Ub end.

(** A 32-bit and a 64-bit word, little endian. *)
Definition load_word (m : mem) (a : Z) : res Z :=
  let* b0 := load m a in let* b1 := load m (a + 1) in
  let* b2 := load m (a + 2) in let* b3 := load m (a + 3) in
  Ok (b0 + 2 ^ 8 * b1 + 2 ^ 16 * b2 + 2 ^ 24 * b3).
Definition load_word64 (m : mem) (a : Z) : res Z :=
  let* lo := load_word m a in let* hi := load_word m (a + 4) in Ok (lo + 2 ^ 32 * hi).
Definition store_word (m : mem) (a w : Z) : res mem :=
  let* m := store m a w in let* m := store m (a + 1) (w .>> 8) in
  let* m := store m (a + 2) (w .>> 16) in store m (a + 3) (w .>> 24).

Definition NUL : Z := 0.

(** ** Comparison *)
Fixpoint strncasecmp_loop (n : nat) (m : mem) (s1 s2 len : Z) : res Z :=
  match n with
  | O => Hang
  | S n =>
    let* c1 := load m s1 in
    let* c2 := load m s2 in
    if (c1 =? NUL) || (c2 =? NUL) then Ok (c1 - c2)
    else
      let d1 := if c1 =? c2 then c1 else tolower c1 in
      let d2 := if c1 =? c2 then c2 else tolower c2 in
      if negb (d1 =? d2) then Ok (d1 - d2)
      else if u32 (len - 1) =? 0 then Ok (d1 - d2)
      else strncasecmp_loop n m (s1 + 1) (s2 + 1) (u32 (len - 1))
  end.

Definition strncasecmp (n : nat) (m : mem) (s1 s2 len : Z) : res Z :=
  if len =? 0 then Ok 0 else strncasecmp_loop n m s1 s2 len.
Definition strcasecmp (n : nat) (m : mem) (s1 s2 : Z) : res Z := strncasecmp n m s1 s2 (u32 (-1)).

(** The difference is kept in a [signed char]. *)
Fixpoint strcmp (n : nat) (m : mem) (cs ct : Z) : res Z :=
  match n with
  | O => Hang
  | S n =>
    let* a := load m cs in
    let* b := load m ct in
    let __res := s8 (a - b) in
    if negb (__res =? 0) || (a =? NUL) then Ok __res else strcmp n m (cs + 1) (ct + 1)
  end.

Fixpoint strncmp_loop (count : nat) (m : mem) (cs ct __res : Z) : res Z :=
  match count with
  | O => Ok __res
  | S count =>
    let* a := load m cs in
    let* b := load m ct in
    let __res := s8 (a - b) in
    if negb (__res =? 0) || (a =? NUL) then Ok __res else strncmp_loop count m (cs + 1) (ct + 1) __res
  end.
Definition strncmp (m : mem) (cs ct : Z) (count : nat) : res Z := strncmp_loop count m cs ct 0.

Fixpoint memcmp (m : mem) (cs ct : Z) (count : nat) : res Z :=
  match count with
  | O => Ok 0
  | S count =>
    let* a := load m cs in
    let* b := load m ct in
    if negb (a - b =? 0) then Ok (a - b) else memcmp m (cs + 1) (ct + 1) count
  end.

(** ** Length and search *)

(** The address of the NUL. *)
Fixpoint strend (n : nat) (m : mem) (sc : Z) : res Z :=
  match n with
  | O => Hang
  | S n => let* c := load m sc in if c =? NUL then Ok sc else strend n m (sc + 1)
  end.
Definition strlen (n : nat) (m : mem) (s : Z) : res Z := let* sc := strend n m s in Ok (sc - s).

Fixpoint strnlen_loop (count : nat) (m : mem) (sc : Z) : res Z :=
  match count with
  | O => Ok sc
  | S count => let* c := load m sc in if c =? NUL then Ok sc else strnlen_loop count m (sc + 1)
  end.
Definition strnlen (m : mem) (s : Z) (count : nat) : res Z := let* sc := strnlen_loop count m s in Ok (sc - s).

Fixpoint strchr (n : nat) (m : mem) (s c : Z) : res (option Z) :=
  match n with
  | O => Hang
  | S n =>
    let* x := load m s in
    if x =? u8 c then Ok (Some s)
    else if x =? NUL then Ok None
    else strchr n m (s + 1) c
  end.

(** From [p] down to [s]; [k] is [p - s]. *)
Fixpoint strrchr_loop (k : nat) (m : mem) (p c : Z) : res (option Z) :=
  let* x := load m p in
  if x =? u8 c then Ok (Some p)
  else match k with O => Ok None | S k => strrchr_loop k m (p - 1) c end.
Definition strrchr (n : nat) (m : mem) (s c : Z) : res (option Z) :=
  let* l := strlen n m s in strrchr_loop (Z.to_nat l) m (s + l) c.

Fixpoint memscan (m : mem) (p c : Z) (size : nat) : res Z :=
  match size with
  | O => Ok p
  | S size => let* x := load m p in if x =? c then Ok p else memscan m (p + 1) c size
  end.

Fixpoint memchr (m : mem) (s c : Z) (n : nat) : res (option Z) :=
  match n with
  | O => Ok None
  | S n => let* x := load m s in if u8 c =? x then Ok (Some s) else memchr m (s + 1) c n
  end.

Fixpoint strstr_loop (k : nat) (m : mem) (s1 s2 : Z) (l2 : nat) : res (option Z) :=
  let* r := memcmp m s1 s2 l2 in
  if r =? 0 then Ok (Some s1)
  else match k with O => Ok None | S k => strstr_loop k m (s1 + 1) s2 l2 end.
Definition strstr (n : nat) (m : mem) (s1 s2 : Z) : res (option Z) :=
  let* l2 := strlen n m s2 in
  if l2 =? 0 then Ok (Some s1)
  else
    let* l1 := strlen n m s1 in
    if l1 <? l2 then Ok None else strstr_loop (Z.to_nat (l1 - l2)) m s1 s2 (Z.to_nat l2).

(** The first byte that is not [value]. *)
Fixpoint check_bytes8 (m : mem) (start value : Z) (bytes : nat) : res (option Z) :=
  match bytes with
  | O => Ok None
  | S bytes => let* x := load m start in
    if negb (x =? value) then Ok (Some start) else check_bytes8 m (start + 1) value bytes
  end.

Fixpoint words_loop (m : mem) (start value value64 : Z) (words rest : nat) : res (option Z) :=
  match words with
  | O => check_bytes8 m start value rest
  | S words =>
    let* x := load_word64 m start in
    if negb (x =? value64) then check_bytes8 m start value 8
    else words_loop m (start + 8) value value64 words rest
  end.

Definition memchr_inv (m : mem) (start c : Z) (bytes : nat) : res (option Z) :=
  let value := u8 c in
  if decide (bytes <= 16)%nat then check_bytes8 m start value bytes
  else
    let value64 := value in
    let value64 := value64 .| u64 (value64 .<< 8) in
    let value64 := value64 .| u64 (value64 .<< 16) in
    let value64 := value64 .| u64 (value64 .<< 32) in
    let prefix := start mod 8 in
    if negb (prefix =? 0) then
      let prefix := Z.to_nat (8 - prefix) in
      let* r := check_bytes8 m start value prefix in
      match r with
      | Some r => Ok (Some r)
      | None =>
        let bytes := (bytes - prefix)%nat in
        words_loop m (start + Z.of_nat prefix) value value64 (bytes / 8) (bytes mod 8)
      end
    else words_loop m start value value64 (bytes / 8) (bytes mod 8).

(** Whether [c] is in the string at [a]. *)
Fixpoint in_set (n : nat) (m : mem) (c a : Z) : res bool :=
  match n with
  | O => Hang
  | S n => let* x := load m a in
    if x =? NUL then Ok false else if c =? x then Ok true else in_set n m c (a + 1)
  end.

Fixpoint strspn_loop (n k : nat) (m : mem) (p accept count : Z) : res Z :=
  match n with
  | O => Hang
  | S n =>
    let* c := load m p in
    if c =? NUL then Ok count
    else
      let* found := in_set k m c accept in
      if found then strspn_loop n k m (p + 1) accept (count + 1) else Ok count
  end.
Definition strspn (n : nat) (m : mem) (s accept : Z) : res Z := strspn_loop n n m s accept 0.

Fixpoint strpbrk_loop (n k : nat) (m : mem) (cs ct : Z) : res (option Z) :=
  match n with
  | O => Hang
  | S n =>
    let* c := load m cs in
    if c =? NUL then Ok None
    else
      let* found := in_set k m c ct in
      if found then Ok (Some cs) else strpbrk_loop n k m (cs + 1) ct
  end.
Definition strpbrk (n : nat) (m : mem) (cs ct : Z) : res (option Z) := strpbrk_loop n n m cs ct.

(** ** Copying *)

(** Copies up to and including the NUL. *)
Fixpoint copy_loop (n : nat) (m : mem) (dest src : Z) : res mem :=
  match n with
  | O => Hang
  | S n =>
    let* c := load m src in
    let* m := store m dest c in
    if c =? NUL then Ok m else copy_loop n m (dest + 1) (src + 1)
  end.
Definition strcpy (n : nat) (m : mem) (dest src : Z) : res (Z * mem) :=
  let* m := copy_loop n m dest src in Ok (dest, m).

Fixpoint strncpy_loop (count : nat) (m : mem) (dest src : Z) : res mem :=
  match count with
  | O => Ok m
  | S count =>
    let* c := load m src in
    let* m := store m dest c in
    if c =? NUL then Ok m else strncpy_loop count m (dest + 1) (src + 1)
  end.
Definition strncpy (m : mem) (dest src : Z) (count : nat) : res (Z * mem) :=
  let* m := strncpy_loop count m dest src in Ok (dest, m).

Definition strcat (n : nat) (m : mem) (dest src : Z) : res (Z * mem) :=
  let* e := strend n m dest in
  let* m := copy_loop n m e src in Ok (dest, m).

Fixpoint strncat_loop (count : nat) (m : mem) (dest src : Z) : res mem :=
  match count with
  | O => store m dest NUL
  | S count =>
    let* c := load m src in
    let* m := store m dest c in
    if c =? NUL then Ok m else strncat_loop count m (dest + 1) (src + 1)
  end.
Definition strncat (n : nat) (m : mem) (dest src : Z) (count : nat) : res (Z * mem) :=
  match count with
  | O => Ok (dest, m)
  | S _ =>
    let* e := strend n m dest in
    let* m := strncat_loop count m e src in Ok (dest, m)
  end.

(** [malloc] returns a block and the memory with the block mapped, or nothing. *)
Definition strdup (malloc : Z -> mem -> option (Z * mem)) (n : nat) (m : mem) (s : option Z) : res (option Z * mem) :=
  match s with
  | None => Ok (None, m)
  | Some s =>
    let* l := strlen n m s in
    match malloc (l + 1) m with
    | None => Ok (None, m)
    | Some (new, m) => let* (_, m) := strcpy n m new s in Ok (Some new, m)
    end
  end.

(** Byte by byte, upwards and downwards. *)
Fixpoint copy_up (count : nat) (m : mem) (dest src : Z) : res mem :=
  match count with
  | O => Ok m
  | S count => let* c := load m src in let* m := store m dest c in copy_up count m (dest + 1) (src + 1)
  end.
Fixpoint copy_down (count : nat) (m : mem) (tmp s : Z) : res mem :=
  match count with
  | O => Ok m
  | S count => let* c := load m (s - 1) in let* m := store m (tmp - 1) c in copy_down count m (tmp - 1) (s - 1)
  end.

Definition bcopy (m : mem) (src dest : Z) (count : nat) : res (Z * mem) :=
  let* m := copy_up count m dest src in Ok (dest, m).

Definition memmove (m : mem) (dest src : Z) (count : nat) : res (Z * mem) :=
  if src =? dest then Ok (dest, m)
  else if dest <=? src then let* m := copy_up count m dest src in Ok (dest, m)
  else let* m := copy_down count m (dest + Z.of_nat count) (src + Z.of_nat count) in Ok (dest, m).

(** Words first: [w] words and then [rest] bytes. *)
Fixpoint copy_words (w rest : nat) (m : mem) (dl sl : Z) : res mem :=
  match w with
  | O => copy_up rest m dl sl
  | S w => let* x := load_word m sl in let* m := store_word m dl x in copy_words w rest m (dl + 4) (sl + 4)
  end.

Definition memcpy (m : mem) (dest src : Z) (count : nat) : res (Z * mem) :=
  if src =? dest then Ok (dest, m)
  else if (dest .| src) .& 3 =? 0 then
    let* m := copy_words (count / 4) (count mod 4) m dest src in Ok (dest, m)
  else let* m := copy_up count m dest src in Ok (dest, m).

Fixpoint fill_bytes (count : nat) (m : mem) (s8 c : Z) : res mem :=
  match count with
  | O => Ok m
  | S count => let* m := store m s8 c in fill_bytes count m (s8 + 1) c
  end.
Fixpoint fill_words (w rest : nat) (m : mem) (sl cl c : Z) : res mem :=
  match w with
  | O => fill_bytes rest m sl c
  | S w => let* m := store_word m sl cl in fill_words w rest m (sl + 4) cl c
  end.

(** [cl <<= 8; cl |= c & 0xff], four times. *)
Definition spread (c : Z) : Z :=
  let f cl := u32 (cl .<< 8) .| (c .& 0xff) in f (f (f (f 0))).

Definition memset (m : mem) (s c : Z) (count : nat) : res (Z * mem) :=
  if s .& 3 =? 0 then
    let* m := fill_words (count / 4) (count mod 4) m s (spread c) c in Ok (s, m)
  else let* m := fill_bytes count m s c in Ok (s, m).

(** ** Tokens *)

(** [___strtok] is passed in and out. *)
Definition strtok (n : nat) (m : mem) (s ___strtok : option Z) (ct : Z) : res (option Z * option Z * mem) :=
  match (match s with Some s => Some s | None => ___strtok end) with
  | None => Ok (None, ___strtok, m)
  | Some sbegin =>
    let* skip := strspn n m sbegin ct in
    let sbegin := sbegin + skip in
    let* c := load m sbegin in
    if c =? NUL then Ok (None, None, m)
    else
      let* send := strpbrk n m sbegin ct in
      match send with
      | None => Ok (Some sbegin, None, m)
      | Some send =>
        let* x := load m send in
        if x =? NUL then Ok (Some sbegin, Some send, m)
        else let* m := store m send NUL in Ok (Some sbegin, Some (send + 1), m)
      end
  end.

(** The token and the new value of the caller's pointer. *)
Definition strsep (n : nat) (m : mem) (s : option Z) (ct : Z) : res (option Z * option Z * mem) :=
  match s with
  | None => Ok (None, None, m)
  | Some sbegin =>
    let* e := strpbrk n m sbegin ct in
    match e with
    | None => Ok (Some sbegin, None, m)
    | Some e => let* m := store m e NUL in Ok (Some sbegin, Some (e + 1), m)
    end
  end.

Fixpoint swab_loop (n : nat) (m : mem) (p q : Z) : res mem :=
  match n with
  | O => Hang
  | S n =>
    let* a := load m p in
    if a =? NUL then Ok m
    else
      let* b := load m q in
      if b =? NUL then Ok m
      else
        let* m := store m p b in
        let* m := store m q a in
        swab_loop n m (p + 2) (q + 2)
  end.
Definition strswab (n : nat) (m : mem) (s : option Z) : res (option Z * mem) :=
  match s with
  | None => Ok (None, m)
  | Some s =>
    let* c := load m s in
    if c =? NUL then Ok (None, m)
    else let* m := swab_loop n m s (s + 1) in Ok (Some s, m)
  end.

(** ** What the routines promise *)

(** [n] mapped bytes from [a] on. *)
Definition mapped (m : mem) (a n : Z) : Prop := forall i, 0 <= i < n -> is_Some (m !! (a + i)).
Definition bytes_ok (m : mem) : Prop := forall a v, m !! a = Some v -> 0 <= v < 256.

(** [m'] is [m] with the [n] bytes at [dest] replaced by those [m] has at [src]. *)
Definition moved (m m' : mem) (dest src n : Z) : Prop :=
  forall x, m' !! x = if decide (dest <= x < dest + n) then m !! (x - dest + src) else m !! x.

(** [m'] is [m] with [n] bytes [c] at [s]. *)
Definition filled (m m' : mem) (s c n : Z) : Prop :=
  forall x, m' !! x = if decide (s <= x < s + n) then Some c else m !! x.

(** An upward copy does not overwrite what it still has to read. *)
Definition safe_up (dest src n : Z) : Prop := dest <= src \/ src + n <= dest.

Lemma load_ok m a : is_Some (m !! a) -> exists v, load m a = Ok v /\ m !! a = Some v.
Proof. intros [v E]. exists v. unfold load. by rewrite E. Qed.

Lemma store_ok m a v : is_Some (m !! a) -> store m a v = Ok (<[a := u8 v]> m).
Proof. intros [? E]. unfold store. by rewrite E. Qed.

Lemma bytes_ok_insert m a v : bytes_ok m -> bytes_ok (<[a := u8 v]> m).
Proof.
  intros H x w [[_ <-]|[_ Hw]]%lookup_insert_Some; [by apply (wrap_range 8)|eauto].
Qed.

Lemma bytes_ok_u8 m a v : bytes_ok m -> m !! a = Some v -> u8 v = v.
Proof. intros H E%H. by apply wrap_small. Qed.

Lemma is_Some_insert (m : mem) a v x : is_Some (m !! x) -> is_Some (<[a := v]> m !! x).
Proof.
  intros H. destruct (decide (a = x)) as [->|]; [rewrite lookup_insert_eq; eauto|].
  by rewrite lookup_insert_ne.
Qed.

Lemma mapped_insert m a v b n : mapped m b n -> mapped (<[a := v]> m) b n.
Proof. intros H i Hi. by apply is_Some_insert, H. Qed.

Lemma mapped_shift m a n k : mapped m a n -> 0 <= k -> mapped m (a + k) (n - k).
Proof. intros H Hk i Hi. replace (a + k + i) with (a + (k + i)) by lia. apply H. lia. Qed.
Create HintDb cstring.
#[export] Hint Resolve mapped_insert bytes_ok_insert is_Some_insert : cstring.

Lemma mapped_0 m a n : mapped m a n -> 0 < n -> is_Some (m !! a).
Proof. intros H Hn. rewrite <- (Z.add_0_r a). apply H. lia. Qed.

(** ** Copying *)

Lemma moved_0 m dest src : moved m m dest src 0.
Proof. intros x. by rewrite decide_False by lia. Qed.

Lemma moved_same m dest n : moved m m dest dest n.
Proof. intros x. case_decide; [|done]. f_equal; lia. Qed.

Lemma moved_1 m dest src v : bytes_ok m -> m !! src = Some v -> moved m (<[dest := u8 v]> m) dest src 1.
Proof.
  intros Hb Hv x. rewrite (bytes_ok_u8 m src) by done. case_decide.
  - replace x with dest by lia. rewrite lookup_insert_eq, <- Hv. f_equal; lia.
  - by rewrite lookup_insert_ne by lia.
Qed.

(** Copying [a] bytes and then the next [b]. *)
Lemma moved_app m m1 m2 dest src a b :
  0 <= a -> 0 <= b -> safe_up dest src (a + b) ->
  moved m m1 dest src a -> moved m1 m2 (dest + a) (src + a) b -> moved m m2 dest src (a + b).
Proof.
  intros Ha Hb Hs H1 H2 x. rewrite H2. destruct (decide (dest + a <= x < dest + a + b)).
  - rewrite H1, decide_False by (destruct Hs; lia). rewrite decide_True by lia. f_equal; lia.
  - rewrite H1. destruct (decide (dest <= x < dest + a)); [by rewrite decide_True by lia|].
    by rewrite decide_False by lia.
Qed.

Lemma moved_is_Some m m' dest src n x :
  moved m m' dest src n -> mapped m src n -> is_Some (m !! x) -> is_Some (m' !! x).
Proof.
  intros H Hs Hx. rewrite H. case_decide; [|done].
  replace (x - dest + src) with (src + (x - dest)) by lia. apply Hs. lia.
Qed.

Lemma moved_mapped m m' dest src n b k :
  moved m m' dest src n -> mapped m src n -> mapped m b k -> mapped m' b k.
Proof. intros H Hs Hb i Hi. eapply moved_is_Some; eauto. Qed.

Lemma moved_bytes_ok m m' dest src n : moved m m' dest src n -> bytes_ok m -> bytes_ok m'.
Proof. intros H Hb x v. rewrite H. case_decide; apply Hb. Qed.

Lemma moved_unique m m1 m2 dest src n : moved m m1 dest src n -> moved m m2 dest src n -> m1 = m2.
Proof. intros H1 H2. apply map_eq. intros x. by rewrite H1, H2. Qed.

Lemma copy_up_moved count : forall m dest src,
  bytes_ok m -> mapped m src (Z.of_nat count) -> mapped m dest (Z.of_nat count) ->
  safe_up dest src (Z.of_nat count) ->
  exists m', copy_up count m dest src = Ok m' /\ moved m m' dest src (Z.of_nat count).
Proof.
  induction count as [|count IH]; intros m dest src Hb Hs Hd Hup; simpl copy_up.
  { eexists. split; [done|]. apply moved_0. }
  destruct (load_ok m src) as (v & -> & Hv); [eapply mapped_0; eauto; lia|]. simpl.
  rewrite store_ok by (eapply mapped_0; eauto; lia). simpl.
  apply (mapped_shift _ _ _ 1) in Hs, Hd; [|lia..].
  replace (Z.of_nat (S count) - 1) with (Z.of_nat count) in * by lia.
  destruct (IH (<[dest := u8 v]> m) (dest + 1) (src + 1)) as (m' & -> & Hm');
    [auto with cstring..|destruct Hup; [left|right]; lia|].
  exists m'. split; [done|]. replace (Z.of_nat (S count)) with (1 + Z.of_nat count) by lia.
  eapply moved_app; [lia..| |by apply moved_1|done].
  replace (1 + Z.of_nat count) with (Z.of_nat (S count)) by lia. done.
Qed.

(** Downwards, a copy is safe when the destination is above the source. *)
Lemma copy_down_moved count : forall m dest src,
  bytes_ok m -> mapped m src (Z.of_nat count) -> mapped m dest (Z.of_nat count) -> src <= dest ->
  exists m', copy_down count m (dest + Z.of_nat count) (src + Z.of_nat count) = Ok m' /\
    moved m m' dest src (Z.of_nat count).
Proof.
  induction count as [|count IH]; intros m dest src Hb Hs Hd Hle; simpl copy_down.
  { eexists. split; [done|]. apply moved_0. }
  replace (src + Z.of_nat (S count) - 1) with (src + Z.of_nat count) by lia.
  replace (dest + Z.of_nat (S count) - 1) with (dest + Z.of_nat count) by lia.
  destruct (load_ok m (src + Z.of_nat count)) as (v & -> & Hv); [apply Hs; lia|]. simpl.
  rewrite store_ok by (apply Hd; lia). simpl.
  destruct (IH (<[dest + Z.of_nat count := u8 v]> m) dest src) as (m' & -> & Hm'); [by auto with cstring| | |done|].
  - intros i Hi. apply is_Some_insert, Hs. lia.
  - intros i Hi. apply is_Some_insert, Hd. lia.
  - exists m'. split; [done|]. intros x. rewrite Hm'.
    rewrite (bytes_ok_u8 m (src + Z.of_nat count)) by done.
    destruct (decide (dest <= x < dest + Z.of_nat count)).
    + rewrite decide_True by lia. by rewrite lookup_insert_ne by lia.
    + destruct (decide (x = dest + Z.of_nat count)) as [->|].
      * rewrite decide_True, lookup_insert_eq, <- Hv by lia. f_equal; lia.
      * rewrite decide_False by lia. by rewrite lookup_insert_ne by lia.
Qed.

Lemma memmove_moved m dest src (count : nat) :
  bytes_ok m -> mapped m src (Z.of_nat count) -> mapped m dest (Z.of_nat count) ->
  exists m', memmove m dest src count = Ok (dest, m') /\ moved m m' dest src (Z.of_nat count).
Proof.
  intros Hb Hs Hd. unfold memmove. destruct (Z.eqb_spec src dest) as [->|].
  { exists m. split; [done|]. apply moved_same. }
  destruct (Z.leb_spec dest src).
  - destruct (copy_up_moved count m dest src) as (m' & -> & ?); [done..|by left|]. eauto.
  - destruct (copy_down_moved count m dest src) as (m' & -> & ?); [done..|lia|]. eauto.
Qed.

(** [memmove] copies its [count] bytes however the two areas overlap: afterwards the
    destination holds the bytes the source held before the call, every other byte is as it
    was, and the call returns the destination. *)
Theorem memmove_moves m dest src (count : nat) :
  bytes_ok m -> mapped m src (Z.of_nat count) -> mapped m dest (Z.of_nat count) ->
  exists m', memmove m dest src count = Ok (dest, m') /\ moved m m' dest src (Z.of_nat count).
Proof. apply memmove_moved. Qed.

Definition abc : mem := list_to_map [(1, 97); (2, 98); (3, 99); (4, 100); (5, 101)].

Lemma abc_mapped a n : 1 <= a -> a + n <= 6 -> mapped abc a n.
Proof.
  intros Ha Hn i Hi.
  destruct (decide (a + i = 1)) as [->|]; [by eexists|].
  destruct (decide (a + i = 2)) as [->|]; [by eexists|].
  destruct (decide (a + i = 3)) as [->|]; [by eexists|].
  destruct (decide (a + i = 4)) as [->|]; [by eexists|].
  replace (a + i) with 5 by lia. by eexists.
Qed.

Lemma abc_ok : bytes_ok abc.
Proof.
  apply (map_Forall_to_list (fun _ v => 0 <= v < 256) abc). vm_compute map_to_list.
  repeat constructor; vm_compute; done.
Qed.

Lemma memmove_moves_witness :
  exists m', memmove abc 2 1 4 = Ok (2, m') /\ moved abc m' 2 1 4.
Proof.
  apply (memmove_moves abc 2 1 4); [apply abc_ok|apply abc_mapped; lia|apply abc_mapped; lia].
Defined.

(** ** Word-wise routines *)

(** The bytes of the word at [a]. *)
Lemma load_word_ok m a :
  bytes_ok m -> mapped m a 4 ->
  exists b0 b1 b2 b3, (m !! a = Some b0 /\ m !! (a + 1) = Some b1 /\ m !! (a + 2) = Some b2 /\ m !! (a + 3) = Some b3) /\
    (0 <= b0 < 256 /\ 0 <= b1 < 256 /\ 0 <= b2 < 256 /\ 0 <= b3 < 256) /\
    load_word m a = Ok (b0 + 2 ^ 8 * b1 + 2 ^ 16 * b2 + 2 ^ 24 * b3).
Proof.
  intros Hb Hm. destruct (load_ok m a) as (b0 & E0 & H0); [eapply mapped_0; eauto; lia|].
  destruct (load_ok m (a + 1)) as (b1 & E1 & H1); [apply Hm; lia|].
  destruct (load_ok m (a + 2)) as (b2 & E2 & H2); [apply Hm; lia|].
  destruct (load_ok m (a + 3)) as (b3 & E3 & H3); [apply Hm; lia|].
  exists b0, b1, b2, b3. unfold load_word. rewrite E0, E1, E2, E3.
  split_and!; try done; eapply Hb; eauto.
Qed.

(** A word is stored byte by byte, the low byte first. *)
Lemma store_word_ok m a b0 b1 b2 b3 :
  mapped m a 4 -> 0 <= b0 < 256 -> 0 <= b1 < 256 -> 0 <= b2 < 256 -> 0 <= b3 < 256 ->
  store_word m a (b0 + 2 ^ 8 * b1 + 2 ^ 16 * b2 + 2 ^ 24 * b3) =
  Ok (<[a + 3 := b3]> (<[a + 2 := b2]> (<[a + 1 := b1]> (<[a := b0]> m)))).
Proof.
  intros Hm H0 H1 H2 H3. unfold store_word.
  rewrite store_ok by (eapply mapped_0; eauto; lia). simpl.
  do 2 (rewrite store_ok by (repeat apply is_Some_insert; apply Hm; lia); simpl).
  rewrite store_ok by (repeat apply is_Some_insert; apply Hm; lia).
  rewrite !Z.shiftr_div_pow2 by lia. unfold wrap.
  repeat f_equal; Z.div_mod_to_equations; lia.
Qed.

Lemma word_moved m dest src :
  bytes_ok m -> mapped m src 4 -> mapped m dest 4 ->
  exists m', (let* x := load_word m src in store_word m dest x) = Ok m' /\ moved m m' dest src 4.
Proof.
  intros Hb Hs Hd. destruct (load_word_ok m src) as (b0 & b1 & b2 & b3 & (E0 & E1 & E2 & E3) & (?&?&?&?) & ->); [done..|].
  simpl res_bind. rewrite store_word_ok by done. eexists. split; [done|]. intros x. case_decide.
  - assert (x = dest \/ x = dest + 1 \/ x = dest + 2 \/ x = dest + 3) as [->|[->|[->| ->]]] by lia;
      repeat first [rewrite lookup_insert_eq|rewrite lookup_insert_ne by lia];
      [rewrite <- E0|rewrite <- E1|rewrite <- E2|rewrite <- E3]; f_equal; lia.
  - by rewrite !lookup_insert_ne by lia.
Qed.

Lemma copy_words_moved w rest : forall m dest src,
  let n := 4 * Z.of_nat w + Z.of_nat rest in
  bytes_ok m -> mapped m src n -> mapped m dest n -> safe_up dest src n ->
  exists m', copy_words w rest m dest src = Ok m' /\ moved m m' dest src n.
Proof.
  induction w as [|w IH]; intros m dest src n Hb Hs Hd Hup; subst n; simpl copy_words.
  { by apply copy_up_moved. }
  destruct (word_moved m dest src) as (m1 & E1 & Hm1); [done|intros i Hi; apply Hs; lia|intros i Hi; apply Hd; lia|].
  apply res_bind_ok in E1 as (x & -> & E1). simpl res_bind. rewrite E1. simpl res_bind.
  assert (mapped m src 4) as Hs4 by (intros i Hi; apply Hs; lia).
  apply (mapped_shift _ _ _ 4) in Hs, Hd; [|lia..].
  replace (4 * Z.of_nat (S w) + Z.of_nat rest - 4) with (4 * Z.of_nat w + Z.of_nat rest) in * by lia.
  destruct (IH m1 (dest + 4) (src + 4)) as (m' & -> & Hm').
  - by eapply moved_bytes_ok.
  - by eapply moved_mapped.
  - by eapply moved_mapped.
  - destruct Hup; [left|right]; lia.
  - exists m'. split; [done|]. replace (4 * Z.of_nat (S w) + Z.of_nat rest) with (4 + (4 * Z.of_nat w + Z.of_nat rest)) in * by lia.
    eapply moved_app; [lia..|done|done|done].
Qed.

Lemma div_mod_4 count : 4 * Z.of_nat (count / 4) + Z.of_nat (count mod 4) = Z.of_nat count.
Proof. pose proof (Nat.div_mod count 4). lia. Qed.

(** Also the word-wise [memcpy] writes what a byte copy would, when going upwards is safe. *)
Lemma memcpy_moved m dest src (count : nat) :
  bytes_ok m -> mapped m src (Z.of_nat count) -> mapped m dest (Z.of_nat count) ->
  safe_up dest src (Z.of_nat count) ->
  exists m', memcpy m dest src count = Ok (dest, m') /\ moved m m' dest src (Z.of_nat count).
Proof.
  intros Hb Hs Hd Hup. unfold memcpy. destruct (Z.eqb_spec src dest) as [->|].
  { exists m. split; [done|]. apply moved_same. }
  case_if.
  - destruct (copy_words_moved (count / 4) (count mod 4) m dest src) as (m' & -> & Hm');
      rewrite ?div_mod_4; [done..|]. rewrite div_mod_4 in Hm'. eauto.
  - destruct (copy_up_moved count m dest src) as (m' & -> & ?); [done..|]. eauto.
Qed.

(** The word-wise [memcpy] is [memmove]: on areas that do not overlap, or that overlap with
    the destination below the source, both return the same memory, whatever the alignment
    and however many bytes are left after the last whole word. *)
Theorem memcpy_is_memmove m dest src (count : nat) :
  bytes_ok m -> mapped m src (Z.of_nat count) -> mapped m dest (Z.of_nat count) ->
  safe_up dest src (Z.of_nat count) ->
  memcpy m dest src count = memmove m dest src count.
Proof.
  intros Hb Hs Hd Hup.
  destruct (memcpy_moved m dest src count) as (m1 & -> & H1); [done..|].
  destruct (memmove_moved m dest src count) as (m2 & -> & H2); [done..|].
  by rewrite (moved_unique _ _ _ _ _ _ H1 H2).
Qed.

(** Sixteen mapped bytes. *)
Definition flat (n : nat) : mem := list_to_map (map (fun i => (Z.of_nat i, Z.of_nat i)) (seq 0 n)).

Lemma flat_lookup n a : 0 <= a < Z.of_nat n -> flat n !! a = Some a.
Proof.
  intros Ha. unfold flat. apply elem_of_list_to_map_1.
  - rewrite <- list_fmap_compose. apply NoDup_fmap_2; [intros ?? ?; simpl in *; lia|]. apply NoDup_seq.
  - apply list_elem_of_fmap. exists (Z.to_nat a). split; [f_equal; lia|]. apply elem_of_seq. lia.
Qed.

Lemma flat_ok n : (n <= 256)%nat -> bytes_ok (flat n).
Proof.
  intros Hn a v E%elem_of_list_to_map_2. apply list_elem_of_fmap in E as (i & [= -> ->] & Hi%elem_of_seq). lia.
Qed.

Lemma flat_mapped n a k : 0 <= a -> a + k <= Z.of_nat n -> mapped (flat n) a k.
Proof. intros ?? i Hi. rewrite flat_lookup by lia. eauto. Qed.
#[export] Hint Resolve flat_ok flat_mapped : cstring.

Lemma memcpy_is_memmove_witness : memcpy (flat 16) 4 8 7 = memmove (flat 16) 4 8 7.
Proof.
  apply (memcpy_is_memmove (flat 16) 4 8 7);
    [apply flat_ok; lia|apply flat_mapped; lia|apply flat_mapped; lia|left; lia].
Defined.

(** ** Filling *)

Lemma filled_0 m s c : filled m m s c 0.
Proof. intros x. by rewrite decide_False by lia. Qed.

Lemma filled_app m m1 m2 s c a b :
  0 <= a -> 0 <= b -> filled m m1 s c a -> filled m1 m2 (s + a) c b -> filled m m2 s c (a + b).
Proof.
  intros Ha Hb H1 H2 x. rewrite H2, H1.
  destruct (decide (s + a <= x < s + a + b)); [by rewrite decide_True by lia|].
  destruct (decide (s <= x < s + a)); [by rewrite decide_True by lia|by rewrite decide_False by lia].
Qed.

Lemma filled_mapped m m' s c n b k : filled m m' s c n -> mapped m b k -> mapped m' b k.
Proof. intros H Hb i Hi. rewrite H. case_decide; eauto. Qed.

Lemma fill_bytes_filled count : forall m s c,
  mapped m s (Z.of_nat count) ->
  exists m', fill_bytes count m s c = Ok m' /\ filled m m' s (u8 c) (Z.of_nat count).
Proof.
  induction count as [|count IH]; intros m s c Hm; simpl fill_bytes.
  { eexists. split; [done|]. apply filled_0. }
  rewrite store_ok by (eapply mapped_0; eauto; lia). simpl.
  apply (mapped_shift _ _ _ 1) in Hm; [|lia].
  replace (Z.of_nat (S count) - 1) with (Z.of_nat count) in * by lia.
  destruct (IH (<[s := u8 c]> m) (s + 1) c) as (m' & -> & Hm'); [by apply mapped_insert|].
  exists m'. split; [done|]. replace (Z.of_nat (S count)) with (1 + Z.of_nat count) by lia.
  eapply filled_app; [lia..| |done]. intros x. case_decide.
  - replace x with s by lia. by rewrite lookup_insert_eq.
  - by rewrite lookup_insert_ne by lia.
Qed.

(** The word [memset] stores has the byte four times. *)
Lemma spread_bytes c : spread c = u8 c + 2 ^ 8 * u8 c + 2 ^ 16 * u8 c + 2 ^ 24 * u8 c.
Proof.
  assert (c .& 0xff = u8 c) as E by apply (Z.land_ones c 8 ltac:(done)).
  assert (spread c = spread (u8 c)) as ->.
  { unfold spread. replace (u8 c .& 255) with (c .& 255); [done|].
    rewrite E. change 255 with (Z.ones 8). rewrite Z.land_ones by done.
    symmetry. apply wrap_idem. }
  apply Z.eqb_eq.
  apply (all_bytes (fun b => spread b =? b + 2 ^ 8 * b + 2 ^ 16 * b + 2 ^ 24 * b)); [reflexivity|].
  by apply (wrap_range 8).
Qed.

Lemma word_filled m s c :
  mapped m s 4 -> exists m', store_word m s (spread c) = Ok m' /\ filled m m' s (u8 c) 4.
Proof.
  intros Hm. pose proof (wrap_range 8 c ltac:(done)). rewrite spread_bytes, store_word_ok by done.
  eexists. split; [done|]. intros x. case_decide.
  - assert (x = s \/ x = s + 1 \/ x = s + 2 \/ x = s + 3) as [->|[->|[->| ->]]] by lia;
      repeat first [rewrite lookup_insert_eq|rewrite lookup_insert_ne by lia]; done.
  - by rewrite !lookup_insert_ne by lia.
Qed.

Lemma fill_words_filled w rest : forall m s c,
  mapped m s (4 * Z.of_nat w + Z.of_nat rest) ->
  exists m', fill_words w rest m s (spread c) c = Ok m' /\
    filled m m' s (u8 c) (4 * Z.of_nat w + Z.of_nat rest).
Proof.
  induction w as [|w IH]; intros m s c Hm; simpl fill_words.
  { by apply fill_bytes_filled. }
  destruct (word_filled m s c) as (m1 & -> & Hm1); [intros i Hi; apply Hm; lia|]. simpl res_bind.
  apply (mapped_shift _ _ _ 4) in Hm; [|lia].
  destruct (IH m1 (s + 4) c) as (m' & -> & Hm').
  { eapply filled_mapped; [done|]. by replace (4 * Z.of_nat w + Z.of_nat rest)
      with (4 * Z.of_nat (S w) + Z.of_nat rest - 4) by lia. }
  exists m'. split; [done|].
  replace (4 * Z.of_nat (S w) + Z.of_nat rest) with (4 + (4 * Z.of_nat w + Z.of_nat rest)) by lia.
  eapply filled_app; [lia..|done|done].
Qed.

(** [memset] stores the low byte of [c] in each of the [count] bytes of the area and nothing
    else, whether it goes word by word (an aligned area) or byte by byte. *)
Theorem memset_fills m s c (count : nat) :
  mapped m s (Z.of_nat count) ->
  exists m', memset m s c count = Ok (s, m') /\ filled m m' s (u8 c) (Z.of_nat count).
Proof.
  intros Hm. unfold memset. case_if.
  - destruct (fill_words_filled (count / 4) (count mod 4) m s c) as (m' & -> & Hm');
      rewrite ?div_mod_4; [done|]. rewrite div_mod_4 in Hm'. eauto.
  - destruct (fill_bytes_filled count m s c) as (m' & -> & ?); [done|]. eauto.
Qed.

Lemma memset_fills_witness :
  exists m', memset (flat 16) 4 0x1aa 7 = Ok (4, m') /\ filled (flat 16) m' 4 0xaa 7.
Proof. apply (memset_fills (flat 16) 4 0x1aa 7). apply flat_mapped; lia. Defined.

(** ** Searching for a byte that differs *)

(** The answer of a search for a byte other than [v] in [n] bytes from [a]. *)
Definition first_other (m : mem) (a v n : Z) (r : option Z) : Prop :=
  match r with
  | Some p => a <= p < a + n /\ m !! p <> Some v /\ forall q, a <= q < p -> m !! q = Some v
  | None => forall q, a <= q < a + n -> m !! q = Some v
  end.

Lemma check_bytes8_first bytes : forall m a v,
  mapped m a (Z.of_nat bytes) ->
  exists r, check_bytes8 m a v bytes = Ok r /\ first_other m a v (Z.of_nat bytes) r.
Proof.
  induction bytes as [|bytes IH]; intros m a v Hm; simpl check_bytes8.
  { eexists. split; [done|]. intros q. lia. }
  destruct (load_ok m a) as (b & -> & Hb); [eapply mapped_0; eauto; lia|]. simpl.
  apply (mapped_shift _ _ _ 1) in Hm; [|lia]. destruct (Z.eqb_spec b v) as [->|]; simpl.
  - destruct (IH m (a + 1) v) as (r & -> & Hr).
    { by replace (Z.of_nat bytes) with (Z.of_nat (S bytes) - 1) by lia. }
    exists r. split; [done|]. destruct r as [p|]; simpl in *.
    + destruct Hr as (? & ? & Hq). split_and!; [lia..|done|]. intros q Hlt.
      destruct (decide (q = a)) as [->|]; [done|]. apply Hq. lia.
    + intros q Hlt. destruct (decide (q = a)) as [->|]; [done|]. apply Hr. lia.
  - eexists. split; [done|]. simpl. split_and!; [lia..|congruence|]. intros q. lia.
Qed.

Lemma check_bytes8_app i j : forall m a v,
  check_bytes8 m a v (i + j) =
  let* r := check_bytes8 m a v i in
  match r with Some p => Ok (Some p) | None => check_bytes8 m (a + Z.of_nat i) v j end.
Proof.
  induction i as [|i IH]; intros m a v; simpl.
  { by rewrite Z.add_0_r. }
  destruct (load m a); simpl; [|done..]. case_if; [done|]. rewrite IH.
  by replace (a + 1 + Z.of_nat i) with (a + Z.of_nat (S i)) by lia.
Qed.

Lemma value64_bytes v : 0 <= v < 256 ->
  let value64 := v in
  let value64 := value64 .| u64 (value64 .<< 8) in
  let value64 := value64 .| u64 (value64 .<< 16) in
  value64 .| u64 (value64 .<< 32) = v * 0x0101010101010101.
Proof.
  intros Hv. simpl. apply Z.eqb_eq. pattern v.
  match goal with |- ?P v => set (Q := P) end.
  change (Q v) with ((fun v => let value64 := v in
    let value64 := value64 .| u64 (value64 .<< 8) in
    let value64 := value64 .| u64 (value64 .<< 16) in
    (value64 .| u64 (value64 .<< 32) =? v * 0x0101010101010101)) v = true).
  apply (all_bytes (fun v => let value64 := v in
    let value64 := value64 .| u64 (value64 .<< 8) in
    let value64 := value64 .| u64 (value64 .<< 16) in
    (value64 .| u64 (value64 .<< 32) =? v * 0x0101010101010101))); [reflexivity|done].
Qed.

Lemma low_digit b v r s : 0 <= b < 256 -> 0 <= v < 256 -> b + 256 * r = v + 256 * s -> b = v /\ r = s.
Proof. lia. Qed.

(** The word comparison succeeds exactly when all eight bytes agree. *)
Lemma word64_compare m a v :
  bytes_ok m -> mapped m a 8 -> 0 <= v < 256 ->
  exists x, load_word64 m a = Ok x /\
    ((x =? v * 0x0101010101010101) = true <-> check_bytes8 m a v 8 = Ok None).
Proof.
  intros Hb Hm Hv. unfold load_word64.
  destruct (load_word_ok m a) as (b0 & b1 & b2 & b3 & (E0 & E1 & E2 & E3) & (?&?&?&?) & ->);
    [done|intros i Hi; apply Hm; lia|].
  destruct (load_word_ok m (a + 4)) as (b4 & b5 & b6 & b7 & (E4 & E5 & E6 & E7) & (?&?&?&?) & ->);
    [done|intros i Hi; replace (a + 4 + i) with (a + (4 + i)) by lia; apply Hm; lia|].
  simpl res_bind. eexists. split; [done|].
  destruct (check_bytes8_first 8 m a v) as (r & -> & Hr); [done|]. rewrite Z.eqb_eq. split.
  - intros Heq. destruct r as [p|]; [|done]. destruct Hr as (Hp & Hne & _).
    assert (b0 = v /\ b1 = v /\ b2 = v /\ b3 = v /\ b4 = v /\ b5 = v /\ b6 = v /\ b7 = v) as Hall.
    { destruct (low_digit b0 v (b1 + 256 * (b2 + 256 * (b3 + 256 * (b4 + 256 * (b5 + 256 * (b6 + 256 * b7)))))) (v * 0x01010101010101)) as [-> H0']; [lia..|]. clear Heq.
      destruct (low_digit b1 v (b2 + 256 * (b3 + 256 * (b4 + 256 * (b5 + 256 * (b6 + 256 * b7))))) (v * 0x010101010101)) as [-> H1']; [lia|lia|rewrite H0'; lia|]. clear H0'.
      destruct (low_digit b2 v (b3 + 256 * (b4 + 256 * (b5 + 256 * (b6 + 256 * b7)))) (v * 0x0101010101)) as [-> H2']; [lia|lia|rewrite H1'; lia|]. clear H1'.
      destruct (low_digit b3 v (b4 + 256 * (b5 + 256 * (b6 + 256 * b7))) (v * 0x01010101)) as [-> H3']; [lia|lia|rewrite H2'; lia|]. clear H2'.
      destruct (low_digit b4 v (b5 + 256 * (b6 + 256 * b7)) (v * 0x010101)) as [-> H4']; [lia|lia|rewrite H3'; lia|]. clear H3'.
      destruct (low_digit b5 v (b6 + 256 * b7) (v * 0x0101)) as [-> H5']; [lia|lia|rewrite H4'; lia|]. clear H4'.
      destruct (low_digit b6 v b7 (v * 1)) as [-> H6']; [lia|lia|rewrite H5'; lia|]. clear H5'.
      split_and!; lia. }
    destruct Hall as (->&->&->&->&->&->&->&->). exfalso. apply Hne.
    assert (p = a \/ p = a + 1 \/ p = a + 2 \/ p = a + 3 \/ p = a + 4 \/ p = a + 4 + 1 \/ p = a + 4 + 2 \/ p = a + 4 + 3)
      as [->|[->|[->|[->|[->|[->|[->| ->]]]]]]] by lia; done.
  - intros [= ->]. simpl in Hr.
    rewrite Hr in E0, E1, E2, E3, E4, E5, E6, E7 by lia. simplify_eq. lia.
Qed.

Lemma words_loop_naive words rest : forall m a v,
  bytes_ok m -> mapped m a (8 * Z.of_nat words + Z.of_nat rest) -> 0 <= v < 256 ->
  words_loop m a v (v * 0x0101010101010101) words rest = check_bytes8 m a v (8 * words + rest).
Proof.
  induction words as [|words IH]; intros m a v Hb Hm Hv; cbn [words_loop]; [done|].
  destruct (word64_compare m a v) as (x & -> & Hx); [done|intros i Hi; apply Hm; lia|done|].
  simpl res_bind. replace (8 * S words + rest)%nat with (8 + (8 * words + rest))%nat by lia.
  rewrite check_bytes8_app. case_if.
  - destruct (check_bytes8_first 8 m a v) as (r & E & Hr); [intros i Hi; apply Hm; lia|].
    rewrite E. destruct r; [done|]. apply Hx in E. by rewrite E in Hif.
  - apply negb_false_iff, Hx in Hif. rewrite Hif. simpl. apply IH; [done| |done].
    apply (mapped_shift _ _ _ 8) in Hm; [|lia].
    by replace (8 * Z.of_nat words + Z.of_nat rest) with (8 * Z.of_nat (S words) + Z.of_nat rest - 8) by lia.
Qed.

Lemma div_mod_8 n : (8 * (n / 8) + n mod 8)%nat = n.
Proof. pose proof (Nat.div_mod n 8). lia. Qed.

Lemma memchr_inv_naive m start c (bytes : nat) :
  bytes_ok m -> mapped m start (Z.of_nat bytes) ->
  memchr_inv m start c bytes = check_bytes8 m start (u8 c) bytes.
Proof.
  intros Hb Hm. unfold memchr_inv. pose proof (wrap_range 8 c ltac:(done)) as Hv.
  case_decide as Hn; [done|]. rewrite (value64_bytes (u8 c)) by done.
  pose proof (Z.mod_pos_bound start 8 ltac:(done)). case_if.
  - set (prefix := Z.to_nat (8 - start mod 8)).
    transitivity (check_bytes8 m start (u8 c) (prefix + (bytes - prefix))); [|f_equal; lia].
    rewrite check_bytes8_app.
    destruct (check_bytes8 m start (u8 c) prefix) as [[p|]| |]; [done| |done..]. cbn [res_bind].
    rewrite words_loop_naive, div_mod_8; [done|done| |done].
    pose proof (div_mod_8 (bytes - prefix)). apply (mapped_shift _ _ _ (Z.of_nat prefix)) in Hm; [|lia].
    intros i Hi. apply Hm. lia.
  - rewrite words_loop_naive, div_mod_8; [done|done| |done].
    pose proof (div_mod_8 bytes). intros i Hi. apply Hm. lia.
Qed.

(** [memchr_inv], which compares eight bytes at a time after an unaligned prefix, answers what
    a byte-by-byte search answers: the first address whose byte is not [c], or [NULL] when the
    whole area holds [c]; it reads only the area. *)
Theorem memchr_inv_finds m start c (bytes : nat) :
  bytes_ok m -> mapped m start (Z.of_nat bytes) ->
  exists r, memchr_inv m start c bytes = Ok r /\ first_other m start (u8 c) (Z.of_nat bytes) r.
Proof. intros Hb Hm. rewrite memchr_inv_naive by done. by apply check_bytes8_first. Qed.

Lemma memchr_inv_finds_witness :
  exists r, memchr_inv (flat 64) 3 3 40 = Ok r /\ first_other (flat 64) 3 3 40 r.
Proof. apply (memchr_inv_finds (flat 64) 3 3 40); [apply flat_ok; lia|apply flat_mapped; lia]. Defined.
