(* ===== verification/CstrProps.v ===== *)
(** * What the string routines of [lib/string.c] compute

    The routines of [Cstring] related to lists of bytes: a string is the bytes before the
    first NUL. *)
From S2P Require Import Prelude Ctype Cstring.

(** The string [l] is stored at [a], with its NUL. *)
Fixpoint string_at (m : mem) (a : Z) (l : list Z) : Prop :=
  match l with
  | [] => m !! a = Some NUL
  | c :: l => 0 < c < 256 /\ m !! a = Some c /\ string_at m (a + 1) l
  end.

Lemma load_some m a v : m !! a = Some v -> load m a = Ok v.
Proof. intros H. unfold load. by rewrite H. Qed.

Lemma string_at_lookup l : forall m a i c,
  string_at m a l -> l !! i = Some c -> 0 < c < 256 /\ m !! (a + Z.of_nat i) = Some c.
Proof.
  induction l as [|x l IH]; intros m a i c Hs Hi; [done|]. destruct Hs as (Hx & Ha & Hs).
  destruct i as [|i]; simpl in Hi; simplify_eq.
  - by rewrite Z.add_0_r.
  - destruct (IH m (a + 1) i c) as [? E]; [done..|]. split; [done|]. rewrite <- E. f_equal; lia.
Qed.

Lemma string_at_nul l : forall m a, string_at m a l -> m !! (a + Z.of_nat (length l)) = Some NUL.
Proof.
  induction l as [|x l IH]; intros m a Hs; simpl in *; [by rewrite Z.add_0_r|].
  destruct Hs as (_ & _ & Hs). rewrite <- (IH _ _ Hs). f_equal; lia.
Qed.

Lemma string_at_app l1 : forall m a l2,
  string_at m a (l1 ++ l2) -> string_at m (a + Z.of_nat (length l1)) l2.
Proof.
  induction l1 as [|x l1 IH]; intros m a l2 Hs; simpl in *; [by rewrite Z.add_0_r|].
  destruct Hs as (_ & _ & Hs). replace (a + Z.of_nat (S (length l1))) with (a + 1 + Z.of_nat (length l1)) by lia. eauto.
Qed.

(** A string is determined by its bytes. *)
Lemma string_at_intro l : forall m a,
  Forall (fun c => 0 < c < 256) l ->
  (forall i c, l !! i = Some c -> m !! (a + Z.of_nat i) = Some c) ->
  m !! (a + Z.of_nat (length l)) = Some NUL -> string_at m a l.
Proof.
  induction l as [|x l IH]; intros m a Hl Hi Hn; simpl in *.
  { by rewrite Z.add_0_r in Hn. }
  inversion_clear Hl. split_and!; [lia..| |].
  - rewrite <- (Z.add_0_r a). by apply (Hi 0%nat).
  - apply IH; [done| |].
    + intros i c Hc. rewrite <- (Hi (S i) c) by done. f_equal; lia.
    + rewrite <- Hn. f_equal; lia.
Qed.

Lemma string_at_bytes l m a : string_at m a l -> Forall (fun c => 0 < c < 256) l.
Proof.
  intros Hs. apply Forall_lookup. intros i c Hi. by eapply string_at_lookup in Hi as [? _].
Qed.

(** Bytes that are not part of the string do not matter. *)
Lemma string_at_ext l m m' a :
  (forall i, 0 <= i <= Z.of_nat (length l) -> m' !! (a + i) = m !! (a + i)) ->
  string_at m a l -> string_at m' a l.
Proof.
  intros He Hs. apply string_at_intro.
  - by eapply string_at_bytes.
  - intros i c Hi. assert (i < length l)%nat by by eapply lookup_lt_Some.
    rewrite He by lia. by eapply string_at_lookup.
  - rewrite He by lia. by apply string_at_nul.
Qed.

(** ** Length *)

Lemma strend_ok l : forall n m a,
  string_at m a l -> (length l < n)%nat -> strend n m a = Ok (a + Z.of_nat (length l)).
Proof.
  induction l as [|x l IH]; intros [|n] m a Hs Hn; simpl in *; [lia| |lia|].
  - rewrite (load_some _ _ _ Hs). simpl. by rewrite Z.add_0_r.
  - destruct Hs as (Hx & Ha & Hs). rewrite (load_some _ _ _ Ha). simpl.
    destruct (Z.eqb_spec x NUL); [unfold NUL in *; lia|]. rewrite IH by (done || lia). f_equal; lia.
Qed.

(** The loops that look for the NUL end after [length l + 1] rounds. *)
Lemma strlen_ok l n m a :
  string_at m a l -> (length l < n)%nat -> strlen n m a = Ok (Z.of_nat (length l)).
Proof. intros Hs Hn. unfold strlen. rewrite (strend_ok l) by done. simpl. f_equal; lia. Qed.

(** ** Comparison *)

(** The difference at the first byte where the two strings, each with its NUL, differ. *)
Fixpoint cmp_bytes (l1 l2 : list Z) : Z :=
  match l1, l2 with
  | [], [] => 0
  | [], c2 :: _ => NUL - c2
  | c1 :: _, [] => c1 - NUL
  | c1 :: l1, c2 :: l2 => if c1 =? c2 then cmp_bytes l1 l2 else c1 - c2
  end.

Lemma cmp_bytes_range l1 : forall l2,
  Forall (fun c => 0 < c < 256) l1 -> Forall (fun c => 0 < c < 256) l2 ->
  -256 < cmp_bytes l1 l2 < 256 /\ (cmp_bytes l1 l2 = 0 <-> l1 = l2).
Proof.
  induction l1 as [|c1 l1 IH]; intros [|c2 l2] H1 H2; simpl; unfold NUL;
    try inversion_clear H1; try inversion_clear H2.
  - done.
  - split; [lia|]. split; [lia|done].
  - split; [lia|]. split; [lia|done].
  - destruct (Z.eqb_spec c1 c2) as [->|].
    + destruct (IH l2) as [? IHl]; [done..|]. split; [lia|]. rewrite IHl. split; [by intros ->|congruence].
    + split; [lia|]. split; [lia|congruence].
Qed.

Lemma s8_zero d : -256 < d < 256 -> s8 d = 0 <-> d = 0.
Proof. intros Hd. unfold swrap. simpl Z.pow. Z.div_mod_to_equations. lia. Qed.

Lemma strcmp_ok l1 : forall l2 n m a b,
  string_at m a l1 -> string_at m b l2 -> (length l1 < n)%nat ->
  strcmp n m a b = Ok (s8 (cmp_bytes l1 l2)).
Proof.
  induction l1 as [|c1 l1 IH]; intros [|c2 l2] [|n] m a b H1 H2 Hn; simpl in *; try lia.
  - by rewrite (load_some _ _ _ H1), (load_some _ _ _ H2).
  - destruct H2 as (? & H2 & _). rewrite (load_some _ _ _ H1), (load_some _ _ _ H2). simpl.
    by rewrite orb_true_r.
  - destruct H1 as (? & H1 & _). rewrite (load_some _ _ _ H1), (load_some _ _ _ H2). simpl.
    destruct (Z.eqb_spec (s8 (c1 - NUL)) 0) as [E|]; [|done].
    unfold NUL in *. rewrite s8_zero in E by lia. lia.
  - destruct H1 as (? & E1 & H1), H2 as (? & E2 & H2).
    rewrite (load_some _ _ _ E1), (load_some _ _ _ E2). simpl.
    destruct (Z.eqb_spec c1 c2) as [->|Hne].
    + rewrite Z.sub_diag. change (s8 0) with 0. simpl.
      destruct (Z.eqb_spec c2 NUL); [unfold NUL in *; lia|]. apply IH; [done..|lia].
    + destruct (Z.eqb_spec (s8 (c1 - c2)) 0) as [E|]; [|done]. rewrite s8_zero in E by lia. lia.
Qed.

(** [strcmp] stops after the first string's length and tells equality: it returns 0 exactly for
    equal strings.  The result is the difference of the first differing bytes in a signed
    char: between strings of 7-bit characters it is that difference and so orders them, but
    a difference of 128 or more comes out negative, which reverses the order. *)
Theorem strcmp_compares m a b l1 l2 (n : nat) :
  string_at m a l1 -> string_at m b l2 -> (length l1 < n)%nat ->
  exists r, strcmp n m a b = Ok r /\ (r = 0 <-> l1 = l2) /\
    (-128 <= cmp_bytes l1 l2 < 128 -> r = cmp_bytes l1 l2) /\
    (128 <= cmp_bytes l1 l2 -> r < 0).
Proof.
  intros H1 H2 Hn. eexists. split; [by eapply strcmp_ok|].
  destruct (cmp_bytes_range l1 l2) as [Hr Hz]; [by eapply string_at_bytes..|]. split_and!.
  - by rewrite s8_zero.
  - intros Hs. by apply swrap_small.
  - intros Hs. unfold swrap. simpl Z.pow. Z.div_mod_to_equations. lia.
Qed.

(** The strings [ab] and [aé] (in Latin-1). *)
Definition two_strings : mem :=
  list_to_map [(10, 97); (11, 98); (12, 0); (20, 97); (21, 233); (22, 0)].

Lemma two_strings_at : string_at two_strings 10 [97; 98] /\ string_at two_strings 20 [97; 233].
Proof. vm_compute. repeat split; done. Qed.

Lemma strcmp_compares_witness :
  exists r, strcmp 4 two_strings 20 10 = Ok r /\ (r = 0 <-> [97; 233] = [97; 98]) /\
    (-128 <= cmp_bytes [97; 233] [97; 98] < 128 -> r = cmp_bytes [97; 233] [97; 98]) /\
    (128 <= cmp_bytes [97; 233] [97; 98] -> r < 0).
Proof.
  apply (strcmp_compares two_strings 20 10 [97; 233] [97; 98] 4); [apply two_strings_at|apply two_strings_at|simpl; lia].
Defined.

(** *** Ignoring case *)

Lemma tolower_pos c : 0 < c < 256 -> 0 < tolower c < 256.
Proof. intros Hc. pose proof (tolower_range c). pose proof (tolower_nul c). lia. Qed.

Lemma strncasecmp_loop_ok l1 : forall l2 n m a b len,
  string_at m a l1 -> string_at m b l2 -> (length l1 < n)%nat ->
  Z.of_nat (length l1) < len < 2 ^ 32 ->
  exists r, strncasecmp_loop n m a b len = Ok r /\ (r = 0 <-> map tolower l1 = map tolower l2).
Proof.
  induction l1 as [|c1 l1 IH]; intros [|c2 l2] [|n] m a b len H1 H2 Hn Hlen; simpl in *; try lia.
  - rewrite (load_some _ _ _ H1), (load_some _ _ _ H2). simpl. by exists 0.
  - destruct H2 as (? & H2 & _). rewrite (load_some _ _ _ H1), (load_some _ _ _ H2). simpl.
    eexists. split; [done|]. split; [unfold NUL; lia|done].
  - destruct H1 as (? & H1 & _). rewrite (load_some _ _ _ H1), (load_some _ _ _ H2). simpl.
    rewrite orb_true_r. eexists. split; [done|]. split; [unfold NUL; lia|done].
  - destruct H1 as (Hc1 & E1 & H1), H2 as (Hc2 & E2 & H2).
    rewrite (load_some _ _ _ E1), (load_some _ _ _ E2). simpl.
    destruct (Z.eqb_spec c1 NUL), (Z.eqb_spec c2 NUL); unfold NUL in *; try lia. simpl.
    assert (u32 (len - 1) = len - 1) as El by (apply wrap_small; lia).
    assert (forall d1 d2, (d1 = d2 <-> tolower c1 = tolower c2) ->
      exists r, (if negb (d1 =? d2) then Ok (d1 - d2)
        else if u32 (len - 1) =? 0 then Ok (d1 - d2)
        else strncasecmp_loop n m (a + 1) (b + 1) (u32 (len - 1))) = Ok r /\
        (r = 0 <-> tolower c1 :: map tolower l1 = tolower c2 :: map tolower l2)) as Hstep.
    { intros d1 d2 Hd. rewrite El. destruct (Z.eqb_spec d1 d2) as [Heq|Hne]; simpl.
      - destruct (Z.eqb_spec (len - 1) 0); [lia|].
        destruct (IH l2 n m (a + 1) (b + 1) (len - 1)) as (r & -> & Hr); [done..|lia|lia|].
        exists r. split; [done|]. rewrite Hr. apply Hd in Heq. rewrite Heq. split; [by intros ->|congruence].
      - eexists. split; [done|]. split; [lia|]. intros [= E _]. by apply Hd in E. }
    destruct (Z.eqb_spec c1 c2) as [->|]; by apply Hstep.
Qed.

(** [strcasecmp] returns 0 exactly for strings that are equal up to the case of their letters. *)
Theorem strcasecmp_ignores_case m a b l1 l2 (n : nat) :
  string_at m a l1 -> string_at m b l2 -> (length l1 < n)%nat -> Z.of_nat (length l1) < 2 ^ 32 - 1 ->
  exists r, strcasecmp n m a b = Ok r /\ (r = 0 <-> map tolower l1 = map tolower l2).
Proof.
  intros H1 H2 Hn Hl. unfold strcasecmp, strncasecmp. change (u32 (-1)) with (2 ^ 32 - 1).
  apply strncasecmp_loop_ok; (done || lia).
Qed.

(** ** Searching for a string *)

(** [k] bytes at [a]. *)
Definition bytes_at (m : mem) (a : Z) (bs : list Z) : Prop :=
  forall i c, bs !! i = Some c -> m !! (a + Z.of_nat i) = Some c.

Lemma bytes_at_cons m a c bs : bytes_at m a (c :: bs) <-> m !! a = Some c /\ bytes_at m (a + 1) bs.
Proof.
  split.
  - intros H. split; [rewrite <- (Z.add_0_r a); by apply (H 0%nat)|].
    intros i x Hx. rewrite <- (H (S i) x) by done. f_equal; lia.
  - intros [Ha H] [|i] x Hx; simpl in Hx; simplify_eq; [by rewrite Z.add_0_r|].
    rewrite <- (H i x) by done. f_equal; lia.
Qed.

Lemma memcmp_zero bs1 : forall m a b bs2,
  bytes_at m a bs1 -> bytes_at m b bs2 -> length bs1 = length bs2 ->
  exists r, memcmp m a b (length bs1) = Ok r /\ (r = 0 <-> bs1 = bs2).
Proof.
  induction bs1 as [|c1 bs1 IH]; intros m a b [|c2 bs2] H1 H2 Hl; simpl in *; try lia; [by exists 0|].
  apply bytes_at_cons in H1 as [E1 H1], H2 as [E2 H2].
  rewrite (load_some _ _ _ E1), (load_some _ _ _ E2). simpl. destruct (Z.eqb_spec (c1 - c2) 0); simpl.
  - destruct (IH m (a + 1) (b + 1) bs2) as (r & -> & Hr); [done..|lia|]. exists r. split; [done|].
    rewrite Hr. assert (c1 = c2) as -> by lia. split; [by intros ->|congruence].
  - eexists. split; [done|]. split; [lia|]. intros [= -> _]. lia.
Qed.

Lemma string_at_window l m a i k :
  string_at m a l -> bytes_at m (a + Z.of_nat i) (take k (drop i l)).
Proof.
  intros Hs j c Hj. apply lookup_take_Some in Hj as [Hj _]. rewrite lookup_drop in Hj.
  replace (a + Z.of_nat i + Z.of_nat j) with (a + Z.of_nat (i + j)) by lia. by eapply string_at_lookup.
Qed.

(** [l2] occurs in [l1] at [i]. *)
Definition occurs_at (l1 l2 : list Z) (i : nat) : Prop := l2 `prefix_of` drop i l1.

Lemma occurs_at_take l1 l2 i : occurs_at l1 l2 i <-> take (length l2) (drop i l1) = l2.
Proof.
  unfold occurs_at. split.
  - intros [k ->]. by rewrite take_app_length.
  - intros E. exists (drop (length l2) (drop i l1)). rewrite <- E at 1. by rewrite take_drop.
Qed.

Lemma occurs_at_bound l1 l2 i : l2 <> [] -> occurs_at l1 l2 i -> (i + length l2 <= length l1)%nat.
Proof.
  intros Hne H%prefix_length. rewrite length_drop in H. destruct l2; [done|]. simpl in *. lia.
Qed.

Definition first_occurrence (a : Z) (l1 l2 : list Z) (r : option Z) : Prop :=
  match r with
  | Some p => exists i, p = a + Z.of_nat i /\ occurs_at l1 l2 i /\ forall j, (j < i)%nat -> ~ occurs_at l1 l2 j
  | None => forall i, ~ occurs_at l1 l2 i
  end.

Lemma strstr_loop_ok l1 l2 m a b k : forall i,
  string_at m a l1 -> string_at m b l2 -> l2 <> [] -> (i + k + length l2 = length l1)%nat ->
  (forall j, (j < i)%nat -> ~ occurs_at l1 l2 j) ->
  exists r, strstr_loop k m (a + Z.of_nat i) b (length l2) = Ok r /\ first_occurrence a l1 l2 r.
Proof.
  induction k as [|k IH]; intros i H1 H2 Hne Hl Hj; simpl strstr_loop.
  all: destruct (memcmp_zero (take (length l2) (drop i l1)) m (a + Z.of_nat i) b l2) as (r & E & Hr);
    [by apply string_at_window|intros j c Hc; by eapply string_at_lookup
    |rewrite length_take, length_drop; lia|].
  all: rewrite length_take, length_drop, Nat.min_l in E by lia; rewrite E; simpl; rewrite <- occurs_at_take in Hr.
  all: destruct (Z.eqb_spec r 0) as [->|Hz]; [eexists; split; [done|]; simpl; exists i; split_and!; [done|by apply Hr|done]|].
  - eexists. split; [done|]. intros j Ho. pose proof (occurs_at_bound _ _ _ Hne Ho).
    destruct (decide (j = i)) as [->|]; [by apply Hz, Hr|]. by apply (Hj j); [lia|].
  - destruct (IH (S i)) as (r' & Er & Hr'); [done..|lia| |].
    + intros j Hlt. destruct (decide (j = i)) as [->|]; [by rewrite <- Hr|]. apply Hj. lia.
    + replace (a + Z.of_nat i + 1) with (a + Z.of_nat (S i)) by lia. eauto.
Qed.

(** [strstr] returns the address of the first occurrence of the second string in the first one
    ([s1] itself when the second is empty) and [NULL] when there is none; its search stays inside
    the two strings. *)
Theorem strstr_finds m a b l1 l2 (n : nat) :
  string_at m a l1 -> string_at m b l2 -> (length l1 < n)%nat -> (length l2 < n)%nat ->
  exists r, strstr n m a b = Ok r /\ first_occurrence a l1 l2 r.
Proof.
  intros H1 H2 Hn1 Hn2. unfold strstr. rewrite (strlen_ok l2) by done. simpl.
  destruct (Z.eqb_spec (Z.of_nat (length l2)) 0).
  { eexists. split; [done|]. exists 0%nat. rewrite Z.add_0_r. destruct l2; [|simpl in *; lia].
    split_and!; [done|apply prefix_nil|lia]. }
  assert (l2 <> []) as Hne by (by intros ->). rewrite (strlen_ok l1) by done. simpl.
  destruct (Z.ltb_spec (Z.of_nat (length l1)) (Z.of_nat (length l2))).
  - eexists. split; [done|]. intros i Ho%occurs_at_bound; [lia|done].
  - rewrite Nat2Z.id. destruct (strstr_loop_ok l1 l2 m a b (length l1 - length l2) 0) as (r & E & Hr);
      [done..|lia|lia|]. rewrite Z.add_0_r in E.
    replace (Z.to_nat (Z.of_nat (length l1) - Z.of_nat (length l2))) with (length l1 - length l2)%nat by lia. eauto.
Qed.

(** [abab] and [ba]. *)
Definition needle_mem : mem :=
  list_to_map [(10, 97); (11, 98); (12, 97); (13, 98); (14, 0); (20, 98); (21, 97); (22, 0)].

Lemma strstr_finds_witness :
  exists r, strstr 5 needle_mem 10 20 = Ok r /\ first_occurrence 10 [97; 98; 97; 98] [98; 97] r.
Proof.
  apply (strstr_finds needle_mem 10 20 [97; 98; 97; 98] [98; 97] 5);
    [vm_compute; repeat split; done|vm_compute; repeat split; done|simpl; lia|simpl; lia].
Defined.

(** ** Copying strings *)

Lemma copy_loop_moved l : forall n m dest src,
  bytes_ok m -> string_at m src l -> mapped m dest (Z.of_nat (length l) + 1) ->
  safe_up dest src (Z.of_nat (length l) + 1) -> (length l < n)%nat ->
  exists m', copy_loop n m dest src = Ok m' /\ moved m m' dest src (Z.of_nat (length l) + 1).
Proof.
  induction l as [|c l IH]; intros [|n] m dest src Hb Hs Hd Hup Hn; simpl in Hn; try lia; simpl copy_loop.
  - rewrite (load_some _ _ _ Hs). simpl. rewrite store_ok by (eapply mapped_0; eauto; simpl; lia). simpl.
    eexists. split; [done|]. by apply moved_1.
  - destruct Hs as (Hc & Ha & Hs). rewrite (load_some _ _ _ Ha). simpl res_bind.
    rewrite store_ok by (eapply mapped_0; eauto; lia). simpl res_bind.
    destruct (Z.eqb_spec c NUL); [unfold NUL in *; lia|]. simpl length in *.
    apply (mapped_shift _ _ _ 1) in Hd; [|lia].
    replace (Z.of_nat (S (length l)) + 1 - 1) with (Z.of_nat (length l) + 1) in Hd by lia.
    destruct (IH n (<[dest := u8 c]> m) (dest + 1) (src + 1)) as (m' & -> & Hm').
    + by apply bytes_ok_insert.
    + eapply string_at_ext; [|exact Hs]. intros i Hi. rewrite lookup_insert_ne; [done|].
      destruct Hup; lia.
    + by apply mapped_insert.
    + destruct Hup; [left|right]; lia.
    + lia.
    + exists m'. split; [done|].
      replace (Z.of_nat (S (length l)) + 1) with (1 + (Z.of_nat (length l) + 1)) in * by lia.
      eapply moved_app; [lia|lia|done|by apply moved_1|done].
Qed.

Lemma moved_string m m' dest src l :
  string_at m src l -> moved m m' dest src (Z.of_nat (length l) + 1) -> string_at m' dest l.
Proof.
  intros Hs Hm. apply string_at_intro.
  - by eapply string_at_bytes.
  - intros i c Hi. assert (i < length l)%nat by by eapply lookup_lt_Some.
    rewrite Hm, decide_True by lia. destruct (string_at_lookup l m src i c) as [_ <-]; [done..|]. f_equal; lia.
  - rewrite Hm, decide_True by lia. rewrite <- (string_at_nul l m src) by done. f_equal; lia.
Qed.

(** Bytes of a string followed by a string are the appended string. *)
Lemma string_at_join l1 : forall m m' a l2,
  string_at m a l1 -> (forall i, 0 <= i < Z.of_nat (length l1) -> m' !! (a + i) = m !! (a + i)) ->
  string_at m' (a + Z.of_nat (length l1)) l2 -> string_at m' a (l1 ++ l2).
Proof.
  induction l1 as [|c l1 IH]; intros m m' a l2 H1 He H2; simpl in *; [by rewrite Z.add_0_r in H2|].
  destruct H1 as (Hc & Ha & H1). split_and!; [lia..| |].
  - rewrite <- (Z.add_0_r a), He, Z.add_0_r by lia. done.
  - apply (IH m); [done| |].
    + intros i Hi. replace (a + 1 + i) with (a + (1 + i)) by lia. apply He. lia.
    + by replace (a + 1 + Z.of_nat (length l1)) with (a + Z.of_nat (S (length l1))) by lia.
Qed.

(** [strcat] leaves at [dest] the first string followed by the second and changes nothing outside the
    bytes it appends, provided there is room for them and they do not overlap the source. *)
Theorem strcat_appends m dest src l1 l2 (n : nat) :
  let e := dest + Z.of_nat (length l1) in let k := Z.of_nat (length l2) + 1 in
  bytes_ok m -> string_at m dest l1 -> string_at m src l2 ->
  mapped m e k -> (src + k <= dest \/ e + k <= src) ->
  (length l1 < n)%nat -> (length l2 < n)%nat ->
  exists m', strcat n m dest src = Ok (dest, m') /\ string_at m' dest (l1 ++ l2) /\
    forall x, ~ (e <= x < e + k) -> m' !! x = m !! x.
Proof.
  intros e k Hb H1 H2 Hd Hdis Hn1 Hn2. unfold strcat. rewrite (strend_ok l1) by done. simpl res_bind.
  destruct (copy_loop_moved l2 n m e src) as (m' & E & Hm'); [done..|subst e k; destruct Hdis; [right|left]; lia|done|].
  fold e. rewrite E. simpl. exists m'. split; [done|]. split.
  - apply (string_at_join l1 m); [done| |by eapply moved_string].
    intros i Hi. rewrite Hm', decide_False by (subst e; lia). done.
  - intros x Hx. rewrite Hm'. by rewrite decide_False by (subst k; lia).
Qed.

Definition cat_mem : mem :=
  list_to_map [(10, 97); (11, 0); (12, 7); (13, 7); (20, 98); (21, 99); (22, 0)].

Lemma cat_mem_ok : bytes_ok cat_mem.
Proof.
  apply (map_Forall_to_list (fun _ v => 0 <= v < 256) cat_mem). vm_compute map_to_list.
  repeat constructor; vm_compute; done.
Qed.

Lemma strcat_appends_witness :
  exists m', strcat 4 cat_mem 10 20 = Ok (10, m') /\ string_at m' 10 ([97] ++ [98; 99]) /\
    forall x, ~ (11 <= x < 14) -> m' !! x = cat_mem !! x.
Proof.
  apply (strcat_appends cat_mem 10 20 [97] [98; 99] 4).
  - apply cat_mem_ok.
  - vm_compute. repeat split; done.
  - vm_compute. repeat split; done.
  - intros i Hi. simpl in *.
    assert (i = 0 \/ i = 1 \/ i = 2) as [->|[->| ->]] by lia; by eexists.
  - right. simpl. lia.
  - simpl. lia.
  - simpl. lia.
Defined.

(** ** Tokens *)

Lemma in_set_ok set : forall n m c a,
  string_at m a set -> c <> NUL -> (length set < n)%nat -> in_set n m c a = Ok (bool_decide (c ∈ set)).
Proof.
  induction set as [|x set IH]; intros [|n] m c a Hs Hc Hn;
    simpl string_at in *; simpl length in *; simpl in_set; try lia.
  - rewrite (load_some _ _ _ Hs). cbn [res_bind]. by rewrite bool_decide_false by set_solver.
  - destruct Hs as (Hx & Ha & Hs). rewrite (load_some _ _ _ Ha). cbn [res_bind].
    destruct (Z.eqb_spec x NUL); [unfold NUL in *; lia|]. destruct (Z.eqb_spec c x) as [->|].
    + by rewrite bool_decide_true by set_solver.
    + rewrite IH by (done || lia). f_equal. apply bool_decide_ext. set_solver.
Qed.

Lemma strpbrk_loop_ok l set m ct k : forall n a,
  string_at m a l -> string_at m ct set -> (length l < n)%nat -> (length set < k)%nat ->
  exists r, strpbrk_loop n k m a ct = Ok r /\
    match r with
    | Some p => exists pre d post, l = pre ++ d :: post /\ p = a + Z.of_nat (length pre) /\
        Forall (fun c => c ∉ set) pre /\ d ∈ set
    | None => Forall (fun c => c ∉ set) l
    end.
Proof.
  induction l as [|c l IH]; intros [|n] a Hs Hset Hn Hk; simpl in *; try lia.
  - rewrite (load_some _ _ _ Hs). simpl. eexists. split; [done|]. constructor.
  - destruct Hs as (Hc & Ha & Hs). rewrite (load_some _ _ _ Ha). simpl.
    destruct (Z.eqb_spec c NUL); [unfold NUL in *; lia|].
    rewrite (in_set_ok set) by done. simpl. case_bool_decide as Hin.
    + eexists. split; [done|]. exists [], c, l. split_and!; [done|simpl; lia|done|done].
    + destruct (IH n (a + 1)) as (r & -> & Hr); [done..|lia|done|]. exists r. split; [done|].
      destruct r as [p|]; [|by constructor].
      destruct Hr as (pre & d & post & -> & -> & Hpre & Hd). exists (c :: pre), d, post.
      split_and!; [done|simpl; lia|by constructor|done].
Qed.

Lemma cut_strings m s pre d post :
  let e := s + Z.of_nat (length pre) in
  string_at m s (pre ++ d :: post) ->
  m !! e = Some d /\ string_at (<[e := NUL]> m) s pre /\ string_at (<[e := NUL]> m) (e + 1) post.
Proof.
  intros e Hs. split_and!.
  - destruct (string_at_lookup _ m s (length pre) d Hs) as [_ H]; [|done].
    by rewrite lookup_app_r, Nat.sub_diag by lia.
  - apply string_at_intro.
    + apply string_at_bytes in Hs. by apply Forall_app in Hs as [? _].
    + intros i c Hi. assert (i < length pre)%nat by by eapply lookup_lt_Some.
      rewrite lookup_insert_ne by (subst e; lia).
      eapply string_at_lookup; [exact Hs|]. by apply lookup_app_l_Some.
    + fold e. by rewrite lookup_insert_eq.
  - apply string_at_app in Hs. fold e in Hs. destruct Hs as (_ & _ & Hs).
    eapply string_at_ext; [|exact Hs]. intros i Hi. by rewrite lookup_insert_ne by lia.
Qed.

(** [strsep] cuts the string at its first separator: it returns the string, moves the caller's
    pointer behind the separator, and in the memory it leaves the token before the separator
    and the rest behind it are two separate strings, with only the separator's byte changed.
    Without a separator the whole string is the token, the pointer becomes [NULL] and the memory
    is as it was. *)
Theorem strsep_splits m s ct set l (n : nat) :
  string_at m s l -> string_at m ct set -> (length l < n)%nat -> (length set < n)%nat ->
  exists next m', strsep n m (Some s) ct = Ok (Some s, next, m') /\
    match next with
    | Some p => exists pre d post, l = pre ++ d :: post /\ d ∈ set /\ Forall (fun c => c ∉ set) pre /\
        p = s + Z.of_nat (length pre) + 1 /\ string_at m' s pre /\ string_at m' p post /\
        forall x, x + 1 <> p -> m' !! x = m !! x
    | None => m' = m /\ Forall (fun c => c ∉ set) l
    end.
Proof.
  intros Hs Hset Hn Hk. unfold strsep, strpbrk.
  destruct (strpbrk_loop_ok _ set m ct n n s Hs Hset Hn Hk) as (r & -> & Hr). simpl.
  destruct r as [p|]; [|by exists None, m].
  destruct Hr as (pre & d & post & -> & -> & Hpre & Hd).
  destruct (cut_strings m s pre d post Hs) as (He & Hpre' & Hpost).
  rewrite store_ok by eauto. simpl. change (u8 NUL) with NUL. eexists (Some _), _. split; [done|].
  exists pre, d, post. split_and!; [done..|]. intros x Hx. by rewrite lookup_insert_ne by lia.
Qed.

(** The string [a,b] and the separator [,]. *)
Definition sep_mem : mem := list_to_map [(10, 97); (11, 44); (12, 98); (13, 0); (20, 44); (21, 0)].

Lemma strsep_splits_witness :
  exists next m', strsep 5 sep_mem (Some 10) 20 = Ok (Some 10, next, m') /\
    match next with
    | Some p => exists pre d post, [97; 44; 98] = pre ++ d :: post /\ d ∈ [44] /\ Forall (fun c => c ∉ [44]) pre /\
        p = 10 + Z.of_nat (length pre) + 1 /\ string_at m' 10 pre /\ string_at m' p post /\
        forall x, x + 1 <> p -> m' !! x = sep_mem !! x
    | None => m' = sep_mem /\ Forall (fun c => c ∉ [44]) [97; 44; 98]
    end.
Proof.
  apply (strsep_splits sep_mem 10 20 [44] [97; 44; 98] 5);
    [vm_compute; repeat split; done|vm_compute; repeat split; done|simpl; lia|simpl; lia].
Defined.
