(* ===== verification/Hashtable.v ===== *)
(** * The hash table of the environment ([lib/hashtable.c], [include/search.h])

    Open addressing with double hashing; slot 0 of the array is never used.  Strings are the bytes
    before their NUL; [None] is a pointer that cannot be read ([NULL], or freed).  The function pointers
    of the table and of its entries are functions that answer [true] for a refusal.  [strcmp] of two
    strings is [s8 (cmp_bytes s t)], as proved in [CstrProps]. *)
From S2P Require Import Prelude Ctype Cstring CstrProps.

Inductive env_op := env_op_create | env_op_delete | env_op_overwrite.
Inductive ACTION := FIND | ENTER.

Record ENTRY := {
  key : option (list Z);
  data : option (list Z);
  callback : option (list Z -> option (list Z) -> env_op -> Z -> bool);
  flags : Z
}.

(** [used] is 0 for a slot never used, -1 for a deleted entry, or the first hash index. *)
Record _ENTRY := { used : Z; entry : ENTRY }.

Record hsearch_data := {
  table : option (list _ENTRY);
  size : Z;
  filled : Z;
  change_ok : option (ENTRY -> option (list Z) -> env_op -> Z -> bool)
}.

Definition EPERM : Z := 1.
Definition ESRCH : Z := 3.
Definition ENOMEM : Z := 12.
Definition EINVAL : Z := 22.

Definition no_entry : ENTRY := {| key := None; data := None; callback := None; flags := 0 |}.

(** What a call answers: its result, [*retval] as a slot number, and the [errno] it sets. *)
Record answer := { ret : Z; retval : option Z; errno : option Z }.
Definition fails (e : Z) : answer := {| ret := 0; retval := None; errno := Some e |}.

Definition slot (h : hsearch_data) (idx : Z) : res _ENTRY :=
  match table h with
  | Some t => if idx <? 0 then Ub else res_of_option (t !! Z.to_nat idx)
  | None => Ub
  end.
Definition set_slot (h : hsearch_data) (idx : Z) (e : _ENTRY) : hsearch_data :=
  {| table := (fun t => <[Z.to_nat idx := e]> t) <$> table h; size := size h; filled := filled h;
     change_ok := change_ok h |}.
Definition set_filled (h : hsearch_data) (n : Z) : hsearch_data :=
  {| table := table h; size := size h; filled := n; change_ok := change_ok h |}.

Definition streq (s t : list Z) : bool := s8 (cmp_bytes s t) =? 0.

(** ** Creation *)

(** The loop of [isprime], from a divisor on. *)
Fixpoint div_loop (n : nat) (number div : Z) : res Z :=
  match n with
  | O => Hang
  | S n =>
    if div =? 0 then Ub
    else if (u32 (div * div) <? number) && negb (number mod div =? 0)
    then div_loop n number (u32 (div + 2)) else Ok div
  end.
Definition isprime (n : nat) (number : Z) : res bool :=
  let* div := div_loop n number 3 in Ok (negb (number mod div =? 0)).

(** [while (!isprime(nel)) nel += 2;] *)
Fixpoint next_prime (n : nat) (nel : Z) : res Z :=
  match n with
  | O => Hang
  | S n =>
    let* p := isprime (S (Z.to_nat nel)) nel in
    if (p : bool) then Ok nel else next_prime n (u32 (nel + 2))
  end.

Section Table.
(** Whether there is memory for a copy of a string, for an array of entries; and the initialisation of
    a new entry from the lists of callbacks and flags ([common/env_callback.c], [common/env_flags.c]). *)
Context (malloc_ok : list Z -> bool) (calloc_ok : Z -> bool) (env_callback_init env_flags_init : ENTRY -> ENTRY).

Definition strdup (s : list Z) : option (list Z) := if malloc_ok s then Some s else None.

Definition hcreate_r (nel : Z) (h : hsearch_data) : res (Z * hsearch_data) :=
  match table h with
  | Some _ => Ok (0, h)
  | None =>
    let nel := nel .| 1 in
    let* nel := next_prime (S (Z.to_nat nel)) nel in
    let h := {| table := None; size := nel; filled := 0; change_ok := change_ok h |} in
    if calloc_ok (u32 (size h + 1))
    then Ok (1, {| table := Some (replicate (Z.to_nat (u32 (size h + 1))) {| used := 0; entry := no_entry |});
                   size := size h; filled := 0; change_ok := change_ok h |})
    else Ok (0, h)
  end.

(** Only the array pointer is seen afterwards. *)
Definition hdestroy_r (h : hsearch_data) : hsearch_data :=
  {| table := None; size := size h; filled := filled h; change_ok := change_ok h |}.

(** ** Search *)

Fixpoint match_loop (n : nat) (mtch : list Z) (h : hsearch_data) (idx : Z) : res answer :=
  match n with
  | O => Hang
  | S n =>
    if negb (idx <? size h) then Ok (fails ESRCH)
    else
      let* e := slot h idx in
      if used e <=? 0 then match_loop n mtch h (u32 (idx + 1))
      else
        let* k := res_of_option (key (entry e)) in
        if bool_decide (mtch `prefix_of` k)
        then Ok {| ret := s32 idx; retval := Some idx; errno := None |}
        else match_loop n mtch h (u32 (idx + 1))
  end.
Definition hmatch_r (mtch : list Z) (last_idx : Z) (h : hsearch_data) : res answer :=
  match_loop (S (Z.to_nat (size h))) mtch h (u32 (last_idx + 1)).

(** The answer -1 is: keep searching. *)
Definition keep_searching : answer := {| ret := -1; retval := None; errno := None |}.

Definition _compare_and_overwrite_entry (ikey : list Z) (idata : option (list Z)) (action : ACTION)
  (h : hsearch_data) (flag hval idx : Z) : res (answer * hsearch_data) :=
  let* e := slot h idx in
  let found h := Ok ({| ret := s32 idx; retval := Some idx; errno := None |}, h) in
  if u32 (used e) =? hval then
    let* k := res_of_option (key (entry e)) in
    if streq ikey k then
      match action, idata with
      | ENTER, Some d =>
        if match change_ok h with Some f => f (entry e) (Some d) env_op_overwrite flag | None => false end
        then Ok (fails EPERM, h)
        else if match callback (entry e) with Some f => f ikey (Some d) env_op_overwrite flag | None => false end
        then Ok (fails EINVAL, h)
        else
          let h := set_slot h idx {| used := used e; entry :=
            {| key := key (entry e); data := strdup d; callback := callback (entry e); flags := flags (entry e) |} |} in
          match strdup d with Some _ => found h | None => Ok (fails ENOMEM, h) end
      | _, _ => found h
      end
    else Ok (keep_searching, h)
  else Ok (keep_searching, h).

Definition _hdelete (h : hsearch_data) (idx : Z) : res hsearch_data :=
  let* e := slot h idx in
  let h := set_slot h idx {| used := -1; entry := no_entry |} in
  Ok (set_filled h (u32 (filled h - 1))).

(** The hash of a string, from its last byte to its first. *)
Definition hash_string (s : list Z) : Z :=
  foldl (fun hval c => u32 (u32 (hval .<< 4) + c)) (u32 (Z.of_nat (length s))) (rev s).

(** The [do] loop: the slot where it stopped, or the answer it returned. *)
Fixpoint probe_loop (n : nat) (ikey : list Z) (idata : option (list Z)) (action : ACTION) (h : hsearch_data)
  (flag hval hval2 idx : Z) : res (Z + answer * hsearch_data) :=
  match n with
  | O => Hang
  | S n =>
    let idx := if idx <=? hval2 then u32 (size h + idx - hval2) else u32 (idx - hval2) in
    if idx =? hval then Ok (inl idx)
    else
      let* (a, h) := _compare_and_overwrite_entry ikey idata action h flag hval idx in
      if negb (ret a =? -1) then Ok (inr (a, h))
      else
        let* e := slot h idx in
        if negb (used e =? 0) then probe_loop n ikey idata action h flag hval hval2 idx else Ok (inl idx)
  end.

(** The part of [hsearch_r] behind the search, with the slot it ended at. *)
Definition enter_new (ikey : list Z) (idata : option (list Z)) (action : ACTION) (h : hsearch_data)
  (flag hval first_deleted idx : Z) : res (answer * hsearch_data) :=
  match action with
  | FIND => Ok (fails ESRCH, h)
  | ENTER =>
    if filled h =? size h then Ok (fails ENOMEM, h)
    else
      let idx := if negb (first_deleted =? 0) then first_deleted else idx in
      let* d := res_of_option idata in
      let* e := slot h idx in
      let new := {| key := strdup ikey; data := strdup d; callback := callback (entry e); flags := flags (entry e) |} in
      let h := set_slot h idx {| used := s32 hval; entry := new |} in
      if bool_decide (strdup ikey = None) || bool_decide (strdup d = None) then Ok (fails ENOMEM, h)
      else
        let h := set_filled h (u32 (filled h + 1)) in
        let new := env_flags_init (env_callback_init new) in
        let h := set_slot h idx {| used := s32 hval; entry := new |} in
        if match change_ok h with Some f => f new (Some d) env_op_create flag | None => false end
        then let* h := _hdelete h idx in Ok (fails EPERM, h)
        else if match callback new with Some f => f ikey (Some d) env_op_create flag | None => false end
        then let* h := _hdelete h idx in Ok (fails EINVAL, h)
        else Ok ({| ret := 1; retval := Some idx; errno := None |}, h)
  end.

(** The first index tried, and the step. *)
Definition first_index (h : hsearch_data) (ikey : list Z) : Z :=
  let hval := hash_string ikey mod size h in if hval =? 0 then hval + 1 else hval.
Definition step_of (h : hsearch_data) (hval : Z) : Z := 1 + hval mod u32 (size h - 2).

Definition hsearch_r (ikey : list Z) (idata : option (list Z)) (action : ACTION) (h : hsearch_data) (flag : Z)
  : res (answer * hsearch_data) :=
  if size h =? 0 then Ub
  else
    let hval := first_index h ikey in
    let idx := hval in
    let* e := slot h idx in
    if negb (used e =? 0) then
      let first_deleted := if used e =? -1 then idx else 0 in
      let* (a, h) := _compare_and_overwrite_entry ikey idata action h flag hval idx in
      if negb (ret a =? -1) then Ok (a, h)
      else if u32 (size h - 2) =? 0 then Ub
      else
        let* r := probe_loop (S (Z.to_nat (size h))) ikey idata action h flag hval (step_of h hval) idx in
        match r with
        | inr (a, h) => Ok (a, h)
        | inl idx => enter_new ikey idata action h flag hval first_deleted idx
        end
    else enter_new ikey idata action h flag hval 0 idx.

(** The result, the [errno], and the table. *)
Definition hdelete_r (k : list Z) (h : hsearch_data) (flag : Z) : res (Z * option Z * hsearch_data) :=
  let* (a, h) := hsearch_r k None FIND h 0 in
  let idx := ret a in
  if idx =? 0 then Ok (0, Some ESRCH, h)
  else
    let* e := slot h idx in
    if match change_ok h with Some f => f (entry e) None env_op_delete flag | None => false end
    then Ok (0, Some EPERM, h)
    else if match callback (entry e) with Some f => f k None env_op_delete flag | None => false end
    then Ok (0, Some EINVAL, h)
    else let* h := _hdelete h idx in Ok (1, None, h).

(** The entries a callback visits, up to one that makes it stop, and what the walk returns. *)
Fixpoint walk_loop (n : nat) (h : hsearch_data) (cb : ENTRY -> Z * ENTRY) (i : Z) : res (Z * hsearch_data) :=
  match n with
  | O => Hang
  | S n =>
    if negb (i <=? size h) then Ok (0, h)
    else
      let* e := slot h i in
      if 0 <? used e then
        let '(r, en) := cb (entry e) in
        let h := set_slot h i {| used := used e; entry := en |} in
        if negb (r =? 0) then Ok (r, h) else walk_loop n h cb (i + 1)
      else walk_loop n h cb (i + 1)
  end.
Definition hwalk_r (h : hsearch_data) (cb : ENTRY -> Z * ENTRY) : res (Z * hsearch_data) :=
  walk_loop (S (Z.to_nat (size h))) h cb 1.
End Table.
