(* ===== verification/HashProps.v ===== *)
(** * The hash table as a finite map ([lib/hashtable.c])

    The table of prime size represents a finite map from names to values.  As long as one slot was
    never used, searching, entering and deleting are lookup, insertion and deletion of that map, with
    every refusal of the permission function and of the callbacks.  Once no such slot is left, entering
    a new name can replace another variable ([hsearch_r_loses_entry]). *)
From Stdlib Require Import Znumtheory.
From S2P Require Import Prelude Ctype Cstring CstrProps Hashtable.

(** ** Arithmetic of the probe sequence *)

Section Probe.
Context (N a s : Z).
Hypothesis (HN : Z.prime N) (Hs : 0 < s < N) (Ha : 1 <= a <= N).

(** The slot of the [j]-th probe: steps of [s] downwards, modulo [N], among 1 .. [N]. *)
Definition pos (j : nat) : Z := 1 + (a - 1 - Z.of_nat j * s) mod N.

Lemma pos_range j : 1 <= pos j <= N.
Proof using All. unfold pos. pose proof (Z.mod_pos_bound (a - 1 - Z.of_nat j * s) N). lia. Qed.

Lemma pos_0 : pos 0 = a.
Proof using All. unfold pos. rewrite Z.mod_small; lia. Qed.

Lemma pos_step j : (if pos j <=? s then N + pos j - s else pos j - s) = pos (S j).
Proof using All.
  unfold pos. rewrite Nat2Z.inj_succ.
  replace (a - 1 - Z.succ (Z.of_nat j) * s) with (a - 1 - Z.of_nat j * s - s) by lia.
  set (x := a - 1 - Z.of_nat j * s). pose proof (Z.mod_pos_bound x N ltac:(lia)).
  rewrite <- (Zminus_mod_idemp_l x s). destruct (Z.leb_spec (1 + x mod N) s).
  - replace (x mod N - s) with (x mod N - s + N + (-1) * N) by lia.
    rewrite Z.mod_add, (Z.mod_small (x mod N - s + N)) by lia. lia.
  - rewrite (Z.mod_small (x mod N - s)) by lia. lia.
Qed.

Lemma pos_inj i j : Z.of_nat i < N -> Z.of_nat j < N -> pos i = pos j -> i = j.
Proof using All.
  intros Hi Hj E. unfold pos in E.
  assert ((a - 1 - Z.of_nat i * s) mod N = (a - 1 - Z.of_nat j * s) mod N) as E' by lia.
  assert ((N | (Z.of_nat j - Z.of_nat i) * s)) as Hd.
  { apply Z.mod_divide; [lia|]. replace ((Z.of_nat j - Z.of_nat i) * s) with
      ((a - 1 - Z.of_nat i * s) - (a - 1 - Z.of_nat j * s)) by lia.
    rewrite Zminus_mod, E', Z.sub_diag. apply Z.mod_0_l. lia. }
  apply Z.divide_prime_mul in Hd as [[c Hd]|Hd]; [|apply Z.divide_pos_le in Hd; lia|done].
  assert (c = 0) by nia. lia.
Qed.

(** Every slot is probed. *)
Lemma pos_surj i : 1 <= i <= N -> exists j, Z.of_nat j < N /\ pos j = i.
Proof using All.
  intros Hi. destruct (Z.Bezout_coprime _ _ (Z.coprime_prime_small N s HN ltac:(lia))) as (v & u & Huv).
  exists (Z.to_nat (((a - i) * u) mod N)).
  pose proof (Z.mod_pos_bound ((a - i) * u) N ltac:(lia)). rewrite Z2Nat.id by lia. split; [lia|].
  unfold pos. rewrite Z2Nat.id by lia.
  rewrite <- Zminus_mod_idemp_r, Zmult_mod_idemp_l, Zminus_mod_idemp_r.
  replace (a - 1 - (a - i) * u * s) with (i - 1 + (a - i) * v * N).
  - rewrite Z.mod_add by lia. rewrite Z.mod_small; lia.
  - replace ((a - i) * v * N) with ((a - i) * (v * N)) by lia.
    replace (v * N) with (1 - u * s) by lia. lia.
Qed.
End Probe.

(** ** Well-formed tables *)

Definition string_ok (s : list Z) : Prop := Forall (fun c => 0 < c < 256) s.

Lemma streq_spec s t : string_ok s -> string_ok t -> streq s t = bool_decide (s = t).
Proof.
  intros Hs Ht. destruct (cmp_bytes_range s t Hs Ht) as [Hr Hz]. unfold streq.
  destruct (Z.eqb_spec (s8 (cmp_bytes s t)) 0) as [E|E]; rewrite s8_zero in E by lia.
  - by rewrite bool_decide_true by tauto.
  - by rewrite bool_decide_false by tauto.
Qed.

(** The slot of the [j]-th probe for a name. *)
Definition probe (h : hsearch_data) (k : list Z) (j : nat) : Z :=
  pos (size h) (first_index h k) (step_of h (first_index h k)) j.

(** Slot [i] of the array [t] is taken: its [used] field is not 0. *)
Definition taken (t : list _ENTRY) (i : Z) : Prop := exists e, t !! Z.to_nat i = Some e /\ used e <> 0.

(** The entry at slot [i] holds a variable, and a search for its name gets there. *)
Definition live (h : hsearch_data) (t : list _ENTRY) (i : Z) (e : _ENTRY) : Prop :=
  exists k v, key (entry e) = Some k /\ data (entry e) = Some v /\ string_ok k /\ used e = first_index h k /\
    exists j, Z.of_nat j < size h /\ i = probe h k j /\ forall j', (j' < j)%nat -> taken t (probe h k j').

(** The variables: name [k] has value [v]. *)
Definition holds (t : list _ENTRY) (i : Z) (k v : list Z) : Prop :=
  exists e, t !! Z.to_nat i = Some e /\ 0 < used e /\ key (entry e) = Some k /\ data (entry e) = Some v.

(** The number of variables. *)
Fixpoint live_count (t : list _ENTRY) : Z :=
  match t with [] => 0 | e :: t => (if 0 <? used e then 1 else 0) + live_count t end.

Record wf (h : hsearch_data) (t : list _ENTRY) : Prop := {
  wf_table : table h = Some t;
  wf_size : 5 <= size h < 2 ^ 31;
  wf_prime : Z.prime (size h);
  wf_length : length t = S (Z.to_nat (size h));
  wf_zero : forall e, t !! 0%nat = Some e -> used e <= 0;
  wf_filled : filled h = live_count t;
  wf_clear : forall i e, 1 <= i <= size h -> t !! Z.to_nat i = Some e -> used e <= 0 -> entry e = no_entry;
  wf_live : forall i e, 1 <= i <= size h -> t !! Z.to_nat i = Some e -> used e = 0 \/ used e = -1 \/ live h t i e;
  wf_unique : forall i i' k v v', 1 <= i <= size h -> 1 <= i' <= size h -> holds t i k v -> holds t i' k v' -> i = i'
}.

(** The table represents the map [m]. *)
Definition represents (h : hsearch_data) (m : gmap (list Z) (list Z)) : Prop :=
  exists t, wf h t /\ forall k v, m !! k = Some v <-> exists i, 1 <= i <= size h /\ holds t i k v.

Section Search.
Context (h : hsearch_data) (t : list _ENTRY) (Hwf : wf h t).

Lemma index_range k : 1 <= first_index h k < size h.
Proof using Hwf.
  pose proof (wf_size _ _ Hwf). unfold first_index.
  pose proof (Z.mod_pos_bound (hash_string k) (size h)). case_if; lia.
Qed.

Lemma step_range k : 0 < step_of h (first_index h k) < size h.
Proof using Hwf.
  pose proof (wf_size _ _ Hwf). unfold step_of. rewrite wrap_small by lia.
  pose proof (Z.mod_pos_bound (first_index h k) (size h - 2)). lia.
Qed.

Lemma probe_range k j : 1 <= probe h k j <= size h.
Proof using Hwf.
  pose proof (index_range k). pose proof (step_range k). pose proof (wf_prime _ _ Hwf).
  unfold probe. apply pos_range; done || lia.
Qed.

Lemma probe_0 k : probe h k 0 = first_index h k.
Proof using Hwf.
  pose proof (index_range k). pose proof (step_range k). pose proof (wf_prime _ _ Hwf).
  unfold probe. apply pos_0; done || lia.
Qed.

Lemma probe_inj k i j : Z.of_nat i < size h -> Z.of_nat j < size h -> probe h k i = probe h k j -> i = j.
Proof using Hwf.
  pose proof (index_range k). pose proof (step_range k). pose proof (wf_prime _ _ Hwf).
  unfold probe. apply pos_inj; done || lia.
Qed.

Lemma probe_surj k i : 1 <= i <= size h -> exists j, Z.of_nat j < size h /\ probe h k j = i.
Proof using Hwf.
  pose proof (index_range k). pose proof (step_range k). pose proof (wf_prime _ _ Hwf).
  unfold probe. apply pos_surj; done || lia.
Qed.

Lemma probe_next k j :
  (if probe h k j <=? step_of h (first_index h k) then u32 (size h + probe h k j - step_of h (first_index h k))
   else u32 (probe h k j - step_of h (first_index h k))) = probe h k (S j).
Proof using Hwf.
  pose proof (index_range k). pose proof (step_range k). pose proof (wf_prime _ _ Hwf).
  pose proof (wf_size _ _ Hwf). pose proof (probe_range k j).
  transitivity (if probe h k j <=? step_of h (first_index h k) then size h + probe h k j - step_of h (first_index h k)
   else probe h k j - step_of h (first_index h k)).
  - destruct (Z.leb_spec (probe h k j) (step_of h (first_index h k))); rewrite wrap_small; lia.
  - unfold probe. apply pos_step; done || lia.
Qed.

(** A full turn comes back to the start. *)
Lemma probe_turn k : probe h k (Z.to_nat (size h)) = first_index h k.
Proof using Hwf.
  pose proof (index_range k). unfold probe, pos. pose proof (wf_size _ _ Hwf). rewrite Z2Nat.id by lia.
  replace (_ - 1 - _) with (first_index h k - 1 + (- step_of h (first_index h k)) * size h) by lia.
  rewrite Z.mod_add, Z.mod_small by lia. lia.
Qed.

Lemma slot_some i : 1 <= i <= size h -> exists e, t !! Z.to_nat i = Some e /\ slot h i = Ok e.
Proof using Hwf.
  intros Hi. destruct (lookup_lt_is_Some_2 t (Z.to_nat i)) as [e He]; [rewrite (wf_length _ _ Hwf); lia|].
  exists e. split; [done|]. unfold slot. rewrite (wf_table _ _ Hwf), (proj2 (Z.ltb_ge _ _)), He by lia. done.
Qed.
End Search.

(** ** What a search does *)

Section Steps.
Context (malloc_ok : list Z -> bool) (env_callback_init env_flags_init : ENTRY -> ENTRY).
Context (h : hsearch_data) (t : list _ENTRY) (Hwf : wf h t).
Context (k : list Z) (d : option (list Z)) (action : ACTION) (flag : Z) (Hk : string_ok k).

Abbreviation hval := (first_index h k).
Abbreviation compare := (_compare_and_overwrite_entry malloc_ok k d action h flag hval).

Definition absent_at (i : Z) : Prop := forall v, ~ holds t i k v.

Lemma compare_miss i : 1 <= i <= size h -> absent_at i -> compare i = Ok (keep_searching, h).
Proof using Hwf Hk.
  intros Hi Hab. destruct (slot_some h t Hwf i Hi) as (e & He & Hs). unfold _compare_and_overwrite_entry.
  rewrite Hs. cbn [res_bind]. pose proof (index_range h t Hwf k). pose proof (wf_size _ _ Hwf).
  destruct (wf_live _ _ Hwf i e Hi He) as [E|[E|(k' & v & Ek & Ed & Hk' & Eu & _)]].
  - rewrite E. change (u32 0) with 0. by rewrite (proj2 (Z.eqb_neq 0 hval)) by lia.
  - rewrite E. change (u32 (-1)) with (2 ^ 32 - 1). by rewrite (proj2 (Z.eqb_neq (2 ^ 32 - 1) hval)) by lia.
  - case_if; [|done]. rewrite Ek. cbn [res_of_option res_bind]. rewrite streq_spec by done.
    rewrite bool_decide_false; [done|]. intros <-. apply (Hab v). exists e.
    pose proof (index_range h t Hwf k). split_and!; done || lia.
Qed.

(** Where the name is, the comparison gives the answer. *)
Lemma compare_hit i v : 1 <= i <= size h -> holds t i k v ->
  exists e, slot h i = Ok e /\ t !! Z.to_nat i = Some e /\ key (entry e) = Some k /\ data (entry e) = Some v /\
  compare i =
    match action, d with
    | ENTER, Some x =>
      if match change_ok h with Some f => f (entry e) (Some x) env_op_overwrite flag | None => false end
      then Ok (fails EPERM, h)
      else if match callback (entry e) with Some f => f k (Some x) env_op_overwrite flag | None => false end
      then Ok (fails EINVAL, h)
      else
        let h' := set_slot h i {| used := used e; entry := {| key := Some k; data := strdup malloc_ok x;
                    callback := callback (entry e); flags := flags (entry e) |} |} in
        match strdup malloc_ok x with
        | Some _ => Ok ({| ret := i; retval := Some i; errno := None |}, h')
        | None => Ok (fails ENOMEM, h')
        end
    | _, _ => Ok ({| ret := i; retval := Some i; errno := None |}, h)
    end.
Proof using Hwf Hk.
  intros Hi (e & He & Hu & Ek & Ed). destruct (slot_some h t Hwf i Hi) as (e' & He' & Hs). simplify_eq.
  exists e. split_and!; [done..|]. unfold _compare_and_overwrite_entry. rewrite Hs. cbn [res_bind].
  pose proof (index_range h t Hwf k). pose proof (wf_size _ _ Hwf).
  destruct (wf_live _ _ Hwf i e Hi He) as [E|[E|(k' & v' & Ek' & _ & _ & Eu & _)]]; [lia..|]. simplify_eq.
  rewrite Eu, wrap_small, Z.eqb_refl, Ek by lia. cbn [res_of_option res_bind]. rewrite streq_spec by done.
  rewrite bool_decide_true by done. rewrite swrap_small by (simpl; lia). done.
Qed.

Lemma hit_returns i v : 1 <= i <= size h -> holds t i k v -> exists a h', compare i = Ok (a, h') /\ ret a <> -1.
Proof using Hwf Hk.
  intros Hi Hh. destruct (compare_hit i v Hi Hh) as (e & _ & _ & _ & _ & ->).
  destruct action, d; cbv zeta; repeat case_match; eexists _, _; (split; [reflexivity|simpl; lia]).
Qed.

Abbreviation loop := (fun n idx => probe_loop malloc_ok n k d action h flag hval (step_of h hval) idx).

(** The loop passes slots that are taken by others. *)
Lemma probe_skip m n i :
  Z.of_nat (i + m) < size h ->
  (forall l, (i < l <= i + m)%nat -> taken t (probe h k l) /\ absent_at (probe h k l)) ->
  loop (m + n)%nat (probe h k i) = loop n (probe h k (i + m)).
Proof using Hwf Hk.
  revert i. induction m as [|m IH]; intros i Hm Hl; [by rewrite Nat.add_0_r|].
  cbn [Nat.add probe_loop]. rewrite (probe_next h t Hwf).
  destruct (Z.eqb_spec (probe h k (S i)) hval) as [E|_].
  { rewrite <- (probe_0 h t Hwf k) in E. apply (probe_inj h t Hwf) in E; lia. }
  destruct (Hl (S i)) as [(e & He & Hu) Hab]; [lia|]. pose proof (probe_range h t Hwf k (S i)) as Hr.
  rewrite compare_miss by done. cbn [res_bind]. cbn [keep_searching ret negb Z.eqb].
  destruct (slot_some h t Hwf _ Hr) as (e' & He' & Hs). simplify_eq. change (negb (-1 =? -1)) with false. cbv iota.
  rewrite Hs. cbn [res_bind]. rewrite (proj2 (Z.eqb_neq _ _)) by done. cbn [negb].
  rewrite (IH (S i)); [f_equal; f_equal; lia|lia|]. intros l Hl'. apply Hl. lia.
Qed.

(** The name is at the [j]-th probe. *)
Lemma search_found j v :
  Z.of_nat j < size h -> (forall l, (l < j)%nat -> taken t (probe h k l)) -> holds t (probe h k j) k v ->
  hsearch_r malloc_ok env_callback_init env_flags_init k d action h flag = compare (probe h k j).
Proof using Hwf Hk.
  intros Hj Htk Hh. pose proof (wf_size _ _ Hwf) as Hsz. unfold hsearch_r.
  rewrite (proj2 (Z.eqb_neq _ _)) by lia. pose proof (index_range h t Hwf k) as Hi0.
  assert (forall l, (l < j)%nat -> absent_at (probe h k l)) as Hab.
  { intros l Hl v' Hh'. assert (probe h k l = probe h k j) as E.
    { eapply (wf_unique _ _ Hwf); [apply (probe_range h t Hwf)..|exact Hh'|exact Hh]. }
    apply (probe_inj h t Hwf) in E; lia. }
  assert (taken t hval) as (e & He & Hu).
  { rewrite <- (probe_0 h t Hwf k). destruct j; [|apply Htk; lia].
    destruct Hh as (e & ? & ? & _). exists e. split; [done|lia]. }
  destruct (slot_some h t Hwf hval) as (e' & He' & Hs); [lia|]. simplify_eq.
  rewrite Hs. cbn [res_bind]. rewrite (proj2 (Z.eqb_neq _ _) Hu). cbn [negb].
  destruct j as [|j].
  { rewrite (probe_0 h t Hwf k) in *.
    destruct (hit_returns hval v) as (a & h' & -> & Hne); [lia|done|]. cbn [res_bind].
    by rewrite (proj2 (Z.eqb_neq _ _) Hne). }
  rewrite compare_miss; [|lia|rewrite <- (probe_0 h t Hwf k); apply Hab; lia].
  cbn [res_bind]. change (negb (ret keep_searching =? -1)) with false. cbv iota.
  rewrite (wrap_small 32 (size h - 2)), (proj2 (Z.eqb_neq (size h - 2) 0)) by lia.
  rewrite <- (probe_0 h t Hwf k) at 3.
  replace (S (Z.to_nat (size h))) with (j + (S (Z.to_nat (size h)) - j))%nat by lia.
  rewrite (probe_skip j _ 0); [|lia|intros l Hl; split; [apply Htk|apply Hab]; lia].
  destruct (S (Z.to_nat (size h)) - j)%nat eqn:En; [lia|]. cbn [probe_loop Nat.add].
  rewrite (probe_next h t Hwf).
  destruct (Z.eqb_spec (probe h k (S j)) hval) as [E|_].
  { rewrite <- (probe_0 h t Hwf k) in E. apply (probe_inj h t Hwf) in E; lia. }
  destruct (hit_returns (probe h k (S j)) v) as (a & h' & -> & Hne); [apply (probe_range h t Hwf)|done|]. cbn [res_bind].
  by rewrite (proj2 (Z.eqb_neq _ _) Hne).
Qed.

(** The name is absent: the search ends at the first slot never used, or after a full turn. *)
Lemma search_absent j :
  (forall i, 1 <= i <= size h -> absent_at i) -> (forall l, (l < j)%nat -> taken t (probe h k l)) ->
  (Z.of_nat j < size h /\ ~ taken t (probe h k j) \/ Z.of_nat j = size h) ->
  hsearch_r malloc_ok env_callback_init env_flags_init k d action h flag =
  let* e := slot h hval in
  enter_new malloc_ok env_callback_init env_flags_init k d action h flag hval
    (if used e =? -1 then hval else 0) (probe h k j).
Proof using Hwf Hk.
  intros Hab Htk Hend. pose proof (wf_size _ _ Hwf) as Hsz. pose proof (index_range h t Hwf k) as Hi0.
  unfold hsearch_r. rewrite (proj2 (Z.eqb_neq _ _)) by lia.
  destruct (slot_some h t Hwf hval) as (e & He & Hs); [lia|]. rewrite Hs. cbn [res_bind].
  destruct j as [|j].
  { destruct Hend as [[_ Hn]|?]; [|lia]. rewrite (probe_0 h t Hwf k) in *.
    destruct (Z.eqb_spec (used e) 0) as [->|Hu]; [done|]. exfalso. apply Hn. by exists e. }
  destruct (Htk 0%nat) as (e' & He' & Hu); [lia|]. rewrite (probe_0 h t Hwf k) in He'. simplify_eq.
  rewrite (proj2 (Z.eqb_neq _ _) Hu). cbn [negb].
  rewrite compare_miss by (lia || apply Hab; lia).
  cbn [res_bind]. change (negb (ret keep_searching =? -1)) with false. cbv iota.
  rewrite (wrap_small 32 (size h - 2)), (proj2 (Z.eqb_neq (size h - 2) 0)) by lia.
  rewrite <- (probe_0 h t Hwf k) at 3.
  replace (S (Z.to_nat (size h))) with (j + (S (Z.to_nat (size h)) - j))%nat by lia.
  rewrite (probe_skip j _ 0); [|lia|intros l Hl; split; [apply Htk; lia|apply Hab, (probe_range h t Hwf)]].
  destruct (S (Z.to_nat (size h)) - j)%nat eqn:En; [lia|]. cbn [probe_loop Nat.add].
  rewrite (probe_next h t Hwf). destruct Hend as [[Hj Hn]|Hj].
  - destruct (Z.eqb_spec (probe h k (S j)) hval) as [E|_].
    { rewrite <- (probe_0 h t Hwf k) in E. apply (probe_inj h t Hwf) in E; lia. }
    pose proof (probe_range h t Hwf k (S j)) as Hr.
    rewrite compare_miss by (done || by apply Hab). cbn [res_bind]. change (negb (ret keep_searching =? -1)) with false. cbv iota.
    destruct (slot_some h t Hwf _ Hr) as (e' & He' & ->). cbn [res_bind].
    destruct (Z.eqb_spec (used e') 0) as [_|Hu']; [done|]. exfalso. apply Hn. by exists e'.
  - replace (S j) with (Z.to_nat (size h)) by lia. rewrite (probe_turn h t Hwf), Z.eqb_refl. done.
Qed.

(** The first slot never used, if there is one. *)
Lemma first_free : exists j, (forall l, (l < j)%nat -> taken t (probe h k l)) /\
  (Z.of_nat j < size h /\ ~ taken t (probe h k j) \/ Z.of_nat j = size h).
Proof using Hwf.
  pose proof (wf_size _ _ Hwf).
  enough (forall n, (n <= Z.to_nat (size h))%nat -> exists j, (forall l, (l < j)%nat -> taken t (probe h k l)) /\
    (Z.of_nat j < Z.of_nat n /\ ~ taken t (probe h k j) \/ j = n)) as Hn.
  { destruct (Hn (Z.to_nat (size h))) as (j & ? & Hj); [lia|]. exists j. split; [done|]. destruct Hj as [[? ?]|]; [left|right]; lia || (split; [lia|done]). }
  induction n as [|n IH]; intros Hn; [exists 0%nat; split; [lia|by right]|].
  destruct IH as (j & Hlt & Hj); [lia|]. destruct Hj as [[Hj Hf]| ->].
  { exists j. split; [done|]. left. split; [lia|done]. }
  destruct (slot_some h t Hwf (probe h k n)) as (e & He & _); [apply (probe_range h t Hwf)|].
  destruct (Z.eq_dec (used e) 0) as [E|E].
  - exists n. split; [done|]. left. split; [lia|]. intros (e' & ? & ?). by simplify_eq.
  - exists (S n). split; [|by right]. intros l Hl. destruct (Nat.eq_dec l n) as [->|]; [by exists e|apply Hlt; lia].
Qed.
End Steps.

(** ** Changing a slot *)

Lemma live_count_insert t i e e' : t !! i = Some e ->
  live_count (<[i := e']> t) = live_count t - (if 0 <? used e then 1 else 0) + (if 0 <? used e' then 1 else 0).
Proof.
  revert i. induction t as [|e0 t IH]; intros [|i] H; simplify_eq/=; [lia|]. rewrite (IH i) by done. lia.
Qed.

Lemma live_count_bound t : 0 <= live_count t <= Z.of_nat (length t).
Proof. induction t as [|e t IH]; cbn [live_count length]; [lia|]. case_if; lia. Qed.

(** Two slots without a variable. *)
Lemma live_count_two t i j e e' : i <> j -> t !! i = Some e -> t !! j = Some e' -> used e <= 0 -> used e' <= 0 ->
  live_count t <= Z.of_nat (length t) - 2.
Proof.
  intros Hij Hi Hj He He'. set (full := {| used := 1; entry := no_entry |}).
  pose proof (live_count_bound (<[j := full]> (<[i := full]> t))) as Hb. rewrite !length_insert in Hb.
  rewrite (live_count_insert _ j e'), (live_count_insert _ i e) in Hb by (by rewrite ?list_lookup_insert_ne).
  change (0 <? used full) with true in Hb. cbv iota in Hb.
  rewrite !(proj2 (Z.ltb_ge 0 _)) in Hb by lia. lia.
Qed.

Section Update.
Context (h : hsearch_data) (t : list _ENTRY) (Hwf : wf h t).
Context (i : Z) (Hi : 1 <= i <= size h) (e0 e' : _ENTRY) (He0 : t !! Z.to_nat i = Some e0) (Hu' : used e' <> 0).

Let t' := <[Z.to_nat i := e']> t.

Lemma lookup_updated j : 1 <= j -> t' !! Z.to_nat j = if decide (j = i) then Some e' else t !! Z.to_nat j.
Proof using Hi He0.
  intros Hj. subst t'. case_decide as E.
  - subst j. rewrite list_lookup_insert_eq; [done|]. by eapply lookup_lt_Some.
  - rewrite list_lookup_insert_ne; [done|]. intros E'. apply Z2Nat.inj in E'; lia.
Qed.

Lemma taken_updated j : 1 <= j -> taken t j -> taken t' j.
Proof using Hi He0 Hu'.
  intros Hj (e & He & Hu). unfold taken. setoid_rewrite lookup_updated; [|done].
  case_decide; [by exists e'|by exists e].
Qed.

Lemma holds_updated j k v : 1 <= j ->
  holds t' j k v <-> (j = i /\ 0 < used e' /\ key (entry e') = Some k /\ data (entry e') = Some v) \/ (j <> i /\ holds t j k v).
Proof using Hi He0.
  intros Hj. unfold holds. setoid_rewrite lookup_updated; [|done]. case_decide as E.
  - split; [intros (e & [= <-] & ? & ? & ?); auto|intros [(_ & ? & ? & ?)|[? _]]; [by exists e'|done]].
  - split; [intros Hh; auto|intros [[? _]|[_ ?]]; done].
Qed.

(** The variables after the change. *)
Lemma held_updated k v :
  (exists j, 1 <= j <= size h /\ holds t' j k v) <->
  (0 < used e' /\ key (entry e') = Some k /\ data (entry e') = Some v) \/ (exists j, 1 <= j <= size h /\ j <> i /\ holds t j k v).
Proof using Hi He0.
  split.
  - intros (j & Hj & Hh). apply holds_updated in Hh as [[_ ?]|[? ?]]; [by left|right; eauto|lia].
  - intros [Hn|(j & Hj & ? & ?)]; [exists i|exists j]; (split; [done|]); apply holds_updated; auto; lia.
Qed.

(** The new entry is deleted, or one that a search for its name reaches, whose name is nowhere else. *)
Hypothesis (Hnew : e' = {| used := -1; entry := no_entry |} \/
  live h t i e' /\ forall k j v, key (entry e') = Some k -> 1 <= j <= size h -> j <> i -> ~ holds t j k v).

Lemma wf_updated n : n = live_count t' -> wf (set_filled (set_slot h i e') n) t'.
Proof using All.
  intros Hn. assert (forall j e, 1 <= j -> live h t j e -> live (set_filled (set_slot h i e') n) t' j e) as Hlive.
  { intros j e Hj (k & v & ? & ? & ? & ? & l & ? & ? & Hl). exists k, v. split_and!; [done..|]. exists l.
    split_and!; [done..|]. intros l' Hl'. apply taken_updated; [apply (probe_range h t Hwf)|]. by apply Hl. }
  assert (0 < used e' \/ e' = {| used := -1; entry := no_entry |}) as Hpos.
  { destruct Hnew as [?|[(k & v & _ & _ & _ & Eu & _) _]]; [by right|left]. pose proof (index_range h t Hwf k). lia. }
  destruct Hwf as [Ht Hs Hp Hlen Hz Hf Hc Hl Hu]. constructor; cbn [set_filled set_slot table size filled].
  - by rewrite Ht.
  - done.
  - done.
  - subst t'. by rewrite length_insert.
  - intros e. subst t'. rewrite list_lookup_insert_ne by lia. apply Hz.
  - done.
  - intros j e Hj. rewrite lookup_updated by lia. case_decide; [|by apply Hc].
    intros [= <-] Hle. destruct Hpos as [?| ->]; [lia|done].
  - intros j e Hj. rewrite lookup_updated by lia. case_decide as E.
    + intros [= <-]. subst j. destruct Hnew as [->|[? _]]; [auto|]. right. right. apply Hlive; [lia|done].
    + intros He. destruct (Hl j e Hj He) as [|[|]]; auto. right. right. apply Hlive; [lia|done].
  - intros j j' k v v' Hj Hj'. rewrite !holds_updated by lia.
    intros [(-> & Hp1 & Hk1 & _)|[Hne Hh]] [(-> & Hp2 & Hk2 & _)|[Hne' Hh']]; [done| | |by eapply Hu].
    + exfalso. destruct Hnew as [->|[_ Hn']]; [done|]. by eapply (Hn' k j' v').
    + exfalso. destruct Hnew as [->|[_ Hn']]; [done|]. by eapply (Hn' k j v).
Qed.
End Update.

(** ** The represented map *)

Definition maps (h : hsearch_data) (t : list _ENTRY) (m : gmap (list Z) (list Z)) : Prop :=
  forall k v, m !! k = Some v <-> exists i, 1 <= i <= size h /\ holds t i k v.

Section Maps.
Context (h : hsearch_data) (t : list _ENTRY) (m : gmap (list Z) (list Z)) (Hwf : wf h t) (Hm : maps h t m).

Lemma maps_none k : m !! k = None -> forall i, 1 <= i <= size h -> absent_at t k i.
Proof using Hm. intros Hn i Hi v Hh. assert (m !! k = Some v) by (apply Hm; eauto). congruence. Qed.

Lemma holds_live i k v : 1 <= i <= size h -> holds t i k v ->
  exists e, t !! Z.to_nat i = Some e /\ key (entry e) = Some k /\ data (entry e) = Some v /\ string_ok k /\
    used e = first_index h k /\
    exists j, Z.of_nat j < size h /\ i = probe h k j /\ forall j', (j' < j)%nat -> taken t (probe h k j').
Proof using Hwf.
  intros Hi (e & He & Hu & Hk & Hd). exists e.
  destruct (wf_live _ _ Hwf i e Hi He) as [|[|(k' & v' & Ek & Ed & Hok & Eu & Hj)]]; [lia..|].
  simplify_eq. done.
Qed.

(** A new value for a name. *)
Lemma maps_overwrite i k v x e' :
  1 <= i <= size h -> holds t i k v -> used e' = first_index h k -> key (entry e') = Some k -> data (entry e') = Some x ->
  represents (set_slot h i e') (<[k := x]> m).
Proof using All.
  intros Hi Hh Eu Ek Ed. destruct (holds_live i k v Hi Hh) as (e & He & Ek0 & _ & Hok & Eu0 & Hj).
  pose proof (index_range h t Hwf k) as Hr. exists (<[Z.to_nat i := e']> t). split.
  - change (set_slot h i e') with (set_filled (set_slot h i e') (filled h)). eapply wf_updated; [done..|lia| |].
    + right. split; [by exists k, x|]. intros k' j v' Hk' Hj' Hne Hh'. simplify_eq. apply Hne.
      by eapply (wf_unique _ _ Hwf).
    + rewrite (live_count_insert _ _ e) by done. rewrite (wf_filled _ _ Hwf), Eu, Eu0. lia.
  - intros k' v'. cbn [set_slot size]. rewrite (held_updated h t i Hi e e' He). destruct (decide (k' = k)) as [->|Hne].
    + rewrite lookup_insert_eq. split; [intros [= <-]; left; split_and!; done || lia|].
      intros [(_ & _ & ?)|(j & Hj' & Hne & Hh')]; [congruence|]. exfalso. apply Hne. by eapply (wf_unique _ _ Hwf).
    + rewrite lookup_insert_ne, (Hm k' v') by done. split.
      * intros (j & Hj' & Hh'). right. exists j. split_and!; [lia..| |done]. intros ->.
        destruct Hh' as (e2 & ? & _ & ? & _). congruence.
      * intros [(_ & ? & _)|(j & Hj' & _ & Hh')]; [congruence|eauto].
Qed.

(** A new name, in a slot that its search reaches. *)
Lemma maps_insert j k x e e' :
  m !! k = None -> string_ok k -> t !! Z.to_nat (probe h k j) = Some e -> used e <= 0 ->
  Z.of_nat j < size h -> (forall l, (l < j)%nat -> taken t (probe h k l)) ->
  used e' = first_index h k -> key (entry e') = Some k -> data (entry e') = Some x ->
  represents (set_filled (set_slot h (probe h k j) e') (filled h + 1)) (<[k := x]> m).
Proof using All.
  intros Hn Hok He Hu Hj Htk Eu Ek Ed. pose proof (index_range h t Hwf k) as Hr.
  pose proof (probe_range h t Hwf k j) as Hi. set (i := probe h k j) in *.
  exists (<[Z.to_nat i := e']> t). split.
  - eapply wf_updated; [done..|lia| |].
    + right. split; [exists k, x; split_and!; [done..|]; by exists j|].
      intros k' j' v' Hk' Hj' _ Hh'. simplify_eq. by eapply (maps_none _ Hn j').
    + rewrite (live_count_insert _ _ e) by done. rewrite (wf_filled _ _ Hwf), Eu.
      rewrite (proj2 (Z.ltb_ge 0 _)), (proj2 (Z.ltb_lt 0 _)) by lia. lia.
  - intros k' v'. cbn [set_filled set_slot size]. rewrite (held_updated h t i Hi e e' He).
    destruct (decide (k' = k)) as [->|Hne].
    + rewrite lookup_insert_eq. split; [intros [= <-]; left; split_and!; done || lia|].
      intros [(_ & _ & ?)|(j' & Hj' & _ & Hh')]; [congruence|]. exfalso. by eapply (maps_none k Hn j').
    + rewrite lookup_insert_ne, (Hm k' v') by done. split.
      * intros (j' & Hj' & Hh'). right. exists j'. split_and!; [lia..| |done]. intros ->.
        destruct Hh' as (e2 & ? & ? & _). simplify_eq. lia.
      * intros [(_ & ? & _)|(j' & Hj' & _ & Hh')]; [congruence|eauto].
Qed.

(** A deleted name. *)
Lemma maps_delete i k v :
  1 <= i <= size h -> holds t i k v ->
  represents (set_filled (set_slot h i {| used := -1; entry := no_entry |}) (filled h - 1)) (delete k m).
Proof using All.
  intros Hi Hh. destruct (holds_live i k v Hi Hh) as (e & He & Ek0 & _ & Hok & Eu0 & Hj).
  pose proof (index_range h t Hwf k) as Hr. set (e' := {| used := -1; entry := no_entry |}).
  exists (<[Z.to_nat i := e']> t). split.
  - eapply wf_updated; [done..|by left|].
    rewrite (live_count_insert _ _ e) by done. rewrite (wf_filled _ _ Hwf), Eu0.
    rewrite (proj2 (Z.ltb_lt 0 _)) by lia. change (0 <? used e') with false. cbv iota. lia.
  - intros k' v'. cbn [set_filled set_slot size]. rewrite (held_updated h t i Hi e e' He).
    destruct (decide (k' = k)) as [->|Hne].
    + rewrite lookup_delete_eq. split; [done|].
      intros [(Hbad & _)|(j' & Hj' & Hne & Hh')]; [done|]. exfalso. apply Hne. by eapply (wf_unique _ _ Hwf).
    + rewrite lookup_delete_ne, (Hm k' v') by done. split.
      * intros (j' & Hj' & Hh'). right. exists j'. split_and!; [lia..| |done]. intros ->.
        destruct Hh' as (e2 & ? & _ & ? & _). congruence.
      * intros [(Hbad & _)|(j' & Hj' & _ & Hh')]; [done|eauto].
Qed.
End Maps.

(** ** The operations *)

(** A slot that was never used. *)
Definition has_free (h : hsearch_data) : Prop := exists t i, table h = Some t /\ 1 <= i <= size h /\ ~ taken t i.

(** No slot holds a deleted name. *)
Definition clean (h : hsearch_data) : Prop :=
  forall t i e, table h = Some t -> 1 <= i <= size h -> t !! Z.to_nat i = Some e -> used e <> -1.

Lemma set_slot_twice h i e n e' : set_slot (set_filled (set_slot h i e) n) i e' = set_filled (set_slot h i e') n.
Proof. unfold set_slot, set_filled. simpl. f_equal. destruct (table h); simpl; [|done]. by rewrite list_insert_insert_eq. Qed.

Lemma hdelete_slot h i e : slot h i = Ok e ->
  _hdelete h i = Ok (set_filled (set_slot h i {| used := -1; entry := no_entry |}) (u32 (filled h - 1))).
Proof. intros Hs. unfold _hdelete. by rewrite Hs. Qed.

Ltac split_if E := match goal with |- context [if ?c then _ else _] => destruct c eqn:E end.

(** The refusal of a change to the entry [en]: by the permission function, or by its callback. *)
Definition refusal (h : hsearch_data) (k : list Z) (en : ENTRY) (x : option (list Z)) (op : env_op) (flag : Z) : option Z :=
  if match change_ok h with Some f => f en x op flag | None => false end then Some EPERM
  else if match callback en with Some f => f k x op flag | None => false end then Some EINVAL else None.

(** The entry of a name. *)
Definition stored (h : hsearch_data) (k v : list Z) (i : Z) (en : ENTRY) : Prop :=
  exists t u, table h = Some t /\ 1 <= i <= size h /\ t !! Z.to_nat i = Some {| used := u; entry := en |} /\
    0 < u /\ key en = Some k /\ data en = Some v.
Definition fresh (k v : list Z) : ENTRY := {| key := Some k; data := Some v; callback := None; flags := 0 |}.

Definition found_at (i : Z) : answer := {| ret := i; retval := Some i; errno := None |}.

Lemma stored_holds h t k v i e : wf h t -> 1 <= i <= size h -> holds t i k v -> t !! Z.to_nat i = Some e ->
  stored h k v i (entry e).
Proof.
  intros Hwf Hi (e' & He' & Hu & Hk & Hv) He. assert (e' = e) as -> by congruence. exists t, (used e).
  split_and!; try done; try lia; [apply (wf_table _ _ Hwf)|by destruct e].
Qed.

Lemma stored_unique h m k v i en v' i' en' : represents h m -> stored h k v i en -> stored h k v' i' en' ->
  v = v' /\ i = i' /\ en = en'.
Proof.
  intros (t & Hwf & _) (t1 & u & Ht & Hi & He & Hu & Hk & Hv) (t2 & u' & Ht' & Hi' & He' & Hu' & Hk' & Hv').
  rewrite (wf_table _ _ Hwf) in Ht, Ht'. simplify_eq.
  assert (i = i') as <- by (apply (wf_unique _ _ Hwf i i' k v v'); try done; eexists; split_and!; done).
  by simplify_eq.
Qed.

Section Operations.
Context (malloc_ok : list Z -> bool) (env_callback_init env_flags_init : ENTRY -> ENTRY).
Hypothesis init_keeps : forall e, key (env_flags_init (env_callback_init e)) = key e /\
                                  data (env_flags_init (env_callback_init e)) = data e.

Lemma find_ok h m k d flag : represents h m -> string_ok k ->
  exists a, hsearch_r malloc_ok env_callback_init env_flags_init k d FIND h flag = Ok (a, h) /\
    match m !! k with
    | Some v => exists i en, a = found_at i /\ stored h k v i en
    | None => a = fails ESRCH
    end.
Proof.
  intros (t & Hwf & Hm) Hok. destruct (m !! k) as [v|] eqn:E.
  - apply Hm in E as (i & Hi & Hh). destruct (holds_live h t Hwf i k v Hi Hh) as (e & _ & _ & _ & _ & _ & j & Hj & -> & Htk).
    rewrite (search_found _ _ _ h t Hwf k d FIND flag Hok j v) by done.
    destruct (compare_hit malloc_ok h t Hwf k d FIND flag Hok _ v Hi Hh) as (e' & _ & He' & _ & _ & ->).
    eexists. split; [done|]. exists (probe h k j), (entry e'). split; [done|]. by eapply stored_holds.
  - destruct (first_free h t Hwf k) as (j & Htk & Hj).
    rewrite (search_absent _ _ _ h t Hwf k d FIND flag Hok j) by (done || by eapply maps_none).
    destruct (slot_some h t Hwf (first_index h k)) as (e & _ & ->); [pose proof (index_range h t Hwf k); lia|].
    by eexists.
Qed.

(** Entering a value for a name that is there. *)
Lemma overwrite_ok h m k v x flag : represents h m -> string_ok k -> malloc_ok x = true -> m !! k = Some v ->
  exists a h', hsearch_r malloc_ok env_callback_init env_flags_init k (Some x) ENTER h flag = Ok (a, h') /\
    exists i en, stored h k v i en /\
      match refusal h k en (Some x) env_op_overwrite flag with
      | None => a = found_at i /\ represents h' (<[k := x]> m)
      | Some e => a = fails e /\ h' = h
      end.
Proof.
  intros (t & Hwf & Hm) Hok Hx Hv. apply Hm in Hv as (i & Hi & Hh).
  destruct (holds_live h t Hwf i k v Hi Hh) as (e & He & _ & _ & _ & Eu & j & Hj & -> & Htk).
  rewrite (search_found _ _ _ h t Hwf k _ ENTER flag Hok j v) by done.
  destruct (compare_hit malloc_ok h t Hwf k (Some x) ENTER flag Hok _ v Hi Hh) as (e' & _ & He' & Ek & _ & ->).
  simplify_eq. unfold strdup. rewrite Hx. cbv zeta.
  split_if E1; [|split_if E2]; eexists _, _; (split; [reflexivity|]); eexists _, (entry e);
    (split; [by eapply stored_holds|]); unfold refusal; rewrite E1, ?E2; try done.
  split; [done|]. by eapply maps_overwrite.
Qed.

Lemma free_count h t : wf h t -> has_free h -> filled h <= size h - 1.
Proof.
  intros Hwf (t' & i & Ht & Hi & Hf). rewrite (wf_table _ _ Hwf) in Ht. simplify_eq.
  destruct (slot_some h t' Hwf i Hi) as (e & He & _).
  destruct (lookup_lt_is_Some_2 t' 0) as [e0 He0]; [rewrite (wf_length _ _ Hwf); lia|].
  pose proof (wf_zero _ _ Hwf e0 He0). rewrite (wf_filled _ _ Hwf).
  assert (used e = 0) as Hu. { destruct (Z.eq_dec (used e) 0); [done|]. exfalso. apply Hf. by exists e. }
  pose proof (live_count_two t' 0 (Z.to_nat i) e0 e ltac:(lia) He0 He ltac:(lia) ltac:(lia)) as Hc.
  rewrite (wf_length _ _ Hwf) in Hc. lia.
Qed.

(** The slot a new name goes to. *)
Lemma new_slot h t k : wf h t -> has_free h -> 
  exists j j' e e0, (forall l, (l < j)%nat -> taken t (probe h k l)) /\ Z.of_nat j < size h /\
    t !! Z.to_nat (probe h k j) = Some e /\ used e <= 0 /\
    (forall l, (l < j')%nat -> taken t (probe h k l)) /\
    (Z.of_nat j' < size h /\ ~ taken t (probe h k j') \/ Z.of_nat j' = size h) /\
    slot h (first_index h k) = Ok e0 /\
    probe h k j = let fd := if used e0 =? -1 then first_index h k else 0 in if negb (fd =? 0) then fd else probe h k j'.
Proof.
  intros Hwf (t' & i & Ht & Hi & Hf). rewrite (wf_table _ _ Hwf) in Ht. simplify_eq.
  destruct (first_free h t' Hwf k) as (j & Htk & Hj). pose proof (index_range h t' Hwf k) as Hr.
  destruct (slot_some h t' Hwf (first_index h k)) as (e0 & He0 & Hs0); [lia|].
  assert (Z.of_nat j < size h /\ ~ taken t' (probe h k j)) as [Hlt Hn].
  { destruct Hj as [?|Hj]; [done|]. destruct (probe_surj h t' Hwf k i Hi) as (l & Hl & <-). exfalso. apply Hf, Htk. lia. }
  destruct (Z.eqb_spec (used e0) (-1)) as [E|E].
  - exists 0%nat, j, e0, e0. rewrite E, (probe_0 h t' Hwf k). split_and!; try done; try lia.
    change (-1 =? -1) with true. cbv zeta iota. by rewrite (proj2 (Z.eqb_neq (first_index h k) 0)) by lia.
  - destruct (slot_some h t' Hwf (probe h k j)) as (e & He & _); [apply (probe_range h t' Hwf)|].
    exists j, j, e, e0. rewrite (proj2 (Z.eqb_neq _ _) E). split_and!; try done.
    destruct (Z.eq_dec (used e) 0); [lia|]. exfalso. apply Hn. by exists e.
Qed.

(** Entering a new name while a slot was never used. *)
Lemma enter_ok h m k x flag : represents h m -> has_free h -> string_ok k -> malloc_ok k = true -> malloc_ok x = true ->
  m !! k = None ->
  exists a h', hsearch_r malloc_ok env_callback_init env_flags_init k (Some x) ENTER h flag = Ok (a, h') /\
    match refusal h k (env_flags_init (env_callback_init (fresh k x))) (Some x) env_op_create flag with
    | None => (exists i, a = {| ret := 1; retval := Some i; errno := None |}) /\ represents h' (<[k := x]> m) /\
        filled h' = filled h + 1 /\ size h' = size h /\ change_ok h' = change_ok h /\ (clean h -> clean h')
    | Some e => a = fails e /\ represents h' m
    end.
Proof.
  intros (t & Hwf & Hm) Hfree Hok Hkm Hxm Hn. pose proof (wf_size _ _ Hwf). pose proof (free_count h t Hwf Hfree).
  pose proof (live_count_bound t) as Hlc. rewrite <- (wf_filled _ _ Hwf) in Hlc.
  destruct (new_slot h t k Hwf Hfree) as (j & j' & e & e0 & Htk & Hj & He & Hu & Htk' & Hj' & Hs0 & Eidx).
  rewrite (search_absent _ _ _ h t Hwf k _ ENTER flag Hok j') by (done || by eapply maps_none).
  rewrite Hs0. cbn [res_bind]. unfold enter_new. rewrite (proj2 (Z.eqb_neq _ _)) by lia.
  cbv zeta in Eidx |- *. rewrite <- Eidx. pose proof (probe_range h t Hwf k j) as Hi. set (i := probe h k j) in *.
  destruct (slot_some h t Hwf i Hi) as (e1 & He1 & Hs1). assert (e1 = e) as -> by congruence.
  cbn [res_of_option res_bind]. rewrite Hs1. cbn [res_bind]. unfold strdup. rewrite Hkm, Hxm.
  rewrite !bool_decide_false by done. cbn [orb]. rewrite set_slot_twice.
  pose proof (index_range h t Hwf k). rewrite swrap_small by (simpl; lia). cbn [set_slot filled].
  rewrite (wrap_small 32) by lia.
  rewrite (wf_clear _ _ Hwf i e Hi He Hu). cbn [callback flags no_entry].
  change {| key := Some k; data := Some x; callback := None; flags := 0 |} with (fresh k x).
  set (new := env_flags_init _). set (h1 := set_filled _ _).
  assert (key new = Some k /\ data new = Some x) as [Ek Ed] by apply init_keeps.
  assert (represents h1 (<[k := x]> m)) as Hrep by (eapply maps_insert; done).
  assert (exists h2, _hdelete h1 i = Ok h2 /\ represents h2 m) as (h2 & Hdel & Hrep2).
  { destruct Hrep as (t1 & Hwf1 & Hm1). destruct (slot_some h1 t1 Hwf1 i Hi) as (e2 & He2 & Hs2).
    rewrite (hdelete_slot h1 i e2 Hs2). eexists. split; [done|].
    assert (holds t1 i k x) as Hh1.
    { assert (t1 = <[Z.to_nat i := {| used := first_index h k; entry := new |}]> t) as ->.
      { pose proof (wf_table _ _ Hwf1) as Ht1. cbn in Ht1. rewrite (wf_table _ _ Hwf) in Ht1. by simplify_eq/=. }
      eexists. rewrite list_lookup_insert_eq by (by eapply lookup_lt_Some). split_and!; [done|simpl; lia|done|done]. }
    replace m with (delete k (<[k := x]> m)) by (by rewrite delete_insert_id).
    rewrite (wrap_small 32) by (cbn; lia). by eapply maps_delete. }
  assert (clean h -> clean h1) as Hclean.
  { intros Hc t1 l e2 Ht1 Hl. cbn in Ht1, Hl. rewrite (wf_table _ _ Hwf) in Ht1. injection Ht1 as <-.
    rewrite (lookup_updated h t i Hi e) by (done || lia). case_decide; [intros [= <-]; simpl; lia|].
    intros He2. by apply (Hc t l e2 (wf_table _ _ Hwf)). }
  change (change_ok h1) with (change_ok h). unfold refusal.
  split_if E1; [|split_if E2]; rewrite ?Hdel; cbn [res_bind]; eexists _, _; (split; [reflexivity|]); eauto 10.
Qed.
End Operations.

(** *** Creation *)

Lemma div_loop_ok number n : 5 <= number < 2 ^ 31 -> forall div,
  3 <= div < 2 ^ 16 -> div <= number -> Z.odd div = true -> (forall d, Z.odd d = true -> 3 <= d < div -> number mod d <> 0) ->
  number - div < Z.of_nat n ->
  exists r, div_loop n number div = Ok r /\ 3 <= r /\
    (forall d, Z.odd d = true -> 3 <= d < r -> number mod d <> 0) /\ (number <= r * r \/ number mod r = 0).
Proof.
  intros Hnum. induction n as [|n IH]; intros div Hd Hdn Ho Hlt Hn; [lia|].
 
  cbn [div_loop]. rewrite (proj2 (Z.eqb_neq div 0)) by lia. rewrite wrap_small by nia.
  destruct (Z.ltb_spec (div * div) number); cbn [andb]; [|exists div; auto with lia].
  destruct (Z.eqb_spec (number mod div) 0); cbn [negb]; [exists div; auto with lia|].
  rewrite wrap_small by lia. apply IH; [nia|nia|by rewrite Z.odd_add, Ho| |lia].
  intros d Hod Hrd. destruct (Z.eq_dec d div) as [->|]; [done|]. destruct (Z.eq_dec d (div + 1)) as [->|]; [|apply Hlt; done || lia].
  rewrite Z.odd_add, Ho in Hod. done.
Qed.

(** What passes the test is prime. *)
Lemma isprime_sound number : 5 <= number < 2 ^ 31 -> Z.odd number = true ->
  exists b, isprime (S (Z.to_nat number)) number = Ok b /\ (b = true -> Z.prime number).
Proof.
  intros Hn Ho. unfold isprime.
  destruct (div_loop_ok number (S (Z.to_nat number)) Hn 3) as (r & -> & Hr & Hlt & Hend); [lia|lia|done|lia|lia|].
  cbn [res_bind]. eexists. split; [done|]. intros Hm%negb_true_iff%Z.eqb_neq.
  destruct Hend as [Hrr|]; [|done]. split; [lia|]. intros d Hd [c Hc].
  assert (0 < c) by nia.
  assert (forall e, (e | number) -> Z.odd e = true) as Hodd.
  { intros e [f ->]. rewrite Z.odd_mul in Ho. by apply andb_true_iff in Ho as [_ ?]. }
  assert (Z.odd d = true) as Hod by (apply Hodd; by exists c).
  assert (Z.odd c = true) as Hoc by (apply Hodd; exists d; lia).
  assert (forall e f, number = e * f -> Z.odd e = true -> 1 < e -> 0 < f -> e * e <= number -> False) as Hsmall.
  { intros e f Ef Hoe He1 Hf Hsq. assert (e <> 2) by (by intros ->). assert (number mod e = 0) as Hz.
    { rewrite Ef, Z.mul_comm. apply Z.mod_mul. lia. }
    destruct (Z.lt_trichotomy e r) as [Hl|[->|Hg]]; [|done|nia]. by apply (Hlt e); [|lia|]. }
  destruct (Z.le_gt_cases (d * d) number); [eapply (Hsmall d c); done || lia|].
  assert (c <> 1) by (intros ->; lia). eapply (Hsmall c d); done || nia.
Qed.

(** The sizes the import function asks for. *)
Definition prime_check (nel : Z) : bool :=
  match next_prime (S (Z.to_nat (nel .| 1))) (nel .| 1) with
  | Ok p => (nel <=? p) && (p <=? 521) && Z.odd p && match isprime (S (Z.to_nat p)) p with Ok b => b | _ => false end
  | _ => false
  end.

Lemma next_prime_ok nel : 64 <= nel <= 512 ->
  exists p, next_prime (S (Z.to_nat (nel .| 1))) (nel .| 1) = Ok p /\ Z.prime p /\ nel <= p <= 521.
Proof.
  intros Hnel. assert (prime_check nel = true) as H.
  { assert (forallb prime_check (seqZ 64 449) = true) as Hall by (vm_compute; reflexivity).
    rewrite forallb_forall in Hall. apply Hall, list_elem_of_In, elem_of_seqZ. lia. }
  unfold prime_check in H. destruct (next_prime _ _) as [p| |]; [|done..]. exists p. split; [done|].
  apply andb_true_iff in H as [H Hp]. apply andb_true_iff in H as [H Ho]. apply andb_true_iff in H as [H1 H2].
  apply Z.leb_le in H1, H2. destruct (isprime_sound p) as (b & Eb & Hpr); [lia|done|]. rewrite Eb in Hp. auto with lia.
Qed.

Lemma empty_table n : live_count (replicate n {| used := 0; entry := no_entry |}) = 0.
Proof. induction n as [|n IH]; [done|]. cbn [replicate live_count]. rewrite IH. done. Qed.

Lemma empty_represents p c : 5 <= p < 2 ^ 31 -> Z.prime p ->
  let h := {| table := Some (replicate (S (Z.to_nat p)) {| used := 0; entry := no_entry |}); size := p; filled := 0; change_ok := c |} in
  represents h ∅ /\ has_free h /\ clean h.
Proof.
  intros Hr Hp. set (t := replicate (S (Z.to_nat p)) _). cbv zeta.
  assert (forall (i : nat) e, t !! i = Some e -> used e = 0) as Hz by (by intros i e [-> _]%lookup_replicate).
  assert (forall i k v, ~ holds t i k v) as Hh by (intros i k v (e & He & Hu & _); rewrite (Hz _ _ He) in Hu; lia).
  split_and!.
  - exists t. split.
    + constructor; cbn [table size filled]; try done; try lia.
      * apply length_replicate.
      * intros e He. rewrite (Hz _ _ He). lia.
      * symmetry. apply empty_table.
      * by intros i e _ [-> _]%lookup_replicate.
      * intros i e _ He. left. by eapply Hz.
      * intros i i' k v v' _ _ Hbad. by apply Hh in Hbad.
    + intros k v. rewrite lookup_empty. split; [done|]. intros (i & _ & Hbad). by apply Hh in Hbad.
  - exists t, 1. split_and!; [done|lia|cbn; lia|]. intros (e & He & Hu). by apply Hz in He.
  - intros t' i e Ht' _ He. cbn in Ht'. injection Ht' as <-. by rewrite (Hz _ _ He).
Qed.

Lemma hcreate_ok calloc_ok h nel : table h = None -> 64 <= nel <= 512 -> (forall n, calloc_ok n = true) ->
  exists h', hcreate_r calloc_ok nel h = Ok (1, h') /\ represents h' ∅ /\ has_free h' /\
    nel <= size h' <= 521 /\ filled h' = 0 /\ change_ok h' = change_ok h /\ clean h'.
Proof.
  intros Ht Hn Hc. destruct (next_prime_ok nel Hn) as (p & E & Hp & Hr). unfold hcreate_r. rewrite Ht, E.
  cbn [res_bind size]. rewrite Hc, (wrap_small 32 (p + 1)) by lia. eexists. split; [done|].
  replace (Z.to_nat (p + 1)) with (S (Z.to_nat p)) by lia.
  destruct (empty_represents p (change_ok h) ltac:(lia) Hp) as (? & ? & ?). split_and!; try done; cbn; lia.
Qed.

(** *** Deletion *)

Lemma delete_ok malloc_ok env_callback_init env_flags_init h m k flag : represents h m -> string_ok k ->
  exists r err h', hdelete_r malloc_ok env_callback_init env_flags_init k h flag = Ok (r, err, h') /\
    match m !! k with
    | None => r = 0 /\ err = Some ESRCH /\ h' = h
    | Some v => exists i en, stored h k v i en /\
        match refusal h k en None env_op_delete flag with
        | None => r = 1 /\ err = None /\ represents h' (delete k m)
        | Some e => r = 0 /\ err = Some e /\ h' = h
        end
    end.
Proof.
  intros Hrep Hok. destruct (find_ok malloc_ok env_callback_init env_flags_init h m k None 0 Hrep Hok) as (a & E & Ha).
  unfold hdelete_r. rewrite E. cbn [res_bind]. destruct Hrep as (t & Hwf & Hm). destruct (m !! k) as [v|] eqn:Ev.
  2: { rewrite Ha. eexists _, _, _. by split. }
  destruct Ha as (i & en & -> & Hst). pose proof Hst as (t' & u & Ht' & Hi & He & Hu & Ek & Ed).
  rewrite (wf_table _ _ Hwf) in Ht'. injection Ht' as <-. cbn [ret found_at]. rewrite (proj2 (Z.eqb_neq i 0)) by lia.
  destruct (slot_some h t Hwf i Hi) as (e & He' & Hs). assert (e = {| used := u; entry := en |}) as -> by congruence.
  rewrite Hs. cbn [res_bind entry]. assert (holds t i k v) as Hh by (eexists; split_and!; done).
  assert (exists h', _hdelete h i = Ok h' /\ represents h' (delete k m)) as (h' & Hdel & Hrep).
  { rewrite (hdelete_slot h i _ Hs). eexists. split; [done|].
    pose proof (live_count_bound (<[Z.to_nat i := {| used := -1; entry := no_entry |}]> t)) as Hb.
    rewrite (live_count_insert t (Z.to_nat i) _ _ He) in Hb. cbn [used] in Hb.
    rewrite (proj2 (Z.ltb_lt 0 u) Hu), <- (wf_filled _ _ Hwf), length_insert, (wf_length _ _ Hwf) in Hb. simpl in Hb.
    pose proof (wf_size _ _ Hwf). rewrite wrap_small by lia. by eapply maps_delete. }
  split_if E1; [|split_if E2]; rewrite ?Hdel; cbn [res_bind]; eexists _, _, _; (split; [reflexivity|]);
    exists i, en; (split; [done|]); unfold refusal; rewrite E1, ?E2; done.
Qed.

(** ** The table is a finite map *)

(** The permission function and the callbacks of a table that has none, and of one with a read-only
    name. *)
Definition plain_table : hsearch_data := {| table := None; size := 0; filled := 0; change_ok := None |}.

(** C8: a table that represents a finite map finds exactly its names: a search answers with the slot of
    the value the map has, or with [ESRCH], and leaves the table as it is.  Entering a value for a name
    replaces it, or inserts it as long as a slot was never used; a refusal by the permission function or
    by the callback of the entry leaves the map as it is.  The answer is the slot of a replaced value, but
    1 for an inserted one.  The copies of the strings find memory, and the initialisation of a new entry
    keeps its name and value. *)
Theorem hsearch_r_is_map malloc_ok env_callback_init env_flags_init h m k flag :
  (forall e, key (env_flags_init (env_callback_init e)) = key e /\ data (env_flags_init (env_callback_init e)) = data e) ->
  (forall s, malloc_ok s = true) -> represents h m -> string_ok k ->
  match m !! k with
  | Some v => exists i en, stored h k v i en /\
      (forall d, hsearch_r malloc_ok env_callback_init env_flags_init k d FIND h flag = Ok (found_at i, h)) /\
      (forall x, exists a h', hsearch_r malloc_ok env_callback_init env_flags_init k (Some x) ENTER h flag = Ok (a, h') /\
         match refusal h k en (Some x) env_op_overwrite flag with
         | None => a = found_at i /\ represents h' (<[k := x]> m)
         | Some e => a = fails e /\ h' = h
         end)
  | None =>
      (forall d, hsearch_r malloc_ok env_callback_init env_flags_init k d FIND h flag = Ok (fails ESRCH, h)) /\
      (forall x, has_free h ->
         exists a h', hsearch_r malloc_ok env_callback_init env_flags_init k (Some x) ENTER h flag = Ok (a, h') /\
         match refusal h k (env_flags_init (env_callback_init (fresh k x))) (Some x) env_op_create flag with
         | None => (exists i, a = {| ret := 1; retval := Some i; errno := None |}) /\ represents h' (<[k := x]> m)
         | Some e => a = fails e /\ represents h' m
         end)
  end.
Proof.
  intros Hinit Hmem Hrep Hok. destruct (m !! k) as [v|] eqn:Hk.
  - destruct (find_ok malloc_ok env_callback_init env_flags_init h m k None flag Hrep Hok) as (a & _ & Ha).
    rewrite Hk in Ha. destruct Ha as (i & en & _ & Hst). exists i, en. split; [done|]. split.
    + intros d. destruct (find_ok malloc_ok env_callback_init env_flags_init h m k d flag Hrep Hok) as (a' & -> & Ha').
      rewrite Hk in Ha'. destruct Ha' as (i' & en' & -> & Hst').
      by destruct (stored_unique h m k v i en v i' en' Hrep Hst Hst') as (_ & -> & _).
    + intros x. destruct (overwrite_ok malloc_ok env_callback_init env_flags_init h m k v x flag Hrep Hok (Hmem x) Hk)
        as (a' & h' & -> & i' & en' & Hst' & Hr). exists a', h'. split; [done|].
      by destruct (stored_unique h m k v i en v i' en' Hrep Hst Hst') as (_ & -> & ->).
  - split.
    2: { intros x Hfree. destruct (enter_ok malloc_ok env_callback_init env_flags_init Hinit h m k x flag) as (a & h' & E & Hr); try done.
         exists a, h'. split; [done|]. destruct (refusal _ _ _ _ _ _); [done|]. by destruct Hr as (? & ? & _). }
    intros d. destruct (find_ok malloc_ok env_callback_init env_flags_init h m k d flag Hrep Hok) as (a & -> & Ha).
    rewrite Hk in Ha. by subst.
Qed.

(** Deleting a name removes it from the represented map, unless the permission function or the
    callback of the entry refuses; a name that is not there is answered with [ESRCH]. *)
Theorem hdelete_r_is_delete malloc_ok env_callback_init env_flags_init h m k flag : represents h m -> string_ok k ->
  exists r err h', hdelete_r malloc_ok env_callback_init env_flags_init k h flag = Ok (r, err, h') /\
    match m !! k with
    | None => r = 0 /\ err = Some ESRCH /\ h' = h
    | Some v => exists i en, stored h k v i en /\
        match refusal h k en None env_op_delete flag with
        | None => r = 1 /\ err = None /\ represents h' (delete k m)
        | Some e => r = 0 /\ err = Some e /\ h' = h
        end
    end.
Proof. apply delete_ok. Qed.

(** ** When no unused slot is left *)

(** A search does not look at the count of names. *)
Definition with_count (n : Z) {A} (r : res (A * hsearch_data)) : res (A * hsearch_data) := let* (a, h) := r in Ok (a, set_filled h n).

Lemma compare_find_count malloc_ok k d h n flag hval i :
  _compare_and_overwrite_entry malloc_ok k d FIND (set_filled h n) flag hval i = with_count n (_compare_and_overwrite_entry malloc_ok k d FIND h flag hval i).
Proof.
  unfold _compare_and_overwrite_entry. change (slot (set_filled h n) i) with (slot h i). destruct (slot h i) as [e| |]; [|done..]. cbn [res_bind].
  destruct (_ =? _); [|done]. destruct (res_of_option _) as [k'| |]; [|done..]. cbn [res_bind]. by destruct (streq k k').
Qed.
Lemma compare_find_keeps malloc_ok k d h flag hval i a h' : _compare_and_overwrite_entry malloc_ok k d FIND h flag hval i = Ok (a, h') -> h' = h.
Proof.
  unfold _compare_and_overwrite_entry. destruct (slot h i) as [e| |]; [|done..]. cbn [res_bind]. destruct (_ =? _); [|by intros [= _ <-]].
  destruct (res_of_option _) as [k'| |]; [|done..]. cbn [res_bind]. by destruct (streq k k'); intros [= _ <-].
Qed.
Lemma loop_find_count malloc_ok k d n flag hval hval2 h fuel : forall i,
  probe_loop malloc_ok fuel k d FIND (set_filled h n) flag hval hval2 i =
  let* r := probe_loop malloc_ok fuel k d FIND h flag hval hval2 i in Ok (match r with inl i => inl i | inr (a, h) => inr (a, set_filled h n) end).
Proof.
  induction fuel as [|fuel IH]; intros i; [done|]. cbn [probe_loop]. change (size (set_filled h n)) with (size h).
  set (i' := if _ <=? _ then _ else _). destruct (i' =? hval); [done|]. rewrite compare_find_count.
  destruct (_compare_and_overwrite_entry _ _ _ _ h _ _ _) as [[a h']| |] eqn:E; [|done..]. apply compare_find_keeps in E as ->. cbn [with_count res_bind].
  destruct (negb _); [done|]. change (slot (set_filled h n) i') with (slot h i'). destruct (slot h i') as [e| |]; [|done..]. cbn [res_bind].
  by destruct (negb _).
Qed.
Lemma find_count malloc_ok cb fl k d n flag h :
  hsearch_r malloc_ok cb fl k d FIND (set_filled h n) flag = with_count n (hsearch_r malloc_ok cb fl k d FIND h flag).
Proof.
  unfold hsearch_r. change (size (set_filled h n)) with (size h). destruct (size h =? 0); [done|]. change (first_index (set_filled h n) k) with (first_index h k).
  change (slot (set_filled h n)) with (slot h). destruct (slot h _) as [e| |]; [|done..]. cbn [res_bind]. destruct (negb (used e =? 0)); [|done].
  rewrite compare_find_count. destruct (_compare_and_overwrite_entry _ _ _ _ h _ _ _) as [[a h']| |] eqn:E; [|done..]. apply compare_find_keeps in E as ->.
  cbn [with_count res_bind]. destruct (negb _); [done|]. change (size (set_filled h n)) with (size h). destruct (_ =? 0); [done|].
  change (step_of (set_filled h n)) with (step_of h). rewrite loop_find_count. destruct (probe_loop _ _ _ _ _ h _ _ _ _) as [[?|[??]]| |]; done.
Qed.

(** Entering a new name when no slot is left that was never used, and the count says there is room: the search goes all the way round to the slot it
    began at, and the new name takes it, whatever is there. *)
Lemma enter_over malloc_ok cb fl h m k x flag k0 v0 en0 :
  (forall e, key (fl (cb e)) = key e /\ data (fl (cb e)) = data e) -> (forall s, malloc_ok s = true) ->
  represents h m -> ~ has_free h -> filled h <> size h -> string_ok k -> m !! k = None -> stored h k0 v0 (first_index h k) en0 ->
  let new := fl (cb {| key := Some k; data := Some x; callback := callback en0; flags := flags en0 |}) in
  refusal h k new (Some x) env_op_create flag = None ->
  exists h', hsearch_r malloc_ok cb fl k (Some x) ENTER h flag = Ok ({| ret := 1; retval := Some (first_index h k); errno := None |}, set_filled h' (filled h + 1)) /\
    filled h' = filled h /\ represents h' (<[k := x]> (delete k0 m)).
Proof.
  intros Hinit Hmem (t & Hwf & Hm) Hfull Hcount Hok Hn Hst new Hr. pose proof (wf_size _ _ Hwf) as Hsz. pose proof (index_range h t Hwf k) as Hi.
  pose proof (live_count_bound t) as Hlc. rewrite <- (wf_filled _ _ Hwf), (wf_length _ _ Hwf) in Hlc.
  destruct Hst as (t0 & u & Ht & _ & He & Hu & Ek0 & Ed0). rewrite (wf_table _ _ Hwf) in Ht. injection Ht as <-.
  assert (holds t (first_index h k) k0 v0) as Hh by (eexists; split_and!; done).
  rewrite (search_absent _ _ _ h t Hwf k _ ENTER flag Hok (Z.to_nat (size h))); [|by eapply maps_none| |right; lia].
  2: { intros l _. destruct (slot_some h t Hwf (probe h k l)) as (e & He' & _); [apply (probe_range h t Hwf)|].
       destruct (Z.eq_dec (used e) 0) as [E|E]; [|by exists e]. exfalso. apply Hfull. exists t, (probe h k l).
       split_and!; [apply (wf_table _ _ Hwf)|apply (probe_range h t Hwf)..|]. intros (e' & ? & ?). by simplify_eq. }
  rewrite (probe_turn h t Hwf k). set (i := first_index h k) in *. destruct (slot_some h t Hwf i) as (e & He' & Hs); [lia|]. simplify_eq.
  rewrite Hs. cbn [res_bind used]. rewrite (proj2 (Z.eqb_neq u (-1))) by lia. unfold enter_new. rewrite (proj2 (Z.eqb_neq _ _) Hcount). cbv zeta.
  cbn [negb Z.eqb res_of_option res_bind]. rewrite Hs. cbn [res_bind entry]. unfold strdup. rewrite !Hmem. rewrite !bool_decide_false by done. cbn [orb].
  rewrite set_slot_twice, swrap_small by (simpl; lia). cbn [set_slot filled]. rewrite (wrap_small 32) by lia. fold new.
  unfold refusal in Hr. cbn [set_filled set_slot change_ok]. destruct (match change_ok h with Some f => f new (Some x) env_op_create flag | None => false end); [done|].
  destruct (match callback new with Some f => f k (Some x) env_op_create flag | None => false end); [done|].
  exists (set_filled (set_slot h i {| used := i; entry := new |}) (filled h)). split_and!; [done..|].
  assert (key new = Some k /\ data new = Some x) as [Ek Ed] by apply Hinit.
  destruct (maps_delete h t m Hwf Hm i k0 v0 ltac:(lia) Hh) as (t1 & Hwf1 & Hm1). set (h1 := set_filled _ _) in *.
  assert (table h1 = Some (<[Z.to_nat i := {| used := -1; entry := no_entry |}]> t)) as Ht1 by (cbn; by rewrite (wf_table _ _ Hwf)).
  rewrite (wf_table _ _ Hwf1) in Ht1. injection Ht1 as ->.
  assert (m !! k = None -> delete k0 m !! k = None) as Hn1 by (intros; by apply lookup_delete_None; right).
  pose proof (maps_insert h1 _ _ Hwf1 Hm1 0 k x {| used := -1; entry := no_entry |} {| used := i; entry := new |} (Hn1 Hn) Hok) as Hins.
  rewrite (probe_0 h1 _ Hwf1 k) in Hins. change (first_index h1 k) with i in Hins. subst h1. rewrite set_slot_twice in Hins.
  cbn [set_filled filled] in Hins. replace (filled h - 1 + 1) with (filled h) in Hins by lia. apply Hins; try done; try (cbn; lia).
  apply list_lookup_insert_eq. by eapply lookup_lt_Some.
Qed.

(** C37: a name is lost.  Take a table, of any size, in use for any map of names to values, in which every slot was used at some time but which has
    not as many names as slots, because some were deleted.  When a new name is entered whose first slot holds another name, the call reports
    success, and the other name, which was found before, is not found any more: afterwards a search finds exactly the names of the map with the new
    one in the place of the lost one.  The count of names is one higher all the same.  The permission function and the callback accept the entry,
    which keeps the callback and the flags of the name that is lost until it is initialised; allocations succeed. *)
Theorem hsearch_r_loses_entry malloc_ok env_callback_init env_flags_init h m k x flag k0 v0 en0 :
  let search := hsearch_r malloc_ok env_callback_init env_flags_init in
  (forall e, key (env_flags_init (env_callback_init e)) = key e /\ data (env_flags_init (env_callback_init e)) = data e) ->
  (forall s, malloc_ok s = true) -> represents h m -> ~ has_free h -> filled h <> size h -> string_ok k -> m !! k = None ->
  stored h k0 v0 (first_index h k) en0 ->
  refusal h k (env_flags_init (env_callback_init {| key := Some k; data := Some x; callback := callback en0; flags := flags en0 |})) (Some x) env_op_create flag = None ->
  m !! k0 = Some v0 /\ search k0 None FIND h flag = Ok (found_at (first_index h k), h) /\
  exists h', search k (Some x) ENTER h flag = Ok ({| ret := 1; retval := Some (first_index h k); errno := None |}, h') /\
    search k0 None FIND h' flag = Ok (fails ESRCH, h') /\ filled h' = filled h + 1 /\
    forall k1 d, string_ok k1 ->
      match <[k := x]> (delete k0 m) !! k1 with
      | Some v => exists i en, search k1 d FIND h' flag = Ok (found_at i, h') /\ stored h' k1 v i en
      | None => search k1 d FIND h' flag = Ok (fails ESRCH, h')
      end.
Proof.
  intros search Hinit Hmem Hrep Hfull Hcount Hok Hn Hst Hr.
  destruct (enter_over malloc_ok env_callback_init env_flags_init h m k x flag k0 v0 en0) as (h1 & E & Ef & Hrep1); try done.
  pose proof Hrep as (t & Hwf & Hm). pose proof Hst as (t' & u & Ht & Hi & He & Hu & Ek & Ed). rewrite (wf_table _ _ Hwf) in Ht. injection Ht as <-.
  assert (holds t (first_index h k) k0 v0) as Hh by (eexists; split_and!; done).
  destruct (holds_live h t Hwf _ _ _ Hi Hh) as (_ & _ & _ & _ & Hok0 & _). assert (m !! k0 = Some v0) as Hk0 by (apply Hm; eauto).
  assert (forall k1 d, string_ok k1 -> match <[k := x]> (delete k0 m) !! k1 with
      | Some v => exists i en, search k1 d FIND (set_filled h1 (filled h + 1)) flag = Ok (found_at i, set_filled h1 (filled h + 1)) /\ stored (set_filled h1 (filled h + 1)) k1 v i en
      | None => search k1 d FIND (set_filled h1 (filled h + 1)) flag = Ok (fails ESRCH, set_filled h1 (filled h + 1)) end) as Hall.
  { intros k1 d Hok1. subst search. rewrite find_count. destruct (find_ok malloc_ok env_callback_init env_flags_init h1 _ k1 d flag Hrep1 Hok1) as (a & -> & Ha).
    destruct (<[k := x]> (delete k0 m) !! k1) as [v|]; [|by rewrite Ha]. destruct Ha as (i & en & -> & Hs). by exists i, en. }
  split; [done|]. split.
  { destruct (find_ok malloc_ok env_callback_init env_flags_init h m k0 None flag Hrep Hok0) as (a & Ea & Ha). rewrite Hk0 in Ha.
    destruct Ha as (i & en & -> & Hs). by destruct (stored_unique h m _ _ _ _ _ _ _ Hrep Hs Hst) as (_ & <- & _). }
  exists (set_filled h1 (filled h + 1)). split_and!; [done| |done|done].
  specialize (Hall k0 None Hok0). rewrite lookup_insert_ne, lookup_delete_eq in Hall by congruence. done.
Qed.

(** A table of five slots, all filled once, and one name deleted. *)
Definition entered (k : list Z) (h : hsearch_data) : hsearch_data :=
  match hsearch_r (fun _ => true) id id k (Some (cstr "v")) ENTER h 0 with Ok (_, h) => h | _ => h end.
Definition empty_5 : hsearch_data :=
  {| table := Some (replicate 6 {| used := 0; entry := no_entry |}); size := 5; filled := 0; change_ok := None |}.
Definition full_5 : hsearch_data := entered (cstr "e") (entered (cstr "d") (entered (cstr "c") (entered (cstr "b") (entered (cstr "a") empty_5)))).
Definition small_table : hsearch_data :=
  match hdelete_r (fun _ => true) id id (cstr "b") full_5 0 with Ok (_, _, h) => h | _ => full_5 end.

(** [hmatch_r] does not look at the last slot. *)
Example hmatch_r_misses_last :
  (let* (a, _) := hsearch_r (fun _ => true) id id (cstr "e") None FIND small_table 0 in
   let* a' := hmatch_r (cstr "e") 0 small_table in Ok (a, a')) = Ok (found_at 5, fails ESRCH).
Proof. vm_compute. reflexivity. Qed.

(** ** Witnesses *)

(** An empty table of 67 slots. *)
Definition empty_67 : hsearch_data :=
  {| table := Some (replicate 68 {| used := 0; entry := no_entry |}); size := 67; filled := 0; change_ok := None |}.
Definition one_variable : hsearch_data :=
  match hsearch_r (fun _ => true) id id (cstr "bootdelay") (Some (cstr "3")) ENTER empty_67 0 with
  | Ok (_, h) => h
  | _ => empty_67
  end.

Lemma empty_67_ok : represents empty_67 ∅ /\ has_free empty_67.
Proof.
  destruct (hcreate_ok (fun _ => true) plain_table 66) as (h' & E & Hrep & Hfree & _); [done|lia|done|].
  vm_compute in E. injection E as <-. done.
Qed.

Lemma one_variable_ok : represents one_variable {[cstr "bootdelay" := cstr "3"]}.
Proof.
  destruct empty_67_ok as [Hrep Hfree].
  destruct (enter_ok (fun _ => true) id id ltac:(done) empty_67 ∅ (cstr "bootdelay") (cstr "3") 0)
    as (a & h' & E & Hr); [done|done|by repeat constructor|done..|].
  assert (one_variable = h') as -> by (unfold one_variable; by rewrite E). by apply Hr.
Qed.

(** The table of five slots, step by step. *)
Lemma entered_ok h m k : represents h m -> has_free h -> change_ok h = None -> string_ok k -> m !! k = None ->
  represents (entered k h) (<[k := cstr "v"]> m) /\ change_ok (entered k h) = None.
Proof.
  intros Hrep Hfree Hc Hk Hn. destruct (enter_ok (fun _ => true) id id ltac:(done) h m k (cstr "v") 0) as (a & h' & E & Hr); [done..|].
  unfold entered. rewrite E. unfold refusal in Hr. rewrite Hc in Hr. cbn in Hr. destruct Hr as (_ & ? & _ & _ & -> & _). done.
Qed.
Ltac free_slot i := solve [eexists _, i; split_and!; [vm_compute; reflexivity|vm_compute; discriminate..|
  intros (e & He & Hu); vm_compute in He; injection He as <-; by apply Hu]].
Ltac other_name := repeat (rewrite lookup_insert_ne by discriminate); apply lookup_empty.
Ltac entered_next k H := pose proof (entered_ok _ _ k (proj1 H)
  ltac:(first [free_slot 1|free_slot 2|free_slot 3|free_slot 4|free_slot 5]) (proj2 H) ltac:(by repeat constructor) ltac:(other_name)) as H'; clear H; rename H' into H.
Lemma full_5_ok : exists m, represents full_5 m /\ m !! cstr "f" = None /\ m !! cstr "b" = Some (cstr "v").
Proof.
  assert (Z.prime 5) as Hp.
  { destruct (isprime_sound 5) as (b & E & H); [lia|done|]. apply H. vm_compute in E. by injection E. }
  pose proof (conj (proj1 (empty_represents 5 None ltac:(lia) Hp)) eq_refl : represents empty_5 ∅ /\ change_ok empty_5 = None) as H.
  entered_next (cstr "a") H. entered_next (cstr "b") H. entered_next (cstr "c") H. entered_next (cstr "d") H. entered_next (cstr "e") H.
  eexists. split; [exact (proj1 H)|]. split; [other_name|].
  do 3 (rewrite lookup_insert_ne by discriminate). apply lookup_insert_eq.
Qed.
Lemma small_table_ok : exists m, represents small_table m /\ m !! cstr "f" = None.
Proof.
  destruct full_5_ok as (m & Hrep & Hf & Hb). exists (delete (cstr "b") m). split; [|by rewrite lookup_delete_ne].
  destruct (delete_ok (fun _ => true) id id full_5 m (cstr "b") 0 Hrep ltac:(by repeat constructor)) as (r & err & h' & E & H).
  unfold small_table. rewrite E. rewrite Hb in H. destruct H as (i & en & (t & u & Ht & Hi & He & _) & H).
  assert (refusal full_5 (cstr "b") en None env_op_delete 0 = None) as Er; [|rewrite Er in H; apply H].
  unfold refusal. change (change_ok full_5) with (@None (ENTRY -> option (list Z) -> env_op -> Z -> bool)). cbv iota.
  assert (forallb (fun s => match callback (entry s) with None => true | _ => false end) t = true) as Hn.
  { vm_compute in Ht. injection Ht as <-. reflexivity. }
  rewrite forallb_forall in Hn. specialize (Hn _ (proj1 (list_elem_of_In _ _) (list_elem_of_lookup_2 _ _ _ He))). cbn in Hn.
  clear - Hn. by destruct (callback en).
Qed.

(** Entering "f" loses "a". *)
Lemma hsearch_r_loses_entry_witness :
  first_index small_table (cstr "f") = 3 /\
  exists h', hsearch_r (fun _ => true) id id (cstr "f") (Some (cstr "w")) ENTER small_table 0 = Ok ({| ret := 1; retval := Some 3; errno := None |}, h') /\
    hsearch_r (fun _ => true) id id (cstr "a") None FIND small_table 0 = Ok (found_at 3, small_table) /\
    hsearch_r (fun _ => true) id id (cstr "a") None FIND h' 0 = Ok (fails ESRCH, h').
Proof.
  split; [vm_compute; reflexivity|]. destruct small_table_ok as (m & Hrep & Hf).
  destruct (hsearch_r_loses_entry (fun _ => true) id id small_table m (cstr "f") (cstr "w") 0 (cstr "a") (cstr "v") (fresh (cstr "a") (cstr "v"))
    ltac:(done) ltac:(done) Hrep) as (_ & Hfind & h' & E & Hlost & _).
  - intros (t & i & Ht & Hi & Hn). apply Hn. vm_compute in Ht. injection Ht as <-. change (size small_table) with 5 in Hi.
    assert (i = 1 \/ i = 2 \/ i = 3 \/ i = 4 \/ i = 5) as Hc by lia.
    repeat (destruct Hc as [->|Hc]; [eexists; split; [reflexivity|discriminate]|]). subst i. eexists; split; [reflexivity|discriminate].
  - vm_compute. discriminate.
  - by repeat constructor.
  - exact Hf.
  - eexists _, _. split; [vm_compute; reflexivity|]. split; [vm_compute; split; discriminate|]. split; [vm_compute; reflexivity|]. split; [lia|]. done.
  - reflexivity.
  - exists h'. split; [exact E|]. split; [exact Hfind|exact Hlost].
Defined.

Lemma hsearch_r_is_map_witness :
  exists a h', hsearch_r (fun _ => true) id id (cstr "ipaddr") (Some (cstr "10.0.0.1")) ENTER empty_67 0 = Ok (a, h') /\
    (exists i, a = {| ret := 1; retval := Some i; errno := None |}) /\ represents h' (<[cstr "ipaddr" := cstr "10.0.0.1"]> ∅).
Proof.
  pose proof (hsearch_r_is_map (fun _ => true) id id empty_67 ∅ (cstr "ipaddr") 0 ltac:(done) ltac:(done)
    (proj1 empty_67_ok) ltac:(by repeat constructor)) as [_ H].
  exact (H (cstr "10.0.0.1") (proj2 empty_67_ok)).
Defined.

Lemma hdelete_r_is_delete_witness :
  exists r err h', hdelete_r (fun _ => true) id id (cstr "bootdelay") one_variable 0 = Ok (r, err, h') /\
    exists i en, stored one_variable (cstr "bootdelay") (cstr "3") i en /\
      match refusal one_variable (cstr "bootdelay") en None env_op_delete 0 with
      | None => r = 1 /\ err = None /\ represents h' (delete (cstr "bootdelay") {[cstr "bootdelay" := cstr "3"]})
      | Some e => r = 0 /\ err = Some e /\ h' = one_variable
      end.
Proof.
  exact (hdelete_r_is_delete (fun _ => true) id id one_variable {[cstr "bootdelay" := cstr "3"]} (cstr "bootdelay") 0
    one_variable_ok ltac:(by repeat constructor)).
Defined.
