(* ===== verification/Qsort.v ===== *)
(** * Shell sort ([lib/qsort.c])

    The array is a list of elements of [width] bytes; offsets are in bytes, as in the source, and an
    access that is not at an element is undefined.  The byte-wise exchange of two elements is one
    exchange.  For any comparison the result is a permutation, computed within the fuel; it is sorted
    when of any two elements one is not greater than the other. *)
From Stdlib Require Import Sorting.Sorted.
From S2P Require Import Prelude.

Section Qsort.
Context {A : Type} (comp : A -> A -> Z) (width : Z).

Definition elem (base : list A) (off : Z) : res A :=
  if (off mod width =? 0) && (0 <=? off) then res_of_option (base !! Z.to_nat (off / width)) else Ub.
Definition exchange (base : list A) (a b : Z) : res (list A) :=
  let* x := elem base a in
  let* y := elem base b in
  Ok (<[Z.to_nat (b / width) := x]> (<[Z.to_nat (a / width) := y]> base)).

(** [do { wgap = 3 * wgap + 1; } while (wgap < (nel-1)/3);] *)
Fixpoint gap_loop (n : nat) (nel wgap : Z) : res Z :=
  match n with
  | O => Hang
  | S n =>
    let wgap := 3 * wgap + 1 in
    if wgap <? (nel - 1) / 3 then gap_loop n nel wgap else Ok wgap
  end.

(** The innermost [do] loop over [j]. *)
Fixpoint sift_loop (n : nat) (base : list A) (wgap j : Z) : res (list A) :=
  match n with
  | O => Hang
  | S n =>
    let j := j - wgap in
    let* x := elem base j in
    let* y := elem base (j + wgap) in
    if comp x y <=? 0 then Ok base
    else
      let* base := exchange base j (j + wgap) in
      if wgap <=? j then sift_loop n base wgap j else Ok base
  end.

(** The [do] loop over [i]. *)
Fixpoint pass_loop (n : nat) (base : list A) (wnel wgap i : Z) : res (list A) :=
  match n with
  | O => Hang
  | S n =>
    let* base := sift_loop (S (Z.to_nat i)) base wgap i in
    let i := i + width in
    if i <? wnel then pass_loop n base wnel wgap i else Ok base
  end.

(** The [do] loop over the gaps. *)
Fixpoint gaps_loop (n : nat) (base : list A) (wnel wgap : Z) : res (list A) :=
  match n with
  | O => Hang
  | S n =>
    let* base := pass_loop (S (Z.to_nat wnel)) base wnel wgap wgap in
    let wgap := (wgap - width) / 3 in
    if negb (wgap =? 0) then gaps_loop n base wnel wgap else Ok base
  end.

Definition qsort (base : list A) (nel : Z) : res (list A) :=
  if (1 <? nel) && (0 <? width) then
    let* wgap := gap_loop (S (Z.to_nat nel)) nel 0 in
    let wgap := u32 (wgap * width) in
    let nel := u32 (nel * width) in
    gaps_loop (S (Z.to_nat wgap)) base nel wgap
  else Ok base.

(** ** Correctness *)

Hypothesis (Hwidth : 0 < width).

Lemma elem_ok base i : (i < length base)%nat -> exists x, base !! i = Some x /\ elem base (Z.of_nat i * width) = Ok x.
Proof using Hwidth.
  intros Hi. destruct (lookup_lt_is_Some_2 base i Hi) as [x Hx]. exists x. split; [done|]. unfold elem.
  rewrite Z.mod_mul by lia. rewrite (proj2 (Z.leb_le _ _)) by lia. simpl. rewrite Z.div_mul, Nat2Z.id, Hx by lia. done.
Qed.

(** The gaps are 1, 4, 13, ... *)
Fixpoint gap (k : nat) : Z := match k with O => 0 | S k => 3 * gap k + 1 end.

Lemma gap_bound k : Z.of_nat k <= gap k.
Proof. induction k; cbn [gap]; lia. Qed.

Lemma gap_loop_ok nel n : 1 < nel -> forall k, 3 * gap k + 1 < nel -> nel - gap k <= Z.of_nat n ->
  exists k', gap_loop n nel (gap k) = Ok (gap (S k')) /\ gap (S k') < nel.
Proof.
  intros Hnel. induction n as [|n IH]; intros k Hk Hn; [pose proof (gap_bound k); lia|].
  cbn [gap_loop]. destruct (Z.ltb_spec (3 * gap k + 1) ((nel - 1) / 3)).
  - change (3 * gap k + 1) with (gap (S k)) in *. apply IH; [Z.div_mod_to_equations; lia|cbn [gap]; pose proof (gap_bound k); lia].
  - exists k. by split.
Qed.

Lemma exchange_ok base i j x y : base !! i = Some x -> base !! j = Some y ->
  exists base', exchange base (Z.of_nat i * width) (Z.of_nat j * width) = Ok base' /\ base' ≡ₚ base /\
    base' = <[j := x]> (<[i := y]> base).
Proof using Hwidth.
  intros Hi Hj. destruct (elem_ok base i) as (x' & Hx & Ex); [by eapply lookup_lt_Some|].
  destruct (elem_ok base j) as (y' & Hy & Ey); [by eapply lookup_lt_Some|]. simplify_eq.
  unfold exchange. rewrite Ex, Ey. cbn [res_bind]. rewrite !Z.div_mul, !Nat2Z.id by lia.
  eexists. split; [done|]. split; [|done]. by apply Permutation_insert_swap.
Qed.

(** One element sinks; [g] is the gap in elements. *)
Lemma sift_perm g n : (0 < g)%nat -> forall base i, (g <= i)%nat -> (i < length base)%nat -> (i < n)%nat ->
  exists base', sift_loop n base (Z.of_nat g * width) (Z.of_nat i * width) = Ok base' /\ base' ≡ₚ base.
Proof using Hwidth.
  intros Hg. induction n as [|n IH]; intros base i Hi Hl Hn; [lia|]. cbn [sift_loop].
  replace (Z.of_nat i * width - Z.of_nat g * width) with (Z.of_nat (i - g) * width)
    by (rewrite Nat2Z.inj_sub by lia; ring).
  replace (Z.of_nat (i - g) * width + Z.of_nat g * width) with (Z.of_nat i * width)
    by (rewrite Nat2Z.inj_sub by lia; ring).
  destruct (elem_ok base (i - g)) as (x & Hx & ->); [lia|]. destruct (elem_ok base i) as (y & Hy & ->); [lia|].
  cbn [res_bind]. case_if; [by exists base|].
  destruct (exchange_ok base (i - g) i x y Hx Hy) as (base' & -> & Hp & _). cbn [res_bind].
  destruct (Z.leb_spec (Z.of_nat g * width) (Z.of_nat (i - g) * width)); [|by exists base'].
  destruct (IH base' (i - g)%nat) as (base'' & -> & Hp''); [nia|rewrite Hp; lia|lia|].
  exists base''. split; [done|]. by rewrite Hp''.
Qed.

Lemma pass_perm g n : (0 < g)%nat -> forall base i, (g <= i)%nat -> (i < length base)%nat -> (length base - i <= n)%nat ->
  exists base', pass_loop n base (Z.of_nat (length base) * width) (Z.of_nat g * width) (Z.of_nat i * width) = Ok base' /\
    base' ≡ₚ base.
Proof using Hwidth.
  intros Hg. induction n as [|n IH]; intros base i Hi Hl Hn; [lia|]. cbn [pass_loop].
  destruct (sift_perm g (S (Z.to_nat (Z.of_nat i * width))) Hg base i) as (base' & -> & Hp); [lia|lia|nia|].
  cbn [res_bind]. replace (Z.of_nat i * width + width) with (Z.of_nat (S i) * width) by lia.
  destruct (Z.ltb_spec (Z.of_nat (S i) * width) (Z.of_nat (length base) * width)); [|by exists base'].
  assert (length base' = length base) as El by (by rewrite Hp). rewrite <- El.
  destruct (IH base' (S i)) as (base'' & -> & Hp''); [lia|nia|lia|]. exists base''. split; [done|]. by rewrite Hp''.
Qed.

(** *** The last pass is insertion sort *)

(** Insertion from the right, on the reversed sorted part. *)
Fixpoint sink (rp : list A) (x : A) : list A :=
  match rp with
  | [] => [x]
  | y :: rp' => if comp y x <=? 0 then x :: rp else y :: sink rp' x
  end.

Definition le (x y : A) : Prop := comp x y <= 0.

Lemma sift_sink rp : forall n x rest, rp <> [] -> (length rp < n)%nat ->
  sift_loop n (rev rp ++ x :: rest) width (Z.of_nat (length rp) * width) = Ok (rev (sink rp x) ++ rest).
Proof using Hwidth.
  induction rp as [|y rp IH]; intros [|n] x rest Hne Hn; try done; simpl in Hn; [lia|]. cbn [sift_loop length rev].
  replace (Z.of_nat (S (length rp)) * width - width) with (Z.of_nat (length rp) * width) by lia.
  replace (Z.of_nat (length rp) * width + width) with (Z.of_nat (S (length rp)) * width) by lia.
  assert (((rev rp ++ [y]) ++ x :: rest) !! length rp = Some y) as Hy.
  { rewrite <- app_assoc, lookup_app_r; rewrite length_rev; [|lia]. by rewrite Nat.sub_diag. }
  assert (((rev rp ++ [y]) ++ x :: rest) !! S (length rp) = Some x) as Hx.
  { rewrite lookup_app_r; rewrite length_app, length_rev; simpl; [|lia]. by replace (S (length rp) - (length rp + 1))%nat with 0%nat by lia. }
  destruct (elem_ok ((rev rp ++ [y]) ++ x :: rest) (length rp)) as (y' & Hy' & ->); [by eapply lookup_lt_Some|].
  destruct (elem_ok ((rev rp ++ [y]) ++ x :: rest) (S (length rp))) as (x' & Hx' & ->); [by eapply lookup_lt_Some|].
  rewrite Hy in Hy'. rewrite Hx in Hx'. simplify_eq. cbn [res_bind sink]. case_if; [cbn [rev]; by rewrite <- !app_assoc|].
  destruct (exchange_ok _ _ _ _ _ Hy Hx) as (base' & -> & _ & ->). cbn [res_bind].
  assert (<[S (length rp) := y']> (<[length rp := x']> ((rev rp ++ [y']) ++ x' :: rest)) = rev rp ++ x' :: y' :: rest) as ->.
  { rewrite <- app_assoc. simpl. rewrite <- (length_rev rp), insert_app_r_alt, Nat.sub_diag by lia.
    rewrite insert_app_r_alt by lia. by replace (S (length (rev rp)) - length (rev rp))%nat with 1%nat by lia. }
  cbn [rev]. rewrite <- app_assoc. destruct (Z.leb_spec width (Z.of_nat (length rp) * width)) as [Hle|Hgt].
  - assert (rp <> []) by (intros ->; simpl in Hle; lia). by rewrite IH by (done || lia).
  - destruct rp; [done|]. simpl in Hgt. nia.
Qed.

Lemma pass_insertion xs : forall n rp, rp <> [] -> xs <> [] -> (length xs <= n)%nat ->
  pass_loop n (rev rp ++ xs) (Z.of_nat (length rp + length xs) * width) width (Z.of_nat (length rp) * width) =
  Ok (rev (foldl sink rp xs)).
Proof using Hwidth.
  induction xs as [|x xs IH]; intros [|n] rp Hrp Hxs Hn; try done; simpl in Hn; [lia|]. cbn [pass_loop foldl].
  rewrite sift_sink; [|done|nia]. cbn [res_bind].
  replace (Z.of_nat (length rp) * width + width) with (Z.of_nat (length rp + 1) * width) by lia.
  assert (length (sink rp x) = length rp + 1)%nat as El.
  { clear. induction rp as [|y rp IH]; simpl; [done|]. case_if; simpl; lia. }
  destruct xs as [|x' xs].
  - rewrite (proj2 (Z.ltb_ge _ _)) by (simpl; lia). by rewrite app_nil_r.
  - rewrite (proj2 (Z.ltb_lt _ _)) by (simpl; nia). rewrite <- El.
    replace (length rp + length (x :: x' :: xs))%nat with (length (sink rp x) + length (x' :: xs))%nat by (simpl; lia).
    apply IH; [|done|simpl in *; lia]. intros E. rewrite E in El. simpl in El. lia.
Qed.

Lemma sink_sorted (Htotal : forall x y, 0 < comp x y -> comp y x <= 0) rp x :
  Sorted (fun a b => le b a) rp -> Sorted (fun a b => le b a) (sink rp x).
Proof.
  induction 1 as [|y rp Hs IH Hhd]; simpl; [by repeat constructor|].
  destruct (Z.leb_spec (comp y x) 0) as [Hle|Hgt].
  - constructor; [by constructor|]. by constructor.
  - constructor; [done|]. destruct rp as [|z rp]; simpl.
    + constructor. by apply Htotal.
    + case_if; constructor; [by apply Htotal|]. by inversion Hhd.
Qed.

Lemma sinks_sorted (Htotal : forall x y, 0 < comp x y -> comp y x <= 0) xs : forall rp,
  Sorted (fun a b => le b a) rp -> Sorted (fun a b => le b a) (foldl sink rp xs).
Proof. induction xs as [|x xs IH]; intros rp Hs; [done|]. cbn [foldl]. by apply IH, sink_sorted. Qed.

(** Adjacent elements are in order. *)
Definition sorted_by (R : A -> A -> Prop) (l : list A) : Prop :=
  forall l1 x y l2, l = l1 ++ x :: y :: l2 -> R x y.

Lemma Sorted_suffix (R : A -> A -> Prop) l1 l2 : Sorted R (l1 ++ l2) -> Sorted R l2.
Proof. induction l1 as [|x l1 IH]; [done|]. simpl. intros Hs. apply IH. by inversion Hs. Qed.

Lemma Sorted_rev l : Sorted (fun a b => le b a) l -> sorted_by le (rev l).
Proof.
  intros Hs l1 x y l2 E. apply (f_equal (@rev A)) in E. rewrite rev_involutive, rev_app_distr in E. simpl in E.
  rewrite <- !app_assoc in E. simpl in E. subst l. apply Sorted_suffix in Hs. inversion Hs as [|? ? _ Hhd]. by inversion Hhd.
Qed.

(** An offset is at least the index. *)
Lemma offset_ge n : (n <= Z.to_nat (Z.of_nat n * width))%nat.
Proof using Hwidth. assert (Z.of_nat n <= Z.of_nat n * width) by nia. lia. Qed.

Lemma gaps_loop_ok k : forall n base, (k < n)%nat -> gap (S k) < Z.of_nat (length base) ->
  exists base', gaps_loop n base (Z.of_nat (length base) * width) (gap (S k) * width) = Ok base' /\ base' ≡ₚ base /\
    ((forall x y, 0 < comp x y -> comp y x <= 0) -> sorted_by le base').
Proof using Hwidth.
  induction k as [|k IH]; intros [|n] base Hn Hlt; try lia; cbn [gaps_loop].
  - change (gap 1) with 1 in *. rewrite Z.mul_1_l, Z.sub_diag. change (0 / 3) with 0. simpl negb. cbv iota.
    destruct base as [|x [|x' xs]]; [simpl in Hlt; lia..|].
    pose proof (pass_insertion (x' :: xs) (S (Z.to_nat (Z.of_nat (length (x :: x' :: xs)) * width))) [x]) as Hp.
    simpl rev in Hp. simpl app in Hp. replace (Z.of_nat (length [x]) * width) with width in Hp by (simpl; lia).
    change (length [x] + length (x' :: xs))%nat with (length (x :: x' :: xs)) in Hp.
    destruct (pass_perm 1 (S (Z.to_nat (Z.of_nat (length (x :: x' :: xs)) * width))) ltac:(lia) (x :: x' :: xs) 1)
      as (base' & E & Hperm); [lia|simpl; lia|pose proof (offset_ge (length (x :: x' :: xs))); lia|]. rewrite !Z.mul_1_l in E. rewrite E. cbn [res_bind].
    exists base'. split_and!; [done..|]. intros Htotal. rewrite Hp in E by (done || (pose proof (offset_ge (length (x :: x' :: xs))); simpl in *; lia)). injection E as <-.
    apply Sorted_rev, sinks_sorted; [done|]. apply (sink_sorted Htotal [x] x'). repeat constructor.
  - assert (Z.of_nat (Z.to_nat (gap (S (S k)))) = gap (S (S k))) as Eg by (pose proof (gap_bound (S (S k))); lia).
    destruct (pass_perm (Z.to_nat (gap (S (S k)))) (S (Z.to_nat (Z.of_nat (length base) * width))) ltac:(pose proof (gap_bound (S (S k))); lia)
      base (Z.to_nat (gap (S (S k))))) as (base1 & E & Hp); [lia|lia|pose proof (offset_ge (length base)); lia|].
    rewrite Eg in E. rewrite E. cbn [res_bind].
    assert ((gap (S (S k)) * width - width) / 3 = gap (S k) * width) as ->.
    { change (gap (S (S k))) with (3 * gap (S k) + 1). replace ((3 * gap (S k) + 1) * width - width) with (gap (S k) * width * 3) by lia.
      apply Z.div_mul. lia. }
    pose proof (gap_bound (S k)). rewrite (proj2 (Z.eqb_neq _ _)) by nia. cbn [negb].
    assert (length base1 = length base) as El by (by rewrite Hp). rewrite <- El.
    destruct (IH n base1) as (base' & -> & Hp' & Hs); [lia|rewrite El; cbn [gap] in *; lia|].
    exists base'. split_and!; [done| |done]. by rewrite Hp'.
Qed.
End Qsort.

Lemma qsort_ok {A} (comp : A -> A -> Z) (width : Z) (base : list A) :
  0 < width -> Z.of_nat (length base) * width < 2 ^ 32 ->
  exists base', qsort comp width base (Z.of_nat (length base)) = Ok base' /\ base' ≡ₚ base /\
    ((forall x y, 0 < comp x y -> comp y x <= 0) -> sorted_by (fun x y => comp x y <= 0) base').
Proof.
  intros Hw Hlen. unfold qsort. rewrite (proj2 (Z.ltb_lt 0 width) Hw), andb_true_r.
  destruct (Z.ltb_spec 1 (Z.of_nat (length base))) as [Hn|Hn].
  2: { exists base. split_and!; [done..|]. intros _ l1 x y l2 ->. rewrite length_app in Hn. simpl in Hn. lia. }
  destruct (gap_loop_ok (Z.of_nat (length base)) (S (Z.to_nat (Z.of_nat (length base)))) Hn 0) as (k & E & Hk);
    [simpl; lia|simpl; lia|]. change (gap 0) with 0 in E. rewrite E. cbn [res_bind]. pose proof (gap_bound (S k)).
  rewrite !wrap_small by nia. apply gaps_loop_ok; [done|nia|done].
Qed.

(** C32: sorting an array of [nel] elements ends, and gives a permutation of the array; when of any two
    elements one is not greater than the other, neighbours of the result are in order.  The array fits
    the address space. *)
Theorem qsort_sorts {A} (comp : A -> A -> Z) (width : Z) (base : list A) :
  0 < width -> Z.of_nat (length base) * width < 2 ^ 32 ->
  exists base', qsort comp width base (Z.of_nat (length base)) = Ok base' /\ base' ≡ₚ base /\
    ((forall x y, 0 < comp x y -> comp y x <= 0) -> sorted_by (fun x y => comp x y <= 0) base').
Proof. apply qsort_ok. Qed.

Lemma qsort_sorts_witness :
  exists base', qsort Z.sub 4 [3; 1; 2; 9; 5; 0] 6 = Ok base' /\ base' ≡ₚ [3; 1; 2; 9; 5; 0] /\
    ((forall x y, 0 < x - y -> y - x <= 0) -> sorted_by (fun x y => x - y <= 0) base').
Proof. apply (qsort_sorts Z.sub 4 [3; 1; 2; 9; 5; 0]); simpl; lia. Defined.
