(* ===== verification/EnvText.v ===== *)
(** * The environment as text ([hexport_r], [himport_r] of [lib/hashtable.c])

    Export lists the variables as [name=value] strings behind each other, sorted by name; import parses
    such a text into a table.  The parser works in a copy of the text, which it changes only behind its
    reading position, so the model is the rest of the text; reading past its end is undefined.  Regular
    expressions ([CONFIG_REGEX]) are not configured. *)
From S2P Require Import Prelude Ctype Cstring CstrProps Hashtable HashProps Qsort.

Definition H_NOCLEAR : Z := 1.
Definition H_HIDE_DOT : Z := 8.
Definition H_MATCH_KEY : Z := 16.
Definition H_MATCH_DATA : Z := 32.
Definition H_MATCH_IDENT : Z := 64.
Definition H_MATCH_SUBSTR : Z := 128.
Definition H_MATCH_REGEX : Z := 256.
Definition H_MATCH_METHOD : Z := H_MATCH_IDENT .| H_MATCH_SUBSTR .| H_MATCH_REGEX.
Definition CONFIG_ENV_MIN_ENTRIES : Z := 64.
Definition CONFIG_ENV_MAX_ENTRIES : Z := 512.

(** ** Export *)

(** [strstr(str, pat)] as a condition. *)
Definition contains (str pat : list Z) : bool :=
  existsb (fun i => bool_decide (pat `prefix_of` drop i str)) (seq 0 (S (length str))).

Definition cmpkey (e1 e2 : list Z * list Z) : Z := s8 (cmp_bytes e1.1 e2.1).

Definition match_string (flag : Z) (str pat : list Z) : bool :=
  let method := flag .& H_MATCH_METHOD in
  if method =? H_MATCH_IDENT then streq str pat
  else if method =? H_MATCH_SUBSTR then contains str pat
  else false.

Definition match_entry (ep : list Z * list Z) (flag : Z) (argv : list (list Z)) : bool :=
  existsb (fun arg => (tst flag H_MATCH_KEY && match_string flag ep.1 arg) ||
                      (tst flag H_MATCH_DATA && match_string flag ep.2 arg)) argv.

Definition escaped (sep c : Z) : bool := (c =? sep) || (c =? 0x5C).

(** Pass 1: the entries to export, and the room they take. *)
Fixpoint export_scan (n : nat) (h : hsearch_data) (sep flag : Z) (argv : list (list Z)) (i : Z)
  (lst : list (list Z * list Z)) (totlen : Z) : res (list (list Z * list Z) * Z) :=
  match n with
  | O => Hang
  | S n =>
    if negb (i <=? size h) then Ok (lst, totlen)
    else
      let* e := slot h i in
      if 0 <? used e then
        let* k := res_of_option (key (entry e)) in
        let* d := res_of_option (data (entry e)) in
        let found := match_entry (k, d) flag argv in
        if bool_decide (argv <> []) && negb found then export_scan n h sep flag argv (i + 1) lst totlen
        else if tst flag H_HIDE_DOT && (nth 0 k 0 =? 0x2E) then export_scan n h sep flag argv (i + 1) lst totlen
        else
          let totlen := u32 (totlen + Z.of_nat (length k) + 2) in
          let totlen := if sep =? 0 then u32 (totlen + Z.of_nat (length d))
                        else foldl (fun t c => if escaped sep c then u32 (t + 2) else u32 (t + 1)) totlen d in
          export_scan n h sep flag argv (i + 1) (lst ++ [(k, d)]) (u32 (totlen + 2))
      else export_scan n h sep flag argv (i + 1) lst totlen
  end.

(** Pass 2: the bytes of one entry. *)
Definition escape (sep : Z) (d : list Z) : list Z :=
  flat_map (fun c => if escaped sep c then [0x5C; c] else [c]) d.
Definition entry_text (sep : Z) (e : list Z * list Z) : list Z := e.1 ++ [0x3D] ++ escape sep e.2 ++ [sep].

Section Text.
Context (malloc_ok : list Z -> bool) (calloc_ok : Z -> bool) (env_callback_init env_flags_init : ENTRY -> ENTRY).

(** The result, the buffer behind [*resp], and the [errno].  [resp] is the user's buffer, [None] if there is
    none.  A text longer than the buffer is undefined. *)
Definition hexport_r (h : hsearch_data) (sep flag : Z) (resp : option (list Z)) (sz : Z) (argv : list (list Z))
  : res (Z * option (list Z) * option Z) :=
  let* (lst, totlen) := export_scan (S (Z.to_nat (size h))) h sep flag argv 1 [] 0 in
  let* lst := qsort cmpkey 4 lst (Z.of_nat (length lst)) in
  if negb (sz =? 0) && (sz <? u32 (totlen + 1)) then Ok (-1, resp, Some ENOMEM)
  else
    let sz := if sz =? 0 then u32 (totlen + 1) else sz in
    let text := concat (map (entry_text sep) lst) ++ [0] in
    let store buf := if decide (Z.of_nat (length text) <= Z.of_nat (length buf))
                     then Ok (s32 sz, Some (text ++ drop (length text) buf), None) else Ub in
    match resp with
    | Some buf => if decide (sz <= Z.of_nat (length buf)) then store (replicate (Z.to_nat sz) 0 ++ drop (Z.to_nat sz) buf) else Ub
    | None => if calloc_ok sz then store (replicate (Z.to_nat sz) 0) else Ok (-1, None, Some ENOMEM)
    end.

(** ** Import *)

(** The list of names, [None] for one that was dropped. *)
Definition drop_var_from_set (name : list Z) (vars : list (option (list Z))) : bool * list (option (list Z)) :=
  match vars with
  | [] => (true, [])
  | _ =>
    (existsb (fun v => match v with Some s => streq name s | None => false end) vars,
     map (fun v => match v with Some s => if streq name s then None else v | None => None end) vars)
  end.

Definition peek (dp : list Z) : res Z := match dp with c :: _ => Ok c | [] => Ub end.

Fixpoint skip_blank (dp : list Z) : res (list Z) :=
  match dp with
  | [] => Ub
  | c :: dp' => if isblank c then skip_blank dp' else Ok dp
  end.

(** To the end of a comment line. *)
Fixpoint skip_comment (sep : Z) (dp : list Z) : res (list Z) :=
  match dp with
  | [] => Ub
  | c :: dp' => if negb (c =? 0) && negb (c =? sep) then skip_comment sep dp' else Ok dp
  end.

Fixpoint parse_name (sep : Z) (dp : list Z) : res (list Z * list Z) :=
  match dp with
  | [] => Ub
  | c :: dp' =>
    if negb (c =? 0x3D) && negb (c =? 0) && negb (c =? sep)
    then let* (name, dp) := parse_name sep dp' in Ok (c :: name, dp) else Ok ([], dp)
  end.

Fixpoint parse_value (sep : Z) (dp : list Z) : res (list Z * list Z) :=
  match dp with
  | [] => Ub
  | c :: dp' =>
    if negb (c =? 0) && negb (c =? sep) then
      if c =? 0x5C then
        match dp' with
        | [] => Ub
        | c' :: dp'' =>
          if negb (c' =? 0) then let* (v, dp) := parse_value sep dp'' in Ok (c' :: v, dp)
          else let* (v, dp) := parse_value sep dp' in Ok (c :: v, dp)
        end
      else let* (v, dp) := parse_value sep dp' in Ok (c :: v, dp)
    else Ok ([], dp)
  end.

(** The [do] loop: [Some] error it returns with, the table and the names left. *)
Fixpoint import_loop (n : nat) (sep flag : Z) (dp : list Z) (h : hsearch_data) (vars : list (option (list Z)))
  : res (option Z * hsearch_data * list (option (list Z))) :=
  match n with
  | O => Hang
  | S n =>
    let next dp h vars :=
      match dp with
      | [] => Ok (None, h, vars)
      | c :: _ => if negb (c =? 0) then import_loop n sep flag dp h vars else Ok (None, h, vars)
      end in
    let* dp := skip_blank dp in
    let* c := peek dp in
    if c =? 0x23 then let* dp := skip_comment sep dp in next (tail dp) h vars
    else
      let* (name, dp) := parse_name sep dp in
      let* c := peek dp in
      let* c' := if negb (c =? 0) then peek (tail dp) else Ok 0 in
      if (c =? 0) || (c' =? 0) || (c =? sep) || (c' =? sep) then
        let dp := if c =? 0x3D then tail dp else dp in
        let dp := tail dp in
        let '(listed, vars) := drop_var_from_set name vars in
        if negb listed then next dp h vars
        else
          let* (_, _, h) := hdelete_r malloc_ok env_callback_init env_flags_init name h flag in
          next dp h vars
      else
        let* (value, dp) := parse_value sep (tail dp) in
        let dp := tail dp in
        if bool_decide (name = []) then Ok (Some EINVAL, h, vars)
        else
          let '(listed, vars) := drop_var_from_set name vars in
          if negb listed then next dp h vars
          else
            let* (_, h) := hsearch_r malloc_ok env_callback_init env_flags_init name (Some value) ENTER h flag in
            next dp h vars
  end.

(** The names that were not in the text are deleted. *)
Fixpoint delete_rest (vars : list (option (list Z))) (h : hsearch_data) (flag : Z) : res hsearch_data :=
  match vars with
  | [] => Ok h
  | None :: vars => delete_rest vars h flag
  | Some v :: vars =>
    let* (_, _, h) := hdelete_r malloc_ok env_callback_init env_flags_init v h flag in delete_rest vars h flag
  end.

(** The result, the [errno] and the table. *)
Definition himport_r (h : hsearch_data) (env : list Z) (sz sep flag : Z) (vars : list (list Z))
  : res (Z * option Z * hsearch_data) :=
  if negb (calloc_ok sz) then Ok (0, Some ENOMEM, h)
  else if decide (sz <= Z.of_nat (length env)) then
    let dp := take (Z.to_nat sz) env in
    let h := if tst flag H_NOCLEAR then h else match table h with Some _ => hdestroy_r h | None => h end in
    let* (created, h) :=
      match table h with
      | Some _ => Ok (1, h)
      | None =>
        let nent := s32 (CONFIG_ENV_MIN_ENTRIES + sz / 8) in
        let nent := if CONFIG_ENV_MAX_ENTRIES <? nent then CONFIG_ENV_MAX_ENTRIES else nent in
        hcreate_r calloc_ok (u32 nent) h
      end in
    if created =? 0 then Ok (0, None, h)
    else
      let* (err, h, vars) := import_loop (S (length dp)) sep flag dp h (map Some vars) in
      match err with
      | Some e => Ok (0, Some e, h)
      | None => let* h := delete_rest vars h flag in Ok (1, None, h)
      end
  else Ub.
End Text.
