(* ===== verification/EnvProps.v ===== *)
(** * Export and import of the environment are inverse ([lib/hashtable.c])

    A table is exported to a text whose import gives a table with the same variables.  The lemmas follow
    the passes of the two functions: the scan of the table, the sorted text, one parsed entry, and the
    entries behind each other. *)
From S2P Require Import Prelude Ctype Cstring CstrProps Hashtable HashProps Qsort EnvText.

(** ** Export *)

(** The variable of a slot, and those of a table from some slot on. *)
Definition slot_pair (e : _ENTRY) : option (list Z * list Z) :=
  if 0 <? used e then match key (entry e), data (entry e) with Some k, Some d => Some (k, d) | _, _ => None end else None.

(** The room counted for an entry. *)
Definition entry_cost (sep : Z) (e : list Z * list Z) : Z :=
  Z.of_nat (length e.1) + 4 + Z.of_nat (if sep =? 0 then length e.2 else length (escape sep e.2)).
Fixpoint total_cost (sep : Z) (l : list (list Z * list Z)) : Z :=
  match l with [] => 0 | e :: l => entry_cost sep e + total_cost sep l end.

Lemma total_cost_app sep l1 l2 : total_cost sep (l1 ++ l2) = total_cost sep l1 + total_cost sep l2.
Proof. induction l1 as [|e l1 IH]; simpl; lia. Qed.

Lemma total_cost_nonneg sep l : 0 <= total_cost sep l.
Proof. induction l as [|e l IH]; simpl; [lia|]. unfold entry_cost. lia. Qed.

Lemma escape_count sep d : forall tot, 0 <= tot -> tot + Z.of_nat (length (escape sep d)) < 2 ^ 32 ->
  foldl (fun t c => if escaped sep c then u32 (t + 2) else u32 (t + 1)) tot d = tot + Z.of_nat (length (escape sep d)).
Proof.
  induction d as [|c d IH]; intros tot H0 Hlt; cbn [foldl escape flat_map] in *; [simpl; lia|].
  fold (escape sep d) in *. rewrite length_app in *. destruct (escaped sep c); cbn [length] in *;
    rewrite wrap_small, IH; lia.
Qed.

Section Scan.
Context (h : hsearch_data) (t : list _ENTRY) (Hwf : wf h t) (sep : Z).

(** From slot [i] on. *)
Definition pairs_from (i : nat) : list (list Z * list Z) := omap slot_pair (drop i t).

Lemma live_pair i e : 1 <= i <= size h -> t !! Z.to_nat i = Some e -> 0 < used e ->
  exists k d, key (entry e) = Some k /\ data (entry e) = Some d /\ slot_pair e = Some (k, d).
Proof using Hwf.
  intros Hi He Hu. destruct (wf_live _ _ Hwf i e Hi He) as [|[|(k & d & Hk & Hd & _)]]; [lia..|].
  exists k, d. split_and!; [done..|]. unfold slot_pair. by rewrite (proj2 (Z.ltb_lt _ _) Hu), Hk, Hd.
Qed.

Lemma export_scan_ok n : forall i lst tot, 1 <= Z.of_nat i -> (S (Z.to_nat (size h)) - i < n)%nat -> 0 <= tot ->
  tot + total_cost sep (pairs_from i) < 2 ^ 32 ->
  export_scan n h sep 0 [] (Z.of_nat i) lst tot = Ok (lst ++ pairs_from i, tot + total_cost sep (pairs_from i)).
Proof using Hwf.
  pose proof (wf_size _ _ Hwf) as Hs.
  induction n as [|n IH]; intros i lst tot Hi Hn Ht Hlt; [lia|]. cbn [export_scan].
  destruct (Z.leb_spec (Z.of_nat i) (size h)) as [Hle|Hgt]; cbn [negb].
  2: { unfold pairs_from. rewrite drop_ge by (rewrite (wf_length _ _ Hwf); lia). simpl. by rewrite app_nil_r, Z.add_0_r. }
  destruct (slot_some h t Hwf (Z.of_nat i)) as (e & He & ->); [lia|]. cbn [res_bind]. rewrite Nat2Z.id in He.
  replace (Z.of_nat i + 1) with (Z.of_nat (S i)) by lia.
  assert (pairs_from i = match slot_pair e with Some p => [p] | None => [] end ++ pairs_from (S i)) as Ep.
  { unfold pairs_from. rewrite (drop_S _ _ _ He). simpl. by destruct (slot_pair e). }
  destruct (Z.ltb_spec 0 (used e)) as [Hu|Hu].
  - destruct (live_pair (Z.of_nat i) e) as (k & d & Hk & Hd & Hp); [lia|by rewrite Nat2Z.id|done|].
    rewrite Hk, Hd, Ep, Hp in *. cbn [res_of_option res_bind app total_cost] in *. rewrite bool_decide_false by (intros E; by apply E).
    cbn [andb]. change (tst 0 H_HIDE_DOT) with false. cbn [andb].
    pose proof (total_cost_nonneg sep (pairs_from (S i))). unfold entry_cost in *. cbn [fst snd] in *.
    rewrite (wrap_small 32 (tot + _ + 2)) by (destruct (sep =? 0); lia).
    assert ((if sep =? 0 then u32 (tot + Z.of_nat (length k) + 2 + Z.of_nat (length d)) else
      foldl (fun t c => if escaped sep c then u32 (t + 2) else u32 (t + 1)) (tot + Z.of_nat (length k) + 2) d) =
      tot + Z.of_nat (length k) + 2 + Z.of_nat (if sep =? 0 then length d else length (escape sep d))) as ->.
    { destruct (sep =? 0); [rewrite wrap_small; lia|]. rewrite escape_count; lia. }
    rewrite wrap_small by lia. rewrite IH by lia. rewrite <- app_assoc. simpl. do 2 f_equal. lia.
  - assert (slot_pair e = None) as Hp by (unfold slot_pair; by rewrite (proj2 (Z.ltb_ge _ _) Hu)).
    rewrite Ep, Hp in *. cbn [app] in *. apply IH; lia.
Qed.
End Scan.

Lemma slot_pair_holds t i k v : (exists e, t !! Z.to_nat i = Some e /\ slot_pair e = Some (k, v)) <-> holds t i k v.
Proof.
  unfold slot_pair, holds. split.
  - intros (e & He & Hp). exists e. destruct (Z.ltb_spec 0 (used e)); [|done].
    destruct (key (entry e)), (data (entry e)); by simplify_eq.
  - intros (e & He & Hu & Hk & Hd). exists e. by rewrite (proj2 (Z.ltb_lt _ _) Hu), Hk, Hd.
Qed.

Lemma pairs_elem h t k v : wf h t -> (k, v) ∈ pairs_from t 1 <-> exists i, 1 <= i <= size h /\ holds t i k v.
Proof.
  intros Hwf. unfold pairs_from. rewrite list_elem_of_omap. split.
  - intros (e & [j He]%list_elem_of_lookup & Hp). rewrite lookup_drop in He. exists (Z.of_nat (1 + j)).
    pose proof (lookup_lt_Some _ _ _ He) as Hj. rewrite (wf_length _ _ Hwf) in Hj. pose proof (wf_size _ _ Hwf). split; [lia|].
    apply slot_pair_holds. exists e. by rewrite Nat2Z.id.
  - intros (i & Hi & Hh). apply slot_pair_holds in Hh as (e & He & Hp). exists e. split; [|done].
    apply list_elem_of_lookup. exists (Z.to_nat i - 1)%nat. rewrite lookup_drop. by replace (1 + (Z.to_nat i - 1))%nat with (Z.to_nat i) by lia.
Qed.

Lemma omap_keys_nodup l :
  (forall i j e e' k v v', (i < j)%nat -> l !! i = Some e -> l !! j = Some e' -> slot_pair e = Some (k, v) -> slot_pair e' = Some (k, v') -> False) ->
  NoDup (omap slot_pair l).*1.
Proof.
  induction l as [|e l IH]; intros H; cbn [omap list_omap fmap list_fmap]; [constructor|].
  assert (NoDup (omap slot_pair l).*1) as Hnd.
  { apply IH. intros i j e1 e2 k v v' Hij H1 H2. apply (H (S i) (S j) e1 e2 k v v'); [lia|done..]. }
  destruct (slot_pair e) as [[k v]|] eqn:Hp; [|done]. constructor; [|done].
  intros ([k' v'] & Ek & (e' & [j Hj]%list_elem_of_lookup & Hp')%list_elem_of_omap)%list_elem_of_fmap. simpl in Ek. subst k'.
  apply (H 0%nat (S j) e e' k v v'); [lia|done..].
Qed.

Lemma pairs_nodup h t : wf h t -> NoDup (pairs_from t 1).*1.
Proof.
  intros Hwf. apply omap_keys_nodup. intros i j e e' k v v' Hij Hi Hj Hp Hp'.
  rewrite lookup_drop in Hi, Hj. pose proof (wf_size _ _ Hwf).
  assert (forall l e1 v1, t !! (1 + l)%nat = Some e1 -> slot_pair e1 = Some (k, v1) ->
    1 <= Z.of_nat (1 + l) <= size h /\ holds t (Z.of_nat (1 + l)) k v1) as Hh.
  { intros l e1 v1 He1 Hp1. pose proof (lookup_lt_Some _ _ _ He1) as Hl. rewrite (wf_length _ _ Hwf) in Hl. split; [lia|].
    apply slot_pair_holds. exists e1. by rewrite Nat2Z.id. }
  destruct (Hh i e v Hi Hp) as [? ?], (Hh j e' v' Hj Hp') as [? ?].
  assert (Z.of_nat (1 + i) = Z.of_nat (1 + j)) by (by eapply (wf_unique _ _ Hwf)). lia.
Qed.

(** ** The exported text *)

(** Variables that can be exported with a separator and imported again. *)
Definition entry_ok (sep : Z) (e : list Z * list Z) : Prop :=
  string_ok e.1 /\ string_ok e.2 /\ e.2 <> [] /\ (0x3D ∉ e.1) /\ (sep ∉ e.1) /\
  (exists c k, e.1 = c :: k /\ c <> 0x23 /\ isblank c = false) /\ (sep = 0 -> (0x5C ∉ e.2)).

Lemma escape_plain d : string_ok d -> 0x5C ∉ d -> escape 0 d = d.
Proof.
  induction 1 as [|c d Hc Hd IH]; intros Hn; [done|]. cbn [escape flat_map]. fold (escape 0 d). apply not_elem_of_cons in Hn as [Hn1 Hn2].
  rewrite IH by done. unfold escaped. by rewrite !(proj2 (Z.eqb_neq _ _)) by lia.
Qed.

Lemma entry_text_length sep e : entry_ok sep e -> Z.of_nat (length (entry_text sep e)) + 2 = entry_cost sep e.
Proof.
  intros (_ & Hd & _ & _ & _ & _ & Hs). unfold entry_text, entry_cost. rewrite !length_app. simpl length.
  destruct (Z.eqb_spec sep 0) as [->|]; [rewrite escape_plain by auto|]; lia.
Qed.

Lemma text_length sep l : Forall (entry_ok sep) l -> Z.of_nat (length (concat (map (entry_text sep) l))) <= total_cost sep l.
Proof.
  induction 1 as [|e l He Hl IH]; cbn [map concat total_cost]; [simpl; lia|]. rewrite length_app.
  pose proof (entry_text_length sep e He). lia.
Qed.

(** The whole export into a buffer of its own. *)
(** The entries, sorted, and what is left to do with them. *)
Lemma hexport_list calloc_ok h t sep : wf h t -> Forall (entry_ok sep) (pairs_from t 1) -> total_cost sep (pairs_from t 1) + 1 < 2 ^ 31 ->
  exists l, l ≡ₚ pairs_from t 1 /\ Forall (entry_ok sep) l /\
    let text := concat (map (entry_text sep) l) ++ [0] in
    Z.of_nat (length text) <= total_cost sep (pairs_from t 1) + 1 /\
    forall resp size, hexport_r calloc_ok h sep 0 resp size [] =
      if negb (size =? 0) && (size <? total_cost sep (pairs_from t 1) + 1) then Ok (-1, resp, Some ENOMEM)
      else
        let sz := if size =? 0 then total_cost sep (pairs_from t 1) + 1 else size in
        let store buf := if decide (Z.of_nat (length text) <= Z.of_nat (length buf))
                         then Ok (s32 sz, Some (text ++ drop (length text) buf), None) else Ub in
        match resp with
        | Some buf => if decide (sz <= Z.of_nat (length buf)) then store (replicate (Z.to_nat sz) 0 ++ drop (Z.to_nat sz) buf) else Ub
        | None => if calloc_ok sz then store (replicate (Z.to_nat sz) 0) else Ok (-1, None, Some ENOMEM)
        end.
Proof.
  intros Hwf Hok Hsz. pose proof (total_cost_nonneg sep (pairs_from t 1)). pose proof (wf_size _ _ Hwf).
  pose proof (export_scan_ok h t Hwf sep (S (Z.to_nat (size h))) 1 [] 0) as Hscan. change (Z.of_nat 1) with 1 in Hscan.
  assert (Z.of_nat (length (pairs_from t 1)) * 4 <= total_cost sep (pairs_from t 1)) as Hlen.
  { clear. induction (pairs_from t 1) as [|e l IH]; cbn [length total_cost]; [lia|]. unfold entry_cost. lia. }
  destruct (qsort_ok cmpkey 4 (pairs_from t 1)) as (l & Eq & Hp & _); [lia..|]. exists l. split; [done|].
  assert (Forall (entry_ok sep) l) as Hok' by (by rewrite Hp). split; [done|].
  assert (total_cost sep l = total_cost sep (pairs_from t 1)) as El.
  { clear -Hp. induction Hp as [| | |? ? ? ? E1 ? E2]; cbn [total_cost]; lia. }
  pose proof (text_length sep l Hok') as Htl. split; [rewrite length_app; simpl; lia|]. intros resp sz. unfold hexport_r.
  rewrite Hscan by lia. cbn [res_bind app]. rewrite Eq. cbn [res_bind]. rewrite Z.add_0_l, (wrap_small 32) by lia. done.
Qed.

(** Into a buffer of its own, and into the buffer of the caller. *)
Lemma hexport_ok calloc_ok h t sep : wf h t -> Forall (entry_ok sep) (pairs_from t 1) ->
  total_cost sep (pairs_from t 1) + 1 < 2 ^ 31 -> (forall n, calloc_ok n = true) ->
  let sz := total_cost sep (pairs_from t 1) + 1 in
  exists l, l ≡ₚ pairs_from t 1 /\
    hexport_r calloc_ok h sep 0 None 0 [] = 
    Ok (sz, Some (concat (map (entry_text sep) l) ++ 0 :: replicate (Z.to_nat sz - S (length (concat (map (entry_text sep) l)))) 0), None).
Proof.
  intros Hwf Hok Hsz Hmem sz. pose proof (total_cost_nonneg sep (pairs_from t 1)).
  destruct (hexport_list calloc_ok h t sep Hwf Hok Hsz) as (l & Hp & _ & Htl & E). exists l. split; [done|]. rewrite E. fold sz.
  change (negb (0 =? 0)) with false. cbn [andb]. change (0 =? 0) with true. cbv iota zeta. rewrite Hmem.
  rewrite length_app in *. cbn [length] in *. rewrite decide_True by (rewrite length_replicate; lia).
  rewrite swrap_small by (simpl; lia). rewrite drop_replicate, <- app_assoc. cbn [app]. by rewrite Nat.add_1_r.
Qed.
Lemma hexport_fill calloc_ok h t sep buf : wf h t -> Forall (entry_ok sep) (pairs_from t 1) ->
  let sz := Z.of_nat (length buf) in
  total_cost sep (pairs_from t 1) + 1 <= sz -> sz < 2 ^ 31 ->
  exists l, l ≡ₚ pairs_from t 1 /\
    hexport_r calloc_ok h sep 0 (Some buf) sz [] =
    Ok (sz, Some (concat (map (entry_text sep) l) ++ 0 :: replicate (length buf - S (length (concat (map (entry_text sep) l)))) 0), None) /\
    (S (length (concat (map (entry_text sep) l))) <= length buf)%nat.
Proof.
  intros Hwf Hok sz Hfit Hsz. pose proof (total_cost_nonneg sep (pairs_from t 1)).
  destruct (hexport_list calloc_ok h t sep Hwf Hok ltac:(lia)) as (l & Hp & _ & Htl & E). exists l. split; [done|]. rewrite E.
  assert ((sz =? 0) = false) as -> by (apply Z.eqb_neq; lia). rewrite (proj2 (Z.ltb_ge sz _)) by lia. cbn [negb andb]. cbv iota zeta.
  subst sz. rewrite decide_True by lia. rewrite Nat2Z.id, drop_ge, app_nil_r by lia. rewrite length_app in *. cbn [length] in *.
  rewrite decide_True by (rewrite length_replicate; lia). rewrite swrap_small by (simpl; lia). rewrite drop_replicate, <- app_assoc. cbn [app].
  rewrite Nat.add_1_r. split; [done|]. lia.
Qed.

(** ** Parsing an entry *)

Lemma parse_name_ok sep k rest : string_ok k -> (0x3D ∉ k) -> (sep ∉ k) ->
  parse_name sep (k ++ 0x3D :: rest) = Ok (k, 0x3D :: rest).
Proof.
  induction 1 as [|c k Hc Hk IH]; intros H1 H2; [done|]. apply not_elem_of_cons in H1 as [? H1]. apply not_elem_of_cons in H2 as [? H2].
  cbn [app parse_name]. rewrite !(proj2 (Z.eqb_neq c _)) by (congruence || lia). cbn [negb andb]. by rewrite IH.
Qed.

(** Reading a value undoes the escapes. *)
Lemma parse_value_ok sep d rest : sep <> 0x5C -> string_ok d ->
  parse_value sep (escape sep d ++ sep :: rest) = Ok (d, sep :: rest).
Proof.
  intros Hsep. induction 1 as [|c d Hc Hd IH]; cbn [escape flat_map].
  { cbn [app parse_value]. by rewrite Z.eqb_refl, andb_false_r. }
  fold (escape sep d).
  unfold escaped. destruct (Z.eqb_spec c sep) as [->|Hcs]; cbn [orb].
  - cbn [app parse_value]. rewrite (proj2 (Z.eqb_neq 0x5C sep)) by congruence. cbn [Z.eqb negb andb Pos.eqb].
    rewrite (proj2 (Z.eqb_neq sep 0)) by lia. cbn [negb]. by rewrite IH.
  - destruct (Z.eqb_spec c 0x5C) as [->|Hce]; cbn [app parse_value].
    + rewrite (proj2 (Z.eqb_neq 0x5C sep)) by congruence. cbn [Z.eqb negb andb Pos.eqb]. by rewrite IH.
    + rewrite (proj2 (Z.eqb_neq c 0)), (proj2 (Z.eqb_neq c sep)), (proj2 (Z.eqb_neq c 0x5C)) by (congruence || lia).
      cbn [negb andb]. by rewrite IH.
Qed.

(** The first byte of a value that is not empty neither ends it nor is a NUL. *)
Lemma escape_head sep d : sep <> 0x5C -> string_ok d -> d <> [] ->
  exists c r, escape sep d = c :: r /\ c <> 0 /\ c <> sep.
Proof.
  intros Hsep Hd Hne. destruct Hd as [|c d Hc _]; [done|]. cbn [escape flat_map]. unfold escaped.
  destruct (Z.eqb_spec c sep) as [->|Hcs]; cbn [orb app]; [eexists _, _; split; [done|]; lia|].
  destruct (Z.eqb_spec c 0x5C); cbn [app]; eexists _, _; (split; [done|]); lia.
Qed.

(** A table without deleted names that is not full has a slot never used. *)
Lemma all_live l : Forall (fun e => 0 < used e) l -> live_count l = Z.of_nat (length l).
Proof.
  induction 1 as [|e l He _ IH]; cbn [live_count length]; [done|]. rewrite (proj2 (Z.ltb_lt _ _) He). lia.
Qed.

Lemma clean_free h t : wf h t -> clean h -> filled h < size h -> has_free h.
Proof.
  intros Hwf Hc Hf. pose proof (wf_table _ _ Hwf) as Ht. pose proof (wf_length _ _ Hwf) as Hlen. pose proof (wf_size _ _ Hwf).
  assert (forall j e, drop 1 t !! j = Some e -> t !! Z.to_nat (Z.of_nat (S j)) = Some e /\ 1 <= Z.of_nat (S j) <= size h) as Hj.
  { intros j e He. rewrite lookup_drop in He. rewrite Nat2Z.id. split; [done|].
    apply lookup_lt_Some in He. lia. }
  destruct (decide (Exists (fun e => used e = 0) (drop 1 t))) as [(e & [j He]%list_elem_of_lookup & Hu)%Exists_exists|Hall].
  { destruct (Hj j e He) as [He' Hr]. exists t, (Z.of_nat (S j)). split_and!; [done|lia..|]. intros (e' & ? & ?). by simplify_eq. }
  exfalso. assert (Forall (fun e => 0 < used e) (drop 1 t)) as Hlive.
  { apply Forall_lookup. intros j e He. destruct (Hj j e He) as [He' Hr].
    destruct (wf_live _ _ Hwf _ e Hr He') as [Hz|[Hd|(k & v & _ & _ & _ & Eu & _)]].
    - exfalso. apply Hall, Exists_exists. exists e. split; [by eapply list_elem_of_lookup_2|done].
    - exfalso. by apply (Hc t _ e Ht Hr He').
    - pose proof (index_range h t Hwf k). lia. }
  apply all_live in Hlive. rewrite length_drop, Hlen in Hlive. rewrite (wf_filled _ _ Hwf) in Hf.
  destruct t as [|e0 t]; [done|]. change (drop 1 (e0 :: t)) with t in Hlive. cbn [live_count] in Hf. pose proof (live_count_bound t). destruct (0 <? used e0); lia.
Qed.

Section ImportText.
Context (malloc_ok : list Z -> bool) (calloc_ok : Z -> bool) (env_callback_init env_flags_init : ENTRY -> ENTRY).
Hypothesis init_keeps : forall e, key (env_flags_init (env_callback_init e)) = key e /\
                                  data (env_flags_init (env_callback_init e)) = data e.
Hypothesis malloc_works : forall s, malloc_ok s = true.
Context (sep flag : Z) (Hsep : sep <> 0x5C) (Hsep2 : sep <> 0x3D).

Abbreviation import n := (import_loop malloc_ok env_callback_init env_flags_init n sep flag).

(** What the loop does after an entry. *)
Definition next_round (n : nat) (dp : list Z) (h : hsearch_data) : res (option Z * hsearch_data * list (option (list Z))) :=
  match dp with
  | [] => Ok (None, h, [])
  | c :: _ => if negb (c =? 0) then import n dp h [] else Ok (None, h, [])
  end.

Lemma import_entry n h e rest : entry_ok sep e ->
  import (S n) (entry_text sep e ++ rest) h [] =
  let* (_, h) := hsearch_r malloc_ok env_callback_init env_flags_init e.1 (Some e.2) ENTER h flag in next_round n rest h.
Proof using Hsep Hsep2.
  destruct e as [k d]. intros (Hk & Hd & Hd0 & Heq & Hsk & (c & k' & Ek & Hc & Hb) & _). cbn [fst snd] in *.
  unfold entry_text. cbn [fst snd]. cbn [import_loop].
  destruct (escape_head sep d Hsep Hd Hd0) as (c' & r' & Ed & Hc0 & Hcs).
  assert (skip_blank ((k ++ [0x3D] ++ escape sep d ++ [sep]) ++ rest) = Ok ((k ++ [0x3D] ++ escape sep d ++ [sep]) ++ rest)) as ->.
  { rewrite Ek. cbn [app skip_blank]. by rewrite Hb. }
  cbn [res_bind].
  assert (peek ((k ++ [0x3D] ++ escape sep d ++ [sep]) ++ rest) = Ok c) as -> by (by rewrite Ek).
  cbn [res_bind]. rewrite (proj2 (Z.eqb_neq c 0x23) Hc).
  rewrite <- app_assoc. cbn [app]. rewrite parse_name_ok by done. cbn [res_bind peek].
  change (0x3D =? 0) with false. cbn [negb tail]. rewrite Ed. cbn [app peek res_bind].
  rewrite (proj2 (Z.eqb_neq c' 0)), (proj2 (Z.eqb_neq 0x3D sep)), (proj2 (Z.eqb_neq c' sep)) by congruence. cbn [orb].
  assert (c' :: (r' ++ [sep]) ++ rest = escape sep d ++ sep :: rest) as -> by (rewrite Ed; cbn [app]; by rewrite <- app_assoc).
  rewrite parse_value_ok by done. cbn [res_bind tail].
  rewrite bool_decide_false by (by rewrite Ek). cbn [drop_var_from_set negb]. done.
Qed.

Abbreviation accepted h l := (Forall (fun e : list Z * list Z => refusal h e.1 (env_flags_init (env_callback_init (fresh e.1 e.2))) (Some e.2) env_op_create flag = None) l).

(** The entries of a text, one behind the other. *)
Lemma import_entries zeros l : forall n h m, l <> [] -> (length l <= n)%nat -> Forall (entry_ok sep) l -> represents h m -> clean h ->
  filled h + Z.of_nat (length l) <= size h -> accepted h l -> NoDup l.*1 -> (forall k, k ∈ l.*1 -> m !! k = None) ->
  exists h', import n (concat (map (entry_text sep) l) ++ 0 :: zeros) h [] = Ok (None, h', []) /\
    represents h' (foldl (fun m e => <[e.1 := e.2]> m) m l).
Proof using Hsep Hsep2 init_keeps malloc_works.
  induction l as [|e l IH]; intros [|n] h m Hne Hn Hok Hrep Hc Hroom Hacc Hnd Habs; try done; simpl in Hn; [lia|].
  inversion Hok as [|? ? He Hok']; subst. inversion Hacc as [|? ? Hace Hacc']; subst. apply NoDup_cons in Hnd as [Hnin Hnd].
  cbn [map concat]. rewrite <- app_assoc, import_entry by done.
  assert (has_free h) as Hfree. { destruct Hrep as (t & Hwf & _). apply (clean_free h t); [done..|]. cbn [length] in Hroom. lia. }
  destruct (enter_ok malloc_ok env_callback_init env_flags_init init_keeps h m e.1 e.2 flag) as (a & h1 & -> & Hr);
    [done|done|apply He|done|done|apply Habs; simpl; apply list_elem_of_here|].
  rewrite Hace in Hr. destruct Hr as (_ & Hrep1 & Hf1 & Hs1 & Hco1 & Hc1). cbn [res_bind foldl].
  destruct l as [|e2 l].
  - exists h1. by split.
  - inversion Hok' as [|? ? He2 _]; subst. pose proof He2 as (_ & _ & _ & _ & _ & (c & k' & Ek & _) & _).
    assert (exists r, concat (map (entry_text sep) (e2 :: l)) ++ 0 :: zeros = c :: r) as [r Er].
    { cbn [map concat]. unfold entry_text at 1. rewrite Ek. cbn [app]. by eexists. }
    assert (next_round n (concat (map (entry_text sep) (e2 :: l)) ++ 0 :: zeros) h1 =
      import n (concat (map (entry_text sep) (e2 :: l)) ++ 0 :: zeros) h1 []) as ->.
    { unfold next_round. rewrite Er. destruct He2 as (Hk2 & _). rewrite Ek in Hk2. inversion Hk2; subst.
      by rewrite (proj2 (Z.eqb_neq c 0)) by lia. }
    apply IH; [done|simpl in *; lia|done|done|auto|rewrite Hf1, Hs1; cbn [length] in *; lia| |done|].
    + unfold refusal in *. by rewrite Hco1.
    + intros k Hk. rewrite lookup_insert_ne; [apply Habs; simpl; by apply list_elem_of_further|]. intros <-. done.
Qed.
End ImportText.

(** ** The round trip *)

Lemma inserts_lookup (l : list (list Z * list Z)) : forall m k, NoDup l.*1 -> (forall v, (k, v) ∉ l) ->
  foldl (fun m e => <[e.1 := e.2]> m) m l !! k = (m : gmap (list Z) (list Z)) !! k.
Proof.
  induction l as [|[k' v'] l IH]; intros m k Hnd Hn; [done|]. cbn [foldl fst snd]. apply NoDup_cons in Hnd as [_ Hnd].
  rewrite IH; [|done|intros v Hv; apply (Hn v); by apply list_elem_of_further].
  apply lookup_insert_ne. intros ->. apply (Hn v'). apply list_elem_of_here.
Qed.

Lemma inserts_map (l : list (list Z * list Z)) (m : gmap (list Z) (list Z)) : NoDup l.*1 -> (forall k v, (k, v) ∈ l <-> m !! k = Some v) ->
  foldl (fun m e => <[e.1 := e.2]> m) ∅ l = m.
Proof.
  intros Hnd Hm. apply map_eq. intros k. destruct (m !! k) as [v|] eqn:E.
  - apply Hm in E. clear Hm. generalize (∅ : gmap (list Z) (list Z)). revert Hnd E.
    induction l as [|[k' v'] l IH]; intros Hnd E m0; [by apply not_elem_of_nil in E|].
    cbn [foldl fst snd]. apply NoDup_cons in Hnd as [Hnin Hnd]. apply elem_of_cons in E as [E|E].
    + injection E as <- <-. rewrite inserts_lookup, lookup_insert_eq; [done..|].
      intros v' Hv. apply Hnin. by apply (list_elem_of_fmap_2 fst) in Hv.
    + by apply IH.
  - rewrite inserts_lookup, lookup_empty; [done..|]. intros v Hv. apply Hm in Hv. congruence.
Qed.

Lemma pairs_perm h t m : wf h t -> maps h t m -> pairs_from t 1 ≡ₚ map_to_list m.
Proof.
  intros Hwf Hm. apply NoDup_Permutation.
  - by eapply NoDup_fmap_1, pairs_nodup.
  - apply NoDup_map_to_list.
  - intros [k v]. rewrite (pairs_elem h) by done. by rewrite elem_of_map_to_list, (Hm k v).
Qed.

Lemma total_cost_perm sep l l' : l ≡ₚ l' -> total_cost sep l = total_cost sep l'.
Proof. induction 1; cbn [total_cost]; lia. Qed.

Lemma entries_length sep l : (length l <= length (concat (map (entry_text sep) l)))%nat.
Proof.
  induction l as [|e l IH]; cbn [map concat length]; [lia|]. rewrite length_app. unfold entry_text at 1.
  rewrite !length_app. cbn [length]. lia.
Qed.

(** The bytes an export of the map takes. *)
Definition export_size (sep : Z) (m : gmap (list Z) (list Z)) : Z := total_cost sep (map_to_list m) + 1.

Section RoundTrip.
Context (malloc_ok : list Z -> bool) (calloc_ok : Z -> bool) (env_callback_init env_flags_init : ENTRY -> ENTRY).
Hypothesis init_keeps : forall e, key (env_flags_init (env_callback_init e)) = key e /\
                                  data (env_flags_init (env_callback_init e)) = data e.
Hypothesis malloc_works : forall s, malloc_ok s = true.
Hypothesis calloc_works : forall n, calloc_ok n = true.
Context (sep flag : Z) (Hsep : sep <> 0x5C) (Hsep2 : sep <> 0x3D) (Hclear : tst flag H_NOCLEAR = false).

(** A text that ends in a NUL, read into a new table. *)
Lemma himport_ok h0 l nz : Forall (entry_ok sep) l -> NoDup l.*1 ->
  Forall (fun e => refusal h0 e.1 (env_flags_init (env_callback_init (fresh e.1 e.2))) (Some e.2) env_op_create flag = None) l ->
  let buf := concat (map (entry_text sep) l) ++ 0 :: replicate nz 0 in
  Z.of_nat (length buf) < 2 ^ 31 -> Z.of_nat (length l) <= Z.min 512 (64 + Z.of_nat (length buf) / 8) ->
  exists h', himport_r malloc_ok calloc_ok env_callback_init env_flags_init h0 buf (Z.of_nat (length buf)) sep flag [] = Ok (1, None, h') /\
    represents h' (foldl (fun m e => <[e.1 := e.2]> m) ∅ l).
Proof using All.
  intros Hok Hnd Hacc buf Hlen Hroom. unfold himport_r. rewrite calloc_works. cbn [negb]. rewrite decide_True by lia.
  rewrite Nat2Z.id, firstn_all, Hclear. cbv zeta.
  set (h1 := match table h0 with Some _ => hdestroy_r h0 | None => h0 end).
  assert (table h1 = None /\ change_ok h1 = change_ok h0) as [Ht Hco] by (subst h1; destruct (table h0) eqn:E; auto).
  rewrite Ht. assert (0 <= Z.of_nat (length buf) / 8 < 2 ^ 31 - 64) by (Z.div_mod_to_equations; lia).
  unfold CONFIG_ENV_MIN_ENTRIES, CONFIG_ENV_MAX_ENTRIES. rewrite swrap_small by (simpl; lia).
  assert ((if 512 <? 64 + Z.of_nat (length buf) / 8 then 512 else 64 + Z.of_nat (length buf) / 8) =
    Z.min 512 (64 + Z.of_nat (length buf) / 8)) as ->.
  { destruct (Z.ltb_spec 512 (64 + Z.of_nat (length buf) / 8)); lia. }
  rewrite wrap_small by lia.
  destruct (hcreate_ok calloc_ok h1 (Z.min 512 (64 + Z.of_nat (length buf) / 8))) as (h2 & -> & Hrep & Hfree & Hsz & Hf & Hco2 & Hcl);
    [done|lia|done|]. cbn [res_bind map]. change (1 =? 0) with false. cbv iota.
  destruct l as [|e l].
  - subst buf. cbn [map concat app] in *. cbn [length import_loop skip_blank isblank]. change (isblank 0) with false. cbv iota.
    cbn [res_bind peek]. change (0 =? 0x23) with false. cbv iota. cbn [parse_name]. change (0 =? 0x3D) with false. change (0 =? 0) with true.
    cbn [negb andb res_bind peek orb tail drop_var_from_set].
    destruct (delete_ok malloc_ok env_callback_init env_flags_init h2 ∅ [] flag Hrep) as (r & err & h3 & -> & Hd); [constructor|].
    rewrite lookup_empty in Hd. destruct Hd as (-> & -> & ->). cbn [res_bind]. by destruct nz; exists h2.
  - destruct (import_entries malloc_ok env_callback_init env_flags_init init_keeps malloc_works sep flag Hsep Hsep2 (replicate nz 0)
      (e :: l) (S (length buf)) h2 ∅) as (h3 & E & Hrep3); try done.
    + subst buf. rewrite length_app. pose proof (entries_length sep (e :: l)). lia.
    + rewrite Hf. cbn [length] in *. lia.
    + unfold refusal in *. by rewrite Hco2, Hco.
    + fold buf in E. rewrite E. cbn [res_bind delete_rest]. by exists h3.
Qed.

(** The entries of a table in any order, read into a new table. *)
Lemma import_listed h t m l nz h0 : wf h t -> maps h t m -> l ≡ₚ pairs_from t 1 -> (forall k v, m !! k = Some v -> entry_ok sep (k, v)) ->
  (forall k v, m !! k = Some v -> refusal h0 k (env_flags_init (env_callback_init (fresh k v))) (Some v) env_op_create flag = None) ->
  let buf := concat (map (entry_text sep) l) ++ 0 :: replicate nz 0 in
  Z.of_nat (length buf) < 2 ^ 31 -> Z.of_nat (base.size m) <= Z.min 512 (64 + Z.of_nat (length buf) / 8) ->
  exists h', himport_r malloc_ok calloc_ok env_callback_init env_flags_init h0 buf (Z.of_nat (length buf)) sep flag [] = Ok (1, None, h') /\
    represents h' m.
Proof using All.
  intros Hwf Hm Hl Hok Hacc buf Hlen Hroom. pose proof (pairs_perm h t m Hwf Hm) as Hperm.
  assert (forall k v, (k, v) ∈ l <-> m !! k = Some v) as Hin by (intros k v; by rewrite Hl, Hperm, elem_of_map_to_list).
  assert (NoDup l.*1) as Hnd by (rewrite Hl; by eapply pairs_nodup).
  destruct (himport_ok h0 l nz) as (h' & E & Hrep); [|done| |done| |].
  - apply Forall_forall. intros [k v] He. by apply Hok, Hin.
  - apply Forall_forall. intros [k v] He. by apply Hacc, Hin.
  - by rewrite (Permutation_length Hl), (Permutation_length Hperm), length_map_to_list.
  - exists h'. split; [exact E|]. by rewrite (inserts_map l m) in Hrep.
Qed.
End RoundTrip.

(** C9: export and import are inverse.  The variables of a table, exported with a separator into a buffer
    of their own, are the variables of the table that the import of this buffer creates, whatever the
    target table held before.  Names are not empty, do not start with a blank or a number sign, and contain
    neither the equals sign nor the separator; values are not empty, and contain no backslash if the
    separator is NUL; there is memory, the variables fit the size the import chooses, and no permission
    function or callback refuses one. *)
Theorem export_import_same malloc_ok calloc_ok env_callback_init env_flags_init h m h0 sep flag :
  (forall e, key (env_flags_init (env_callback_init e)) = key e /\ data (env_flags_init (env_callback_init e)) = data e) ->
  (forall s, malloc_ok s = true) -> (forall n, calloc_ok n = true) ->
  sep <> 0x5C -> sep <> 0x3D -> tst flag H_NOCLEAR = false ->
  represents h m -> (forall k v, m !! k = Some v -> entry_ok sep (k, v)) ->
  export_size sep m < 2 ^ 31 -> Z.of_nat (base.size m) <= Z.min 512 (64 + export_size sep m / 8) ->
  (forall k v, m !! k = Some v -> refusal h0 k (env_flags_init (env_callback_init (fresh k v))) (Some v) env_op_create flag = None) ->
  exists buf h',
    hexport_r calloc_ok h sep 0 None 0 [] = Ok (export_size sep m, Some buf, None) /\
    himport_r malloc_ok calloc_ok env_callback_init env_flags_init h0 buf (export_size sep m) sep flag [] = Ok (1, None, h') /\
    represents h' m.
Proof.
  intros Hinit Hmal Hcal Hsep Hsep2 Hclear (t & Hwf & Hm) Hok Hsz Hroom Hacc.
  pose proof (pairs_perm h t m Hwf Hm) as Hperm. unfold export_size in *. rewrite <- (total_cost_perm sep _ _ Hperm) in *.
  assert (Forall (entry_ok sep) (pairs_from t 1)) as Hall.
  { rewrite Hperm. apply Forall_forall. intros [k v] Hin%elem_of_map_to_list. by apply Hok. }
  destruct (hexport_ok calloc_ok h t sep Hwf Hall) as (l & Hl & E); [done..|]. rewrite E.
  set (sz := total_cost sep (pairs_from t 1) + 1) in *. set (nz := (Z.to_nat sz - _)%nat) in *.
  assert (Forall (entry_ok sep) l) as Hlok by (by rewrite Hl).
  assert (Z.of_nat (length (concat (map (entry_text sep) l) ++ 0 :: replicate nz 0)) = sz) as Hbuf.
  { pose proof (text_length sep l Hlok) as Htl. rewrite (total_cost_perm sep _ _ Hl) in Htl.
    rewrite length_app. cbn [length]. rewrite length_replicate. subst nz sz. lia. }
  destruct (import_listed malloc_ok calloc_ok env_callback_init env_flags_init Hinit Hmal Hcal sep flag Hsep Hsep2 Hclear h t m l nz h0)
    as (h' & E' & Hrep); [done..|lia|by rewrite Hbuf|].
  rewrite Hbuf in E'. by eexists _, h'.
Qed.

Lemma export_import_same_witness :
  exists buf h',
    hexport_r (fun _ => true) one_variable 0x0A 0 None 0 [] =
      Ok (export_size 0x0A {[cstr "bootdelay" := cstr "3"]}, Some buf, None) /\
    himport_r (fun _ => true) (fun _ => true) id id plain_table buf
      (export_size 0x0A {[cstr "bootdelay" := cstr "3"]}) 0x0A 0 [] = Ok (1, None, h') /\
    represents h' {[cstr "bootdelay" := cstr "3"]}.
Proof.
  refine (export_import_same (fun _ => true) (fun _ => true) id id one_variable {[cstr "bootdelay" := cstr "3"]} plain_table 0x0A 0
    (fun _ => conj eq_refl eq_refl) (fun _ => eq_refl) (fun _ => eq_refl) ltac:(lia) ltac:(lia) eq_refl one_variable_ok _ _ _
    (fun _ _ _ => eq_refl)).
  - intros k v [<- <-]%lookup_singleton_Some. unfold entry_ok. cbn [fst snd]. split_and!.
    + by repeat constructor.
    + by repeat constructor.
    + done.
    + by apply (bool_decide_unpack _).
    + by apply (bool_decide_unpack _).
    + eexists _, _. split; [reflexivity|]. done.
    + done.
  - vm_compute. reflexivity.
  - vm_compute. done.
Defined.

(** With a NUL as separator, backslashes are escaped in the text but not counted in its length: the
    export of a single variable with three backslashes writes past the end of its buffer. *)
Theorem hexport_r_overflows :
  (let* (_, h) := hsearch_r (fun _ => true) id id (cstr "a") (Some [0x5C; 0x5C; 0x5C]) ENTER empty_67 0 in
   hexport_r (fun _ => true) h 0 0 None 0 []) = Ub.
Proof. vm_compute. reflexivity. Qed.
