(* ===== verification/EnvFlags.v ===== *)
(** * Attributes of environment variables ([common/env_attr.c], [common/env_flags.c], [common/env_callback.c])

    A variable can have a type and an access mode, and a callback, found by its name in lists of
    attributes.  The types are numbers as in the source ([CONFIG_CMD_NET] is set).  Strings are the bytes
    before their NUL. *)
From S2P Require Import Prelude Ctype Cstring CstrProps Hashtable HashProps EnvText.

Definition at_ (s : list Z) (i : nat) : Z := nth i s 0.

(** ** Attribute lists *)

Definition ENV_ATTR_LIST_DELIM : Z := 0x2C.
Definition ENV_ATTR_SEP : Z := 0x3A.

(** [strstr] from position [i] on. *)
Fixpoint strstr_from (n : nat) (l pat : list Z) (i : nat) : option nat :=
  match n with
  | O => None
  | S n =>
    if bool_decide (pat `prefix_of` drop i l) then Some i
    else if bool_decide (i < length l)%nat then strstr_from n l pat (S i) else None
  end.

Fixpoint reverse_loop (n : nat) (l pat : list Z) (start : option nat) (searched : nat) (result : option nat) : res (option nat) :=
  match n with
  | O => Hang
  | S n =>
    match strstr_from (S (length l)) l pat searched with
    | None => Ok result
    | Some m =>
      if match start with Some s => bool_decide (s < m + length pat)%nat | None => false end then Ok result
      else reverse_loop n l pat start (S m) (Some m)
    end
  end.
Definition reverse_strstr (l search_for : list Z) (start : option nat) : res (option nat) :=
  match search_for with
  | [] => Ok (Some 0%nat)
  | _ => reverse_loop (S (S (length l))) l search_for start 0 None
  end.

(** The last byte of the list before a position that is not a space; the search goes on in front of the
    list, where it finds [before]. *)
Fixpoint back_over_spaces (before : Z) (rev_prefix : list Z) : Z :=
  match rev_prefix with
  | [] => before
  | c :: p => if c =? 0x20 then back_over_spaces before p else c
  end.
Fixpoint over_spaces (s : list Z) : list Z :=
  match s with
  | c :: s' => if c =? 0x20 then over_spaces s' else s
  | [] => []
  end.

Fixpoint lookup_loop (n : nat) (before : Z) (l name : list Z) (entry : option nat) : res (option nat) :=
  match n with
  | O => Hang
  | S n =>
    match entry with
    | None => Ok None
    | Some i =>
      let prevch := back_over_spaces before (rev (take i l)) in
      let nextch := at_ (over_spaces (drop (i + length name) l)) 0 in
      if (bool_decide (i = 0)%nat || (prevch =? ENV_ATTR_LIST_DELIM)) &&
         ((nextch =? ENV_ATTR_SEP) || (nextch =? ENV_ATTR_LIST_DELIM) || (nextch =? 0))
      then Ok entry
      else
        let* entry := reverse_strstr l name (Some i) in lookup_loop n before l name entry
    end
  end.

(** Up to a delimiter or a space. *)
Fixpoint attr_value (s : list Z) : list Z :=
  match s with
  | c :: s' => if (c =? ENV_ATTR_LIST_DELIM) || (c =? 0x20) then [] else c :: attr_value s'
  | [] => []
  end.

(** The result and the string in the buffer of [cap] bytes; a longer attribute does not fit. *)
Definition env_attr_lookup (before : Z) (attr_list : option (list Z)) (name : list Z) (cap : nat) : res (Z * option (list Z)) :=
  match attr_list with
  | None => Ok (1, None)
  | Some l =>
    let* entry := reverse_strstr l name None in
    let* entry := lookup_loop (S (S (length l))) before l name entry in
    match entry with
    | Some i =>
      let e := over_spaces (drop (i + length name) l) in
      let attributes := if negb (at_ e 0 =? ENV_ATTR_SEP) then [] else attr_value (over_spaces (tail e)) in
      if decide (length attributes < cap)%nat then Ok (0, Some attributes) else Ub
    | None => Ok (2, None)
    end
  end.

(** [strim]: the string without the white space around it. *)
Fixpoint skip_spaces (s : list Z) : list Z :=
  match s with c :: s' => if isspace c then skip_spaces s' else s | [] => [] end.
Definition strim (s : list Z) : list Z := rev (skip_spaces (rev (skip_spaces s))).

(** A part of a string up to a character, and what follows the character. *)
Fixpoint split_at (c : Z) (s : list Z) : list Z * option (list Z) :=
  match s with
  | [] => ([], None)
  | d :: s' => if d =? c then ([], Some s') else let '(a, b) := split_at c s' in (d :: a, b)
  end.

(** The callback changes a state; it returns a number, and the walk ends when that is not 0. *)
Fixpoint attr_walk_loop {S} (malloc_ok : list Z -> bool) (n : nat) (callback : list Z -> option (list Z) -> S -> res (Z * S)) (entry : list Z) (s : S) : res (Z * S) :=
  match n with
  | O => Hang
  | Datatypes.S n =>
    let '(entry_cpy, entry_end) := split_at ENV_ATTR_LIST_DELIM entry in
    let next s := match entry_end with Some entry => attr_walk_loop malloc_ok n callback entry s | None => Ok (0, s) end in
    if bool_decide (entry_cpy = []) then next s
    else if negb (malloc_ok entry_cpy) then Ok (- ENOMEM, s)
    else
      let '(name, attributes) := split_at ENV_ATTR_SEP entry_cpy in
      let attributes := strim <$> attributes in
      let name := strim name in
      if bool_decide (name = []) then next s
      else
        let* (retval, s) := callback name attributes s in
        if negb (retval =? 0) then Ok (retval, s) else next s
  end.
Definition env_attr_walk {S} (malloc_ok : list Z -> bool) (attr_list : option (list Z)) (callback : list Z -> option (list Z) -> S -> res (Z * S)) (s : S) : res (Z * S) :=
  match attr_list with
  | None => Ok (1, s)
  | Some l => attr_walk_loop malloc_ok (Datatypes.S (length l)) callback l s
  end.

(** ** Types *)

Definition env_flags_vartype_string : Z := 0.
Definition env_flags_vartype_decimal : Z := 1.
Definition env_flags_vartype_hex : Z := 2.
Definition env_flags_vartype_bool : Z := 3.
Definition env_flags_vartype_ipaddr : Z := 4.
Definition env_flags_vartype_macaddr : Z := 5.
Definition env_flags_vartype_end : Z := 6.

Definition env_flags_vartype_rep : list Z := cstr "sdxbim".
Definition env_flags_varaccess_rep : list Z := cstr "aroc".

Definition ENV_FLAGS_VARTYPE_BIN_MASK : Z := 0x07.
Definition ENV_FLAGS_VARACCESS_PREVENT_DELETE : Z := 0x08.
Definition ENV_FLAGS_VARACCESS_PREVENT_CREATE : Z := 0x10.
Definition ENV_FLAGS_VARACCESS_PREVENT_OVERWR : Z := 0x20.
Definition ENV_FLAGS_VARACCESS_PREVENT_NONDEF_OVERWR : Z := 0x40.
Definition ENV_FLAGS_VARACCESS_BIN_MASK : Z := 0x78.

Definition env_flags_varaccess_mask : list Z :=
  [0;
   ENV_FLAGS_VARACCESS_PREVENT_DELETE .| ENV_FLAGS_VARACCESS_PREVENT_CREATE .| ENV_FLAGS_VARACCESS_PREVENT_OVERWR;
   ENV_FLAGS_VARACCESS_PREVENT_DELETE .| ENV_FLAGS_VARACCESS_PREVENT_OVERWR;
   ENV_FLAGS_VARACCESS_PREVENT_DELETE .| ENV_FLAGS_VARACCESS_PREVENT_NONDEF_OVERWR].

(** [strchr] as a position. *)
Fixpoint index_of (c : Z) (s : list Z) : option Z :=
  match s with [] => None | d :: s => if d =? c then Some 0 else Z.succ <$> index_of c s end.

Definition env_flags_parse_vartype (flags : list Z) : Z :=
  match flags with
  | [] => env_flags_vartype_string
  | c :: _ => match index_of c env_flags_vartype_rep with Some i => i | None => env_flags_vartype_string end
  end.
Definition env_flags_parse_varaccess (flags : list Z) : Z :=
  match flags with
  | _ :: c :: _ => match index_of c env_flags_varaccess_rep with Some i => i | None => 0 end
  | _ => 0
  end.

(** The bound of the loop is the number of bytes of the table, so it runs on behind its four entries. *)
Fixpoint binflags_loop (n : nat) (binflags i : Z) : res Z :=
  match n with
  | O => Ok 0
  | S n =>
    let* m := res_of_option (env_flags_varaccess_mask !! Z.to_nat i) in
    if m =? binflags .& ENV_FLAGS_VARACCESS_BIN_MASK then Ok i else binflags_loop n binflags (i + 1)
  end.
Definition env_flags_parse_varaccess_from_binflags (binflags : Z) : res Z := binflags_loop 16 binflags 0.

Definition is_hex_prefix (value : list Z) : bool :=
  (at_ value 0 =? 0x30) && ((at_ value 1 =? 0x78) || (at_ value 1 =? 0x58)).

Fixpoint skip_digits (hex : bool) (i : Z) (value : list Z) : list Z :=
  match value with
  | [] => []
  | c :: value' =>
    if i =? 0 then value
    else if hex && negb (isxdigit c) then value
    else if negb hex && negb (isdigit c) then value
    else skip_digits hex (i - 1) value'
  end.
Definition skip_num (hex : bool) (value : list Z) (max_digits : Z) : list Z :=
  skip_digits hex max_digits (if hex && is_hex_prefix value then drop 2 value else value).

(** The four numbers of an IP address, the six of a MAC address; [i] is the index of the next one. *)
Fixpoint ip_loop (n : nat) (i : Z) (cur : list Z) : bool :=
  match n with
  | O => true
  | S n =>
    let end_ := skip_num false cur 3 in
    if bool_decide (length cur = length end_) then false
    else if negb (i =? 3) && negb (at_ end_ 0 =? 0x2E) then false
    else if (i =? 3) && negb (at_ end_ 0 =? 0) then false
    else ip_loop n (i + 1) (tail end_)
  end.
Fixpoint mac_loop (n : nat) (i : Z) (cur : list Z) : bool :=
  match n with
  | O => true
  | S n =>
    let end_ := skip_num true cur 2 in
    if bool_decide (length cur = length end_) then false
    else if bool_decide (length cur = length end_ + 2)%nat && is_hex_prefix cur then false
    else if negb (i =? 5) && negb (at_ end_ 0 =? 0x3A) then false
    else if (i =? 5) && negb (at_ end_ 0 =? 0) then false
    else mac_loop n (i + 1) (tail end_)
  end.

(** [true] for 0, [false] for -1. *)
Definition _env_flags_validate_type (value : list Z) (type : Z) : bool :=
  if type =? env_flags_vartype_decimal then at_ (skip_num false value (-1)) 0 =? 0
  else if type =? env_flags_vartype_hex then
    let end_ := skip_num true value (-1) in
    (at_ end_ 0 =? 0) && negb (bool_decide (length value = length end_ + 2)%nat && is_hex_prefix value)
  else if type =? env_flags_vartype_bool then
    bool_decide (at_ value 0 ∈ cstr "1ytYT0nfNF") && (at_ value 1 =? 0)
  else if type =? env_flags_vartype_ipaddr then ip_loop 4 0 value
  else if type =? env_flags_vartype_macaddr then mac_loop 6 0 value
  else negb (type =? env_flags_vartype_end).

Definition env_parse_flags_to_bin (flags : list Z) : Z :=
  (env_flags_parse_vartype flags .& ENV_FLAGS_VARTYPE_BIN_MASK)
  .| nth (Z.to_nat (env_flags_parse_varaccess flags)) env_flags_varaccess_mask 0.

(** The static list of this board ([CONFIG_ENV_OVERWRITE] is set). *)
Definition ENV_FLAGS_LIST_STATIC : list Z := cstr "ethaddr:ma,".
Definition ENV_FLAGS_ATTR_MAX_LEN : nat := 2.

Definition env_flags_lookup (before : Z) (flags_list : option (list Z)) (name : list Z) : res (Z * option (list Z)) :=
  let cap := S ENV_FLAGS_ATTR_MAX_LEN in
  let* (ret, flags) := match flags_list with
                       | Some _ => env_attr_lookup before flags_list name cap
                       | None => Ok (1, None)
                       end in
  if negb (ret =? 0) then env_attr_lookup before (Some ENV_FLAGS_LIST_STATIC) name cap else Ok (ret, flags).

(** [flags_list] is the value of the variable .flags at the first call. *)
Definition env_flags_init (before : Z) (flags_list : option (list Z)) (var_entry : ENTRY) : res ENTRY :=
  let* name := res_of_option (key var_entry) in
  let* (ret, flags) := env_flags_lookup before flags_list name in
  match flags with
  | Some (c :: s) =>
    if ret =? 0 then Ok {| key := key var_entry; data := data var_entry; callback := callback var_entry;
                           Hashtable.flags := env_parse_flags_to_bin (c :: s) |}
    else Ok var_entry
  | _ => Ok var_entry
  end.

Definition with_flags (e : ENTRY) (f : Z) : ENTRY :=
  {| key := key e; data := data e; callback := callback e; Hashtable.flags := f |}.
Definition clear_flags (e : ENTRY) : Z * ENTRY := (0, with_flags e 0).

(** On the table of the environment. *)
Definition set_flags (malloc_ok : list Z -> bool) (name : list Z) (value : option (list Z)) (h : hsearch_data) : res (Z * hsearch_data) :=
  let* (a, h) := hsearch_r malloc_ok id id name None FIND h 0 in
  match retval a with
  | None => Ok (0, h)
  | Some i =>
    let* e := slot h i in
    let f := match value with Some (c :: s) => env_parse_flags_to_bin (c :: s) | _ => 0 end in
    Ok (0, set_slot h i {| used := used e; entry := with_flags (entry e) f |})
  end.
Definition on_flags (malloc_ok : list Z -> bool) (value : option (list Z)) (h : hsearch_data) : res (Z * hsearch_data) :=
  let* (_, h) := hwalk_r h clear_flags in
  let* (_, h) := env_attr_walk malloc_ok (Some ENV_FLAGS_LIST_STATIC) (set_flags malloc_ok) h in
  let* (_, h) := env_attr_walk malloc_ok value (set_flags malloc_ok) h in
  Ok (0, h).

Definition H_FORCE : Z := 2.
Definition H_INTERACTIVE : Z := 4.

(** [getenv_default] looks a name up in the default environment. *)
Definition env_flags_validate (getenv_default : list Z -> option (list Z)) (item : ENTRY) (newval : option (list Z))
  (op : env_op) (flag : Z) : res Z :=
  let oldval := match op with env_op_create => None | _ => data item end in
  let newval := match newval with Some v => v | None => [] end in
  let type := ENV_FLAGS_VARTYPE_BIN_MASK .& Hashtable.flags item in
  if match op with env_op_delete => false | _ => negb (_env_flags_validate_type newval type) end then Ok (-1)
  else if tst flag H_FORCE then Ok 0
  else
    let f := Hashtable.flags item in
    match op with
    | env_op_delete => Ok (if tst f ENV_FLAGS_VARACCESS_PREVENT_DELETE then 1 else 0)
    | env_op_overwrite =>
      if tst f ENV_FLAGS_VARACCESS_PREVENT_OVERWR then Ok 1
      else if tst f ENV_FLAGS_VARACCESS_PREVENT_NONDEF_OVERWR then
        let* name := res_of_option (key item) in
        let defval := match getenv_default name with Some d => d | None => [] end in
        let* oldval := res_of_option oldval in
        Ok (if negb (streq oldval defval) then 1 else 0)
      else Ok 0
    | env_op_create => Ok (if tst f ENV_FLAGS_VARACCESS_PREVENT_CREATE then 1 else 0)
    end.

(** ** Callbacks

    The callbacks of the linker list are parameters: the name of each, and whether it refuses a change. *)

Record env_clbk_tbl := { clbk_name : list Z; clbk : list Z -> option (list Z) -> env_op -> Z -> bool }.

Definition find_env_callback (tbl : list env_clbk_tbl) (name : option (list Z)) : option env_clbk_tbl :=
  match name with
  | None => None
  | Some n => List.find (fun clbkp => streq n (clbk_name clbkp)) tbl
  end.

Definition ENV_CALLBACK_LIST_STATIC : list Z :=
  cstr ".callbacks:callbacks,.flags:flags,baudrate:baudrate,bootfile:bootfile,loadaddr:loadaddr,stdin:console,stdout:console,stderr:console,".

Definition with_callback (e : ENTRY) (c : option (list Z -> option (list Z) -> env_op -> Z -> bool)) : ENTRY :=
  {| key := key e; data := data e; callback := c; Hashtable.flags := Hashtable.flags e |}.

(** [callback_list] is the value of the variable .callbacks at the first call. *)
Definition env_callback_init (before : Z) (tbl : list env_clbk_tbl) (callback_list : option (list Z)) (var_entry : ENTRY) : res ENTRY :=
  let* var_name := res_of_option (key var_entry) in
  let* (ret, callback_name) := match callback_list with
                               | Some _ => env_attr_lookup before callback_list var_name 256
                               | None => Ok (1, None)
                               end in
  let* (ret, callback_name) :=
    if negb (ret =? 0) then env_attr_lookup before (Some ENV_CALLBACK_LIST_STATIC) var_name 256 else Ok (ret, callback_name) in
  match callback_name with
  | Some (c :: s) =>
    if ret =? 0 then
      match find_env_callback tbl (Some (c :: s)) with
      | Some clbkp => Ok (with_callback var_entry (Some (clbk clbkp)))
      | None => Ok var_entry
      end
    else Ok var_entry
  | _ => Ok var_entry
  end.

Definition clear_callback (e : ENTRY) : Z * ENTRY := (0, with_callback e None).

Definition set_callback (malloc_ok : list Z -> bool) (tbl : list env_clbk_tbl) (name : list Z) (value : option (list Z))
  (h : hsearch_data) : res (Z * hsearch_data) :=
  let* (a, h) := hsearch_r malloc_ok id id name None FIND h 0 in
  match retval a with
  | None => Ok (0, h)
  | Some i =>
    let* e := slot h i in
    let to c := Ok (0, set_slot h i {| used := used e; entry := with_callback (entry e) c |}) in
    match value with
    | Some (c :: s) =>
      match find_env_callback tbl value with Some clbkp => to (Some (clbk clbkp)) | None => Ok (0, h) end
    | _ => to None
    end
  end.
Definition on_callbacks (malloc_ok : list Z -> bool) (tbl : list env_clbk_tbl) (value : option (list Z)) (h : hsearch_data) : res (Z * hsearch_data) :=
  let* (_, h) := hwalk_r h clear_callback in
  let* (_, h) := env_attr_walk malloc_ok (Some ENV_CALLBACK_LIST_STATIC) (set_callback malloc_ok tbl) h in
  let* (_, h) := env_attr_walk malloc_ok value (set_callback malloc_ok tbl) h in
  Ok (0, h).

(** ** As the functions of the table

    The initialisation and the permission function of [env_htab], where [hashtable.c] calls them: a new
    entry that cannot be looked up stays as it is, and what is not permitted is refused.  The table takes
    functions that always return.  So the case in which the lookup of an entry copies attributes of a list
    beyond its buffer, [Ub] of [env_flags_init] and [env_flags_validate], is not told apart here: the entry stays
    as it is and the change is refused, where the program could do anything.  Nothing that is proved with
    [run_init] and [env_change_ok] speaks about a program in which this has happened. *)

Definition run_init (f : ENTRY -> res ENTRY) (e : ENTRY) : ENTRY := match f e with Ok e' => e' | _ => e end.
Definition env_change_ok (getenv_default : list Z -> option (list Z)) (item : ENTRY) (newval : option (list Z)) (op : env_op) (flag : Z) : bool :=
  match env_flags_validate getenv_default item newval op flag with Ok r => negb (r =? 0) | _ => true end.
Definition env_htab (getenv_default : list Z -> option (list Z)) : hsearch_data :=
  {| table := None; size := 0; filled := 0; change_ok := Some (env_change_ok getenv_default) |}.
