(* ===== verification/FlagProps.v ===== *)
(** * What the types and permissions guarantee ([common/env_flags.c])

    - the accepted values of each type, as a grammar;
    - every value in the table has the type of its variable, whatever is entered, deleted or imported;
    - a protected variable is neither overwritten nor deleted without force. *)
From S2P Require Import Prelude Ctype Cstring CstrProps Hashtable HashProps EnvText EnvProps EnvFlags.

(** ** The grammar of the types *)

Definition digits (s : list Z) : Prop := Forall (fun c => isdigit c = true) s.
Definition hex_digits (s : list Z) : Prop := Forall (fun c => isxdigit c = true) s.
Definition digit_class (hex : bool) (c : Z) : bool := if hex then isxdigit c else isdigit c.

Fixpoint drop_class (hex : bool) (s : list Z) : list Z :=
  match s with [] => [] | c :: s' => if digit_class hex c then drop_class hex s' else s end.

Lemma skip_unlimited hex s : forall i, i < 0 -> skip_digits hex i s = drop_class hex s.
Proof.
  induction s as [|c s IH]; intros i Hi; [done|]. cbn [skip_digits drop_class]. rewrite (proj2 (Z.eqb_neq i 0)) by lia.
  unfold digit_class. destruct hex; cbn [andb negb].
  - destruct (isxdigit c); cbn [negb]; [apply IH; lia|done].
  - destruct (isdigit c); cbn [negb]; [apply IH; lia|done].
Qed.

Lemma skip_one hex n c s : skip_digits hex (Z.of_nat (S n)) (c :: s) = if digit_class hex c then skip_digits hex (Z.of_nat n) s else c :: s.
Proof.
  cbn [skip_digits]. rewrite (proj2 (Z.eqb_neq _ 0)) by lia. replace (Z.of_nat (S n) - 1) with (Z.of_nat n) by lia.
  unfold digit_class. destruct hex; cbn [andb negb]; [by destruct (isxdigit c)|by destruct (isdigit c)].
Qed.

(** At the end of the string exactly if all of it are digits. *)
Lemma drop_class_end hex s : string_ok s -> (at_ (drop_class hex s) 0 =? 0) = true <-> Forall (fun c => digit_class hex c = true) s.
Proof.
  induction 1 as [|c s Hc Hs IH]; [done|]. cbn [drop_class]. rewrite Forall_cons. destruct (digit_class hex c) eqn:E.
  - rewrite IH. tauto.
  - unfold at_. simpl. rewrite Z.eqb_eq. split; [lia|]. by intros [? _].
Qed.

(** A number of at most [n] digits in front of [rest]. *)
Lemma skip_bounded hex n : forall s, exists a, s = a ++ skip_digits hex (Z.of_nat n) s /\
  Forall (fun c => digit_class hex c = true) a /\ (length a <= n)%nat.
Proof.
  induction n as [|n IH]; intros [|c s]; try (exists []; split_and!; [done|constructor|simpl; lia]).
  rewrite skip_one. destruct (digit_class hex c) eqn:E.
  - destruct (IH s) as (a & Ea & Hd & Hl). exists (c :: a). split_and!; [by rewrite Ea at 1|by constructor|simpl; lia].
  - exists []. split_and!; [done|constructor|simpl; lia].
Qed.

Lemma skip_exact hex a rest : digit_class hex (at_ rest 0) = false -> forall n, Forall (fun c => digit_class hex c = true) a -> (length a <= n)%nat ->
  skip_digits hex (Z.of_nat n) (a ++ rest) = rest.
Proof.
  intros Hr. induction a as [|c a IH]; intros [|n] Ha Hl; cbn [app]; try (simpl in Hl; lia); try (by destruct rest).
  - destruct rest as [|c rest]; [done|]. rewrite skip_one. unfold at_ in Hr. simpl in Hr. by rewrite Hr.
  - inversion Ha as [|? ? Hc Ha']; subst. rewrite skip_one, Hc. apply IH; [done|simpl in Hl; lia].
Qed.

Lemma nul_end s : string_ok s -> (at_ s 0 =? 0) = true <-> s = [].
Proof. destruct 1 as [|c s Hc _]; [done|]. unfold at_. simpl. rewrite Z.eqb_eq. split; [lia|done]. Qed.

(** Both addresses are parts with a separator between them. *)
Fixpoint joined (sep : Z) (parts : list (list Z)) : list Z :=
  match parts with [] => [] | [a] => a | a :: parts => a ++ sep :: joined sep parts end.

Section Parts.
Context (sep last : Z) (P : list Z -> Prop) (front : list Z -> list Z) (reject : list Z -> list Z -> bool).
Context (sep_pos : 0 < sep).
Context (front_ok : forall s, reject s (front s) = false -> exists a, P a /\ s = a ++ front s).
Context (front_eq : forall a rest, P a -> at_ rest 0 ∈ [0; sep] -> front (a ++ rest) = rest /\ reject (a ++ rest) rest = false).

Fixpoint parts_loop (n : nat) (i : Z) (cur : list Z) : bool :=
  match n with
  | O => true
  | S n =>
    let end_ := front cur in
    if reject cur end_ then false
    else if negb (i =? last) && negb (at_ end_ 0 =? sep) then false
    else if (i =? last) && negb (at_ end_ 0 =? 0) then false
    else parts_loop n (i + 1) (tail end_)
  end.

Lemma parts_loop_ok n : forall s, string_ok s ->
  parts_loop (S n) (last - Z.of_nat n) s = true <-> exists parts, length parts = S n /\ Forall P parts /\ s = joined sep parts.
Proof.
  induction n as [|n IH]; intros s Hs; cbn [parts_loop].
  - rewrite (proj2 (Z.eqb_eq (last - Z.of_nat 0) last)) by lia. cbn [negb andb]. split.
    + destruct (reject s (front s)) eqn:Hl; [done|]. destruct (front_ok s Hl) as (a & Ha & Ea). destruct (at_ _ 0 =? 0) eqn:E0; [|done].
      intros _. exists [a]. split_and!; [done|by constructor|]. simpl. rewrite Ea. apply nul_end in E0; [by rewrite E0, app_nil_r|].
      rewrite Ea in Hs. by apply Forall_app in Hs as [_ ?].
    + intros (parts & Hp & Hf & ->). destruct parts as [|a [|]]; try done. inversion Hf as [|? ? Ha _]; subst. simpl.
      destruct (front_eq a [] Ha) as [E1 E2]; [set_solver|]. rewrite app_nil_r in E1, E2. by rewrite E1, E2.
  - rewrite (proj2 (Z.eqb_neq (last - Z.of_nat (S n)) last)) by lia. cbn [negb andb].
    replace (last - Z.of_nat (S n) + 1) with (last - Z.of_nat n) by lia. split.
    + destruct (reject s (front s)) eqn:Hl; [done|]. destruct (front_ok s Hl) as (a & Ha & Ea).
      destruct (at_ (front s) 0 =? sep) eqn:Ec; [|done]. cbn [negb]. intros Hrec. rewrite Ea in Hs. apply Forall_app in Hs as [_ Hs].
      destruct (front s) as [|c e] eqn:Ee.
      { apply Z.eqb_eq in Ec. by rewrite <- Ec in sep_pos. }
      unfold at_ in Ec. cbn [nth tail] in *. apply Z.eqb_eq in Ec as ->.
      apply IH in Hrec as (parts & Hp & Hf & ->); [|by inversion Hs].
      exists (a :: parts). split_and!; [simpl; lia|by constructor|]. rewrite Ea. by destruct parts.
    + intros (parts & Hp & Hf & ->). destruct parts as [|a parts]; [done|]. inversion Hf as [|? ? Ha Hf']; subst.
      assert (joined sep (a :: parts) = a ++ sep :: joined sep parts) as Et by (by destruct parts). rewrite Et in *.
      destruct (front_eq a (sep :: joined sep parts) Ha) as [-> ->]; [set_solver|].
      unfold at_. cbn [nth tail]. rewrite Z.eqb_refl. cbn [negb]. apply IH; [|exists parts; split_and!; [simpl in Hp; lia|done|done]].
      apply Forall_app in Hs as [_ Hs]. by inversion Hs.
Qed.
End Parts.

(** Numbers of one to three digits; bytes of one or two hexadecimal digits, with or without a prefix. *)
Definition hex_prefixes : list (list Z) := [cstr "0x"; cstr "0X"].
Definition ip_part (a : list Z) : Prop := digits a /\ (1 <= length a <= 3)%nat.
Definition mac_part (a : list Z) : Prop :=
  exists p d, a = p ++ d /\ p ∈ [] :: hex_prefixes /\ hex_digits d /\ (1 <= length d <= 2)%nat.

(** The strings of a type. *)
Definition has_type (type : Z) (s : list Z) : Prop :=
  if type =? env_flags_vartype_decimal then digits s
  else if type =? env_flags_vartype_hex then
    hex_digits s \/ exists p d, s = p ++ d /\ p ∈ hex_prefixes /\ hex_digits d /\ d <> []
  else if type =? env_flags_vartype_bool then exists c, s = [c] /\ c ∈ cstr "1ytYT0nfNF"
  else if type =? env_flags_vartype_ipaddr then
    exists parts, length parts = 4%nat /\ Forall ip_part parts /\ s = joined 0x2E parts
  else if type =? env_flags_vartype_macaddr then
    exists parts, length parts = 6%nat /\ Forall mac_part parts /\ s = joined 0x3A parts
  else type <> env_flags_vartype_end.

Lemma hex_prefix_spec s : is_hex_prefix s = true <-> exists p d, s = p ++ d /\ p ∈ hex_prefixes.
Proof.
  unfold is_hex_prefix. rewrite andb_true_iff, orb_true_iff, !Z.eqb_eq. split.
  - destruct s as [|a [|b d]]; unfold at_; simpl; intros [E1 E2]; try lia. subst a. destruct E2; subst b.
    + exists (cstr "0x"), d. split; [done|set_solver].
    + exists (cstr "0X"), d. split; [done|set_solver].
  - intros (p & d & -> & Hp). unfold hex_prefixes in Hp. apply elem_of_cons in Hp as [->|Hp%list_elem_of_singleton]; [|subst p];
      (split; [done|]); [by left|by right].
Qed.

Lemma skip_num_prefix p d n : p ∈ hex_prefixes -> skip_num true (p ++ d) n = skip_digits true n d /\ length p = 2%nat.
Proof.
  intros Hp. unfold skip_num. rewrite (proj2 (hex_prefix_spec (p ++ d))) by eauto. cbn [andb].
  unfold hex_prefixes in Hp. apply elem_of_cons in Hp as [->|Hp%list_elem_of_singleton]; [|subst p]; done.
Qed.
Lemma skip_num_plain s n : is_hex_prefix s = false -> skip_num true s n = skip_digits true n s.
Proof. unfold skip_num. by intros ->. Qed.

Lemma hex_digit_no_prefix d rest : hex_digits d -> d <> [] -> at_ rest 0 ∈ [0; 0x3A] -> is_hex_prefix (d ++ rest) = false.
Proof.
  intros Hd Hne Hr. destruct (is_hex_prefix (d ++ rest)) eqn:E; [|done]. exfalso. unfold is_hex_prefix in E.
  apply andb_true_iff in E as [_ E]. destruct d as [|a [|b d]]; [done| |].
  - change (at_ ([a] ++ rest) 1) with (at_ rest 0) in E. apply elem_of_cons in Hr as [Hr|Hr%list_elem_of_singleton]; by rewrite Hr in E.
  - change (at_ ((a :: b :: d) ++ rest) 1) with b in E. inversion Hd as [|? ? _ Hd']; inversion Hd' as [|? ? Hb _]; subst.
    apply orb_true_iff in E as [E|E]; apply Z.eqb_eq in E as ->; by vm_compute in Hb.
Qed.

Lemma ip_loop_parts n : forall i s, ip_loop n i s = parts_loop 0x2E 3 (fun s => skip_num false s 3) (fun s e => bool_decide (length s = length e)) n i s.
Proof. induction n as [|n IH]; intros i s; [done|]. cbn [ip_loop parts_loop]. by rewrite IH. Qed.

Lemma ip_loop_ok s : string_ok s -> ip_loop 4 0 s = true <-> has_type env_flags_vartype_ipaddr s.
Proof.
  intros Hs. rewrite ip_loop_parts. apply (parts_loop_ok 0x2E 3 ip_part _ _) with (n := 3%nat); [lia| | |done].
  - intros t Hr. apply bool_decide_eq_false in Hr. destruct (skip_bounded false 3 t) as (a & Ea & Hd & Hl). exists a. split; [|exact Ea].
    split; [done|]. apply (f_equal length) in Ea. rewrite length_app in Ea. change (skip_digits false (Z.of_nat 3) t) with (skip_num false t 3) in Ea. lia.
  - intros a rest [Hd Hl] Hr. split; [|apply bool_decide_eq_false; rewrite length_app; lia].
    apply (skip_exact false a rest) with (n := 3%nat); [|done|lia]. apply elem_of_cons in Hr as [Hr|Hr%list_elem_of_singleton]; by rewrite Hr.
Qed.

Definition mac_reject (s e : list Z) : bool :=
  bool_decide (length s = length e) || (bool_decide (length s = length e + 2)%nat && is_hex_prefix s).
Lemma mac_loop_parts n : forall i s, mac_loop n i s = parts_loop 0x3A 5 (fun s => skip_num true s 2) mac_reject n i s.
Proof.
  induction n as [|n IH]; intros i s; [done|]. cbn [mac_loop parts_loop]. rewrite IH. unfold mac_reject.
  by destruct (bool_decide _), (bool_decide _).
Qed.

Lemma mac_loop_ok s : string_ok s -> mac_loop 6 0 s = true <-> has_type env_flags_vartype_macaddr s.
Proof.
  intros Hs. rewrite mac_loop_parts. apply (parts_loop_ok 0x3A 5 mac_part _ _) with (n := 5%nat); [lia| | |done].
  - intros t Hr. apply orb_false_iff in Hr as [Hr1 Hr2]. apply bool_decide_eq_false in Hr1. destruct (is_hex_prefix t) eqn:Ep.
    + rewrite andb_true_r in Hr2. apply bool_decide_eq_false in Hr2. apply hex_prefix_spec in Ep as (p & d & -> & Hp).
      destruct (skip_num_prefix p d 2 Hp) as [Es Hlp]. rewrite Es in *. destruct (skip_bounded true 2 d) as (a & Ea & Hd & Hl).
      change (Z.of_nat 2) with 2 in Ea. exists (p ++ a). split; [|by rewrite <- app_assoc, <- Ea]. exists p, a. split_and!; [done|set_solver|done| |done].
      destruct a; [|simpl; lia]. exfalso. apply Hr2. rewrite length_app. simpl in Ea. rewrite <- Ea. lia.
    + rewrite (skip_num_plain t 2 Ep) in *. destruct (skip_bounded true 2 t) as (a & Ea & Hd & Hl). change (Z.of_nat 2) with 2 in Ea.
      exists a. split; [|done]. exists [], a. split_and!; [done|set_solver|done| |done]. apply (f_equal length) in Ea. rewrite length_app in Ea. lia.
  - intros a rest (p & d & -> & Hp & Hd & Hl) Hr. assert (digit_class true (at_ rest 0) = false) as Hc.
    { apply elem_of_cons in Hr as [Hr|Hr%list_elem_of_singleton]; by rewrite Hr. }
    pose proof (skip_exact true d rest Hc 2 Hd ltac:(lia)) as Hx. change (Z.of_nat 2) with 2 in Hx. unfold mac_reject.
    apply elem_of_cons in Hp as [->|Hp].
    + cbn [app]. rewrite hex_digit_no_prefix by (done || (intros ->; simpl in Hl; lia)). rewrite andb_false_r, orb_false_r. split.
      * rewrite skip_num_plain; [done|]. apply hex_digit_no_prefix; [done| |done]. intros ->. simpl in Hl. lia.
      * apply bool_decide_eq_false. rewrite length_app. lia.
    + rewrite <- app_assoc. destruct (skip_num_prefix p (d ++ rest) 2 Hp) as [-> Hlp]. split; [done|].
      rewrite !length_app. by rewrite !bool_decide_false by lia.
Qed.

Lemma decimal_ok s : string_ok s -> (at_ (skip_num false s (-1)) 0 =? 0) = true <-> digits s.
Proof. intros Hs. change (skip_num false s (-1)) with (skip_digits false (-1) s). rewrite skip_unlimited by lia. by apply drop_class_end. Qed.

Lemma drop_class_all hex s : Forall (fun c => digit_class hex c = true) s -> drop_class hex s = [].
Proof. induction 1 as [|c s Hc _ IH]; [done|]. cbn [drop_class]. by rewrite Hc. Qed.

Lemma hex_ok s : string_ok s ->
  (at_ (skip_num true s (-1)) 0 =? 0) && negb (bool_decide (length s = length (skip_num true s (-1)) + 2)%nat && is_hex_prefix s) = true
  <-> has_type env_flags_vartype_hex s.
Proof.
  intros Hs. change (has_type env_flags_vartype_hex s) with (hex_digits s \/ exists p d, s = p ++ d /\ p ∈ hex_prefixes /\ hex_digits d /\ d <> []).
  destruct (is_hex_prefix s) eqn:Ep.
  - apply hex_prefix_spec in Ep as Hp. destruct Hp as (p & d & -> & Hp). apply Forall_app in Hs as [_ Hs].
    destruct (skip_num_prefix p d (-1) Hp) as [-> Hlp]. rewrite skip_unlimited by lia. rewrite andb_true_r, andb_true_iff, negb_true_iff, (drop_class_end true d Hs). split.
    + intros [Hd Hn]. right. exists p, d. split_and!; [done|done|done|]. intros ->. apply bool_decide_eq_false in Hn. apply Hn. simpl. rewrite app_nil_r. lia.
    + intros [Hh|(p' & d' & E & Hp' & Hd' & Hne)].
      * exfalso. apply Forall_app in Hh as [Hh _]. unfold hex_prefixes in Hp. apply elem_of_cons in Hp as [->|Hp%list_elem_of_singleton]; [|subst p];
          inversion Hh as [|? ? _ Hh']; inversion Hh' as [|? ? Hx _]; by vm_compute in Hx.
      * destruct (skip_num_prefix p' d' 0 Hp') as [_ Hlp']. apply app_inj_1 in E as [<- <-]; [|lia]. split; [done|].
        rewrite (drop_class_all true d Hd'). apply bool_decide_eq_false. rewrite length_app. destruct d; [done|]. simpl. lia.
  - rewrite andb_false_r. cbn [negb]. rewrite andb_true_r, (skip_num_plain s _ Ep), skip_unlimited by lia. rewrite (drop_class_end true s Hs). split; [by left|].
    intros [?|(p & d & E & Hp & _)]; [done|]. rewrite (proj2 (hex_prefix_spec s)) in Ep by eauto. done.
Qed.

Lemma bool_ok s : string_ok s -> bool_decide (at_ s 0 ∈ cstr "1ytYT0nfNF") && (at_ s 1 =? 0) = true <-> exists c, s = [c] /\ c ∈ cstr "1ytYT0nfNF".
Proof.
  intros Hs. rewrite andb_true_iff, bool_decide_eq_true, Z.eqb_eq. split.
  - intros [H0 H1]. destruct s as [|c [|b s]].
    + exfalso. revert H0. unfold at_. cbn [nth]. change (0 ∉ cstr "1ytYT0nfNF"). vm_compute. set_solver by lia.
    + by exists c.
    + exfalso. inversion Hs as [|? ? _ Hs']; inversion Hs' as [|? ? Hb _]; subst. unfold at_ in H1. simpl in H1. lia.
  - intros (c & -> & Hc). done.
Qed.

Lemma validate_type_ok s type : string_ok s -> _env_flags_validate_type s type = true <-> has_type type s.
Proof.
  intros Hs. unfold _env_flags_validate_type.
  destruct (Z.eqb_spec type env_flags_vartype_decimal) as [->|H1]; [by apply decimal_ok|].
  destruct (Z.eqb_spec type env_flags_vartype_hex) as [->|H2]; [by apply hex_ok|].
  destruct (Z.eqb_spec type env_flags_vartype_bool) as [->|H3]; [by apply bool_ok|].
  destruct (Z.eqb_spec type env_flags_vartype_ipaddr) as [->|H4]; [by apply ip_loop_ok|].
  destruct (Z.eqb_spec type env_flags_vartype_macaddr) as [->|H5]; [by apply mac_loop_ok|].
  unfold has_type. apply Z.eqb_neq in H1 as ->, H2 as ->, H3 as ->, H4 as ->, H5 as ->. by rewrite negb_true_iff, Z.eqb_neq.
Qed.

(** ** Values keep their types *)

Definition type_of (e : ENTRY) : Z := ENV_FLAGS_VARTYPE_BIN_MASK .& flags e.
Definition typed_slot (s : _ENTRY) : Prop :=
  0 < used s -> forall k v, key (entry s) = Some k -> data (entry s) = Some v -> _env_flags_validate_type v (type_of (entry s)) = true.

Tactic Notation "typed_bind" simple_intropattern(p) ident(E) :=
  match goal with |- context [res_bind ?x _] => destruct x as [p| |] eqn:E; [|done..]; cbn [res_bind] end.

Section Typed.
Context (gd : list Z -> option (list Z)).

(** The values in the table have the types of their variables; changes are checked. *)
Definition typed (h : hsearch_data) : Prop :=
  change_ok h = Some (env_change_ok gd) /\ forall t, table h = Some t -> Forall typed_slot t.

Lemma allowed_typed e v op flag : env_change_ok gd e (Some v) op flag = false -> op <> env_op_delete ->
  _env_flags_validate_type v (type_of e) = true.
Proof.
  unfold env_change_ok, env_flags_validate, type_of. intros H Hop.
  destruct (_env_flags_validate_type v _); [done|]. by destruct op.
Qed.

Lemma typed_set h i s : typed h -> typed_slot s -> typed (set_slot h i s).
Proof.
  intros [Hc Ht] Hs. split; [done|]. intros t. cbn. destruct (table h) as [t0|] eqn:E; [|done]. intros [= <-].
  by apply Forall_insert; [apply Ht|].
Qed.
Lemma typed_filled h n : typed h -> typed (set_filled h n).
Proof. done. Qed.
Lemma typed_get h i s : typed h -> slot h i = Ok s -> typed_slot s.
Proof.
  intros [_ Ht]. unfold slot. destruct (table h) as [t|]; [|done]. case_match; [done|]. destruct (t !! _) as [s'|] eqn:E; [|done].
  intros [= <-]. by eapply (Forall_lookup_1 _ t); [apply Ht|].
Qed.
Lemma free_typed u e : u <= 0 -> typed_slot {| used := u; entry := e |}.
Proof. intros ? ?. cbn in *. lia. Qed.

Lemma typed_hdelete h i h' : typed h -> _hdelete h i = Ok h' -> typed h'.
Proof.
  intros Hty. unfold _hdelete. destruct (slot h i); [|done..]. cbn [res_bind]. intros [= <-].
  by apply typed_filled, typed_set, free_typed.
Qed.
(** An entry that is refused after it was stored. *)
Lemma typed_undone h i s n h' : typed h -> _hdelete (set_filled (set_slot h i s) n) i = Ok h' -> typed h'.
Proof.
  intros Hty. unfold _hdelete. destruct (slot _ i); [|done..]. cbn [res_bind]. rewrite set_slot_twice. intros [= <-].
  by apply typed_filled, typed_filled, typed_set, free_typed.
Qed.

Context (malloc_ok : list Z -> bool) (cb fl : ENTRY -> ENTRY).
Context (init_keeps : forall e, data (fl (cb e)) = data e).

Lemma typed_compare h k d action flag hval i a h' : typed h ->
  _compare_and_overwrite_entry malloc_ok k d action h flag hval i = Ok (a, h') -> typed h'.
Proof using Type.
  intros Hty. unfold _compare_and_overwrite_entry. destruct (slot h i) as [s| |] eqn:Es; [|done..]. cbn [res_bind].
  destruct (u32 (used s) =? hval); [|by intros [= _ <-]]. destruct (key (entry s)) as [k'|]; [|done]. cbn [res_of_option res_bind].
  destruct (streq k k'); [|by intros [= _ <-]]. destruct action; [by intros [= _ <-]|]. destruct d as [d|]; [|by intros [= _ <-]].
  rewrite (proj1 Hty). destruct (env_change_ok gd (entry s) (Some d) env_op_overwrite flag) eqn:Ec; [by intros [= _ <-]|].
  split_if E2; [by intros [= _ <-]|]. cbv zeta. unfold strdup. intros E.
  assert (typed (set_slot h i {| used := used s; entry := {| key := Some k'; data := if malloc_ok d then Some d else None;
    callback := callback (entry s); flags := flags (entry s) |} |})) as Hn.
  { apply typed_set; [done|]. intros Hu k0 v _ Ev. cbn in Ev. destruct (malloc_ok d); [|done]. injection Ev as <-.
    exact (allowed_typed _ _ _ _ Ec ltac:(done)). }
  destruct (malloc_ok d); by injection E as _ <-.
Qed.

Lemma typed_probe n : forall h k d action flag hval hval2 i r, typed h ->
  probe_loop malloc_ok n k d action h flag hval hval2 i = Ok r -> match r with inr (_, h') => typed h' | inl _ => True end.
Proof using Type.
  induction n as [|n IH]; intros h k d action flag hval hval2 i r Hty; cbn [probe_loop]; [done|]. cbv zeta.
  match goal with |- context [ _compare_and_overwrite_entry _ _ _ _ _ _ _ ?x ] => generalize x; intros i' end.
  destruct (i' =? hval); [by intros [= <-]|]. destruct (_compare_and_overwrite_entry _ _ _ _ _ _ _ _) as [[a h1]| |] eqn:Ec; [|done..].
  cbn [res_bind]. pose proof (typed_compare _ _ _ _ _ _ _ _ _ Hty Ec) as Hty1. split_if E2; [by intros [= <-]|].
  destruct (slot h1 i') as [s| |]; [|done..]. cbn [res_bind]. split_if E3; [by apply IH|by intros [= <-]].
Qed.

Lemma typed_enter h k d action flag hval fd i a h' : typed h ->
  enter_new malloc_ok cb fl k d action h flag hval fd i = Ok (a, h') -> typed h'.
Proof.
  intros Hty. unfold enter_new. destruct action; [by intros [= _ <-]|]. split_if E1; [by intros [= _ <-]|]. cbv zeta.
  match goal with |- context [ slot _ ?x ] => generalize x; intros i' end. destruct d as [d|]; [|done]. cbn [res_of_option res_bind].
  destruct (slot h i') as [s| |]; [|done..]. cbn [res_bind]. unfold strdup. split_if E2.
  { intros [= _ <-]. apply typed_set; [done|]. intros _ k0 v Ek Ev. cbn in Ek, Ev. destruct (malloc_ok k); [|done]. by destruct (malloc_ok d). }
  apply orb_false_iff in E2 as [Ek Ed]. destruct (malloc_ok k); [|done]. destruct (malloc_ok d); [|done]. cbn [change_ok set_slot set_filled].
  rewrite (proj1 Hty). set (new := fl (cb _)).
  destruct (env_change_ok gd new (Some d) env_op_create flag) eqn:Ec; [|split_if E3].
  1,2: rewrite set_slot_twice; destruct (_hdelete _ _) as [h1| |] eqn:Eh; [|done..]; cbn [res_bind]; intros [= _ <-]; by eapply typed_undone.
  intros [= _ <-]. rewrite set_slot_twice. apply typed_filled, typed_set; [done|]. intros _ k0 v _ Ev. cbn in Ev. unfold new in Ev. rewrite init_keeps in Ev.
  injection Ev as <-. exact (allowed_typed _ _ _ _ Ec ltac:(done)).
Qed.

Lemma typed_search h k d action flag a h' : typed h -> hsearch_r malloc_ok cb fl k d action h flag = Ok (a, h') -> typed h'.
Proof.
  intros Hty. unfold hsearch_r. split_if E1; [done|]. cbv zeta. destruct (slot h _) as [s| |]; [|done..]. cbn [res_bind].
  split_if E2; [|by apply typed_enter]. destruct (_compare_and_overwrite_entry _ _ _ _ _ _ _ _) as [[a1 h1]| |] eqn:Ec; [|done..].
  cbn [res_bind]. pose proof (typed_compare _ _ _ _ _ _ _ _ _ Hty Ec) as Hty1. split_if E3; [by intros [= _ <-]|]. split_if E4; [done|].
  destruct (probe_loop _ _ _ _ _ _ _ _ _ _) as [r| |] eqn:Ep; [|done..]. cbn [res_bind]. apply typed_probe in Ep; [|done].
  destruct r as [i|[a2 h2]]; [by apply typed_enter|by intros [= _ <-]].
Qed.

Lemma typed_delete h k flag r err h' : typed h -> hdelete_r malloc_ok cb fl k h flag = Ok (r, err, h') -> typed h'.
Proof.
  intros Hty. unfold hdelete_r. destruct (hsearch_r _ _ _ _ _ _ _ _) as [[a h1]| |] eqn:E; [|done..]. apply typed_search in E; [|done].
  cbn [res_bind]. split_if E1; [by intros [= _ _ <-]|]. destruct (slot h1 _) as [s| |]; [|done..]. cbn [res_bind].
  split_if E2; [by intros [= _ _ <-]|]. split_if E3; [by intros [= _ _ <-]|].
  destruct (_hdelete h1 _) as [h2| |] eqn:Eh; [|done..]. cbn [res_bind]. intros [= _ _ <-]. by eapply typed_hdelete.
Qed.

Lemma typed_import_loop n : forall sep flag dp h vars err h' vars', typed h ->
  import_loop malloc_ok cb fl n sep flag dp h vars = Ok (err, h', vars') -> typed h'.
Proof.
  induction n as [|n IH]; intros sep flag dp h vars err h' vars' Hty; cbn [import_loop]; [done|]. cbv zeta.
  assert (forall dp h vars, typed h -> match dp with [] => Ok (None, h, vars)
    | c :: _ => if negb (c =? 0) then import_loop malloc_ok cb fl n sep flag dp h vars else Ok (None, h, vars) end = Ok (err, h', vars') -> typed h') as Hnext.
  { intros [|c dp'] h0 vars0 H0; [by intros [= _ <- _]|]. split_if E; [by apply IH|by intros [= _ <- _]]. }
  clear IH. typed_bind ? E1. typed_bind ? E2. split_if E3; [typed_bind ? E4; by apply Hnext|]. typed_bind [name dp1] E4.
  typed_bind ? E5. typed_bind ? E6. split_if E7.
  - destruct (drop_var_from_set _ _) as [listed vars1]. split_if E8; [by apply Hnext|]. typed_bind [[r0 err0] h1] E9. apply Hnext. by eapply typed_delete.
  - typed_bind [value dp2] E8. split_if E9; [by intros [= _ <- _]|]. destruct (drop_var_from_set _ _) as [listed vars1].
    split_if E10; [by apply Hnext|]. typed_bind [ans h1] E11. apply Hnext. by eapply typed_search.
Qed.

Lemma typed_rest vars : forall h flag h', typed h -> delete_rest malloc_ok cb fl vars h flag = Ok h' -> typed h'.
Proof.
  induction vars as [|[v|] vars IH]; intros h flag h' Hty; cbn [delete_rest]; [by intros [= <-]| |by apply IH].
  typed_bind [[r0 err0] h1] E. apply IH. by eapply typed_delete.
Qed.

Context (calloc_ok : Z -> bool).

Lemma typed_create nel h r h' : typed h -> hcreate_r calloc_ok nel h = Ok (r, h') -> typed h'.
Proof using Type.
  intros [Hc Ht]. unfold hcreate_r. destruct (table h) eqn:E; [intros [= _ <-]; split; [done|]; intros t; rewrite E; apply Ht|]. cbv zeta.
  typed_bind ? E1. split_if E2; intros [= _ <-]; (split; [done|]); [|done]. intros t [= <-]. apply Forall_replicate. by apply free_typed.
Qed.

Lemma typed_import h env sz sep flag vars r err h' : typed h ->
  himport_r malloc_ok calloc_ok cb fl h env sz sep flag vars = Ok (r, err, h') -> typed h'.
Proof.
  intros Hty. unfold himport_r. split_if E1; [by intros [= _ _ <-]|]. case_match; [|done]. cbv zeta.
  assert (typed (if tst flag H_NOCLEAR then h else match table h with Some _ => hdestroy_r h | None => h end)) as H1.
  { split_if E2; [done|]. destruct (table h); [|done]. split; [apply Hty|done]. }
  revert H1. generalize (if tst flag H_NOCLEAR then h else match table h with Some _ => hdestroy_r h | None => h end). intros h1 H1.
  typed_bind [created h0] E3. assert (typed h0) as H0.
  { destruct (table h1); [by injection E3 as _ <-|]. by eapply typed_create. }
  split_if E4; [by intros [= _ _ <-]|]. typed_bind [[err0 h2] vars2] E5. apply typed_import_loop in E5; [|done]. destruct err0; [by intros [= _ _ <-]|].
  typed_bind ? E6. intros [= _ _ <-]. by eapply typed_rest.
Qed.
End Typed.

(** ** The states of the environment table *)

(** One call on the table, with any arguments, by which variables are searched, entered, deleted or imported.
    The lists of callbacks and flags, and the byte in front of them, are fixed. *)
Section Steps.
Context (gd : list Z -> option (list Z)) (before : Z) (tbl : list env_clbk_tbl) (callback_list flags_list : option (list Z)).
Context (malloc_ok : list Z -> bool) (calloc_ok : Z -> bool).
Let cb := run_init (env_callback_init before tbl callback_list).
Let fl := run_init (env_flags_init before flags_list).

Inductive env_step : hsearch_data -> hsearch_data -> Prop :=
  | step_search h k d action flag a h' : hsearch_r malloc_ok cb fl k d action h flag = Ok (a, h') -> env_step h h'
  | step_delete h k flag r err h' : hdelete_r malloc_ok cb fl k h flag = Ok (r, err, h') -> env_step h h'
  | step_import h env sz sep flag vars r err h' :
      himport_r malloc_ok calloc_ok cb fl h env sz sep flag vars = Ok (r, err, h') -> env_step h h'.

Lemma init_keeps e : key (fl (cb e)) = key e /\ data (fl (cb e)) = data e.
Proof using Type.
  assert (forall e, key (fl e) = key e /\ data (fl e) = data e) as Hfl.
  { intros e0. unfold fl, run_init, env_flags_init. destruct (res_bind _ _) as [e'| |] eqn:E; [|done..]. revert E.
    typed_bind ? E1. typed_bind [? ?] E2. repeat case_match; by intros [= <-]. }
  rewrite (proj1 (Hfl (cb e))), (proj2 (Hfl (cb e))). unfold cb, run_init, env_callback_init. destruct (res_bind _ _) as [e'| |] eqn:E; [|done..]. revert E.
  typed_bind ? E1. typed_bind [? ?] E2. typed_bind [? ?] E3. repeat case_match; by intros [= <-].
Qed.
Lemma init_data e : data (fl (cb e)) = data e.
Proof using Type. apply init_keeps. Qed.

Lemma step_typed h h' : env_step h h' -> typed gd h -> typed gd h'.
Proof using Type.
  destruct 1 as [h k d action flag a h' E|h k flag r err h' E|h env sz sep flag vars r err h' E]; intros Hty.
  - eapply typed_search; eauto using init_data.
  - eapply typed_delete; eauto using init_data.
  - eapply typed_import; eauto using init_data.
Qed.

Lemma htab_typed : typed gd (env_htab gd).
Proof. done. Qed.

Lemma steps_typed h h' : rtc env_step h h' -> typed gd h -> typed gd h'.
Proof using Type. induction 1; eauto using step_typed. Qed.
End Steps.

(** ** The theorems *)

(** The values a type accepts are a grammar: a decimal number is any string of digits, the empty one too; a
    hexadecimal number is digits, or digits behind a prefix, at least one; a boolean is one of ten letters; an IP
    address is four numbers of one to three digits with dots between them; a MAC address is six bytes of one or
    two hexadecimal digits with colons, each with or without a prefix; a string is anything. *)
Theorem validate_type_is_grammar s type : string_ok s -> _env_flags_validate_type s type = true <-> has_type type s.
Proof. apply validate_type_ok. Qed.

Lemma validate_type_is_grammar_witness :
  has_type env_flags_vartype_macaddr (cstr "0:1a:0x2B:3:4:5") /\ ~ has_type env_flags_vartype_ipaddr (cstr "10.0.0").
Proof.
  split.
  - apply (validate_type_is_grammar (cstr "0:1a:0x2B:3:4:5") env_flags_vartype_macaddr); [repeat constructor|reflexivity].
  - intros H. apply (validate_type_is_grammar (cstr "10.0.0") env_flags_vartype_ipaddr) in H; [discriminate H|repeat constructor].
Defined.

(** C10: starting from the empty table of the environment, whatever is searched, entered, deleted or imported, with
    force or without, with memory or without, every value of a variable in the table has the type its flags
    name.  (A change of .flags is not among the steps: it gives a variable a type its value may not have.) *)
Theorem reachable_values_typed gd before tbl callback_list flags_list malloc_ok calloc_ok h t s k v :
  rtc (env_step before tbl callback_list flags_list malloc_ok calloc_ok) (env_htab gd) h ->
  table h = Some t -> s ∈ t -> 0 < used s -> key (entry s) = Some k -> data (entry s) = Some v -> string_ok v ->
  has_type (type_of (entry s)) v.
Proof.
  intros Hr Ht Hs Hu Hk Hd Hv. apply validate_type_ok; [done|].
  destruct (steps_typed gd _ _ _ _ _ _ _ _ Hr (htab_typed gd)) as [_ Hty]. specialize (Hty t Ht).
  by eapply (Forall_forall typed_slot t).
Qed.

Definition mac_text : list Z := cstr "ethaddr=0:1:2:3:4:5" ++ [0; 0].
Definition mac_state : res (Z * option Z * hsearch_data) :=
  himport_r (fun _ => true) (fun _ => true) (run_init (env_callback_init 0 [] None)) (run_init (env_flags_init 0 None))
    (env_htab (fun _ => None)) mac_text 21 0 0 [].
Definition mac_h : hsearch_data := match mac_state with Ok (_, _, h) => h | _ => env_htab (fun _ => None) end.
Definition mac_table : list _ENTRY := match table mac_h with Some t => t | None => [] end.
Definition mac_slot : _ENTRY := nth 38 mac_table {| used := 0; entry := no_entry |}.

Lemma mac_state_ok : mac_state = Ok (1, None, mac_h).
Proof.
  assert (match mac_state with Ok (r, err, _) => Some (r, err) | _ => None end = Some (1, None)) as H by (vm_compute; reflexivity).
  unfold mac_h. destruct mac_state as [[[r err] h]| |]; [|done..]. by injection H as -> ->.
Qed.
Lemma mac_slot_in : mac_slot ∈ mac_table.
Proof. apply list_elem_of_lookup. exists 38%nat. vm_compute. reflexivity. Qed.

Lemma reachable_values_typed_witness :
  type_of (entry mac_slot) = env_flags_vartype_macaddr /\ has_type (type_of (entry mac_slot)) (cstr "0:1:2:3:4:5").
Proof.
  split; [vm_compute; reflexivity|].
  refine (reachable_values_typed (fun _ => None) 0 [] None None (fun _ => true) (fun _ => true) mac_h mac_table mac_slot
    (cstr "ethaddr") (cstr "0:1:2:3:4:5") _ _ mac_slot_in _ _ _ _); [|vm_compute; reflexivity..|repeat constructor].
  apply rtc_once. apply step_import with (env := mac_text) (sz := 21) (sep := 0) (flag := 0) (vars := []) (r := 1) (err := None).
  exact mac_state_ok.
Defined.

(** A change of the flags is not checked against the value: a name with a value that is no number becomes decimal. *)
Example flags_change_untyped :
  (let* (_, h) := hsearch_r (fun _ => true) id id (cstr "n") (Some (cstr "abc")) ENTER empty_67 0 in
   let* (_, h) := set_flags (fun _ => true) (cstr "n") (Some (cstr "d")) h in
   let* (a, h) := hsearch_r (fun _ => true) id id (cstr "n") None FIND h 0 in
   let* s := slot h (ret a) in
   Ok (data (entry s), type_of (entry s), _env_flags_validate_type (cstr "abc") (type_of (entry s)))) =
  Ok (Some (cstr "abc"), env_flags_vartype_decimal, false).
Proof. vm_compute. reflexivity. Qed.

(** *** Protection *)

Section Protect.
Context (gd : list Z -> option (list Z)) (malloc_ok : list Z -> bool) (cb fl : ENTRY -> ENTRY).

Lemma refuse_overwrite h k en x flag : change_ok h = Some (env_change_ok gd) -> tst flag H_FORCE = false ->
  tst (flags en) ENV_FLAGS_VARACCESS_PREVENT_OVERWR = true -> refusal h k en (Some x) env_op_overwrite flag = Some EPERM.
Proof.
  intros Hc Hf Hp. unfold refusal. rewrite Hc. unfold env_change_ok, env_flags_validate.
  destruct (_env_flags_validate_type _ _); cbn [negb]; [|done]. by rewrite Hf, Hp.
Qed.
Lemma refuse_delete h k en flag : change_ok h = Some (env_change_ok gd) -> tst flag H_FORCE = false ->
  tst (flags en) ENV_FLAGS_VARACCESS_PREVENT_DELETE = true -> refusal h k en None env_op_delete flag = Some EPERM.
Proof. intros Hc Hf Hp. unfold refusal. rewrite Hc. unfold env_change_ok, env_flags_validate. by rewrite Hf, Hp. Qed.
End Protect.

(** A variable whose flags forbid it is not overwritten and not deleted unless the change is forced: both
    calls fail with [EPERM] and leave the table as it is. *)
Theorem protected_variable_stays gd malloc_ok cb fl h m k v i en flag :
  represents h m -> change_ok h = Some (env_change_ok gd) -> stored h k v i en -> string_ok k -> m !! k = Some v ->
  tst flag H_FORCE = false ->
  (tst (flags en) ENV_FLAGS_VARACCESS_PREVENT_OVERWR = true -> forall x, malloc_ok x = true ->
     hsearch_r malloc_ok cb fl k (Some x) ENTER h flag = Ok (fails EPERM, h)) /\
  (tst (flags en) ENV_FLAGS_VARACCESS_PREVENT_DELETE = true -> hdelete_r malloc_ok cb fl k h flag = Ok (0, Some EPERM, h)).
Proof.
  intros Hrep Hc Hst Hk Hm Hf. split.
  - intros Hp x Hx. destruct (overwrite_ok malloc_ok cb fl h m k v x flag Hrep Hk Hx Hm) as (a & h' & -> & i' & en' & Hst' & Hr).
    destruct (stored_unique h m k v i en v i' en' Hrep Hst Hst') as (_ & _ & <-). rewrite (refuse_overwrite gd) in Hr by done. by destruct Hr as [-> ->].
  - intros Hp. destruct (delete_ok malloc_ok cb fl h m k flag Hrep Hk) as (r & err & h' & -> & Hr). rewrite Hm in Hr.
    destruct Hr as (i' & en' & Hst' & Hr). destruct (stored_unique h m k v i en v i' en' Hrep Hst Hst') as (_ & _ & <-).
    rewrite (refuse_delete gd) in Hr by done. by destruct Hr as (-> & -> & ->).
Qed.

(** A table with a write-once variable. *)
Definition once_list : option (list Z) := Some (cstr "serial:so").
Definition once_fl : ENTRY -> ENTRY := run_init (env_flags_init 0 once_list).
Definition once_cb : ENTRY -> ENTRY := run_init (env_callback_init 0 [] None).
Definition once_0 : hsearch_data := match hcreate_r (fun _ => true) 66 (env_htab (fun _ => None)) with Ok (_, h) => h | _ => plain_table end.
Definition once_h : hsearch_data :=
  match hsearch_r (fun _ => true) once_cb once_fl (cstr "serial") (Some (cstr "7")) ENTER once_0 0 with Ok (_, h) => h | _ => plain_table end.

Lemma once_ok : represents once_h {[cstr "serial" := cstr "7"]} /\ change_ok once_h = Some (env_change_ok (fun _ => None)).
Proof.
  destruct (hcreate_ok (fun _ => true) (env_htab (fun _ => None)) 66) as (h0 & E0 & Hrep & Hfree & _ & _ & Hc & _); [done|lia|done|].
  assert (once_0 = h0) as H0 by (unfold once_0; by rewrite E0). rewrite <- H0 in *.
  destruct (enter_ok (fun _ => true) once_cb once_fl (init_keeps 0 [] None once_list) once_0 ∅ (cstr "serial") (cstr "7") 0)
    as (a & h' & E & Hr); [done|done|by repeat constructor|done..|].
  assert (once_h = h') as -> by (unfold once_h; by rewrite E).
  assert (refusal once_0 (cstr "serial") (once_fl (once_cb (fresh (cstr "serial") (cstr "7")))) (Some (cstr "7")) env_op_create 0 = None) as Hn
    by (vm_compute; reflexivity). rewrite Hn in Hr. destruct Hr as (_ & Hr & _ & _ & Hc' & _). split; [exact Hr|]. by rewrite Hc', Hc.
Qed.

Definition once_slot : Z := match hsearch_r (fun _ => true) id id (cstr "serial") None FIND once_h 0 with Ok (a, _) => ret a | _ => 0 end.
Definition once_entry : ENTRY :=
  match slot once_h once_slot with Ok s => entry s | _ => no_entry end.
Lemma stored_eval h k v i :
  match table h with Some t => fmap (fun s => (0 <? used s, key (entry s), data (entry s))) (t !! Z.to_nat i) | None => None end = Some (true, Some k, Some v) ->
  1 <= i <= size h -> stored h k v i (match slot h i with Ok s => entry s | _ => no_entry end).
Proof.
  intros He Hi. unfold slot. destruct (table h) as [t|] eqn:Et; [|done]. rewrite (proj2 (Z.ltb_ge i 0)) by lia.
  destruct (t !! Z.to_nat i) as [[u en]|] eqn:El; [|done]. cbn in *. injection He as Hu Hk Hv. exists t, u. split_and!; (done || lia).
Qed.
Lemma once_stored : stored once_h (cstr "serial") (cstr "7") once_slot once_entry.
Proof. apply stored_eval; vm_compute; [reflexivity|split; discriminate]. Qed.

Lemma protected_variable_stays_witness :
  hsearch_r (fun _ => true) once_cb once_fl (cstr "serial") (Some (cstr "8")) ENTER once_h 0 = Ok (fails EPERM, once_h) /\
  hdelete_r (fun _ => true) once_cb once_fl (cstr "serial") once_h 0 = Ok (0, Some EPERM, once_h).
Proof.
  destruct (protected_variable_stays (fun _ => None) (fun _ => true) once_cb once_fl once_h {[cstr "serial" := cstr "7"]} (cstr "serial") (cstr "7")
    once_slot once_entry 0 (proj1 once_ok) (proj2 once_ok) once_stored) as [Ho Hd]; [by repeat constructor|apply lookup_singleton_eq|reflexivity|].
  split; [apply Ho; [vm_compute; reflexivity|reflexivity]|apply Hd; vm_compute; reflexivity].
Defined.
