(* ===== verification/Env.v ===== *)
(** * The environment ([common/env_common.c], [common/cmd_nvedit.c])

    Variables are read and set through the hash table once the environment has been imported; before that
    they are read from the image in memory, or from the default environment.  Strings are the bytes before
    their NUL, the default environment and the image are all their bytes. *)
From S2P Require Import Prelude Ctype Cstring CstrProps Crc Vsprintf Hashtable HashProps Qsort EnvText EnvFlags.

Definition GD_FLG_RELOC : Z := 0x1.
Definition GD_FLG_ENV_READY : Z := 0x80.
Definition CONFIG_ENV_SIZE : Z := 128 * 1024.
Definition ENV_HEADER_SIZE : Z := 4.
Definition ENV_SIZE : Z := CONFIG_ENV_SIZE - ENV_HEADER_SIZE.
Definition CMD_RET_USAGE : Z := -1.

(** [env_t] without a redundant copy; the data are [ENV_SIZE] bytes. *)
Record env_t := { crc : Z; env_data : list Z }.

(** What the global data and the static variables of the environment hold: the table, [gd->flags],
    [gd->env_valid], the bytes at [gd->env_addr], and [env_id]. *)
Record env_state := {
  htab : hsearch_data;
  gd_flags : Z;
  env_valid : Z;
  env_addr : list Z;
  env_id : Z
}.

Definition set_htab (h : hsearch_data) (w : env_state) : env_state :=
  {| htab := h; gd_flags := gd_flags w; env_valid := env_valid w; env_addr := env_addr w; env_id := env_id w |}.
Definition set_gd_flags (f : Z) (w : env_state) : env_state :=
  {| htab := htab w; gd_flags := f; env_valid := env_valid w; env_addr := env_addr w; env_id := env_id w |}.
Definition set_env_valid (v : Z) (w : env_state) : env_state :=
  {| htab := htab w; gd_flags := gd_flags w; env_valid := v; env_addr := env_addr w; env_id := env_id w |}.
Definition next_env_id (w : env_state) : env_state :=
  {| htab := htab w; gd_flags := gd_flags w; env_valid := env_valid w; env_addr := env_addr w; env_id := s32 (env_id w + 1) |}.

Section Environment.
(** Memory, the initialisation of new entries, and the default environment of the board. *)
Context (malloc_ok : list Z -> bool) (calloc_ok : Z -> bool) (env_callback_init env_flags_init : ENTRY -> ENTRY).
Context (default_environment : list Z).

(** ** The image in memory *)

Definition byte_at (l : list Z) (index : Z) : res Z := if index <? 0 then Ub else res_of_option (l !! Z.to_nat index).

Definition env_get_char_spec (w : env_state) (index : Z) : res Z := byte_at (env_addr w) index.
Definition env_get_char_init (w : env_state) (index : Z) : res Z :=
  if negb (env_valid w =? 0) then env_get_char_spec w index else byte_at default_environment index.
(** The array a pointer points into. *)
Definition env_get_addr (w : env_state) : list Z := if negb (env_valid w =? 0) then env_addr w else default_environment.
Definition env_get_char_memory (w : env_state) (index : Z) : res Z := byte_at (env_get_addr w) index.
Definition env_get_char (w : env_state) (index : Z) : res Z :=
  if tst (gd_flags w) GD_FLG_RELOC then env_get_char_memory w index else env_get_char_init w index.

(** The index of the value, or -1.  Reading past the NUL of the name is undefined. *)
Fixpoint envmatch (w : env_state) (s1 : list Z) (i2 : Z) : res Z :=
  let* e := env_get_char w i2 in
  match s1 with
  | [] => if e =? 0 then Ub else if e =? 0x3D then Ok (i2 + 1) else Ok (-1)
  | c :: s1 => if c =? e then if c =? 0x3D then Ok (i2 + 1) else envmatch w s1 (i2 + 1) else Ok (-1)
  end.

(** To the NUL of an entry; [None] past the end of the environment. *)
Fixpoint end_loop (n : nat) (w : env_state) (nxt : Z) : res (option Z) :=
  match n with
  | O => Hang
  | S n =>
    let* c := env_get_char w nxt in
    if c =? 0 then Ok (Some nxt) else if CONFIG_ENV_SIZE <=? nxt then Ok None else end_loop n w (nxt + 1)
  end.

(** The string in the buffer of [len] bytes. *)
Fixpoint copy_out (len : nat) (w : env_state) (val n : Z) (buf : list Z) : res (Z * list Z) :=
  match len with
  | O => Ok (n, take (length buf - 1) buf)
  | S len =>
    let* c := env_get_char w val in
    if c =? 0 then Ok (n, buf) else copy_out len w (val + 1) (n + 1) (buf ++ [c])
  end.

Fixpoint entries_loop (n : nat) (w : env_state) (name : list Z) (len : nat) (i : Z) : res (Z * list Z) :=
  match n with
  | O => Hang
  | S n =>
    let* c := env_get_char w i in
    if c =? 0 then Ok (-1, [])
    else
      let* nxt := end_loop (S (Z.to_nat CONFIG_ENV_SIZE)) w i in
      match nxt with
      | None => Ok (-1, [])
      | Some nxt =>
        let* val := envmatch w name i in
        if val <? 0 then entries_loop n w name len (nxt + 1) else copy_out len w val 0 []
      end
  end.
Definition getenv_f (w : env_state) (name : list Z) (len : nat) : res (Z * list Z) :=
  entries_loop (S (Z.to_nat CONFIG_ENV_SIZE)) w name len 0.

(** ** Reading variables *)

Definition env_buf_size : nat := 32.

Definition getenv (w : env_state) (name : list Z) : res (option (list Z)) :=
  if tst (gd_flags w) GD_FLG_ENV_READY then
    let* (a, h) := hsearch_r malloc_ok env_callback_init env_flags_init name None FIND (htab w) 0 in
    match retval a with
    | None => Ok None
    | Some ep => let* e := slot h ep in Ok (data (entry e))
    end
  else
    let* (r, buf) := getenv_f w name env_buf_size in
    Ok (if 0 <? r then Some buf else None).

Definition getenv_yesno (w : env_state) (var : list Z) : res Z :=
  let* s := getenv w var in
  match s with
  | None => Ok (-1)
  | Some s => Ok (if bool_decide (at_ s 0 ∈ cstr "1yYtT") then 1 else 0)
  end.

Definition getenv_ulong (w : env_state) (name : list Z) (base default_val : Z) : res Z :=
  let* str := getenv w name in
  match str with Some s => Ok (fst (simple_strtoul s base)) | None => Ok default_val end.

Definition getenv_hex (w : env_state) (varname : list Z) (default_val : Z) : res Z :=
  let* s := getenv w varname in
  match s with
  | None => Ok default_val
  | Some s =>
    let '(value, endp) := simple_strtoul s 16 in
    if bool_decide (length endp = length s) then Ok default_val else Ok value
  end.

(** The variable in the default environment. *)
Definition getenv_default (w : env_state) (name : list Z) : res (option (list Z)) :=
  getenv (set_env_valid 0 (set_gd_flags (Z.land (gd_flags w) (Z.lnot GD_FLG_ENV_READY)) w)) name.

(** ** Setting variables *)

(** The letters of an option behind its dash. *)
Fixpoint option_letters (arg : list Z) (env_flag : Z) : option Z :=
  match arg with
  | [] => Some env_flag
  | c :: arg => if c =? 0x66 then option_letters arg (env_flag .| H_FORCE) else None
  end.

(** [argv] from its second string on, and how many of them [argc] counts; [None] in the result is a usage error. *)
Fixpoint options_loop (argv : list (option (list Z))) (argc : Z) (env_flag : Z) : res (option (list (option (list Z)) * Z * Z)) :=
  if 1 <? argc then
    match argv with
    | Some (c :: arg) :: argv' =>
      if c =? 0x2D then
        match option_letters arg env_flag with
        | Some f => options_loop argv' (argc - 1) f
        | None => Ok None
        end
      else Ok (Some (argv, argc, env_flag))
    | Some [] :: _ => Ok (Some (argv, argc, env_flag))
    | _ => Ub
    end
  else Ok (Some (argv, argc, env_flag)).

(** The words with a space between them. *)
Fixpoint words (args : list (option (list Z))) : res (list Z) :=
  match args with
  | [] => Ok []
  | [a] => res_of_option a
  | a :: args => let* a := res_of_option a in let* s := words args in Ok (a ++ 0x20 :: s)
  end.

(** [argv] without its first string. *)
Definition _do_env_set (argc : Z) (argv : list (option (list Z))) (w : env_state) : res (Z * env_state) :=
  let* o := options_loop argv argc H_INTERACTIVE in
  match o with
  | None => Ok (CMD_RET_USAGE, w)
  | Some (argv, argc, env_flag) =>
    let* name := res_of_option (argv !! 0%nat ≫= id) in
    if bool_decide (0x3D ∈ name) then Ok (1, w)
    else
      let w := next_env_id w in
      if (argc <? 3) || match argv !! 1%nat with Some None => true | _ => false end then
        let* (rc, _, h) := hdelete_r malloc_ok env_callback_init env_flags_init name (htab w) env_flag in
        Ok (if rc =? 0 then 1 else 0, set_htab h w)
      else
        let* value := words (take (Z.to_nat argc - 2) (drop 1 argv)) in
        if negb (calloc_ok (Z.of_nat (length value) + 1)) then Ok (1, w)
        else
          let* (a, h) := hsearch_r malloc_ok env_callback_init env_flags_init name (Some value) ENTER (htab w) env_flag in
          Ok (match retval a with Some _ => 0 | None => 1 end, set_htab h w)
  end.

(** [argv] of [setenv] ends in a NULL. *)
Definition setenv (varname : list Z) (varvalue : option (list Z)) (w : env_state) : res (Z * env_state) :=
  if negb (tst (gd_flags w) GD_FLG_ENV_READY) then Ok (1, w)
  else
    let argv := [Some varname; varvalue; None] in
    match varvalue with
    | None | Some [] => _do_env_set 2 argv w
    | _ => _do_env_set 3 argv w
    end.

Definition setenv_ulong (varname : list Z) (value : Z) (w : env_state) : res (Z * env_state) :=
  let* str := simple_itoa value in setenv varname (Some str) w.

(** The text is written into a buffer of 17 bytes. *)
Definition setenv_hex (varname : list Z) (value : Z) (w : env_state) : res (Z * env_state) :=
  let* (str, _) := text_of (cstr "%lx") [VInt value] in
  if decide (length str < 17)%nat then setenv varname (Some str) w else Ub.

Definition do_env_set (argc : Z) (argv : list (option (list Z))) (w : env_state) : res (Z * env_state) :=
  if argc <? 2 then Ok (CMD_RET_USAGE, w) else _do_env_set argc argv w.

(** The names behind the options; the result is 1 if one could not be deleted. *)
Fixpoint delete_loop (names : list (option (list Z))) (env_flag ret : Z) (w : env_state) : res (Z * env_state) :=
  match names with
  | [] => Ok (ret, w)
  | name :: names =>
    let* name := res_of_option name in
    let* (rc, _, h) := hdelete_r malloc_ok env_callback_init env_flags_init name (htab w) env_flag in
    delete_loop names env_flag (if rc =? 0 then 1 else ret) (set_htab h w)
  end.
Definition do_env_delete (argc : Z) (argv : list (option (list Z))) (w : env_state) : res (Z * env_state) :=
  let* o := options_loop argv argc H_INTERACTIVE in
  match o with
  | None => Ok (CMD_RET_USAGE, w)
  | Some (argv, argc, env_flag) => delete_loop (take (Z.to_nat argc - 1) argv) env_flag 0 (next_env_id w)
  end.

(** ** The default environment and images *)

(** [None] for no message; a message that starts with an exclamation mark is a warning. *)
Definition set_default_env (s : option (list Z)) (w : env_state) : res env_state :=
  if ENV_SIZE <? Z.of_nat (length default_environment) then Ok w
  else
    let flags := match s with Some s => if at_ s 0 =? 0x21 then 0 else H_INTERACTIVE | None => 0 end in
    let* (_, _, h) := himport_r malloc_ok calloc_ok env_callback_init env_flags_init (htab w) default_environment
                        (Z.of_nat (length default_environment)) 0 flags [] in
    Ok (set_gd_flags (gd_flags w .| GD_FLG_ENV_READY) (set_htab h w)).

Definition set_default_vars (vars : list (list Z)) (w : env_state) : res (Z * env_state) :=
  let* (r, _, h) := himport_r malloc_ok calloc_ok env_callback_init env_flags_init (htab w) default_environment
                      (Z.of_nat (length default_environment)) 0 (H_NOCLEAR .| H_INTERACTIVE) vars in
  Ok (r, set_htab h w).

(** [addr] is the address of the data in memory. *)
Definition env_import (addr : Z) (ep : env_t) (check : bool) (w : env_state) : res (Z * env_state) :=
  if check && negb (crc32 0 addr (env_data ep) =? crc ep)
  then let* w := set_default_env (Some (cstr "!bad CRC")) w in Ok (0, w)
  else
    let* (r, _, h) := himport_r malloc_ok calloc_ok env_callback_init env_flags_init (htab w) (env_data ep) ENV_SIZE 0 0 [] in
    let w := set_htab h w in
    if negb (r =? 0) then Ok (1, set_gd_flags (gd_flags w .| GD_FLG_ENV_READY) w)
    else let* w := set_default_env (Some (cstr "!import failed")) w in Ok (0, w).

(** [env_relocate_spec] belongs to the storage of the environment. *)
Definition env_relocate (env_relocate_spec : env_state -> res env_state) (w : env_state) : res env_state :=
  if env_valid w =? 0 then set_default_env (Some (cstr "!bad CRC")) w else env_relocate_spec w.

(** The options of [env default]: whether all variables are meant, the flags, and the arguments left. *)
Fixpoint default_letters (arg : list Z) (all : bool) (flag : Z) : option (bool * Z) :=
  match arg with
  | [] => Some (all, flag)
  | c :: arg =>
    if c =? 0x61 then default_letters arg true flag
    else if c =? 0x66 then default_letters arg all (flag .| H_FORCE)
    else None
  end.
Fixpoint default_options (args : list (list Z)) (all : bool) (flag : Z) : option (bool * Z * list (list Z)) :=
  match args with
  | (c :: arg) :: args' =>
    if c =? 0x2D then
      match default_letters arg all flag with Some (all, flag) => default_options args' all flag | None => None end
    else Some (all, flag, args)
  | _ => Some (all, flag, args)
  end.
(** [args] are the arguments without the name of the command.  The flags are not used; [cmd_usage] returns 1. *)
Definition do_env_default (args : list (list Z)) (w : env_state) : res (Z * env_state) :=
  match default_options args false 0 with
  | None => Ok (1, w)
  | Some (all, flag, args) =>
    if all && bool_decide (args = []) then
      let* w := set_default_env (Some (cstr "## Resetting to default environment" ++ [0x0A])) w in Ok (0, w)
    else if negb all && bool_decide (args <> []) then
      let* (_, w) := set_default_vars args w in Ok (0, w)
    else Ok (1, w)
  end.

(** ** Completion *)

Definition strcmp_compar (p1 p2 : list Z) : Z := s8 (cmp_bytes p1 p2).

(** The index the search stopped at, 0 at its end, and the names. *)
Fixpoint complete_loop (n : nat) (h : hsearch_data) (var : list Z) (maxv bufsz idx : Z) (cmdv : list (list Z)) : res (Z * list (list Z)) :=
  match n with
  | O => Hang
  | S n =>
    let* a := hmatch_r var idx h in
    match retval a with
    | Some i =>
      if ret a =? 0 then Ok (0, cmdv)
      else
        let* e := slot h i in
        let* k := res_of_option (key (entry e)) in
        let vallen := Z.of_nat (length k) + 1 in
        if (maxv - 2 <=? Z.of_nat (length cmdv)) || (bufsz <? vallen) then Ok (ret a, cmdv)
        else complete_loop n h var maxv (bufsz - vallen) (ret a) (cmdv ++ [k])
    | None => Ok (0, cmdv)
    end
  end.
(** The names, without the NULL behind them. *)
Definition env_complete (w : env_state) (var : list Z) (maxv bufsz : Z) : res (list (list Z)) :=
  let* (idx, cmdv) := complete_loop (S (Z.to_nat (size (htab w)))) (htab w) var maxv bufsz 0 [] in
  let* cmdv := qsort strcmp_compar 4 cmdv (Z.of_nat (length cmdv)) in
  Ok (if negb (idx =? 0) then cmdv ++ [cstr "..."] else cmdv).
End Environment.
