(* ===== verification/EnvGet.v ===== *)
(** * Reading and setting variables ([common/cmd_nvedit.c], [common/env_common.c])

    - what is set is what is read, by name, and as a number;
    - the image in memory is read as the variables it lists. *)
From S2P Require Import Prelude Ctype Cstring CstrProps Crc Vsprintf VspProps Hashtable HashProps Qsort EnvText EnvProps EnvFlags Env.

(** The environment is in use and holds the variables [m]. *)
Definition env_rep (w : env_state) (m : gmap (list Z) (list Z)) : Prop :=
  tst (gd_flags w) GD_FLG_ENV_READY = true /\ represents (htab w) m.

(** A name that the command line does not take for an option or an assignment. *)
Definition plain_name (name : list Z) : Prop := string_ok name /\ (0x3D ∉ name) /\ at_ name 0 <> 0x2D.

Lemma slot_stored h k v i en : stored h k v i en -> exists u, slot h i = Ok {| used := u; entry := en |}.
Proof.
  intros (t & u & Ht & Hi & He & _). exists u. unfold slot. rewrite Ht, (proj2 (Z.ltb_ge i 0)) by lia. by rewrite He.
Qed.

Section Access.
Context (malloc_ok : list Z -> bool) (calloc_ok : Z -> bool) (cb fl : ENTRY -> ENTRY) (default_environment : list Z).
Hypothesis init_keeps : forall e, key (fl (cb e)) = key e /\ data (fl (cb e)) = data e.
Hypothesis malloc_works : forall s, malloc_ok s = true.
Hypothesis calloc_works : forall n, calloc_ok n = true.

Abbreviation get := (getenv malloc_ok cb fl default_environment).
Abbreviation set := (setenv malloc_ok calloc_ok cb fl).

(** The environment holds the variables [m], and this is what is read. *)
Definition reads (w : env_state) (m : gmap (list Z) (list Z)) : Prop :=
  env_rep w m /\ forall k, string_ok k -> get w k = Ok (m !! k).

Lemma getenv_ok w m k : env_rep w m -> string_ok k -> get w k = Ok (m !! k).
Proof using Type.
  intros [Hr Hrep] Hk. unfold getenv. rewrite Hr. destruct (find_ok malloc_ok cb fl (htab w) m k None 0 Hrep Hk) as (a & -> & Ha).
  cbn [res_bind]. destruct (m !! k) as [v|]; [|by subst a]. destruct Ha as (i & en & -> & Hst). cbn [retval found_at].
  destruct (slot_stored _ _ _ _ _ Hst) as (u & ->). destruct Hst as (_ & _ & _ & _ & _ & _ & _ & Hd). cbn. by rewrite Hd.
Qed.
Lemma env_rep_reads w m : env_rep w m -> reads w m.
Proof using Type. split; [done|]. intros k. by apply getenv_ok. Qed.

Lemma set_words name v argc w : plain_name name -> tst (gd_flags w) GD_FLG_ENV_READY = true -> 1 < argc ->
  options_loop [Some name; v; None] argc H_INTERACTIVE = Ok (Some ([Some name; v; None], argc, H_INTERACTIVE)).
Proof using Type.
  intros (Hk & He & Hd) Hr Ha. cbn [options_loop]. rewrite (proj2 (Z.ltb_lt 1 argc)) by lia. destruct name as [|c name]; [done|].
  unfold at_ in Hd. simpl in Hd. by rewrite (proj2 (Z.eqb_neq c 0x2D)) by lia.
Qed.

Lemma set_value name v w : plain_name name -> tst (gd_flags w) GD_FLG_ENV_READY = true -> v <> [] ->
  set name (Some v) w =
  let* (a, h) := hsearch_r malloc_ok cb fl name (Some v) ENTER (htab w) H_INTERACTIVE in
  Ok (match retval a with Some _ => 0 | None => 1 end, set_htab h (next_env_id w)).
Proof using calloc_works.
  intros Hn Hr Hv. unfold setenv. rewrite Hr. cbn [negb]. destruct v as [|c v]; [done|]. unfold _do_env_set.
  rewrite (set_words name (Some (c :: v)) 3 w) by (done || lia). cbn [res_bind]. change ([Some name; Some (c :: v); None] !! 0%nat ≫= id) with (Some name).
  cbn [res_of_option res_bind]. rewrite bool_decide_false by apply Hn. change (3 <? 3) with false. cbn [orb lookup list_lookup].
  change (take _ _) with [Some (c :: v)]. cbn [words res_of_option res_bind]. by rewrite calloc_works.
Qed.
Lemma set_nothing name v w : plain_name name -> tst (gd_flags w) GD_FLG_ENV_READY = true -> v = None \/ v = Some [] ->
  set name v w =
  let* (rc, _, h) := hdelete_r malloc_ok cb fl name (htab w) H_INTERACTIVE in Ok (if rc =? 0 then 1 else 0, set_htab h (next_env_id w)).
Proof using Type.
  intros Hn Hr Hv. unfold setenv. rewrite Hr. cbn [negb].
  assert (match v with None | Some [] => _do_env_set malloc_ok calloc_ok cb fl 2 [Some name; v; None] w
    | _ => _do_env_set malloc_ok calloc_ok cb fl 3 [Some name; v; None] w end = _do_env_set malloc_ok calloc_ok cb fl 2 [Some name; v; None] w) as ->
    by (by destruct Hv as [-> | ->]).
  unfold _do_env_set. rewrite (set_words name v 2 w) by (done || lia). cbn [res_bind].
  change ([Some name; v; None] !! 0%nat ≫= id) with (Some name). cbn [res_of_option res_bind].
  by rewrite bool_decide_false by apply Hn.
Qed.

Lemma setenv_ok w m name v : env_rep w m -> plain_name name -> v <> [] ->
  match m !! name with
  | Some old => exists r w' i en, stored (htab w) name old i en /\ set name (Some v) w = Ok (r, w') /\
      match refusal (htab w) name en (Some v) env_op_overwrite H_INTERACTIVE with
      | None => r = 0 /\ env_rep w' (<[name := v]> m)
      | Some _ => r = 1 /\ env_rep w' m
      end
  | None => has_free (htab w) -> exists r w', set name (Some v) w = Ok (r, w') /\
      match refusal (htab w) name (fl (cb (fresh name v))) (Some v) env_op_create H_INTERACTIVE with
      | None => r = 0 /\ env_rep w' (<[name := v]> m)
      | Some _ => r = 1 /\ env_rep w' m
      end
  end.
Proof using calloc_works init_keeps malloc_works.
  intros [Hr Hrep] Hn Hv. rewrite (set_value name v w Hn Hr Hv). destruct (m !! name) as [old|] eqn:E.
  - destruct (overwrite_ok malloc_ok cb fl (htab w) m name old v H_INTERACTIVE Hrep (proj1 Hn) (malloc_works v) E)
      as (a & h' & -> & i & en & Hst & Ha). cbn [res_bind]. eexists _, _, i, en. split; [done|]. split; [reflexivity|].
    destruct (refusal _ _ _ _ _ _); destruct Ha as [-> Hh]; [subst h'|]; by split; [|split].
  - intros Hfree. destruct (enter_ok malloc_ok cb fl init_keeps (htab w) m name v H_INTERACTIVE) as (a & h' & -> & Ha); [done|done|apply Hn|done..|].
    cbn [res_bind]. eexists _, _. split; [reflexivity|].
    destruct (refusal _ _ _ _ _ _); [destruct Ha as [-> Hh]|destruct Ha as ((i & ->) & Hh & _)]; by split; [|split].
Qed.

Lemma unset_ok w m name v : env_rep w m -> plain_name name -> v = None \/ v = Some [] ->
  exists r w', set name v w = Ok (r, w') /\
  match m !! name with
  | None => r = 1 /\ env_rep w' m
  | Some old => exists i en, stored (htab w) name old i en /\
      match refusal (htab w) name en None env_op_delete H_INTERACTIVE with
      | None => r = 0 /\ env_rep w' (delete name m)
      | Some _ => r = 1 /\ env_rep w' m
      end
  end.
Proof using Type.
  intros [Hr Hrep] Hn Hv. rewrite (set_nothing name v w Hn Hr Hv).
  destruct (delete_ok malloc_ok cb fl (htab w) m name H_INTERACTIVE Hrep (proj1 Hn)) as (rc & err & h' & -> & Hd). cbn [res_bind].
  eexists _, _. split; [reflexivity|]. destruct (m !! name) as [old|]; [|destruct Hd as (-> & _ & ->); by split; [|split]].
  destruct Hd as (i & en & Hst & Hd). exists i, en. split; [done|].
  destruct (refusal _ _ _ _ _ _); destruct Hd as (-> & _ & Hh); [subst h'|]; by split; [|split].
Qed.
End Access.

(** ** Numbers *)

Lemma digits_length base num ds n : 1 < base -> digits_of base num ds -> num < base ^ Z.of_nat n -> (0 < n)%nat -> (length ds <= n)%nat.
Proof.
  intros Hb (HF & E & d & Hl & Hd) Hn Hpos. apply last_Some in Hl as [lo ->]. rewrite length_app. cbn [length].
  destruct Hd as [Hd|Hd]; [|destruct lo as [|? []]; simplify_eq; simpl; lia].
  apply Forall_app in HF as [Hlo HF]. inversion HF as [|? ? Hdr _]; subst. rewrite le_val_app in Hn. cbn [le_val] in Hn. rewrite Z.mul_0_r, Z.add_0_r in Hn.
  pose proof (le_val_nonneg base lo ltac:(lia) Hlo). pose proof (Z.pow_pos_nonneg base (Z.of_nat (length lo))) as Hp.
  assert (base ^ Z.of_nat (length lo) * 1 <= base ^ Z.of_nat (length lo) * d) by (apply Z.mul_le_mono_nonneg_l; lia).
  assert (base ^ Z.of_nat (length lo) < base ^ Z.of_nat n) as Hlt by lia. apply Z.pow_lt_mono_r_iff in Hlt; lia.
Qed.

Lemma digit_char_ok locase d : locase = 0 \/ locase = SMALL -> 0 <= d < 16 -> 0 < digit_char locase d < 256.
Proof.
  intros Hl Hd. assert ((0 <? digit_char locase d) && (digit_char locase d <? 256) = true) as H; [|lia].
  destruct Hl; subst locase; apply (digit_cases (fun d => (0 <? digit_char _ d) && (digit_char _ d <? 256))); done.
Qed.

(** The digits, read in their base. *)
Lemma read_base num base locase ds : 0 <= num < 2 ^ 32 -> locase = 0 \/ locase = SMALL -> 1 < base <= 16 -> digits_of base num ds ->
  simple_strtoul (map (digit_char locase) (rev ds)) base = (num, []).
Proof.
  intros Hn Hl Hb Hds. pose proof (read_digits 32 num base locase ds [] Hn Hl Hds ltac:(done) ltac:(lia)) as Hr. rewrite app_nil_r in Hr.
  destruct (first_char 32 num base locase ds Hn Hl Hds ltac:(lia)) as (d & ds' & E & Hd & Hz). rewrite E in *.
  destruct (digit_char_read locase d Hl Hd) as (_ & _ & _ & H0 & _). unfold simple_strtoul, number_base.
  change (cur (digit_char locase d :: ds')) with (digit_char locase d). destruct (Z.eqb_spec (digit_char locase d) 0x30) as [Ed|].
  - destruct (Hz (H0 Ed)) as [-> ->]. change (tail [digit_char locase d]) with (@nil Z). change (cur [] =? 0x78) with false. cbn [andb].
    by rewrite !(proj2 (Z.eqb_neq base 0)) by lia.
  - by rewrite (proj2 (Z.eqb_neq base 0)) by lia.
Qed.

Definition number_string (base v : Z) (t : list Z) : Prop :=
  t <> [] /\ string_ok t /\ simple_strtoul t base = (v, []).

Lemma digits_string num base locase ds : 0 <= num < 2 ^ 32 -> locase = 0 \/ locase = SMALL -> 1 < base <= 16 -> digits_of base num ds ->
  number_string base num (map (digit_char locase) (rev ds)).
Proof.
  intros Hn Hl Hb Hds. split_and!; [|apply Forall_map, Forall_rev; destruct Hds as [HF _]; eapply Forall_impl; [exact HF|];
    simpl; intros; apply digit_char_ok; [done|lia]|by apply read_base].
  destruct (first_char 32 num base locase ds Hn Hl Hds ltac:(lia)) as (d & ds' & -> & _). done.
Qed.

Lemma text_lx v : text_of (cstr "%lx") [VInt v] = let* t := number emit [] (u32 v) 16 (-1) (-1) SMALL in Ok (t, []).
Proof. one_conversion. Qed.

Lemma hex_text v : 0 <= v < 2 ^ 32 -> exists t, text_of (cstr "%lx") [VInt v] = Ok (t, []) /\ (length t <= 8)%nat /\ number_string 16 v t.
Proof.
  intros Hv. rewrite text_lx, wrap_small by lia. destruct (number_text v 16 SMALL) as (ds & Hds & ->); [lia|auto|simpl; auto|].
  change (tst SMALL SPECIAL) with false. cbn [andb app res_bind]. eexists. split; [reflexivity|].
  rewrite length_map, length_rev. split; [|apply digits_string; (done || lia || by right)].
  apply (digits_length 16 v); [lia|done|simpl; lia|lia].
Qed.

Lemma dec_text v : 0 <= v < 2 ^ 32 -> exists t, simple_itoa v = Ok t /\ number_string 10 v t.
Proof.
  intros Hv. unfold simple_itoa. destruct (itoa_loop_ok 22 v []) as (ds & -> & _ & Hds); [lia..|].
  pose proof (digits_length 10 v ds 10 ltac:(lia) Hds ltac:(simpl; lia) ltac:(lia)) as Hlen.
  cbn [res_bind]. rewrite app_nil_r, decide_True by (rewrite length_map, length_rev; lia). eexists. split; [reflexivity|].
  assert (map (Z.add 0x30) (rev ds) = map (digit_char 0) (rev ds)) as ->; [|apply digits_string; (done || lia || by left)].
  apply map_ext_Forall, Forall_rev. destruct Hds as [HF _]. eapply Forall_impl; [exact HF|]. simpl. intros d Hd. rewrite digit_char_dec; auto.
Qed.

(** ** The image in memory *)

Section Image.
Context (default_environment : list Z) (w : env_state) (image : list Z) (Himage : env_get_addr default_environment w = image).

Abbreviation char := (env_get_char default_environment w).

Lemma char_image i : char i = byte_at image i.
Proof using Himage. unfold env_get_char, env_get_char_memory, env_get_char_init, env_get_char_spec. subst image. unfold env_get_addr. by case_match; case_match. Qed.

Lemma char_at pre c tl : image = pre ++ c :: tl -> char (Z.of_nat (length pre)) = Ok c.
Proof using Himage.
  intros E. rewrite char_image, E. unfold byte_at. rewrite (proj2 (Z.ltb_ge _ 0)) by lia.
  by rewrite Nat2Z.id, list_lookup_middle by done.
Qed.

Lemma envmatch_ok name : forall pre k v tl, image = pre ++ k ++ 0x3D :: v ++ 0 :: tl -> string_ok k -> (0x3D ∉ k) -> (0x3D ∉ name) ->
  envmatch default_environment w name (Z.of_nat (length pre)) =
  Ok (if decide (name = k) then Z.of_nat (length pre + length k) + 1 else -1).
Proof using Himage.
  induction name as [|c name IH]; intros pre k v tl E Hk Hek Hen; cbn [envmatch].
  - destruct k as [|c k]; cbn [app] in E.
    + rewrite (char_at pre 0x3D (v ++ 0 :: tl)) by done. cbn. by rewrite Nat.add_0_r.
    + rewrite (char_at pre c (k ++ 0x3D :: v ++ 0 :: tl)) by done. inversion Hk; subst. cbn [res_bind].
      rewrite (proj2 (Z.eqb_neq c 0)), (proj2 (Z.eqb_neq c 0x3D)) by (lia || set_solver). done.
  - destruct k as [|c' k]; cbn [app] in E.
    + rewrite (char_at pre 0x3D (v ++ 0 :: tl)) by done. cbn [res_bind]. rewrite (proj2 (Z.eqb_neq c 0x3D)) by set_solver. done.
    + rewrite (char_at pre c' (k ++ 0x3D :: v ++ 0 :: tl)) by done. inversion Hk; subst c' l. cbn [res_bind].
      destruct (Z.eqb_spec c x) as [->|Hne]; [|by rewrite decide_False by congruence].
      rewrite (proj2 (Z.eqb_neq x 0x3D)) by set_solver.
      replace (Z.of_nat (length pre) + 1) with (Z.of_nat (length (pre ++ [x]))) by (rewrite length_app; simpl; lia).
      rewrite (IH (pre ++ [x]) k v tl); [|by rewrite E, <- app_assoc|done|set_solver..].
      rewrite length_app. cbn [length]. destruct (decide (name = k)) as [->|]; [rewrite decide_True by done; f_equal; lia|].
      by rewrite decide_False by congruence.
Qed.

Lemma end_loop_ok s : forall n pre tl, image = pre ++ s ++ 0 :: tl -> string_ok s -> (length s < n)%nat ->
  Z.of_nat (length pre + length s) <= CONFIG_ENV_SIZE ->
  end_loop default_environment n w (Z.of_nat (length pre)) = Ok (Some (Z.of_nat (length pre + length s))).
Proof using Himage.
  induction s as [|c s IH]; intros [|n] pre tl E Hs Hn Hlen; cbn [length] in *; try lia; cbn [end_loop]; cbn [app] in E.
  - rewrite (char_at pre 0 tl) by done. cbn. by rewrite Nat.add_0_r.
  - rewrite (char_at pre c (s ++ 0 :: tl)) by done. inversion Hs; subst x l. cbn [res_bind].
    rewrite (proj2 (Z.eqb_neq c 0)), (proj2 (Z.leb_gt _ _)) by lia.
    replace (Z.of_nat (length pre) + 1) with (Z.of_nat (length (pre ++ [c]))) by (rewrite length_app; simpl; lia).
    rewrite (IH n (pre ++ [c]) tl); [|by rewrite E, <- app_assoc|done|lia|rewrite length_app; simpl; lia].
    rewrite length_app. cbn [length]. do 3 f_equal. lia.
Qed.

Lemma copy_out_ok v : forall len pre tl n buf, image = pre ++ v ++ 0 :: tl -> string_ok v ->
  copy_out default_environment len w (Z.of_nat (length pre)) n buf =
  Ok (if decide (length v < len)%nat then (n + Z.of_nat (length v), buf ++ v)
      else (n + Z.of_nat len, take (length buf + len - 1) (buf ++ v))).
Proof using Himage.
  induction v as [|c v IH]; intros [|len] pre tl n buf E Hv; cbn [copy_out length]; cbn [app] in E.
  - rewrite decide_False by lia. rewrite app_nil_r. do 2 f_equal; [lia|f_equal; lia].
  - rewrite (char_at pre 0 tl) by done. cbn [res_bind]. change (0 =? 0) with true. cbv iota. rewrite decide_True, app_nil_r by lia. do 2 f_equal. lia.
  - rewrite decide_False by lia. do 2 f_equal; [lia|]. rewrite take_app_le by lia. f_equal; lia.
  - rewrite (char_at pre c (v ++ 0 :: tl)) by done. inversion Hv; subst x l. cbn [res_bind]. rewrite (proj2 (Z.eqb_neq c 0)) by lia.
    replace (Z.of_nat (length pre) + 1) with (Z.of_nat (length (pre ++ [c]))) by (rewrite length_app; simpl; lia).
    rewrite (IH len (pre ++ [c]) tl); [|by rewrite E, <- app_assoc|done]. rewrite <- app_assoc, length_app. cbn [app length].
    destruct (decide (length v < len)%nat); [rewrite decide_True by lia; do 2 f_equal; lia|rewrite decide_False by lia; do 2 f_equal; [lia|f_equal; lia]].
Qed.

(** The entries of an image, and what a buffer of [len] bytes holds of a value. *)
Definition image_text (l : list (list Z * list Z)) : list Z := concat (map (fun e => e.1 ++ 0x3D :: e.2 ++ [0]) l).
Definition image_entry (e : list Z * list Z) : Prop := string_ok e.1 /\ string_ok e.2 /\ (0x3D ∉ e.1).
Definition clip (len : nat) (v : list Z) : Z * list Z :=
  if decide (length v < len)%nat then (Z.of_nat (length v), v) else (Z.of_nat len, take (len - 1) v).

Lemma entries_loop_ok name len l : forall n pre tl, image = pre ++ image_text l ++ 0 :: tl -> Forall image_entry l -> (0x3D ∉ name) ->
  (length l < n)%nat -> Z.of_nat (length pre + length (image_text l)) <= CONFIG_ENV_SIZE ->
  entries_loop default_environment n w name len (Z.of_nat (length pre)) =
  Ok (match list_find (fun e => e.1 = name) l with Some (_, e) => clip len e.2 | None => (-1, []) end).
Proof using Himage.
  induction l as [|[k v] l IH]; intros [|n] pre tl E Hl Hname Hn Hlen; try (simpl in Hn; lia); cbn [entries_loop].
  { rewrite (char_at pre 0 tl) by done. done. }
  inversion Hl as [|? ? (Hk & Hv & He) Hl']; subst x l0. cbn [fst snd] in *. unfold image_text in E, Hlen. cbn [map concat fst snd] in E, Hlen. fold (image_text l) in E, Hlen.
  rewrite !length_app in Hlen. cbn [length] in Hlen. rewrite length_app in Hlen. cbn [length] in Hlen.
  assert (exists c r, k ++ 0x3D :: v = c :: r /\ c <> 0) as (c & r & Ec & Hc).
  { destruct k as [|c k]; [by exists 0x3D, v|]. exists c, (k ++ 0x3D :: v). inversion Hk; subst. split; [done|lia]. }
  assert (image = pre ++ (k ++ 0x3D :: v) ++ 0 :: image_text l ++ 0 :: tl) as E1.
  { rewrite E. f_equal. rewrite <- !app_assoc. cbn [app]. by rewrite <- !app_assoc. }
  rewrite (char_at pre c (r ++ 0 :: image_text l ++ 0 :: tl)) by (by rewrite E1, Ec). cbn [res_bind]. rewrite (proj2 (Z.eqb_neq c 0)) by done.
  rewrite (end_loop_ok (k ++ 0x3D :: v) _ pre (image_text l ++ 0 :: tl)); [|done| |rewrite length_app; cbn [length]; unfold CONFIG_ENV_SIZE in *; lia|rewrite length_app; cbn [length]; lia].
  2: { apply Forall_app. split; [done|]. by constructor. }
  cbn [res_bind]. rewrite (envmatch_ok name pre k v (image_text l ++ 0 :: tl)); [|by rewrite E1, <- app_assoc|done..]. cbn [res_bind list_find fst].
  destruct (decide (name = k)) as [->|Hne].
  - rewrite decide_True by done. rewrite (proj2 (Z.ltb_ge _ 0)) by lia.
    replace (Z.of_nat (length pre + length k) + 1) with (Z.of_nat (length (pre ++ k ++ [0x3D]))) by (rewrite !length_app; cbn [length]; lia).
    rewrite (copy_out_ok v len (pre ++ k ++ [0x3D]) (image_text l ++ 0 :: tl)); [|by rewrite E1, <- !app_assoc|done].
    cbn [app length snd]. unfold clip. destruct (decide _); [do 2 f_equal|do 2 f_equal]; lia || done.
  - rewrite decide_False by done. change (-1 <? 0) with true. cbv iota.
    replace (Z.of_nat (length pre + length (k ++ 0x3D :: v)) + 1) with (Z.of_nat (length (pre ++ (k ++ 0x3D :: v) ++ [0]))) by (rewrite !length_app; cbn [length]; lia).
    rewrite (IH n (pre ++ (k ++ 0x3D :: v) ++ [0]) tl); [|by rewrite E1, <- !app_assoc|done|done|simpl in Hn; lia|].
    + by destruct (list_find _ l) as [[? ?]|].
    + rewrite !length_app. cbn [length]. lia.
Qed.
End Image.

(** ** The theorems *)

(** A value for a name is permitted. *)
Definition permits (cb fl : ENTRY -> ENTRY) (w : env_state) (m : gmap (list Z) (list Z)) (name v : list Z) : Prop :=
  match m !! name with
  | Some old => forall i en, stored (htab w) name old i en -> refusal (htab w) name en (Some v) env_op_overwrite H_INTERACTIVE = None
  | None => has_free (htab w) /\ refusal (htab w) name (fl (cb (fresh name v))) (Some v) env_op_create H_INTERACTIVE = None
  end.

Section Claims.
Context (malloc_ok : list Z -> bool) (calloc_ok : Z -> bool) (cb fl : ENTRY -> ENTRY) (default_environment : list Z).
Hypothesis init_keeps : forall e, key (fl (cb e)) = key e /\ data (fl (cb e)) = data e.
Hypothesis malloc_works : forall s, malloc_ok s = true.
Hypothesis calloc_works : forall n, calloc_ok n = true.

(** C28: what is set is what is read.  In an environment in use, a variable that is there is set by overwriting its
    entry: when the permission function and the callback of the entry accept the new value the result is 0 and
    afterwards every name reads as before, except this one, which reads as the new value; when either refuses, the
    result is 1 and every name reads as it did.  The same holds of a new name, whose entry is the one that its
    initialisation makes, as long as a slot of the table was never used.  Setting nothing, or the empty string,
    deletes the variable: result 1 and no change when it is not there or this is refused.  The name has no equals
    sign and does not start with a dash; allocations succeed. *)
Theorem setenv_then_getenv w m name : env_rep w m -> plain_name name ->
  let reads := reads malloc_ok cb fl default_environment in
  (forall v, v <> [] ->
     match m !! name with
     | Some old => exists r w' i en, setenv malloc_ok calloc_ok cb fl name (Some v) w = Ok (r, w') /\ stored (htab w) name old i en /\
         match refusal (htab w) name en (Some v) env_op_overwrite H_INTERACTIVE with
         | None => r = 0 /\ reads w' (<[name := v]> m)
         | Some _ => r = 1 /\ reads w' m
         end
     | None => has_free (htab w) -> exists r w', setenv malloc_ok calloc_ok cb fl name (Some v) w = Ok (r, w') /\
         match refusal (htab w) name (fl (cb (fresh name v))) (Some v) env_op_create H_INTERACTIVE with
         | None => r = 0 /\ reads w' (<[name := v]> m)
         | Some _ => r = 1 /\ reads w' m
         end
     end) /\
  (forall v, v = None \/ v = Some [] ->
     exists r w', setenv malloc_ok calloc_ok cb fl name v w = Ok (r, w') /\
     match m !! name with
     | None => r = 1 /\ reads w' m
     | Some old => exists i en, stored (htab w) name old i en /\
         match refusal (htab w) name en None env_op_delete H_INTERACTIVE with
         | None => r = 0 /\ reads w' (delete name m)
         | Some _ => r = 1 /\ reads w' m
         end
     end).
Proof using calloc_works init_keeps malloc_works.
  intros Hw Hn rd. assert (forall w m, env_rep w m -> rd w m) as Hrd by (intros; by apply env_rep_reads). split.
  - intros v Hv. pose proof (setenv_ok malloc_ok calloc_ok cb fl init_keeps malloc_works calloc_works w m name v Hw Hn Hv) as H.
    destruct (m !! name) as [old|].
    + destruct H as (r & w' & i & en & Hst & E & H). exists r, w', i, en. do 2 (split; [done|]).
      destruct (refusal _ _ _ _ _ _); destruct H; auto.
    + intros Hfree. destruct (H Hfree) as (r & w' & E & Hr). exists r, w'. split; [done|]. destruct (refusal _ _ _ _ _ _); destruct Hr; auto.
  - intros v Hv. destruct (unset_ok malloc_ok calloc_ok cb fl w m name v Hw Hn Hv) as (r & w' & E & H). exists r, w'. split; [done|].
    destruct (m !! name) as [old|]; [|destruct H; auto]. destruct H as (i & en & Hst & H). exists i, en. split; [done|].
    destruct (refusal _ _ _ _ _ _); destruct H; auto.
Qed.

Lemma set_permitted w m name v : env_rep w m -> plain_name name -> v <> [] -> permits cb fl w m name v ->
  exists w', setenv malloc_ok calloc_ok cb fl name (Some v) w = Ok (0, w') /\ env_rep w' (<[name := v]> m).
Proof using calloc_works init_keeps malloc_works.
  intros Hw Hn Hv Hp. pose proof (setenv_ok malloc_ok calloc_ok cb fl init_keeps malloc_works calloc_works w m name v Hw Hn Hv) as H.
  unfold permits in Hp. destruct (m !! name) as [old|].
  - destruct H as (r & w' & i & en & Hst & -> & H). rewrite (Hp i en Hst) in H. destruct H as [-> ?]. by exists w'.
  - destruct Hp as [Hfree Hp]. destruct (H Hfree) as (r & w' & -> & Hr). rewrite Hp in Hr. destruct Hr as [-> ?]. by exists w'.
Qed.

(** Numbers survive the environment.  A 32-bit number that is set in hexadecimal is read back by the
    hexadecimal reader, whatever its default, and by the general reader in base 16; a number that is set in
    decimal is read back in base 10. *)
Theorem set_number_reads w m name v d : env_rep w m -> plain_name name -> 0 <= v < 2 ^ 32 ->
  (forall base t, number_string base v t -> permits cb fl w m name t) ->
  (exists w', setenv_hex malloc_ok calloc_ok cb fl name v w = Ok (0, w') /\
     getenv_hex malloc_ok cb fl default_environment w' name d = Ok v /\
     getenv_ulong malloc_ok cb fl default_environment w' name 16 d = Ok v) /\
  (exists w', setenv_ulong malloc_ok calloc_ok cb fl name v w = Ok (0, w') /\
     getenv_ulong malloc_ok cb fl default_environment w' name 10 d = Ok v).
Proof using calloc_works init_keeps malloc_works.
  intros Hw Hn Hv Hp. split.
  - destruct (hex_text v Hv) as (t & E & Hlen & Ht). unfold setenv_hex. rewrite E. cbn [res_bind]. rewrite decide_True by lia.
    destruct (set_permitted w m name t Hw Hn (proj1 Ht) (Hp 16 t Ht)) as (w' & -> & Hw'). exists w'. split; [done|].
    unfold getenv_hex, getenv_ulong. rewrite (getenv_ok malloc_ok cb fl default_environment w' _ name Hw' (proj1 Hn)), lookup_insert_eq.
    cbn [res_bind]. destruct Ht as (Hne & _ & ->). rewrite bool_decide_false by (by destruct t). done.
  - destruct (dec_text v Hv) as (t & E & Ht). unfold setenv_ulong. rewrite E. cbn [res_bind].
    destruct (set_permitted w m name t Hw Hn (proj1 Ht) (Hp 10 t Ht)) as (w' & -> & Hw'). exists w'. split; [done|].
    unfold getenv_ulong. rewrite (getenv_ok malloc_ok cb fl default_environment w' _ name Hw' (proj1 Hn)), lookup_insert_eq.
    cbn [res_bind]. by destruct Ht as (_ & _ & ->).
Qed.

Lemma image_text_length l : (length l <= length (image_text l))%nat.
Proof using Type. unfold image_text. induction l as [|e l IH]; cbn [map concat length]; [lia|]. rewrite !length_app. cbn [length]. lia. Qed.

Lemma find_list_map (l : list (list Z * list Z)) name : match list_find (fun e => e.1 = name) l with Some (_, e) => Some e.2 | None => None end =
  (list_to_map l : gmap (list Z) (list Z)) !! name.
Proof using Type.
  induction l as [|[k v] l IH]; [done|]. cbn [list_find list_to_map foldr fst snd]. destruct (decide (k = name)) as [->|Hne].
  - by rewrite lookup_insert_eq.
  - rewrite lookup_insert_ne by done. change (foldr _ _ l) with (list_to_map l : gmap (list Z) (list Z)). rewrite <- IH.
    by destruct (list_find _ l) as [[? ?]|].
Qed.

(** Before the import a variable is read from the list of variables in memory: the first entry of its
    name is found, its value is clipped to the buffer, and the result is its length or the size of the
    buffer; a name that is not listed gives -1.  So a value of 1 to 31 bytes is read as it is after the import
    of the list. *)
Theorem getenv_f_reads w l tl name len : env_get_addr default_environment w = image_text l ++ 0 :: tl ->
  Forall image_entry l -> (0x3D ∉ name) -> Z.of_nat (length (image_text l)) <= CONFIG_ENV_SIZE ->
  getenv_f default_environment w name len =
    Ok (match (list_to_map l : gmap (list Z) (list Z)) !! name with Some v => clip len v | None => (-1, []) end) /\
  forall w', tst (gd_flags w) GD_FLG_ENV_READY = false -> env_rep w' (list_to_map l) -> string_ok name ->
    (forall v, (list_to_map l : gmap (list Z) (list Z)) !! name = Some v -> (0 < length v < 32)%nat) ->
    getenv malloc_ok cb fl default_environment w name = getenv malloc_ok cb fl default_environment w' name.
Proof using Type.
  intros Hi Hl Hname Hlen. assert (forall len, getenv_f default_environment w name len =
    Ok (match (list_to_map l : gmap (list Z) (list Z)) !! name with Some v => clip len v | None => (-1, []) end)) as Hf.
  { intros n. unfold getenv_f. change 0 with (Z.of_nat (length (@nil Z))). pose proof (image_text_length l).
    rewrite (entries_loop_ok default_environment w _ Hi name n l _ [] tl); [|done..|unfold CONFIG_ENV_SIZE in *; lia|done].
    rewrite <- find_list_map. by destruct (list_find _ l) as [[? ?]|]. }
  split; [apply Hf|]. intros w' Hr Hw' Hk Hv. rewrite (getenv_ok malloc_ok cb fl default_environment w' _ name Hw' Hk).
  unfold getenv. rewrite Hr, Hf. cbn [res_bind]. destruct (list_to_map l !! name) as [v|]; [|done]. specialize (Hv v eq_refl).
  unfold clip, env_buf_size. rewrite decide_True by lia. by rewrite (proj2 (Z.ltb_lt 0 _)) by lia.
Qed.
End Claims.

(** *** On a table with one variable *)

Definition small_env : env_state :=
  {| htab := one_variable; gd_flags := GD_FLG_ENV_READY; env_valid := 1; env_addr := []; env_id := 0 |}.
Lemma small_env_ok : env_rep small_env {[cstr "bootdelay" := cstr "3"]}.
Proof. split; [done|]. exact one_variable_ok. Qed.
Lemma bootdelay_plain : plain_name (cstr "bootdelay").
Proof. split_and!; [by repeat constructor| |done]. vm_compute. set_solver by lia. Qed.
Lemma small_env_permits v : permits id id small_env {[cstr "bootdelay" := cstr "3"]} (cstr "bootdelay") v.
Proof.
  unfold permits. rewrite lookup_singleton_eq. intros i en (t & u & Ht & Hi & He & Hu & Hk & Hd). unfold refusal.
  change (change_ok (htab small_env)) with (@None (ENTRY -> option (list Z) -> env_op -> Z -> bool)). cbv iota.
  assert (callback en = None) as ->; [|done]. change (htab small_env) with one_variable in Ht.
  assert (forallb (fun s => match callback (entry s) with None => true | _ => false end) t = true) as Hn.
  { assert (match table one_variable with Some t => forallb (fun s => match callback (entry s) with None => true | _ => false end) t | None => true end = true)
      as Hf by (vm_compute; reflexivity). by rewrite Ht in Hf. }
  rewrite forallb_forall in Hn. specialize (Hn _ (proj1 (list_elem_of_In _ _) (list_elem_of_lookup_2 _ _ _ He))). cbn in Hn. by destruct (callback en).
Qed.

(** The same table with a permission function that makes every variable read-only. *)
Definition locked_env : env_state :=
  {| htab := {| table := table one_variable; size := size one_variable; filled := filled one_variable; change_ok := Some (fun _ _ _ _ => true) |};
     gd_flags := GD_FLG_ENV_READY; env_valid := 1; env_addr := []; env_id := 0 |}.
Lemma locked_env_ok : env_rep locked_env {[cstr "bootdelay" := cstr "3"]}.
Proof. split; [done|]. destruct one_variable_ok as (t & [] & Hm). exists t. split; [|done]. constructor; done. Qed.

Lemma setenv_then_getenv_witness :
  (exists w', setenv (fun _ => true) (fun _ => true) id id (cstr "bootdelay") (Some (cstr "5")) small_env = Ok (0, w') /\
    getenv (fun _ => true) id id [] w' (cstr "bootdelay") = Ok (Some (cstr "5"))) /\
  (exists w', setenv (fun _ => true) (fun _ => true) id id (cstr "bootdelay") (Some (cstr "5")) locked_env = Ok (1, w') /\
    getenv (fun _ => true) id id [] w' (cstr "bootdelay") = Ok (Some (cstr "3"))).
Proof.
  split.
  - pose proof (setenv_then_getenv (fun _ => true) (fun _ => true) id id [] ltac:(done) ltac:(done) ltac:(done) small_env _ _ small_env_ok bootdelay_plain)
      as [H _].
    specialize (H (cstr "5") ltac:(done)). rewrite lookup_singleton_eq in H. destruct H as (r & w' & i & en & E & Hst & H).
    pose proof (small_env_permits (cstr "5")) as Hp. unfold permits in Hp. rewrite lookup_singleton_eq in Hp.
    rewrite (Hp i en Hst) in H. destruct H as [-> [_ Hr]]. exists w'. split; [exact E|]. rewrite Hr by apply bootdelay_plain. by rewrite lookup_insert_eq.
  - pose proof (setenv_then_getenv (fun _ => true) (fun _ => true) id id [] ltac:(done) ltac:(done) ltac:(done) locked_env _ _ locked_env_ok bootdelay_plain)
      as [H _].
    specialize (H (cstr "5") ltac:(done)). rewrite lookup_singleton_eq in H. destruct H as (r & w' & i & en & E & Hst & H).
    unfold refusal in H. cbn [change_ok htab locked_env] in H. cbv iota in H. destruct H as [-> [_ Hr]].
    exists w'. split; [exact E|]. rewrite Hr by apply bootdelay_plain. by rewrite lookup_singleton_eq.
Defined.

Lemma set_number_reads_witness :
  (exists w', setenv_hex (fun _ => true) (fun _ => true) id id (cstr "bootdelay") 0xC0FFEE small_env = Ok (0, w') /\
     getenv_hex (fun _ => true) id id [] w' (cstr "bootdelay") 7 = Ok 0xC0FFEE /\
     getenv_ulong (fun _ => true) id id [] w' (cstr "bootdelay") 16 7 = Ok 0xC0FFEE) /\
  (exists w', setenv_ulong (fun _ => true) (fun _ => true) id id (cstr "bootdelay") 0xC0FFEE small_env = Ok (0, w') /\
     getenv_ulong (fun _ => true) id id [] w' (cstr "bootdelay") 10 7 = Ok 0xC0FFEE).
Proof.
  apply (set_number_reads (fun _ => true) (fun _ => true) id id [] ltac:(done) ltac:(done) ltac:(done) small_env _ _ 0xC0FFEE 7 small_env_ok bootdelay_plain);
    [lia|intros; apply small_env_permits].
Defined.

Definition image_env : env_state :=
  {| htab := plain_table; gd_flags := 0; env_valid := 1; env_addr := image_text [(cstr "bootdelay", cstr "3"); (cstr "baudrate", cstr "115200")] ++ [0]; env_id := 0 |}.
Lemma getenv_f_reads_witness : getenv_f [] image_env (cstr "baudrate") 4 = Ok (4, cstr "115").
Proof.
  rewrite (proj1 (getenv_f_reads (fun _ => true) id id [] image_env [(cstr "bootdelay", cstr "3"); (cstr "baudrate", cstr "115200")] []
    (cstr "baudrate") 4 eq_refl ltac:(repeat constructor; vm_compute; set_solver by lia) ltac:(vm_compute; set_solver by lia) ltac:(vm_compute; discriminate))).
  vm_compute. reflexivity.
Defined.
