(* ===== verification/NandUtil.v ===== *)
(** * NAND areas with bad blocks ([drivers/mtd/nand/nand_util.c], [include/nand.h])

    Reading, writing and erasing an area of the NAND flash, skipping its bad blocks.  The MTD device below is
    an interface: its operations, and the laws of a device that works on good blocks. *)
From S2P Require Import Prelude.

Definition EINVAL : Z := 22.
Definition EFBIG : Z := 27.
Definition EUCLEAN : Z := 117.

(** ** The MTD device *)

(** The operations of [nand_info_t]: the result of [mtd_read] is an error code and the bytes, that of
    [mtd_write] an error code, the length written and the device. *)
Class Mtd (D : Type) := {
  erasesize : Z;
  writesize : Z;
  mtd_size : Z;
  oobavail : Z;
  mtd_block_isbad : D -> Z -> Z;
  mtd_erase : D -> Z -> Z -> bool -> Z * D;
  mtd_read : D -> Z -> Z -> Z * list Z;
  mtd_write : D -> Z -> list Z -> Z * Z * D;
  mtd_write_oob : D -> Z -> list Z -> Z * D;
  drop_bbt : D -> D;
  scan_bbt : D -> D
}.

Section Util.
Context {D : Type} {M : Mtd D}.

Definition nand_read (d : D) (ofs len : Z) : Z * list Z := mtd_read d ofs len.
Definition nand_write (d : D) (ofs : Z) (buf : list Z) : Z * Z * D := mtd_write d ofs buf.
Definition nand_block_isbad (d : D) (ofs : Z) : bool := negb (mtd_block_isbad d ofs =? 0).

(** The block of an offset, and the offset in it. *)
Definition block_start (offset : Z) : Z := Z.land offset (Z.lnot (erasesize - 1)).
Definition block_off (offset : Z) : Z := Z.land offset (erasesize - 1).

(** ** Erasing *)

Record nand_erase_options := {
  length_ : Z;
  offset_ : Z;
  quiet : bool;
  jffs2 : bool;
  scrub : bool;
  spread : bool;
  lim_ : Z
}.

(** A JFFS2 clean marker in the byte order of the CPU: magic 0x1985, node type 0x2003, length 8. *)
Definition cleanmarker : list Z := [0x85; 0x19; 0x03; 0x20; 8; 0; 0; 0].

Fixpoint erase_loop (n : nat) (opts : nand_erase_options) (erase_length erased_length addr : Z) (d : D) : res (Z * D) :=
  match n with
  | O => Hang
  | S n =>
    if negb (erased_length <? erase_length) then Ok (0, d)
    else
      let next erased_length d := erase_loop n opts erase_length erased_length (addr + erasesize) d in
      if negb (lim_ opts =? 0) && (offset_ opts + lim_ opts <=? addr) then Ok (- EFBIG, d)
      else
        let ret := if scrub opts then 0 else mtd_block_isbad d addr in
        if 0 <? ret then next (if spread opts then erased_length else u32 (erased_length + 1)) d
        else if ret <? 0 then Ok (-1, d)
        else
          let erased_length := u32 (erased_length + 1) in
          let '(result, d) := mtd_erase d addr erasesize (scrub opts) in
          if negb (result =? 0) then next erased_length d
          else if jffs2 opts && (8 <=? oobavail)
          then let '(_, d) := mtd_write_oob d addr cleanmarker in next erased_length d
          else next erased_length d
  end.
(** The blocks that can be passed: those to erase, and those of the device. *)
Definition nand_erase_opts (d : D) (opts : nand_erase_options) : res (Z * D) :=
  if negb (block_off (offset_ opts) =? 0) then Ok (-1, d)
  else
    let erase_length := u32 ((length_ opts + erasesize - 1) / erasesize) in
    let d := if scrub opts then drop_bbt d else d in
    let* (r, d) := erase_loop (S (Z.to_nat (erase_length + mtd_size / erasesize))) opts erase_length 0 (offset_ opts) d in
    Ok (r, if scrub opts && (r =? 0) then scan_bbt d else d).

(** ** Reading and writing *)

(** The result, and the length of flash the area takes. *)
Fixpoint check_loop (n : nat) (d : D) (offset length len_excl_bad used ret : Z) : res (Z * Z) :=
  match n with
  | O => Hang
  | S n =>
    if len_excl_bad <? length then
      if mtd_size <=? offset then Ok (-1, used)
      else
        let block_len := erasesize - block_off offset in
        let bad := nand_block_isbad d (block_start offset) in
        check_loop n d (offset + block_len) length (if bad then len_excl_bad else u32 (len_excl_bad + block_len))
          (u32 (used + block_len)) (if bad then 1 else ret)
    else Ok (ret, if length <? len_excl_bad then u32 (used - (len_excl_bad - length)) else used)
  end.
(** The blocks of the device, and one more round to see the end. *)
Definition rounds : nat := S (S (Z.to_nat (mtd_size / erasesize))).
Definition check_skip_len (d : D) (offset length : Z) : res (Z * Z) := check_loop rounds d offset length 0 0 0.

Definition WITH_DROP_FFS : Z := 2.

(** The result, the value of [*length] and the device. *)
Fixpoint write_loop (n : nat) (d : D) (offset length : Z) (p_buffer : list Z) : res (Z * Z * D) :=
  match n with
  | O => Hang
  | S n =>
    let left_to_write := Z.of_nat (List.length p_buffer) in
    if negb (0 <? left_to_write) then Ok (0, length, d)
    else if nand_block_isbad d (block_start offset)
    then write_loop n d (offset + (erasesize - block_off offset)) length p_buffer
    else
      let write_size := if left_to_write <? erasesize - block_off offset then left_to_write else erasesize - block_off offset in
      let '(rval, _, d) := nand_write d offset (take (Z.to_nat write_size) p_buffer) in
      if negb (rval =? 0) then Ok (rval, u32 (length - left_to_write), d)
      else write_loop n d (offset + write_size) length (drop (Z.to_nat write_size) p_buffer)
  end.

(** The result, the values of [*length] and [*actual], and the device. *)
Definition nand_write_skip_bad (d : D) (offset lim : Z) (buffer : list Z) (flags : Z) : res (Z * Z * Z * D) :=
  let length := Z.of_nat (List.length buffer) in
  if negb (Z.land offset (writesize - 1) =? 0) then Ok (- EINVAL, 0, 0, d)
  else
    let* (need_skip, used_for_write) := check_skip_len d offset length in
    if need_skip <? 0 then Ok (- EINVAL, 0, used_for_write, d)
    else if lim <? used_for_write then Ok (- EFBIG, 0, used_for_write, d)
    else if (need_skip =? 0) && negb (tst flags WITH_DROP_FFS) then
      let '(rval, len, d) := nand_write d offset buffer in
      if rval =? 0 then Ok (0, len, used_for_write, d) else Ok (rval, 0, used_for_write, d)
    else
      let* (rval, len, d) := write_loop rounds d offset length buffer in
      Ok (rval, len, used_for_write, d).

(** The result, the value of [*length] and the bytes. *)
Fixpoint read_loop (n : nat) (d : D) (offset length left_to_read : Z) (p_buffer : list Z) : res (Z * Z * list Z) :=
  match n with
  | O => Hang
  | S n =>
    if negb (0 <? left_to_read) then Ok (0, length, p_buffer)
    else if nand_block_isbad d (block_start offset)
    then read_loop n d (offset + (erasesize - block_off offset)) length left_to_read p_buffer
    else
      let read_length := if left_to_read <? erasesize - block_off offset then left_to_read else erasesize - block_off offset in
      let '(rval, bytes) := nand_read d offset read_length in
      if negb (rval =? 0) && negb (rval =? - EUCLEAN) then Ok (rval, u32 (length - left_to_read), p_buffer ++ bytes)
      else
        let read_length := Z.of_nat (List.length bytes) in
        read_loop n d (offset + read_length) length (u32 (left_to_read - read_length)) (p_buffer ++ bytes)
  end.

(** The result, the values of [*length] and [*actual], and the bytes stored in the buffer. *)
Definition nand_read_skip_bad (d : D) (offset length lim : Z) : res (Z * Z * Z * list Z) :=
  if negb (Z.land offset (writesize - 1) =? 0) then Ok (- EINVAL, 0, 0, [])
  else
    let* (need_skip, used_for_read) := check_skip_len d offset length in
    if need_skip <? 0 then Ok (- EINVAL, 0, used_for_read, [])
    else if lim <? used_for_read then Ok (- EFBIG, 0, used_for_read, [])
    else if need_skip =? 0 then
      let '(rval, bytes) := nand_read d offset length in
      if (rval =? 0) || (rval =? - EUCLEAN) then Ok (0, Z.of_nat (List.length bytes), used_for_read, bytes)
      else Ok (rval, 0, used_for_read, bytes)
    else
      let* (rval, len, bytes) := read_loop rounds d offset length length [] in
      Ok (rval, len, used_for_read, bytes).

(** ** What a working device promises *)

(** All blocks of an extent are good. *)
Definition good_extent (d : D) (a n : Z) : Prop :=
  0 <= a /\ a + n <= mtd_size /\ forall x, a <= x < a + n -> mtd_block_isbad d (block_start x) = 0.
Definition is_byte (b : Z) : Prop := 0 <= b < 256.

(** [cells] are the bytes of the device. *)
Class MtdLaws := {
  cells : D -> Z -> Z;
  erasesize_pow : exists j k : nat, writesize = 2 ^ Z.of_nat j /\ erasesize = 2 ^ Z.of_nat k /\ (j <= k)%nat;
  size_blocks : (erasesize | mtd_size) /\ 0 < mtd_size < 2 ^ 31;
  erase_law d a : (erasesize | a) -> good_extent d a erasesize ->
    exists d', mtd_erase d a erasesize false = (0, d') /\
      (forall x, cells d' x = if bool_decide (a <= x < a + erasesize) then 0xFF else cells d x) /\
      (forall x, mtd_block_isbad d' x = mtd_block_isbad d x);
  write_law d a bs : (writesize | a) -> good_extent d a (Z.of_nat (length bs)) -> Forall is_byte bs ->
    (forall x, a <= x < a + Z.of_nat (length bs) -> cells d x = 0xFF) ->
    exists d', mtd_write d a bs = (0, Z.of_nat (length bs), d') /\
      (forall x, cells d' x = if bool_decide (a <= x < a + Z.of_nat (length bs)) then nth (Z.to_nat (x - a)) bs 0 else cells d x) /\
      (forall x, mtd_block_isbad d' x = mtd_block_isbad d x);
  read_law d a n : (writesize | a) -> 0 <= n -> good_extent d a n ->
    exists r, (r = 0 \/ r = - EUCLEAN) /\ mtd_read d a n = (r, map (cells d) (seqZ a n))
}.
End Util.
