(* ===== verification/NandUtilProps.v ===== *)
(** * Areas with bad blocks keep what is written to them ([drivers/mtd/nand/nand_util.c])

    Proved against the laws of the MTD device: an area is written around its bad blocks, and read back the
    same way; and a simulated device that obeys the laws. *)
From S2P Require Import Prelude NandUtil.

Section Skip.
Context {D : Type} {M : Mtd D} {L : MtdLaws}.

(** ** Blocks *)

Lemma erasesize_pos : 0 < erasesize.
Proof using L. destruct erasesize_pow as (j & k & _ & -> & _). lia. Qed.

Lemma block_off_mod o : block_off o = o mod erasesize.
Proof using L. unfold block_off. destruct erasesize_pow as (j & k & _ & -> & _). by rewrite Z.sub_1_r, <- Z.ones_equiv, Z.land_ones by lia. Qed.
Lemma block_start_mod o : block_start o = o - o mod erasesize.
Proof using L.
  unfold block_start. destruct erasesize_pow as (j & k & _ & -> & _).
  rewrite Z.sub_1_r, <- Z.ones_equiv, <- Z.ldiff_land, Z.ldiff_ones_r, Z.shiftl_mul_pow2, Z.shiftr_div_pow2 by lia.
  rewrite (Z.div_mod o (2 ^ Z.of_nat k)) at 2 by lia. lia.
Qed.
Lemma writesize_block o : (writesize | o) -> (writesize | o + (erasesize - o mod erasesize)).
Proof using L.
  destruct erasesize_pow as (j & k & -> & -> & Hjk). intros Ho.
  assert ((2 ^ Z.of_nat j | 2 ^ Z.of_nat k)) as Hd.
  { replace (Z.of_nat k) with (Z.of_nat j + Z.of_nat (k - j)) by lia. rewrite Z.pow_add_r by lia. apply Z.divide_factor_l. }
  replace (o + (2 ^ Z.of_nat k - o mod 2 ^ Z.of_nat k)) with ((o / 2 ^ Z.of_nat k + 1) * 2 ^ Z.of_nat k).
  - by apply Z.divide_mul_r.
  - rewrite (Z.div_mod o (2 ^ Z.of_nat k)) at 2 by lia. lia.
Qed.
Lemma writesize_aligned o : Z.land o (writesize - 1) = 0 <-> (writesize | o).
Proof using L.
  destruct erasesize_pow as (j & k & -> & _). rewrite Z.sub_1_r, <- Z.ones_equiv, Z.land_ones by lia. apply Z.mod_divide. lia.
Qed.

Lemma block_writesize o : (erasesize | o) -> (writesize | o).
Proof using L.
  destruct erasesize_pow as (j & k & -> & -> & Hjk). intros Ho. etransitivity; [|exact Ho].
  replace (Z.of_nat k) with (Z.of_nat j + Z.of_nat (k - j)) by lia. rewrite Z.pow_add_r by lia. apply Z.divide_factor_l.
Qed.

(** Inside the device a block does not cross its end. *)
Lemma block_fits o : 0 <= o < mtd_size -> o + (erasesize - o mod erasesize) <= mtd_size.
Proof using L.
  destruct size_blocks as [[q Hq] _]. pose proof erasesize_pos. intros Ho.
  assert (o / erasesize < q) by (apply Z.div_lt_upper_bound; lia).
  rewrite (Z.div_mod o erasesize) at 1 by lia. rewrite Hq. nia.
Qed.
Lemma block_start_same o x : 0 <= o -> o <= x < o + (erasesize - o mod erasesize) -> block_start x = block_start o.
Proof using L.
  intros Ho Hx. pose proof erasesize_pos. rewrite !block_start_mod. pose proof (Z.div_mod o erasesize). pose proof (Z.mod_pos_bound o erasesize).
  assert (x / erasesize = o / erasesize) as E.
  { symmetry. apply (Z.div_unique x erasesize (o / erasesize) (x - erasesize * (o / erasesize))); [left; lia|lia]. }
  pose proof (Z.div_mod x erasesize). lia.
Qed.
Lemma next_block o : 0 <= o -> (o + (erasesize - o mod erasesize)) / erasesize = o / erasesize + 1.
Proof using L.
  intros Ho. pose proof erasesize_pos. symmetry. apply (Z.div_unique _ _ _ 0); [left; lia|]. pose proof (Z.div_mod o erasesize). lia.
Qed.

Lemma good_block d o n : 0 <= o < mtd_size -> nand_block_isbad d (block_start o) = false -> 0 <= n <= erasesize - o mod erasesize -> good_extent d o n.
Proof using L.
  intros Ho Hg Hn. pose proof (block_fits o Ho). split; [lia|]. split; [lia|]. intros x Hx. rewrite (block_start_same o x) by lia.
  unfold nand_block_isbad in Hg. destruct (Z.eqb_spec (mtd_block_isbad d (block_start o)) 0); [done|discriminate].
Qed.
Lemma good_extent_same d d' a n : (forall x, mtd_block_isbad d' x = mtd_block_isbad d x) -> good_extent d a n -> good_extent d' a n.
Proof using Type. intros Hb (H1 & H2 & H3). split_and!; [done|done|]. intros x Hx. rewrite Hb. auto. Qed.

(** ** The check *)

(** The bytes in good blocks from an offset on. *)
Fixpoint room (n : nat) (d : D) (o : Z) : Z :=
  match n with
  | O => 0
  | S n => if mtd_size <=? o then 0
           else (if nand_block_isbad d (block_start o) then 0 else erasesize - o mod erasesize) + room n d (o + (erasesize - o mod erasesize))
  end.

Lemma room_nonneg n d : forall o, 0 <= room n d o.
Proof using L.
  induction n as [|n IH]; intros o; cbn [room]; [done|]. pose proof erasesize_pos. pose proof (Z.mod_pos_bound o erasesize).
  pose proof (IH (o + (erasesize - o mod erasesize))). repeat case_match; lia.
Qed.

(** The check ends, and it accepts exactly what there is room for. *)
Lemma check_loop_ok n d length : forall o excl used ret, Z.max 0 (mtd_size / erasesize - o / erasesize) < Z.of_nat n ->
  0 <= excl <= o -> 0 <= used <= o -> (ret = 0 \/ ret = 1) -> excl < length -> length < 2 ^ 31 ->
  exists r u, check_loop n d o length excl used ret = Ok (r, u) /\
    if decide (length - excl <= room n d o) then (r = 1 \/ r = ret) /\ 0 <= u <= used + (mtd_size - o) else r = -1.
Proof using L.
  induction n as [|n IH]; intros o excl used ret Hn He Hu Hr Hl Hlen; [lia|]. cbn [check_loop room].
  rewrite (proj2 (Z.ltb_lt excl length)) by done. destruct (Z.leb_spec mtd_size o) as [Ho|Ho].
  { exists (-1), used. split; [done|]. by rewrite decide_False by lia. }
  destruct size_blocks as [Hdiv Hsz]. pose proof erasesize_pos. rewrite block_off_mod. pose proof (Z.mod_pos_bound o erasesize).
  pose proof (block_fits o ltac:(lia)) as Hf. set (bl := erasesize - o mod erasesize) in *.
  rewrite (wrap_small 32 (excl + bl)), (wrap_small 32 (used + bl)) by lia.
  set (bad := nand_block_isbad d (block_start o)). set (excl' := if bad then excl else excl + bl).
  assert (o / erasesize < mtd_size / erasesize) as Hq.
  { destruct Hdiv as [q Hq]. rewrite Hq, Z.div_mul by lia. apply Z.div_lt_upper_bound; lia. }
  destruct (Z.ltb_spec excl' length) as [Hlt|Hge].
  - destruct (IH (o + bl) excl' (used + bl) (if bad then 1 else ret)) as (r & u & E & Hres);
      [unfold bl; rewrite next_block by lia; lia|unfold excl'; destruct bad; lia|lia|destruct bad; auto|done|done|].
    exists r, u. split; [exact E|].
    assert (length - excl <= (if bad then 0 else bl) + room n d (o + bl) <-> length - excl' <= room n d (o + bl)) as Hiff
      by (unfold excl'; destruct bad; lia).
    destruct (decide (length - excl' <= _)) as [Hy|Hy]; [rewrite decide_True by (by apply Hiff)|by rewrite decide_False by (by rewrite Hiff)].
    destruct Hres as [[->|Hr'] Hu']; (split; [|lia]); [by left|]. destruct bad; auto.
  - exists (if bad then 1 else ret). destruct n as [|n]; [lia|]. cbn [check_loop].
    rewrite (proj2 (Z.ltb_ge excl' length)) by lia. eexists. split; [reflexivity|].
    assert (bad = false) as Hb by (destruct bad; [unfold excl' in Hge; lia|done]). pose proof (room_nonneg (S n) d (o + bl)).
    unfold excl' in *. rewrite Hb in *. rewrite decide_True by lia. split; [by right|].
    destruct (Z.ltb_spec length (excl + bl)); [|lia]. rewrite wrap_small by lia. lia.
Qed.

(** ** The loops *)

Definition same_bad (d d' : D) : Prop := forall x, mtd_block_isbad d' x = mtd_block_isbad d x.
(** The good blocks between two offsets are erased. *)
Definition erased_in (d : D) (o e : Z) : Prop := forall x, o <= x < e -> mtd_block_isbad d (block_start x) = 0 -> cells d x = 0xFF.

Lemma same_bad_refl d : same_bad d d.
Proof using Type. done. Qed.
Lemma same_bad_trans d d' d'' : same_bad d d' -> same_bad d' d'' -> same_bad d d''.
Proof using Type. intros H H' x. by rewrite H'. Qed.
Lemma room_same n d d' : same_bad d d' -> forall o, room n d' o = room n d o.
Proof using Type.
  intros Hs. induction n as [|n IH]; intros o; cbn [room]; [done|]. unfold nand_block_isbad. by rewrite Hs, IH.
Qed.
Lemma isbad_same d d' x : same_bad d d' -> nand_block_isbad d' x = nand_block_isbad d x.
Proof using Type. intros Hs. unfold nand_block_isbad. by rewrite Hs. Qed.

(** Bytes in front of [bs], read back. *)
Lemma read_back d d' a bs : (forall x, cells d' x = if bool_decide (a <= x < a + Z.of_nat (length bs)) then nth (Z.to_nat (x - a)) bs 0 else cells d x) ->
  map (cells d') (seqZ a (Z.of_nat (length bs))) = bs.
Proof using Type.
  intros Hc. apply list_eq. intros i. rewrite list_lookup_fmap. destruct (decide (i < length bs)%nat) as [Hi|Hi].
  - rewrite lookup_seqZ_lt by lia. cbn. rewrite Hc, bool_decide_true by lia. replace (Z.to_nat (a + Z.of_nat i - a)) with i by lia.
    destruct (lookup_lt_is_Some_2 bs i Hi) as [b Hb]. by rewrite Hb, (nth_lookup_Some _ _ 0 _ Hb).
  - rewrite lookup_seqZ_ge by lia. rewrite lookup_ge_None_2 by lia. done.
Qed.

(** What the write loop stores, the read loop finds, in any later state that keeps it. *)
Definition stores_at (n : nat) (d' : D) (o : Z) (bs : list Z) : Prop :=
  forall d2 len acc, same_bad d' d2 -> (forall x, o <= x -> cells d2 x = cells d' x) ->
    read_loop n d2 o len (Z.of_nat (length bs)) acc = Ok (0, len, acc ++ bs).

Lemma stores_nothing n d o : stores_at (S n) d o [].
Proof using Type. intros d2 len acc _ _. cbn. by rewrite app_nil_r. Qed.

Lemma write_chunk d o e bs : 0 <= o < mtd_size -> (writesize | o) -> nand_block_isbad d (block_start o) = false -> Forall is_byte bs -> erased_in d o e ->
  Z.of_nat (length bs) <= erasesize - o mod erasesize -> o + Z.of_nat (length bs) <= e ->
  exists d', nand_write d o bs = (0, Z.of_nat (length bs), d') /\ same_bad d d' /\ erased_in d' (o + Z.of_nat (length bs)) e /\
    (forall x, x < o \/ o + Z.of_nat (length bs) <= x -> cells d' x = cells d x) /\
    forall d2, same_bad d' d2 -> (forall x, o <= x < o + Z.of_nat (length bs) -> cells d2 x = cells d' x) ->
      exists r, (r = 0 \/ r = - EUCLEAN) /\ nand_read d2 o (Z.of_nat (length bs)) = (r, bs).
Proof using Type.
  intros Ho Hw Hg Hb He Hl Hend'. pose proof (good_block d o (Z.of_nat (length bs)) Ho Hg ltac:(lia)) as Hgood.
  destruct (write_law d o bs Hw Hgood Hb) as (d' & E & Hc & Hs).
  { intros x Hx. destruct Hgood as (_ & Hend & Hgx). apply He; [lia|]. by apply Hgx. }
  exists d'. split; [exact E|]. split; [exact Hs|]. split_and!.
  - intros x Hx Hbad. rewrite Hc, bool_decide_false by lia. apply He; [lia|]. by rewrite <- Hs.
  - intros x Hx. by rewrite Hc, bool_decide_false by lia.
  - intros d2 Hs2 Hc2. destruct (read_law d2 o (Z.of_nat (length bs)) Hw ltac:(lia)) as (r & Hr & E2).
    { apply (good_extent_same d); [|done]. exact (same_bad_trans _ _ _ Hs Hs2). }
    exists r. split; [done|]. unfold nand_read. rewrite E2. f_equal. rewrite <- (read_back d d' o bs Hc) at 2.
    apply map_ext_in. intros x Hx%list_elem_of_In%elem_of_seqZ. apply Hc2. lia.
Qed.

Lemma skip_loops n : forall d o bs len, Z.of_nat (length bs) <= room n d o -> 0 <= o -> (writesize | o) -> Z.of_nat (length bs) < 2 ^ 31 ->
  Forall is_byte bs -> erased_in d o mtd_size ->
  exists d', write_loop (S n) d o len bs = Ok (0, len, d') /\ same_bad d d' /\ (forall x, x < o -> cells d' x = cells d x) /\ stores_at (S n) d' o bs.
Proof using Type.
  induction n as [|n IH]; intros d o bs len Hroom Ho Hw Hlen Hb He; (destruct (decide (bs = [])) as [->|Hne];
    [exists d; split; [done|]; split; [done|]; split; [done|]; apply stores_nothing|]).
  { destruct bs; [done|]. simpl in Hroom. lia. }
  assert (0 < Z.of_nat (length bs)) as Hpos by (destruct bs; [done|simpl; lia]).
  cbn [room] in Hroom. destruct (Z.leb_spec mtd_size o) as [|Hin]; [lia|]. remember (S n) as n1 eqn:En. cbn [write_loop].
  rewrite (proj2 (Z.ltb_lt 0 _)) by done. cbn [negb]. rewrite block_off_mod. pose proof (Z.mod_pos_bound o erasesize erasesize_pos).
  destruct (nand_block_isbad d (block_start o)) eqn:Hbad.
  - destruct (IH d (o + (erasesize - o mod erasesize)) bs len) as (d' & E & Hs & Hc & Hst); [lia|lia|by apply writesize_block|done|done|intros x Hx; apply He; lia|].
    exists d'. split; [exact E|]. split; [done|]. split; [intros x Hx; apply Hc; lia|].
    intros d2 len2 acc Hs2 Hc2. cbn [read_loop]. rewrite (proj2 (Z.ltb_lt 0 _)) by done. cbn [negb].
    rewrite (isbad_same d d2) by (by eapply same_bad_trans). rewrite Hbad, block_off_mod. apply Hst; [done|]. intros x Hx. apply Hc2. lia.
  - set (bl := erasesize - o mod erasesize) in *. set (ws := if Z.of_nat (length bs) <? bl then Z.of_nat (length bs) else bl).
    assert (ws = Z.min (Z.of_nat (length bs)) bl) as Ews by (unfold ws; destruct (Z.ltb_spec (Z.of_nat (length bs)) bl); lia).
    set (c := take (Z.to_nat ws) bs). set (rest := drop (Z.to_nat ws) bs).
    assert (Z.of_nat (length c) = ws) as Hlc by (unfold c; rewrite length_take; lia).
    assert (Z.of_nat (length rest) = Z.of_nat (length bs) - ws) as Hlr by (unfold rest; rewrite length_drop; lia).
    pose proof (block_fits o ltac:(lia)) as Hfit. fold bl in Hfit.
    destruct (write_chunk d o mtd_size c) as (d1 & E1 & Hs1 & He1 & Hc1 & Hr1); [lia|done|done|by apply Forall_take|done|fold bl; lia|lia|]. rewrite Hlc in *.
    rewrite E1. change (negb (0 =? 0)) with false. cbv iota.
    assert (exists d', write_loop n1 d1 (o + ws) len rest = Ok (0, len, d') /\ same_bad d1 d' /\ (forall x, x < o + ws -> cells d' x = cells d1 x) /\
      stores_at n1 d' (o + ws) rest) as (d' & E & Hs & Hc & Hst).
    { destruct (decide (rest = [])) as [->|Hne'].
      - rewrite En. exists d1. split; [done|]. split; [done|]. split; [done|]. apply stores_nothing.
      - assert (ws = bl) as -> by (destruct rest; [done|simpl in Hlr; lia]).
        apply IH; [rewrite (room_same n d d1) by done; lia|lia|by apply writesize_block|lia|by apply Forall_drop|done]. }
    exists d'. split; [exact E|]. split; [by eapply same_bad_trans|]. split; [intros x Hx; rewrite Hc, Hc1 by lia; done|].
    intros d2 len2 acc Hs2 Hc2. cbn [read_loop]. rewrite (proj2 (Z.ltb_lt 0 _)) by done. cbn [negb].
    assert (same_bad d1 d2) as Hs12 by (by eapply same_bad_trans). rewrite (isbad_same d d2) by (by eapply same_bad_trans). rewrite Hbad, block_off_mod. fold bl ws.
    destruct (Hr1 d2 Hs12) as (r & Hr & Er); [intros x Hx; rewrite Hc2, Hc by lia; done|]. rewrite Er.
    assert (negb (r =? 0) && negb (r =? - EUCLEAN) = false) as -> by (by destruct Hr as [-> | ->]). rewrite Hlc.
    rewrite (wrap_small 32) by lia. rewrite <- Hlr. rewrite Hst; [|done|intros x Hx; apply Hc2; lia]. do 2 f_equal.
    rewrite <- app_assoc. f_equal. apply take_drop.
Qed.

(** ** The operations *)

Lemma check_same n d d' length : same_bad d d' -> forall o excl used ret, check_loop n d' o length excl used ret = check_loop n d o length excl used ret.
Proof using Type.
  intros Hs. induction n as [|n IH]; intros o excl used ret; cbn [check_loop]; [done|]. by rewrite !(isbad_same d d'), IH.
Qed.

Lemma check_bad n d length : forall o excl used r u, check_loop n d o length excl used 1 = Ok (r, u) -> r <> 0.
Proof using Type.
  induction n as [|n IH]; intros o excl used r u; cbn [check_loop]; [done|]. case_match; [|by intros [= <- _]].
  case_match; [by intros [= <- _]|]. assert ((if nand_block_isbad d (block_start o) then 1 else 1) = 1) as -> by (by case_match). apply IH.
Qed.

(** Without a bad block the area is one extent. *)
Lemma check_good n d length : forall o excl used u, check_loop n d o length excl used 0 = Ok (0, u) -> 0 <= excl <= o -> length < 2 ^ 31 ->
  excl < length -> good_extent d o (length - excl).
Proof using L.
  induction n as [|n IH]; intros o excl used u; cbn [check_loop]; [done|]. intros E He Hlen Hlt. revert E.
  rewrite (proj2 (Z.ltb_lt excl length)) by done. destruct (Z.leb_spec mtd_size o); [done|]. rewrite block_off_mod.
  pose proof (Z.mod_pos_bound o erasesize erasesize_pos). pose proof (block_fits o ltac:(lia)). destruct size_blocks as [_ Hsz].
  destruct (nand_block_isbad d (block_start o)) eqn:Hb; [by intros E%check_bad|]. rewrite (wrap_small 32 (excl + _)) by lia. intros E.
  destruct (good_block d o (erasesize - o mod erasesize)) as (_ & _ & Hg); [lia|done|lia|].
  destruct (Z.lt_decidable (excl + (erasesize - o mod erasesize)) length) as [Hl|Hl].
  - destruct (IH _ _ _ _ E ltac:(lia) Hlen Hl) as (_ & Hend & Hg'). split_and!; [lia|lia|]. intros x Hx.
    destruct (decide (x < o + (erasesize - o mod erasesize))); [apply Hg; lia|apply Hg'; lia].
  - split_and!; [lia|lia|]. intros x Hx. apply Hg. lia.
Qed.

Lemma room_stable n d : forall o, 0 <= o -> Z.max 0 (mtd_size / erasesize - o / erasesize) <= Z.of_nat n -> room (S n) d o = room n d o.
Proof using L.
  induction n as [|n IH]; intros o Ho Hn; pose proof erasesize_pos; pose proof (Z.mod_pos_bound o erasesize).
  - assert (mtd_size <= o) as Hle.
    { destruct size_blocks as [[q Hq] _]. rewrite Hq, Z.div_mul in Hn by lia. pose proof (Z.div_mod o erasesize). rewrite Hq. nia. }
    cbn [room]. by rewrite (proj2 (Z.leb_le mtd_size o)).
  - remember (S n) as n1 eqn:En. cbn [room]. rewrite En. cbn [room]. fold (room (S n)). destruct (mtd_size <=? o); [done|]. f_equal.
    rewrite En in IH. apply IH; [lia|]. rewrite next_block by lia. lia.
Qed.

Lemma rounds_enough o : 0 <= o -> Z.max 0 (mtd_size / erasesize - o / erasesize) < Z.of_nat rounds - 1.
Proof using L.
  intros Ho. unfold rounds. pose proof erasesize_pos. destruct size_blocks as [_ Hsz].
  assert (0 <= o / erasesize) by (apply Z.div_pos; lia). assert (0 <= mtd_size / erasesize) by (apply Z.div_pos; lia). lia.
Qed.

(** The bytes that can be stored from an offset on. *)
Definition capacity (d : D) (o : Z) : Z := room rounds d o.

Section Area.
Context (d : D) (o lim : Z) (bs : list Z) (flags : Z).
Context (Ho : 0 <= o) (Hw : (writesize | o)) (Hne : bs <> []) (Hlen : Z.of_nat (length bs) < 2 ^ 31) (Hb : Forall is_byte bs).
Context (He : erased_in d o mtd_size) (Hlim : mtd_size - o <= lim) (Hf : tst flags WITH_DROP_FFS = false).

Lemma check_area : exists r u, check_skip_len d o (Z.of_nat (length bs)) = Ok (r, u) /\
  if decide (Z.of_nat (length bs) <= capacity d o) then (r = 1 \/ r = 0) /\ 0 <= u <= mtd_size - o else r = -1.
Proof using L Ho Hne Hlen Hb.
  pose proof (rounds_enough o Ho). assert (0 < Z.of_nat (length bs)) by (destruct bs; [done|simpl; lia]).
  destruct (check_loop_ok rounds d (Z.of_nat (length bs)) o 0 0 0) as (r & u & E & Hr); [lia|lia|lia|by left|lia|done|].
  exists r, u. split; [exact E|]. by rewrite Z.sub_0_r in Hr.
Qed.

(** The area holds [bs], and reading it gives [bs]. *)
Definition area_holds (d' : D) (act : Z) : Prop :=
  forall d2, same_bad d' d2 -> (forall x, o <= x -> cells d2 x = cells d' x) ->
    nand_read_skip_bad d2 o (Z.of_nat (length bs)) lim = Ok (0, Z.of_nat (length bs), act, bs).

Lemma write_area :
  if decide (Z.of_nat (length bs) <= capacity d o) then
    exists act d', nand_write_skip_bad d o lim bs flags = Ok (0, Z.of_nat (length bs), act, d') /\
      same_bad d d' /\ (forall x, x < o -> cells d' x = cells d x) /\ area_holds d' act
  else exists act, nand_write_skip_bad d o lim bs flags = Ok (- EINVAL, 0, act, d).
Proof using All.
  unfold nand_write_skip_bad. rewrite (proj2 (writesize_aligned o)) by done. change (negb (0 =? 0)) with false. cbv iota.
  destruct check_area as (r & u & E & Hr). rewrite E. cbn [res_bind]. destruct (decide _) as [Hroom|_]; [|subst r; by exists u].
  destruct Hr as [Hr Hu]. rewrite (proj2 (Z.ltb_ge r 0)), (proj2 (Z.ltb_ge lim u)) by lia. rewrite Hf. cbn [negb]. rewrite andb_true_r.
  assert (forall d' d2, same_bad d d' -> same_bad d' d2 -> check_skip_len d2 o (Z.of_nat (length bs)) = Ok (r, u)) as E2.
  { intros d' d2 H1 H2. unfold check_skip_len. rewrite (check_same rounds d d2); [exact E|by eapply same_bad_trans]. }
  assert (forall d2, check_skip_len d2 o (Z.of_nat (length bs)) = Ok (r, u) ->
    nand_read_skip_bad d2 o (Z.of_nat (length bs)) lim = if r =? 0 then
      let '(rval, bytes) := nand_read d2 o (Z.of_nat (length bs)) in
      if (rval =? 0) || (rval =? - EUCLEAN) then Ok (0, Z.of_nat (length bytes), u, bytes) else Ok (rval, 0, u, bytes)
    else let* (rval, len, bytes) := read_loop rounds d2 o (Z.of_nat (length bs)) (Z.of_nat (length bs)) [] in Ok (rval, len, u, bytes)) as Hread.
  { intros d2 Ed. unfold nand_read_skip_bad. rewrite (proj2 (writesize_aligned o)) by done. change (negb (0 =? 0)) with false. cbv iota.
    rewrite Ed. cbn [res_bind]. by rewrite (proj2 (Z.ltb_ge r 0)), (proj2 (Z.ltb_ge lim u)) by lia. }
  destruct (Z.eqb_spec r 0) as [->|Hr0].
  - assert (0 < Z.of_nat (length bs)) by (destruct bs; [done|simpl; lia]).
    assert (good_extent d o (Z.of_nat (length bs))) as Hg by (rewrite <- (Z.sub_0_r (Z.of_nat _)); apply (check_good rounds d _ o 0 0 u E); lia).
    destruct (write_law d o bs Hw Hg Hb) as (d' & Ew & Hc & Hs). { intros x Hx. apply He; [destruct Hg; lia|]. by apply Hg. }
    unfold nand_write. rewrite Ew. change (0 =? 0) with true. cbv iota. exists u, d'. split; [done|]. split; [exact Hs|].
    split; [intros x Hx; by rewrite Hc, bool_decide_false by lia|]. intros d2 Hs2 Hc2. rewrite (Hread d2 (E2 d' d2 Hs Hs2)). unfold nand_read.
    destruct (read_law d2 o (Z.of_nat (length bs)) Hw ltac:(lia)) as (rv & Hrv & ->).
    { apply (good_extent_same d); [|done]. exact (same_bad_trans _ _ _ Hs Hs2). }
    assert (map (cells d2) (seqZ o (Z.of_nat (length bs))) = bs) as ->.
    { rewrite <- (read_back d d' o bs Hc) at 2. apply map_ext_in. intros x Hx%list_elem_of_In%elem_of_seqZ. apply Hc2. lia. }
    by destruct Hrv as [-> | ->].
  - pose proof (rounds_enough o Ho) as Hro. assert (exists n, rounds = S n) as [n En] by (by eexists).
    unfold capacity in Hroom. rewrite En in *. rewrite room_stable in Hroom by lia.
    destruct (skip_loops n d o bs (Z.of_nat (length bs)) Hroom Ho Hw Hlen Hb He) as (d' & -> & Hs & Hc & Hst). cbn [res_bind].
    exists u, d'. split; [done|]. split; [done|]. split; [done|]. intros d2 Hs2 Hc2. rewrite (Hread d2 (E2 d' d2 Hs Hs2)). 
    by rewrite Hst by done.
Qed.
End Area.

(** ** Erasing *)

Lemma block_start_aligned a : (erasesize | a) -> block_start a = a.
Proof using L. intros [q ->]. rewrite block_start_mod, Z.mod_mul by (pose proof erasesize_pos; lia). lia. Qed.

(** The options of a plain erase. *)
Definition plain_erase (opts : nand_erase_options) : Prop :=
  scrub opts = false /\ jffs2 opts = false /\ spread opts = false /\ lim_ opts = 0.

Lemma erase_loop_ok opts total : plain_erase opts -> total < 2 ^ 31 -> forall k n addr erased d, (k < n)%nat ->
  (erasesize | addr) -> 0 <= addr -> addr + Z.of_nat k * erasesize <= mtd_size -> 0 <= erased -> erased + Z.of_nat k = total ->
  (forall x, 0 <= mtd_block_isbad d x) ->
  exists d', erase_loop n opts total erased addr d = Ok (0, d') /\ same_bad d d' /\ erased_in d' addr (addr + Z.of_nat k * erasesize) /\
    forall x, x < addr \/ addr + Z.of_nat k * erasesize <= x -> cells d' x = cells d x.
Proof using Type.
  intros (Hscrub & Hj & Hspread & Hlim) Ht. induction k as [|k IH]; intros [|n] addr erased d Hn Ha Hpos Hfit He Hsum Hbad; try lia; cbn [erase_loop].
  { rewrite (proj2 (Z.ltb_ge erased total)) by lia. exists d. split_and!; [done|done|intros x Hx; lia|done]. }
  rewrite (proj2 (Z.ltb_lt erased total)), Hlim, Hscrub by lia. cbn [negb andb]. change (negb (0 =? 0)) with false. cbn [andb].
  pose proof erasesize_pos. rewrite (wrap_small 32 (erased + 1)), Hspread by lia. assert ((erasesize | addr + erasesize)) as Ha' by (by apply Z.divide_add_r).
  assert (addr mod erasesize = 0) as Hmod by (by apply Z.mod_divide; [lia|]).
  destruct (Z.ltb_spec 0 (mtd_block_isbad d addr)) as [Hb|Hg].
  - destruct (IH n (addr + erasesize) (erased + 1) d) as (d' & E & Hs & Her & Hc); [lia|done|lia|lia|lia|lia|done|].
    exists d'. split; [exact E|]. split; [done|]. split; [|intros x Hx; apply Hc; lia]. intros x Hx Hxb.
    destruct (decide (x < addr + erasesize)); [|apply Her; [lia|done]]. exfalso.
    rewrite (block_start_same addr x), block_start_aligned, Hs in Hxb by (done || lia). lia.
  - pose proof (Hbad addr). rewrite (proj2 (Z.ltb_ge (mtd_block_isbad d addr) 0)) by lia.
    destruct (erase_law d addr Ha) as (d1 & E1 & Hc1 & Hs1).
    { apply good_block; [lia| |lia]. unfold nand_block_isbad. rewrite block_start_aligned by done. replace (mtd_block_isbad d addr) with 0 by lia. done. }
    rewrite E1, Hj. change (negb (0 =? 0)) with false. cbn [andb]. cbv iota.
    destruct (IH n (addr + erasesize) (erased + 1) d1) as (d' & E & Hs & Her & Hc); [lia|done|lia|lia|lia|lia|intros x; rewrite Hs1; apply Hbad|].
    exists d'. split; [exact E|]. split; [exact (same_bad_trans _ _ _ Hs1 Hs)|]. split.
    + intros x Hx Hxb. destruct (decide (x < addr + erasesize)); [|apply Her; [lia|done]]. rewrite Hc by lia. by rewrite Hc1, bool_decide_true by lia.
    + intros x Hx. rewrite Hc by lia. by rewrite Hc1, bool_decide_false by lia.
Qed.

Lemma erase_area d opts k : plain_erase opts -> (erasesize | offset_ opts) -> 0 <= offset_ opts -> length_ opts = Z.of_nat k * erasesize ->
  offset_ opts + length_ opts <= mtd_size -> (forall x, 0 <= mtd_block_isbad d x) ->
  exists d', nand_erase_opts d opts = Ok (0, d') /\ same_bad d d' /\ erased_in d' (offset_ opts) (offset_ opts + length_ opts) /\
    forall x, x < offset_ opts \/ offset_ opts + length_ opts <= x -> cells d' x = cells d x.
Proof using L.
  intros Hp Ha Hpos Hl Hfit Hbad. pose proof erasesize_pos. destruct size_blocks as [_ Hsz]. unfold nand_erase_opts.
  rewrite block_off_mod. assert (offset_ opts mod erasesize = 0) as -> by (by apply Z.mod_divide; [lia|]). change (negb (0 =? 0)) with false. cbv iota.
  assert ((length_ opts + erasesize - 1) / erasesize = Z.of_nat k) as ->.
  { symmetry. apply (Z.div_unique _ _ _ (erasesize - 1)); [left; lia|]. lia. }
  assert (Z.of_nat k < 2 ^ 31) by nia. rewrite wrap_small by lia. rewrite (proj1 Hp). assert (0 <= mtd_size / erasesize) by (apply Z.div_pos; lia).
  destruct (erase_loop_ok opts (Z.of_nat k) Hp ltac:(lia) k (S (Z.to_nat (Z.of_nat k + mtd_size / erasesize))) (offset_ opts) 0 d) as (d' & -> & Hr1 & Hr2 & Hr3);
    [lia|done|done|lia|lia|lia|done|]. cbn [res_bind andb]. exists d'. rewrite Hl. done.
Qed.
End Skip.

(** ** The theorem *)

(** C20: an area of the flash keeps what is written to it, around its bad blocks.  On an erased device that
    obeys the laws, a page-aligned write of at least one byte, with a limit that is not below what is left of the
    device and without dropping trailing 0xFF bytes, succeeds exactly if the good blocks up to the end of the device have room for it; it changes nothing before its offset, and a read of the same length then
    returns the bytes written, also after later changes in front of the area.  Without room nothing is written,
    and the result is [-EINVAL]. *)
Theorem skip_bad_roundtrip {D} {M : Mtd D} {L : MtdLaws} (d : D) o lim bs flags :
  0 <= o -> (writesize | o) -> bs <> [] -> Z.of_nat (length bs) < 2 ^ 31 -> Forall is_byte bs ->
  erased_in d o mtd_size -> mtd_size - o <= lim -> tst flags WITH_DROP_FFS = false ->
  if decide (Z.of_nat (length bs) <= capacity d o) then
    exists act d', nand_write_skip_bad d o lim bs flags = Ok (0, Z.of_nat (length bs), act, d') /\
      (forall x, x < o -> cells d' x = cells d x) /\
      forall d2, same_bad d' d2 -> (forall x, o <= x -> cells d2 x = cells d' x) ->
        nand_read_skip_bad d2 o (Z.of_nat (length bs)) lim = Ok (0, Z.of_nat (length bs), act, bs)
  else exists act, nand_write_skip_bad d o lim bs flags = Ok (- EINVAL, 0, act, d).
Proof.
  intros Ho Hw Hne Hlen Hb He Hlim Hf. pose proof (write_area d o lim bs flags Ho Hw Hne Hlen Hb He Hlim Hf) as H.
  destruct (decide _); [|done]. destruct H as (act & d' & E & _ & Hc & Ha). exists act, d'. by split_and!.
Qed.

(** ** A device *)

(** Pages of [2 ^ j] bytes, [q] blocks of [2 ^ k] bytes; a write clears bits. *)
Module SimMtd.
Record chip (j k q : nat) := Chip { bad : Z -> bool; mem : Z -> Z }.
Arguments Chip {j k q} _ _.
Arguments bad {j k q} _ _.
Arguments mem {j k q} _ _.
Definition inside (a n x : Z) : bool := bool_decide (a <= x < a + n).

#[global] Instance ops j k q : Mtd (chip j k q) := {
  erasesize := 2 ^ Z.of_nat k; writesize := 2 ^ Z.of_nat j; mtd_size := Z.of_nat q * 2 ^ Z.of_nat k; oobavail := 0;
  mtd_block_isbad c a := if bad c (a / 2 ^ Z.of_nat k) then 1 else 0;
  mtd_erase c a n _ := (0, Chip (bad c) (fun x => if inside a n x then 0xFF else mem c x));
  mtd_read c a n := (0, map (mem c) (seqZ a n));
  mtd_write c a bs := (0, Z.of_nat (length bs), Chip (bad c) (fun x => if inside a (Z.of_nat (length bs)) x then mem c x .& nth (Z.to_nat (x - a)) bs 0 else mem c x));
  mtd_write_oob c _ _ := (0, c);
  drop_bbt c := c;
  scan_bbt c := c
}.

Program Definition laws j k q (Hjk : (j <= k)%nat) (Hq : 0 < Z.of_nat q * 2 ^ Z.of_nat k < 2 ^ 31) : @MtdLaws (chip j k q) (ops j k q) := {| cells := mem |}.
Next Obligation. intros j k q Hjk Hq. exists j, k. done. Qed.
Next Obligation. intros j k q Hjk Hq. split; [|done]. apply Z.divide_factor_r. Qed.
Next Obligation. intros j k q Hjk Hq d a Ha Hg. by eexists. Qed.
Next Obligation.
  intros j k q Hjk Hq d a bs Ha Hg Hb He. eexists. split; [reflexivity|]. split; [|done]. intros x. cbn. unfold inside. case_bool_decide as Hx; [|done].
  rewrite (He x Hx). change 0xFF with (Z.ones 8). rewrite Z.land_comm, Z.land_ones by lia. apply Z.mod_small.
  assert (Z.to_nat (x - a) < length bs)%nat as Hl by lia. destruct (lookup_lt_is_Some_2 bs _ Hl) as [b Eb]. rewrite (nth_lookup_Some _ _ 0 _ Eb).
  by apply (Forall_lookup_1 _ _ _ _ Hb Eb).
Qed.
Next Obligation. intros j k q Hjk Hq d a n Ha Hn Hg. exists 0. auto. Qed.
End SimMtd.

(** Ten erased blocks of four bytes; the second is bad. *)
Definition blank_chip : SimMtd.chip 1 2 10 := SimMtd.Chip (fun b => b =? 1) (fun _ => 0xFF).

Lemma skip_bad_roundtrip_witness :
  exists act (d' : SimMtd.chip 1 2 10), nand_write_skip_bad blank_chip 2 40 [1; 2; 3; 4; 5] 0 = Ok (0, 5, act, d') /\
    nand_read_skip_bad d' 2 5 40 = Ok (0, 5, act, [1; 2; 3; 4; 5]).
Proof.
  pose proof (@skip_bad_roundtrip _ _ (SimMtd.laws 1 2 10 ltac:(lia) ltac:(simpl; lia)) blank_chip 2 40 [1; 2; 3; 4; 5] 0) as H.
  assert (capacity blank_chip 2 = 34) as Hc by (vm_compute; reflexivity). rewrite Hc in H. rewrite decide_True in H by (simpl; lia).
  destruct H as (act & d' & E & _ & Hr); [lia|by exists 1|done|simpl; lia|by repeat constructor|done|done|reflexivity|].
  exists act, d'. split; [exact E|]. apply (Hr d'); done.
Defined.

(** A device whose blocks cannot be erased: the failure is not reported. *)
Module DeadMtd.
Definition ops : Mtd unit := {|
  erasesize := 4; writesize := 2; mtd_size := 40; oobavail := 0;
  mtd_block_isbad _ _ := 0; mtd_erase _ _ _ _ := (-5, tt); mtd_read _ _ _ := (-5, []); mtd_write _ _ _ := (-5, 0, tt);
  mtd_write_oob _ _ _ := (-5, tt); drop_bbt _ := tt; scan_bbt _ := tt
|}.
End DeadMtd.
Example erase_failure_unreported :
  @nand_erase_opts unit DeadMtd.ops tt
    {| length_ := 8; offset_ := 0; quiet := true; jffs2 := false; scrub := false; spread := false; lim_ := 0 |} = Ok (0, tt).
Proof. reflexivity. Qed.
