(* ===== verification/EnvNand.v ===== *)
(** * The environment in the NAND flash ([common/env_nand.c])

    One copy, at [CONFIG_ENV_OFFSET], in an area of [CONFIG_ENV_RANGE] bytes; its bad blocks are skipped. *)
From S2P Require Import Prelude Ctype Cstring CstrProps Crc Hashtable HashProps EnvText EnvFlags Env NandUtil.

Definition CONFIG_ENV_OFFSET : Z := 256 * 1024.

(** [env_t] in memory: the checksum, low byte first, and the data. *)
Definition env_bytes (ep : env_t) : list Z := le32 (crc ep) ++ env_data ep.
Definition env_of_bytes (l : list Z) : env_t := {| crc := of_le32 (take 4 l); env_data := drop 4 l |}.

Section Storage.
Context {D : Type} {M : Mtd D}.
Context (malloc_ok : list Z -> bool) (calloc_ok : Z -> bool) (env_callback_init env_flags_init : ENTRY -> ENTRY).
Context (default_environment : list Z) (CONFIG_ENV_RANGE : Z).

(** The address of the default environment and that it is valid. *)
Definition env_init (w : env_state) : env_state :=
  {| htab := htab w; gd_flags := gd_flags w; env_valid := 1; env_addr := default_environment; env_id := env_id w |}.

(** [len] bytes from [buf + amount] on. *)
Definition chunk (buf : list Z) (amount len : Z) : res (list Z) :=
  if decide (amount + len <= Z.of_nat (length buf)) then Ok (take (Z.to_nat len) (drop (Z.to_nat amount) buf)) else Ub.

Fixpoint writeenv_loop (n : nat) (d : D) (offset end_ len amount_saved : Z) (buf : list Z) : res (Z * D) :=
  match n with
  | O => Hang
  | S n =>
    if (amount_saved <? CONFIG_ENV_SIZE) && (offset <? end_) then
      if nand_block_isbad d offset then writeenv_loop n d (u32 (offset + erasesize)) end_ len amount_saved buf
      else
        let* bytes := chunk buf amount_saved len in
        let '(r, len, d) := nand_write d offset bytes in
        if negb (r =? 0) then Ok (1, d)
        else writeenv_loop n d (u32 (offset + erasesize)) end_ len (u32 (amount_saved + len)) buf
    else Ok (if negb (amount_saved =? CONFIG_ENV_SIZE) then 1 else 0, d)
  end.
(** One round for every block of the area, and one to see its end. *)
Definition area_rounds : nat := S (S (Z.to_nat (CONFIG_ENV_RANGE / erasesize))).
Definition writeenv (d : D) (offset : Z) (buf : list Z) : res (Z * D) :=
  writeenv_loop area_rounds d offset (u32 (offset + CONFIG_ENV_RANGE)) (Z.min erasesize CONFIG_ENV_SIZE) 0 buf.

Record env_location := { erase_opts : nand_erase_options }.

Definition erase_and_write_env (d : D) (location : env_location) (env_new : list Z) : res (Z * D) :=
  let* (r, d) := nand_erase_opts d (erase_opts location) in
  if negb (r =? 0) then Ok (1, d) else writeenv d (offset_ (erase_opts location)) env_new.

Definition location0 : env_location :=
  {| erase_opts := {| length_ := CONFIG_ENV_RANGE; offset_ := CONFIG_ENV_OFFSET; quiet := false; jffs2 := false; scrub := false;
                      spread := false; lim_ := 0 |} |}.

(** [junk] is what the buffer on the stack held, at address [addr]. *)
Definition saveenv (w : env_state) (addr : Z) (junk : list Z) (d : D) : res (Z * D) :=
  if CONFIG_ENV_RANGE <? CONFIG_ENV_SIZE then Ok (1, d)
  else
    let* (len, buf, _) := hexport_r calloc_ok (htab w) 0 0 (Some junk) ENV_SIZE [] in
    if len <? 0 then Ok (1, d)
    else
      let* data := res_of_option buf in
      let env_new := {| crc := crc32 0 addr data; env_data := data |} in
      erase_and_write_env d location0 (env_bytes env_new).

(** The result and the bytes in the buffer. *)
Fixpoint readenv_loop (n : nat) (d : D) (offset end_ len amount_loaded : Z) (buf : list Z) : res (Z * list Z) :=
  match n with
  | O => Hang
  | S n =>
    if (amount_loaded <? CONFIG_ENV_SIZE) && (offset <? end_) then
      if nand_block_isbad d offset then readenv_loop n d (u32 (offset + erasesize)) end_ len amount_loaded buf
      else
        let* (r, len, _, bytes) := nand_read_skip_bad d offset len mtd_size in
        if negb (r =? 0) then Ok (1, buf ++ bytes)
        else readenv_loop n d (u32 (offset + erasesize)) end_ len (u32 (amount_loaded + len)) (buf ++ bytes)
    else Ok (if negb (amount_loaded =? CONFIG_ENV_SIZE) then 1 else 0, buf)
  end.
Definition readenv (d : D) (offset : Z) : res (Z * list Z) :=
  if erasesize =? 0 then Ok (1, [])
  else readenv_loop area_rounds d offset (u32 (offset + CONFIG_ENV_RANGE)) (Z.min erasesize CONFIG_ENV_SIZE) 0 [].

Definition env_relocate_spec (d : D) (addr : Z) (w : env_state) : res env_state :=
  let* (ret, buf) := readenv d CONFIG_ENV_OFFSET in
  if negb (ret =? 0) then
    set_default_env malloc_ok calloc_ok env_callback_init env_flags_init default_environment (Some (cstr "!readenv() failed")) w
  else
    let* (_, w) := env_import malloc_ok calloc_ok env_callback_init env_flags_init default_environment addr (env_of_bytes buf) true w in
    Ok w.
End Storage.
