(* ===== verification/EnvSave.v ===== *)
(** * The environment survives a reboot ([common/env_nand.c], [common/env_common.c])

    What is saved to the NAND flash is what the next boot imports: the export of the table, its checksum, the
    blocks of the area around the bad ones, and back. *)
From S2P Require Import Prelude Ctype Cstring CstrProps Crc Hashtable HashProps EnvText EnvProps EnvFlags Env EnvGet NandUtil NandUtilProps EnvNand.

(** ** The header *)

Lemma le32_bytes x : Forall is_byte (le32 x).
Proof. apply Forall_map, Forall_forall. intros i _. unfold compose. change 0xFF with (Z.ones 8). rewrite Z.land_ones by lia. apply Z.mod_pos_bound. lia. Qed.
Lemma env_bytes_of ep : 0 <= crc ep < 2 ^ 32 -> env_of_bytes (env_bytes ep) = ep.
Proof.
  intros Hc. unfold env_of_bytes, env_bytes. rewrite take_app_length', drop_app_length' by done. rewrite le32_of by done. by destruct ep.
Qed.

(** ** The blocks *)

Section Blocks.
Context {D : Type} {M : Mtd D} {L : MtdLaws}.

(** The bytes of the environment in a block. *)
Definition block_len : Z := Z.min erasesize CONFIG_ENV_SIZE.

Lemma block_len_pos : 0 < block_len <= erasesize.
Proof using L. unfold block_len, CONFIG_ENV_SIZE. pose proof erasesize_pos. lia. Qed.
Lemma block_len_divides : (block_len | CONFIG_ENV_SIZE).
Proof using L.
  unfold block_len. destruct erasesize_pow as (j & k & _ & E & _). destruct (decide (k <= 17)%nat) as [Hk|Hk].
  - assert ((erasesize | CONFIG_ENV_SIZE)) as Hd.
    { rewrite E. change CONFIG_ENV_SIZE with (2 ^ 17). replace 17 with (Z.of_nat k + Z.of_nat (17 - k)) by lia.
      rewrite Z.pow_add_r by lia. apply Z.divide_factor_l. }
    rewrite Z.min_l; [done|]. by apply Z.divide_pos_le in Hd.
  - rewrite Z.min_r; [done|]. rewrite E. change CONFIG_ENV_SIZE with (2 ^ 17). apply Z.pow_le_mono_r; lia.
Qed.

(** The good blocks among [k] blocks. *)
Fixpoint good_count (k : nat) (d : D) (o : Z) : Z :=
  match k with O => 0 | S k => (if nand_block_isbad d o then 0 else 1) + good_count k d (o + erasesize) end.
Lemma good_count_same k d d' : same_bad d d' -> forall o, good_count k d' o = good_count k d o.
Proof using Type. intros Hs. induction k as [|k IH]; intros o; cbn [good_count]; [done|]. by rewrite (isbad_same d d'), IH. Qed.

(** A read inside a good block. *)
Lemma read_one_block d o l : (erasesize | o) -> 0 <= o < mtd_size -> nand_block_isbad d o = false -> 0 < l <= erasesize ->
  nand_read_skip_bad d o l mtd_size =
    let '(rval, bytes) := nand_read d o l in
    if (rval =? 0) || (rval =? - EUCLEAN) then Ok (0, Z.of_nat (length bytes), l, bytes) else Ok (rval, 0, l, bytes).
Proof using L.
  intros Ho Hin Hg Hl. pose proof erasesize_pos. destruct size_blocks as [_ Hsz]. assert (o mod erasesize = 0) as Hm by (by apply Z.mod_divide; [lia|]).
  pose proof (block_fits o Hin) as Hf. rewrite Hm, Z.sub_0_r in Hf.
  pose proof (block_writesize o Ho) as Hw.
  assert (check_skip_len d o l = Ok (0, l)) as Ec.
  { unfold check_skip_len, rounds. cbn [check_loop]. rewrite (proj2 (Z.ltb_lt 0 l)), (proj2 (Z.leb_gt mtd_size o)) by lia.
    rewrite block_off_mod, Hm, Z.sub_0_r, block_start_aligned, Hg by done. rewrite !Z.add_0_l, !(wrap_small 32 erasesize) by lia.
    rewrite (proj2 (Z.ltb_ge erasesize l)) by lia. destruct (Z.ltb_spec l erasesize); [|do 2 f_equal; lia].
    rewrite wrap_small by lia. do 2 f_equal. lia. }
  unfold nand_read_skip_bad. rewrite (proj2 (writesize_aligned o) Hw). change (negb (0 =? 0)) with false. cbv iota.
  rewrite Ec. cbn [res_bind]. change (0 <? 0) with false. rewrite (proj2 (Z.ltb_ge mtd_size l)) by lia. done.
Qed.

Lemma env_loops k : forall n d o e amount buf, (k < n)%nat -> (erasesize | o) -> 0 <= o -> e = o + Z.of_nat k * erasesize -> e <= mtd_size ->
  Z.of_nat (length buf) = CONFIG_ENV_SIZE -> Forall is_byte buf -> (block_len | amount) -> 0 <= amount <= CONFIG_ENV_SIZE ->
  CONFIG_ENV_SIZE - amount <= block_len * good_count k d o -> erased_in d o e ->
  exists d', writeenv_loop n d o e block_len amount buf = Ok (0, d') /\ same_bad d d' /\
    (forall x, x < o \/ e <= x -> cells d' x = cells d x) /\
    forall d2, same_bad d' d2 -> (forall x, o <= x < e -> cells d2 x = cells d' x) ->
      forall acc, readenv_loop n d2 o e block_len amount acc = Ok (0, acc ++ drop (Z.to_nat amount) buf).
Proof using L.
  induction k as [|k IH]; intros [|n] d o e amount buf Hn Ho Hpos -> Hfit Hbuf Hbytes Hdiv Ham Hroom He; try lia;
    (destruct (decide (amount = CONFIG_ENV_SIZE)) as [->|Hne];
     [exists d; cbn [writeenv_loop readenv_loop]; rewrite Z.ltb_irrefl, Z.eqb_refl; cbn [andb negb]; split_and!; try done;
      intros d2 _ _ acc; rewrite drop_ge, app_nil_r by lia; done|]).
  { cbn [good_count] in Hroom. lia. }
  destruct size_blocks as [_ Hsz]. pose proof erasesize_pos. pose proof block_len_pos as Hbl. cbn [good_count] in Hroom.
  assert (amount + block_len <= CONFIG_ENV_SIZE) as Hnext.
  { destruct Hdiv as [q Hq], block_len_divides as [q' Hq']. assert (q < q') by nia. nia. }
  assert ((erasesize | o + erasesize)) as Ho' by (by apply Z.divide_add_r). assert (o mod erasesize = 0) as Hm by (by apply Z.mod_divide; [lia|]).
  set (e := o + Z.of_nat (S k) * erasesize) in *. assert (e = o + erasesize + Z.of_nat k * erasesize) as He' by (unfold e; lia).
  assert (o + erasesize <= e) by (rewrite He'; nia).
  assert ((amount <? CONFIG_ENV_SIZE) && (o <? e) = true) as Hgo by (apply andb_true_iff; split; apply Z.ltb_lt; lia).
  cbn [writeenv_loop]. rewrite Hgo, (wrap_small 32 (o + erasesize)) by lia. destruct (nand_block_isbad d o) eqn:Hbad.
  - destruct (IH n d (o + erasesize) e amount buf) as (d' & E & Hs & Hc & Hr); [lia|done|lia|lia|lia|done|done|done|lia|lia|intros x Hx; apply He; lia|].
    exists d'. split; [exact E|]. split; [done|]. split; [intros x Hx; apply Hc; lia|]. intros d2 Hs2 Hc2 acc. cbn [readenv_loop].
    rewrite Hgo, (isbad_same d d2), Hbad by (by eapply same_bad_trans). rewrite (wrap_small 32 (o + erasesize)) by lia.
    apply Hr; [done|]. intros x Hx. apply Hc2. lia.
  - set (c := take (Z.to_nat block_len) (drop (Z.to_nat amount) buf)).
    assert (Z.of_nat (length c) = block_len) as Hlc by (unfold c; rewrite length_take, length_drop; lia).
    assert (chunk buf amount block_len = Ok c) as -> by (unfold chunk; by rewrite decide_True by lia). cbn [res_bind].
    destruct (write_chunk d o e c) as (d1 & E1 & Hs1 & He1 & Hc1 & Hr1);
      [lia|by apply block_writesize|by rewrite block_start_aligned|by apply Forall_take, Forall_drop|done|lia|lia|].
    rewrite E1, Hlc in *. change (negb (0 =? 0)) with false. cbv iota. rewrite (wrap_small 32 (amount + block_len)) by (unfold CONFIG_ENV_SIZE in *; lia).
    destruct (IH n d1 (o + erasesize) e (amount + block_len) buf) as (d' & E & Hs & Hc & Hr);
      [lia|done|lia|lia|lia|done|done|by apply Z.divide_add_r|lia|rewrite (good_count_same k d d1) by done; lia|intros x Hx; apply He1; lia|].
    exists d'. split; [exact E|]. split; [by eapply same_bad_trans|]. split; [intros x Hx; rewrite Hc, Hc1 by lia; done|].
    intros d2 Hs2 Hc2 acc. cbn [readenv_loop]. assert (same_bad d1 d2) as Hs12 by (by eapply same_bad_trans).
    rewrite Hgo, (isbad_same d d2), Hbad by (by eapply same_bad_trans).
    rewrite read_one_block by (done || lia || (rewrite (isbad_same d d2); [done|by eapply same_bad_trans])).
    destruct (Hr1 d2 Hs12) as (r & Hrr & Er); [intros x Hx; rewrite Hc2, Hc by lia; done|]. rewrite Er.
    assert ((r =? 0) || (r =? - EUCLEAN) = true) as -> by (by destruct Hrr as [-> | ->]). cbn [res_bind]. change (negb (0 =? 0)) with false. cbv iota.
    rewrite Hlc, !wrap_small by (unfold CONFIG_ENV_SIZE in *; lia). rewrite Hr; [|done|intros x Hx; apply Hc2; lia]. do 2 f_equal.
    rewrite <- app_assoc. f_equal. unfold c. rewrite Z2Nat.inj_add by lia. rewrite <- drop_drop. apply take_drop.
Qed.
End Blocks.

(** ** The saved text *)

Lemma entry_bytes e : entry_ok 0 e -> Forall is_byte (entry_text 0 e).
Proof.
  intros (Hk & Hd & _ & _ & _ & _ & Hb). unfold entry_text. rewrite escape_plain by auto.
  assert (forall s, string_ok s -> Forall is_byte s) as Hs by (intros s H; eapply Forall_impl; [exact H|]; simpl; unfold is_byte; lia).
  repeat apply Forall_app_2; auto; repeat constructor; lia.
Qed.
Lemma text_bytes l nz : Forall (entry_ok 0) l -> Forall is_byte (concat (map (entry_text 0) l) ++ 0 :: replicate nz 0).
Proof.
  intros Hl. apply Forall_app. split.
  - induction Hl as [|e l He _ IH]; cbn [map concat]; [constructor|]. apply Forall_app. split; [by apply entry_bytes|done].
  - constructor; [unfold is_byte; lia|]. apply Forall_replicate. unfold is_byte. lia.
Qed.

(** The data of a saved environment: its import gives the variables. *)
Definition saved_data (malloc_ok : list Z -> bool) (calloc_ok : Z -> bool) (cb fl : ENTRY -> ENTRY) (m : gmap (list Z) (list Z)) (data : list Z) : Prop :=
  Z.of_nat (length data) = ENV_SIZE /\ Forall is_byte data /\
  forall h0, (forall k v, m !! k = Some v -> refusal h0 k (fl (cb (fresh k v))) (Some v) env_op_create 0 = None) ->
    exists h', himport_r malloc_ok calloc_ok cb fl h0 data ENV_SIZE 0 0 [] = Ok (1, None, h') /\ represents h' m.

Section Text.
Context (malloc_ok : list Z -> bool) (calloc_ok : Z -> bool) (cb fl : ENTRY -> ENTRY).
Hypothesis init_keeps : forall e, key (fl (cb e)) = key e /\ data (fl (cb e)) = data e.
Hypothesis malloc_works : forall s, malloc_ok s = true.
Hypothesis calloc_works : forall n, calloc_ok n = true.

Lemma export_saved h m junk : represents h m -> (forall k v, m !! k = Some v -> entry_ok 0 (k, v)) -> export_size 0 m <= ENV_SIZE ->
  Z.of_nat (base.size m) <= 512 -> Z.of_nat (length junk) = ENV_SIZE ->
  exists data, hexport_r calloc_ok h 0 0 (Some junk) ENV_SIZE [] = Ok (ENV_SIZE, Some data, None) /\ saved_data malloc_ok calloc_ok cb fl m data.
Proof using calloc_works init_keeps malloc_works.
  intros (t & Hwf & Hm) Hok Hsz Hcnt Hj. pose proof (pairs_perm h t m Hwf Hm) as Hperm. unfold export_size in Hsz. rewrite <- (total_cost_perm 0 _ _ Hperm) in Hsz.
  assert (Forall (entry_ok 0) (pairs_from t 1)) as Hall.
  { rewrite Hperm. apply Forall_forall. intros [k' v] Hin%elem_of_map_to_list. by apply Hok. }
  destruct (hexport_fill calloc_ok h t 0 junk Hwf Hall) as (l & Hl & E & Hfit); [lia|unfold ENV_SIZE, CONFIG_ENV_SIZE, ENV_HEADER_SIZE in *; lia|].
  rewrite Hj in E. eexists. split; [exact E|]. set (nz := (length junk - _)%nat).
  assert (Z.of_nat (length (concat (map (entry_text 0) l) ++ 0 :: replicate nz 0)) = ENV_SIZE) as Hlen.
  { rewrite length_app. cbn [length]. rewrite length_replicate. subst nz. lia. }
  split; [done|]. split; [apply text_bytes; by rewrite Hl|]. intros h0 Hacc.
  destruct (import_listed malloc_ok calloc_ok cb fl init_keeps malloc_works calloc_works 0 0 ltac:(lia) ltac:(lia) eq_refl h t m l nz h0)
    as (h' & E' & Hrep); [done..| |rewrite Hlen; unfold ENV_SIZE, CONFIG_ENV_SIZE, ENV_HEADER_SIZE; Z.div_mod_to_equations; lia|].
  { rewrite Hlen. unfold ENV_SIZE, CONFIG_ENV_SIZE, ENV_HEADER_SIZE. lia. }
  rewrite Hlen in E'. by exists h'.
Qed.

End Text.

(** The checksum does not depend on where the data are. *)
Lemma crc_anywhere addr addr' data : Forall is_byte data -> crc32 0 addr data = crc32 0 addr' data /\ 0 <= crc32 0 addr data < 2 ^ 32.
Proof.
  intros Hb. assert (byte_list data) as Hb' by exact Hb. split; [by rewrite !crc32_div by (done || lia)|]. apply crc32_range; [lia|done].
Qed.

Lemma tst_lor a b : b <> 0 -> tst (a .| b) b = true.
Proof.
  intros Hb. unfold tst. assert (Z.land (a .| b) b = b) as ->; [|by apply negb_true_iff, Z.eqb_neq].
  apply Z.bits_inj'. intros i _. rewrite Z.land_spec, Z.lor_spec. by destruct (Z.testbit a i), (Z.testbit b i).
Qed.

Section Save.
Context {D : Type} {M : Mtd D} {L : MtdLaws}.
Context (malloc_ok : list Z -> bool) (calloc_ok : Z -> bool) (cb fl : ENTRY -> ENTRY) (default_environment : list Z) (k : nat).
Hypothesis init_keeps : forall e, key (fl (cb e)) = key e /\ data (fl (cb e)) = data e.
Hypothesis malloc_works : forall s, malloc_ok s = true.
Hypothesis calloc_works : forall n, calloc_ok n = true.
(** The area: [k] blocks from [CONFIG_ENV_OFFSET] on, inside the device, and big enough. *)
Let range := Z.of_nat k * erasesize.
Hypothesis area_aligned : (erasesize | CONFIG_ENV_OFFSET).
Hypothesis area_inside : CONFIG_ENV_OFFSET + range <= mtd_size.
Hypothesis area_size : CONFIG_ENV_SIZE <= range.

(** Erased, written, and read back. *)
Lemma store_saved d buf : (forall x, 0 <= mtd_block_isbad d x) -> CONFIG_ENV_SIZE <= block_len * good_count k d CONFIG_ENV_OFFSET ->
  Z.of_nat (length buf) = CONFIG_ENV_SIZE -> Forall is_byte buf ->
  exists d', erase_and_write_env range d (location0 range) buf = Ok (0, d') /\
    (forall x, x < CONFIG_ENV_OFFSET \/ CONFIG_ENV_OFFSET + range <= x -> cells d' x = cells d x) /\
    readenv range d' CONFIG_ENV_OFFSET = Ok (0, buf).
Proof using area_aligned area_inside L.
  intros Hbad Hroom Hlen Hb. pose proof erasesize_pos. destruct size_blocks as [_ Hsz]. unfold erase_and_write_env.
  assert (0 <= range) by (subst range; nia).
  destruct (erase_area d (erase_opts (location0 range)) k) as (d1 & E1 & Hs1 & He1 & Hc1); [done|done|done|done|done|done|].
  rewrite E1. cbn [res_bind]. change (negb (0 =? 0)) with false. cbv iota. cbn [offset_ length_ erase_opts location0] in *.
  unfold writeenv, readenv. rewrite (proj2 (Z.eqb_neq erasesize 0)) by lia. rewrite (wrap_small 32) by (unfold CONFIG_ENV_OFFSET in *; lia).
  destruct (env_loops k (area_rounds range) d1 CONFIG_ENV_OFFSET (CONFIG_ENV_OFFSET + range) 0 buf) as (d' & E & Hs & Hc & Hr);
    [|done|done|done|done|done|done|by apply Z.divide_0_r|by unfold CONFIG_ENV_SIZE|by rewrite (good_count_same k d d1), Z.sub_0_r|done|].
  { unfold area_rounds. subst range. rewrite Z.div_mul by lia. lia. }
  exists d'. split; [exact E|]. split; [intros x Hx; rewrite Hc by lia; apply Hc1; lia|]. apply (Hr d'); done.
Qed.

Lemma save_and_restore w m d addr junk : represents (htab w) m -> (forall k v, m !! k = Some v -> entry_ok 0 (k, v)) -> export_size 0 m <= ENV_SIZE ->
  Z.of_nat (base.size m) <= 512 -> Z.of_nat (length junk) = ENV_SIZE -> (forall x, 0 <= mtd_block_isbad d x) ->
  CONFIG_ENV_SIZE <= block_len * good_count k d CONFIG_ENV_OFFSET ->
  exists d', saveenv calloc_ok range w addr junk d = Ok (0, d') /\
    (forall x, x < CONFIG_ENV_OFFSET \/ CONFIG_ENV_OFFSET + range <= x -> cells d' x = cells d x) /\
    forall w0 addr0, env_valid w0 <> 0 ->
      (forall k v, m !! k = Some v -> refusal (htab w0) k (fl (cb (fresh k v))) (Some v) env_op_create 0 = None) ->
      exists w1, env_relocate malloc_ok calloc_ok cb fl default_environment
          (env_relocate_spec malloc_ok calloc_ok cb fl default_environment range d' addr0) w0 = Ok w1 /\ env_rep w1 m.
Proof using All.
  intros Hrep Hok Hsz Hcnt Hj Hbad Hroom. unfold saveenv. rewrite (proj2 (Z.ltb_ge range CONFIG_ENV_SIZE)) by done.
  destruct (export_saved malloc_ok calloc_ok cb fl init_keeps malloc_works calloc_works (htab w) m junk Hrep Hok Hsz Hcnt Hj) as (dat & -> & Hlen & Hb & Himp). cbn [res_bind]. change (ENV_SIZE <? 0) with false. cbv iota.
  cbn [res_of_option res_bind]. set (ep := {| crc := crc32 0 addr dat; env_data := dat |}).
  destruct (store_saved d (env_bytes ep)) as (d' & E & Hc & Hrd); [done|done| |apply Forall_app; split; [apply le32_bytes|done]|].
  { unfold env_bytes. rewrite length_app, le32_length. cbn [env_data ep]. unfold ENV_SIZE, ENV_HEADER_SIZE in Hlen. lia. }
  exists d'. split; [exact E|]. split; [done|]. intros w0 addr0 Hv Hacc. unfold env_relocate. rewrite (proj2 (Z.eqb_neq _ 0)) by done.
  unfold env_relocate_spec. rewrite Hrd. cbn [res_bind]. change (negb (0 =? 0)) with false. cbv iota.
  destruct (crc_anywhere addr0 addr dat Hb) as [Hsame _]. destruct (crc_anywhere addr addr dat Hb) as [_ Hcr].
  rewrite (env_bytes_of ep) by done. unfold env_import. cbn [env_data crc ep]. rewrite Hsame, Z.eqb_refl. cbn [negb andb].
  destruct (Himp (htab w0) Hacc) as (h' & -> & Hrep'). cbn [res_bind]. change (negb (1 =? 0)) with true. cbv iota. cbn [res_bind].
  eexists. split; [reflexivity|]. split; [|exact Hrep']. by apply tst_lor.
Qed.
End Save.

(** C4: a saved environment is there after the next boot.  The variables of the table are exported with
    their checksum, the area in the flash is erased, and the blocks are written around the bad ones; relocating
    the environment of any later boot reads the same variables, whatever its table held, and nothing outside
    the area is changed.  The device obeys the laws of the interface; the area is [k] whole blocks inside
    it with enough good ones; names and values can be exported, at most 512 of them, and are not refused when they
    are imported; there is memory. *)
Theorem saveenv_survives {D} {M : Mtd D} {L : MtdLaws} malloc_ok calloc_ok cb fl default_environment (k : nat) w m (d : D) addr junk :
  (forall e, key (fl (cb e)) = key e /\ data (fl (cb e)) = data e) -> (forall s, malloc_ok s = true) -> (forall n, calloc_ok n = true) ->
  (erasesize | CONFIG_ENV_OFFSET) -> CONFIG_ENV_OFFSET + Z.of_nat k * erasesize <= mtd_size -> CONFIG_ENV_SIZE <= Z.of_nat k * erasesize ->
  (forall x, 0 <= mtd_block_isbad d x) -> CONFIG_ENV_SIZE <= block_len * good_count k d CONFIG_ENV_OFFSET ->
  represents (htab w) m -> (forall k v, m !! k = Some v -> entry_ok 0 (k, v)) -> export_size 0 m <= ENV_SIZE -> Z.of_nat (base.size m) <= 512 ->
  Z.of_nat (length junk) = ENV_SIZE ->
  let range := Z.of_nat k * erasesize in
  exists d', saveenv calloc_ok range w addr junk d = Ok (0, d') /\
    (forall x, x < CONFIG_ENV_OFFSET \/ CONFIG_ENV_OFFSET + range <= x -> cells d' x = cells d x) /\
    forall w0 addr0, env_valid w0 <> 0 ->
      (forall k v, m !! k = Some v -> refusal (htab w0) k (fl (cb (fresh k v))) (Some v) env_op_create 0 = None) ->
      exists w1, env_relocate malloc_ok calloc_ok cb fl default_environment
          (env_relocate_spec malloc_ok calloc_ok cb fl default_environment range d' addr0) w0 = Ok w1 /\
        reads malloc_ok cb fl default_environment w1 m.
Proof.
  intros Hinit Hmal Hcal Ha Hin Hsz Hbad Hroom Hrep Hok Hexp Hcnt Hj range.
  destruct (save_and_restore malloc_ok calloc_ok cb fl default_environment k Hinit Hmal Hcal Ha Hin Hsz w m d addr junk) as (d' & E & Hc & Hr); [done..|].
  exists d'. split; [exact E|]. split; [done|]. intros w0 addr0 Hv Hacc. destruct (Hr w0 addr0 Hv Hacc) as (w1 & E1 & Hw1). exists w1. split; [exact E1|].
  by apply env_rep_reads.
Qed.

(** *** On a chip of 4 MiB with blocks of 128 KiB, the first block of the area bad *)

Definition env_chip : SimMtd.chip 11 17 32 := SimMtd.Chip (fun b => b =? 2) (fun _ => 0).

Lemma env_chip_good : good_count 2 env_chip CONFIG_ENV_OFFSET = 1.
Proof. vm_compute. reflexivity. Qed.

Lemma saveenv_survives_witness :
  exists d', saveenv (fun _ => true) (2 * 131072) small_env 0 (replicate (Z.to_nat ENV_SIZE) 0) env_chip = Ok (0, d') /\
    exists w1, env_relocate (fun _ => true) (fun _ => true) id id []
        (env_relocate_spec (fun _ => true) (fun _ => true) id id [] (2 * 131072) d' 4) (env_init [] small_env) = Ok w1 /\
      getenv (fun _ => true) id id [] w1 (cstr "bootdelay") = Ok (Some (cstr "3")).
Proof.
  destruct (@saveenv_survives _ _ (SimMtd.laws 11 17 32 ltac:(lia) ltac:(simpl; lia)) (fun _ => true) (fun _ => true) id id [] 2 small_env
    {[cstr "bootdelay" := cstr "3"]} env_chip 0 (replicate (Z.to_nat ENV_SIZE) 0)) as (d' & E & _ & Hr).
  - done.
  - done.
  - done.
  - by exists 2.
  - vm_compute. discriminate.
  - vm_compute. discriminate.
  - intros x. cbn. case_match; lia.
  - rewrite env_chip_good. vm_compute. discriminate.
  - exact one_variable_ok.
  - intros k v [<- <-]%lookup_singleton_Some. unfold entry_ok. cbn [fst snd]. split_and!; [by repeat constructor|by repeat constructor|done|..].
    + vm_compute. set_solver by lia.
    + vm_compute. set_solver by lia.
    + eexists _, _. split; [reflexivity|]. done.
    + intros _. vm_compute. set_solver by lia.
  - vm_compute. discriminate.
  - vm_compute. discriminate.
  - by rewrite length_replicate, Z2Nat.id by (by unfold ENV_SIZE, CONFIG_ENV_SIZE, ENV_HEADER_SIZE).
  - exists d'. split; [exact E|]. destruct (Hr (env_init [] small_env) 4) as (w1 & E1 & _ & Hget); [done|done|].
    exists w1. split; [exact E1|]. rewrite Hget by (by repeat constructor). by rewrite lookup_singleton_eq.
Defined.
