(* ===== verification/Ram.v ===== *)
(** * Byte-addressed memory and byte order ([arch/arm/include/asm/byteorder.h])

    RAM is a function from addresses to bytes: [bytes_at] reads a block, [copy_to] stores one, [load32] and
    [store32] are the word accesses of this little-endian machine, and [swab32] is what [htonl], [ntohl],
    [cpu_to_be32] and [be32_to_cpu] do on it. *)
From S2P Require Import Prelude.

Definition swab32 (x : Z) : Z := of_le32 (rev (le32 x)).

Definition bytes_at (m : Z -> Z) (a : Z) (n : nat) : list Z := map (fun i => m (a + Z.of_nat i)) (seq 0 n).

Definition copy_to (m : Z -> Z) (a : Z) (bs : list Z) : Z -> Z :=
  fun x => if bool_decide (a <= x < a + Z.of_nat (length bs)) then nth (Z.to_nat (x - a)) bs 0 else m x.

Definition load32 (m : Z -> Z) (a : Z) : Z := of_le32 (bytes_at m a 4).
Definition store32 (m : Z -> Z) (a x : Z) : Z -> Z := copy_to m a (le32 x).

(** ** Byte order *)

Lemma octet_of x i : 0 <= (x .>> i) .& 0xff < 256.
Proof. change 0xff with (Z.ones 8). rewrite Z.land_ones by lia. apply Z.mod_pos_bound. lia. Qed.

Lemma le32_are_bytes x : byte_list (le32 x).
Proof. unfold le32. repeat constructor; apply octet_of. Qed.

Lemma le32_digits x : 0 <= x < 2 ^ 32 ->
  exists a b c d, 0 <= a < 256 /\ 0 <= b < 256 /\ 0 <= c < 256 /\ 0 <= d < 256 /\ le32 x = [a; b; c; d] /\ x = of_le32 [a; b; c; d].
Proof.
  intros Hx. exists ((x .>> 0) .& 0xff), ((x .>> 8) .& 0xff), ((x .>> 16) .& 0xff), ((x .>> 24) .& 0xff).
  do 4 (split; [apply octet_of|]). split; [done|]. symmetry. by apply (le32_of x).
Qed.

Lemma le32_of_digits a b c d : 0 <= a < 256 -> 0 <= b < 256 -> 0 <= c < 256 -> 0 <= d < 256 ->
  le32 (of_le32 [a; b; c; d]) = [a; b; c; d] /\ 0 <= of_le32 [a; b; c; d] < 2 ^ 32.
Proof.
  intros Ha Hb Hc Hd. unfold le32, of_le32. cbn [map foldr]. change 0xFF with (Z.ones 8).
  rewrite !Z.land_ones, !Z.shiftr_div_pow2 by lia. simpl Z.pow. split; [repeat f_equal|]; Z.div_mod_to_equations; lia.
Qed.

Lemma swab32_twice x : 0 <= x < 2 ^ 32 -> swab32 (swab32 x) = x /\ 0 <= swab32 x < 2 ^ 32.
Proof.
  intros Hx. destruct (le32_digits x Hx) as (a & b & c & d & Ha & Hb & Hc & Hd & E & ->). unfold swab32. rewrite E. cbn [rev app].
  destruct (le32_of_digits d c b a) as [-> ?]; [done..|]. by cbn [rev app].
Qed.

Lemma swab32_range x : 0 <= swab32 x < 2 ^ 32.
Proof.
  unfold swab32. unfold le32. cbn [map rev app].
  apply (le32_of_digits ((x .>> (8 * 3)) .& 0xFF) ((x .>> (8 * 2)) .& 0xFF) ((x .>> (8 * 1)) .& 0xFF) ((x .>> (8 * 0)) .& 0xFF)); apply octet_of.
Qed.

(** ** Blocks *)

Lemma bytes_at_length m a n : length (bytes_at m a n) = n.
Proof. unfold bytes_at. by rewrite length_map, length_seq. Qed.

Lemma bytes_at_lookup m a n i : (i < n)%nat -> bytes_at m a n !! i = Some (m (a + Z.of_nat i)).
Proof. intros Hi. unfold bytes_at. rewrite list_lookup_fmap, lookup_seq_lt by done. done. Qed.

(** Two memories that agree on a block have the same bytes there. *)
Lemma bytes_at_ext m m' a n : (forall x, a <= x < a + Z.of_nat n -> m x = m' x) -> bytes_at m a n = bytes_at m' a n.
Proof.
  intros H. unfold bytes_at. apply map_ext_in. intros i Hi. apply in_seq in Hi. apply H. lia.
Qed.

Lemma bytes_at_app m a n k : bytes_at m a (n + k) = bytes_at m a n ++ bytes_at m (a + Z.of_nat n) k.
Proof.
  apply list_eq. intros i. destruct (decide (i < n)%nat).
  - rewrite lookup_app_l by (rewrite bytes_at_length; lia). by rewrite !bytes_at_lookup by lia.
  - rewrite lookup_app_r, bytes_at_length by (rewrite bytes_at_length; lia). destruct (decide (i < n + k)%nat).
    + rewrite !bytes_at_lookup by lia. do 2 f_equal. lia.
    + by rewrite !lookup_ge_None_2 by (rewrite bytes_at_length; lia).
Qed.

(** Copying on behind what has been copied. *)
Lemma copy_to_app m a d c x :
  copy_to (copy_to m a d) (a + Z.of_nat (length d)) c x = copy_to m a (d ++ c) x.
Proof.
  unfold copy_to. rewrite length_app. repeat case_bool_decide; try lia.
  - rewrite app_nth2 by lia. f_equal. lia.
  - by rewrite app_nth1 by lia.
Qed.

Lemma copy_to_outside m a bs x : x < a \/ a + Z.of_nat (length bs) <= x -> copy_to m a bs x = m x.
Proof. intros Hx. unfold copy_to. by rewrite bool_decide_false by lia. Qed.

(** What was stored is read back, and the rest is as it was. *)
Lemma bytes_at_copy m a bs n : n = length bs -> bytes_at (copy_to m a bs) a n = bs.
Proof.
  intros ->. apply list_eq. intros i. destruct (decide (i < length bs)%nat) as [Hi|Hi].
  - rewrite bytes_at_lookup by done. unfold copy_to. rewrite bool_decide_true by lia.
    replace (Z.to_nat (a + Z.of_nat i - a)) with i by lia. destruct (lookup_lt_is_Some_2 bs i Hi) as [b Hb].
    rewrite Hb. f_equal. by apply nth_lookup_Some.
  - rewrite !lookup_ge_None_2; [done|lia|rewrite bytes_at_length; lia].
Qed.

Lemma bytes_at_outside m a bs b n :
  b + Z.of_nat n <= a \/ a + Z.of_nat (length bs) <= b -> bytes_at (copy_to m a bs) b n = bytes_at m b n.
Proof. intros H. apply bytes_at_ext. intros x Hx. apply copy_to_outside. lia. Qed.

Lemma bytes_at_bytes m a n : (forall x, 0 <= m x < 256) -> byte_list (bytes_at m a n).
Proof. intros Hm. apply Forall_forall. intros b Hb. apply list_elem_of_In in Hb. unfold bytes_at in Hb. apply in_map_iff in Hb as (i & <- & _). apply Hm. Qed.

(** ** Fields of a block of bytes *)

Definition field (off n : nat) (h : list Z) : list Z := take n (drop off h).

Lemma field_lookup off n h i : field off n h !! i = if decide (i < n)%nat then h !! (off + i)%nat else None.
Proof. unfold field. rewrite lookup_take, lookup_drop. done. Qed.

Lemma field_length off n h : (off + n <= length h)%nat -> length (field off n h) = n.
Proof. intros H. unfold field. rewrite length_take, length_drop. lia. Qed.

Lemma field_same off (bs h : list Z) : (off + length bs <= length h)%nat -> field off (length bs) (list_inserts off bs h) = bs.
Proof.
  intros H. apply list_eq. intros i. rewrite field_lookup. case_decide.
  - rewrite list_lookup_inserts by lia. f_equal. lia.
  - by rewrite lookup_ge_None_2 by lia.
Qed.

Lemma field_other off n off' bs h : (off + n <= off' \/ off' + length bs <= off)%nat ->
  field off n (list_inserts off' bs h) = field off n h.
Proof.
  intros H. apply list_eq. intros i. rewrite !field_lookup. case_decide; [|done].
  destruct H; [by rewrite list_lookup_inserts_lt by lia|by rewrite list_lookup_inserts_ge by lia].
Qed.

Lemma inserts_same off (bs h : list Z) : (off + length bs <= length h)%nat -> field off (length bs) h = bs -> list_inserts off bs h = h.
Proof.
  intros Hl Hf. apply list_eq. intros i.
  destruct (decide (i < off)%nat); [by apply list_lookup_inserts_lt|].
  destruct (decide (off + length bs <= i)%nat); [by apply list_lookup_inserts_ge|].
  rewrite list_lookup_inserts by lia. transitivity (field off (length bs) h !! (i - off)%nat); [by rewrite Hf|].
  rewrite field_lookup, decide_True by lia. f_equal. lia.
Qed.

Lemma inserts_twice off (bs bs' h : list Z) : length bs = length bs' -> (off + length bs <= length h)%nat ->
  list_inserts off bs (list_inserts off bs' h) = list_inserts off bs h.
Proof.
  intros Hb Hl. apply list_eq. intros i.
  destruct (decide (i < off)%nat); [by rewrite !list_lookup_inserts_lt|].
  destruct (decide (off + length bs <= i)%nat); [by rewrite !list_lookup_inserts_ge by lia|].
  by rewrite !list_lookup_inserts by (rewrite ?length_inserts; lia).
Qed.

Lemma take_inserts k off (bs h : list Z) : (off + length bs <= k)%nat -> (k <= length h)%nat ->
  take k (list_inserts off bs h) = list_inserts off bs (take k h).
Proof.
  intros Hk Hl. apply list_eq. intros i. rewrite lookup_take. case_decide.
  - destruct (decide (i < off)%nat); [by rewrite !list_lookup_inserts_lt, lookup_take_lt by lia|].
    destruct (decide (off + length bs <= i)%nat); [by rewrite !list_lookup_inserts_ge, lookup_take_lt by lia|].
    by rewrite !list_lookup_inserts by (rewrite ?length_take; lia).
  - symmetry. apply lookup_ge_None_2. rewrite length_inserts, length_take. lia.
Qed.

Lemma drop_inserts k off (bs h : list Z) : (off + length bs <= k)%nat -> drop k (list_inserts off bs h) = drop k h.
Proof. intros Hk. apply list_eq. intros i. rewrite !lookup_drop. apply list_lookup_inserts_ge. lia. Qed.

Lemma byte_list_inserts off bs h : byte_list bs -> byte_list h -> byte_list (list_inserts off bs h).
Proof.
  intros Hb Hh. apply Forall_lookup. intros i x Hx. apply list_lookup_inserts_Some in Hx as [[_ Hx]|(_ & _ & Hx)].
  - by apply (Forall_lookup_1 _ _ _ _ Hh Hx).
  - by apply (Forall_lookup_1 _ _ _ _ Hb Hx).
Qed.

Lemma inserts_split off (w h : list Z) : (off + length w <= length h)%nat ->
  list_inserts off w h = take off h ++ w ++ drop (off + length w) h /\ h = take off h ++ field off (length w) h ++ drop (off + length w) h.
Proof.
  intros Hl. split.
  - rewrite <- (take_drop off h) at 1. replace off with (length (take off h)) at 1 by (rewrite length_take; lia).
    rewrite list_inserts_app by (rewrite length_drop; lia). by rewrite drop_drop.
  - unfold field. by rewrite <- drop_drop, take_drop, take_drop.
Qed.

Lemma list_inserts_at off (w h : list Z) i :
  list_inserts off w h !! i = if decide (off <= i < off + length w /\ i < length h)%nat then w !! (i - off)%nat else h !! i.
Proof.
  case_decide; [by rewrite list_lookup_inserts by lia|]. destruct (decide (i < off)%nat); [by rewrite list_lookup_inserts_lt|].
  destruct (decide (off + length w <= i)%nat); [by rewrite list_lookup_inserts_ge|].
  by rewrite !lookup_ge_None_2 by (rewrite ?length_inserts; lia).
Qed.

Lemma inserts_comm off off' (w w' h : list Z) : (off + length w <= off' \/ off' + length w' <= off)%nat ->
  list_inserts off w (list_inserts off' w' h) = list_inserts off' w' (list_inserts off w h).
Proof. intros Hd. apply list_eq. intros i. rewrite !list_inserts_at, !length_inserts. repeat case_decide; try done; lia. Qed.

(** ** Bytes in memory *)

Definition placed (m : Z -> Z) (a : Z) (f : list Z) : Prop := bytes_at m a (length f) = f.

Lemma placed_field m a f off n : placed m a f -> (off + n <= length f)%nat -> bytes_at m (a + Z.of_nat off) n = field off n f.
Proof.
  intros Hp Hn. apply list_eq. intros i. rewrite field_lookup. case_decide as Hi.
  - rewrite bytes_at_lookup by done. rewrite <- Hp, bytes_at_lookup by lia. do 2 f_equal. lia.
  - apply lookup_ge_None_2. rewrite bytes_at_length. lia.
Qed.

Lemma placed_app m a f g : placed m a (f ++ g) <-> placed m a f /\ placed m (a + Z.of_nat (length f)) g.
Proof.
  unfold placed. rewrite length_app, bytes_at_app. split; [|by intros [-> ->]].
  intros H. apply app_inj_1 in H as [-> ->]; [done|by rewrite bytes_at_length].
Qed.

Lemma placed_load m a v : 0 <= v < 2 ^ 32 -> placed m a (le32 v) -> load32 m a = v.
Proof. intros Hv Hp. unfold load32. unfold placed in Hp. rewrite le32_length in Hp. rewrite Hp. by apply le32_of. Qed.

Lemma bytes_at_patch m a off w n : (off + length w <= n)%nat -> bytes_at (copy_to m (a + Z.of_nat off) w) a n = list_inserts off w (bytes_at m a n).
Proof.
  intros Hn. apply list_eq. intros i. destruct (decide (i < n)%nat) as [Hi|Hi].
  2: { by rewrite !lookup_ge_None_2 by (rewrite ?length_inserts, bytes_at_length; lia). }
  rewrite bytes_at_lookup by done. destruct (decide (off <= i < off + length w)%nat) as [Ho|Ho].
  - rewrite list_lookup_inserts by (rewrite ?bytes_at_length; lia). unfold copy_to. rewrite bool_decide_true by lia.
    destruct (lookup_lt_is_Some_2 w (i - off) ltac:(lia)) as [b Hb]. rewrite Hb. f_equal. apply nth_lookup_Some. rewrite <- Hb. f_equal. lia.
  - rewrite copy_to_outside by lia. destruct (decide (i < off)%nat);
      [rewrite list_lookup_inserts_lt by done|rewrite list_lookup_inserts_ge by lia]; by rewrite bytes_at_lookup.
Qed.

(** Closed lists of bytes. *)
Lemma byte_list_check l : forallb (fun b => (0 <=? b) && (b <? 256)) l = true -> byte_list l.
Proof.
  intros H. apply Forall_forall. intros b Hb. apply list_elem_of_In in Hb. rewrite forallb_forall in H. specialize (H b Hb). apply andb_prop in H. lia.
Qed.
