(* ===== verification/NetPkt.v ===== *)
(** * Addresses, checksums and headers ([include/net.h], [lib/net_utils.c], [net/eth.c], [net/net.c])

    A packet buffer is a list of bytes; writing behind its end is undefined.  An [IPaddr_t] is the number
    this little-endian machine reads from the four bytes in memory, the first octet lowest; a 16-bit field
    that goes through [htons] is stored high byte first. *)
From S2P Require Import Prelude Ctype Vsprintf Ram.

Definition ETHER_HDR_SIZE : nat := 14.
Definition E802_HDR_SIZE : nat := 22.
Definition VLAN_ETHER_HDR_SIZE : nat := 18.
Definition IP_HDR_SIZE : nat := 20.
Definition IP_UDP_HDR_SIZE : nat := 28.
Definition UDP_HDR_SIZE : nat := 8.
Definition ARP_HDR_SIZE : nat := 28.

Definition PROT_IP : Z := 0x0800.
Definition PROT_ARP : Z := 0x0806.
Definition PROT_VLAN : Z := 0x8100.
Definition IPPROTO_ICMP : Z := 1.
Definition IPPROTO_UDP : Z := 17.
Definition IP_OFFS : Z := 0x1fff.
Definition IP_FLAGS_DFRAG : Z := 0x4000.
Definition IP_FLAGS_MFRAG : Z := 0x2000.
Definition VLAN_NONE : Z := 4095.
Definition VLAN_IDMASK : Z := 0x0fff.

Definition NetBcastAddr : list Z := [0xff; 0xff; 0xff; 0xff; 0xff; 0xff].
Definition NetEtherNullAddr : list Z := [0; 0; 0; 0; 0; 0].

(** ** Fields *)

(** What [htons] leaves in memory, and what [ntohs] reads from there. *)
Definition be16 (x : Z) : list Z := [u8 (x .>> 8); u8 x].
Definition get16 (buf : list Z) (off : nat) : res Z :=
  let* h := res_of_option (buf !! off) in let* l := res_of_option (buf !! S off) in Ok (256 * h + l).
(** [ntohs] of a 16-bit number. *)
Definition swab16 (x : Z) : Z := 256 * (x mod 256) + x / 256.
Definition get8 (buf : list Z) (off : nat) : res Z := res_of_option (buf !! off).
Definition get_bytes (buf : list Z) (off n : nat) : res (list Z) :=
  if decide (off + n <= length buf)%nat then Ok (take n (drop off buf)) else Ub.
Definition put (buf : list Z) (off : nat) (bs : list Z) : res (list Z) := res_of_option (store_block buf off bs).

Definition NetReadIP (buf : list Z) (off : nat) : res Z := let* b := get_bytes buf off 4 in Ok (of_le32 b).
Definition NetWriteIP (buf : list Z) (off : nat) (ip : Z) : res (list Z) := put buf off (le32 ip).

Definition is_zero_ether_addr (addr : list Z) : bool := foldr Z.lor 0 addr =? 0.
Definition is_multicast_ether_addr (addr : list Z) : bool := tst (nth 0 addr 0) 1.
Definition is_valid_ether_addr (addr : list Z) : bool := negb (is_multicast_ether_addr addr) && negb (is_zero_ether_addr addr).

(** ** Addresses as text *)


Fixpoint octets_loop (n : nat) (s : list Z) (addr : Z) : Z :=
  match n with
  | O => addr
  | S n =>
    let '(val, e) := simple_strtoul s 10 in
    octets_loop n (tail e) (u32 (addr .<< 8) .| (val .& 0xFF))
  end.
Definition string_to_ip (s : option (list Z)) : Z :=
  match s with None => 0 | Some s => swab32 (octets_loop 4 s 0) end.

Definition ip_to_string (x : Z) : res (list Z) :=
  let x := swab32 x in
  let octet i := VInt ((x .>> i) .& 0xff) in
  let* (s, _) := text_of (cstr "%d.%d.%d.%d") [octet 24; octet 16; octet 8; octet 0] in
  Ok s.

(** An Ethernet address from text: hexadecimal numbers, each behind one separator. *)
Fixpoint enet_loop (n : nat) (addr : list Z) : list Z :=
  match n with
  | O => []
  | S n => let '(val, e) := simple_strtoul addr 16 in u8 val :: enet_loop n (tail e)
  end.
Definition eth_parse_enetaddr (addr : option (list Z)) : list Z :=
  match addr with None => NetEtherNullAddr | Some a => enet_loop 6 a end.
Definition eth_getenv_enetaddr (value : option (list Z)) : bool * list Z :=
  let a := eth_parse_enetaddr value in (is_valid_ether_addr a, a).

Definition string_to_VLAN (s : option (list Z)) : Z :=
  match s with
  | None => swab16 VLAN_NONE
  | Some s => swab16 (if (cur s <? 0x30) || (0x39 <? cur s) then VLAN_NONE else u16 (fst (simple_strtoul s 10)))
  end.
Definition VLAN_to_string (x : Z) : res (list Z) :=
  let x := swab16 x in
  let x := if x =? 0xFFFF then VLAN_NONE else x in
  if x =? VLAN_NONE then Ok (cstr "none")
  else let* (s, _) := text_of (cstr "%d") [VInt (x .& VLAN_IDMASK)] in Ok s.

(** The file name written to a buffer of [size] bytes, without its NUL: quotes around it are dropped. *)
Fixpoint name_loop (size : Z) (src : list Z) : list Z :=
  match src with
  | [] => []
  | c :: src => if (0 <? size - 1) && negb (c =? 0x22) then c :: name_loop (size - 1) src else []
  end.
Definition copy_filename (src : list Z) (size : Z) : list Z :=
  if cur src =? 0x22 then name_loop (size - 1) (tail src) else name_loop size src.

(** ** Checksum *)

(** The sum of [len] 16-bit words as the machine reads them. *)
Fixpoint words_sum (len : nat) (p : list Z) (xsum : Z) : res Z :=
  match len with
  | O => Ok xsum
  | S len =>
    match p with
    | l :: h :: p => words_sum len p (u32 (xsum + (l + 256 * h)))
    | _ => Ub
    end
  end.
Definition fold16 (xsum : Z) : Z := (xsum .& 0xffff) + (xsum .>> 16).
Definition NetCksum (ptr : list Z) (len : nat) : res Z :=
  let* xsum := words_sum len ptr 0 in Ok (fold16 (fold16 xsum) .& 0xffff).
Definition NetCksumOk (ptr : list Z) (len : nat) : res bool :=
  let* c := NetCksum ptr len in Ok ((c + 1) .& 0xfffe =? 0).

(** ** Headers, written at an offset of a buffer *)

Definition vlan_of (vlan : Z) : Z := let v := swab16 vlan in if v =? 0xFFFF then VLAN_NONE else v.
Definition NetEthHdrSize (NetOurVLAN : Z) : nat :=
  if vlan_of NetOurVLAN .& VLAN_IDMASK =? VLAN_NONE then ETHER_HDR_SIZE else VLAN_ETHER_HDR_SIZE.

Definition NetSetEther (NetOurVLAN : Z) (NetOurEther : list Z) (xet addr : list Z) (prot : Z) : res (list Z * nat) :=
  let myvlanid := vlan_of NetOurVLAN in
  let* xet := put xet 0 addr in
  let* xet := put xet 6 NetOurEther in
  if myvlanid .& VLAN_IDMASK =? VLAN_NONE then
    let* xet := put xet 12 (be16 prot) in Ok (xet, ETHER_HDR_SIZE)
  else
    let* xet := put xet 12 (be16 PROT_VLAN) in
    let* xet := put xet 14 (be16 (myvlanid .& VLAN_IDMASK)) in
    let* xet := put xet 16 (be16 prot) in
    Ok (xet, VLAN_ETHER_HDR_SIZE).

Definition net_update_ether (NetOurEther : list Z) (et addr : list Z) (prot : Z) : res (list Z * nat) :=
  let* et := put et 0 addr in
  let* et := put et 6 NetOurEther in
  let* protlen := get16 et 12 in
  if protlen =? PROT_VLAN then let* et := put et 16 (be16 prot) in Ok (et, VLAN_ETHER_HDR_SIZE)
  else if 1514 <? protlen then let* et := put et 12 (be16 prot) in Ok (et, ETHER_HDR_SIZE)
  else let* et := put et 20 (be16 prot) in Ok (et, E802_HDR_SIZE).

Definition net_set_ip_header (NetIPID : Z) (pkt : list Z) (off : nat) (dest source : Z) : res (list Z) :=
  let* pkt := put pkt off [0x45; 0] in
  let* pkt := put pkt (off + 2) (be16 (Z.of_nat IP_HDR_SIZE)) in
  let* pkt := put pkt (off + 4) (be16 NetIPID) in
  let* pkt := put pkt (off + 6) (be16 IP_FLAGS_DFRAG) in
  let* pkt := put pkt (off + 8) [255] in
  let* pkt := put pkt (off + 10) [0; 0] in
  let* pkt := put pkt (off + 12) (le32 source) in
  put pkt (off + 16) (le32 dest).

Definition net_set_udp_header (NetIPID NetOurIP : Z) (pkt : list Z) (off : nat) (dest dport sport : Z) (len : nat) : res (list Z) :=
  let* pkt := if Nat.odd len then put pkt (off + IP_UDP_HDR_SIZE + len) [0] else Ok pkt in
  let* pkt := net_set_ip_header NetIPID pkt off dest NetOurIP in
  let* pkt := put pkt (off + 2) (be16 (Z.of_nat (IP_UDP_HDR_SIZE + len))) in
  let* pkt := put pkt (off + 9) [IPPROTO_UDP] in
  let* sum := NetCksum (drop off pkt) (IP_HDR_SIZE / 2) in
  let sum := u16 (Z.lnot sum) in
  let* pkt := put pkt (off + 10) [sum mod 256; sum / 256] in
  let* pkt := put pkt (off + 20) (be16 sport) in
  let* pkt := put pkt (off + 22) (be16 dport) in
  let* pkt := put pkt (off + 24) (be16 (Z.of_nat (UDP_HDR_SIZE + len))) in
  put pkt (off + 26) [0; 0].
