(* ===== verification/NetPktProps.v ===== *)
(** * Addresses as text, and the checksum ([lib/net_utils.c], [net/eth.c], [net/net.c]) *)
From S2P Require Import Prelude Ctype Vsprintf VspProps Ram NetPkt.

(** ** Addresses *)

Lemma number_append t num base size precision type r :
  number emit [] num base size precision type = Ok r -> number emit t num base size precision type = Ok (t ++ r).
Proof.
  intros E. pose proof (number_sim emit emit (fun a b => b = t ++ a)) as H.
  specialize (H ltac:(cbv beta; intros a b c ->; unfold emit; by rewrite app_assoc) [] t num base size precision type
    ltac:(cbv beta; by rewrite app_nil_r)).
  rewrite E in H. inversion H; by subst.
Qed.

(** The decimal text of an octet, and what the reader makes of it. *)
Lemma octet_text o : 0 <= o < 256 ->
  exists r, (forall t, number emit t (u64 (s32 o)) 10 (-1) (-1) SIGN = Ok (t ++ r)) /\
    (forall rest, stops rest -> simple_strtoul (r ++ rest) 10 = (o, rest)).
Proof.
  intros Ho. rewrite swrap_small by (simpl; lia). destruct (number_signed o) as (ds & Hds & E); [lia|].
  rewrite (proj2 (Z.ltb_ge _ _)) in E by lia. rewrite Z.abs_eq in Hds by lia. eexists. split.
  - intros t. apply number_append, E.
  - intros rest Hr. apply (read_dec 32 o 10); auto; lia.
Qed.

Lemma format_d n fmt args v str :
  format_loop emit (fun t => s32 (Z.of_nat (length t))) (S n) (0x25 :: 0x64 :: fmt) (VInt v :: args) str =
  let* t := number emit str (u64 (s32 v)) 10 (-1) (-1) SIGN in
  let* (s, ws) := format_loop emit (fun t => s32 (Z.of_nat (length t))) n fmt args t in Ok (s, ws).
Proof.
  cbn [format_loop]. change (negb (0x25 =? 0x25)) with false. cbv iota.
  change (flags_loop 0 (0x64 :: fmt)) with (0, 0x64 :: fmt). cbv iota.
  change (get_width 0 (0x64 :: fmt) (VInt v :: args)) with (Ok (-1, 0, 0x64 :: fmt, VInt v :: args)). cbn [res_bind].
  change (get_precision (0x64 :: fmt) (VInt v :: args)) with (Ok (-1, 0x64 :: fmt, VInt v :: args)). cbn [res_bind].
  change (get_qualifier (0x64 :: fmt)) with (-1, 0x64 :: fmt). cbv iota.
  assert (convert emit (fun t => s32 (Z.of_nat (length t))) (0x64 :: fmt) (VInt v :: args) str 0 (-1) (-1) (-1) =
    let* t := number emit str (u64 (s32 v)) 10 (-1) (-1) SIGN in Ok (t, fmt, args, [])) as ->
    by (lazy -[number wrap swrap emit]; reflexivity).
  by destruct (number emit str _ _ _ _ _).
Qed.

Lemma format_dot n fmt args str :
  format_loop emit (fun t => s32 (Z.of_nat (length t))) (S n) (0x2E :: fmt) args str =
  format_loop emit (fun t => s32 (Z.of_nat (length t))) n fmt args (emit str 0x2E).
Proof. done. Qed.


Lemma next_octet hi lo : 0 <= lo < 256 -> 0 <= hi < 2 ^ 24 -> u32 (hi .<< 8) .| lo = 256 * hi + lo.
Proof.
  intros Hlo Hhi. rewrite Z.shiftl_mul_pow2 by lia. rewrite wrap_small by lia.
  replace (256 * hi + lo) with (hi * 2 ^ 8 + lo) by lia. rewrite Z.add_nocarry_lxor, Z.lxor_lor; [done|..];
  apply Z.bits_inj'; intros i Hi; rewrite Z.land_spec, Z.bits_0; destruct (Z.lt_ge_cases i 8);
    (by rewrite Z.mul_pow2_bits_low) || (by rewrite (testbit_high 8 lo), andb_false_r).
Qed.

(** The four octets of a number are the number. *)
Lemma octets_back y : 0 <= y < 2 ^ 32 ->
  let oct i := ((y .>> i) .& 0xff) .& 0xFF in
  u32 ((u32 ((u32 ((u32 (0 .<< 8) .| oct 24) .<< 8) .| oct 16) .<< 8) .| oct 8) .<< 8) .| oct 0 = y.
Proof.
  intros Hy oct. assert (forall i, 0 <= i -> oct i = (y / 2 ^ i) mod 256) as Ho.
  { intros i Hi. unfold oct. rewrite <- Z.land_assoc, Z.shiftr_div_pow2 by done. apply (Z.land_ones _ 8). lia. }
  rewrite !Ho by lia. simpl Z.pow. rewrite (next_octet 0), (next_octet (256 * 0 + _)), (next_octet (256 * (_ + _) + _)), next_octet;
    Z.div_mod_to_equations; lia.
Qed.



Lemma ip_string_ok x : 0 <= x < 2 ^ 32 -> exists s, ip_to_string x = Ok s /\ string_to_ip (Some s) = x.
Proof.
  intros Hx. unfold ip_to_string, text_of. set (y := swab32 x).
  destruct (octet_text _ (octet_of y 24)) as (r3 & E3 & R3), (octet_text _ (octet_of y 16)) as (r2 & E2 & R2),
    (octet_text _ (octet_of y 8)) as (r1 & E1 & R1), (octet_text _ (octet_of y 0)) as (r0 & E0 & R0).
  exists (r3 ++ 0x2E :: r2 ++ 0x2E :: r1 ++ 0x2E :: r0 ++ []). split.
  - change (cstr "%d.%d.%d.%d") with [0x25; 0x64; 0x2E; 0x25; 0x64; 0x2E; 0x25; 0x64; 0x2E; 0x25; 0x64].
    cbn [length]. rewrite format_d, E3. cbn [res_bind]. rewrite format_dot, format_d, E2. cbn [res_bind].
    rewrite format_dot, format_d, E1. cbn [res_bind]. rewrite format_dot, format_d, E0. cbn [res_bind format_loop].
    rewrite !app_nil_l, app_nil_r. unfold emit. by rewrite <- !app_assoc.
  - unfold string_to_ip. cbn [octets_loop].
    rewrite R3 by done. cbn [tail]. rewrite R2 by done. cbn [tail]. rewrite R1 by done. cbn [tail]. rewrite R0 by done.
    transitivity (swab32 y); [f_equal|by apply swab32_twice]. apply octets_back. by apply swab32_twice.
Qed.

Lemma text_pM p a : text_of (cstr "%pM") [VPtr p a] = let* t := mac_address_string emit [] a (-1) (-1) 0 in Ok (t, []).
Proof.
  eapply text_single; [reflexivity..| |done]. lazy -[number mac_address_string ip6_addr_string ip4_addr_string wrap swrap emit]. reflexivity.
Qed.

Lemma string_plain s : Z.of_nat (length s) < 2 ^ 32 - 1 -> string_ emit [] (Some s) (-1) (-1) 0 = s.
Proof.
  intros Hs. unfold string_. change (tst 0 LEFT) with false. change (u32 (-1)) with (2 ^ 32 - 1). rewrite Z.min_l by lia.
  unfold widen. rewrite !Z2Nat.nonpos by lia. cbn [addchs fst]. rewrite Nat2Z.id, firstn_all, foldl_emit. done.
Qed.

Lemma hex_byte b : 0 <= b < 256 -> pack_hex_byte b = map (digit_char SMALL) [b / 16; b mod 16].
Proof.
  intros Hb. apply (bool_decide_eq_true_1 (pack_hex_byte b = map (digit_char SMALL) [b / 16; b mod 16])).
  revert b Hb. apply (all_bytes (fun b => bool_decide (pack_hex_byte b = map (digit_char SMALL) [b / 16; b mod 16]))).
  vm_compute. reflexivity.
Qed.

Lemma hex_read b rest : 0 <= b < 256 -> isxdigit (cur rest) = false -> simple_strtoul (pack_hex_byte b ++ rest) 16 = (b, rest).
Proof.
  intros Hb Hr. rewrite hex_byte by done. unfold simple_strtoul, number_base.
  assert (0 <= b / 16 < 16) as Hh by (Z.div_mod_to_equations; lia). assert (0 <= b mod 16 < 16) as Hl by (Z.div_mod_to_equations; lia).
  destruct (digit_char_read SMALL (b / 16)) as (_ & _ & _ & H0 & _), (digit_char_read SMALL (b mod 16)) as (_ & _ & Hx & _); auto.
  cbn [map app]. change (cur (?c :: _)) with c.
  destruct (Z.eqb_spec (digit_char SMALL (b / 16)) 0x30) as [E|].
  - specialize (H0 E). cbn [tail]. change (cur (?c :: _)) with c. rewrite (proj2 (Z.eqb_neq _ _) Hx). cbn [andb Z.eqb].
    pose proof (digits_loop_ok 32 16 SMALL rest ltac:(lia) ltac:(auto) Hr [b mod 16] 0) as E1. cbn [map app length rev le_val] in E1.
    rewrite E1; [f_equal; Z.div_mod_to_equations; lia|repeat (constructor; [done|]); constructor|lia|simpl Z.pow; lia].
  - cbn [Z.eqb]. pose proof (digits_loop_ok 32 16 SMALL rest ltac:(lia) ltac:(auto) Hr [b / 16; b mod 16] 0) as E1.
    cbn [map app length rev le_val] in E1. rewrite E1; [f_equal; Z.div_mod_to_equations; lia|repeat (constructor; [done|]); constructor|lia|simpl Z.pow; lia].
Qed.

Lemma mac_string_ok p a : byte_list a -> length a = 6%nat ->
  exists s, text_of (cstr "%pM") [VPtr p a] = Ok (s, []) /\ eth_parse_enetaddr (Some s) = a.
Proof.
  intros Hb Hl. destruct a as [|a0 [|a1 [|a2 [|a3 [|a4 [|a5 [|]]]]]]]; try done.
  repeat (apply Forall_cons in Hb as [? Hb]). eexists. split.
  - rewrite text_pM. unfold mac_address_string. rewrite decide_True by (simpl; lia). cbn [res_bind].
    change (0 .& Z.lnot SPECIAL) with 0. change (negb (tst 0 SPECIAL)) with true. rewrite string_plain; [reflexivity|].
    cbn [take mac_bytes]. rewrite !length_app. cbn [length pack_hex_byte]. lia.
  - unfold eth_parse_enetaddr. cbn [take mac_bytes enet_loop app].
    do 5 (rewrite hex_read by done; cbn [tail enet_loop]; rewrite wrap_small by lia; f_equal).
    rewrite <- (app_nil_r (pack_hex_byte a5)). rewrite hex_read by done. by rewrite wrap_small by lia.
Qed.

(** Addresses survive their text: every IP address printed by [ip_to_string] is read back by
    [string_to_ip], and every Ethernet address printed with the %pM conversion is read back by
    [eth_parse_enetaddr]. *)
Theorem address_text_roundtrip :
  (forall x, 0 <= x < 2 ^ 32 -> exists s, ip_to_string x = Ok s /\ string_to_ip (Some s) = x) /\
  (forall p a, byte_list a -> length a = 6%nat ->
     exists s, text_of (cstr "%pM") [VPtr p a] = Ok (s, []) /\ eth_parse_enetaddr (Some s) = a).
Proof. split; [apply ip_string_ok|apply mac_string_ok]. Qed.

Lemma address_text_roundtrip_witness :
  exists s, ip_to_string 0x0100A8C0 = Ok s /\ string_to_ip (Some s) = 0x0100A8C0.
Proof. apply (proj1 address_text_roundtrip). lia. Defined.

(** ** The checksum *)

(** The sum of the first words of a header in the order of the machine, and in network order. *)
Fixpoint host_sum (n : nat) (p : list Z) : Z :=
  match n, p with S n, l :: h :: p => l + 256 * h + host_sum n p | _, _ => 0 end.
Fixpoint net_sum (n : nat) (p : list Z) : Z :=
  match n, p with S n, h :: l :: p => 256 * h + l + net_sum n p | _, _ => 0 end.

Lemma host_sum_range n : forall p, byte_list p -> 0 <= host_sum n p <= 65535 * Z.of_nat n.
Proof.
  induction n as [|n IH]; intros p Hp; [simpl; lia|]. destruct p as [|l [|h p]]; [simpl; lia..|].
  apply Forall_cons in Hp as [? Hp]. apply Forall_cons in Hp as [? Hp]. specialize (IH p Hp). cbn [host_sum]. lia.
Qed.

(** The order of the bytes does not matter: 256 is its own inverse modulo 65535. *)
Lemma net_host_sum n : forall p, exists k, net_sum n p = 256 * host_sum n p - 65535 * k.
Proof.
  induction n as [|n IH]; intros p; [by exists 0|]. destruct p as [|l [|h p]]; [by exists 0..|].
  destruct (IH p) as [k Hk]. exists (h + k). cbn [net_sum host_sum]. lia.
Qed.

Lemma words_sum_ok n : forall p acc, byte_list p -> (2 * n <= length p)%nat -> 0 <= acc -> acc + 65535 * Z.of_nat n < 2 ^ 32 ->
  words_sum n p acc = Ok (acc + host_sum n p).
Proof.
  induction n as [|n IH]; intros p acc Hp Hl Ha Hlt; [simpl; f_equal; lia|]. destruct p as [|l [|h p]]; [simpl in Hl; lia..|].
  apply Forall_cons in Hp as [? Hp]. apply Forall_cons in Hp as [? Hp]. cbn [words_sum host_sum length] in *.
  rewrite wrap_small by lia. rewrite IH; [f_equal; lia|done|lia..].
Qed.

Lemma fold16_eq x : 0 <= x -> fold16 x = x mod 65536 + x / 65536.
Proof. intros Hx. unfold fold16. change 0xffff with (Z.ones 16). rewrite Z.land_ones, Z.shiftr_div_pow2 by lia. done. Qed.

Lemma fold16_twice x : 0 <= x < 2 ^ 32 ->
  exists k, fold16 (fold16 x) .& 0xffff = x - 65535 * k /\ 0 <= x - 65535 * k <= 65535 /\ (0 < x -> 0 < x - 65535 * k).
Proof.
  intros Hx. assert (0 <= fold16 x <= 131070 /\ exists k, fold16 x = x - 65535 * k /\ (0 < x -> 0 < fold16 x)) as (Hy & k & Hk & Hp).
  { rewrite fold16_eq by lia. split; [Z.div_mod_to_equations; lia|]. exists (x / 65536). Z.div_mod_to_equations. lia. }
  set (y := fold16 x) in *. clearbody y. rewrite fold16_eq by lia.
  assert (0 <= y mod 65536 + y / 65536 <= 65535) as Hz by (Z.div_mod_to_equations; lia).
  pose proof (Z.land_ones (y mod 65536 + y / 65536) 16 ltac:(lia)) as L. change (Z.ones 16) with 65535 in L.
  rewrite L, Z.mod_small by lia. exists (k + y / 65536). assert (y mod 65536 + y / 65536 = x - 65535 * (k + y / 65536)) as E by (Z.div_mod_to_equations; lia).
  rewrite <- E. split; [done|]. split; [done|]. intros H. specialize (Hp H). Z.div_mod_to_equations. lia.
Qed.

Lemma cksum_ok n p : byte_list p -> (2 * n <= length p)%nat -> Z.of_nat n <= 65536 ->
  exists k, NetCksum p n = Ok (host_sum n p - 65535 * k) /\ 0 <= host_sum n p - 65535 * k <= 65535.
Proof.
  intros Hp Hl Hn. unfold NetCksum. rewrite words_sum_ok by (done || lia). cbn [res_bind].
  pose proof (host_sum_range n p Hp). destruct (fold16_twice (0 + host_sum n p)) as (k & -> & Hk & _); [lia|].
  exists k. rewrite Z.add_0_l in *. done.
Qed.

Lemma cksum_test c : 0 <= c <= 65535 -> ((c + 1) .& 0xfffe =? 0) = bool_decide (c = 0 \/ c = 65535).
Proof.
  intros Hc. case_bool_decide as Hcase; [by destruct Hcase as [->| ->]|]. apply Z.eqb_neq. intros H.
  assert (((c + 1) .& 0xfffe) .>> 1 = 0) as H1 by (by rewrite H). rewrite Z.shiftr_land in H1.
  change (0xfffe .>> 1) with (Z.ones 15) in H1. rewrite Z.land_ones, Z.shiftr_div_pow2 in H1 by lia. simpl Z.pow in H1.
  Z.div_mod_to_equations. lia.
Qed.

Lemma cksum_valid n p : byte_list p -> (2 * n <= length p)%nat -> Z.of_nat n <= 65536 ->
  NetCksumOk p n = Ok (bool_decide (host_sum n p mod 65535 = 0)).
Proof.
  intros Hp Hl Hn. destruct (cksum_ok n p Hp Hl Hn) as (k & E & Hk). unfold NetCksumOk. rewrite E. cbn [res_bind].
  f_equal. rewrite cksum_test by done. apply bool_decide_ext. split; intros H.
  - apply Z.mod_divide; [lia|]. destruct H; [exists k|exists (k + 1)]; lia.
  - apply Z.mod_divide in H as [j Hj]; [|lia]. rewrite Hj in *. assert (j - k = 0 \/ j - k = 1) by lia. lia.
Qed.

(** The header checksum is that of RFC 1071.  Although the words are added in the byte order of the
    machine, and the carries folded in only twice, a header of any bytes passes [NetCksumOk] exactly
    when the sum of its words in network byte order is a multiple of 65535. *)
Theorem checksum_is_rfc1071 n p :
  byte_list p -> (2 * n <= length p)%nat -> Z.of_nat n <= 65536 ->
  NetCksumOk p n = Ok (bool_decide (net_sum n p mod 65535 = 0)).
Proof.
  intros Hp Hl Hn. rewrite cksum_valid by done. f_equal. apply bool_decide_ext.
  destruct (net_host_sum n p) as [k ->]. rewrite !Z.mod_divide by lia. split; intros [j Hj].
  - exists (256 * j - k). lia.
  - exists (256 * (j + k) - host_sum n p). lia.
Qed.

(** An IP header of an acknowledgement. *)
Definition sample_header : list Z :=
  [0x45; 0; 0; 0x20; 0; 1; 0x40; 0; 0xff; 0x11; 0xfa; 0x77; 0xc0; 0xa8; 0; 2; 0xc0; 0xa8; 0; 1].

Lemma checksum_is_rfc1071_witness : NetCksumOk sample_header 10 = Ok true.
Proof.
  rewrite (checksum_is_rfc1071 10 sample_header); [vm_compute; reflexivity| |simpl; lia|lia].
  apply Forall_forall. intros x Hx. by repeat (apply elem_of_cons in Hx as [->|Hx]; [done|]); apply not_elem_of_nil in Hx.
Defined.
