(* ===== verification/Tftp.v ===== *)
(** * The TFTP client ([net/tftp.c])

    The handler of UDP packets and of timeouts as functions on the static variables of the file, the memory,
    and a log of what is asked of the network code: packets sent, timeouts set, restarts, the end.  Not
    configured, and left out: multicast, putting files, the server, the [tsize] option, flash targets.

    A handler is called with the rest of the receive buffer from the packet on, which may be longer than
    the packet, and the length the headers claim, which may be longer than the buffer: reading behind
    the buffer is undefined. *)
From S2P Require Import Prelude Ctype Vsprintf Ram NetPkt.

Definition WELL_KNOWN_PORT : Z := 69.
Definition TIMEOUT : Z := 5000.
Definition TIMEOUT_COUNT : Z := 10.

Definition TFTP_RRQ : Z := 1.
Definition TFTP_DATA : Z := 3.
Definition TFTP_ACK : Z := 4.
Definition TFTP_ERROR : Z := 5.
Definition TFTP_OACK : Z := 6.

Definition TFTP_ERR_FILE_NOT_FOUND : Z := 1.
Definition TFTP_ERR_ACCESS_DENIED : Z := 2.

Definition STATE_SEND_RRQ : Z := 1.
Definition STATE_DATA : Z := 2.
Definition STATE_TOO_LARGE : Z := 3.
Definition STATE_BAD_MAGIC : Z := 4.
Definition STATE_OACK : Z := 5.
Definition STATE_RECV_WRQ : Z := 6.
Definition STATE_SEND_WRQ : Z := 7.

Definition TFTP_BLOCK_SIZE : Z := 512.
Definition TFTP_SEQUENCE_SIZE : Z := 65536.
Definition TFTP_MTU_BLOCKSIZE : Z := 1468.
Definition MAX_LEN : nat := 128.

Inductive net_loop_state := NETLOOP_CONTINUE | NETLOOP_RESTART | NETLOOP_SUCCESS | NETLOOP_FAIL.
#[export] Instance net_loop_state_eq_dec : EqDecision net_loop_state. Proof. solve_decision. Defined.

(** What the file asks of the network code: [NetSendUDPPacket] with the payload put into the packet before, [NetSetTimeout] with
    [TftpTimeout], [NetStartAgain], [net_set_state], [eth_halt], [net_set_udp_handler] with [TftpHandler], and clearing [NetServerEther]. *)
Inductive net_event :=
  | SendUDP (dest_ip dport sport : Z) (payload : list Z)
  | SetTimeout (msecs : Z)
  | StartAgain
  | SetState (s : net_loop_state)
  | EthHalt
  | SetUdpHandler
  | ClearServerEther.

Record tftp := {
  TftpTimeoutMSecs : Z;
  TftpTimeoutCountMax : Z;
  TftpRemoteIP : Z;
  TftpRemotePort : Z;
  TftpOurPort : Z;
  TftpTimeoutCount : Z;
  TftpBlock : Z;
  TftpLastBlock : Z;
  TftpBlockWrap : Z;
  TftpBlockWrapOffset : Z;
  TftpState : Z;
  TftpBlkSize : Z;
  TftpBlkSizeOption : Z;
  tftp_filename : list Z;
  load_addr : Z;
  NetBootFileXferSize : Z;
  ram : Z -> Z;
  events : list net_event
}.

(** ** Assignments *)

Definition set_blocks (t : tftp) (block last wrap offset : Z) : tftp :=
  {| TftpTimeoutMSecs := TftpTimeoutMSecs t; TftpTimeoutCountMax := TftpTimeoutCountMax t; TftpRemoteIP := TftpRemoteIP t;
     TftpRemotePort := TftpRemotePort t; TftpOurPort := TftpOurPort t; TftpTimeoutCount := TftpTimeoutCount t;
     TftpBlock := block; TftpLastBlock := last; TftpBlockWrap := wrap; TftpBlockWrapOffset := offset; TftpState := TftpState t;
     TftpBlkSize := TftpBlkSize t; TftpBlkSizeOption := TftpBlkSizeOption t; tftp_filename := tftp_filename t;
     load_addr := load_addr t; NetBootFileXferSize := NetBootFileXferSize t; ram := ram t; events := events t |}.
Definition set_counts (t : tftp) (max count : Z) : tftp :=
  {| TftpTimeoutMSecs := TftpTimeoutMSecs t; TftpTimeoutCountMax := max; TftpRemoteIP := TftpRemoteIP t;
     TftpRemotePort := TftpRemotePort t; TftpOurPort := TftpOurPort t; TftpTimeoutCount := count;
     TftpBlock := TftpBlock t; TftpLastBlock := TftpLastBlock t; TftpBlockWrap := TftpBlockWrap t; TftpBlockWrapOffset := TftpBlockWrapOffset t;
     TftpState := TftpState t; TftpBlkSize := TftpBlkSize t; TftpBlkSizeOption := TftpBlkSizeOption t; tftp_filename := tftp_filename t;
     load_addr := load_addr t; NetBootFileXferSize := NetBootFileXferSize t; ram := ram t; events := events t |}.
Definition set_peer (t : tftp) (state port blksize : Z) : tftp :=
  {| TftpTimeoutMSecs := TftpTimeoutMSecs t; TftpTimeoutCountMax := TftpTimeoutCountMax t; TftpRemoteIP := TftpRemoteIP t;
     TftpRemotePort := port; TftpOurPort := TftpOurPort t; TftpTimeoutCount := TftpTimeoutCount t;
     TftpBlock := TftpBlock t; TftpLastBlock := TftpLastBlock t; TftpBlockWrap := TftpBlockWrap t; TftpBlockWrapOffset := TftpBlockWrapOffset t;
     TftpState := state; TftpBlkSize := blksize; TftpBlkSizeOption := TftpBlkSizeOption t; tftp_filename := tftp_filename t;
     load_addr := load_addr t; NetBootFileXferSize := NetBootFileXferSize t; ram := ram t; events := events t |}.
Definition set_ram (t : tftp) (m : Z -> Z) (size : Z) : tftp :=
  {| TftpTimeoutMSecs := TftpTimeoutMSecs t; TftpTimeoutCountMax := TftpTimeoutCountMax t; TftpRemoteIP := TftpRemoteIP t;
     TftpRemotePort := TftpRemotePort t; TftpOurPort := TftpOurPort t; TftpTimeoutCount := TftpTimeoutCount t;
     TftpBlock := TftpBlock t; TftpLastBlock := TftpLastBlock t; TftpBlockWrap := TftpBlockWrap t; TftpBlockWrapOffset := TftpBlockWrapOffset t;
     TftpState := TftpState t; TftpBlkSize := TftpBlkSize t; TftpBlkSizeOption := TftpBlkSizeOption t; tftp_filename := tftp_filename t;
     load_addr := load_addr t; NetBootFileXferSize := size; ram := m; events := events t |}.
Definition emit_event (t : tftp) (e : net_event) : tftp :=
  {| TftpTimeoutMSecs := TftpTimeoutMSecs t; TftpTimeoutCountMax := TftpTimeoutCountMax t; TftpRemoteIP := TftpRemoteIP t;
     TftpRemotePort := TftpRemotePort t; TftpOurPort := TftpOurPort t; TftpTimeoutCount := TftpTimeoutCount t;
     TftpBlock := TftpBlock t; TftpLastBlock := TftpLastBlock t; TftpBlockWrap := TftpBlockWrap t; TftpBlockWrapOffset := TftpBlockWrapOffset t;
     TftpState := TftpState t; TftpBlkSize := TftpBlkSize t; TftpBlkSizeOption := TftpBlkSizeOption t; tftp_filename := tftp_filename t;
     load_addr := load_addr t; NetBootFileXferSize := NetBootFileXferSize t; ram := ram t; events := events t ++ [e] |}.

(** ** Blocks *)

(** The product of two [int]s must fit; the rest is unsigned. *)
Definition store_block (t : tftp) (block : Z) (src : list Z) : res tftp :=
  if decide (-2 ^ 31 <= block * TftpBlkSize t < 2 ^ 31) then
    let offset := u32 (block * TftpBlkSize t + TftpBlockWrapOffset t) in
    let newsize := u32 (offset + Z.of_nat (length src)) in
    Ok (set_ram t (copy_to (ram t) (u32 (load_addr t + offset)) src)
         (if NetBootFileXferSize t <? newsize then newsize else NetBootFileXferSize t))
  else Ub.

Definition new_transfer (t : tftp) : tftp := set_blocks t (TftpBlock t) 0 0 0.

Definition restart (t : tftp) : tftp := emit_event t StartAgain.

Definition update_block_number (t : tftp) : tftp :=
  if (TftpBlock t =? 0) && negb (TftpLastBlock t =? 0) then
    set_counts (set_blocks t (TftpBlock t) (TftpLastBlock t) (u32 (TftpBlockWrap t + 1))
                  (u32 (TftpBlockWrapOffset t + u32 (TftpBlkSize t * TFTP_SEQUENCE_SIZE)))) (TftpTimeoutCountMax t) 0
  else t.

Definition tftp_complete (t : tftp) : tftp := emit_event t (SetState NETLOOP_SUCCESS).

(** ** Packets *)

(** The payload of the packet of a state. *)
Definition payload (t : tftp) : res (list Z) :=
  if (TftpState t =? STATE_SEND_RRQ) || (TftpState t =? STATE_SEND_WRQ) then
    let* (timeout, _) := text_of (cstr "%lu") [VInt (TftpTimeoutMSecs t / 1000)] in
    let* (blksize, _) := text_of (cstr "%d") [VInt (TftpBlkSizeOption t)] in
    Ok (be16 TFTP_RRQ ++ tftp_filename t ++ [0] ++ cstr "octet" ++ [0] ++ cstr "timeout" ++ [0] ++ timeout ++ [0]
        ++ cstr "blksize" ++ [0] ++ blksize ++ [0])
  else if (TftpState t =? STATE_OACK) || (TftpState t =? STATE_RECV_WRQ) || (TftpState t =? STATE_DATA) then
    Ok (be16 TFTP_ACK ++ be16 (TftpBlock t))
  else if TftpState t =? STATE_TOO_LARGE then Ok (be16 TFTP_ERROR ++ be16 3 ++ cstr "File too large" ++ [0])
  else if TftpState t =? STATE_BAD_MAGIC then Ok (be16 TFTP_ERROR ++ be16 2 ++ cstr "File has bad magic" ++ [0])
  else Ok [].
Definition TftpSend (t : tftp) : res tftp :=
  let* p := payload t in
  Ok (emit_event t (SendUDP (TftpRemoteIP t) (TftpRemotePort t) (TftpOurPort t) p)).

(** The block size of an option acknowledgement.  The loop stops when no more than 8 bytes of the packet are
    left; a number at its end is read on into the buffer. *)
Fixpoint oack_loop (pkt : list Z) (len blksize : Z) : res Z :=
  if 8 <? len then
    match pkt with
    | [] => Ub
    | _ :: rest =>
      if bool_decide (take 8 pkt = cstr "blksize" ++ [0]) then
        let '(val, e) := simple_strtoul (drop 8 pkt) 10 in
        if bool_decide (e = []) then Ub else oack_loop rest (len - 1) (u16 val)
      else oack_loop rest (len - 1) blksize
    end
  else Ok blksize.

(** A block other than the last is stored and acknowledged. *)
Definition accept_data (t : tftp) (pkt : list Z) (len : Z) : res tftp :=
  let t := set_blocks t (TftpBlock t) (TftpBlock t) (TftpBlockWrap t) (TftpBlockWrapOffset t) in
  let t := emit_event (set_counts t TIMEOUT_COUNT (TftpTimeoutCount t)) (SetTimeout (TftpTimeoutMSecs t)) in
  let* data := get_bytes pkt 2 (Z.to_nat len) in
  let* t := store_block t (TftpBlock t - 1) data in
  let* t := TftpSend t in
  Ok (if len <? TftpBlkSize t then tftp_complete t else t).

(** A data packet, behind its operation code. *)
Definition handle_data (t : tftp) (src : Z) (pkt : list Z) (len : Z) : res tftp :=
  if len <? 2 then Ok t
  else
    let len := len - 2 in
    let* block := get16 pkt 0 in
    let t := update_block_number (set_blocks t block (TftpLastBlock t) (TftpBlockWrap t) (TftpBlockWrapOffset t)) in
    let first := (TftpState t =? STATE_SEND_RRQ) || (TftpState t =? STATE_OACK) || (TftpState t =? STATE_RECV_WRQ) in
    let t := if first then new_transfer (set_peer t STATE_DATA src (TftpBlkSize t)) else t in
    if first && negb (TftpBlock t =? 1) then Ok (emit_event t StartAgain)
    else if TftpBlock t =? TftpLastBlock t then Ok t
    else accept_data t pkt len.

(** [len] is unsigned. *)
Definition TftpHandler (t : tftp) (pkt : list Z) (dest src len : Z) : res tftp :=
  if negb (dest =? TftpOurPort t) then Ok t
  else if negb (TftpState t =? STATE_SEND_RRQ) && negb (src =? TftpRemotePort t) &&
          negb (TftpState t =? STATE_RECV_WRQ) && negb (TftpState t =? STATE_SEND_WRQ) then Ok t
  else if len <? 2 then Ok t
  else
    let len := len - 2 in
    let* proto := get16 pkt 0 in
    let pkt := drop 2 pkt in
    if proto =? TFTP_OACK then
      let* blksize := oack_loop pkt len (TftpBlkSize t) in
      TftpSend (set_peer t STATE_OACK src blksize)
    else if proto =? TFTP_DATA then handle_data t src pkt len
    else if proto =? TFTP_ERROR then
      let* code := get16 pkt 0 in
      if (code =? TFTP_ERR_FILE_NOT_FOUND) || (code =? TFTP_ERR_ACCESS_DENIED)
      then Ok (emit_event (emit_event t EthHalt) (SetState NETLOOP_FAIL))
      else Ok (emit_event t StartAgain)
    else Ok t.

(** The count overflows only after more timeouts than the maximum lets pass. *)
Definition TftpTimeout (t : tftp) : res tftp :=
  if decide (TftpTimeoutCount t = 2 ^ 31 - 1) then Ub
  else
    let t := set_counts t (TftpTimeoutCountMax t) (TftpTimeoutCount t + 1) in
    if TftpTimeoutCountMax t <? TftpTimeoutCount t then Ok (restart t)
    else
      let t := emit_event t (SetTimeout (TftpTimeoutMSecs t)) in
      if negb (TftpState t =? STATE_RECV_WRQ) then TftpSend t else Ok t.

(** ** Starting

    The variables read from the environment, the server and our address, the name of the boot file and the
    reading of the timer are arguments. *)
Definition clip_name (s : list Z) : list Z := take (MAX_LEN - 1) s.
(** A string up to a character, and behind it. *)
Fixpoint behind (c : Z) (s : list Z) : option (list Z) :=
  match s with [] => None | x :: s => if x =? c then Some s else behind c s end.

Definition TftpStart (tftpblocksize tftptimeout : option (list Z)) (NetServerIP NetOurIP : Z)
  (BootFile : list Z) (RRQTimeoutCountMax now : Z) (t : tftp) : res tftp :=
  let blkopt := match tftpblocksize with Some ep => u16 (fst (simple_strtol ep 10)) | None => TftpBlkSizeOption t end in
  let msecs := match tftptimeout with Some ep => u32 (fst (simple_strtol ep 10)) | None => TftpTimeoutMSecs t end in
  let msecs := if msecs <? 1000 then 1000 else msecs in
  let* (ip, name) :=
    match BootFile with
    | [] =>
      let octet i := VInt ((NetOurIP .>> (8 * i)) .& 0xFF) in
      let* (s, _) := text_of (cstr "%02X%02X%02X%02X.img") [octet 0; octet 1; octet 2; octet 3] in
      Ok (NetServerIP, clip_name s)
    | _ =>
      match behind 0x3A BootFile with
      | None => Ok (NetServerIP, clip_name BootFile)
      | Some p => Ok (string_to_ip (Some BootFile), clip_name p)
      end
    end in
  let t :=
    {| TftpTimeoutMSecs := msecs; TftpTimeoutCountMax := RRQTimeoutCountMax; TftpRemoteIP := ip;
       TftpRemotePort := WELL_KNOWN_PORT; TftpOurPort := 1024 + now mod 3072; TftpTimeoutCount := 0;
       TftpBlock := 0; TftpLastBlock := TftpLastBlock t; TftpBlockWrap := TftpBlockWrap t; TftpBlockWrapOffset := TftpBlockWrapOffset t;
       TftpState := STATE_SEND_RRQ; TftpBlkSize := TFTP_BLOCK_SIZE; TftpBlkSizeOption := blkopt; tftp_filename := name;
       load_addr := load_addr t; NetBootFileXferSize := NetBootFileXferSize t; ram := ram t;
       events := events t ++ [SetTimeout msecs; SetUdpHandler; ClearServerEther] |} in
  TftpSend t.
