(* ===== verification/TftpProps.v ===== *)
(** * What the TFTP client stores ([net/tftp.c]) *)
From S2P Require Import Prelude Ctype Vsprintf VspProps Ram NetPkt Tftp.

(** ** Packets of a server *)

Definition data_packet (k : Z) (c : list Z) : list Z := be16 TFTP_DATA ++ be16 k ++ c.

(** The packets of a file from the block [k] on; each block may be sent again any number of times before the
    next. *)
Fixpoint packets (k : Z) (cs : list (list Z * nat)) : list (list Z) :=
  match cs with
  | [] => []
  | (c, again) :: cs => replicate (S again) (data_packet k c) ++ packets (k + 1) cs
  end.

(** A receive buffer that holds a packet, whatever is behind it. *)
Definition carries (p : list Z) (x : list Z * Z) : Prop := exists rest, x = (p ++ rest, Z.of_nat (length p)).

(** Packets from the port [src], in order. *)
Fixpoint receive (t : tftp) (src : Z) (xs : list (list Z * Z)) : res tftp :=
  match xs with
  | [] => Ok t
  | (buf, len) :: xs => let* t := TftpHandler t buf (TftpOurPort t) src len in receive t src xs
  end.

(** What the client does about the block [k]. *)
Definition answer (t : tftp) (src k : Z) : list net_event :=
  [SetTimeout (TftpTimeoutMSecs t); SendUDP (TftpRemoteIP t) src (TftpOurPort t) (be16 TFTP_ACK ++ be16 k)].
Fixpoint answers (t : tftp) (src k : Z) (n : nat) : list net_event :=
  match n with O => [] | S n => answer t src k ++ answers t src (k + 1) n end.

Lemma get16_be16 x l : get16 (be16 x ++ l) 0 = Ok (x mod 65536).
Proof.
  unfold get16, be16, wrap. cbn [app lookup list_lookup res_of_option res_bind]. rewrite Z.shiftr_div_pow2 by lia. f_equal.
  simpl Z.pow. Z.div_mod_to_equations. lia.
Qed.

Lemma be16_mod x : be16 (x mod 65536) = be16 x.
Proof.
  unfold be16, wrap. rewrite !Z.shiftr_div_pow2 by lia. simpl Z.pow. f_equal; [|f_equal]; Z.div_mod_to_equations; lia.
Qed.

Lemma get_bytes_app pre c rest : get_bytes (pre ++ c ++ rest) (length pre) (length c) = Ok c.
Proof.
  unfold get_bytes. rewrite decide_True by (rewrite !length_app; lia). by rewrite drop_app_length, take_app_length.
Qed.

(** ** One block *)

(** The state after [k] blocks of [b] bytes that began with the state [t0]. *)
Record transfer (t0 t : tftp) (src b k : Z) (data : list Z) (evs : list net_event) : Prop := {
  tr_state : TftpState t = STATE_DATA;
  tr_port : TftpRemotePort t = src;
  tr_our : TftpOurPort t = TftpOurPort t0;
  tr_ip : TftpRemoteIP t = TftpRemoteIP t0;
  tr_msecs : TftpTimeoutMSecs t = TftpTimeoutMSecs t0;
  tr_blk : TftpBlkSize t = b;
  tr_last : TftpLastBlock t = k mod 65536;
  tr_wrap : TftpBlockWrapOffset t = u32 (k / 65536 * (65536 * b));
  tr_addr : load_addr t = load_addr t0;
  tr_size : NetBootFileXferSize t = Z.of_nat (length data);
  tr_ram : forall x, ram t x = copy_to (ram t0) (load_addr t0) data x;
  tr_events : events t = events t0 ++ evs
}.

Definition waiting (t : tftp) : Prop :=
  (TftpState t = STATE_SEND_RRQ \/ TftpState t = STATE_OACK) /\ NetBootFileXferSize t = 0.


Lemma store_next t0 t block b k data c :
  (-2 ^ 31 <= block * TftpBlkSize t < 2 ^ 31) -> load_addr t = load_addr t0 ->
  0 <= load_addr t0 -> Z.of_nat (length data) = k * b -> load_addr t0 + k * b + Z.of_nat (length c) < 2 ^ 32 ->
  u32 (block * TftpBlkSize t + TftpBlockWrapOffset t) = u32 (k * b) -> NetBootFileXferSize t = Z.of_nat (length data) ->
  (forall x, ram t x = copy_to (ram t0) (load_addr t0) data x) ->
  exists m, store_block t block c = Ok (set_ram t m (Z.of_nat (length (data ++ c)))) /\
    forall x, m x = copy_to (ram t0) (load_addr t0) (data ++ c) x.
Proof.
  intros Hfit Ha Ha0 Hd Hlt Hoff Hsize Hram. unfold store_block. rewrite decide_True by done. rewrite Hoff, Hsize, Ha, length_app, Nat2Z.inj_add, Hd.
  rewrite (wrap_small 32 (k * b)) by lia. rewrite !wrap_small by lia. eexists. split.
  - f_equal. f_equal. destruct (Z.ltb_spec (k * b) (k * b + Z.of_nat (length c))); lia.
  - intros x. cbv beta. rewrite <- Hd, <- copy_to_app. unfold copy_to at 1 2. case_bool_decide; [done|]. apply Hram.
Qed.

(** The tail of the handler, when the block number has been taken over into the state. *)
Lemma accept_ok t0 t src b k data evs c rest :
  TftpState t = STATE_DATA -> TftpRemotePort t = src -> TftpOurPort t = TftpOurPort t0 -> TftpRemoteIP t = TftpRemoteIP t0 ->
  TftpTimeoutMSecs t = TftpTimeoutMSecs t0 -> TftpBlkSize t = b -> load_addr t = load_addr t0 ->
  TftpBlock t = (k + 1) mod 65536 -> TftpBlockWrapOffset t = u32 ((k + 1) / 65536 * (65536 * b)) ->
  NetBootFileXferSize t = Z.of_nat (length data) -> (forall x, ram t x = copy_to (ram t0) (load_addr t0) data x) ->
  events t = events t0 ++ evs -> 0 < b <= 32768 -> 0 <= k -> 0 <= load_addr t0 -> Z.of_nat (length data) = k * b ->
  load_addr t0 + k * b + Z.of_nat (length c) < 2 ^ 32 ->
  exists t', accept_data t (be16 (k + 1) ++ c ++ rest) (Z.of_nat (length c)) = Ok t' /\
    transfer t0 t' src b (k + 1) (data ++ c)
      (evs ++ answer t0 src (k + 1) ++ if Z.of_nat (length c) <? b then [SetState NETLOOP_SUCCESS] else []).
Proof.
  intros Hst Hport Hour Hip Hms Hblk Haddr Hblock Hwrap Hsize Hram Hev Hb Hk Ha0 Hd Hlt. unfold accept_data.
  rewrite Nat2Z.id. rewrite (get_bytes_app (be16 (k + 1)) c rest : get_bytes _ 2 _ = _). cbn [res_bind].
  set (u := emit_event _ _).
  assert (0 <= (k + 1) mod 65536 < 65536) as Hm by (apply Z.mod_pos_bound; lia).
  destruct (store_next t0 u (TftpBlock u - 1) b k data c) as (m & -> & Hm'); subst u; cbn [emit_event set_counts set_blocks TftpBlkSize
    TftpBlock TftpBlockWrapOffset load_addr NetBootFileXferSize ram]; rewrite ?Hblk, ?Hblock, ?Hwrap; try done; [nia| |].
  { rewrite wrap_add_r. f_equal. pose proof (Z.div_mod (k + 1) 65536 ltac:(lia)) as E.
    replace (k * b) with ((65536 * ((k + 1) / 65536) + (k + 1) mod 65536 - 1) * b) by (f_equal; lia). lia. }
  cbn [res_bind]. unfold TftpSend, payload. cbn [TftpState set_ram emit_event set_counts set_blocks]. rewrite Hst. cbn [Z.eqb orb res_bind].
  change (STATE_DATA =? STATE_SEND_RRQ) with false. change (STATE_DATA =? STATE_SEND_WRQ) with false.
  change ((STATE_DATA =? STATE_OACK) || (STATE_DATA =? STATE_RECV_WRQ) || (STATE_DATA =? STATE_DATA)) with true. cbn [orb res_bind].
  eexists. split; [reflexivity|]. cbn [TftpBlkSize emit_event set_ram set_counts set_blocks]. rewrite Hblk.
  destruct (Z.ltb_spec (Z.of_nat (length c)) b); split; cbn; try done; rewrite ?Hev, ?Hip, ?Hport, ?Hour, ?Hms, ?Hblock, ?be16_mod;
    unfold answer; by rewrite <- ?app_assoc.
Qed.

(** The handler on a data packet for us. *)
Lemma handler_data t src k c rest :
  TftpState t = STATE_SEND_RRQ \/ TftpState t = STATE_OACK \/ (TftpState t = STATE_DATA /\ TftpRemotePort t = src) ->
  (TftpState t = STATE_OACK -> TftpRemotePort t = src) ->
  TftpHandler t (data_packet k c ++ rest) (TftpOurPort t) src (Z.of_nat (length (data_packet k c))) =
  handle_data t src (be16 k ++ c ++ rest) (Z.of_nat (length c) + 2).
Proof.
  intros Hst Hoack. unfold TftpHandler. rewrite Z.eqb_refl. cbn [negb]. cbv iota.
  assert (negb (TftpState t =? STATE_SEND_RRQ) && negb (src =? TftpRemotePort t) && negb (TftpState t =? STATE_RECV_WRQ) &&
    negb (TftpState t =? STATE_SEND_WRQ) = false) as ->.
  { destruct Hst as [->|[Hs|[-> ->]]]; [done| |by rewrite Z.eqb_refl, andb_false_r]. rewrite (Hoack Hs), Z.eqb_refl. by rewrite andb_false_r. }
  unfold data_packet. rewrite !length_app. cbn [length be16]. rewrite (proj2 (Z.ltb_ge _ _)) by lia.
  rewrite <- !app_assoc, get16_be16. cbn [res_bind]. change (TFTP_DATA mod 65536) with TFTP_DATA.
  change (TFTP_DATA =? TFTP_OACK) with false. rewrite Z.eqb_refl. cbv iota.
  rewrite drop_app_length' by done. f_equal. lia.
Qed.

Lemma first_block t src b c rest :
  waiting t -> (TftpState t = STATE_OACK -> TftpRemotePort t = src) -> TftpBlkSize t = b -> 0 < b <= 32768 ->
  0 <= load_addr t -> load_addr t + Z.of_nat (length c) < 2 ^ 32 ->
  exists t', TftpHandler t (data_packet 1 c ++ rest) (TftpOurPort t) src (Z.of_nat (length (data_packet 1 c))) = Ok t' /\
    transfer t t' src b 1 c (answer t src 1 ++ if Z.of_nat (length c) <? b then [SetState NETLOOP_SUCCESS] else []).
Proof.
  intros [Hst H0] Hport Hblk Hb Ha Hlt. rewrite handler_data by tauto. unfold handle_data. rewrite (proj2 (Z.ltb_ge _ _)) by lia.
  rewrite get16_be16. cbn [res_bind]. change (1 mod 65536) with 1. rewrite Z.add_simpl_r.
  unfold update_block_number. cbn [TftpBlock set_blocks]. change (1 =? 0) with false. cbn [andb]. cbv iota zeta.
  cbn [TftpState set_blocks].
  assert ((TftpState t =? STATE_SEND_RRQ) || (TftpState t =? STATE_OACK) || (TftpState t =? STATE_RECV_WRQ) = true) as ->
    by (destruct Hst as [-> | ->]; done).
  cbn [andb TftpBlock TftpLastBlock new_transfer set_peer set_blocks]. change (negb (1 =? 1)) with false. change (1 =? 0) with false. cbv iota.
  apply (accept_ok t _ src b 0 [] [] c rest); try done; try (cbn; lia); cbn; [|by rewrite app_nil_r].
  intros x. unfold copy_to. by rewrite bool_decide_eq_false_2 by (simpl; lia).
Qed.

Lemma following_block t0 t src b k data evs c rest :
  transfer t0 t src b k data evs -> 1 <= k -> 0 < b <= 32768 -> 0 <= load_addr t0 -> Z.of_nat (length data) = k * b ->
  load_addr t0 + k * b + Z.of_nat (length c) < 2 ^ 32 ->
  exists t', TftpHandler t (data_packet (k + 1) c ++ rest) (TftpOurPort t) src (Z.of_nat (length (data_packet (k + 1) c))) = Ok t' /\
    transfer t0 t' src b (k + 1) (data ++ c)
      (evs ++ answer t0 src (k + 1) ++ if Z.of_nat (length c) <? b then [SetState NETLOOP_SUCCESS] else []).
Proof.
  intros [] Hk Hb Ha Hd Hlt. rewrite handler_data; [|by right; right|by rewrite tr_state0]. unfold handle_data. rewrite (proj2 (Z.ltb_ge _ _)) by lia.
  rewrite get16_be16. cbn [res_bind]. rewrite Z.add_simpl_r. unfold update_block_number. cbn [TftpBlock TftpLastBlock set_blocks].
  pose proof (Z.mod_pos_bound k 65536 ltac:(lia)). pose proof (Z.mod_pos_bound (k + 1) 65536 ltac:(lia)).
  rewrite tr_last0. destruct (Z.eqb_spec ((k + 1) mod 65536) 0) as [Hz|Hnz]; cbn [andb].
  - assert (k mod 65536 = 65535 /\ (k + 1) / 65536 = k / 65536 + 1) as [Hl Hq] by (Z.div_mod_to_equations; lia).
    rewrite (proj2 (Z.eqb_neq (k mod 65536) 0)) by lia. cbn [negb]. cbv iota zeta.
    cbn [TftpState set_counts set_blocks]. rewrite tr_state0.
    change ((STATE_DATA =? STATE_SEND_RRQ) || (STATE_DATA =? STATE_OACK) || (STATE_DATA =? STATE_RECV_WRQ)) with false. cbn [andb]. cbv iota.
    cbn [TftpBlock TftpLastBlock set_counts set_blocks]. rewrite (proj2 (Z.eqb_neq _ _)) by lia.
    apply accept_ok; cbn; try done; [|lia]. rewrite tr_wrap0, tr_blk0, wrap_add_l, wrap_add_r, Hq. f_equal. unfold TFTP_SEQUENCE_SIZE. lia.
  - cbv iota zeta. cbn [TftpState set_counts set_blocks]. rewrite tr_state0.
    change ((STATE_DATA =? STATE_SEND_RRQ) || (STATE_DATA =? STATE_OACK) || (STATE_DATA =? STATE_RECV_WRQ)) with false. cbn [andb]. cbv iota.
    cbn [TftpBlock TftpLastBlock set_counts set_blocks]. rewrite (proj2 (Z.eqb_neq _ _)) by (rewrite ?tr_last0; Z.div_mod_to_equations; lia).
    apply accept_ok; cbn; try done; [|lia]. rewrite tr_wrap0. do 2 f_equal. Z.div_mod_to_equations; lia.
Qed.

(** The block received last, again. *)
Lemma same_block t0 t src b k data evs c rest :
  transfer t0 t src b k data evs ->
  exists t', TftpHandler t (data_packet k c ++ rest) (TftpOurPort t) src (Z.of_nat (length (data_packet k c))) = Ok t' /\
    transfer t0 t' src b k data evs.
Proof.
  intros []. rewrite handler_data; [|by right; right|by rewrite tr_state0]. unfold handle_data. rewrite (proj2 (Z.ltb_ge _ _)) by lia.
  rewrite get16_be16. cbn [res_bind]. unfold update_block_number. cbn [TftpBlock TftpLastBlock set_blocks]. rewrite tr_last0.
  replace ((k mod 65536 =? 0) && negb (k mod 65536 =? 0)) with false by (by destruct (_ =? 0)). cbv iota zeta.
  cbn [TftpState set_blocks]. rewrite tr_state0.
  change ((STATE_DATA =? STATE_SEND_RRQ) || (STATE_DATA =? STATE_OACK) || (STATE_DATA =? STATE_RECV_WRQ)) with false. cbn [andb]. cbv iota.
  cbn [TftpBlock TftpLastBlock set_blocks]. rewrite ?tr_last0, Z.eqb_refl. eexists. split; [reflexivity|]. by split.
Qed.

(** ** A whole file *)

(** Full blocks and a short one at the end. *)
Fixpoint file_blocks (b : Z) (cs : list (list Z * nat)) : Prop :=
  match cs with
  | [] => False
  | [(c, _)] => Z.of_nat (length c) < b
  | (c, _) :: cs => Z.of_nat (length c) = b /\ file_blocks b cs
  end.
Definition content (cs : list (list Z * nat)) : list Z := concat (map fst cs).

Lemma receive_app t src xs ys : receive t src (xs ++ ys) = let* t := receive t src xs in receive t src ys.
Proof. revert t. induction xs as [|[buf len] xs IH]; intros t; [done|]. cbn [app receive]. destruct (TftpHandler _ _ _ _ _); [apply IH|done..]. Qed.

Lemma again_blocks t0 src b k data evs c n : forall t xs,
  transfer t0 t src b k data evs -> Forall2 carries (replicate n (data_packet k c)) xs ->
  exists t', receive t src xs = Ok t' /\ transfer t0 t' src b k data evs.
Proof.
  induction n as [|n IH]; intros t xs Ht Hxs; cbn [replicate] in Hxs.
  - apply Forall2_nil_inv_l in Hxs as ->. by exists t.
  - apply Forall2_cons_inv_l in Hxs as (x & xs' & [rest ->] & Hxs' & ->). cbn [receive].
    destruct (same_block t0 t src b k data evs c rest Ht) as (t' & -> & Ht'). cbn [res_bind]. by apply IH.
Qed.

Section File.
Context (t0 : tftp) (src b : Z).
Hypothesis (Hb : 0 < b <= 32768) (Haddr : 0 <= load_addr t0).

Definition end_of (c : list Z) : list net_event := if Z.of_nat (length c) <? b then [SetState NETLOOP_SUCCESS] else [].

(** A block and its copies. *)
Lemma block_again k data evs c n t xs :
  transfer t0 t src b k data evs -> 1 <= k -> Z.of_nat (length data) = k * b -> load_addr t0 + k * b + Z.of_nat (length c) < 2 ^ 32 ->
  Forall2 carries (replicate (S n) (data_packet (k + 1) c)) xs ->
  exists t', receive t src xs = Ok t' /\ transfer t0 t' src b (k + 1) (data ++ c) (evs ++ answer t0 src (k + 1) ++ end_of c).
Proof using Hb Haddr.
  intros Ht Hk Hd Hlt Hxs. cbn [replicate] in Hxs. apply Forall2_cons_inv_l in Hxs as (x & xs' & [rest ->] & Hxs' & ->). cbn [receive].
  destruct (following_block t0 t src b k data evs c rest) as (t' & -> & Ht'); try done. cbn [res_bind]. by eapply again_blocks.
Qed.

Lemma session_rest cs : forall k data evs t xs,
  transfer t0 t src b k data evs -> 1 <= k -> Z.of_nat (length data) = k * b -> file_blocks b cs ->
  load_addr t0 + k * b + Z.of_nat (length (content cs)) < 2 ^ 32 -> Forall2 carries (packets (k + 1) cs) xs ->
  exists t', receive t src xs = Ok t' /\
    transfer t0 t' src b (k + Z.of_nat (length cs)) (data ++ content cs)
      (evs ++ answers t0 src (k + 1) (length cs) ++ [SetState NETLOOP_SUCCESS]).
Proof using Hb Haddr.
  induction cs as [|[c n] cs IH]; intros k data evs t xs Ht Hk Hd Hfile Hlt Hxs; [done|].
  cbn [packets] in Hxs. apply Forall2_app_inv_l in Hxs as (xs1 & xs2 & Hx1 & Hx2 & ->). rewrite receive_app.
  unfold content in *. cbn [map concat fst] in *. rewrite length_app in Hlt.
  destruct (block_again k data evs c n t xs1) as (t1 & -> & Ht1); try done; [lia|]. cbn [res_bind].
  destruct cs as [|[c2 n2] cs].
  - cbn [file_blocks] in Hfile. cbn [packets] in Hx2. apply Forall2_nil_inv_l in Hx2 as ->. exists t1. split; [done|].
    unfold end_of in Ht1. rewrite (proj2 (Z.ltb_lt _ _)) in Ht1 by done. cbn [map concat length answers]. by rewrite !app_nil_r.
  - destruct Hfile as [Hc Hfile]. unfold end_of in Ht1. rewrite (proj2 (Z.ltb_ge _ _)), app_nil_r in Ht1 by lia.
    destruct (IH (k + 1) (data ++ c) (evs ++ answer t0 src (k + 1)) t1 xs2) as (t2 & -> & Ht2); try done; [lia|rewrite length_app; lia|lia|].
    exists t2. split; [done|]. rewrite <- !app_assoc in Ht2.
    replace (k + Z.of_nat (length ((c, n) :: (c2, n2) :: cs))) with (k + 1 + Z.of_nat (length ((c2, n2) :: cs))) by (simpl; lia).
    done.
Qed.
End File.

Lemma session_ok t src cs xs :
  waiting t -> (TftpState t = STATE_OACK -> TftpRemotePort t = src) -> 0 < TftpBlkSize t <= 32768 -> file_blocks (TftpBlkSize t) cs ->
  0 <= load_addr t -> load_addr t + Z.of_nat (length (content cs)) < 2 ^ 32 -> Forall2 carries (packets 1 cs) xs ->
  exists t', receive t src xs = Ok t' /\
    transfer t t' src (TftpBlkSize t) (Z.of_nat (length cs)) (content cs) (answers t src 1 (length cs) ++ [SetState NETLOOP_SUCCESS]).
Proof.
  intros Hw Hport Hb Hfile Ha Hlt Hxs. destruct cs as [|[c n] cs]; [done|]. set (b := TftpBlkSize t) in *.
  cbn [packets replicate app] in Hxs. apply Forall2_cons_inv_l in Hxs as (x & xs' & [rest ->] & Hxs' & ->). cbn [receive].
  unfold content in *. cbn [map concat fst] in *. rewrite length_app in Hlt.
  destruct (first_block t src b c rest) as (t1 & -> & Ht1); try done; [lia|]. cbn [res_bind].
  apply Forall2_app_inv_l in Hxs' as (xs1 & xs2 & Hx1 & Hx2 & ->). rewrite receive_app.
  eapply again_blocks in Hx1 as (t2 & -> & Ht2); [|exact Ht1]. cbn [res_bind].
  destruct cs as [|[c2 n2] cs].
  - cbn [file_blocks] in Hfile. apply Forall2_nil_inv_l in Hx2 as ->. exists t2. split; [done|].
    rewrite (proj2 (Z.ltb_lt _ _)) in Ht2 by done. cbn [map concat length answers]. by rewrite !app_nil_r.
  - destruct Hfile as [Hc Hfile]. rewrite (proj2 (Z.ltb_ge _ _)), app_nil_r in Ht2 by lia.
    destruct (session_rest t src b Hb Ha ((c2, n2) :: cs) 1 c (answer t src 1) t2 xs2) as (t3 & -> & Ht3); try done; [lia|unfold content; lia|].
    exists t3. split; [done|].
    replace (Z.of_nat (length ((c, n) :: (c2, n2) :: cs))) with (1 + Z.of_nat (length ((c2, n2) :: cs))) by (simpl; lia).
    cbn [length answers]. by rewrite <- app_assoc.
Qed.

(** A TFTP download stores the file.  Take a client that has sent its request, or acknowledged the
    options, and a server that sends the blocks of a file in order, however long the file, so that
    the 16-bit block numbers may wrap any number of times, and each block as often as it likes before the
    next; the receive buffers may hold anything behind the packets.  Then memory from the load address
    on holds the file and is unchanged elsewhere, the transfer size is its length, every block was
    acknowledged exactly once and in order, and the last request to the network loop is to end
    with success. *)
Theorem tftp_stores_file t src cs xs :
  waiting t -> (TftpState t = STATE_OACK -> TftpRemotePort t = src) -> 0 < TftpBlkSize t <= 32768 -> file_blocks (TftpBlkSize t) cs ->
  0 <= load_addr t -> load_addr t + Z.of_nat (length (content cs)) < 2 ^ 32 -> Forall2 carries (packets 1 cs) xs ->
  exists t', receive t src xs = Ok t' /\
    (forall x, ram t' x = copy_to (ram t) (load_addr t) (content cs) x) /\
    NetBootFileXferSize t' = Z.of_nat (length (content cs)) /\
    events t' = events t ++ answers t src 1 (length cs) ++ [SetState NETLOOP_SUCCESS].
Proof.
  intros Hw Hp Hb Hf Ha Hlt Hxs. destruct (session_ok t src cs xs) as (t' & E & []); try done. by exists t'.
Qed.

(** A client that waits for the first block. *)
Definition idle_client (state blksize addr : Z) : tftp :=
  {| TftpTimeoutMSecs := TIMEOUT; TftpTimeoutCountMax := TIMEOUT_COUNT; TftpRemoteIP := 0x0100A8C0; TftpRemotePort := WELL_KNOWN_PORT;
     TftpOurPort := 1100; TftpTimeoutCount := 0; TftpBlock := 0; TftpLastBlock := 0; TftpBlockWrap := 0; TftpBlockWrapOffset := 0;
     TftpState := state; TftpBlkSize := blksize; TftpBlkSizeOption := TFTP_MTU_BLOCKSIZE; tftp_filename := cstr "uImage"; load_addr := addr;
     NetBootFileXferSize := 0; ram := fun _ => 0; events := [] |}.

Lemma tftp_stores_file_witness :
  let t := idle_client STATE_SEND_RRQ 8 0x20000000 in
  let cs := [(cstr "linuxker", 1%nat); (cstr "nel", 0%nat)] in
  exists t', receive t 2048 (map (fun p => (p ++ [7; 7], Z.of_nat (length p))) (packets 1 cs)) = Ok t' /\
    (forall x, ram t' x = copy_to (ram t) (load_addr t) (content cs) x) /\
    NetBootFileXferSize t' = Z.of_nat (length (content cs)) /\
    events t' = events t ++ answers t 2048 1 (length cs) ++ [SetState NETLOOP_SUCCESS].
Proof.
  apply tftp_stores_file; [split; [by left|done]|done|cbn; lia|by cbn|cbn; lia|vm_compute; reflexivity|].
  repeat (constructor; [by exists [7; 7]|]). constructor.
Defined.

(** ** Blocks out of order *)

(** A block that arrives late, after the block numbers have wrapped, is stored in the wrong place.  When
    block number 0 has just been received, a further copy of the block before it, number 65535, is taken
    for a block of the new round: it is written 65536 blocks behind its place in the file, and the
    transfer size grows accordingly. *)
Theorem late_block_misplaced t src b q c rest :
  TftpState t = STATE_DATA -> TftpRemotePort t = src -> TftpBlkSize t = b -> TftpLastBlock t = 0 ->
  TftpBlockWrapOffset t = q * (65536 * b) -> 0 < b <= 32768 -> 0 < q -> 0 <= load_addr t ->
  load_addr t + (q * 65536 + 65534) * b + Z.of_nat (length c) < 2 ^ 32 ->
  exists t', TftpHandler t (data_packet 65535 c ++ rest) (TftpOurPort t) src (Z.of_nat (length (data_packet 65535 c))) = Ok t' /\
    (forall x, ram t' x = copy_to (ram t) (load_addr t + (q * 65536 - 2) * b + 65536 * b) c x) /\
    (q * 65536 + 65534) * b + Z.of_nat (length c) <= NetBootFileXferSize t'.
Proof.
  intros Hst Hport Hblk Hlast Hwrap Hb Hq Ha Hlt. rewrite handler_data; [|by right; right|by rewrite Hst]. unfold handle_data.
  rewrite (proj2 (Z.ltb_ge _ _)) by lia. rewrite get16_be16. cbn [res_bind]. change (65535 mod 65536) with 65535. rewrite Z.add_simpl_r.
  unfold update_block_number. cbn [TftpBlock set_blocks]. change (65535 =? 0) with false. cbn [andb]. cbv iota zeta. cbn [TftpState set_blocks].
  rewrite Hst. change ((STATE_DATA =? STATE_SEND_RRQ) || (STATE_DATA =? STATE_OACK) || (STATE_DATA =? STATE_RECV_WRQ)) with false.
  cbn [andb]. cbv iota. cbn [TftpBlock TftpLastBlock set_blocks]. rewrite Hlast. change (65535 =? 0) with false. cbv iota.
  unfold accept_data. rewrite Nat2Z.id, (get_bytes_app (be16 65535) c rest : get_bytes _ 2 _ = _). cbn [res_bind].
  unfold store_block. cbn [TftpBlkSize TftpBlock TftpBlockWrapOffset emit_event set_counts set_blocks load_addr NetBootFileXferSize ram].
  rewrite Hblk, Hwrap, decide_True by lia. cbn [res_bind]. unfold TftpSend, payload.
  cbn [TftpState set_ram emit_event set_counts set_blocks]. rewrite Hst.
  change ((STATE_DATA =? STATE_SEND_RRQ) || (STATE_DATA =? STATE_SEND_WRQ)) with false.
  change ((STATE_DATA =? STATE_OACK) || (STATE_DATA =? STATE_RECV_WRQ) || (STATE_DATA =? STATE_DATA)) with true. cbn [res_bind].
  eexists. split; [reflexivity|]. cbn [TftpBlkSize emit_event set_ram set_counts set_blocks].
  replace ((65535 - 1) * b + q * (65536 * b)) with ((q * 65536 + 65534) * b) by lia.
  replace (load_addr t + (q * 65536 - 2) * b + 65536 * b) with (load_addr t + (q * 65536 + 65534) * b) by lia.
  assert (0 <= (q * 65536 + 65534) * b) by nia. set (off := (q * 65536 + 65534) * b) in *. clearbody off.
  rewrite (wrap_small 32 off), (wrap_small 32 (off + _)), (wrap_small 32 (load_addr t + off)) by lia. split.
  - intros x. destruct (Z.of_nat (length c) <? _); done.
  - destruct (Z.of_nat (length c) <? _); cbn; destruct (Z.ltb_spec (NetBootFileXferSize t) (off + Z.of_nat (length c))); lia.
Qed.

Definition wrapped_client : tftp := set_blocks (idle_client STATE_DATA 512 0x20000000) 0 0 1 (65536 * 512).

Lemma late_block_misplaced_witness :
  exists t', TftpHandler wrapped_client (data_packet 65535 [1; 2; 3] ++ []) 1100 69 7 = Ok t' /\
    (forall x, ram t' x = copy_to (fun _ => 0) (0x20000000 + (1 * 65536 - 2) * 512 + 65536 * 512) [1; 2; 3] x) /\
    (1 * 65536 + 65534) * 512 + 3 <= NetBootFileXferSize t'.
Proof. apply (late_block_misplaced wrapped_client 69 512 1 [1; 2; 3] []); try done; cbn; lia. Defined.
