(* ===== verification/Net.v ===== *)
(** * The network code: state, devices, ARP, sending ([net/net.c], [net/arp.c], [net/eth.c])

    The state of the network code, the devices, the ARP exchange before the first packet to a server, retries,
    and what the TFTP client asks for.  The clock is a field that each iteration of the loop sets
    where the code reads the timer; what the environment holds and whether a device starts are
    parameters.  Not configured, and left out: CDP, RARP, ping, DNS, SNTP, DHCP, defragmentation, the UDP
    checksum, the network console. *)
From S2P Require Import Prelude Ctype Vsprintf Ram NetPkt Tftp.

Definition ARP_TIMEOUT : Z := 5000.
Definition ARP_TIMEOUT_COUNT : Z := 5.
Definition ARP_ETHER : Z := 1.
Definition ARP_HLEN : Z := 6.
Definition ARP_PLEN : Z := 4.
Definition ARPOP_REQUEST : Z := 1.
Definition ARPOP_REPLY : Z := 2.
Definition ICMP_REDIRECT : Z := 5.
Definition PKTSIZE_ALIGN : nat := 1536.
Definition CONFIG_SYS_HZ : Z := 1000.

Inductive proto_t :=
  | BOOTP | RARP | ARP | TFTPGET | DHCP | PING | DNS | NFS | CDP | NETCONS | SNTP | TFTPSRV | TFTPPUT | LINKLOCAL.
#[export] Instance proto_t_eq_dec : EqDecision proto_t. Proof. solve_decision. Defined.

(** The handlers and the address buffers that pointers point to. *)
Inductive rxhand := dummy_handler | udp_TftpHandler | udp_BootpHandler.
Inductive thand := time_TftpTimeout | time_BootpTimeout | time_startAgainTimeout.
Inductive ether_ptr := to_NetServerEther | to_NetBcastAddr.

(** What the device is asked to do. *)
Inductive eth_event := EthSend (frame : list Z) | EthHalted | EthInit (dev : nat).

Record addresses := {
  NetOurIP : Z; NetOurGatewayIP : Z; NetOurSubnetMask : Z; NetServerIP : Z;
  NetOurEther : list Z; NetOurVLAN : Z; NetOurNativeVLAN : Z
}.
Record arp_state := {
  NetArpWaitPacketIP : Z; NetArpWaitReplyIP : Z; NetArpWaitPacketMAC : option ether_ptr;
  NetArpWaitTxPacketSize : nat; NetArpWaitTimerStart : Z; NetArpWaitTry : Z
}.
Record timeout := { timeHandler : option thand; timeStart : Z; timeDelta : Z }.
(** The ring of devices, by index. *)
Record ring := { eth_devices : nat; eth_current : nat; first_failed : option nat; eth_log : list eth_event }.
Record progress := {
  net_state : net_loop_state; NetRestarted : bool; NetDevExists : bool; NetTryCount : Z; NetRestartWrap : bool
}.
(** The BOOTP client, what its server says beside the addresses, and the variables it has set, in order. *)
Record bootp_state := {
  BootpID : Z; BootpTry : Z; NetOurDNSIP : Z; NetOurNISDomain : list Z; NetOurHostName : list Z; NetOurRootPath : list Z;
  NetBootFileSize : Z; env_sets : list (list Z * list Z)
}.
Record net := {
  addrs : addresses; NetServerEther : list Z; NetIPID : Z; NetTxPacket : list Z; BootFile : list Z;
  arp : arp_state; udp_packet_handler : rxhand; tmo : timeout; prog : progress; client : tftp; bootp : bootp_state; eth : ring; clock : Z
}.

(** ** Assignments *)

Definition set_addrs (n : net) a := {| addrs := a; NetServerEther := NetServerEther n; NetIPID := NetIPID n; NetTxPacket := NetTxPacket n;
  BootFile := BootFile n; arp := arp n; udp_packet_handler := udp_packet_handler n; tmo := tmo n; prog := prog n; client := client n; bootp := bootp n;
  eth := eth n; clock := clock n |}.
Definition set_server (n : net) e := {| addrs := addrs n; NetServerEther := e; NetIPID := NetIPID n; NetTxPacket := NetTxPacket n;
  BootFile := BootFile n; arp := arp n; udp_packet_handler := udp_packet_handler n; tmo := tmo n; prog := prog n; client := client n; bootp := bootp n;
  eth := eth n; clock := clock n |}.
Definition set_tx (n : net) id p := {| addrs := addrs n; NetServerEther := NetServerEther n; NetIPID := id; NetTxPacket := p;
  BootFile := BootFile n; arp := arp n; udp_packet_handler := udp_packet_handler n; tmo := tmo n; prog := prog n; client := client n; bootp := bootp n;
  eth := eth n; clock := clock n |}.
Definition set_arp (n : net) a := {| addrs := addrs n; NetServerEther := NetServerEther n; NetIPID := NetIPID n; NetTxPacket := NetTxPacket n;
  BootFile := BootFile n; arp := a; udp_packet_handler := udp_packet_handler n; tmo := tmo n; prog := prog n; client := client n; bootp := bootp n;
  eth := eth n; clock := clock n |}.
Definition set_handler (n : net) h := {| addrs := addrs n; NetServerEther := NetServerEther n; NetIPID := NetIPID n; NetTxPacket := NetTxPacket n;
  BootFile := BootFile n; arp := arp n; udp_packet_handler := h; tmo := tmo n; prog := prog n; client := client n; bootp := bootp n;
  eth := eth n; clock := clock n |}.
Definition set_tmo (n : net) t := {| addrs := addrs n; NetServerEther := NetServerEther n; NetIPID := NetIPID n; NetTxPacket := NetTxPacket n;
  BootFile := BootFile n; arp := arp n; udp_packet_handler := udp_packet_handler n; tmo := t; prog := prog n; client := client n; bootp := bootp n;
  eth := eth n; clock := clock n |}.
Definition set_prog (n : net) p := {| addrs := addrs n; NetServerEther := NetServerEther n; NetIPID := NetIPID n; NetTxPacket := NetTxPacket n;
  BootFile := BootFile n; arp := arp n; udp_packet_handler := udp_packet_handler n; tmo := tmo n; prog := p; client := client n; bootp := bootp n;
  eth := eth n; clock := clock n |}.
Definition set_client (n : net) c := {| addrs := addrs n; NetServerEther := NetServerEther n; NetIPID := NetIPID n; NetTxPacket := NetTxPacket n;
  BootFile := BootFile n; arp := arp n; udp_packet_handler := udp_packet_handler n; tmo := tmo n; prog := prog n; client := c; bootp := bootp n;
  eth := eth n; clock := clock n |}.
Definition set_eth (n : net) e := {| addrs := addrs n; NetServerEther := NetServerEther n; NetIPID := NetIPID n; NetTxPacket := NetTxPacket n;
  BootFile := BootFile n; arp := arp n; udp_packet_handler := udp_packet_handler n; tmo := tmo n; prog := prog n; client := client n; bootp := bootp n;
  eth := e; clock := clock n |}.
Definition set_clock (n : net) t := {| addrs := addrs n; NetServerEther := NetServerEther n; NetIPID := NetIPID n; NetTxPacket := NetTxPacket n;
  BootFile := BootFile n; arp := arp n; udp_packet_handler := udp_packet_handler n; tmo := tmo n; prog := prog n; client := client n; bootp := bootp n;
  eth := eth n; clock := t |}.
Definition set_bootfile (n : net) f := {| addrs := addrs n; NetServerEther := NetServerEther n; NetIPID := NetIPID n; NetTxPacket := NetTxPacket n;
  BootFile := f; arp := arp n; udp_packet_handler := udp_packet_handler n; tmo := tmo n; prog := prog n; client := client n; bootp := bootp n;
  eth := eth n; clock := clock n |}.
Definition set_bootp (n : net) b := {| addrs := addrs n; NetServerEther := NetServerEther n; NetIPID := NetIPID n; NetTxPacket := NetTxPacket n;
  BootFile := BootFile n; arp := arp n; udp_packet_handler := udp_packet_handler n; tmo := tmo n; prog := prog n; client := client n; bootp := b;
  eth := eth n; clock := clock n |}.

Definition net_set_state (n : net) (s : net_loop_state) : net :=
  set_prog n {| net_state := s; NetRestarted := NetRestarted (prog n); NetDevExists := NetDevExists (prog n);
                NetTryCount := NetTryCount (prog n); NetRestartWrap := NetRestartWrap (prog n) |}.
Definition set_wrap (n : net) (w : bool) : net :=
  set_prog n {| net_state := net_state (prog n); NetRestarted := NetRestarted (prog n); NetDevExists := NetDevExists (prog n);
                NetTryCount := NetTryCount (prog n); NetRestartWrap := w |}.
Definition set_try (n : net) (c : Z) : net :=
  set_prog n {| net_state := net_state (prog n); NetRestarted := NetRestarted (prog n); NetDevExists := NetDevExists (prog n);
                NetTryCount := c; NetRestartWrap := NetRestartWrap (prog n) |}.

Definition NetSetTimeout (n : net) (iv : Z) (f : thand) : net :=
  if iv =? 0 then set_tmo n {| timeHandler := None; timeStart := timeStart (tmo n); timeDelta := timeDelta (tmo n) |}
  else set_tmo n {| timeHandler := Some f; timeStart := clock n; timeDelta := u32 (iv * CONFIG_SYS_HZ) / 1000 |}.

Definition net_set_udp_handler (n : net) (f : option rxhand) : net :=
  set_handler n (match f with None => dummy_handler | Some f => f end).

Definition net_clear_handlers (n : net) : net :=
  let n := net_set_udp_handler n None in
  set_tmo n {| timeHandler := None; timeStart := timeStart (tmo n); timeDelta := timeDelta (tmo n) |}.

(** ** Devices *)

Definition log_eth (n : net) (e : eth_event) : net :=
  set_eth n {| eth_devices := eth_devices (eth n); eth_current := eth_current (eth n); first_failed := first_failed (eth n);
               eth_log := eth_log (eth n) ++ [e] |}.
Definition eth_send (n : net) (packet : list Z) : net := if decide (eth_devices (eth n) = O) then n else log_eth n (EthSend packet).
Definition eth_halt (n : net) : net := if decide (eth_devices (eth n) = O) then n else log_eth n EthHalted.

Definition NetSendPacket (n : net) (pkt : list Z) (len : nat) : res net :=
  let* bs := get_bytes pkt 0 len in Ok (eth_send n bs).

Section Network.
(** The environment, and whether a device starts. *)
Context (getenv : list Z -> option (list Z)) (dev_init : nat -> bool).

Definition eth_try_another (n : net) (first_restart : bool) : net :=
  if bool_decide (getenv (cstr "ethrotate") = Some (cstr "no")) then n
  else if decide (eth_devices (eth n) = O) then n
  else
    let cur := eth_current (eth n) in
    let failed := if first_restart then Some cur else first_failed (eth n) in
    let next := if decide (S cur = eth_devices (eth n)) then O else S cur in
    let n := set_eth n {| eth_devices := eth_devices (eth n); eth_current := next; first_failed := failed; eth_log := eth_log (eth n) |} in
    if bool_decide (failed = Some next) then set_wrap n true else n.

(** The [do] loop of [eth_init]: every device of the ring once. *)
Fixpoint init_loop (k : nat) (n : net) (old_current : nat) : res (net * bool) :=
  match k with
  | O => Hang
  | S k =>
    let n := log_eth n (EthInit (eth_current (eth n))) in
    if dev_init (eth_current (eth n)) then Ok (n, true)
    else
      let n := eth_try_another n false in
      if decide (eth_current (eth n) = old_current) then Ok (n, false) else init_loop k n old_current
  end.
Definition eth_init (n : net) : res (net * bool) :=
  if decide (eth_devices (eth n) = O) then Ok (n, false)
  else init_loop (eth_devices (eth n)) n (eth_current (eth n)).

(** ** Retries *)

Definition NetStartAgain (n : net) : res net :=
  let '(retry_forever, retrycnt) :=
    match getenv (cstr "netretry") with
    | Some nretry =>
      if bool_decide (nretry = cstr "yes") then (true, 0)
      else if bool_decide (nretry = cstr "no") then (false, 0)
      else if bool_decide (nretry = cstr "once") then (false, 1)
      else (false, fst (simple_strtoul nretry 0))
    | None => (true, 0)
    end in
  if negb retry_forever && (retrycnt <=? u32 (NetTryCount (prog n))) then Ok (net_set_state (eth_halt n) NETLOOP_FAIL)
  else
    let n := set_try n (NetTryCount (prog n) + 1) in
    let n := eth_halt n in
    let n := eth_try_another n (negb (NetRestarted (prog n))) in
    let* (n, _) := eth_init n in
    if NetRestartWrap (prog n) then
      let n := set_wrap n false in
      if NetDevExists (prog n) then Ok (net_set_udp_handler (NetSetTimeout n 10000 time_startAgainTimeout) None)
      else Ok (net_set_state n NETLOOP_FAIL)
    else Ok (net_set_state n NETLOOP_RESTART).

Definition startAgainTimeout (n : net) : net := net_set_state n NETLOOP_RESTART.

(** ** ARP *)

Definition ArpInit (n : net) : net :=
  set_arp n {| NetArpWaitPacketIP := 0; NetArpWaitReplyIP := 0; NetArpWaitPacketMAC := None; NetArpWaitTxPacketSize := 0;
               NetArpWaitTimerStart := NetArpWaitTimerStart (arp n); NetArpWaitTry := NetArpWaitTry (arp n) |}.

(** Every byte of [NetArpTxPacket] that is sent is written before. *)
Definition arp_raw_request (n : net) (sourceIP : Z) (targetEther : list Z) (targetIP : Z) : res net :=
  let* (pkt, h) := NetSetEther (NetOurVLAN (addrs n)) (NetOurEther (addrs n)) (replicate PKTSIZE_ALIGN 0) NetBcastAddr PROT_ARP in
  let* pkt := put pkt h (be16 ARP_ETHER) in
  let* pkt := put pkt (h + 2) (be16 PROT_IP) in
  let* pkt := put pkt (h + 4) [ARP_HLEN; ARP_PLEN] in
  let* pkt := put pkt (h + 6) (be16 ARPOP_REQUEST) in
  let* pkt := put pkt (h + 8) (NetOurEther (addrs n)) in
  let* pkt := NetWriteIP pkt (h + 14) sourceIP in
  let* pkt := put pkt (h + 18) targetEther in
  let* pkt := NetWriteIP pkt (h + 24) targetIP in
  NetSendPacket n pkt (h + ARP_HDR_SIZE).

Definition ArpRequest (n : net) : res net :=
  let a := arp n in
  let reply :=
    if negb (NetArpWaitPacketIP a .& NetOurSubnetMask (addrs n) =? NetOurIP (addrs n) .& NetOurSubnetMask (addrs n)) then
      if NetOurGatewayIP (addrs n) =? 0 then NetArpWaitPacketIP a else NetOurGatewayIP (addrs n)
    else NetArpWaitPacketIP a in
  let n := set_arp n {| NetArpWaitPacketIP := NetArpWaitPacketIP a; NetArpWaitReplyIP := reply; NetArpWaitPacketMAC := NetArpWaitPacketMAC a;
                        NetArpWaitTxPacketSize := NetArpWaitTxPacketSize a; NetArpWaitTimerStart := NetArpWaitTimerStart a;
                        NetArpWaitTry := NetArpWaitTry a |} in
  arp_raw_request n (NetOurIP (addrs n)) NetEtherNullAddr reply.

Definition set_arp_try (n : net) (start try_ : Z) : net :=
  let a := arp n in
  set_arp n {| NetArpWaitPacketIP := NetArpWaitPacketIP a; NetArpWaitReplyIP := NetArpWaitReplyIP a; NetArpWaitPacketMAC := NetArpWaitPacketMAC a;
               NetArpWaitTxPacketSize := NetArpWaitTxPacketSize a; NetArpWaitTimerStart := start; NetArpWaitTry := try_ |}.

Definition ArpTimeoutCheck (n : net) : res net :=
  if NetArpWaitPacketIP (arp n) =? 0 then Ok n
  else
    let t := clock n in
    if ARP_TIMEOUT <? u32 (t - NetArpWaitTimerStart (arp n)) then
      let try_ := NetArpWaitTry (arp n) + 1 in
      if ARP_TIMEOUT_COUNT <=? try_ then NetStartAgain (set_arp_try n (NetArpWaitTimerStart (arp n)) 0)
      else ArpRequest (set_arp_try n t try_)
    else Ok n.

(** The bytes behind a pointer to an address, and a copy to there. *)
Definition ether_at (n : net) (p : ether_ptr) : list Z :=
  match p with to_NetServerEther => NetServerEther n | to_NetBcastAddr => NetBcastAddr end.
Definition store_ether (n : net) (p : option ether_ptr) (e : list Z) : res net :=
  match p with
  | None => Ok n
  | Some to_NetServerEther => Ok (set_server n e)
  | Some to_NetBcastAddr => Ub
  end.

(** The two cases of [ArpReceive]; [ip] is the offset of the ARP header in the frame [et]. *)
Definition arp_answer (n : net) (et : list Z) (ip : nat) : res net :=
  let* src := get_bytes et 6 6 in
  let* (et, h) := net_update_ether (NetOurEther (addrs n)) et src PROT_ARP in
  let* et := put et (ip + 6) (be16 ARPOP_REPLY) in
  let* sha := get_bytes et (ip + 8) 6 in
  let* et := put et (ip + 18) sha in
  let* spa := get_bytes et (ip + 14) 4 in
  let* et := put et (ip + 24) spa in
  let* et := put et (ip + 8) (NetOurEther (addrs n)) in
  let* et := put et (ip + 14) (le32 (NetOurIP (addrs n))) in
  NetSendPacket n et (h + ARP_HDR_SIZE).
Definition arp_learn (n : net) (et : list Z) (ip : nat) : res net :=
  if NetArpWaitPacketIP (arp n) =? 0 then Ok n
  else
    let* reply_ip_addr := NetReadIP et (ip + 14) in
    if reply_ip_addr =? NetArpWaitReplyIP (arp n) then
      let* sha := get_bytes et (ip + 8) 6 in
      let* n := store_ether n (NetArpWaitPacketMAC (arp n)) sha in
      let* pkt := put (NetTxPacket n) 0 sha in
      let n := set_tx n (NetIPID n) pkt in
      let* n := NetSendPacket n (NetTxPacket n) (NetArpWaitTxPacketSize (arp n)) in
      let a := arp n in
      Ok (set_arp n {| NetArpWaitPacketIP := 0; NetArpWaitReplyIP := NetArpWaitReplyIP a; NetArpWaitPacketMAC := None;
                       NetArpWaitTxPacketSize := 0; NetArpWaitTimerStart := NetArpWaitTimerStart a; NetArpWaitTry := NetArpWaitTry a |})
    else Ok n.

Definition ArpReceive (n : net) (et : list Z) (ip : nat) (len : Z) : res net :=
  if len <? Z.of_nat ARP_HDR_SIZE then Ok n else
  let* hrd := get16 et ip in
  if negb (hrd =? ARP_ETHER) then Ok n else
  let* pro := get16 et (ip + 2) in
  if negb (pro =? PROT_IP) then Ok n else
  let* hln := get8 et (ip + 4) in
  if negb (hln =? ARP_HLEN) then Ok n else
  let* pln := get8 et (ip + 5) in
  if negb (pln =? ARP_PLEN) then Ok n else
  if NetOurIP (addrs n) =? 0 then Ok n else
  let* tpa := NetReadIP et (ip + 24) in
  if negb (tpa =? NetOurIP (addrs n)) then Ok n else
  let* op := get16 et (ip + 6) in
  if op =? ARPOP_REQUEST then arp_answer n et ip
  else if op =? ARPOP_REPLY then arp_learn n et ip
  else Ok n.

(** ** Sending *)

Definition NetSendUDPPacket (n : net) (ether : ether_ptr) (dest dport sport : Z) (payload_len : nat) : res net :=
  let dest := if dest =? 0 then 0xFFFFFFFF else dest in
  let ether := if dest =? 0xFFFFFFFF then to_NetBcastAddr else ether in
  let* (pkt, eth_hdr_size) := NetSetEther (NetOurVLAN (addrs n)) (NetOurEther (addrs n)) (NetTxPacket n) (ether_at n ether) PROT_IP in
  let* pkt := net_set_udp_header (NetIPID n) (NetOurIP (addrs n)) pkt eth_hdr_size dest dport sport payload_len in
  let n := set_tx n (u32 (NetIPID n + 1)) pkt in
  let pkt_hdr_size := (eth_hdr_size + IP_UDP_HDR_SIZE)%nat in
  if bool_decide (ether_at n ether = NetEtherNullAddr) then
    ArpRequest (set_arp n {| NetArpWaitPacketIP := dest; NetArpWaitReplyIP := NetArpWaitReplyIP (arp n); NetArpWaitPacketMAC := Some ether;
                             NetArpWaitTxPacketSize := pkt_hdr_size + payload_len; NetArpWaitTimerStart := clock n; NetArpWaitTry := 1 |})
  else NetSendPacket n (NetTxPacket n) (pkt_hdr_size + payload_len).

(** ** The client

    What it asks for is done in the order of its requests. *)

Definition exec (n : net) (e : net_event) : res net :=
  match e with
  | SendUDP dest_ip dport sport payload =>
    let* pkt := put (NetTxPacket n) (NetEthHdrSize (NetOurVLAN (addrs n)) + IP_UDP_HDR_SIZE) payload in
    NetSendUDPPacket (set_tx n (NetIPID n) pkt) to_NetServerEther dest_ip dport sport (length payload)
  | SetTimeout msecs => Ok (NetSetTimeout n msecs time_TftpTimeout)
  | StartAgain => NetStartAgain n
  | SetState s => Ok (net_set_state n s)
  | EthHalt => Ok (eth_halt n)
  | SetUdpHandler => Ok (net_set_udp_handler n (Some udp_TftpHandler))
  | ClearServerEther => Ok (set_server n NetEtherNullAddr)
  end.
Fixpoint exec_all (n : net) (es : list net_event) : res net :=
  match es with [] => Ok n | e :: es => let* n := exec n e in exec_all n es end.

Definition with_events (t : tftp) (es : list net_event) : tftp :=
  {| TftpTimeoutMSecs := TftpTimeoutMSecs t; TftpTimeoutCountMax := TftpTimeoutCountMax t; TftpRemoteIP := TftpRemoteIP t;
     TftpRemotePort := TftpRemotePort t; TftpOurPort := TftpOurPort t; TftpTimeoutCount := TftpTimeoutCount t;
     TftpBlock := TftpBlock t; TftpLastBlock := TftpLastBlock t; TftpBlockWrap := TftpBlockWrap t; TftpBlockWrapOffset := TftpBlockWrapOffset t;
     TftpState := TftpState t; TftpBlkSize := TftpBlkSize t; TftpBlkSizeOption := TftpBlkSizeOption t; tftp_filename := tftp_filename t;
     load_addr := load_addr t; NetBootFileXferSize := NetBootFileXferSize t; ram := ram t; events := es |}.
Definition run_client (n : net) (f : tftp -> res tftp) : res net :=
  let* t := f (with_events (client n) []) in
  exec_all (set_client n (with_events t [])) (events t).
End Network.
