(* ===== verification/Bootp.v ===== *)
(** * The BOOTP client ([net/bootp.c], [net/bootp.h])

    The request, the check of a reply, the addresses and the boot file it brings, its vendor area, the timeout, and
    what follows a good reply ([net_auto_load] of [net/net.c]).  The configuration has no DHCP, no vendor class
    and no [CONFIG_BOOTP_*] option, so the request asks for nothing but the fixed fields.  A packet is the receive buffer
    from its first byte on: what lies behind the packet in the buffer can be read, what lies behind the buffer cannot. *)
From S2P Require Import Prelude Ctype Vsprintf Ram NetPkt Tftp Net.

Definition BOOTP_VENDOR_MAGIC : Z := 0x63825363.
Definition TIMEOUT : Z := 5000.
Definition TIMEOUT_COUNT : Z := 5.
Definition PORT_BOOTPS : Z := 67.
Definition PORT_BOOTPC : Z := 68.
Definition OPT_FIELD_SIZE : nat := 64.
Definition OP_BOOTREQUEST : Z := 1.
Definition OP_BOOTREPLY : Z := 2.
Definition HWT_ETHER : Z := 1.
Definition HWL_ETHER : Z := 6.
Definition DHCP_OFFER : Z := 2.
Definition DHCP_ACK : Z := 5.
Definition DHCP_NAK : Z := 6.
Definition SELECT_TIMEOUT : Z := 3000.
Definition PKTSIZE : nat := 1518.

(** ** [struct Bootp_t]: the offsets of its fields, and its size *)

Definition bp_op : nat := 0.
Definition bp_htype : nat := 1.
Definition bp_hlen : nat := 2.
Definition bp_hops : nat := 3.
Definition bp_id : nat := 4.
Definition bp_secs : nat := 8.
Definition bp_ciaddr : nat := 12.
Definition bp_yiaddr : nat := 16.
Definition bp_siaddr : nat := 20.
Definition bp_giaddr : nat := 24.
Definition bp_chaddr : nat := 28.
Definition bp_file : nat := 108.
Definition bp_vend : nat := 236.
Definition BOOTP_HDR_SIZE : nat := bp_vend + OPT_FIELD_SIZE.

(** ** Assignments *)

Definition set_id (b : bootp_state) (id : Z) : bootp_state :=
  {| BootpID := id; BootpTry := BootpTry b; NetOurDNSIP := NetOurDNSIP b; NetOurNISDomain := NetOurNISDomain b;
     NetOurHostName := NetOurHostName b; NetOurRootPath := NetOurRootPath b; NetBootFileSize := NetBootFileSize b; env_sets := env_sets b |}.
Definition set_boot_try (b : bootp_state) (t : Z) : bootp_state :=
  {| BootpID := BootpID b; BootpTry := t; NetOurDNSIP := NetOurDNSIP b; NetOurNISDomain := NetOurNISDomain b;
     NetOurHostName := NetOurHostName b; NetOurRootPath := NetOurRootPath b; NetBootFileSize := NetBootFileSize b; env_sets := env_sets b |}.
Definition set_dns (b : bootp_state) (ip : Z) : bootp_state :=
  {| BootpID := BootpID b; BootpTry := BootpTry b; NetOurDNSIP := ip; NetOurNISDomain := NetOurNISDomain b;
     NetOurHostName := NetOurHostName b; NetOurRootPath := NetOurRootPath b; NetBootFileSize := NetBootFileSize b; env_sets := env_sets b |}.
Definition set_names (b : bootp_state) (domain host root : list Z) : bootp_state :=
  {| BootpID := BootpID b; BootpTry := BootpTry b; NetOurDNSIP := NetOurDNSIP b; NetOurNISDomain := domain;
     NetOurHostName := host; NetOurRootPath := root; NetBootFileSize := NetBootFileSize b; env_sets := env_sets b |}.
Definition set_file_size (b : bootp_state) (s : Z) : bootp_state :=
  {| BootpID := BootpID b; BootpTry := BootpTry b; NetOurDNSIP := NetOurDNSIP b; NetOurNISDomain := NetOurNISDomain b;
     NetOurHostName := NetOurHostName b; NetOurRootPath := NetOurRootPath b; NetBootFileSize := s; env_sets := env_sets b |}.
Definition setenv (b : bootp_state) (name value : list Z) : bootp_state :=
  {| BootpID := BootpID b; BootpTry := BootpTry b; NetOurDNSIP := NetOurDNSIP b; NetOurNISDomain := NetOurNISDomain b;
     NetOurHostName := NetOurHostName b; NetOurRootPath := NetOurRootPath b; NetBootFileSize := NetBootFileSize b;
     env_sets := env_sets b ++ [(name, value)] |}.

Definition set_ips (n : net) (our gateway mask server : Z) : net :=
  set_addrs n {| NetOurIP := our; NetOurGatewayIP := gateway; NetOurSubnetMask := mask; NetServerIP := server;
                 NetOurEther := NetOurEther (addrs n); NetOurVLAN := NetOurVLAN (addrs n); NetOurNativeVLAN := NetOurNativeVLAN (addrs n) |}.
Definition set_our (n : net) (ip : Z) : net := set_ips n ip (NetOurGatewayIP (addrs n)) (NetOurSubnetMask (addrs n)) (NetServerIP (addrs n)).
Definition set_gateway (n : net) (ip : Z) : net := set_ips n (NetOurIP (addrs n)) ip (NetOurSubnetMask (addrs n)) (NetServerIP (addrs n)).
Definition set_mask (n : net) (ip : Z) : net := set_ips n (NetOurIP (addrs n)) (NetOurGatewayIP (addrs n)) ip (NetServerIP (addrs n)).
Definition set_server_ip (n : net) (ip : Z) : net := set_ips n (NetOurIP (addrs n)) (NetOurGatewayIP (addrs n)) (NetOurSubnetMask (addrs n)) ip.

(** ** The reply *)

Definition BootpCheckPkt (n : net) (pkt : list Z) (dest src len : Z) : res Z :=
  if negb (dest =? PORT_BOOTPC) || negb (src =? PORT_BOOTPS) then Ok (-1)
  else if len <? Z.of_nat (BOOTP_HDR_SIZE - OPT_FIELD_SIZE) then Ok (-2)
  else
    let* op := get8 pkt bp_op in
    if bool_decide (op ∉ [OP_BOOTREQUEST; OP_BOOTREPLY; DHCP_OFFER; DHCP_ACK; DHCP_NAK]) then Ok (-3)
    else
      let* htype := get8 pkt bp_htype in
      if negb (htype =? HWT_ETHER) then Ok (-4)
      else
        let* hlen := get8 pkt bp_hlen in
        if negb (hlen =? HWL_ETHER) then Ok (-5)
        else
          let* id := NetReadIP pkt bp_id in
          Ok (if negb (id =? BootpID (bootp n)) then -6 else 0).

(** The C string at an offset of the buffer, when it ends there. *)
Definition string_at (pkt : list Z) (off : nat) : res (list Z) :=
  if bool_decide (0 ∈ drop off pkt) then Ok (c_string (drop off pkt)) else Ub.

(** The addresses and the boot file.  Setting [bootfile] runs its callback [on_bootfile], which copies the name to where it is already. *)
Definition BootpCopyNetParams (n : net) (NetRxPacket pkt : list Z) : res net :=
  let* tmp_ip := NetReadIP pkt bp_siaddr in
  let n := if negb (tmp_ip =? 0) then set_server_ip n tmp_ip else n in
  let* et_src := get_bytes NetRxPacket 6 6 in
  let n := set_server n et_src in
  let* yiaddr := NetReadIP pkt bp_yiaddr in
  let n := set_our n yiaddr in
  let* file := string_at pkt bp_file in
  let n := if bool_decide (0 < length file)%nat then set_bootfile n (copy_filename file 128) else n in
  match BootFile n with
  | [] => Ok n
  | name => Ok (set_bootfile (set_bootp n (setenv (bootp n) (cstr "bootfile") name)) (copy_filename name 128))
  end.

Definition truncate_sz (maxlen curlen : Z) : Z := if maxlen <=? curlen then maxlen - 1 else curlen.

(** A name of the vendor area, into a buffer that holds none yet. *)
Definition copy_name (buf pkt : list Z) (ext : nat) (size : Z) : res (list Z) :=
  if negb (nth 0 buf 0 =? 0) then Ok buf
  else
    let size := Z.to_nat (truncate_sz (Z.of_nat (length buf)) size) in
    let* bs := get_bytes pkt (ext + 2) size in
    put buf 0 (bs ++ [0]).

(** [ntohl] of four bytes, assigned to a [ushort]. *)
Definition BootpVendorFieldProcess (n : net) (pkt : list Z) (ext : nat) : res net :=
  let* size := get8 pkt (ext + 1) in
  let n := set_bootp n (set_file_size (bootp n) 0) in
  let b := bootp n in
  let* code := get8 pkt ext in
  if code =? 1 then
    if NetOurSubnetMask (addrs n) =? 0 then let* ip := NetReadIP pkt (ext + 2) in Ok (set_mask n ip) else Ok n
  else if code =? 3 then
    if NetOurGatewayIP (addrs n) =? 0 then let* ip := NetReadIP pkt (ext + 2) in Ok (set_gateway n ip) else Ok n
  else if code =? 6 then
    if NetOurDNSIP b =? 0 then let* ip := NetReadIP pkt (ext + 2) in Ok (set_bootp n (set_dns b ip)) else Ok n
  else if code =? 12 then
    let* host := copy_name (NetOurHostName b) pkt ext size in
    Ok (set_bootp n (set_names b (NetOurNISDomain b) host (NetOurRootPath b)))
  else if code =? 13 then
    if size =? 2 then let* s := get16 pkt (ext + 2) in Ok (set_bootp n (set_file_size b s))
    else if size =? 4 then
      let* h := get16 pkt (ext + 2) in let* l := get16 pkt (ext + 4) in Ok (set_bootp n (set_file_size b (u16 (65536 * h + l))))
    else Ok n
  else if code =? 17 then
    let* root := copy_name (NetOurRootPath b) pkt ext size in
    Ok (set_bootp n (set_names b (NetOurNISDomain b) (NetOurHostName b) root))
  else if code =? 40 then
    let* domain := copy_name (NetOurNISDomain b) pkt ext size in
    Ok (set_bootp n (set_names b domain (NetOurHostName b) (NetOurRootPath b)))
  else Ok n.

(** The loop moves on by a byte at least, so there are not more iterations than bytes before [end_]. *)
Fixpoint vendor_loop (fuel : nat) (n : net) (pkt : list Z) (ext end_ : Z) : res net :=
  match fuel with
  | O => Ok n
  | S fuel =>
    if negb (ext <? end_) then Ok n
    else
      let* c := get8 pkt (Z.to_nat ext) in
      if c =? 0xff then Ok n
      else if c =? 0 then vendor_loop fuel n pkt (ext + 1) end_
      else
        let* l := get8 pkt (Z.to_nat ext + 1) in
        let next := ext + (l + 2) in
        let* n := if next <=? end_ then BootpVendorFieldProcess n pkt (Z.to_nat ext) else Ok n in
        vendor_loop fuel n pkt next end_
  end.
Definition BootpVendorProcess (n : net) (pkt : list Z) (ext : nat) (size : Z) : res net :=
  vendor_loop (Z.to_nat size) n pkt (Z.of_nat ext) (Z.of_nat ext + size).

Section Bootp.
(** The environment, whether a device starts, and the client for NFS. *)
Context (getenv : list Z -> option (list Z)) (dev_init : nat -> bool) (NfsStart : net -> res net).

(** ** Loading *)

(** [TftpStart] on the state of the network code. *)
Definition start_tftp (n : net) : res net :=
  run_client getenv dev_init n
    (TftpStart (getenv (cstr "tftpblocksize")) (getenv (cstr "tftptimeout")) (NetServerIP (addrs n)) (NetOurIP (addrs n))
       (BootFile n) Tftp.TIMEOUT_COUNT (clock n)).

Definition getenv_yesno (var : list Z) : Z :=
  match getenv var with None => -1 | Some s => if bool_decide (nth 0 s 0 ∈ cstr "1yYtT") then 1 else 0 end.

Definition net_auto_load (n : net) : res net :=
  if bool_decide (getenv (cstr "autoload") = Some (cstr "NFS")) then NfsStart n
  else if getenv_yesno (cstr "autoload") =? 0 then Ok (net_set_state n NETLOOP_SUCCESS)
  else start_tftp n.

Definition BootpHandler (n : net) (NetRxPacket pkt : list Z) (dest src len : Z) : res net :=
  let* r := BootpCheckPkt n pkt dest src len in
  if negb (r =? 0) then Ok n
  else
    let* n := BootpCopyNetParams n NetRxPacket pkt in
    let* magic := NetReadIP pkt bp_vend in
    let* n := if magic =? swab32 BOOTP_VENDOR_MAGIC then BootpVendorProcess n pkt (bp_vend + 4) (s32 len) else Ok n in
    net_auto_load (NetSetTimeout n 0 time_BootpTimeout).

(** ** The request *)

Definition BootpExtended : list Z := [99; 130; 83; 99; 255].

(** The transaction, as the machine holds it. *)
Definition new_id (ether : list Z) (now : Z) : res Z :=
  let* e2 := get8 ether 2 in let* e3 := get8 ether 3 in let* e4 := get8 ether 4 in let* e5 := get8 ether 5 in
  Ok (swab32 (u32 (((e2 .<< 24) .| (e3 .<< 16) .| (e4 .<< 8) .| e5) + now))).

Definition BootpRequest (n : net) : res net :=
  if decide (BootpTry (bootp n) = 2 ^ 31 - 1) then Ub else
  let n := set_bootp n (set_boot_try (bootp n) (BootpTry (bootp n) + 1)) in
  let* pkt := put (NetTxPacket n) 0 (replicate PKTSIZE 0) in
  let* (pkt, eth_hdr_size) := NetSetEther (NetOurVLAN (addrs n)) (NetOurEther (addrs n)) pkt NetBcastAddr PROT_IP in
  let iphdr := eth_hdr_size in
  let bp := (eth_hdr_size + IP_UDP_HDR_SIZE)%nat in
  let* pkt := put pkt (bp + bp_op) [OP_BOOTREQUEST] in
  let* pkt := put pkt (bp + bp_htype) [HWT_ETHER] in
  let* pkt := put pkt (bp + bp_hlen) [HWL_ETHER] in
  let* pkt := put pkt (bp + bp_hops) [0] in
  let* pkt := put pkt (bp + bp_secs) (be16 (clock n / 1000)) in
  let* pkt := NetWriteIP pkt (bp + bp_ciaddr) 0 in
  let* pkt := NetWriteIP pkt (bp + bp_yiaddr) 0 in
  let* pkt := NetWriteIP pkt (bp + bp_siaddr) 0 in
  let* pkt := NetWriteIP pkt (bp + bp_giaddr) 0 in
  let* pkt := put pkt (bp + bp_chaddr) (take 6 (NetOurEther (addrs n))) in
  let* pkt := put pkt (bp + bp_file) (copy_filename (BootFile n) 128 ++ [0]) in
  let* pkt := put pkt (bp + bp_vend) BootpExtended in
  let extlen := length BootpExtended in
  let* id := new_id (NetOurEther (addrs n)) (clock n) in
  let n := set_bootp n (set_id (bootp n) id) in
  let* pkt := NetWriteIP pkt (bp + bp_id) id in
  let iplen := (BOOTP_HDR_SIZE - OPT_FIELD_SIZE + extlen)%nat in
  let pktlen := (eth_hdr_size + IP_UDP_HDR_SIZE + iplen)%nat in
  let* pkt := net_set_udp_header (NetIPID n) (NetOurIP (addrs n)) pkt iphdr 0xFFFFFFFF PORT_BOOTPS PORT_BOOTPC iplen in
  let n := set_tx n (u32 (NetIPID n + 1)) pkt in
  let n := NetSetTimeout n SELECT_TIMEOUT time_BootpTimeout in
  let n := net_set_udp_handler n (Some udp_BootpHandler) in
  NetSendPacket n (NetTxPacket n) pktlen.

Definition BootpTimeout (n : net) : res net :=
  if TIMEOUT_COUNT <=? BootpTry (bootp n) then NetStartAgain getenv dev_init n
  else BootpRequest (NetSetTimeout n TIMEOUT time_BootpTimeout).
End Bootp.
