(* ===== verification/Netloop.v ===== *)
(** * Receiving packets and the network loop ([net/net.c], [common/cmd_net.c])

    From a frame to the handler of UDP packets, the start of a protocol, the loop that drives it, and the commands
    [tftpboot], [bootp] and [nfs] around it.  The NFS client is an argument. *)
From S2P Require Import Prelude Ctype Vsprintf Ram NetPkt Tftp Net Bootp.

Section Loop.
(** The environment, whether a device starts, the client for NFS, and the address of a device. *)
Context (getenv : list Z -> option (list Z)) (dev_init : nat -> bool) (NfsStart : net -> res net) (enetaddr : nat -> list Z).

(** ** Receiving *)

(** The handler of UDP packets. *)
Definition udp_input (n : net) (NetRxPacket pkt : list Z) (dport sip sport len : Z) : res net :=
  match udp_packet_handler n with
  | dummy_handler => Ok n
  | udp_TftpHandler => run_client getenv dev_init n (fun t => TftpHandler t pkt dport sport len)
  | udp_BootpHandler => BootpHandler getenv dev_init NfsStart n NetRxPacket pkt dport sport len
  end.

(** The IP packet at an offset of the frame.  The first comparison of the length is one of unsigned numbers. *)
Definition receive_ip (n : net) (inpkt : list Z) (ip : nat) (len : Z) : res net :=
  if u32 len <? Z.of_nat IP_UDP_HDR_SIZE then Ok n else
  let* ip_len := get16 inpkt (ip + 2) in
  if len <? ip_len then Ok n else
  let* ip_hl_v := get8 inpkt ip in
  if negb (ip_hl_v .& 0xf0 =? 0x40) then Ok n else
  if 0x05 <? ip_hl_v .& 0x0f then Ok n else
  let* cksum := NetCksumOk (drop ip inpkt) (IP_HDR_SIZE / 2) in
  if negb cksum then Ok n else
  let* dst_ip := NetReadIP inpkt (ip + 16) in
  if negb (NetOurIP (addrs n) =? 0) && negb (dst_ip =? NetOurIP (addrs n)) && negb (dst_ip =? 0xFFFFFFFF) then Ok n else
  let* src_ip := NetReadIP inpkt (ip + 12) in
  let* ip_off := get16 inpkt (ip + 6) in
  if negb (ip_off .& (IP_OFFS .| IP_FLAGS_MFRAG) =? 0) then Ok n else
  let* ip_p := get8 inpkt (ip + 9) in
  if negb (ip_p =? IPPROTO_UDP) then Ok n else
  let* udp_dst := get16 inpkt (ip + 22) in
  let* udp_src := get16 inpkt (ip + 20) in
  let* udp_len := get16 inpkt (ip + 24) in
  udp_input n inpkt (drop (ip + IP_UDP_HDR_SIZE) inpkt) udp_dst src_ip udp_src (u32 (udp_len - Z.of_nat UDP_HDR_SIZE)).

Definition NetReceive (n : net) (inpkt : list Z) (len : Z) : res net :=
  if u32 len <? Z.of_nat ETHER_HDR_SIZE then Ok n else
  let myvlanid := vlan_of (NetOurVLAN (addrs n)) in
  let mynvlanid := vlan_of (NetOurNativeVLAN (addrs n)) in
  let* eth_proto := get16 inpkt 12 in
  let* hdr :=
    if eth_proto <? 1514 then
      let* p := get16 inpkt 20 in Ok (Some (p, E802_HDR_SIZE, VLAN_NONE))
    else if negb (eth_proto =? PROT_VLAN) then Ok (Some (eth_proto, ETHER_HDR_SIZE, VLAN_NONE))
    else if u32 len <? Z.of_nat VLAN_ETHER_HDR_SIZE then Ok None
    else if swab16 (NetOurVLAN (addrs n)) .& VLAN_IDMASK =? VLAN_NONE then Ok None
    else
      let* cti := get16 inpkt 14 in
      let* p := get16 inpkt 16 in
      Ok (Some (p, VLAN_ETHER_HDR_SIZE, cti .& VLAN_IDMASK)) in
  match hdr with
  | None => Ok n
  | Some (eth_proto, ip, vlanid) =>
    let len := len - Z.of_nat ip in
    let vlanid := if vlanid =? VLAN_NONE then mynvlanid .& VLAN_IDMASK else vlanid in
    if negb (myvlanid .& VLAN_IDMASK =? VLAN_NONE) && negb (vlanid =? myvlanid .& VLAN_IDMASK) then Ok n
    else if eth_proto =? PROT_ARP then ArpReceive n inpkt ip len
    else if eth_proto =? PROT_IP then receive_ip n inpkt ip len
    else Ok n
  end.

(** ** The loop *)

Definition NetInitLoop (n : net) (env_changed : bool) : net :=
  let a := addrs n in
  let ip v := string_to_ip (getenv (cstr v)) in
  let ether := if decide (eth_devices (eth n) = O) then NetOurEther a else enetaddr (eth_current (eth n)) in
  if env_changed then
    set_addrs n {| NetOurIP := ip "ipaddr"%string; NetOurGatewayIP := ip "gatewayip"%string; NetOurSubnetMask := ip "netmask"%string;
                   NetServerIP := ip "serverip"%string; NetOurEther := ether; NetOurVLAN := string_to_VLAN (getenv (cstr "vlan"));
                   NetOurNativeVLAN := string_to_VLAN (getenv (cstr "nvlan")) |}
  else
    set_addrs n {| NetOurIP := NetOurIP a; NetOurGatewayIP := NetOurGatewayIP a; NetOurSubnetMask := NetOurSubnetMask a;
                   NetServerIP := NetServerIP a; NetOurEther := ether; NetOurVLAN := NetOurVLAN a; NetOurNativeVLAN := NetOurNativeVLAN a |}.

Definition net_check_prereq (n : net) (protocol : proto_t) : res (net * Z) :=
  let server := bool_decide (In protocol [NFS; TFTPGET; TFTPPUT]) in
  let ours := server || bool_decide (In protocol [NETCONS; TFTPSRV]) in
  let ether := ours || bool_decide (In protocol [BOOTP; CDP; DHCP; LINKLOCAL]) in
  if server && (NetServerIP (addrs n) =? 0) then Ok (n, 1)
  else if ours && (NetOurIP (addrs n) =? 0) then Ok (n, 1)
  else if ether && bool_decide (NetOurEther (addrs n) = NetEtherNullAddr) then
    if decide (eth_devices (eth n) = O) then Ok (n, 1)
    else let* n := NetStartAgain getenv dev_init n in Ok (n, 2)
  else Ok (n, 0).

(** What starts a protocol; those that are not configured start nothing. *)
Definition start_protocol (n : net) (protocol : proto_t) : res net :=
  match protocol with
  | TFTPGET => start_tftp getenv dev_init n
  | BOOTP => BootpRequest (set_our (set_bootp n (set_boot_try (bootp n) 0)) 0)
  | NFS => NfsStart n
  | _ => Ok n
  end.

(** From the label [restart] to the loop; the result when the function returns from there. *)
Definition net_restart (protocol : proto_t) (n : net) (env_changed : bool) : res (net * option Z) :=
  let n := net_set_state n NETLOOP_CONTINUE in
  let n := NetInitLoop n env_changed in
  let* (n, r) := net_check_prereq n protocol in
  if r =? 1 then Ok (eth_halt n, Some (-1))
  else if r =? 0 then
    let p := prog n in
    let n := set_prog n {| net_state := net_state p; NetRestarted := NetRestarted p; NetDevExists := true; NetTryCount := NetTryCount p;
                           NetRestartWrap := NetRestartWrap p |} in
    let n := set_client n (set_ram (client n) (ram (client n)) 0) in
    let* n := start_protocol n protocol in
    Ok (n, None)
  else Ok (n, None).

(** What happens in one turn of the loop: the frames the device delivers, each a buffer and a length, whether
    ctrl-c was pressed, and the time at the three places where it is read. *)
Record turn := { rx : list (list Z * Z); ctrlc : bool; t_rx : Z; t_arp : Z; t_time : Z; env_changed : bool }.

Fixpoint receive_all (n : net) (fs : list (list Z * Z)) : res net :=
  match fs with [] => Ok n | (buf, len) :: fs => let* n := NetReceive n buf len in receive_all n fs end.

Definition check_timeout (n : net) : res net :=
  match timeHandler (tmo n) with
  | Some x =>
    if timeDelta (tmo n) <? u32 (clock n - timeStart (tmo n)) then
      let n := set_tmo n {| timeHandler := None; timeStart := timeStart (tmo n); timeDelta := timeDelta (tmo n) |} in
      match x with
      | time_TftpTimeout => run_client getenv dev_init n TftpTimeout
      | time_BootpTimeout => BootpTimeout getenv dev_init n
      | time_startAgainTimeout => Ok (startAgainTimeout n)
      end
    else Ok n
  | None => Ok n
  end.

(** The state and the result of [NetLoop] when the loop ends; on success the variables [filesize] and [fileaddr]
    are set when anything was transferred, see [net_env]. *)
Definition net_turn (protocol : proto_t) (n : net) (i : turn) : res (net * option Z) :=
  let* n := receive_all (set_clock n (t_rx i)) (rx i) in
  if ctrlc i then
    let a := arp n in
    let n := set_arp n {| NetArpWaitPacketIP := 0; NetArpWaitReplyIP := NetArpWaitReplyIP a; NetArpWaitPacketMAC := NetArpWaitPacketMAC a;
                          NetArpWaitTxPacketSize := NetArpWaitTxPacketSize a; NetArpWaitTimerStart := NetArpWaitTimerStart a;
                          NetArpWaitTry := NetArpWaitTry a |} in
    Ok (eth_halt (net_clear_handlers n), Some (-1))
  else
    let* n := ArpTimeoutCheck getenv dev_init (set_clock n (t_arp i)) in
    let* n := check_timeout (set_clock n (t_time i)) in
    match net_state (prog n) with
    | NETLOOP_RESTART =>
      let p := prog n in
      net_restart protocol (set_prog n {| net_state := net_state p; NetRestarted := true; NetDevExists := NetDevExists p; NetTryCount := NetTryCount p;
                                 NetRestartWrap := NetRestartWrap p |}) (env_changed i)
    | NETLOOP_SUCCESS => Ok (eth_halt (net_clear_handlers n), Some (s32 (NetBootFileXferSize (client n))))
    | NETLOOP_FAIL => Ok (net_clear_handlers n, Some (-1))
    | NETLOOP_CONTINUE => Ok (n, None)
    end.

Definition net_env (n : net) : list (string * Z) :=
  if bool_decide (net_state (prog n) = NETLOOP_SUCCESS) && (0 <? NetBootFileXferSize (client n))
  then [("filesize"%string, NetBootFileXferSize (client n)); ("fileaddr"%string, load_addr (client n))] else [].

Fixpoint net_turns (protocol : proto_t) (n : net) (ins : list turn) : res (net * option Z) :=
  match ins with
  | [] => Ok (n, None)
  | i :: ins => let* (n, r) := net_turn protocol n i in match r with None => net_turns protocol n ins | Some _ => Ok (n, r) end
  end.

(** [first_call] is the static variable of [net_init]; [eth_set_current], which looks for the
    device named by [ethact], is an argument. *)
Definition NetLoop (eth_set_current : ring -> ring) (first_call env_changed0 : bool) (protocol : proto_t) (n : net) (ins : list turn) : res (net * option Z) :=
  let n := set_prog n {| net_state := net_state (prog n); NetRestarted := false; NetDevExists := false; NetTryCount := 1;
                         NetRestartWrap := NetRestartWrap (prog n) |} in
  let n := if first_call then net_clear_handlers (ArpInit n) else n in
  let n := NetInitLoop n env_changed0 in
  let n := eth_halt n in
  let n := set_eth n (eth_set_current (eth n)) in
  let* (n, ok) := eth_init getenv dev_init n in
  if negb ok then Ok (eth_halt n, Some (-1))
  else
    let* (n, r) := net_restart protocol n false in
    match r with Some _ => Ok (n, r) | None => net_turns protocol n ins end.

(** ** The commands *)

(** A variable for each address and name that is known. *)
Definition set_ip_var (name : string) (ip : Z) (n : net) : res net :=
  if ip =? 0 then Ok n
  else let* tmp := ip_to_string ip in Ok (set_bootp n (setenv (bootp n) (cstr name) tmp)).
Definition set_name_var (name : string) (buf : list Z) (n : net) : net :=
  if nth 0 buf 0 =? 0 then n else set_bootp n (setenv (bootp n) (cstr name) (c_string buf)).
Definition netboot_update_env (n : net) : res net :=
  let* n := set_ip_var "gatewayip" (NetOurGatewayIP (addrs n)) n in
  let* n := set_ip_var "netmask" (NetOurSubnetMask (addrs n)) n in
  let n := set_name_var "hostname" (NetOurHostName (bootp n)) n in
  let n := set_name_var "rootpath" (NetOurRootPath (bootp n)) n in
  let* n := set_ip_var "ipaddr" (NetOurIP (addrs n)) n in
  let* n := set_ip_var "serverip" (NetServerIP (addrs n)) n in
  let* n := set_ip_var "dnsip" (NetOurDNSIP (bootp n)) n in
  Ok (set_name_var "domain" (NetOurNISDomain (bootp n)) n).

Definition set_load_addr (n : net) (a : Z) : net :=
  let t := client n in
  set_client n {| TftpTimeoutMSecs := TftpTimeoutMSecs t; TftpTimeoutCountMax := TftpTimeoutCountMax t; TftpRemoteIP := TftpRemoteIP t;
     TftpRemotePort := TftpRemotePort t; TftpOurPort := TftpOurPort t; TftpTimeoutCount := TftpTimeoutCount t;
     TftpBlock := TftpBlock t; TftpLastBlock := TftpLastBlock t; TftpBlockWrap := TftpBlockWrap t; TftpBlockWrapOffset := TftpBlockWrapOffset t;
     TftpState := TftpState t; TftpBlkSize := TftpBlkSize t; TftpBlkSizeOption := TftpBlkSizeOption t; tftp_filename := tftp_filename t;
     load_addr := a; NetBootFileXferSize := NetBootFileXferSize t; ram := ram t; events := events t |}.

Definition CMD_RET_USAGE : Z := -1.

(** The address and the file name of the arguments, and whether their number is right. *)
Definition netboot_args (n : net) (argv : list (list Z)) : net * bool :=
  let n := match getenv (cstr "loadaddr") with Some s => set_load_addr n (fst (simple_strtoul s 16)) | None => n end in
  match argv with
  | [_] => (n, true)
  | [_; a] =>
    let '(addr, end_) := simple_strtoul a 16 in
    (match end_ with [] => set_load_addr n addr | _ => set_bootfile n (copy_filename a 128) end, true)
  | [_; a; f] => (set_bootfile (set_load_addr n (fst (simple_strtoul a 16))) (copy_filename f 128), true)
  | _ => (n, false)
  end.

(** [loop] is the loop for the protocol, [autostart] is [bootm_maybe_autostart], see [Bootm]; a run of the loop that has not ended has no result.
    Caches are not modelled. *)
Definition netboot_common (loop : net -> res (net * option Z)) (autostart : net -> res Z) (n : net) (argv : list (list Z))
  : res (net * option Z) :=
  match netboot_args n argv with
  | (n, false) => Ok (n, Some CMD_RET_USAGE)
  | (n, true) =>
    let* (n, size) := loop n in
    match size with
    | None => Ok (n, None)
    | Some size =>
      if size <? 0 then Ok (n, Some 1)
      else
        let* n := netboot_update_env n in
        if size =? 0 then Ok (n, Some 0)
        else let* rcode := autostart n in Ok (n, Some rcode)
    end
  end.
End Loop.
