(* ===== verification/NetProps.v ===== *)
(** * From wire to memory ([net/net.c], [net/arp.c], [net/tftp.c]) *)
From S2P Require Import Prelude Ctype Vsprintf VspProps Ram NetPkt NetPktProps Tftp TftpProps Net Bootp Netloop.

(** ** Headers on the wire *)

Definition ip_bytes (id ip dest : Z) (len sum : Z) : list Z :=
  [0x45; 0] ++ be16 (28 + len) ++ be16 id ++ be16 IP_FLAGS_DFRAG ++ [255; IPPROTO_UDP] ++ [sum mod 256; sum / 256] ++ le32 ip ++ le32 dest.
(** The complement of the sum of the header without it. *)
Definition ip_sum (id ip dest : Z) (len : Z) : Z :=
  match NetCksum (ip_bytes id ip dest len 0) 10 with Ok c => u16 (Z.lnot c) | _ => 0 end.
(** [len] is the length of the payload, [udp_len] the field of the UDP header. *)
Definition any_header (dst src : list Z) (id ip dest dport sport len udp_len : Z) : list Z :=
  dst ++ src ++ be16 PROT_IP ++ ip_bytes id ip dest len (ip_sum id ip dest len) ++ be16 sport ++ be16 dport ++ be16 udp_len ++ [0; 0].
Definition wire_header (dst src : list Z) (id ip dest dport sport len : Z) : list Z := any_header dst src id ip dest dport sport len (8 + len).

Lemma be16_value x : 256 * u8 (x .>> 8) + u8 x = x mod 65536.
Proof. unfold wrap. rewrite Z.shiftr_div_pow2 by lia. simpl Z.pow. Z.div_mod_to_equations. lia. Qed.
Lemma be16_bytes x : byte_list (be16 x).
Proof. repeat constructor; apply (wrap_range 8); lia. Qed.
Lemma le32_byte_list x : byte_list (le32 x).
Proof. repeat (constructor; [apply octet_of|]). constructor. Qed.

Lemma ip_bytes_ok id ip dest len sum : 0 <= sum < 65536 -> byte_list (ip_bytes id ip dest len sum).
Proof.
  intros Hs. unfold ip_bytes, byte_list. repeat (apply Forall_app; split); try apply be16_bytes; try apply le32_byte_list;
    repeat constructor; try done; Z.div_mod_to_equations; lia.
Qed.

Lemma host_sum_ip id ip dest len sum :
  host_sum 10 (ip_bytes id ip dest len sum) = host_sum 10 (ip_bytes id ip dest len 0) + sum.
Proof. unfold ip_bytes, be16, le32. cbn [app map host_sum]. pose proof (Z.div_mod sum 256 ltac:(lia)). change (0 mod 256) with 0. change (0 / 256) with 0. lia. Qed.

Lemma words_sum_app n : forall p rest acc, (2 * n <= length p)%nat -> words_sum n (p ++ rest) acc = words_sum n p acc.
Proof.
  induction n as [|n IH]; intros p rest acc Hl; [done|]. destruct p as [|l [|h p]]; [simpl in Hl; lia..|]. cbn [app words_sum].
  apply IH. simpl in Hl. lia.
Qed.

(** The header with its checksum passes the test, whatever follows it. *)
Lemma ip_sum_ok id ip dest len rest :
  NetCksumOk (ip_bytes id ip dest len (ip_sum id ip dest len) ++ rest) 10 = Ok true /\
  NetCksum (ip_bytes id ip dest len 0 ++ rest) 10 = Ok (65535 - ip_sum id ip dest len) /\ 0 <= ip_sum id ip dest len < 65536.
Proof.
  assert (forall sum, NetCksum (ip_bytes id ip dest len sum ++ rest) 10 = NetCksum (ip_bytes id ip dest len sum) 10) as Happ.
  { intros sum. unfold NetCksum. rewrite words_sum_app; [done|]. unfold ip_bytes. simpl. lia. }
  destruct (cksum_ok 10 (ip_bytes id ip dest len 0)) as (k & E & Hk); [by apply ip_bytes_ok|simpl; lia|lia|].
  set (c := host_sum 10 (ip_bytes id ip dest len 0) - 65535 * k) in *.
  assert (ip_sum id ip dest len = 65535 - c) as Es.
  { unfold ip_sum. rewrite E. unfold Z.lnot, wrap. replace (Z.pred (- c)) with (65535 - c + -1 * 65536) by lia.
    rewrite Z.mod_add by lia. apply Z.mod_small. lia. }
  assert (0 <= ip_sum id ip dest len < 65536) as Hr by lia. split; [|split; [|done]].
  - unfold NetCksumOk. rewrite Happ.
    pose proof (cksum_valid 10 (ip_bytes id ip dest len (ip_sum id ip dest len))) as H. unfold NetCksumOk in H.
    rewrite H; [|by apply ip_bytes_ok|simpl; lia|lia]. f_equal. apply bool_decide_eq_true_2. rewrite host_sum_ip, Es.
    apply Z.mod_divide; [lia|]. exists (k + 1). lia.
  - rewrite Happ, E. f_equal. lia.
Qed.

(** ** Writing the headers *)

Lemma put_ok buf off bs : (off + length bs <= length buf)%nat -> put buf off bs = Ok (list_inserts off bs buf).
Proof. intros H. unfold put, Prelude.store_block. by rewrite decide_True by done. Qed.

(** Split a list of known length into its elements. *)
Tactic Notation "explode" integer(n) hyp(l) := do n (destruct l as [|? l]; [discriminate|]); destruct l; [|discriminate].
Lemma lnot16 s : 0 <= s < 65536 -> u16 (Z.lnot (65535 - s)) = s.
Proof.
  intros Hs. unfold Z.lnot, wrap. replace (Z.pred (- (65535 - s))) with (s + -1 * 2 ^ 16) by lia. rewrite Z.mod_add by lia.
  apply Z.mod_small. lia.
Qed.

Lemma bind_ok {A B} (a : A) (f : A -> res B) : res_bind (Ok a) f = f a.
Proof. done. Qed.

Ltac step_put :=
  match goal with |- context [put ?buf ?off ?bs] =>
    let r := eval cbn [list_inserts insert list_insert be16 le32 map Nat.add] in (list_inserts off bs buf) in
    let H := fresh in
    assert (put buf off bs = Ok r) as H by (rewrite put_ok by (cbn [length app be16 le32 map]; lia); reflexivity);
    rewrite H; clear H; rewrite ?bind_ok; cbv beta
  end.

Lemma ip_header_built id pre h tl dest source : length pre = 14%nat -> length h = 28%nat ->
  exists p0, net_set_ip_header id (pre ++ h ++ tl) 14 dest source =
    Ok (pre ++ [0x45; 0] ++ be16 20 ++ be16 id ++ be16 IP_FLAGS_DFRAG ++ [255; p0] ++ [0; 0] ++ le32 source ++ le32 dest ++ drop 20 h ++ tl).
Proof.
  intros Hp Hh. explode 14 pre. explode 28 h. eexists. unfold net_set_ip_header. cbn [app]. repeat step_put. reflexivity.
Qed.

Lemma udp_header_built id ip pre h payload tl dest dport sport :
  length pre = 14%nat -> length h = 28%nat -> (0 < length tl)%nat ->
  exists tl', net_set_udp_header id ip (pre ++ h ++ payload ++ tl) 14 dest dport sport (length payload) =
    Ok (pre ++ (ip_bytes id ip dest (Z.of_nat (length payload)) (ip_sum id ip dest (Z.of_nat (length payload))) ++
       be16 sport ++ be16 dport ++ be16 (8 + Z.of_nat (length payload)) ++ [0; 0]) ++ payload ++ tl') /\ length tl' = length tl.
Proof.
  intros Hp Hh Htl. unfold net_set_udp_header.
  assert (exists tl', (if Nat.odd (length payload) then put (pre ++ h ++ payload ++ tl) (14 + IP_UDP_HDR_SIZE + length payload) [0]
                       else Ok (pre ++ h ++ payload ++ tl)) = Ok (pre ++ h ++ payload ++ tl') /\ length tl' = length tl) as (tl' & -> & Hl).
  { destruct (Nat.odd _); [|by exists tl]. exists (0 :: drop 1 tl). split; [|simpl; rewrite length_drop; lia]. unfold put.
    replace (pre ++ h ++ payload ++ tl) with ((pre ++ h ++ payload) ++ tl) by (by rewrite <- !app_assoc).
    replace (14 + IP_UDP_HDR_SIZE + length payload)%nat with (length (pre ++ h ++ payload)) by (rewrite !length_app; unfold IP_UDP_HDR_SIZE; lia).
    rewrite store_block_app by (simpl; lia). cbn [res_of_option length app]. by rewrite <- !app_assoc. }
  cbn [res_bind]. destruct (ip_header_built id pre h (payload ++ tl') dest ip Hp Hh) as (p0 & ->). cbn [res_bind].
  set (len := Z.of_nat (length payload)).
  replace (Z.of_nat (IP_UDP_HDR_SIZE + length payload)) with (28 + len) by (unfold IP_UDP_HDR_SIZE; lia).
  replace (Z.of_nat (UDP_HDR_SIZE + length payload)) with (8 + len) by (unfold UDP_HDR_SIZE; lia).
  explode 14 pre. explode 28 h. cbn [app be16 le32 map drop]. do 2 step_put.
  change (IP_HDR_SIZE / 2)%nat with 10%nat.
  match goal with |- context [NetCksum ?l 10] => destruct (ip_sum_ok id ip dest len (drop 20 l)) as (_ & E & Hs);
    assert (l = ip_bytes id ip dest len 0 ++ drop 20 l) as El by reflexivity; rewrite <- El in E; clear El; rewrite E
  end.
  rewrite bind_ok. cbv beta zeta. replace (u16 (Z.lnot (65535 - ip_sum id ip dest len))) with (ip_sum id ip dest len).
  - repeat step_put. exists tl'. split; [reflexivity|done].
  - symmetry. by apply lnot16.
Qed.

Definition no_vlan (n : net) : Prop := vlan_of (NetOurVLAN (addrs n)) .& VLAN_IDMASK = VLAN_NONE.

Lemma ether_built vlan our pre rest addr prot :
  vlan_of vlan .& VLAN_IDMASK = VLAN_NONE -> length our = 6%nat -> length addr = 6%nat -> length pre = 14%nat ->
  NetSetEther vlan our (pre ++ rest) addr prot = Ok ((addr ++ our ++ be16 prot) ++ rest, ETHER_HDR_SIZE).
Proof.
  intros Hv Ho Ha Hp. unfold NetSetEther. rewrite Hv. explode 14 pre. explode 6 our. explode 6 addr. cbn [app]. do 2 step_put.
  rewrite Z.eqb_refl. step_put. reflexivity.
Qed.

Lemma get_all (l : list Z) rest : get_bytes (l ++ rest) 0 (length l) = Ok l.
Proof. exact (get_bytes_app [] l rest). Qed.

(** The state of a machine that can send. *)
Record ready (n : net) : Prop := {
  rd_vlan : no_vlan n;
  rd_our : length (NetOurEther (addrs n)) = 6%nat;
  rd_server : length (NetServerEther n) = 6%nat;
  rd_known : NetServerEther n <> NetEtherNullAddr;
  rd_tx : length (NetTxPacket n) = PKTSIZE_ALIGN;
  rd_dev : eth_devices (eth n) <> O
}.

Definition frame_of (n : net) (dest dport sport : Z) (payload : list Z) : list Z :=
  wire_header (NetServerEther n) (NetOurEther (addrs n)) (NetIPID n) (NetOurIP (addrs n)) dest dport sport (Z.of_nat (length payload)) ++ payload.

(** The packet is complete in the transmit buffer before the address of the peer matters. *)
Lemma send_built n dest dport sport payload getenv dev_init :
  no_vlan n -> length (NetOurEther (addrs n)) = 6%nat -> length (NetServerEther n) = 6%nat -> length (NetTxPacket n) = PKTSIZE_ALIGN ->
  dest <> 0 -> dest <> 0xFFFFFFFF -> (43 + length payload <= PKTSIZE_ALIGN)%nat ->
  exists tl, length (frame_of n dest dport sport payload ++ tl) = PKTSIZE_ALIGN /\
    length (frame_of n dest dport sport payload) = (14 + IP_UDP_HDR_SIZE + length payload)%nat /\
    exec getenv dev_init n (SendUDP dest dport sport payload) =
    let n' := set_tx n (u32 (NetIPID n + 1)) (frame_of n dest dport sport payload ++ tl) in
    if bool_decide (NetServerEther n = NetEtherNullAddr) then
      ArpRequest (set_arp n' {| NetArpWaitPacketIP := dest; NetArpWaitReplyIP := NetArpWaitReplyIP (arp n); NetArpWaitPacketMAC := Some to_NetServerEther;
                                NetArpWaitTxPacketSize := 14 + IP_UDP_HDR_SIZE + length payload; NetArpWaitTimerStart := clock n; NetArpWaitTry := 1 |})
    else NetSendPacket n' (frame_of n dest dport sport payload ++ tl) (14 + IP_UDP_HDR_SIZE + length payload).
Proof.
  intros Hv Ho Hs Ht Hd0 Hd1 Hlen. assert (NetEthHdrSize (NetOurVLAN (addrs n)) = 14%nat) as Hh by (unfold NetEthHdrSize; by rewrite Hv).
  unfold exec. rewrite Hh. unfold PKTSIZE_ALIGN in *.
  assert (exists pre h tl, NetTxPacket n = (pre ++ h) ++ tl /\ length pre = 14%nat /\ length h = 28%nat) as (pre & h & tl & Etx & Hp & Hh').
  { exists (take 14 (NetTxPacket n)), (take 28 (drop 14 (NetTxPacket n))), (drop 42 (NetTxPacket n)).
    rewrite !length_take, length_drop. split; [|lia]. rewrite <- app_assoc, <- (take_drop 14 (NetTxPacket n)) at 1. f_equal.
    rewrite <- (take_drop 28 (drop 14 (NetTxPacket n))) at 1. by rewrite drop_drop. }
  pose proof (f_equal length Etx) as Hl. rewrite Ht, !length_app in Hl.
  assert (put (NetTxPacket n) (14 + IP_UDP_HDR_SIZE) payload = Ok ((pre ++ h) ++ payload ++ drop (length payload) tl)) as ->.
  { unfold put. rewrite Etx. replace (14 + IP_UDP_HDR_SIZE)%nat with (length (pre ++ h)) by (rewrite length_app; unfold IP_UDP_HDR_SIZE; lia).
    by rewrite store_block_app by lia. }
  rewrite bind_ok. unfold NetSendUDPPacket.
  rewrite (proj2 (Z.eqb_neq dest 0)), (proj2 (Z.eqb_neq dest _)) by done. cbv zeta. cbn [addrs set_tx NetTxPacket ether_at NetServerEther NetIPID].
  rewrite <- app_assoc, ether_built by done. rewrite bind_ok.
  destruct (udp_header_built (NetIPID n) (NetOurIP (addrs n)) (NetServerEther n ++ NetOurEther (addrs n) ++ be16 PROT_IP) h payload
    (drop (length payload) tl) dest dport sport) as (tl' & E & Hl'); [by rewrite !length_app, Hs, Ho|done|rewrite length_drop; lia|].
  change ETHER_HDR_SIZE with 14%nat. rewrite E, bind_ok. cbn [ether_at set_tx NetServerEther].
  assert (length (frame_of n dest dport sport payload) = 14 + IP_UDP_HDR_SIZE + length payload)%nat as Hf.
  { unfold frame_of, wire_header, any_header. rewrite !length_app, Hs, Ho. cbn. lia. }
  exists tl'. split; [rewrite length_app, Hf, Hl', length_drop; unfold IP_UDP_HDR_SIZE; lia|]. split; [done|].
  match goal with |- context [set_tx _ _ (?a ++ ?b)] => replace (a ++ b) with (frame_of n dest dport sport payload ++ tl')
    by (unfold frame_of, wire_header, any_header; rewrite <- !app_assoc; reflexivity) end.
  reflexivity.
Qed.

Lemma send_ok n dest dport sport payload getenv dev_init :
  ready n -> dest <> 0 -> dest <> 0xFFFFFFFF -> (43 + length payload <= PKTSIZE_ALIGN)%nat ->
  exists pkt, exec getenv dev_init n (SendUDP dest dport sport payload) =
      Ok (log_eth (set_tx n (u32 (NetIPID n + 1)) pkt) (EthSend (frame_of n dest dport sport payload))) /\ length pkt = PKTSIZE_ALIGN.
Proof.
  intros [] Hd0 Hd1 Hlen. destruct (send_built n dest dport sport payload getenv dev_init) as (tl & Hl & Hf & E); try done.
  rewrite E, bool_decide_eq_false_2 by done. cbv zeta. unfold NetSendPacket. rewrite <- Hf, get_all, bind_ok. eexists. split; [|exact Hl].
  unfold eth_send. rewrite decide_False by done. reflexivity.
Qed.

(** ** Reading the headers *)

Lemma read16 (l : list Z) off x : l !! off = Some (u8 (x .>> 8)) -> l !! S off = Some (u8 x) -> get16 l off = Ok (x mod 65536).
Proof. intros E1 E2. unfold get16. rewrite E1, E2. cbn [res_of_option]. rewrite !bind_ok. f_equal. apply be16_value. Qed.
Lemma read8 (l : list Z) off x : l !! off = Some x -> get8 l off = Ok x.
Proof. intros E. unfold get8. by rewrite E. Qed.
Lemma readIP (l pre rest : list Z) x n : l = pre ++ le32 x ++ rest -> length pre = n -> 0 <= x < 2 ^ 32 -> NetReadIP l n = Ok x.
Proof.
  intros -> <- Hx. unfold NetReadIP. rewrite (get_bytes_app pre (le32 x) rest : get_bytes _ _ 4 = _), bind_ok. by rewrite le32_of.
Qed.

Section Receive.
Context (getenv : list Z -> option (list Z)) (dev_init : nat -> bool) (NfsStart : net -> res net).

Lemma receive_ip_ok r pre id ip dest dport sport udp_len payload rest :
  length pre = 14%nat -> 0 <= ip < 2 ^ 32 -> 0 <= dest < 2 ^ 32 -> 0 <= dport < 65536 -> 0 <= sport < 65536 -> 0 <= udp_len < 65536 ->
  Z.of_nat (length payload) + 28 < 65536 ->
  NetOurIP (addrs r) = 0 \/ NetOurIP (addrs r) = dest \/ dest = 0xFFFFFFFF ->
  let len := Z.of_nat (length payload) in
  let inpkt := pre ++ ip_bytes id ip dest len (ip_sum id ip dest len) ++ be16 sport ++ be16 dport ++ be16 udp_len ++ [0; 0] ++ payload ++ rest in
  receive_ip getenv dev_init NfsStart r inpkt 14 (28 + len) = udp_input getenv dev_init NfsStart r inpkt (payload ++ rest) dport ip sport (u32 (udp_len - 8)).
Proof.
  intros Hp Hip Hdest Hdp Hsp Hul Hlen Hour len. cbv zeta. unfold receive_ip. assert (0 <= len < 65536 - 28) as Hl by lia.
  rewrite wrap_small by lia. rewrite (proj2 (Z.ltb_ge _ _)) by (unfold IP_UDP_HDR_SIZE; lia).
  destruct (ip_sum_ok id ip dest len (be16 sport ++ be16 dport ++ be16 udp_len ++ [0; 0] ++ payload ++ rest)) as (Hck & _ & _).
  set (sum := ip_sum id ip dest len) in *. clearbody sum.
  match goal with |- context [get16 ?p _] => set (P := p) end.
  assert (forall a b n, P = a ++ b -> length a = n -> drop n P = b) as Hdrop by (intros a b n -> <-; apply drop_app_length).
  explode 14 pre. match goal with P := ?h ++ _ |- _ => pose (hd := h) end.
  rewrite (read16 P (14 + 2) (28 + len)) by reflexivity. rewrite Z.mod_small, bind_ok, Z.ltb_irrefl by lia. 
  rewrite (read8 P 14 0x45) by reflexivity. rewrite bind_ok. change (negb (0x45 .& 0xf0 =? 0x40)) with false. change (0x05 <? 0x45 .& 0x0f) with false. cbv iota.
  erewrite Hdrop; [|reflexivity|reflexivity]. change (IP_HDR_SIZE / 2)%nat with 10%nat. rewrite Hck, bind_ok. cbn [negb]. cbv iota.
  rewrite (readIP P (hd ++ take 16 (ip_bytes id ip dest len sum))
    (be16 sport ++ be16 dport ++ be16 udp_len ++ [0; 0] ++ payload ++ rest) dest) by (reflexivity || done). rewrite bind_ok.
  assert (negb (NetOurIP (addrs r) =? 0) && negb (dest =? NetOurIP (addrs r)) && negb (dest =? 4294967295) = false) as ->.
  { destruct Hour as [->|[->| ->]]; [done|by rewrite Z.eqb_refl, andb_false_r|by rewrite Z.eqb_refl, andb_false_r]. }
  rewrite (readIP P (hd ++ take 12 (ip_bytes id ip dest len sum))
    (le32 dest ++ be16 sport ++ be16 dport ++ be16 udp_len ++ [0; 0] ++ payload ++ rest) ip) by (reflexivity || done). rewrite bind_ok.
  rewrite (read16 P (14 + 6) IP_FLAGS_DFRAG) by reflexivity. rewrite bind_ok.
  change (negb (IP_FLAGS_DFRAG mod 65536 .& (IP_OFFS .| IP_FLAGS_MFRAG) =? 0)) with false. cbv iota.
  rewrite (read8 P (14 + 9) IPPROTO_UDP) by reflexivity. rewrite bind_ok. change (negb (IPPROTO_UDP =? IPPROTO_UDP)) with false. cbv iota.
  rewrite (read16 P (14 + 22) dport), bind_ok, (read16 P (14 + 20) sport), bind_ok, (read16 P (14 + 24) udp_len), bind_ok by reflexivity.
  rewrite !Z.mod_small by lia.
  rewrite (Hdrop (hd ++ ip_bytes id ip dest len sum ++ be16 sport ++ be16 dport ++ be16 udp_len ++ [0; 0]) (payload ++ rest)) by reflexivity.
  reflexivity.
Qed.

Lemma receive_any r dst src id ip dest dport sport udp_len payload rest :
  no_vlan r -> length dst = 6%nat -> length src = 6%nat ->
  0 <= ip < 2 ^ 32 -> 0 <= dest < 2 ^ 32 -> 0 <= dport < 65536 -> 0 <= sport < 65536 -> 0 <= udp_len < 65536 ->
  Z.of_nat (length payload) + 28 < 65536 ->
  NetOurIP (addrs r) = 0 \/ NetOurIP (addrs r) = dest \/ dest = 0xFFFFFFFF ->
  let frame := any_header dst src id ip dest dport sport (Z.of_nat (length payload)) udp_len ++ payload in
  NetReceive getenv dev_init NfsStart r (frame ++ rest) (Z.of_nat (length frame)) =
  udp_input getenv dev_init NfsStart r (frame ++ rest) (payload ++ rest) dport ip sport (u32 (udp_len - 8)).
Proof.
  intros Hv Hd Hs Hip Hdest Hdp Hsp Hul Hlen Hour frame.
  assert (Z.of_nat (length frame) = 42 + Z.of_nat (length payload)) as Hf.
  { subst frame. unfold any_header. rewrite !length_app, Hd, Hs. cbn. lia. }
  rewrite Hf. unfold NetReceive. rewrite wrap_small by lia. rewrite (proj2 (Z.ltb_ge _ _)) by (unfold ETHER_HDR_SIZE; lia).
  assert (get16 (frame ++ rest) 12 = Ok PROT_IP) as ->.
  { change (Ok PROT_IP) with (Ok (PROT_IP mod 65536)). subst frame. unfold any_header. clear Hf. explode 6 dst. explode 6 src. by apply read16. }
  rewrite bind_ok. change (PROT_IP <? 1514) with false. change (negb (PROT_IP =? PROT_VLAN)) with true. cbv iota zeta. rewrite bind_ok.
  unfold no_vlan in Hv. rewrite Hv, Z.eqb_refl. cbn [negb andb]. cbv iota. change (PROT_IP =? PROT_ARP) with false. rewrite Z.eqb_refl. cbv iota.
  replace (42 + Z.of_nat (length payload) - Z.of_nat ETHER_HDR_SIZE) with (28 + Z.of_nat (length payload)) by (unfold ETHER_HDR_SIZE; lia).
  replace (frame ++ rest) with ((dst ++ src ++ be16 PROT_IP) ++ ip_bytes id ip dest (Z.of_nat (length payload))
    (ip_sum id ip dest (Z.of_nat (length payload))) ++ be16 sport ++ be16 dport ++ be16 udp_len ++ [0; 0] ++ payload ++ rest)
    by (subst frame; unfold any_header; by rewrite <- !app_assoc).
  apply receive_ip_ok; try done. by rewrite !length_app, Hd, Hs.
Qed.

Lemma receive_ok r dst src id ip dest dport sport payload rest :
  no_vlan r -> length dst = 6%nat -> length src = 6%nat ->
  0 <= ip < 2 ^ 32 -> 0 <= dest < 2 ^ 32 -> 0 <= dport < 65536 -> 0 <= sport < 65536 ->
  Z.of_nat (length payload) + 28 < 65536 ->
  NetOurIP (addrs r) = 0 \/ NetOurIP (addrs r) = dest \/ dest = 0xFFFFFFFF ->
  let frame := wire_header dst src id ip dest dport sport (Z.of_nat (length payload)) ++ payload in
  NetReceive getenv dev_init NfsStart r (frame ++ rest) (Z.of_nat (length frame)) =
  udp_input getenv dev_init NfsStart r (frame ++ rest) (payload ++ rest) dport ip sport (Z.of_nat (length payload)).
Proof.
  intros Hv Hd Hs Hip Hdest Hdp Hsp Hlen Hour. cbv zeta. unfold wire_header. rewrite receive_any by (done || lia).
  replace (8 + Z.of_nat (length payload) - 8) with (Z.of_nat (length payload)) by lia. by rewrite wrap_small by lia.
Qed.
End Receive.

(** A UDP packet that one machine sends, another receives.  The frame that [NetSendUDPPacket] hands to the
    device for a payload, when the address of the peer is known, passes every check of [NetReceive] on a
    machine with the destination address, or without one yet, whatever is in the receive buffer
    behind it; the handler there gets exactly the payload, the two ports, the address of the
    sender and the length of the payload. *)
Theorem udp_frame_received getenv dev_init getenv' dev_init' NfsStart s r dest dport sport payload rest :
  ready s -> no_vlan r -> 0 < dest < 0xFFFFFFFF -> 0 <= NetOurIP (addrs s) < 2 ^ 32 -> 0 <= dport < 65536 -> 0 <= sport < 65536 ->
  (43 + length payload <= PKTSIZE_ALIGN)%nat -> NetOurIP (addrs r) = 0 \/ NetOurIP (addrs r) = dest ->
  exists s' frame, exec getenv dev_init s (SendUDP dest dport sport payload) = Ok s' /\
    eth_log (eth s') = eth_log (eth s) ++ [EthSend frame] /\
    NetReceive getenv' dev_init' NfsStart r (frame ++ rest) (Z.of_nat (length frame)) =
    udp_input getenv' dev_init' NfsStart r (frame ++ rest) (payload ++ rest) dport (NetOurIP (addrs s)) sport (Z.of_nat (length payload)).
Proof.
  intros Hs Hr Hd Hip Hdp Hsp Hlen Hour. destruct (send_ok s dest dport sport payload getenv dev_init) as (pkt & E & _); [done|lia|lia|done|].
  eexists _, _. split; [exact E|]. split; [done|]. unfold PKTSIZE_ALIGN in Hlen. destruct Hs. apply receive_ok; try done; lia || tauto.
Qed.

(** Two machines on a network. *)
Definition machine (our server : Z) (ether : list Z) (handler : rxhand) (c : tftp) : net :=
  {| addrs := {| NetOurIP := our; NetOurGatewayIP := 0; NetOurSubnetMask := 0x00FFFFFF; NetServerIP := server;
                 NetOurEther := [2; 0; 0; 0; 0; our / 2 ^ 24]; NetOurVLAN := 0xFFFF; NetOurNativeVLAN := 0xFFFF |};
     NetServerEther := ether; NetIPID := 0; NetTxPacket := replicate PKTSIZE_ALIGN 0; BootFile := cstr "uImage";
     arp := {| NetArpWaitPacketIP := 0; NetArpWaitReplyIP := 0; NetArpWaitPacketMAC := None; NetArpWaitTxPacketSize := 0;
               NetArpWaitTimerStart := 0; NetArpWaitTry := 0 |};
     udp_packet_handler := handler; tmo := {| timeHandler := None; timeStart := 0; timeDelta := 0 |};
     prog := {| net_state := NETLOOP_CONTINUE; NetRestarted := false; NetDevExists := true; NetTryCount := 1; NetRestartWrap := false |};
     client := c;
     bootp := {| BootpID := 0; BootpTry := 0; NetOurDNSIP := 0; NetOurNISDomain := replicate 32 0; NetOurHostName := replicate 32 0;
                 NetOurRootPath := replicate 64 0; NetBootFileSize := 0; env_sets := [] |};
     eth := {| eth_devices := 1; eth_current := 0; first_failed := None; eth_log := [] |}; clock := 0 |}.

Definition board : net := machine 0x0200A8C0 0x0100A8C0 [2; 0; 0; 0; 0; 1] udp_TftpHandler (idle_client STATE_SEND_RRQ 512 0x20000000).
Definition peer : net := machine 0x0100A8C0 0 [2; 0; 0; 0; 0; 2] udp_TftpHandler (idle_client STATE_DATA 512 0).

Lemma ready_board : ready board.
Proof. by split. Qed.

Lemma udp_frame_received_witness :
  exists s' frame, exec (fun _ => None) (fun _ => true) board (SendUDP 0x0100A8C0 69 1100 (cstr "hello")) = Ok s' /\
    eth_log (eth s') = [] ++ [EthSend frame] /\
    NetReceive (fun _ => None) (fun _ => true) Ok peer (frame ++ [1; 2; 3]) (Z.of_nat (length frame)) =
    udp_input (fun _ => None) (fun _ => true) Ok peer (frame ++ [1; 2; 3]) (cstr "hello" ++ [1; 2; 3]) 69 0x0200A8C0 1100 5.
Proof.
  apply (udp_frame_received (fun _ => None) (fun _ => true) (fun _ => None) (fun _ => true) Ok board peer 0x0100A8C0 69 1100 (cstr "hello") [1; 2; 3]);
    [apply ready_board|done|lia|done|lia|lia|apply Nat.leb_le; reflexivity|by right].
Defined.

(** C36: the length field of the UDP header is trusted.  While the client waits for the first block, a frame that
    passes every check of [NetReceive] and carries a data packet, but says in its UDP header that the
    datagram is shorter than that header, makes the loader copy 4 GB from the receive buffer:
    the length handed to the handler wraps around, and the copy leaves every buffer a frame can be in. *)
Theorem udp_length_unchecked getenv dev_init NfsStart r dst src id ip dest sport udp_len c rest :
  no_vlan r -> length dst = 6%nat -> length src = 6%nat -> 0 <= ip < 2 ^ 32 -> 0 <= dest < 2 ^ 32 -> 0 <= sport < 65536 ->
  0 <= udp_len < 8 -> Z.of_nat (length c + length rest) < 2 ^ 31 -> Z.of_nat (length c) < 65000 ->
  NetOurIP (addrs r) = dest -> udp_packet_handler r = udp_TftpHandler -> TftpState (client r) = STATE_SEND_RRQ ->
  0 <= TftpOurPort (client r) < 65536 ->
  let payload := data_packet 1 c in
  let frame := any_header dst src id ip dest (TftpOurPort (client r)) sport (Z.of_nat (length payload)) udp_len ++ payload in
  NetReceive getenv dev_init NfsStart r (frame ++ rest) (Z.of_nat (length frame)) = Ub.
Proof.
  intros Hv Hd Hs Hip Hdest Hsp Hul Hlen Hc Hour Hh Hst Hport payload frame.
  assert (length payload = 4 + length c)%nat as Hp by done.
  subst frame. rewrite receive_any by (done || lia || tauto).
  unfold udp_input. rewrite Hh. unfold run_client.
  set (t := with_events (client r) []). assert (TftpHandler t (payload ++ rest) (TftpOurPort (client r)) sport (u32 (udp_len - 8)) = Ub) as ->; [|done].
  assert (u32 (udp_len - 8) = 2 ^ 32 + udp_len - 8) as ->.
  { unfold wrap. replace (udp_len - 8) with (2 ^ 32 + udp_len - 8 + -1 * 2 ^ 32) by lia. rewrite Z.mod_add by lia. apply Z.mod_small. lia. }
  unfold TftpHandler. change (TftpOurPort t) with (TftpOurPort (client r)). rewrite Z.eqb_refl. change (TftpState t) with (TftpState (client r)).
  rewrite Hst. change (negb (STATE_SEND_RRQ =? STATE_SEND_RRQ)) with false. cbn [negb andb]. cbv iota.
  rewrite (proj2 (Z.ltb_ge _ _)) by lia. subst payload. unfold data_packet. rewrite <- !app_assoc, get16_be16, bind_ok.
  change (TFTP_DATA mod 65536) with TFTP_DATA. change (TFTP_DATA =? TFTP_OACK) with false. rewrite Z.eqb_refl. cbv iota zeta.
  rewrite drop_app_length' by done. unfold handle_data. rewrite (proj2 (Z.ltb_ge _ _)) by lia. rewrite get16_be16, bind_ok.
  change (1 mod 65536) with 1. unfold update_block_number. cbn [TftpBlock set_blocks]. change (1 =? 0) with false. cbn [andb]. cbv iota zeta.
  cbn [TftpState set_blocks]. change (TftpState t) with (TftpState (client r)). rewrite Hst.
  change ((STATE_SEND_RRQ =? STATE_SEND_RRQ) || (STATE_SEND_RRQ =? STATE_OACK) || (STATE_SEND_RRQ =? STATE_RECV_WRQ)) with true.
  cbn [andb TftpBlock TftpLastBlock new_transfer set_peer set_blocks]. change (negb (1 =? 1)) with false. change (1 =? 0) with false. cbv iota.
  unfold accept_data, get_bytes. rewrite decide_False; [done|]. rewrite !length_app. cbn [length be16]. lia.
Qed.

Lemma udp_length_unchecked_witness :
  let payload := data_packet 1 (cstr "boom") in
  let frame := any_header NetBcastAddr [2; 0; 0; 0; 0; 9] 7 0x0900A8C0 0x0200A8C0 1100 4000 (Z.of_nat (length payload)) 0 ++ payload in
  NetReceive (fun _ => None) (fun _ => true) Ok board (frame ++ replicate 1400 0) (Z.of_nat (length frame)) = Ub.
Proof.
  apply (udp_length_unchecked (fun _ => None) (fun _ => true) Ok board NetBcastAddr [2; 0; 0; 0; 0; 9] 7 0x0900A8C0 0x0200A8C0 4000 0 (cstr "boom") (replicate 1400 0));
    done || lia || (rewrite ?length_replicate; cbn; lia).
Defined.

(** ** A download through the loop *)

Section Download.
Context (getenv : list Z -> option (list Z)) (dev_init : nat -> bool) (NfsStart : net -> res net) (enetaddr : nat -> list Z).
Context (protocol : proto_t).
(** The client and its addresses, and the server: its two addresses and its port. *)
Context (t0 : tftp) (our : Z) (src_ether : list Z) (ip src : Z).
Hypothesis (Hour : 0 < our < 2 ^ 32) (Hether : length src_ether = 6%nat) (Hip : 0 <= ip < 2 ^ 32) (Hsrc : 0 <= src < 65536).
Hypothesis (Hport : 0 <= TftpOurPort t0 < 65536) (Hremote : 0 < TftpRemoteIP t0 < 0xFFFFFFFF).
Hypothesis (Hmsecs : 0 < TftpTimeoutMSecs t0 < 2 ^ 32 / 1000).
Let b := TftpBlkSize t0.
Hypothesis (Hb : 0 < b <= 1400) (Haddr : 0 <= load_addr t0).

(** A turn of the loop in which the device delivers a frame from the server with a given packet. *)
Definition delivers (p : list Z) (i : turn) : Prop :=
  ctrlc i = false /\ exists dst id rest, length dst = 6%nat /\
    let frame := wire_header dst src_ether id ip our (TftpOurPort t0) src (Z.of_nat (length p)) ++ p in
    rx i = [(frame ++ rest, Z.of_nat (length frame))].

(** The time between a block and the end of a turn. *)
Definition in_time (start : Z) (i : turn) : Prop := u32 (t_time i - start) <= TftpTimeoutMSecs t0.

(** The network side of a download. *)
Record listening (n : net) : Prop := {
  ls_ready : ready n;
  ls_our : NetOurIP (addrs n) = our;
  ls_handler : udp_packet_handler n = udp_TftpHandler;
  ls_arp : NetArpWaitPacketIP (arp n) = 0;
  ls_state : net_state (prog n) = NETLOOP_CONTINUE
}.
Record downloading (n : net) (k : Z) (data : list Z) (start : Z) : Prop := {
  dl_listening : listening n;
  dl_client : transfer t0 (client n) src b k data [];
  dl_timer : tmo n = {| timeHandler := Some time_TftpTimeout; timeStart := start; timeDelta := TftpTimeoutMSecs t0 |}
}.

Lemma delta_ok : u32 (TftpTimeoutMSecs t0 * CONFIG_SYS_HZ) / 1000 = TftpTimeoutMSecs t0.
Proof. unfold CONFIG_SYS_HZ. assert (2 ^ 32 / 1000 = 4294967) as E by reflexivity. rewrite E in Hmsecs. rewrite wrap_small by lia. apply Z.div_mul. lia. Qed.

Lemma receive_turn n p i : listening n -> delivers p i -> Z.of_nat (length p) < 60000 ->
  exists rest, receive_all getenv dev_init NfsStart (set_clock n (t_rx i)) (rx i) =
    run_client getenv dev_init (set_clock n (t_rx i)) (fun t => TftpHandler t (p ++ rest) (TftpOurPort t0) src (Z.of_nat (length p))).
Proof.
  intros [[] Ho Hh Ha Hs] (_ & dst & id & rest & Hd & Hrx) Hl. exists rest. cbv zeta in Hrx. rewrite Hrx. cbn [receive_all].
  rewrite receive_ok; try done; try lia; [|right; left; done]. unfold udp_input. cbn [udp_packet_handler set_clock]. rewrite Hh.
  by destruct (run_client _ _ _ _).
Qed.

Lemma ready_same n n' : ready n -> addrs n' = addrs n -> NetServerEther n' = NetServerEther n -> length (NetTxPacket n') = PKTSIZE_ALIGN ->
  eth_devices (eth n') = eth_devices (eth n) -> ready n'.
Proof. intros [] Ha Hs Ht He. split; unfold no_vlan; rewrite ?Ha, ?Hs, ?He; done. Qed.

(** What the answer to a block does: the timer starts again and the acknowledgement is sent. *)
Lemma answer_ok n k : ready n ->
  exists n', (forall fin, exec_all getenv dev_init n (answer t0 src k ++ fin) = exec_all getenv dev_init n' fin) /\
    ready n' /\ addrs n' = addrs n /\ udp_packet_handler n' = udp_packet_handler n /\ arp n' = arp n /\ prog n' = prog n /\ client n' = client n /\
    clock n' = clock n /\ tmo n' = {| timeHandler := Some time_TftpTimeout; timeStart := clock n; timeDelta := TftpTimeoutMSecs t0 |}.
Proof.
  intros Hr. set (n1 := NetSetTimeout n (TftpTimeoutMSecs t0) time_TftpTimeout).
  assert (n1 = set_tmo n {| timeHandler := Some time_TftpTimeout; timeStart := clock n; timeDelta := TftpTimeoutMSecs t0 |}) as E1.
  { subst n1. unfold NetSetTimeout. rewrite (proj2 (Z.eqb_neq _ _)) by lia. by rewrite delta_ok. }
  assert (ready n1) as Hr1 by (rewrite E1; apply (ready_same n); try done; apply Hr).
  destruct (send_ok n1 (TftpRemoteIP t0) src (TftpOurPort t0) (be16 TFTP_ACK ++ be16 k) getenv dev_init Hr1) as (pkt & E & Hl);
    [lia|lia|apply Nat.leb_le; reflexivity|].
  eexists. split.
  - intros fin. unfold answer. cbn [app exec_all]. change (exec getenv dev_init n (SetTimeout (TftpTimeoutMSecs t0))) with (Ok n1). rewrite bind_ok.
    rewrite E, bind_ok. reflexivity.
  - rewrite E1. split; [|done]. by apply (ready_same n).
Qed.

(** The end of a turn in which no timeout is due. *)
Lemma turn_end n i n' :
  receive_all getenv dev_init NfsStart (set_clock n (t_rx i)) (rx i) = Ok n' -> ctrlc i = false -> NetArpWaitPacketIP (arp n') = 0 ->
  tmo n' = {| timeHandler := Some time_TftpTimeout; timeStart := timeStart (tmo n'); timeDelta := TftpTimeoutMSecs t0 |} ->
  in_time (timeStart (tmo n')) i ->
  net_turn getenv dev_init NfsStart enetaddr protocol n i =
    let n := set_clock (set_clock n' (t_arp i)) (t_time i) in
    match net_state (prog n) with
    | NETLOOP_RESTART =>
      let p := prog n in
      net_restart getenv dev_init NfsStart enetaddr protocol (set_prog n {| net_state := net_state p; NetRestarted := true; NetDevExists := NetDevExists p;
        NetTryCount := NetTryCount p; NetRestartWrap := NetRestartWrap p |}) (env_changed i)
    | NETLOOP_SUCCESS => Ok (eth_halt (net_clear_handlers n), Some (s32 (NetBootFileXferSize (client n))))
    | NETLOOP_FAIL => Ok (net_clear_handlers n, Some (-1))
    | NETLOOP_CONTINUE => Ok (n, None)
    end.
Proof.
  intros E Hc Ha Ht Hin. unfold net_turn. rewrite E, bind_ok, Hc. unfold ArpTimeoutCheck. cbn [arp set_clock]. rewrite Ha, Z.eqb_refl, bind_ok.
  unfold check_timeout. cbn [tmo set_clock clock]. rewrite Ht. cbn [timeHandler timeDelta timeStart]. unfold in_time in Hin.
  rewrite (proj2 (Z.ltb_ge _ _)) by done. by rewrite bind_ok.
Qed.

Hypothesis (Hevents : events t0 = []).

Lemma transfer_clear t k data evs : transfer t0 t src b k data evs -> transfer t0 (with_events t []) src b k data [].
Proof. intros []. split; try done. by rewrite Hevents. Qed.

Definition downloaded (n : net) (data : list Z) : Prop :=
  net_state (prog n) = NETLOOP_SUCCESS /\ (forall x, ram (client n) x = copy_to (ram t0) (load_addr t0) data x) /\
  NetBootFileXferSize (client n) = Z.of_nat (length data) /\ load_addr (client n) = load_addr t0.

(** A block the client takes: the loop goes on, or ends when the block is short. *)
Lemma block_turn n i k data c :
  listening n -> delivers (data_packet (k + 1) c) i -> in_time (t_rx i) i -> Z.of_nat (length c) <= b ->
  (forall rest, exists t', TftpHandler (with_events (client n) []) (data_packet (k + 1) c ++ rest) (TftpOurPort t0) src
      (Z.of_nat (length (data_packet (k + 1) c))) = Ok t' /\
    transfer t0 t' src b (k + 1) (data ++ c) (answer t0 src (k + 1) ++ if Z.of_nat (length c) <? b then [SetState NETLOOP_SUCCESS] else [])) ->
  exists n' r, net_turn getenv dev_init NfsStart enetaddr protocol n i = Ok (n', r) /\
    if Z.of_nat (length c) <? b then r = Some (s32 (Z.of_nat (length (data ++ c)))) /\ downloaded n' (data ++ c)
    else r = None /\ downloading n' (k + 1) (data ++ c) (t_rx i).
Proof.
  intros Hls Hdel Hin Hc Hhandler. destruct (receive_turn n _ i Hls Hdel) as (rest & Erx); [unfold data_packet; rewrite !length_app; simpl; lia|].
  destruct (Hhandler rest) as (t' & Et & Htr). unfold run_client in Erx. cbn [client set_clock] in Erx. rewrite Et, bind_ok in Erx.
  rewrite (tr_events _ _ _ _ _ _ _ Htr), Hevents, app_nil_l in Erx. apply transfer_clear in Htr.
  set (m := set_client (set_clock n (t_rx i)) (with_events t' [])) in *. destruct Hls as [Hr Ho Hh Ha Hs].
  destruct (answer_ok m (k + 1)) as (n1 & Eall & Hr1 & Ha1 & Hh1 & Harp1 & Hp1 & Hc1 & Hclk & Ht1); [by apply (ready_same n); try apply Hr|].
  rewrite Eall in Erx. destruct Hdel as [Hctrl _]. destruct (Z.ltb_spec (Z.of_nat (length c)) b); cbn [exec_all exec] in Erx; rewrite ?bind_ok in Erx.
  - rewrite (turn_end n i _ Erx); [|done|by cbn; rewrite Harp1|by cbn; rewrite Ht1|by cbn; rewrite Ht1].
    cbv zeta. cbn [net_state prog net_set_state set_prog set_clock client]. eexists _, _. split; [reflexivity|]. rewrite Hc1. cbn [client set_client m].
    rewrite (tr_size _ _ _ _ _ _ _ Htr). split; [done|]. destruct Htr as [_ _ _ _ _ _ _ _ Hla Hsz Hram _].
    unfold downloaded, eth_halt. destruct (decide _); cbn; rewrite Hc1; done.
  - rewrite (turn_end n i _ Erx); [|done|by rewrite Harp1|by rewrite Ht1|by rewrite Ht1].
    cbv zeta. cbn [net_state prog set_clock]. rewrite Hp1. cbn [prog set_client set_clock m]. rewrite Hs. eexists _, _. split; [reflexivity|].
    split; [done|]. split; cbn; [|by rewrite Hc1|done].
    split; cbn; [by apply (ready_same n1); try apply Hr1|by rewrite Ha1|by rewrite Hh1|by rewrite Harp1|by rewrite Hp1].
Qed.

(** The block received last, again. *)
Lemma again_turn n i k data start c :
  downloading n k data start -> delivers (data_packet k c) i -> in_time start i -> Z.of_nat (length c) <= b ->
  exists n', net_turn getenv dev_init NfsStart enetaddr protocol n i = Ok (n', None) /\ downloading n' k data start.
Proof.
  intros [Hls Htr Ht] Hdel Hin Hc. destruct (receive_turn n _ i Hls Hdel) as (rest & Erx); [unfold data_packet; rewrite !length_app; simpl; lia|].
  apply transfer_clear in Htr. destruct (same_block t0 _ src b k data [] c rest Htr) as (t' & Et & Htr'). rewrite (tr_our _ _ _ _ _ _ _ Htr) in Et.
  unfold run_client in Erx. cbn [client set_clock] in Erx. rewrite Et, bind_ok, (tr_events _ _ _ _ _ _ _ Htr'), Hevents in Erx. cbn [app exec_all] in Erx.
  apply transfer_clear in Htr'. destruct Hls as [Hr Ho Hh Ha Hs]. destruct Hdel as [Hctrl _].
  rewrite (turn_end n i _ Erx); [|done|done|by cbn; rewrite Ht|by cbn; rewrite Ht]. cbv zeta. cbn [net_state prog set_clock set_client]. rewrite Hs.
  eexists. split; [reflexivity|]. split; cbn; try done. split; cbn; try done. by apply (ready_same n); try apply Hr.
Qed.

(** A block, the turn of the loop that brings it, and the turns that bring it again. *)
Record arrival := { chunk : list Z; fresh : turn; again : list turn }.

(** The blocks of a file from number [k] on, each in time. *)
Fixpoint arrives (k : Z) (l : list arrival) : Prop :=
  match l with
  | [] => False
  | a :: l' =>
    delivers (data_packet k (chunk a)) (fresh a) /\ in_time (t_rx (fresh a)) (fresh a) /\
    match l' with
    | [] => Z.of_nat (length (chunk a)) < b /\ again a = []
    | _ => Z.of_nat (length (chunk a)) = b /\
           Forall (fun i => delivers (data_packet k (chunk a)) i /\ in_time (t_rx (fresh a)) i) (again a) /\ arrives (k + 1) l'
    end
  end.
Definition turns_of (l : list arrival) : list turn := concat (map (fun a => fresh a :: again a) l).
Definition file_of (l : list arrival) : list Z := concat (map chunk l).

Lemma again_turns n k data start c ins tail :
  downloading n k data start -> Forall (fun i => delivers (data_packet k c) i /\ in_time start i) ins -> Z.of_nat (length c) <= b ->
  exists n', net_turns getenv dev_init NfsStart enetaddr protocol n (ins ++ tail) = net_turns getenv dev_init NfsStart enetaddr protocol n' tail /\ downloading n' k data start.
Proof.
  intros Hd Hins Hc. revert n Hd. induction Hins as [|i ins [Hdel Hin] _ IH]; intros n Hd; [by exists n|].
  destruct (again_turn n i k data start c Hd Hdel Hin Hc) as (n1 & E & Hd1). cbn [app net_turns]. rewrite E, bind_ok. by apply IH.
Qed.

(** What a block does, in terms of the loop. *)
Definition block_result (n n' : net) (r : option Z) (k : Z) (data c : list Z) (i : turn) : Prop :=
  net_turn getenv dev_init NfsStart enetaddr protocol n i = Ok (n', r) /\
  if Z.of_nat (length c) <? b then r = Some (s32 (Z.of_nat (length (data ++ c)))) /\ downloaded n' (data ++ c)
  else r = None /\ downloading n' (k + 1) (data ++ c) (t_rx i).

Lemma arrivals_ok l : forall n k data,
  arrives (k + 1) l -> 0 <= k -> Z.of_nat (length data) = k * b -> load_addr t0 + k * b + Z.of_nat (length (file_of l)) < 2 ^ 32 ->
  (forall i c, delivers (data_packet (k + 1) c) i -> in_time (t_rx i) i -> Z.of_nat (length c) <= b ->
     load_addr t0 + k * b + Z.of_nat (length c) < 2 ^ 32 -> exists n' r, block_result n n' r k data c i) ->
  exists n', net_turns getenv dev_init NfsStart enetaddr protocol n (turns_of l) = Ok (n', Some (s32 (Z.of_nat (length (data ++ file_of l))))) /\
    downloaded n' (data ++ file_of l).
Proof.
  induction l as [|a l IH]; intros n k data Harr Hk Hd Hlt Hnext; [done|].
  destruct Harr as (Hdel & Hin & Harr). unfold file_of, turns_of in *. cbn [map concat] in *. rewrite length_app in Hlt.
  assert (Z.of_nat (length (chunk a)) <= b) as Hc by (destruct l; lia).
  destruct (Hnext (fresh a) (chunk a)) as (n1 & r & E & Hres); try done; [lia|]. cbn [app net_turns]. rewrite E, bind_ok.
  destruct l as [|a2 l].
  - destruct Harr as [Hs _]. rewrite (proj2 (Z.ltb_lt _ _)) in Hres by done. destruct Hres as [-> Hdl]. cbn [map concat]. rewrite app_nil_r. by exists n1.
  - destruct Harr as (Hfull & Hag & Harr). rewrite (proj2 (Z.ltb_ge _ _)) in Hres by lia. destruct Hres as [-> Hdl].
    destruct (again_turns n1 (k + 1) (data ++ chunk a) (t_rx (fresh a)) (chunk a) (again a)
      (concat (map (fun a => fresh a :: again a) (a2 :: l))) Hdl Hag Hc) as (n2 & -> & Hd2).
    rewrite app_assoc. apply (IH n2 (k + 1)); [done|lia|rewrite length_app; lia|lia|]. intros i c Hdel' Hin' Hc' Hlt'.
    unfold block_result. destruct (block_turn n2 i (k + 1) (data ++ chunk a) c) as (n3 & r & E3 & Hr3); try done; [apply Hd2| |by exists n3, r].
    intros rest. destruct Hd2 as [_ Htr _]. apply transfer_clear in Htr. rewrite <- (tr_our _ _ _ _ _ _ _ Htr).
    destruct (following_block t0 _ src b (k + 1) (data ++ chunk a) [] c rest Htr) as (t' & Et & Htr'); try done; try lia; [rewrite length_app; lia|].
    by exists t'.
Qed.
End Download.

(** C6: a download through the whole network loop.  The board has sent its request and knows the Ethernet address of
    its peer.  In every turn of the loop the device delivers a frame from the server: the blocks of the file
    in order, the last one short, each perhaps again before the next, and no later than the timeout
    after the block before.  Then, through frame checks, IP header, UDP dispatch, TFTP handler,
    acknowledgements and timers, the loop ends; it returns the length of the file, memory from the load
    address on is the file and unchanged elsewhere, and the transfer size, from which [filesize] is
    set, is the length. *)
Theorem loop_downloads_file getenv dev_init NfsStart enetaddr protocol n our src_ether ip src l :
  let t0 := client n in
  listening our n -> waiting t0 -> (TftpState t0 = STATE_OACK -> TftpRemotePort t0 = src) -> events t0 = [] ->
  0 < our < 2 ^ 32 -> length src_ether = 6%nat -> 0 <= ip < 2 ^ 32 -> 0 <= src < 65536 -> 0 <= TftpOurPort t0 < 65536 ->
  0 < TftpRemoteIP t0 < 0xFFFFFFFF -> 0 < TftpTimeoutMSecs t0 < 2 ^ 32 / 1000 -> 0 < TftpBlkSize t0 <= 1400 -> 0 <= load_addr t0 ->
  arrives t0 our src_ether ip src 1 l -> Z.of_nat (length (file_of l)) < 2 ^ 31 -> load_addr t0 + Z.of_nat (length (file_of l)) < 2 ^ 32 ->
  exists n', net_turns getenv dev_init NfsStart enetaddr protocol n (turns_of l) = Ok (n', Some (Z.of_nat (length (file_of l)))) /\
    (forall x, ram (client n') x = copy_to (ram t0) (load_addr t0) (file_of l) x) /\
    net_env n' = if 0 <? Z.of_nat (length (file_of l))
                 then [("filesize"%string, Z.of_nat (length (file_of l))); ("fileaddr"%string, load_addr t0)] else [].
Proof.
  intros t0 Hls Hw Hoack Hev Hour Hse Hip Hsrc Hport Hremote Hms Hb Haddr Harr Hsmall Hlt.
  destruct (arrivals_ok getenv dev_init NfsStart enetaddr protocol t0 our src_ether ip src Hour Hse Hip Hsrc Hport Hremote Hms Hb Haddr Hev l n 0 [])
    as (n' & E & Hst & Hram & Hsize & Hla); try done; [lia| |].
  - intros i c Hdel Hin Hc Hlt'. unfold block_result.
    destruct (block_turn getenv dev_init NfsStart enetaddr protocol t0 our src_ether ip src Hour Hse Hip Hsrc Hport Hremote Hms Hb Hev n i 0 [] c)
      as (n1 & r & E1 & Hr1); try done; [|by exists n1, r].
    intros rest. destruct (first_block (with_events (client n) []) src (TftpBlkSize t0) c rest) as (t' & Et & Htr); try done; [lia|cbn; subst t0; lia|].
    exists t'. split; [done|]. destruct Htr. split; try done. by rewrite Hev.
  - cbn [app] in *. exists n'. rewrite E, swrap_small by (simpl; lia). split; [done|]. split; [done|].
    unfold net_env. rewrite bool_decide_eq_true_2 by done. by rewrite Hsize, Hla.
Qed.

(** A download of two blocks, the first of which comes twice. *)
Definition small_board : net := machine 0x0200A8C0 0x0100A8C0 [2; 0; 0; 0; 0; 1] udp_TftpHandler (idle_client STATE_SEND_RRQ 8 0x20000000).
Definition brings (p : list Z) (t : Z) : turn :=
  let frame := wire_header [2; 0; 0; 0; 0; 2] [2; 0; 0; 0; 0; 1] 5 0x0100A8C0 0x0200A8C0 1100 2048 (Z.of_nat (length p)) ++ p in
  {| rx := [(frame ++ [0; 0], Z.of_nat (length frame))]; ctrlc := false; t_rx := t; t_arp := t; t_time := t + 1; env_changed := false |}.
Definition two_blocks : list arrival :=
  [{| chunk := cstr "linuxker"; fresh := brings (data_packet 1 (cstr "linuxker")) 10; again := [brings (data_packet 1 (cstr "linuxker")) 4000] |};
   {| chunk := cstr "nel"; fresh := brings (data_packet 2 (cstr "nel")) 4500; again := [] |}].

Lemma brings_delivers p t : delivers (client small_board) 0x0200A8C0 [2; 0; 0; 0; 0; 1] 0x0100A8C0 2048 p (brings p t).
Proof. split; [done|]. by exists [2; 0; 0; 0; 0; 2], 5, [0; 0]. Qed.

Lemma loop_downloads_file_witness :
  exists n', net_turns (fun _ => None) (fun _ => true) Ok (fun _ => []) TFTPGET small_board (turns_of two_blocks) = Ok (n', Some 11) /\
    (forall x, ram (client n') x = copy_to (fun _ => 0) 0x20000000 (cstr "linuxkernel") x) /\
    net_env n' = [("filesize"%string, 11); ("fileaddr"%string, 0x20000000)].
Proof.
  apply (loop_downloads_file (fun _ => None) (fun _ => true) Ok (fun _ => []) TFTPGET small_board 0x0200A8C0 [2; 0; 0; 0; 0; 1] 0x0100A8C0 2048 two_blocks);
    try done; try (cbn; lia); [split; [by left|done]|].
  split; [apply brings_delivers|]. split; [done|]. split; [done|]. split; [constructor; [split; [apply brings_delivers|done]|constructor]|].
  split; [apply brings_delivers|]. by split.
Defined.
