(* ===== verification/ArpProps.v ===== *)
(** * Finding the address of the peer ([net/arp.c], [net/net.c])

    A packet for a peer whose Ethernet address is not known waits in the transmit buffer until the reply to
    an ARP request brings the address. *)
From S2P Require Import Prelude Ctype Vsprintf VspProps Ram NetPkt NetPktProps Tftp TftpProps Net Bootp Netloop NetProps.

(** An ARP frame: the Ethernet header, and the two pairs of addresses. *)
Definition arp_frame (dst src : list Z) (op : Z) (sha : list Z) (spa : Z) (tha : list Z) (tpa : Z) : list Z :=
  (dst ++ src ++ be16 PROT_ARP) ++ be16 ARP_ETHER ++ be16 PROT_IP ++ [ARP_HLEN; ARP_PLEN] ++ be16 op ++ sha ++ le32 spa ++ tha ++ le32 tpa.

Lemma arp_frame_length dst src op sha spa tha tpa :
  length dst = 6%nat -> length src = 6%nat -> length sha = 6%nat -> length tha = 6%nat -> length (arp_frame dst src op sha spa tha tpa) = 42%nat.
Proof. intros H1 H2 H3 H4. unfold arp_frame. rewrite !length_app, H1, H2, H3, H4. reflexivity. Qed.

(** A range of bytes of a list. *)
Lemma readN (l pre x rest : list Z) n k : l = pre ++ x ++ rest -> length pre = n -> length x = k -> get_bytes l n k = Ok x.
Proof. intros -> <- <-. apply get_bytes_app. Qed.

Section Arp.
Context (getenv : list Z -> option (list Z)) (dev_init : nat -> bool) (NfsStart : net -> res net).

Lemma request_sent n target :
  no_vlan n -> length (NetOurEther (addrs n)) = 6%nat -> eth_devices (eth n) <> O ->
  arp_raw_request n (NetOurIP (addrs n)) NetEtherNullAddr target =
  Ok (log_eth n (EthSend (arp_frame NetBcastAddr (NetOurEther (addrs n)) ARPOP_REQUEST (NetOurEther (addrs n)) (NetOurIP (addrs n))
                            NetEtherNullAddr target))).
Proof.
  intros Hv Ho Hdev. unfold arp_raw_request. change (replicate PKTSIZE_ALIGN 0) with (replicate 14 0 ++ replicate 28 0 ++ replicate 1494 0).
  rewrite ether_built by done. rewrite bind_ok. set (tl := replicate 1494 0). change (replicate 28 0) with (repeat 0 28).
  destruct (NetOurEther (addrs n)) as [|e0 [|e1 [|e2 [|e3 [|e4 [|e5 [|]]]]]]] eqn:Ee; try discriminate.
  unfold NetWriteIP, ETHER_HDR_SIZE, NetEtherNullAddr. cbn [app NetBcastAddr be16 repeat]. repeat step_put.
  unfold NetSendPacket. match goal with |- _ = Ok (log_eth _ (EthSend ?F)) => rewrite (readN _ [] F tl) by reflexivity end.
  rewrite bind_ok. unfold eth_send. by rewrite decide_False by done.
Qed.

(** A frame to our address reaches the case of its operation. *)
Lemma arp_received n dst src op sha spa tha tpa rest :
  no_vlan n -> length dst = 6%nat -> length src = 6%nat -> length sha = 6%nat -> length tha = 6%nat -> 0 <= op < 65536 ->
  0 < tpa < 2 ^ 32 -> NetOurIP (addrs n) = tpa ->
  let P := arp_frame dst src op sha spa tha tpa ++ rest in
  NetReceive getenv dev_init NfsStart n P 42 =
  if op =? ARPOP_REQUEST then arp_answer n P 14 else if op =? ARPOP_REPLY then arp_learn n P 14 else Ok n.
Proof.
  intros Hv Hd Hs Hsha Ht Hop Hip Hour P. unfold NetReceive. change (u32 42 <? Z.of_nat ETHER_HDR_SIZE) with false. cbv iota zeta.
  subst P. explode 6 dst. explode 6 src. explode 6 sha. explode 6 tha. set (P := arp_frame _ _ _ _ _ _ _ ++ rest).
  rewrite (read16 P 12 PROT_ARP) by reflexivity. rewrite bind_ok. change (PROT_ARP mod 65536 <? 1514) with false.
  change (negb (PROT_ARP mod 65536 =? PROT_VLAN)) with true. cbv iota. rewrite bind_ok. unfold no_vlan in Hv. rewrite Hv, Z.eqb_refl. cbn [negb andb]. cbv iota.
  change (PROT_ARP mod 65536 =? PROT_ARP) with true. cbv iota. change ETHER_HDR_SIZE with 14%nat. unfold ArpReceive.
  change (42 - Z.of_nat 14 <? Z.of_nat ARP_HDR_SIZE) with false. cbv iota.
  rewrite (read16 P 14 ARP_ETHER) by reflexivity. rewrite bind_ok. change (negb (ARP_ETHER mod 65536 =? ARP_ETHER)) with false. cbv iota.
  rewrite (read16 P (14 + 2) PROT_IP) by reflexivity. rewrite bind_ok. change (negb (PROT_IP mod 65536 =? PROT_IP)) with false. cbv iota.
  rewrite (read8 P (14 + 4) ARP_HLEN) by reflexivity. rewrite bind_ok. change (negb (ARP_HLEN =? ARP_HLEN)) with false. cbv iota.
  rewrite (read8 P (14 + 5) ARP_PLEN) by reflexivity. rewrite bind_ok. change (negb (ARP_PLEN =? ARP_PLEN)) with false. cbv iota.
  rewrite Hour. rewrite (proj2 (Z.eqb_neq tpa 0)) by lia.
  rewrite (readIP P (take 38 P) rest tpa (14 + 24)) by (reflexivity || lia). rewrite bind_ok, Z.eqb_refl. cbn [negb]. cbv iota.
  rewrite (read16 P (14 + 6) op) by reflexivity. by rewrite bind_ok, Z.mod_small.
Qed.

(** The peer answers a request for its address. *)
Lemma request_answered r src spa tpa tha rest :
  length (NetOurEther (addrs r)) = 6%nat -> eth_devices (eth r) <> O -> length src = 6%nat -> length tha = 6%nat -> NetOurIP (addrs r) = tpa ->
  arp_answer r (arp_frame NetBcastAddr src ARPOP_REQUEST src spa tha tpa ++ rest) 14 =
  Ok (log_eth r (EthSend (arp_frame src (NetOurEther (addrs r)) ARPOP_REPLY (NetOurEther (addrs r)) tpa src spa))).
Proof.
  intros Ho Hdev Hs Ht Hour. unfold arp_answer. rewrite Hour.
  destruct (NetOurEther (addrs r)) as [|e0 [|e1 [|e2 [|e3 [|e4 [|e5 [|]]]]]]] eqn:Ee; try discriminate. explode 6 src. explode 6 tha.
  match goal with |- context [get_bytes ?P 6 6] => rewrite (readN P (take 6 P) (take 6 (drop 6 P)) (drop 12 P)) by reflexivity end. rewrite bind_ok.
  unfold net_update_ether, arp_frame, NetBcastAddr. cbn [app take drop be16 le32 map]. do 2 step_put.
  match goal with |- context [get16 ?P 12] => rewrite (read16 P 12 PROT_ARP) by reflexivity end. rewrite bind_ok.
  change (PROT_ARP mod 65536 =? PROT_VLAN) with false. change (1514 <? PROT_ARP mod 65536) with true. cbv iota. step_put.
  change (14 + 6)%nat with 20%nat. step_put.
  match goal with |- context [get_bytes ?P (14 + 8) 6] => rewrite (readN P (take 22 P) (take 6 (drop 22 P)) (drop 28 P)) by reflexivity end. rewrite bind_ok.
  cbn [take drop]. step_put.
  match goal with |- context [get_bytes ?P (14 + 14) 4] => rewrite (readN P (take 28 P) (take 4 (drop 28 P)) (drop 32 P)) by reflexivity end. rewrite bind_ok.
  cbn [take drop]. repeat step_put. unfold NetSendPacket.
  match goal with |- _ = Ok (log_eth _ (EthSend ?F)) => rewrite (readN _ [] F rest) by reflexivity end. rewrite bind_ok.
  unfold eth_send. by rewrite decide_False by done.
Qed.

(** The reply ends the wait. *)
Lemma reply_taken n dst src sha spa tha tpa rest pkt :
  length sha = 6%nat -> length dst = 6%nat -> length src = 6%nat -> 0 <= spa < 2 ^ 32 -> NetArpWaitPacketIP (arp n) <> 0 -> NetArpWaitReplyIP (arp n) = spa ->
  NetArpWaitPacketMAC (arp n) = Some to_NetServerEther -> eth_devices (eth n) <> O ->
  NetTxPacket n = NetEtherNullAddr ++ pkt -> (NetArpWaitTxPacketSize (arp n) <= length (NetTxPacket n))%nat ->
  exists n', arp_learn n (arp_frame dst src ARPOP_REPLY sha spa tha tpa ++ rest) 14 = Ok n' /\
    NetServerEther n' = sha /\ NetArpWaitPacketIP (arp n') = 0 /\
    eth_log (eth n') = eth_log (eth n) ++ [EthSend (take (NetArpWaitTxPacketSize (arp n)) (sha ++ pkt))].
Proof.
  intros Hsha Hd Hs Hip Hw Hr Hm Hdev Htx Hsize. unfold arp_learn. rewrite (proj2 (Z.eqb_neq _ _) Hw).
  set (P := arp_frame _ _ _ _ _ _ _ ++ rest).
  assert (NetReadIP P (14 + 14) = Ok spa) as ->.
  { apply (readIP P (dst ++ src ++ be16 PROT_ARP ++ be16 ARP_ETHER ++ be16 PROT_IP ++ [ARP_HLEN; ARP_PLEN] ++ be16 ARPOP_REPLY ++ sha)
      (tha ++ le32 tpa ++ rest)); [subst P; unfold arp_frame; by rewrite <- !app_assoc|by rewrite !length_app, Hd, Hs, Hsha|done]. }
  assert (get_bytes P (14 + 8) 6 = Ok sha) as ->.
  { apply (readN P (dst ++ src ++ be16 PROT_ARP ++ be16 ARP_ETHER ++ be16 PROT_IP ++ [ARP_HLEN; ARP_PLEN] ++ be16 ARPOP_REPLY) sha
      (le32 spa ++ tha ++ le32 tpa ++ rest)); [subst P; unfold arp_frame; by rewrite <- !app_assoc|by rewrite !length_app, Hd, Hs|done]. }
  rewrite bind_ok, Hr, Z.eqb_refl, bind_ok, Hm. cbn [store_ether]. rewrite bind_ok. cbn [NetTxPacket set_server]. rewrite Htx.
  rewrite put_ok by (rewrite Hsha, length_app; simpl; lia). rewrite bind_ok. cbn [arp NetTxPacket set_tx set_server].
  change (NetEtherNullAddr ++ pkt) with ([] ++ (NetEtherNullAddr ++ pkt)). rewrite (list_inserts_app [] sha) by (rewrite Hsha, length_app; simpl; lia).
  rewrite Hsha. cbn [app drop NetEtherNullAddr]. unfold NetSendPacket, get_bytes.
  rewrite !drop_0. cbn [arp set_tx set_server]. rewrite decide_True by (rewrite Htx, length_app in Hsize; rewrite length_app, Hsha; simpl in *; lia). rewrite !bind_ok.
  unfold eth_send. cbn [eth set_tx set_server]. rewrite decide_False by done. eexists. split; [reflexivity|]. done.
Qed.
End Arp.

(** C23: the Ethernet address of a peer is found, and then the packet is sent.  A machine that has no address for the
    peer, which is in its subnet, sends a UDP packet without a VLAN tag: instead of the packet an ARP request goes out.  When the peer, which has
    the destination address and runs the same code, receives the request it sends a reply; when the reply
    comes back the address of the peer is stored, nothing waits any more, and what goes out is exactly
    the frame the packet would have been had the address been known.  The receive buffers
    may hold anything behind the frames. *)
Theorem arp_then_send getenv dev_init getenv' dev_init' NfsStart s r dest dport sport payload rest rest' :
  no_vlan s -> length (NetOurEther (addrs s)) = 6%nat -> NetServerEther s = NetEtherNullAddr -> length (NetTxPacket s) = PKTSIZE_ALIGN ->
  eth_devices (eth s) <> O -> 0 < NetOurIP (addrs s) < 2 ^ 32 ->
  no_vlan r -> length (NetOurEther (addrs r)) = 6%nat -> eth_devices (eth r) <> O -> NetOurIP (addrs r) = dest ->
  0 < dest < 0xFFFFFFFF -> dest .& NetOurSubnetMask (addrs s) = NetOurIP (addrs s) .& NetOurSubnetMask (addrs s) ->
  (43 + length payload <= PKTSIZE_ALIGN)%nat ->
  exists s1 request r1 reply s2,
    exec getenv dev_init s (SendUDP dest dport sport payload) = Ok s1 /\ eth_log (eth s1) = eth_log (eth s) ++ [EthSend request] /\
    NetReceive getenv' dev_init' NfsStart r (request ++ rest) 42 = Ok r1 /\ eth_log (eth r1) = eth_log (eth r) ++ [EthSend reply] /\
    NetReceive getenv dev_init NfsStart s1 (reply ++ rest') 42 = Ok s2 /\ NetServerEther s2 = NetOurEther (addrs r) /\ NetArpWaitPacketIP (arp s2) = 0 /\
    eth_log (eth s2) = eth_log (eth s1) ++ [EthSend (frame_of (set_server s (NetOurEther (addrs r))) dest dport sport payload)].
Proof.
  intros Hv Ho Hse Ht Hdev Hip Hvr Hor Hdevr Hour Hdest Hsub Hlen.
  destruct (send_built s dest dport sport payload getenv dev_init) as (tl & Hl & Hf & E); try done; [by rewrite Hse|lia|lia|].
  rewrite Hse, bool_decide_eq_true_2 in E by done. cbv zeta in E. unfold ArpRequest in E.
  cbn [arp NetArpWaitPacketIP set_arp set_tx addrs] in E. rewrite Hsub, Z.eqb_refl in E. cbn [negb] in E.
  match type of E with _ = arp_raw_request ?m _ _ _ => set (m1 := m) in E end.
  pose proof (request_sent m1 dest Hv Ho Hdev) as Ereq. cbn [addrs m1 set_arp set_tx] in Ereq. fold m1 in Ereq. rewrite Ereq in E.
  eexists _, _, _, _.
  destruct (reply_taken (log_eth m1 (EthSend (arp_frame NetBcastAddr (NetOurEther (addrs s)) ARPOP_REQUEST (NetOurEther (addrs s)) (NetOurIP (addrs s))
      NetEtherNullAddr dest))) (NetOurEther (addrs s)) (NetOurEther (addrs r)) (NetOurEther (addrs r)) dest (NetOurEther (addrs s)) (NetOurIP (addrs s)) rest'
      (drop 6 (frame_of s dest dport sport payload ++ tl))) as (s2 & E2 & Hs2 & Hw2 & Hlog2); try done; cbn [arp NetArpWaitPacketIP m1 log_eth set_eth set_arp set_tx];
    [lia|lia| |change (14 + IP_UDP_HDR_SIZE + length payload <= length (frame_of s dest dport sport payload ++ tl))%nat; rewrite length_app, Hf; lia|].
  { change (frame_of s dest dport sport payload ++ tl = NetEtherNullAddr ++ drop 6 (frame_of s dest dport sport payload ++ tl)).
    unfold frame_of, wire_header, any_header. rewrite Hse. reflexivity. }
  exists s2. split; [exact E|]. split; [done|].
  split; [rewrite arp_received by (done || lia); apply request_answered; done|]. split; [done|].
  split; [rewrite arp_received by (done || lia); exact E2|]. split; [done|]. split; [done|]. rewrite Hlog2. do 3 f_equal.
  set (f' := frame_of (set_server s (NetOurEther (addrs r))) dest dport sport payload).
  assert (NetOurEther (addrs r) ++ drop 6 (frame_of s dest dport sport payload ++ tl) = f' ++ tl) as ->.
  { subst f'. unfold frame_of, wire_header, any_header. rewrite Hse. cbn [NetServerEther set_server addrs NetIPID NetOurIP].
    rewrite <- !app_assoc. by rewrite drop_app_length'. }
  apply take_app_length'. subst f'. unfold frame_of, wire_header, any_header in *. cbn [NetServerEther set_server addrs].
  rewrite !length_app, Hor in *. rewrite Hse in Hf. exact (eq_sym Hf) || exact Hf.
Qed.

Lemma arp_then_send_witness :
  let s := set_server board NetEtherNullAddr in
  exists s1 request r1 reply s2,
    exec (fun _ => None) (fun _ => true) s (SendUDP 0x0100A8C0 69 1100 (cstr "request")) = Ok s1 /\ eth_log (eth s1) = [] ++ [EthSend request] /\
    NetReceive (fun _ => None) (fun _ => true) Ok peer (request ++ [7; 7]) 42 = Ok r1 /\ eth_log (eth r1) = [] ++ [EthSend reply] /\
    NetReceive (fun _ => None) (fun _ => true) Ok s1 (reply ++ [8; 8]) 42 = Ok s2 /\ NetServerEther s2 = NetOurEther (addrs peer) /\
    NetArpWaitPacketIP (arp s2) = 0 /\
    eth_log (eth s2) = eth_log (eth s1) ++ [EthSend (frame_of (set_server s (NetOurEther (addrs peer))) 0x0100A8C0 69 1100 (cstr "request"))].
Proof.
  apply (arp_then_send (fun _ => None) (fun _ => true) (fun _ => None) (fun _ => true) Ok (set_server board NetEtherNullAddr) peer 0x0100A8C0 69 1100
    (cstr "request") [7; 7] [8; 8]); try done. apply Nat.leb_le. reflexivity.
Defined.

(** ** Retries *)

Section Retry.
Context (getenv : list Z -> option (list Z)) (dev_init : nat -> bool).

(** With [netretry] set to [once] a failure ends the operation at once, like with [no]: the count of tries starts with one. *)
Theorem once_never_retries n :
  getenv (cstr "netretry") = Some (cstr "once") -> 1 <= NetTryCount (prog n) < 2 ^ 31 ->
  NetStartAgain getenv dev_init n = Ok (net_set_state (eth_halt n) NETLOOP_FAIL).
Proof.
  intros E Hc. unfold NetStartAgain. rewrite E. rewrite (bool_decide_eq_false_2 (cstr "once" = cstr "yes")), (bool_decide_eq_false_2 (cstr "once" = cstr "no")),
    bool_decide_eq_true_2 by done. rewrite wrap_small by lia. rewrite (proj2 (Z.leb_le _ _)) by lia. done.
Qed.

(** Moving on around the ring. *)
Lemma try_another_next n first_restart :
  getenv (cstr "ethrotate") <> Some (cstr "no") -> (eth_current (eth n) < eth_devices (eth n))%nat ->
  let n' := eth_try_another getenv n first_restart in
  eth_devices (eth n') = eth_devices (eth n) /\ eth_current (eth n') = (S (eth_current (eth n)) mod eth_devices (eth n))%nat.
Proof.
  intros Hr Hlt. cbv zeta. unfold eth_try_another. rewrite bool_decide_eq_false_2 by done. rewrite decide_False by lia.
  assert ((if decide (S (eth_current (eth n)) = eth_devices (eth n)) then O else S (eth_current (eth n))) =
    S (eth_current (eth n)) mod eth_devices (eth n))%nat as <-.
  { case_decide as E; [by rewrite <- E, Nat.Div0.mod_same|]. symmetry. apply Nat.mod_small. lia. }
  destruct (bool_decide _); done.
Qed.

Lemma init_loop_ends old k : forall n j, (old < eth_devices (eth n))%nat -> getenv (cstr "ethrotate") <> Some (cstr "no") ->
  eth_current (eth n) = ((old + j) mod eth_devices (eth n))%nat -> (k + j = eth_devices (eth n))%nat -> (0 < k)%nat ->
  init_loop getenv dev_init k n old <> Hang.
Proof.
  induction k as [|k IH]; intros n j Hold Hr Hcur Hk Hpos; [lia|]. cbn [init_loop].
  set (n1 := log_eth n (EthInit (eth_current (eth n)))). assert (eth_devices (eth n1) = eth_devices (eth n)) as Hd by done.
  assert (eth_current (eth n1) = eth_current (eth n)) as Hc by done. destruct (dev_init _); [done|].
  destruct (try_another_next n1 false Hr) as [Hd2 Hc2]; [rewrite Hd, Hc, Hcur; apply Nat.mod_upper_bound; lia|].
  case_decide as Hend; [done|]. apply (IH _ (S j)); rewrite ?Hd2, ?Hd; try done; try lia.
  - rewrite Hc2, Hc, Hd, Hcur. rewrite Nat.add_succ_r. replace (S ((old + j) mod eth_devices (eth n))) with ((old + j) mod eth_devices (eth n) + 1)%nat by lia.
    rewrite Nat.Div0.add_mod_idemp_l. f_equal. lia.
  - destruct k; [|lia]. exfalso. apply Hend. rewrite Hc2, Hc, Hd, Hcur. replace j with (eth_devices (eth n) - 1)%nat by lia.
    replace (S ((old + (eth_devices (eth n) - 1)) mod eth_devices (eth n))) with ((old + (eth_devices (eth n) - 1)) mod eth_devices (eth n) + 1)%nat by lia.
    rewrite Nat.Div0.add_mod_idemp_l. replace (old + (eth_devices (eth n) - 1) + 1)%nat with (old + 1 * eth_devices (eth n))%nat by lia.
    rewrite Nat.Div0.mod_add. apply Nat.mod_small. lia.
Qed.

(** Every device is tried at most once. *)
Lemma eth_init_ends n : (eth_current (eth n) < eth_devices (eth n))%nat -> eth_init getenv dev_init n <> Hang.
Proof.
  intros Hlt. unfold eth_init. rewrite decide_False by lia. destruct (decide (getenv (cstr "ethrotate") = Some (cstr "no"))) as [Hno|Hr].
  - destruct (eth_devices (eth n)) as [|d] eqn:Ed; [lia|]. cbn [init_loop]. destruct (dev_init _); [done|].
    unfold eth_try_another. rewrite bool_decide_eq_true_2 by done. by rewrite decide_True by done.
  - apply (init_loop_ends _ _ n 0); try done; try lia. rewrite Nat.add_0_r. symmetry. by apply Nat.mod_small.
Qed.
End Retry.
