(* ===== verification/BootpProps.v ===== *)
(** * Configuration by BOOTP ([net/bootp.c], [net/net.c], [common/cmd_net.c]) *)
From S2P Require Import Prelude Ctype Vsprintf VspProps Ram NetPkt NetPktProps Tftp TftpProps Net Bootp Netloop NetProps ArpProps.

(** ** A buffer as a list of fields *)

Lemma put_field (segs : list (list Z)) i off old new :
  segs !! i = Some old -> length old = length new -> length (concat (take i segs)) = off ->
  put (concat segs) off new = Ok (concat (<[i := new]> segs)).
Proof.
  intros Hi Hl <-. rewrite <- (take_drop_middle segs i old Hi) at 1. rewrite insert_take_drop by (by eapply lookup_lt_Some).
  rewrite !concat_app. cbn [concat]. unfold put. rewrite store_block_app by (rewrite length_app; lia).
  cbn [res_of_option]. rewrite <- Hl. by rewrite drop_app_length.
Qed.

Lemma zeros_concat (ks : list nat) : concat (map (fun k => replicate k 0) ks) = replicate (sum_list ks) 0.
Proof. induction ks as [|k ks IH]; [done|]. cbn [map concat]. rewrite IH. symmetry. apply replicate_add. Qed.

(** ** The request *)

(** The message a board with an address broadcasts. *)
Definition request_of (ether file : list Z) (id secs : Z) : list Z :=
  [OP_BOOTREQUEST; HWT_ETHER; HWL_ETHER; 0] ++ le32 id ++ be16 secs ++ replicate 2 0 ++ replicate 16 0 ++ ether ++ replicate 10 0 ++ replicate 64 0
  ++ (file ++ replicate (128 - length file) 0) ++ BootpExtended.

(** The transaction is the number made of the last bytes of the address, plus the time. *)
Definition id_of (ether : list Z) (now : Z) : Z :=
  let e i := nth i ether 0 in swab32 (u32 (((e 2%nat .<< 24) .| (e 3%nat .<< 16) .| (e 4%nat .<< 8) .| e 5%nat) + now)).

Lemma new_id_of ether now : length ether = 6%nat -> new_id ether now = Ok (id_of ether now).
Proof. intros He. explode 6 ether. reflexivity. Qed.

Lemma name_loop_length src : forall size, (1 <= size)%Z -> Z.of_nat (length (name_loop size src)) <= size - 1.
Proof.
  induction src as [|c src IH]; intros size Hs; cbn [name_loop length]; [lia|].
  destruct (Z.ltb_spec 0 (size - 1)); cbn [andb length]; [|lia]. destruct (negb _); cbn [length]; [|lia].
  specialize (IH (size - 1) ltac:(lia)). lia.
Qed.
Lemma copy_filename_length src : (length (copy_filename src 128) <= 127)%nat.
Proof.
  unfold copy_filename. change (128 - 1) with 127. destruct (_ =? _); [pose proof (name_loop_length (tail src) 127)|pose proof (name_loop_length src 128)]; lia.
Qed.

(** The state of a board that can broadcast. *)
Record can_send (n : net) : Prop := {
  cs_vlan : no_vlan n;
  cs_our : length (NetOurEther (addrs n)) = 6%nat;
  cs_tx : length (NetTxPacket n) = PKTSIZE_ALIGN;
  cs_dev : eth_devices (eth n) <> O
}.

Definition request_frame (n : net) : list Z :=
  let ether := NetOurEther (addrs n) in
  wire_header NetBcastAddr ether (NetIPID n) (NetOurIP (addrs n)) 0xFFFFFFFF PORT_BOOTPS PORT_BOOTPC 241
  ++ request_of ether (copy_filename (BootFile n) 128) (id_of ether (clock n)) (clock n / 1000).

Definition requested (n : net) (pkt : list Z) : net :=
  log_eth (set_handler (set_tmo (set_tx (set_bootp n (set_id (set_boot_try (bootp n) (BootpTry (bootp n) + 1)) (id_of (NetOurEther (addrs n)) (clock n))))
    (u32 (NetIPID n + 1)) pkt) {| timeHandler := Some time_BootpTimeout; timeStart := clock n; timeDelta := 3000 |}) udp_BootpHandler)
    (EthSend (request_frame n)).

(** Lengths of fields. *)
Ltac field_length :=
  cbn [take concat]; rewrite ?length_app, ?length_replicate; cbn [length NetBcastAddr be16 le32 map BootpExtended];
  rewrite ?length_take; unfold ETHER_HDR_SIZE, IP_UDP_HDR_SIZE, bp_op, bp_htype, bp_hlen, bp_hops, bp_id, bp_secs, bp_ciaddr, bp_yiaddr, bp_siaddr,
    bp_giaddr, bp_chaddr, bp_file, bp_vend; lia.
Ltac put_at i :=
  match goal with |- context [put (concat ?segs) ?off ?new] =>
    let H := fresh in
    assert (put (concat segs) off new = Ok (concat (<[i := new]> segs))) as H
      by (eapply put_field; [reflexivity|field_length|field_length]);
    rewrite H; clear H; cbn [insert list_insert]; rewrite ?bind_ok; cbv beta
  end.

(** The cleared buffer, as the fields the request is written to. *)
Lemma buffer_cleared tx (k : nat) : length tx = PKTSIZE_ALIGN -> (k <= 127)%nat ->
  put tx 0 (replicate PKTSIZE 0) =
    Ok (replicate 14 0 ++ concat [replicate 28 0; [0]; [0]; [0]; [0]; replicate 4 0; replicate 2 0; replicate 2 0; replicate 4 0; replicate 4 0; replicate 4 0;
      replicate 4 0; replicate 6 0; replicate 10 0; replicate 64 0; replicate (k + 1) 0; replicate (127 - k) 0; replicate 5 0;
      replicate (PKTSIZE - 283) 0 ++ drop PKTSIZE tx]).
Proof.
  intros Ht Hk. unfold put. pose proof (store_block_app [] (replicate PKTSIZE 0) tx) as E. cbn [app length] in E.
  rewrite E by (rewrite length_replicate, Ht; unfold PKTSIZE, PKTSIZE_ALIGN; lia). clear E. cbn [res_of_option]. rewrite length_replicate.
  set (tl := drop PKTSIZE tx).
  transitivity (Ok (concat (map (fun k => replicate k 0)
    [14; 28; 1; 1; 1; 1; 4; 2; 2; 4; 4; 4; 4; 6; 10; 64; k + 1; 127 - k; 5; PKTSIZE - 283]%nat) ++ tl)).
  - rewrite zeros_concat. do 3 f_equal. unfold PKTSIZE. cbn; lia.
  - f_equal. cbn [map concat]. rewrite !app_nil_r, <- !app_assoc. reflexivity.
Qed.

Lemma bootp_request_sent n : can_send n -> BootpTry (bootp n) <> 2 ^ 31 - 1 ->
  exists pkt, BootpRequest n = Ok (requested n pkt) /\ length pkt = PKTSIZE_ALIGN.
Proof.
  intros [Hv Ho Ht Hd] Htry. unfold BootpRequest. rewrite decide_False by done. cbn [set_bootp NetTxPacket addrs bootp BootFile clock NetIPID set_boot_try BootpTry].
  set (ether := NetOurEther (addrs n)) in *. set (f := copy_filename (BootFile n) 128).
  pose proof (copy_filename_length (BootFile n)) as Hf. fold f in Hf.
  set (tl := drop PKTSIZE (NetTxPacket n)). rewrite (buffer_cleared _ (length f)) by done. fold tl.
  rewrite bind_ok, ether_built by (done || reflexivity). rewrite bind_ok.
  match goal with |- context [?e ++ concat ?l] => change (e ++ concat l) with (concat (e :: l)) end.
  assert (length f + 1 + (127 - length f) = 128)%nat as H128 by lia.
  unfold NetWriteIP. cbn [ETHER_HDR_SIZE].
  put_at 2%nat. put_at 3%nat. put_at 4%nat. put_at 5%nat. put_at 7%nat. put_at 9%nat. put_at 10%nat. put_at 11%nat. put_at 12%nat. put_at 13%nat.
  put_at 16%nat. put_at 18%nat. rewrite new_id_of by done. rewrite bind_ok. cbn [set_bootp bootp NetIPID addrs NetTxPacket set_id]. put_at 6%nat.
  set (P := request_of ether f (id_of ether (clock n)) (clock n / 1000)).
  assert (length P = 241%nat) as HP.
  { subst P. unfold request_of. rewrite !length_app, !length_replicate, Ho. cbn [length le32 be16 map BootpExtended]. lia. }
  match goal with |- context [concat ?l] => assert (concat l = (NetBcastAddr ++ ether ++ be16 PROT_IP) ++ replicate 28 0 ++ P ++
    (replicate (PKTSIZE - 283) 0 ++ tl)) as -> end.
  { subst P. unfold request_of. cbn [concat]. rewrite (take_ge ether) by lia. replace (128 - length f)%nat with (S (127 - length f)) by lia.
    rewrite app_nil_r. cbn [replicate]. rewrite <- !app_assoc. reflexivity. }
  set (tl0 := replicate (PKTSIZE - 283) 0 ++ tl).
  assert (length tl0 = 1253%nat) as Hl0 by (subst tl0 tl; by rewrite length_app, length_replicate, length_drop, Ht). clearbody tl0.
  change (BOOTP_HDR_SIZE - OPT_FIELD_SIZE + length BootpExtended)%nat with 241%nat. change ETHER_HDR_SIZE with 14%nat. rewrite <- HP.
  destruct (udp_header_built (NetIPID n) (NetOurIP (addrs n)) (NetBcastAddr ++ ether ++ be16 PROT_IP) (replicate 28 0) P tl0
    0xFFFFFFFF PORT_BOOTPS PORT_BOOTPC) as (tl' & E & Hl'); [by rewrite !length_app, Ho|done|lia|].
  rewrite E, bind_ok. clear E. match goal with |- context [set_tx _ _ ?p] => set (pkt := p) end.
  assert (pkt = request_frame n ++ tl') as Epkt.
  { subst pkt. unfold request_frame. fold ether f P. change 241 with (Z.of_nat 241). rewrite HP. unfold wire_header, any_header. by rewrite <- !app_assoc. }
  assert (length (request_frame n) = 283)%nat as Hq.
  { unfold request_frame. fold ether f P. rewrite length_app, HP. unfold wire_header, any_header. rewrite !length_app, Ho. reflexivity. }
  exists pkt. split.
  - assert (get_bytes pkt 0 (14 + IP_UDP_HDR_SIZE + length P) = Ok (request_frame n)) as Eg.
    { rewrite Epkt, HP. change (14 + IP_UDP_HDR_SIZE + 241)%nat with 283%nat. rewrite <- Hq. apply get_all. }
    unfold NetSendPacket. change (NetTxPacket _) with pkt. rewrite Eg, bind_ok. unfold eth_send. rewrite decide_False by done. reflexivity.
  - by rewrite Epkt, length_app, Hq, Hl', Hl0.
Qed.

(** ** The vendor area

    What the area tells, as values: addresses, 0 when not known, names and the size of the boot file. *)
Record info := { i_mask : Z; i_gateway : Z; i_dns : Z; i_host : list Z; i_root : list Z; i_domain : list Z; i_size : Z }.

(** The first value of an address or a name stays; a name is cut to its buffer, and ends at a NUL.  The size of the file is that of the last option. *)
Definition first_ip (old : Z) (data : list Z) : Z := if old =? 0 then of_le32 (take 4 data) else old.
Definition first_name (max : nat) (old data : list Z) : list Z := match old with [] => c_string (take (max - 1) data) | _ => old end.
Definition size_of (data : list Z) : Z := match data with [h; l] | [_; _; h; l] => 256 * h + l | _ => 0 end.
Definition learn (i : info) (o : Z * list Z) : info :=
  let '(code, data) := o in
  {| i_mask := if code =? 1 then first_ip (i_mask i) data else i_mask i;
     i_gateway := if code =? 3 then first_ip (i_gateway i) data else i_gateway i;
     i_dns := if code =? 6 then first_ip (i_dns i) data else i_dns i;
     i_host := if code =? 12 then first_name 32 (i_host i) data else i_host i;
     i_root := if code =? 17 then first_name 64 (i_root i) data else i_root i;
     i_domain := if code =? 40 then first_name 32 (i_domain i) data else i_domain i;
     i_size := if code =? 13 then size_of data else 0 |}.

Definition info_of (n : net) : info :=
  {| i_mask := NetOurSubnetMask (addrs n); i_gateway := NetOurGatewayIP (addrs n); i_dns := NetOurDNSIP (bootp n);
     i_host := c_string (NetOurHostName (bootp n)); i_root := c_string (NetOurRootPath (bootp n)); i_domain := c_string (NetOurNISDomain (bootp n));
     i_size := NetBootFileSize (bootp n) |}.

(** An option and its bytes. *)
Definition opt_ok (o : Z * list Z) : Prop :=
  0 < fst o < 255 /\ (length (snd o) <= 255)%nat /\ byte_list (snd o) /\ (fst o ∈ [1; 3; 6] -> (4 <= length (snd o))%nat).
Definition opt_bytes (o : Z * list Z) : list Z := fst o :: Z.of_nat (length (snd o)) :: snd o.
(** An area is a list of options and bytes of padding, and ends with its mark. *)
Definition item_bytes (i : option (Z * list Z)) : list Z := match i with Some o => opt_bytes o | None => [0] end.
Definition items_bytes (area : list (option (Z * list Z))) : list Z := concat (map item_bytes area).
Definition item_ok (i : option (Z * list Z)) : Prop := match i with Some o => opt_ok o | None => True end.
Definition learn_item (x : info) (i : option (Z * list Z)) : info := match i with Some o => learn x o | None => x end.

Record buffers (n : net) : Prop := {
  bf_host : length (NetOurHostName (bootp n)) = 32%nat;
  bf_root : length (NetOurRootPath (bootp n)) = 64%nat;
  bf_domain : length (NetOurNISDomain (bootp n)) = 32%nat
}.

(** Nothing else changes. *)
Definition learned (n n' : net) : Prop :=
  exists gateway mask b, n' = set_bootp (set_ips n (NetOurIP (addrs n)) gateway mask (NetServerIP (addrs n))) b /\
    BootpID b = BootpID (bootp n) /\ BootpTry b = BootpTry (bootp n) /\ env_sets b = env_sets (bootp n).

Lemma set_same n : set_bootp (set_ips n (NetOurIP (addrs n)) (NetOurGatewayIP (addrs n)) (NetOurSubnetMask (addrs n)) (NetServerIP (addrs n))) (bootp n) = n.
Proof. by destruct n as [[] ? ? ? ? ? ? ? ? ? ? ?]. Qed.
Lemma learned_refl n : learned n n.
Proof. exists (NetOurGatewayIP (addrs n)), (NetOurSubnetMask (addrs n)), (bootp n). by rewrite set_same. Qed.
Lemma learned_trans n1 n2 n3 : learned n1 n2 -> learned n2 n3 -> learned n1 n3.
Proof.
  intros (g & m & b & -> & H1 & H2 & H3) (g' & m' & b' & -> & H1' & H2' & H3'). exists g', m', b'. cbn in *. by rewrite H1', H2', H3', H1, H2, H3.
Qed.

Lemma c_string_cut (l r : list Z) : c_string (l ++ 0 :: r) = c_string l.
Proof. induction l as [|x l IH]; [done|]. cbn [app c_string]. by rewrite IH. Qed.

Lemma copy_name_ok buf pre code data post max :
  length buf = max -> (0 < max < 256)%nat ->
  exists buf', copy_name buf (pre ++ opt_bytes (code, data) ++ post) (length pre) (Z.of_nat (length data)) = Ok buf' /\ length buf' = max /\
    c_string buf' = first_name max (c_string buf) data.
Proof.
  intros Hb Hm. unfold copy_name. destruct buf as [|x buf']; [simpl in Hb; lia|]. set (buf := x :: buf') in *. cbn [nth buf].
  destruct (Z.eqb_spec x 0) as [->|Hx]; cbn [negb]; cbv iota.
  - replace (Z.to_nat (truncate_sz (Z.of_nat (length buf)) (Z.of_nat (length data)))) with (length (take (max - 1) data)).
    2: { rewrite length_take. unfold truncate_sz. destruct (Z.leb_spec (Z.of_nat (length buf)) (Z.of_nat (length data))); lia. }
    rewrite (readN _ (pre ++ [code; Z.of_nat (length data)]) (take (max - 1) data) (drop (max - 1) data ++ post)).
    2: { unfold opt_bytes. cbn [fst snd]. rewrite <- !app_assoc. cbn [app]. by rewrite (app_assoc (take _ _)), take_drop. }
    2: { rewrite length_app. cbn. lia. } 2: done.
    rewrite bind_ok. unfold put. pose proof (store_block_app [] (take (max - 1) data ++ [0]) buf) as E. cbn [app length] in E.
    rewrite E by (rewrite length_app, length_take; cbn [length]; lia). clear E. eexists. split; [reflexivity|]. split.
    + rewrite !length_app, length_drop, ?length_app, length_take. cbn [length]. lia.
    + rewrite <- app_assoc. cbn [app]. by rewrite c_string_cut.
  - eexists. split; [reflexivity|]. split; [done|]. unfold buf. cbn [c_string]. by rewrite (proj2 (Z.eqb_neq _ _)) by done.
Qed.

Lemma address_read pre code data post : (4 <= length data)%nat ->
  NetReadIP (pre ++ opt_bytes (code, data) ++ post) (length pre + 2) = Ok (of_le32 (take 4 data)).
Proof.
  intros Hl. unfold NetReadIP. rewrite (readN _ (pre ++ [code; Z.of_nat (length data)]) (take 4 data) (drop 4 data ++ post)); [done| | |].
  - unfold opt_bytes. cbn [fst snd]. rewrite <- !app_assoc. cbn [app]. by rewrite (app_assoc (take _ _)), take_drop.
  - rewrite length_app. cbn. lia.
  - rewrite length_take. lia.
Qed.

Lemma at_field (pre l post : list Z) i x : l !! i = Some x -> (pre ++ l ++ post) !! (length pre + i)%nat = Some x.
Proof. intros H. rewrite lookup_app_r by lia. replace (length pre + i - length pre)%nat with i by lia. by apply lookup_app_l_Some. Qed.

(** The size of the file, from an option of two or four bytes. *)
Lemma size_read n pre data post : byte_list data ->
  let pkt := pre ++ opt_bytes (13, data) ++ post in
  let b := bootp n in
  (if Z.of_nat (length data) =? 2 then let* s := get16 pkt (length pre + 2) in Ok (set_bootp n (set_file_size b s))
   else if Z.of_nat (length data) =? 4 then
     let* h := get16 pkt (length pre + 2) in let* l := get16 pkt (length pre + 4) in Ok (set_bootp n (set_file_size b (u16 (65536 * h + l))))
   else Ok n) =
  Ok (match data with [_; _] | [_; _; _; _] => set_bootp n (set_file_size b (size_of data)) | _ => n end).
Proof.
  intros Hb pkt b. assert (forall i x, opt_bytes (13, data) !! i = Some x -> pkt !! (length pre + i)%nat = Some x) as Hat by (intros; by apply at_field).
  destruct (Z.eqb_spec (Z.of_nat (length data)) 2) as [E|H2]; [|destruct (Z.eqb_spec (Z.of_nat (length data)) 4) as [E|H4]].
  - destruct data as [|h [|l [|]]]; simpl in E; try lia. unfold get16.
    rewrite (Hat 2%nat h), <- Nat.add_succ_r, (Hat 3%nat l) by reflexivity. reflexivity.
  - destruct data as [|h0 [|l0 [|h [|l [|]]]]]; simpl in E; try lia. unfold get16. rewrite <- !Nat.add_succ_r.
    rewrite (Hat 2%nat h0), (Hat 3%nat l0), (Hat 4%nat h), (Hat 5%nat l) by reflexivity. cbn [res_of_option]. rewrite !bind_ok. cbn [size_of].
    unfold byte_list in Hb. rewrite !Forall_cons in Hb. unfold wrap. rewrite Z.add_comm, (Z.mul_comm 65536), Z.mod_add, Z.mod_small by lia. reflexivity.
  - destruct data as [|? [|? [|? [|? [|]]]]]; try reflexivity; simpl in *; lia.
Qed.

Lemma learned_bootp n b :
  BootpID b = BootpID (bootp n) -> BootpTry b = BootpTry (bootp n) -> env_sets b = env_sets (bootp n) -> learned n (set_bootp n b).
Proof. intros. exists (NetOurGatewayIP (addrs n)), (NetOurSubnetMask (addrs n)), b. split; [|done]. by destruct n as [[] ? ? ? ? ? ? ? ? ? ? ?]. Qed.

(** One value becomes known, under the equations that the context has for it. *)
Ltac learns :=
  eexists; split; [reflexivity|]; split; [unfold info_of, first_ip; cbn|split; [by split|]];
  first [by apply learned_bootp | by (eapply learned_trans; apply learned_bootp) | by (eexists _, _, _; split; [reflexivity|]) | idtac].

Lemma field_ok n pre o post : opt_ok o -> buffers n ->
  exists n', BootpVendorFieldProcess n (pre ++ opt_bytes o ++ post) (length pre) = Ok n' /\ info_of n' = learn (info_of n) o /\ buffers n' /\ learned n n'.
Proof.
  destruct o as [code data]. intros (Hc & Hl & Hb & H4) [Hh Hr Hd]. cbn [fst snd] in *. unfold BootpVendorFieldProcess.
  assert (get8 (pre ++ opt_bytes (code, data) ++ post) (length pre + 1) = Ok (Z.of_nat (length data))) as -> by (apply read8, at_field; reflexivity).
  assert (get8 (pre ++ opt_bytes (code, data) ++ post) (length pre) = Ok code) as ->
    by (apply read8; rewrite <- (Nat.add_0_r (length pre)); apply at_field; reflexivity).
  rewrite !bind_ok. cbn [set_bootp addrs bootp set_file_size NetOurDNSIP NetOurHostName NetOurRootPath NetOurNISDomain]. unfold learn.
  destruct (Z.eqb_spec code 1) as [->|]; [|destruct (Z.eqb_spec code 3) as [->|]; [|destruct (Z.eqb_spec code 6) as [->|];
    [|destruct (Z.eqb_spec code 12) as [->|]; [|destruct (Z.eqb_spec code 13) as [->|]; [|destruct (Z.eqb_spec code 17) as [->|];
    [|destruct (Z.eqb_spec code 40) as [->|]]]]]]].
  - rewrite (address_read pre 1 data post) by (apply H4; repeat constructor). destruct (Z.eqb_spec (NetOurSubnetMask (addrs n)) 0) as [E|E];
      learns; [by rewrite E|by rewrite (proj2 (Z.eqb_neq _ _) E)].
  - rewrite (address_read pre 3 data post) by (apply H4; repeat constructor). destruct (Z.eqb_spec (NetOurGatewayIP (addrs n)) 0) as [E|E];
      learns; [by rewrite E|by rewrite (proj2 (Z.eqb_neq _ _) E)].
  - rewrite (address_read pre 6 data post) by (apply H4; repeat constructor). destruct (Z.eqb_spec (NetOurDNSIP (bootp n)) 0) as [E|E];
      learns; [by rewrite E|by rewrite (proj2 (Z.eqb_neq _ _) E)].
  - destruct (copy_name_ok _ pre 12 data post 32 Hh) as (buf & -> & Hlen & Hstr); [lia|]. learns. by rewrite Hstr.
  - pose proof (size_read (set_bootp n (set_file_size (bootp n) 0)) pre data post Hb) as E. cbn [set_bootp bootp] in E. rewrite E. clear E.
    destruct data as [|? [|? [|? [|? [|]]]]]; learns; reflexivity.
  - destruct (copy_name_ok _ pre 17 data post 64 Hr) as (buf & -> & Hlen & Hstr); [lia|]. learns. by rewrite Hstr.
  - destruct (copy_name_ok _ pre 40 data post 32 Hd) as (buf & -> & Hlen & Hstr); [lia|]. learns. by rewrite Hstr.
  - learns. reflexivity.
Qed.

(** The loop reads the items one by one, up to the mark. *)
Lemma items_ok area : forall fuel n pre post end_, Forall item_ok area -> buffers n -> (length area < fuel)%nat ->
  Z.of_nat (length pre + length (items_bytes area)) < end_ ->
  exists n', vendor_loop fuel n (pre ++ items_bytes area ++ 255 :: post) (Z.of_nat (length pre)) end_ = Ok n' /\
    info_of n' = foldl learn_item (info_of n) area /\ buffers n' /\ learned n n'.
Proof.
  induction area as [|i area IH]; intros fuel n pre post end_ Hok Hb Hf He; (destruct fuel as [|fuel]; [simpl in Hf; lia|]); cbn [vendor_loop].
  - rewrite (proj2 (Z.ltb_lt _ _)) by lia. cbn [negb items_bytes map concat app]. cbv iota. rewrite Nat2Z.id, (read8 _ _ 255), bind_ok by (by apply list_lookup_middle).
    eexists. split; [reflexivity|]. split; [done|]. split; [done|apply learned_refl].
  - apply Forall_cons in Hok as [Hi Hok]. change (items_bytes (i :: area)) with (item_bytes i ++ items_bytes area) in *. rewrite length_app in He.
    cbn [length] in Hf. rewrite (proj2 (Z.ltb_lt _ _)) by lia. cbn [negb]. cbv iota. rewrite Nat2Z.id, <- (app_assoc (item_bytes i)).
    set (rest := items_bytes area ++ 255 :: post). destruct i as [[code data]|]; cbn [item_bytes] in *.
    + pose proof Hi as (Hc & Hl & _ & _). cbn [fst snd] in *. rewrite (read8 _ _ code), bind_ok
        by (rewrite <- (Nat.add_0_r (length pre)); by apply at_field).
      rewrite (proj2 (Z.eqb_neq _ 255)), (proj2 (Z.eqb_neq _ 0)) by lia. rewrite (read8 _ _ (Z.of_nat (length data))), bind_ok by (by apply at_field).
      assert (length (opt_bytes (code, data)) = S (S (length data))) as Ho by done. rewrite Ho in He. rewrite (proj2 (Z.leb_le _ _)) by lia.
      destruct (field_ok n pre (code, data) rest Hi Hb) as (n1 & -> & Hinf & Hb1 & Hl1). rewrite bind_ok.
      destruct (IH fuel n1 (pre ++ opt_bytes (code, data)) post end_) as (n2 & E & Hinf2 & Hb2 & Hl2); [done|done|lia|rewrite length_app; lia|].
      rewrite <- app_assoc, length_app, Ho in E. replace (Z.of_nat (length pre) + (Z.of_nat (length data) + 2)) with (Z.of_nat (length pre + S (S (length data)))) by lia.
      exists n2. cbn [foldl learn_item]. rewrite <- Hinf. by pose proof (learned_trans _ _ _ Hl1 Hl2).
    + rewrite (read8 _ _ 0), bind_ok by (by apply list_lookup_middle). cbn [Z.eqb]. destruct (IH fuel n (pre ++ [0]) post end_) as (n2 & E & Hinf2 & Hb2 & Hl2);
        [done|done|lia|rewrite length_app; cbn [length] in *; lia|].
      rewrite <- app_assoc, length_app in E. cbn [length] in E. replace (Z.of_nat (length pre) + 1) with (Z.of_nat (length pre + 1)) by lia. by exists n2.
Qed.

(** ** The reply *)

Record reply := {
  r_hops : Z; r_secs : list Z; r_ciaddr : Z; r_yiaddr : Z; r_siaddr : Z; r_giaddr : Z; r_chaddr : list Z; r_sname : list Z; r_file : list Z;
  r_area : list (option (Z * list Z)); r_pad : list Z
}.
Record reply_ok (r : reply) : Prop := {
  ro_secs : length (r_secs r) = 4%nat;
  ro_yiaddr : 0 <= r_yiaddr r < 2 ^ 32;
  ro_siaddr : 0 <= r_siaddr r < 2 ^ 32;
  ro_chaddr : length (r_chaddr r) = 16%nat;
  ro_sname : length (r_sname r) = 64%nat;
  ro_file : (length (r_file r) < 128)%nat;
  ro_name : 0 ∉ r_file r;
  ro_area : Forall item_ok (r_area r);
  ro_short : (length (items_bytes (r_area r)) + length (r_pad r) < 1000)%nat
}.
(** The transaction is given by its four bytes. *)
Definition reply_head (id : list Z) (r : reply) : list Z :=
  [OP_BOOTREPLY; HWT_ETHER; HWL_ETHER; r_hops r] ++ id ++ r_secs r ++ le32 (r_ciaddr r) ++ le32 (r_yiaddr r) ++ le32 (r_siaddr r) ++ le32 (r_giaddr r)
  ++ r_chaddr r ++ r_sname r.
Definition reply_bytes (id : list Z) (r : reply) : list Z :=
  reply_head id r ++ (r_file r ++ replicate (128 - length (r_file r)) 0) ++ [99; 130; 83; 99] ++ items_bytes (r_area r) ++ 255 :: r_pad r.

Lemma head_length id r : reply_ok r -> length id = 4%nat -> length (reply_head id r) = bp_file.
Proof. intros [] Hi. unfold reply_head. rewrite !length_app, Hi, ro_secs0, ro_chaddr0, ro_sname0. reflexivity. Qed.
Lemma reply_length id r : reply_ok r -> length id = 4%nat ->
  length (reply_bytes id r) = (241 + length (items_bytes (r_area r)) + length (r_pad r))%nat.
Proof.
  intros Hr Hi. unfold reply_bytes. rewrite !length_app, (head_length id r Hr Hi), length_replicate. destruct Hr. cbn [length]. unfold bp_file. lia.
Qed.

Definition no_quote (l : list Z) : Prop := Forall (fun c => c <> 0x22) l.
Lemma name_loop_clean src : forall size, no_quote (name_loop size src).
Proof.
  induction src as [|c src IH]; intros size; [constructor|]. cbn [name_loop]. destruct (Z.eqb_spec c 0x22); [rewrite andb_false_r; constructor|].
  destruct (0 <? size - 1); cbn [andb negb]; [constructor; [done|apply IH]|constructor].
Qed.
Lemma name_loop_same src : forall size, no_quote src -> Z.of_nat (length src) < size -> name_loop size src = src.
Proof.
  induction src as [|c src IH]; intros size Hq Hl; [done|]. apply Forall_cons in Hq as [Hc Hq]. cbn [length] in Hl. cbn [name_loop].
  rewrite (proj2 (Z.ltb_lt _ _)), (proj2 (Z.eqb_neq _ _)) by (done || lia). cbn [andb negb]. f_equal. apply IH; [done|lia].
Qed.
(** What was copied is copied unchanged, so the callback of [bootfile] changes nothing. *)
Lemma copy_filename_twice src : copy_filename (copy_filename src 128) 128 = copy_filename src 128.
Proof.
  assert (no_quote (copy_filename src 128)) as Hq by (unfold copy_filename; destruct (_ =? _); apply name_loop_clean).
  pose proof (copy_filename_length src) as Hl. set (f := copy_filename src 128) in *. clearbody f. unfold copy_filename.
  destruct f as [|c f]; [done|]. unfold cur. apply Forall_cons in Hq as Hc. rewrite (proj2 (Z.eqb_neq _ _)) by apply Hc. apply name_loop_same; [done|lia].
Qed.

(** The state with the addresses, the name of the server and the file of a reply. *)
Definition new_file (n : net) (r : reply) : list Z := match r_file r with [] => BootFile n | f => copy_filename f 128 end.
Definition file_var (f : list Z) : list (list Z * list Z) := match f with [] => [] | _ => [(cstr "bootfile", f)] end.
Definition with_vars (b : bootp_state) (l : list (list Z * list Z)) : bootp_state := foldl (fun b x => setenv b (fst x) (snd x)) b l.
Definition copied (n : net) (src : list Z) (r : reply) : net :=
  let server := if r_siaddr r =? 0 then NetServerIP (addrs n) else r_siaddr r in
  set_bootfile (set_bootp (set_server (set_ips n (r_yiaddr r) (NetOurGatewayIP (addrs n)) (NetOurSubnetMask (addrs n)) server) src)
    (with_vars (bootp n) (file_var (new_file n r)))) (new_file n r).

Lemma c_string_all (l r : list Z) : 0 ∉ l -> c_string (l ++ 0 :: r) = l.
Proof.
  rewrite c_string_cut. induction l as [|x l IH]; intros H; [done|]. cbn [c_string]. apply not_elem_of_cons in H as [Hx H].
  rewrite (proj2 (Z.eqb_neq _ _)) by done. by rewrite IH.
Qed.

Lemma params_copied n frame src id r rest : reply_ok r -> length id = 4%nat -> length src = 6%nat -> get_bytes frame 6 6 = Ok src ->
  copy_filename (BootFile n) 128 = BootFile n ->
  BootpCopyNetParams n frame (reply_bytes id r ++ rest) = Ok (copied n src r).
Proof.
  intros Hr Hi Hs Hsrc Hbf. unfold BootpCopyNetParams. pose proof (head_length id r Hr Hi) as Hh. destruct Hr.
  assert (exists tl, reply_bytes id r ++ rest = reply_head id r ++ r_file r ++ 0 :: tl) as (tl & ->).
  { unfold reply_bytes. destruct (128 - length (r_file r))%nat as [|k] eqn:E; [lia|]. cbn [replicate]. eexists. rewrite <- !app_assoc. cbn [app]. reflexivity. }
  set (P := reply_head id r ++ r_file r ++ 0 :: tl).
  rewrite (readIP P ([OP_BOOTREPLY; HWT_ETHER; HWL_ETHER; r_hops r] ++ id ++ r_secs r ++ le32 (r_ciaddr r) ++ le32 (r_yiaddr r))
    (le32 (r_giaddr r) ++ r_chaddr r ++ r_sname r ++ r_file r ++ 0 :: tl) (r_siaddr r) bp_siaddr);
    [|by unfold P, reply_head; rewrite <- !app_assoc|by rewrite !length_app, Hi, ro_secs0|done].
  rewrite bind_ok, Hsrc, bind_ok.
  rewrite (readIP P ([OP_BOOTREPLY; HWT_ETHER; HWL_ETHER; r_hops r] ++ id ++ r_secs r ++ le32 (r_ciaddr r))
    (le32 (r_siaddr r) ++ le32 (r_giaddr r) ++ r_chaddr r ++ r_sname r ++ r_file r ++ 0 :: tl) (r_yiaddr r) bp_yiaddr);
    [|by unfold P, reply_head; rewrite <- !app_assoc|by rewrite !length_app, Hi, ro_secs0|done].
  rewrite bind_ok. assert (string_at P bp_file = Ok (r_file r)) as ->.
  { unfold string_at, P. rewrite <- Hh, drop_app_length, bool_decide_eq_true_2 by (apply elem_of_app; right; constructor). by rewrite c_string_all. }
  rewrite bind_ok.
  assert (forall m f, BootFile (set_bootfile m f) = f) as Hset by done.
  unfold copied, new_file. destruct (r_file r) as [|c0 f0] eqn:Ef; cbn [length]; cbv zeta.
  - rewrite bool_decide_eq_false_2 by lia. destruct (Z.eqb_spec (r_siaddr r) 0); cbn [negb]; cbn [BootFile set_our set_ips set_addrs set_server set_server_ip];
      destruct (BootFile n) as [|c f] eqn:Eb; cbn [file_var with_vars foldl fst snd]; rewrite ?Hbf; reflexivity || (destruct n as [[] ? ? ? ? ? ? ? ? ? ? ?]; cbn in Eb; subst; reflexivity).
  - rewrite bool_decide_eq_true_2 by lia. rewrite Hset. destruct (Z.eqb_spec (r_siaddr r) 0); cbn [negb];
      destruct (copy_filename (c0 :: f0) 128) as [|c f] eqn:Eb; cbn [file_var with_vars foldl fst snd]; rewrite <- ?Eb, ?copy_filename_twice; reflexivity.
Qed.

Lemma check_passed n r rest len : reply_ok r -> 0 <= BootpID (bootp n) < 2 ^ 32 -> 236 <= len ->
  BootpCheckPkt n (reply_bytes (le32 (BootpID (bootp n))) r ++ rest) PORT_BOOTPC PORT_BOOTPS len = Ok 0.
Proof.
  intros Hr Hid Hlen. unfold BootpCheckPkt. rewrite !Z.eqb_refl. cbn [negb orb]. cbv iota. rewrite (proj2 (Z.ltb_ge _ _)) by exact Hlen.
  set (P := reply_bytes _ r ++ rest).
  rewrite (read8 P bp_op OP_BOOTREPLY), bind_ok, bool_decide_eq_false_2 by (reflexivity || (intros H; apply H; repeat constructor)).
  rewrite (read8 P bp_htype HWT_ETHER), bind_ok, (read8 P bp_hlen HWL_ETHER) by reflexivity. cbn [Z.eqb negb HWT_ETHER Pos.eqb]. cbv iota. rewrite bind_ok, Z.eqb_refl.
  cbn [negb]. cbv iota. rewrite (readIP P [OP_BOOTREPLY; HWT_ETHER; HWL_ETHER; r_hops r] (drop 8 P) (BootpID (bootp n)) bp_id) by (reflexivity || done).
  by rewrite bind_ok, Z.eqb_refl.
Qed.

Lemma with_vars_same b l :
  let b' := with_vars b l in
  BootpID b' = BootpID b /\ BootpTry b' = BootpTry b /\ NetOurDNSIP b' = NetOurDNSIP b /\ NetOurNISDomain b' = NetOurNISDomain b /\
  NetOurHostName b' = NetOurHostName b /\ NetOurRootPath b' = NetOurRootPath b /\ NetBootFileSize b' = NetBootFileSize b /\
  env_sets b' = env_sets b ++ l.
Proof.
  revert b. induction l as [|[name v] l IH]; intros b; cbv zeta; [by rewrite app_nil_r|]. unfold with_vars in *. cbn [foldl fst snd].
  specialize (IH (setenv b name v)). cbv zeta in IH. destruct IH as (-> & -> & -> & -> & -> & -> & -> & ->). cbn. by rewrite <- app_assoc.
Qed.

Lemma copied_info n src r : info_of (copied n src r) = info_of n.
Proof.
  unfold info_of, copied. cbn [addrs bootp set_bootfile set_bootp set_server set_ips set_addrs NetOurSubnetMask NetOurGatewayIP].
  destruct (with_vars_same (bootp n) (file_var (new_file n r))) as (_ & _ & -> & -> & -> & -> & -> & _). done.
Qed.
Lemma copied_buffers n src r : buffers n -> buffers (copied n src r).
Proof.
  intros []. destruct (with_vars_same (bootp n) (file_var (new_file n r))) as (_ & _ & _ & E1 & E2 & E3 & _). split; cbn [copied set_bootfile set_bootp bootp];
    by rewrite ?E1, ?E2, ?E3.
Qed.

Lemma items_short area : (length area <= length (items_bytes area))%nat.
Proof.
  induction area as [|i area IH]; [done|]. change (items_bytes (i :: area)) with (item_bytes i ++ items_bytes area). rewrite length_app. cbn [length].
  assert (1 <= length (item_bytes i))%nat by (destruct i as [[code data]|]; cbn; lia). lia.
Qed.

(** A reply to our request: its addresses, its file and its vendor area are taken over, and the timer is stopped.  The length that is given
    has only to be long enough. *)
Lemma reply_handled getenv dev_init NfsStart n frame src r rest len :
  reply_ok r -> 236 <= Z.of_nat len < 2 ^ 31 -> (length (items_bytes (r_area r)) < len)%nat -> buffers n -> 0 <= BootpID (bootp n) < 2 ^ 32 -> length src = 6%nat -> get_bytes frame 6 6 = Ok src -> copy_filename (BootFile n) 128 = BootFile n ->
  let pkt := reply_bytes (le32 (BootpID (bootp n))) r in
  exists n', BootpHandler getenv dev_init NfsStart n frame (pkt ++ rest) PORT_BOOTPC PORT_BOOTPS (Z.of_nat len) =
      net_auto_load getenv dev_init NfsStart (NetSetTimeout n' 0 time_BootpTimeout) /\
    info_of n' = foldl learn_item (info_of n) (r_area r) /\ buffers n' /\ learned (copied n src r) n'.
Proof.
  intros Hr Hlen Hitems Hb Hid Hs Hsrc Hbf pkt.
  pose proof (items_short (r_area r)) as Hshort. unfold BootpHandler. subst pkt.
  rewrite check_passed by (done || lia). rewrite bind_ok. cbn [Z.eqb negb]. rewrite (params_copied n frame src _ r rest) by done. rewrite bind_ok.
  assert (exists pre, reply_bytes (le32 (BootpID (bootp n))) r ++ rest = (pre ++ [99; 130; 83; 99]) ++ items_bytes (r_area r) ++ 255 :: (r_pad r ++ rest) /\
    length pre = bp_vend) as (pre & -> & Hpre).
  { exists (reply_head (le32 (BootpID (bootp n))) r ++ r_file r ++ replicate (128 - length (r_file r)) 0). split.
    - unfold reply_bytes. rewrite <- !app_assoc. reflexivity.
    - rewrite !length_app, length_replicate, (head_length _ r Hr) by done. destruct Hr. unfold bp_file, bp_vend. lia. }
  set (P := (pre ++ [99; 130; 83; 99]) ++ _). assert (NetReadIP P bp_vend = Ok (swab32 BOOTP_VENDOR_MAGIC)) as ->.
  { unfold NetReadIP, P. rewrite (readN _ pre [99; 130; 83; 99] (items_bytes (r_area r) ++ 255 :: r_pad r ++ rest)) by (done || by rewrite <- app_assoc). reflexivity. }
  rewrite bind_ok, Z.eqb_refl. unfold BootpVendorProcess. destruct Hr. rewrite swrap_small by (change (32 - 1) with 31; lia). rewrite Nat2Z.id.
  destruct (items_ok (r_area r) len (copied n src r) (pre ++ [99; 130; 83; 99]) (r_pad r ++ rest)
    (Z.of_nat (bp_vend + 4) + Z.of_nat len)) as (n' & E & Hinf & Hb' & Hlrn);
    [done|by apply copied_buffers|lia|rewrite length_app, Hpre; cbn [length]; lia|].
  rewrite length_app, Hpre in E. cbn [length] in E. unfold P. rewrite E, bind_ok. exists n'. by rewrite Hinf, copied_info.
Qed.

(** ** The variables *)

Definition ip_ok (x : Z) : Prop := 0 <= x < 2 ^ 32.
Definition dotted (x : Z) : list Z := match ip_to_string x with Ok s => s | _ => [] end.
Definition ip_var (name : string) (x : Z) : list (list Z * list Z) := if x =? 0 then [] else [(cstr name, dotted x)].
Definition name_var (name : string) (s : list Z) : list (list Z * list Z) := match s with [] => [] | _ => [(cstr name, s)] end.
(** In the order in which they are set. *)
Definition vars_of (x : info) (our server : Z) : list (list Z * list Z) :=
  ip_var "gatewayip" (i_gateway x) ++ ip_var "netmask" (i_mask x) ++ name_var "hostname" (i_host x) ++ name_var "rootpath" (i_root x)
  ++ ip_var "ipaddr" our ++ ip_var "serverip" server ++ ip_var "dnsip" (i_dns x) ++ name_var "domain" (i_domain x).

Lemma dotted_ok x : ip_ok x -> ip_to_string x = Ok (dotted x) /\ string_to_ip (Some (dotted x)) = x.
Proof. intros Hx. destruct (ip_string_ok x Hx) as (s & E & Es). unfold dotted. by rewrite E. Qed.

Definition more_vars (n : net) (l : list (list Z * list Z)) : net := set_bootp n (with_vars (bootp n) l).
Lemma more_vars_nil n : more_vars n [] = n.
Proof. by destruct n. Qed.
Lemma more_vars_app n l l' : more_vars (more_vars n l) l' = more_vars n (l ++ l').
Proof. unfold more_vars. cbn [set_bootp bootp]. unfold with_vars. by rewrite foldl_app. Qed.
Lemma more_vars_bootp n l :
  NetOurDNSIP (bootp (more_vars n l)) = NetOurDNSIP (bootp n) /\ NetOurHostName (bootp (more_vars n l)) = NetOurHostName (bootp n) /\
  NetOurRootPath (bootp (more_vars n l)) = NetOurRootPath (bootp n) /\ NetOurNISDomain (bootp (more_vars n l)) = NetOurNISDomain (bootp n).
Proof. unfold more_vars. cbn [bootp set_bootp]. destruct (with_vars_same (bootp n) l) as (_ & _ & -> & -> & -> & -> & _). done. Qed.

Lemma ip_var_set name ip n : ip_ok ip -> set_ip_var name ip n = Ok (more_vars n (ip_var name ip)).
Proof.
  intros Hip. unfold set_ip_var, ip_var. destruct (ip =? 0); [by rewrite more_vars_nil|]. destruct (dotted_ok ip Hip) as [-> _]. by rewrite bind_ok.
Qed.
Lemma name_var_set name buf n : set_name_var name buf n = more_vars n (name_var name (c_string buf)).
Proof.
  unfold set_name_var. destruct buf as [|c buf]; [by rewrite more_vars_nil|]. cbn [nth c_string].
  destruct (c =? 0); [by rewrite more_vars_nil|done].
Qed.
Lemma more_vars_info n l : info_of (more_vars n l) = info_of n.
Proof.
  unfold info_of, more_vars. cbn [addrs bootp set_bootp]. destruct (with_vars_same (bootp n) l) as (_ & _ & -> & -> & -> & -> & -> & _). done.
Qed.

Lemma env_updated n : ip_ok (i_gateway (info_of n)) -> ip_ok (i_mask (info_of n)) -> ip_ok (i_dns (info_of n)) ->
  ip_ok (NetOurIP (addrs n)) -> ip_ok (NetServerIP (addrs n)) ->
  netboot_update_env n = Ok (more_vars n (vars_of (info_of n) (NetOurIP (addrs n)) (NetServerIP (addrs n)))).
Proof.
  intros Hg Hm Hd Ho Hs. unfold netboot_update_env. pose proof (more_vars_bootp n) as H.
  assert (forall l, addrs (more_vars n l) = addrs n) as Ha by done.
  rewrite ip_var_set, bind_ok, Ha by done. rewrite ip_var_set, bind_ok, more_vars_app by done. cbv zeta.
  destruct (H (ip_var "gatewayip" (NetOurGatewayIP (addrs n)) ++ ip_var "netmask" (NetOurSubnetMask (addrs n)))) as (_ & -> & _).
  rewrite (name_var_set "hostname"), more_vars_app. match goal with |- context [NetOurRootPath (bootp (more_vars n ?l))] => destruct (H l) as (_ & _ & -> & _) end.
  rewrite (name_var_set "rootpath"), more_vars_app, Ha, ip_var_set, bind_ok, more_vars_app, Ha by done. rewrite ip_var_set, bind_ok, more_vars_app by done.
  match goal with |- context [NetOurDNSIP (bootp (more_vars n ?l))] => destruct (H l) as (-> & _) end.
  rewrite ip_var_set, bind_ok, more_vars_app by done.
  match goal with |- context [NetOurNISDomain (bootp (more_vars n ?l))] => destruct (H l) as (_ & _ & _ & ->) end.
  rewrite name_var_set, more_vars_app. unfold vars_of. by rewrite <- !app_assoc.
Qed.

(** ** The exchange *)

Record ips_ok (x : info) : Prop := { io_mask : ip_ok (i_mask x); io_gateway : ip_ok (i_gateway x); io_dns : ip_ok (i_dns x) }.

Lemma first_ip_ok old data : ip_ok old -> (4 <= length data)%nat -> byte_list data -> ip_ok (first_ip old data).
Proof.
  intros Ho Hl Hb. unfold first_ip. destruct (old =? 0); [|done]. destruct data as [|a [|b [|c [|d data]]]]; simpl in Hl; try lia.
  unfold byte_list in Hb. rewrite !Forall_cons in Hb. unfold ip_ok, of_le32. cbn [take foldr]; change (take 0 data) with (@nil Z); cbn [foldr]; lia.
Qed.
Lemma learn_ips_ok x i : item_ok i -> ips_ok x -> ips_ok (learn_item x i).
Proof.
  destruct i as [[code data]|]; [|done]. intros (_ & _ & Hb & H4) []. cbn [fst snd] in *.
  split; cbn; (match goal with |- context [code =? ?c] => destruct (Z.eqb_spec code c) as [->|] end; [|done]); (apply first_ip_ok; [done|apply H4; repeat constructor|done]).
Qed.
Lemma items_ips_ok area : forall x, Forall item_ok area -> ips_ok x -> ips_ok (foldl learn_item x area).
Proof.
  induction area as [|i area IH]; intros x Ha Hx; [done|]. apply Forall_cons in Ha as [Hi Ha]. apply IH; [done|]. by apply learn_ips_ok.
Qed.

(** The board as it starts to ask. *)
Definition asking (n : net) : net := set_our (set_bootp n (set_boot_try (bootp n) 0)) 0.
Record can_ask (n : net) : Prop := {
  ca_send : can_send n;
  ca_buffers : buffers n;
  ca_file : copy_filename (BootFile n) 128 = BootFile n;
  ca_arp : NetArpWaitPacketIP (arp n) = 0;
  ca_ips : ips_ok (info_of n);
  ca_server : ip_ok (NetServerIP (addrs n))
}.

Lemma asked_id n : length (NetOurEther (addrs n)) = 6%nat -> take 4 (drop 46 (request_frame n)) = le32 (id_of (NetOurEther (addrs n)) (clock n)).
Proof.
  intros Ho. unfold request_frame, wire_header, any_header. set (id := id_of _ _). clearbody id. generalize (ip_sum (NetIPID n) (NetOurIP (addrs n)) 4294967295 241). intros sum.
  set (ether := NetOurEther (addrs n)) in *. clearbody ether. explode 6 ether. reflexivity.
Qed.

Lemma eth_halt_same n : addrs (eth_halt n) = addrs n /\ bootp (eth_halt n) = bootp n /\ BootFile (eth_halt n) = BootFile n.
Proof. unfold eth_halt. by destruct (decide _). Qed.

Section Exchange.
Context (getenv : list Z -> option (list Z)) (dev_init : nat -> bool) (NfsStart : net -> res net) (enetaddr : nat -> list Z).
Hypothesis (Hload : getenv_yesno getenv (cstr "autoload") = 0) (Hnfs : getenv (cstr "autoload") <> Some (cstr "NFS")).

(** The end of a turn after which the loop has succeeded. *)
Lemma turn_succeeds protocol n i n' :
  receive_all getenv dev_init NfsStart (set_clock n (t_rx i)) (rx i) = Ok n' -> ctrlc i = false -> NetArpWaitPacketIP (arp n') = 0 ->
  timeHandler (tmo n') = None -> net_state (prog n') = NETLOOP_SUCCESS ->
  net_turn getenv dev_init NfsStart enetaddr protocol n i =
    Ok (eth_halt (net_clear_handlers (set_clock (set_clock n' (t_arp i)) (t_time i))), Some (s32 (NetBootFileXferSize (client n')))).
Proof.
  intros E Hc Ha Ht Hs. unfold net_turn. rewrite E, bind_ok, Hc. unfold ArpTimeoutCheck. cbn [arp set_clock]. rewrite Ha, Z.eqb_refl, bind_ok.
  unfold check_timeout. cbn [tmo set_clock prog]. rewrite Ht, bind_ok. cbn [prog set_clock]. by rewrite Hs.
Qed.

(** A frame with a reply, which may lack its end. *)
Lemma reply_received n dst src ipid ip dest r rest payload tail :
  can_ask n -> NetOurIP (addrs n) = 0 -> udp_packet_handler n = udp_BootpHandler -> ip_ok (BootpID (bootp n)) -> reply_ok r ->
  length dst = 6%nat -> length src = 6%nat -> ip_ok ip -> ip_ok dest ->
  payload ++ tail = reply_bytes (le32 (BootpID (bootp n))) r ++ rest -> (240 <= length payload < 2000)%nat ->
  (length (items_bytes (r_area r)) < length payload)%nat ->
  let frame := wire_header dst src ipid ip dest PORT_BOOTPC PORT_BOOTPS (Z.of_nat (length payload)) ++ payload in
  exists n', NetReceive getenv dev_init NfsStart n (frame ++ tail) (Z.of_nat (length frame)) =
      Ok (net_set_state (NetSetTimeout n' 0 time_BootpTimeout) NETLOOP_SUCCESS) /\
    info_of n' = foldl learn_item (info_of n) (r_area r) /\ learned (copied n src r) n'.
Proof using Hload Hnfs.
  intros [[Hv Ho Ht Hd] Hb Hbf Harp _ _] Hour Hh Hid Hr Hdl Hsl Hip Hdest Epay Hl Hitems frame. subst frame.
  rewrite receive_ok; [|done..|unfold PORT_BOOTPC; lia|unfold PORT_BOOTPS; lia|lia|by left]. unfold udp_input. rewrite Hh, Epay.
  assert (forall h p rest, length h = 42%nat -> take 6 (drop 6 h) = src -> get_bytes ((h ++ p) ++ rest) 6 6 = Ok src) as Hg.
  { intros h p rest' Hlen Hsrc. unfold get_bytes. rewrite decide_True by (rewrite !length_app; lia).
    rewrite <- app_assoc, drop_app_le, take_app_le, Hsrc by (rewrite ?length_drop; lia). done. }
  destruct (reply_handled getenv dev_init NfsStart n
    ((wire_header dst src ipid ip dest PORT_BOOTPC PORT_BOOTPS (Z.of_nat (length payload)) ++ payload) ++ tail) src r rest (length payload))
    as (n1 & E & Hinf & _ & Hlrn); try done; [lia| |].
  { apply Hg; unfold wire_header, any_header; [by rewrite !length_app, Hdl, Hsl|]. rewrite drop_app_length', take_app_length' by done. done. }
  exists n1. rewrite E. unfold net_auto_load. rewrite bool_decide_eq_false_2, Hload, Z.eqb_refl by done. done.
Qed.

(** A reply in a turn of the loop ends it. *)
Lemma reply_turn n dst src ipid ip dest r rest i :
  can_ask n -> NetOurIP (addrs n) = 0 -> udp_packet_handler n = udp_BootpHandler -> ip_ok (BootpID (bootp n)) -> reply_ok r ->
  length dst = 6%nat -> length src = 6%nat -> ip_ok ip -> ip_ok dest ->
  let pkt := reply_bytes (le32 (BootpID (bootp n))) r in
  let frame := wire_header dst src ipid ip dest PORT_BOOTPC PORT_BOOTPS (Z.of_nat (length pkt)) ++ pkt in
  rx i = [(frame ++ rest, Z.of_nat (length frame))] -> ctrlc i = false ->
  exists n', net_turn getenv dev_init NfsStart enetaddr BOOTP n i = Ok (n', Some (s32 (NetBootFileXferSize (client n)))) /\
    info_of n' = foldl learn_item (info_of n) (r_area r) /\ NetOurIP (addrs n') = r_yiaddr r /\
    NetServerIP (addrs n') = (if r_siaddr r =? 0 then NetServerIP (addrs n) else r_siaddr r) /\ BootFile n' = new_file n r /\
    env_sets (bootp n') = env_sets (bootp n) ++ file_var (new_file n r).
Proof.
  intros Hcan Hour Hh Hid Hr Hdl Hsl Hip Hdest pkt frame Hrx Hc. set (n0 := set_clock n (t_rx i)).
  assert (can_ask n0) as Hcan0 by (destruct Hcan as [[] [] ? ? [] ?]; split; done || by split).
  pose proof (reply_length (le32 (BootpID (bootp n))) r Hr eq_refl) as Hl. fold pkt in Hl. pose proof (ro_short r Hr) as Hs.
  destruct (reply_received n0 dst src ipid ip dest r rest pkt rest) as (n1 & E & Hinf & Hlrn); try done; [lia..|].
  fold frame in E.
  assert (receive_all getenv dev_init NfsStart n0 (rx i) = Ok (net_set_state (NetSetTimeout n1 0 time_BootpTimeout) NETLOOP_SUCCESS)) as Erx
    by (rewrite Hrx; cbn [receive_all]; by rewrite E).
  clear E Hrx Hl. clearbody pkt frame. destruct Hlrn as (g & m & b & -> & _ & _ & Henv).
  eexists. split; [apply (turn_succeeds BOOTP n i _ Erx Hc); try done; apply Hcan|].
  match goal with |- context [eth_halt ?x] => destruct (eth_halt_same x) as (Ea & Eb & Ef) end. unfold info_of at 1. rewrite Ea, Eb, Ef.
  change (info_of n0) with (info_of n) in Hinf. split; [rewrite <- Hinf; reflexivity|]. split; [reflexivity|]. split; [reflexivity|]. split; [reflexivity|].
  cbn [bootp net_clear_handlers net_set_udp_handler set_handler set_tmo set_clock net_set_state set_prog set_bootp NetSetTimeout Z.eqb]. rewrite Henv.
  cbn [copied bootp set_bootfile set_bootp]. by destruct (with_vars_same (bootp n0) (file_var (new_file n0 r))) as (_ & _ & _ & _ & _ & _ & _ & ->).
Qed.
End Exchange.

(** C12: a BOOTP exchange.  The request that starts the protocol is broadcast: 283 bytes with our Ethernet address, the name of the boot file and a
    transaction number.  A server answers it with the four bytes of that number, addresses, perhaps a file name and a vendor area of
    options and padding, in a frame to any address.  With [autoload] off, the turn of the loop that receives the frame ends it: our address and that of
    the server are those of the reply, the boot file is the one named (or stays), and mask, gateway, name server, host name, root path and domain are
    what the options say, names cut to their buffers; a value that is known already, from before or from an earlier option, stays.  The file size is that of option 13 only when this option
    is the last one: every other option sets it to 0.  The command then sets exactly the variables of what is known, in this order, and the text
    of our address reads back as the address. *)
Theorem bootp_configures getenv dev_init NfsStart enetaddr n dst src ipid ip dest r rest i :
  getenv_yesno getenv (cstr "autoload") = 0 -> getenv (cstr "autoload") <> Some (cstr "NFS") ->
  can_ask n -> NetBootFileXferSize (client n) = 0 -> reply_ok r -> length dst = 6%nat -> length src = 6%nat -> ip_ok ip -> ip_ok dest ->
  let request := request_frame (asking n) in
  let pkt := reply_bytes (take 4 (drop 46 request)) r in
  let frame := wire_header dst src ipid ip dest PORT_BOOTPC PORT_BOOTPS (Z.of_nat (length pkt)) ++ pkt in
  let x := foldl learn_item (info_of n) (r_area r) in
  let server := if r_siaddr r =? 0 then NetServerIP (addrs n) else r_siaddr r in
  rx i = [(frame ++ rest, Z.of_nat (length frame))] -> ctrlc i = false ->
  exists n1 n2 n3,
    start_protocol getenv dev_init NfsStart n BOOTP = Ok n1 /\ eth_log (eth n1) = eth_log (eth n) ++ [EthSend request] /\
    net_turn getenv dev_init NfsStart enetaddr BOOTP n1 i = Ok (n2, Some 0) /\ netboot_update_env n2 = Ok n3 /\
    NetOurIP (addrs n3) = r_yiaddr r /\ NetServerIP (addrs n3) = server /\ BootFile n3 = new_file n r /\ info_of n3 = x /\
    env_sets (bootp n3) = env_sets (bootp n) ++ file_var (new_file n r) ++ vars_of x (r_yiaddr r) server /\
    string_to_ip (Some (dotted (r_yiaddr r))) = r_yiaddr r.
Proof.
  intros Hload Hnfs Hcan Hxfer Hr Hdl Hsl Hip Hdest request pkt frame x server Hrx Hc.
  pose proof (ca_send n Hcan) as [Hv Ho Ht Hd]. assert (can_send (asking n)) as Hcs by (by split).
  destruct (bootp_request_sent (asking n) Hcs) as (p & E & Hp); [done|]. set (n1 := requested (asking n) p) in *.
  assert (can_ask n1) as Hcan1 by (destruct Hcan as [_ [] ? ? [] ?]; split; done || by split).
  assert (pkt = reply_bytes (le32 (BootpID (bootp n1))) r) as Epkt by (subst pkt request; by rewrite asked_id).
  subst frame. rewrite Epkt in Hrx.
  destruct (reply_turn getenv dev_init NfsStart enetaddr Hload Hnfs n1 dst src ipid ip dest r rest i) as (n2 & Et & Hinf & Hour & Hserver & Hfile & Henv);
    try done; [apply swab32_range|].
  change (info_of n1) with (info_of n) in Hinf. change (NetServerIP (addrs n1)) with (NetServerIP (addrs n)) in Hserver.
  destruct (items_ips_ok (r_area r) (info_of n) (ro_area r Hr) (ca_ips n Hcan)) as [Hm Hg Hdns]. rewrite <- Hinf in Hm, Hg, Hdns.
  assert (ip_ok server) as Hso by (subst server; destruct (_ =? _); [apply Hcan|apply Hr]).
  exists n1, n2. eexists. split; [exact E|]. split; [done|]. change (NetBootFileXferSize (client n1)) with (NetBootFileXferSize (client n)) in Et. rewrite Hxfer in Et.
  split; [exact Et|]. rewrite env_updated by (rewrite ?Hour, ?Hserver; done || apply Hr). split; [reflexivity|]. rewrite Hinf, Hour, Hserver.
  split; [done|]. split; [done|]. split; [done|]. split; [|split; [|by apply dotted_ok, Hr]].
  - unfold x. rewrite <- Hinf. unfold info_of, more_vars. cbn [addrs bootp set_bootp].
    match goal with |- context [with_vars ?b ?l] => destruct (with_vars_same b l) as (_ & _ & -> & -> & -> & -> & -> & _) end. done.
  - cbn [more_vars bootp set_bootp]. match goal with |- context [with_vars ?b ?l] => destruct (with_vars_same b l) as (_ & _ & _ & _ & _ & _ & _ & ->) end.
    rewrite Henv. by rewrite <- app_assoc.
Qed.


(** A board without an address, and a server. *)
Definition no_autoload (v : list Z) : option (list Z) := if bool_decide (v = cstr "autoload") then Some (cstr "no") else None.
Definition new_board : net := machine 0 0 NetEtherNullAddr dummy_handler (idle_client STATE_SEND_RRQ 512 0x20000000).
Definition offer : reply :=
  {| r_hops := 0; r_secs := [0; 0; 0; 0]; r_ciaddr := 0; r_yiaddr := 0x0200A8C0; r_siaddr := 0x0100A8C0; r_giaddr := 0; r_chaddr := replicate 16 0;
     r_sname := replicate 64 0; r_file := cstr "zImage"; r_area := [Some (1, [255; 255; 0; 0]); None; Some (3, [192; 168; 0; 1]); Some (12, cstr "board")];
     r_pad := replicate 20 0 |}.
Definition offers : turn :=
  let pkt := reply_bytes (take 4 (drop 46 (request_frame (asking new_board)))) offer in
  let frame := wire_header NetBcastAddr [2; 0; 0; 0; 0; 1] 1 0x0100A8C0 0xFFFFFFFF PORT_BOOTPC PORT_BOOTPS (Z.of_nat (length pkt)) ++ pkt in
  {| rx := [(frame ++ [1; 2; 3], Z.of_nat (length frame))]; ctrlc := false; t_rx := 40; t_arp := 41; t_time := 41; env_changed := false |}.

Lemma can_ask_new : can_ask new_board.
Proof. by split. Qed.
Lemma offer_ok : reply_ok offer.
Proof.
  split; try done; [cbn; lia|by apply (bool_decide_eq_true_1 (0 ∉ _))| |apply Nat.ltb_lt; reflexivity].
  cbn. rewrite !Forall_cons. unfold opt_ok, byte_list. cbn. rewrite ?Forall_cons. repeat split; cbn; try lia; repeat (constructor || by vm_compute).
Qed.

Lemma bootp_configures_witness :
  exists n1 n2 n3,
    start_protocol no_autoload (fun _ => true) Ok new_board BOOTP = Ok n1 /\
    net_turn no_autoload (fun _ => true) Ok (fun _ => []) BOOTP n1 offers = Ok (n2, Some 0) /\ netboot_update_env n2 = Ok n3 /\
    env_sets (bootp n3) =
      [(cstr "bootfile", cstr "zImage"); (cstr "gatewayip", cstr "192.168.0.1"); (cstr "netmask", cstr "255.255.255.0");
       (cstr "hostname", cstr "board"); (cstr "ipaddr", cstr "192.168.0.2"); (cstr "serverip", cstr "192.168.0.1")].
Proof.
  destruct (bootp_configures no_autoload (fun _ => true) Ok (fun _ => []) new_board NetBcastAddr [2; 0; 0; 0; 0; 1] 1 0x0100A8C0 0xFFFFFFFF offer [1; 2; 3] offers)
    as (n1 & n2 & n3 & E1 & _ & E2 & E3 & _ & _ & _ & _ & Henv & _);
    [reflexivity|discriminate|apply can_ask_new|reflexivity|apply offer_ok|reflexivity|reflexivity|done|done|unfold offers; cbv beta zeta; reflexivity|reflexivity|].
  exists n1, n2, n3. split; [done|]. split; [done|]. split; [done|]. rewrite Henv. vm_compute. reflexivity.
Defined.

(** A reply whose options are not followed by the end mark, and the same reply with more options. *)
Definition cut_reply (id : list Z) (r : reply) : list Z :=
  reply_head id r ++ (r_file r ++ replicate (128 - length (r_file r)) 0) ++ [99; 130; 83; 99] ++ items_bytes (r_area r).
Definition more_options (r : reply) (more : list (option (Z * list Z))) : reply :=
  {| r_hops := r_hops r; r_secs := r_secs r; r_ciaddr := r_ciaddr r; r_yiaddr := r_yiaddr r; r_siaddr := r_siaddr r; r_giaddr := r_giaddr r;
     r_chaddr := r_chaddr r; r_sname := r_sname r; r_file := r_file r; r_area := r_area r ++ more; r_pad := [] |}.

Lemma items_app a b : items_bytes (a ++ b) = items_bytes a ++ items_bytes b.
Proof. unfold items_bytes. by rewrite map_app, concat_app. Qed.
Lemma cut_reply_rest id r more post : cut_reply id r ++ items_bytes more ++ 255 :: post = reply_bytes id (more_options r more) ++ post.
Proof.
  unfold cut_reply, reply_bytes. change (reply_head id (more_options r more)) with (reply_head id r). cbn [more_options r_file r_area r_pad].
  rewrite items_app, <- !app_assoc. done.
Qed.
Lemma cut_reply_length id r : reply_ok r -> length id = 4%nat -> length (cut_reply id r) = (240 + length (items_bytes (r_area r)))%nat.
Proof.
  intros Hr Hi. unfold cut_reply. rewrite !length_app, (head_length id r Hr Hi), length_replicate. destruct Hr. cbn [length]. unfold bp_file. lia.
Qed.

(** C39: the vendor area is read past the end of the packet.  The area starts 240 bytes into a BOOTP reply, but [BootpHandler] hands
    [BootpVendorProcess] the length of the whole packet as the size of the area.  So when a frame is received with a reply to our request whose
    options are not followed by the end mark, the bytes behind the frame, which an earlier packet left in the receive buffer, up to 239 of them, are
    taken for options of this reply: mask, gateway, name server, names and file size become what the options of the reply and the stale ones
    say.  [autoload] is off, so that the handler does not start a transfer. *)
Theorem vendor_area_overrun getenv dev_init NfsStart n dst src ipid ip dest r stale post :
  getenv_yesno getenv (cstr "autoload") = 0 -> getenv (cstr "autoload") <> Some (cstr "NFS") ->
  can_ask n -> NetOurIP (addrs n) = 0 -> udp_packet_handler n = udp_BootpHandler -> ip_ok (BootpID (bootp n)) ->
  reply_ok r -> length dst = 6%nat -> length src = 6%nat -> ip_ok ip -> ip_ok dest ->
  Forall item_ok stale -> (length (items_bytes stale) < 240)%nat -> (length (items_bytes (r_area r)) + length (items_bytes stale) < 1000)%nat ->
  let pkt := cut_reply (le32 (BootpID (bootp n))) r in
  let frame := wire_header dst src ipid ip dest PORT_BOOTPC PORT_BOOTPS (Z.of_nat (length pkt)) ++ pkt in
  exists n', NetReceive getenv dev_init NfsStart n (frame ++ items_bytes stale ++ 255 :: post) (Z.of_nat (length frame)) =
      Ok (net_set_state (NetSetTimeout n' 0 time_BootpTimeout) NETLOOP_SUCCESS) /\
    info_of n' = foldl learn_item (info_of n) (r_area r ++ stale) /\ NetOurIP (addrs n') = r_yiaddr r.
Proof.
  intros Hload Hnfs Hcan Hour Hh Hid Hr Hdl Hsl Hip Hdest Hst Hs240 Hs1000 pkt frame.
  assert (reply_ok (more_options r stale)) as Hr2.
  { destruct Hr. split; try done; cbn [more_options r_area r_pad]; [by apply Forall_app|]. rewrite items_app, length_app. cbn [length]. lia. }
  pose proof (cut_reply_length (le32 (BootpID (bootp n))) r Hr eq_refl) as Hl.
  destruct (reply_received getenv dev_init NfsStart Hload Hnfs n dst src ipid ip dest (more_options r stale) post pkt (items_bytes stale ++ 255 :: post))
    as (n' & E & Hinf & g & m & b & En & _); try done.
  - apply cut_reply_rest.
  - fold pkt in Hl. lia.
  - cbn [more_options r_area]. rewrite items_app, length_app. fold pkt in Hl. lia.
  - exists n'. split; [exact E|]. split; [exact Hinf|]. by rewrite En.
Qed.

(** A reply with a host name and no end mark: the gateway comes from a packet that was received before. *)
Definition curt : reply :=
  {| r_hops := 0; r_secs := [0; 0; 0; 0]; r_ciaddr := 0; r_yiaddr := 0x0200A8C0; r_siaddr := 0x0100A8C0; r_giaddr := 0; r_chaddr := replicate 16 0;
     r_sname := replicate 64 0; r_file := cstr "zImage"; r_area := [Some (12, cstr "board")]; r_pad := [] |}.
Definition asking_board : net := net_set_udp_handler new_board (Some udp_BootpHandler).

Lemma vendor_area_overrun_witness : exists frame n',
  NetReceive no_autoload (fun _ => true) Ok asking_board (frame ++ items_bytes [Some (3, [10; 0; 0; 99])] ++ [255]) (Z.of_nat (length frame)) =
    Ok (net_set_state (NetSetTimeout n' 0 time_BootpTimeout) NETLOOP_SUCCESS) /\ NetOurGatewayIP (addrs n') = 0x6300000A.
Proof.
  destruct (vendor_area_overrun no_autoload (fun _ => true) Ok asking_board NetBcastAddr [2; 0; 0; 0; 0; 1] 1 0x0100A8C0 0xFFFFFFFF curt
    [Some (3, [10; 0; 0; 99])] []) as (n' & E & Hinf & _);
    [reflexivity|discriminate|by split|reflexivity|reflexivity|done| |reflexivity|reflexivity|done|done| |apply Nat.ltb_lt; reflexivity|apply Nat.ltb_lt; reflexivity|].
  - split; try done; [cbn; lia|by apply (bool_decide_eq_true_1 (0 ∉ _))| |apply Nat.ltb_lt; reflexivity].
    cbn. repeat constructor; by vm_compute.
  - repeat constructor; by vm_compute.
  - eexists _, n'. split; [exact E|]. exact (f_equal i_gateway Hinf).
Defined.

(** ** Retries *)

Definition silent (i : turn) : Prop := rx i = [] /\ ctrlc i = false.

(** The times at which a request is sent again, of those at which the timer is looked at. *)
Fixpoint sent_at (start : Z) (ts : list Z) : list Z :=
  match ts with [] => [] | t :: ts => if SELECT_TIMEOUT <? u32 (t - start) then t :: sent_at t ts else sent_at start ts end.

Definition request_at (ether file : list Z) (t : Z) (e : eth_event) : Prop :=
  exists id, e = EthSend (wire_header NetBcastAddr ether id 0 0xFFFFFFFF PORT_BOOTPS PORT_BOOTPC 241 ++ request_of ether (copy_filename file 128) (id_of ether t) (t / 1000)).

Record waiting (n : net) (start k : Z) : Prop := {
  wt_send : can_send n;
  wt_our : NetOurIP (addrs n) = 0;
  wt_arp : NetArpWaitPacketIP (arp n) = 0;
  wt_state : net_state (prog n) = NETLOOP_CONTINUE;
  wt_try : BootpTry (bootp n) = k;
  wt_timer : tmo n = {| timeHandler := Some time_BootpTimeout; timeStart := start; timeDelta := SELECT_TIMEOUT |}
}.

Section Retry.
Context (getenv : list Z -> option (list Z)) (dev_init : nat -> bool) (NfsStart : net -> res net) (enetaddr : nat -> list Z).

Lemma silent_turn n i start k : waiting n start k -> silent i -> ((SELECT_TIMEOUT <? u32 (t_time i - start)) = true -> 0 <= k < TIMEOUT_COUNT) ->
  exists n', net_turn getenv dev_init NfsStart enetaddr BOOTP n i = Ok (n', None) /\ addrs n' = addrs n /\ BootFile n' = BootFile n /\
    if SELECT_TIMEOUT <? u32 (t_time i - start)
    then waiting n' (t_time i) (k + 1) /\ exists e, eth_log (eth n') = eth_log (eth n) ++ [e] /\ request_at (NetOurEther (addrs n)) (BootFile n) (t_time i) e
    else waiting n' start k /\ eth_log (eth n') = eth_log (eth n).
Proof.
  intros [[Hv Ho Ht Hd] Hour Harp Hst Htry Htm] [Hrx Hc] Hk. unfold net_turn. rewrite Hrx. cbn [receive_all]. rewrite bind_ok, Hc.
  unfold ArpTimeoutCheck. cbn [arp set_clock]. rewrite Harp, Z.eqb_refl, bind_ok.
  unfold check_timeout. cbn [tmo set_clock clock]. rewrite Htm. cbn [timeHandler timeDelta timeStart].
  destruct (SELECT_TIMEOUT <? u32 (t_time i - start)) eqn:E.
  - specialize (Hk eq_refl). unfold BootpTimeout. cbn [bootp set_tmo set_clock]. rewrite Htry, (proj2 (Z.leb_gt _ _)) by lia.
    match goal with |- context [BootpRequest ?m] => set (n1 := m) end.
    destruct (bootp_request_sent n1) as (pkt & -> & Hp); [by split|change (BootpTry (bootp n1)) with (BootpTry (bootp n)); unfold TIMEOUT_COUNT in Hk; lia|].
    rewrite bind_ok. change (net_state (prog (requested n1 pkt))) with (net_state (prog n)). rewrite Hst. eexists. split; [reflexivity|].
    split; [done|]. split; [done|]. split.
    + split; try done. change (BootpTry (bootp (requested n1 pkt))) with (BootpTry (bootp n) + 1). by rewrite Htry.
    + eexists. split; [reflexivity|]. exists (NetIPID n). unfold request_frame. change (addrs n1) with (addrs n). by rewrite Hour.
  - rewrite bind_ok. cbn [prog set_clock]. rewrite Hst. eexists. split; [reflexivity|]. done.
Qed.

Lemma silent_turns ins : forall n start k, waiting n start k -> Forall silent ins -> 0 <= k ->
  k + Z.of_nat (length (sent_at start (map t_time ins))) <= TIMEOUT_COUNT ->
  exists n' es, net_turns getenv dev_init NfsStart enetaddr BOOTP n ins = Ok (n', None) /\ eth_log (eth n') = eth_log (eth n) ++ es /\
    Forall2 (request_at (NetOurEther (addrs n)) (BootFile n)) (sent_at start (map t_time ins)) es.
Proof.
  induction ins as [|i ins IH]; intros n start k Hw Hs Hk Hlen.
  - exists n, []. split; [done|]. rewrite app_nil_r. split; [done|constructor].
  - apply Forall_cons in Hs as [Hi Hs]. cbn [map sent_at] in *. destruct (silent_turn n i start k Hw Hi) as (n1 & E & Ea & Eb & Hcase).
    { intros Et. rewrite Et in Hlen. cbn [length] in Hlen. lia. }
    cbn [net_turns]. rewrite E, bind_ok. destruct (SELECT_TIMEOUT <? u32 (t_time i - start)).
    + destruct Hcase as (Hw1 & e & Elog & He). cbn [length] in Hlen. destruct (IH n1 (t_time i) (k + 1)) as (n' & es & E' & Elog' & Hes); [done|done|lia|lia|].
      exists n', (e :: es). split; [done|]. rewrite Elog', Elog, <- app_assoc. split; [done|]. rewrite Ea, Eb in Hes. by constructor.
    + destruct Hcase as (Hw1 & Elog). destruct (IH n1 start k) as (n' & es & E' & Elog' & Hes); [done..|]. exists n', es. rewrite <- Elog, <- Ea, <- Eb. done.
Qed.
End Retry.

(** C24: without an answer the request is broadcast again.  While no frame arrives, the loop goes on, and after the first request one more is sent each time
    more than 3000 ms have passed since the one before, with a transaction number and a count of seconds for the time it is sent; this is about the time until the fifth request;
    [TIMEOUT], 5000 ms, which the handler sets before it sends, is never in force. *)
Theorem bootp_retries getenv dev_init NfsStart enetaddr n ins :
  can_send n -> NetArpWaitPacketIP (arp n) = 0 -> net_state (prog n) = NETLOOP_CONTINUE -> Forall silent ins ->
  let sent := clock n :: sent_at (clock n) (map t_time ins) in
  (length sent <= 5)%nat ->
  exists n1 n2 es, start_protocol getenv dev_init NfsStart n BOOTP = Ok n1 /\
    net_turns getenv dev_init NfsStart enetaddr BOOTP n1 ins = Ok (n2, None) /\ eth_log (eth n2) = eth_log (eth n) ++ es /\
    Forall2 (request_at (NetOurEther (addrs n)) (BootFile n)) sent es.
Proof.
  intros Hcs Harp Hst Hs sent Hlen. assert (can_send (asking n)) as Hcs' by (destruct Hcs; by split).
  destruct (bootp_request_sent (asking n) Hcs') as (pkt & E & Hp); [done|]. set (n1 := requested (asking n) pkt) in *.
  assert (waiting n1 (clock n) 1) as Hw by (split; try done; destruct Hcs; by split). unfold sent in Hlen. cbn [length] in Hlen.
  destruct (silent_turns getenv dev_init NfsStart enetaddr ins n1 (clock n) 1 Hw Hs) as (n2 & es & E2 & Elog & Hes); [lia|unfold TIMEOUT_COUNT; lia|].
  exists n1, n2, (EthSend (request_frame (asking n)) :: es). split; [exact E|]. split; [done|]. split.
  - rewrite Elog. change (eth_log (eth n1)) with (eth_log (eth n) ++ [EthSend (request_frame (asking n))]). by rewrite <- app_assoc.
  - constructor; [|done]. by exists (NetIPID n).
Qed.

Definition quiet (t : Z) : turn := {| rx := []; ctrlc := false; t_rx := t; t_arp := t; t_time := t; env_changed := false |}.
Lemma bootp_retries_witness :
  exists n1 n2 es, start_protocol (fun _ => None) (fun _ => true) Ok new_board BOOTP = Ok n1 /\
    net_turns (fun _ => None) (fun _ => true) Ok (fun _ => []) BOOTP n1 (map quiet [5; 3000; 3001; 4500; 6002]) = Ok (n2, None) /\
    eth_log (eth n2) = [] ++ es /\ Forall2 (request_at [2; 0; 0; 0; 0; 0] (cstr "uImage")) [0; 3001; 6002] es.
Proof.
  apply (bootp_retries (fun _ => None) (fun _ => true) Ok (fun _ => []) new_board (map quiet [5; 3000; 3001; 4500; 6002]));
    [by split|reflexivity|reflexivity|by repeat constructor|apply Nat.leb_le; reflexivity].
Defined.
