(* ===== verification/Image.v ===== *)
(** * Boot images ([include/image.h], [common/image.c], [tools/default_image.c], [tools/mkimage.c])

    The legacy image format: a header of 64 bytes with numbers in network byte order and two CRCs, followed
    by the data; in a multi-file image the data is a table of sizes ended by a zero and the files, each padded
    to whole words.  Both sides are here: the checks and accessors of the boot loader, which read memory, and
    the host tool that writes such files.  A header is the list of its 64 bytes, wherever it is; functions that
    need the address of a header take it beside the memory.  Messages are left out. *)
From S2P Require Import Prelude Ctype Vsprintf Crc Ram.

(** ** Constants *)

Definition IH_OS_INVALID : Z := 0.
Definition IH_OS_NETBSD : Z := 2.
Definition IH_OS_LINUX : Z := 5.
Definition IH_OS_LYNXOS : Z := 13.
Definition IH_OS_VXWORKS : Z := 14.
Definition IH_OS_QNX : Z := 16.
Definition IH_OS_U_BOOT : Z := 17.
Definition IH_OS_RTEMS : Z := 18.
Definition IH_OS_OSE : Z := 22.
Definition IH_OS_PLAN9 : Z := 23.
Definition IH_ARCH_ARM : Z := 2.
(** [arch/arm/include/asm/u-boot.h]. *)
Definition IH_ARCH_DEFAULT : Z := IH_ARCH_ARM.
Definition IH_TYPE_INVALID : Z := 0.
Definition IH_TYPE_STANDALONE : Z := 1.
Definition IH_TYPE_KERNEL : Z := 2.
Definition IH_TYPE_RAMDISK : Z := 3.
Definition IH_TYPE_MULTI : Z := 4.
Definition IH_TYPE_SCRIPT : Z := 6.
Definition IH_TYPE_FLATDT : Z := 8.
Definition IH_TYPE_KERNEL_NOLOAD : Z := 14.
Definition IH_COMP_NONE : Z := 0.
Definition IH_COMP_GZIP : Z := 1.
Definition IH_MAGIC : Z := 0x27051956.
Definition IH_NMLEN : nat := 32.
Definition CHUNKSZ_CRC32 : nat := Z.to_nat (64 * 1024).
Definition IMAGE_FORMAT_INVALID : Z := 0.
Definition IMAGE_FORMAT_LEGACY : Z := 1.

Definition uimage_to_cpu (x : Z) : Z := swab32 x.
Definition cpu_to_uimage (x : Z) : Z := swab32 x.

(** ** The header *)

Definition image_get_header_size : nat := 64.

(** [image_get_hdr_l], [image_get_hdr_b], [image_set_hdr_l], [image_set_hdr_b]: the field at an offset. *)
Definition image_get_hdr_l (off : nat) (hdr : list Z) : Z := uimage_to_cpu (of_le32 (take 4 (drop off hdr))).
Definition image_get_hdr_b (off : nat) (hdr : list Z) : Z := nth off hdr 0.
Definition image_set_hdr_l (off : nat) (hdr : list Z) (val : Z) : list Z := list_inserts off (le32 (cpu_to_uimage (u32 val))) hdr.
Definition image_set_hdr_b (off : nat) (hdr : list Z) (val : Z) : list Z := <[off := u8 val]> hdr.

Definition image_get_magic := image_get_hdr_l 0.
Definition image_get_hcrc := image_get_hdr_l 4.
Definition image_get_time := image_get_hdr_l 8.
Definition image_get_size := image_get_hdr_l 12.
Definition image_get_load := image_get_hdr_l 16.
Definition image_get_ep := image_get_hdr_l 20.
Definition image_get_dcrc := image_get_hdr_l 24.
Definition image_get_os := image_get_hdr_b 28.
Definition image_get_arch := image_get_hdr_b 29.
Definition image_get_type := image_get_hdr_b 30.
Definition image_get_comp := image_get_hdr_b 31.
Definition image_get_name (hdr : list Z) : list Z := take IH_NMLEN (drop 32 hdr).
Definition image_set_magic := image_set_hdr_l 0.
Definition image_set_hcrc := image_set_hdr_l 4.
Definition image_set_time := image_set_hdr_l 8.
Definition image_set_size := image_set_hdr_l 12.
Definition image_set_load := image_set_hdr_l 16.
Definition image_set_ep := image_set_hdr_l 20.
Definition image_set_dcrc := image_set_hdr_l 24.
Definition image_set_os := image_set_hdr_b 28.
Definition image_set_arch := image_set_hdr_b 29.
Definition image_set_type := image_set_hdr_b 30.
Definition image_set_comp := image_set_hdr_b 31.
(** [strncpy] into the field: at most 32 bytes, filled up with zeros. *)
Definition image_set_name (hdr : list Z) (name : list Z) : list Z :=
  list_inserts 32 (take IH_NMLEN (name ++ replicate IH_NMLEN 0)) hdr.

Definition image_get_data_size (hdr : list Z) : Z := image_get_size hdr.
Definition image_get_image_size (hdr : list Z) : Z := u32 (image_get_size hdr + Z.of_nat image_get_header_size).

Definition image_check_magic (hdr : list Z) : bool := image_get_magic hdr =? IH_MAGIC.
Definition image_check_type (hdr : list Z) (type : Z) : bool := image_get_type hdr =? type.
Definition image_check_arch (hdr : list Z) (arch : Z) : bool := image_get_arch hdr =? arch.
Definition image_check_os (hdr : list Z) (os : Z) : bool := image_get_os hdr =? os.
Definition image_check_target_arch (hdr : list Z) : bool := image_check_arch hdr IH_ARCH_DEFAULT.

(** The copy on the stack is word-aligned. *)
Definition image_check_hcrc (hdr : list Z) : bool :=
  let header := image_set_hcrc hdr 0 in
  crc32 0 0 header =? image_get_hcrc hdr.

(** ** Images in memory *)

Section memory.
Context (m : Z -> Z).

Definition header_at (hdr : Z) : list Z := bytes_at m hdr image_get_header_size.
Definition image_get_data (hdr : Z) : Z := u32 (hdr + Z.of_nat image_get_header_size).
Definition image_get_image_end (hdr : Z) : Z := u32 (hdr + image_get_image_size (header_at hdr)).

(** No watchdog is configured. *)
Definition image_check_dcrc (hdr : Z) : res bool :=
  let data := image_get_data hdr in
  let len := image_get_data_size (header_at hdr) in
  let* dcrc := crc32_wd false 0 0 data (bytes_at m data (Z.to_nat len)) CHUNKSZ_CRC32 in
  Ok (dcrc =? image_get_dcrc (header_at hdr)).

(** [for (i = 0; size[i]; ++i) count++]; nothing bounds the table: [n] entries are looked at. *)
Fixpoint count_loop (n : nat) (size i : Z) : res Z :=
  match n with
  | O => Hang
  | S n => if negb (load32 m (size + 4 * i) =? 0) then count_loop n size (i + 1) else Ok i
  end.
Definition image_multi_count (n : nat) (hdr : Z) : res Z := count_loop n (image_get_data hdr) 0.

(** The sizes of the entries from [i] on, [k] of them, each rounded up to whole words. *)
Fixpoint offset_loop (k : nat) (size i offset : Z) : Z :=
  match k with
  | O => offset
  | S k => offset_loop k size (i + 1) (u32 (offset + (u32 (uimage_to_cpu (load32 m (size + 4 * i)) + 3) .& ~32 3)))
  end.

(** The address and the size of component [idx], zeros if there is none. *)
Definition image_multi_getimg (n : nat) (hdr idx : Z) : res (Z * Z) :=
  let* count := image_multi_count n hdr in
  let size := image_get_data hdr in
  let img_data := u32 (image_get_data hdr + (count + 1) * 4) in
  if idx <? count then
    let len := uimage_to_cpu (load32 m (size + 4 * idx)) in
    let offset := offset_loop (Z.to_nat idx) size 0 0 in
    Ok (u32 (img_data + offset), len)
  else Ok (0, 0).

Definition genimg_get_format (img_addr : Z) : Z :=
  if image_check_magic (header_at img_addr) then IMAGE_FORMAT_LEGACY else IMAGE_FORMAT_INVALID.

(** No dataflash is configured. *)
Definition genimg_get_image (img_addr : Z) : Z := img_addr.

(** The header, if there is a Linux ramdisk for [arch] with good checksums. *)
Definition image_get_ramdisk (rd_addr arch : Z) (verify : bool) : res (option Z) :=
  let rd_hdr := header_at rd_addr in
  if negb (image_check_magic rd_hdr) then Ok None
  else if negb (image_check_hcrc rd_hdr) then Ok None
  else
    let* bad := (if verify then let* ok := image_check_dcrc rd_addr in Ok (negb ok) else Ok false) in
    if bad : bool then Ok None
    else if negb (image_check_os rd_hdr IH_OS_LINUX) || negb (image_check_arch rd_hdr arch) || negb (image_check_type rd_hdr IH_TYPE_RAMDISK)
    then Ok None
    else Ok (Some rd_addr).

(** [common/cmd_bootm.c]: the same for a kernel. *)
Definition image_get_kernel (img_addr : Z) (verify : bool) : res (option Z) :=
  let hdr := header_at img_addr in
  if negb (image_check_magic hdr) then Ok None
  else if negb (image_check_hcrc hdr) then Ok None
  else
    let* bad := (if verify then let* ok := image_check_dcrc img_addr in Ok (negb ok) else Ok false) in
    if bad : bool then Ok None
    else if negb (image_check_target_arch hdr) then Ok None
    else Ok (Some img_addr).

(** [iminfo]. *)
Definition image_info (addr : Z) : res Z :=
  let hdr := header_at addr in
  if genimg_get_format addr =? IMAGE_FORMAT_LEGACY then
    if negb (image_check_magic hdr) then Ok 1
    else if negb (image_check_hcrc hdr) then Ok 1
    else
      let* ok := image_check_dcrc addr in
      Ok (if ok : bool then 0 else 1)
  else Ok 1.
Fixpoint info_loop (args : list (list Z)) (rcode : Z) : res Z :=
  match args with
  | [] => Ok rcode
  | a :: args =>
    let* r := image_info (fst (simple_strtoul a 16)) in
    info_loop args (if negb (r =? 0) then 1 else rcode)
  end.
(** [argv] without the name of the command. *)
Definition do_iminfo (load_addr : Z) (argv : list (list Z)) : res Z :=
  match argv with
  | [] => image_info load_addr
  | _ => info_loop argv 0
  end.
End memory.

(** ** Names *)

Record table_entry := Entry { t_id : Z; sname : option (list Z); lname : list Z }.
Definition ent (id : Z) (s l : string) : table_entry := Entry id (Some (cstr s)) (cstr l).

Definition uimage_arch : list table_entry := [
  Entry 0 None (cstr "Invalid ARCH"); ent 1 "alpha" "Alpha"; ent 2 "arm" "ARM"; ent 3 "x86" "Intel x86"; ent 4 "ia64" "IA64";
  ent 12 "m68k" "M68K"; ent 14 "microblaze" "MicroBlaze"; ent 5 "mips" "MIPS"; ent 6 "mips64" "MIPS 64 Bit"; ent 15 "nios2" "NIOS II";
  ent 7 "powerpc" "PowerPC"; ent 7 "ppc" "PowerPC"; ent 8 "s390" "IBM S390"; ent 9 "sh" "SuperH"; ent 10 "sparc" "SPARC";
  ent 11 "sparc64" "SPARC 64 Bit"; ent 16 "blackfin" "Blackfin"; ent 17 "avr32" "AVR32"; ent 20 "nds32" "NDS32"; ent 21 "or1k" "OpenRISC 1000";
  ent 19 "sandbox" "Sandbox"; ent 22 "arm64" "AArch64"; ent 23 "arc" "ARC"; ent (-1) "" "" ].
(** As configured for the board: ELF, but neither LynxOS nor INTEGRITY. *)
Definition uimage_os : list table_entry := [
  Entry IH_OS_INVALID None (cstr "Invalid OS"); ent IH_OS_LINUX "linux" "Linux"; ent IH_OS_NETBSD "netbsd" "NetBSD"; ent IH_OS_OSE "ose" "Enea OSE";
  ent IH_OS_PLAN9 "plan9" "Plan 9"; ent IH_OS_RTEMS "rtems" "RTEMS"; ent IH_OS_U_BOOT "u-boot" "U-Boot"; ent IH_OS_VXWORKS "vxworks" "VxWorks";
  ent IH_OS_QNX "qnx" "QNX"; ent (-1) "" "" ].
Definition uimage_type : list table_entry := [
  ent 13 "aisimage" "Davinci AIS image"; ent 7 "filesystem" "Filesystem Image"; ent 5 "firmware" "Firmware"; ent 8 "flat_dt" "Flat Device Tree";
  ent 2 "kernel" "Kernel Image"; ent 14 "kernel_noload" "Kernel Image (no loading done)"; ent 9 "kwbimage" "Kirkwood Boot Image";
  ent 10 "imximage" "Freescale i.MX Boot Image"; Entry 0 None (cstr "Invalid Image"); ent 4 "multi" "Multi-File Image"; ent 12 "omapimage" "TI OMAP SPL With GP CH";
  ent 15 "pblimage" "Freescale PBL Boot Image"; ent 3 "ramdisk" "RAMDisk Image"; ent 6 "script" "Script"; ent 1 "standalone" "Standalone Program";
  ent 11 "ublimage" "Davinci UBL image"; ent 16 "mxsimage" "Freescale MXS Boot Image"; ent (-1) "" "" ].
Definition uimage_comp : list table_entry := [
  ent 0 "none" "uncompressed"; ent 2 "bzip2" "bzip2 compressed"; ent 1 "gzip" "gzip compressed"; ent 3 "lzma" "lzma compressed";
  ent 4 "lzo" "lzo compressed"; ent (-1) "" "" ].

(** A table ends at its first negative id; there is one. *)
Fixpoint get_table_entry_name (table : list table_entry) (msg : list Z) (id : Z) : res (list Z) :=
  match table with
  | [] => Ub
  | t :: table => if 0 <=? t_id t then (if t_id t =? id then Ok (lname t) else get_table_entry_name table msg id) else Ok msg
  end.
Fixpoint get_table_entry_id (table : list table_entry) (name : list Z) : res Z :=
  match table with
  | [] => Ub
  | t :: table =>
    if 0 <=? t_id t then (if bool_decide (sname t = Some name) then Ok (t_id t) else get_table_entry_id table name) else Ok (-1)
  end.
Definition genimg_get_os_name (os : Z) := get_table_entry_name uimage_os (cstr "Unknown OS") os.
Definition genimg_get_arch_name (arch : Z) := get_table_entry_name uimage_arch (cstr "Unknown Architecture") arch.
Definition genimg_get_type_name (type : Z) := get_table_entry_name uimage_type (cstr "Unknown Image") type.
Definition genimg_get_comp_name (comp : Z) := get_table_entry_name uimage_comp (cstr "Unknown Compression") comp.
Definition genimg_get_os_id (name : list Z) := get_table_entry_id uimage_os name.
Definition genimg_get_arch_id (name : list Z) := get_table_entry_id uimage_arch name.
Definition genimg_get_type_id (name : list Z) := get_table_entry_id uimage_type name.
Definition genimg_get_comp_id (name : list Z) := get_table_entry_id uimage_comp name.

(** ** The host tool that writes images *)

Record image_tool_params := Params {
  p_os : Z; p_arch : Z; p_type : Z; p_comp : Z; p_addr : Z; p_ep : Z; p_eflag : bool; p_xflag : bool; p_imagename : list Z
}.

(** Without [-e] the entry point is the load address, behind the header for an image that runs in place. *)
Definition entry_point (p : image_tool_params) : Z :=
  if p_eflag p then p_ep p else u32 (p_addr p + (if p_xflag p then Z.of_nat image_get_header_size else 0)).

(** The file is mapped at the start of a page; the result is what it then holds. *)
Definition image_set_header (ptr : list Z) (st_mtime : Z) (p : image_tool_params) : list Z :=
  let st_size := Z.of_nat (length ptr) in
  let checksum := crc32 0 (Z.of_nat image_get_header_size) (drop image_get_header_size ptr) in
  let hdr := image_set_magic ptr IH_MAGIC in
  let hdr := image_set_time hdr st_mtime in
  let hdr := image_set_size hdr (st_size - Z.of_nat image_get_header_size) in
  let hdr := image_set_load hdr (p_addr p) in
  let hdr := image_set_ep hdr (entry_point p) in
  let hdr := image_set_dcrc hdr checksum in
  let hdr := image_set_os hdr (p_os p) in
  let hdr := image_set_arch hdr (p_arch p) in
  let hdr := image_set_type hdr (p_type p) in
  let hdr := image_set_comp hdr (p_comp p) in
  let hdr := image_set_name hdr (p_imagename p) in
  let checksum := crc32 0 0 (take image_get_header_size hdr) in
  image_set_hcrc hdr checksum.

Definition FDT_ERR_BADMAGIC : Z := 9.
Definition FDT_ERR_BADSTATE : Z := 7.
Definition FDT_ERR_BADSTRUCTURE : Z := 11.

(** [mkimage -l]: the checksum of the data is taken over the rest of the file, whatever size the header gives. *)
Definition image_verify_header (ptr : list Z) : Z :=
  let hdr := take image_get_header_size ptr in
  if negb (image_get_magic hdr =? IH_MAGIC) then - FDT_ERR_BADMAGIC
  else
    let checksum := image_get_hcrc hdr in
    let hdr := image_set_hcrc hdr 0 in
    if negb (crc32 0 0 hdr =? checksum) then - FDT_ERR_BADSTATE
    else if negb (crc32 0 (Z.of_nat image_get_header_size) (drop image_get_header_size ptr) =? image_get_dcrc hdr) then - FDT_ERR_BADSTRUCTURE
    else 0.

(** [None]: the tool gives up.  A file without bytes cannot be mapped. *)
Definition copy_file (p : image_tool_params) (out datafile : list Z) (pad : Z) : option (list Z) :=
  if 4096 <=? pad then None
  else if bool_decide (datafile = []) then None
  else if p_xflag p && (bool_decide (length datafile < image_get_header_size)%nat
                        || negb (forallb (Z.eqb 0xff) (take image_get_header_size datafile))) then None
  else
    let offset := if p_xflag p then image_get_header_size else 0%nat in
    let body := drop offset datafile in
    let tail := (length body mod 4)%nat in
    Some (out ++ body ++ (if (pad =? 1) && negb (tail =? 0)%nat then replicate (4 - tail) 0
                          else if 1 <? pad then replicate (Z.to_nat pad) 0 else [])).

(** The files of a multi-file image: all but the last are padded. *)
Fixpoint copy_files (p : image_tool_params) (out : list Z) (files : list (list Z)) : option (list Z) :=
  match files with
  | [] => None
  | [f] => copy_file p out f 0
  | f :: files => match copy_file p out f 1 with Some out => copy_files p out files | None => None end
  end.
Definition size_table (files : list (list Z)) : list Z :=
  concat (map (fun f => le32 (cpu_to_uimage (u32 (Z.of_nat (length f))))) files) ++ le32 0.

(** The names behind [-d] are already opened: [files] are their contents, one of them unless the type allows more. *)
Definition mkimage (p : image_tool_params) (st_mtime : Z) (files : list (list Z)) : option (list Z) :=
  let out := replicate image_get_header_size 0 in
  let body :=
    if (p_type p =? IH_TYPE_MULTI) || (p_type p =? IH_TYPE_SCRIPT) then copy_files p (out ++ size_table files) files
    else match files with [f] => copy_file p out f 0 | _ => None end in
  match body with
  | Some ptr => Some (image_set_header ptr st_mtime p)
  | None => None
  end.
