(* ===== verification/ImageProps.v ===== *)
(** * Boot images: what the tool writes the boot loader accepts

    The header fields are independent, an image of the host tool passes every check of the boot loader with the
    fields it was given, its components are found where they are, and a change inside four neighbouring bytes
    of the data is noticed. *)
From S2P Require Import Prelude Gf2 Ctype Vsprintf Crc Ram Image.

(** ** Accessors after setters *)

Lemma set_b_inserts off h v : image_set_hdr_b off h v = list_inserts off [u8 v] h.
Proof. done. Qed.

Lemma get_l_field off h : image_get_hdr_l off h = uimage_to_cpu (of_le32 (field off 4 h)).
Proof. done. Qed.
Lemma get_b_field off h : image_get_hdr_b off h = nth 0 (field off 1 h) 0.
Proof.
  unfold image_get_hdr_b, field. rewrite <- (Nat.add_0_r off) at 1. revert h. induction off as [|off IH]; intros h.
  - by destruct h.
  - destruct h as [|x h]; [by destruct off|]. apply IH.
Qed.

Lemma cpu_to_uimage_field v : 0 <= v < 2 ^ 32 -> uimage_to_cpu (of_le32 (le32 (cpu_to_uimage v))) = v.
Proof.
  intros Hv. unfold uimage_to_cpu, cpu_to_uimage. destruct (swab32_twice v Hv) as [E R]. by rewrite le32_of.
Qed.

Lemma name_length name : length (take IH_NMLEN (name ++ replicate IH_NMLEN 0)) = 32%nat.
Proof. rewrite length_take, length_app, length_replicate. unfold IH_NMLEN. lia. Qed.

Lemma set_l_bytes v : byte_list (le32 (cpu_to_uimage (u32 v))).
Proof. apply le32_are_bytes. Qed.

(** ** The image of the host tool *)

(** Everything the boot loader reads from the header of the file [f] with the data [data]. *)
Record good_image (p : image_tool_params) (st_mtime : Z) (f data : list Z) : Prop := {
  gi_split : drop 64 f = data;
  gi_length : length f = (64 + length data)%nat;
  gi_bytes : byte_list f;
  gi_magic : image_get_magic (take 64 f) = IH_MAGIC;
  gi_hcrc : image_check_hcrc (take 64 f) = true;
  gi_time : image_get_time (take 64 f) = u32 st_mtime;
  gi_size : image_get_size (take 64 f) = u32 (Z.of_nat (length data));
  gi_load : image_get_load (take 64 f) = u32 (p_addr p);
  gi_ep : image_get_ep (take 64 f) = u32 (entry_point p);
  gi_dcrc : image_get_dcrc (take 64 f) = crc32 0 64 data;
  gi_os : image_get_os (take 64 f) = u8 (p_os p);
  gi_arch : image_get_arch (take 64 f) = u8 (p_arch p);
  gi_type : image_get_type (take 64 f) = u8 (p_type p);
  gi_comp : image_get_comp (take 64 f) = u8 (p_comp p)
}.

(** The setters of a header, as insertions at fixed places. *)
Definition put_all (l : list (nat * list Z)) (h : list Z) : list Z := foldl (fun h '(off, bs) => list_inserts off bs h) h l.

Lemma put_all_length l h : length (put_all l h) = length h.
Proof. revert h. induction l as [|[off bs] l IH]; intros h; [done|]. simpl. by rewrite IH, length_inserts. Qed.

Lemma put_all_bytes l h : Forall (fun e => byte_list e.2) l -> byte_list h -> byte_list (put_all l h).
Proof.
  revert h. induction l as [|[off bs] l IH]; intros h Hl Hh; [done|]. inversion_clear Hl. simpl. apply IH; [done|].
  by apply byte_list_inserts.
Qed.

Definition apart (off n : nat) (e : nat * list Z) : bool := (off + n <=? e.1)%nat || (e.1 + length e.2 <=? off)%nat.

Lemma field_apart off n l h : forallb (apart off n) l = true -> field off n (put_all l h) = field off n h.
Proof.
  revert h. induction l as [|[o bs] l IH]; intros h H; [done|]. simpl in *. apply andb_prop in H as [H1 H2].
  rewrite IH by done. apply field_other. unfold apart in H1. simpl in H1. apply orb_prop in H1 as [H1|H1]; apply Nat.leb_le in H1; lia.
Qed.

(** The last entry written at a place is what is there. *)
Lemma field_last l1 off bs l2 h : (off + length bs <= length h)%nat -> forallb (apart off (length bs)) l2 = true ->
  field off (length bs) (put_all (l1 ++ (off, bs) :: l2) h) = bs.
Proof.
  intros Hl H. unfold put_all. rewrite foldl_app.
  transitivity (field off (length bs) (put_all l2 (list_inserts off bs (put_all l1 h)))); [done|]. rewrite field_apart by done. apply field_same. by rewrite put_all_length.
Qed.

Lemma take_put_all k l h : forallb (fun e : nat * list Z => (e.1 + length e.2 <=? k)%nat) l = true -> (k <= length h)%nat ->
  take k (put_all l h) = put_all l (take k h).
Proof.
  revert h. induction l as [|[o bs] l IH]; intros h H Hk; [done|]. simpl in *. apply andb_prop in H as [H1 H2]. apply Nat.leb_le in H1.
  rewrite IH by (rewrite ?length_inserts; done). f_equal. by apply take_inserts.
Qed.

Lemma drop_put_all k l h : forallb (fun e : nat * list Z => (e.1 + length e.2 <=? k)%nat) l = true -> drop k (put_all l h) = drop k h.
Proof.
  revert h. induction l as [|[o bs] l IH]; intros h H; [done|]. simpl in *. apply andb_prop in H as [H1 H2]. apply Nat.leb_le in H1.
  rewrite IH by done. by apply drop_inserts.
Qed.

Definition be_field (v : Z) : list Z := le32 (cpu_to_uimage (u32 v)).
Definition hdr_puts (size crc st_mtime : Z) (p : image_tool_params) (name : list Z) : list (nat * list Z) :=
  [(0%nat, be_field IH_MAGIC); (8%nat, be_field st_mtime); (12%nat, be_field size); (16%nat, be_field (p_addr p)); (20%nat, be_field (entry_point p));
   (24%nat, be_field crc); (28%nat, [u8 (p_os p)]); (29%nat, [u8 (p_arch p)]); (30%nat, [u8 (p_type p)]); (31%nat, [u8 (p_comp p)]); (32%nat, name)].

Lemma be_field_value v : uimage_to_cpu (of_le32 (be_field v)) = u32 v.
Proof. apply cpu_to_uimage_field, wrap_range. lia. Qed.

Lemma set_header_puts ptr st_mtime p :
  let l := hdr_puts (Z.of_nat (length ptr) - 64) (crc32 0 64 (drop 64 ptr)) st_mtime p (take IH_NMLEN (p_imagename p ++ replicate IH_NMLEN 0)) in
  image_set_header ptr st_mtime p = put_all (l ++ [(4%nat, be_field (crc32 0 0 (take 64 (put_all l ptr))))]) ptr.
Proof. intros l. unfold put_all at 1. rewrite foldl_app. reflexivity. Qed.

(** An entry that none of the later ones touches. *)
Lemma put_entry l h i off bs : l !! i = Some (off, bs) -> (off + length bs <= length h)%nat ->
  forallb (apart off (length bs)) (drop (S i) l) = true -> field off (length bs) (put_all l h) = bs.
Proof. intros Hi Hh Ha. rewrite <- (take_drop_middle l i (off, bs)) by done. by apply field_last. Qed.

Section header.
Context (p : image_tool_params) (st_mtime size crc hcrc : Z) (name : list Z).
Hypothesis name_fits : length name = 32%nat.
Hypothesis name_bytes : byte_list name.
Let l := hdr_puts size crc st_mtime p name.
Let all := l ++ [(4%nat, be_field hcrc)].

Lemma puts_bytes : Forall (fun e => byte_list e.2) all.
Proof.
  assert (forall v, byte_list [u8 v]) as Hb by (intros v; constructor; [apply (wrap_range 8); lia|done]).
  unfold all, l, hdr_puts. cbn [app]. repeat (apply Forall_cons; split; [first [apply le32_are_bytes|apply Hb|done]|]). done.
Qed.
Lemma puts_within : forallb (fun e : nat * list Z => (e.1 + length e.2 <=? 64)%nat) all = true.
Proof. cbn. rewrite name_fits. reflexivity. Qed.

Context (h : list Z).
Hypothesis h_length : length h = 64%nat.

Lemma entry_l i off v : all !! i = Some (off, be_field v) -> (off + 4 <= 64)%nat -> forallb (apart off 4) (drop (S i) all) = true ->
  image_get_hdr_l off (put_all all h) = u32 v.
Proof.
  intros Hi Ho Ha. rewrite <- (be_field_value v), get_l_field. do 2 f_equal. apply (put_entry all h i off (be_field v)); [done|by rewrite h_length|done].
Qed.
Lemma entry_b i off v : all !! i = Some (off, [v]) -> (off + 1 <= 64)%nat -> forallb (apart off 1) (drop (S i) all) = true ->
  image_get_hdr_b off (put_all all h) = v.
Proof.
  intros Hi Ho Ha. rewrite get_b_field. change v with (nth 0 [v] 0). f_equal.
  apply (put_entry all h i off [v]); [done|by rewrite h_length|done].
Qed.

Lemma header_fields :
  let f := put_all all h in
  image_get_magic f = IH_MAGIC /\ image_get_hcrc f = u32 hcrc /\ image_get_time f = u32 st_mtime /\ image_get_size f = u32 size /\
  image_get_load f = u32 (p_addr p) /\ image_get_ep f = u32 (entry_point p) /\ image_get_dcrc f = u32 crc /\
  image_get_os f = u8 (p_os p) /\ image_get_arch f = u8 (p_arch p) /\ image_get_type f = u8 (p_type p) /\ image_get_comp f = u8 (p_comp p).
Proof.
  intros f. split_and!;
    [apply (entry_l 0 0 IH_MAGIC)|apply (entry_l 11)|apply (entry_l 1)|apply (entry_l 2)|apply (entry_l 3)|apply (entry_l 4)|apply (entry_l 5)
    |apply (entry_b 6)|apply (entry_b 7)|apply (entry_b 8)|apply (entry_b 9)];
    first [reflexivity|lia|cbn; rewrite ?name_fits; reflexivity].
Qed.

(** The header with its checksum cleared is the header the checksum was taken of. *)
Lemma clear_hcrc : field 4 4 h = [0; 0; 0; 0] -> image_set_hcrc (put_all all h) 0 = put_all l h.
Proof.
  intros Hz. unfold image_set_hcrc, image_set_hdr_l. change (le32 (cpu_to_uimage (u32 0))) with [0; 0; 0; 0].
  unfold all, put_all. rewrite foldl_app. cbn [foldl]. fold (put_all l h).
  rewrite inserts_twice by (rewrite ?put_all_length, ?h_length; simpl; lia || done).
  apply (inserts_same 4 [0; 0; 0; 0]); [rewrite put_all_length, h_length; simpl; lia|]. cbn [length].
  rewrite field_apart; [done|]. cbn. by rewrite ?name_fits.
Qed.
End header.

Lemma set_header_ok p t body :
  byte_list body -> byte_list (p_imagename p) -> Z.of_nat (length body) < 2 ^ 32 ->
  good_image p t (image_set_header (replicate 64 0 ++ body) t p) body.
Proof.
  intros Hb Hn Hl. set (ptr := replicate 64 0 ++ body).
  assert (length ptr = (64 + length body)%nat) as Hlen by (unfold ptr; by rewrite length_app, length_replicate).
  assert (drop 64 ptr = body) as Hd by (unfold ptr; by rewrite drop_app_length' by done).
  assert (take 64 ptr = replicate 64 0) as Ht by (unfold ptr; by rewrite take_app_length' by done).
  assert (byte_list ptr) as Hp. { apply Forall_app. split; [|done]. apply Forall_replicate. lia. }
  rewrite set_header_puts. cbv zeta. rewrite Hd. replace (Z.of_nat (length ptr) - 64) with (Z.of_nat (length body)) by lia.
  pose proof (name_length (p_imagename p)) as Hnl. assert (byte_list (take IH_NMLEN (p_imagename p ++ replicate IH_NMLEN 0))) as Hnb.
  { apply Forall_take, Forall_app. split; [done|]. by apply Forall_replicate. }
  revert Hnl Hnb. generalize (take IH_NMLEN (p_imagename p ++ replicate IH_NMLEN 0)). intros name Hnl Hnb.
  set (l := hdr_puts _ _ _ _ _). set (c := crc32 0 0 (take 64 (put_all l ptr))).
  assert (take 64 (put_all l ptr) = put_all l (replicate 64 0)) as Htl.
  { rewrite <- Ht. apply take_put_all; [|lia]. pose proof (puts_within p t (Z.of_nat (length body)) (crc32 0 64 body) c name Hnl) as H.
    rewrite forallb_app in H. by apply andb_prop in H as [H _]. }
  assert (take 64 (put_all (l ++ [(4%nat, be_field c)]) ptr) = put_all (l ++ [(4%nat, be_field c)]) (replicate 64 0)) as Hta.
  { rewrite <- Ht. apply take_put_all; [by apply puts_within|lia]. }
  assert (byte_list (put_all l (replicate 64 0))) as Hlb.
  { apply put_all_bytes; [|by apply Forall_replicate]. pose proof (puts_bytes p t (Z.of_nat (length body)) (crc32 0 64 body) c name Hnl Hnb) as H.
    by apply Forall_app in H as [H _]. }
  assert (0 <= c < 2 ^ 32) as Hc by (unfold c; apply crc32_range; [lia|by rewrite Htl]).
  destruct (header_fields p t (Z.of_nat (length body)) (crc32 0 64 body) c name Hnl (replicate 64 0) eq_refl)
    as (F1 & F2 & F3 & F4 & F5 & F6 & F7 & F8 & F9 & F10 & F11). fold l in F1, F2, F3, F4, F5, F6, F7, F8, F9, F10, F11.
  rewrite <- Hta in F1, F2, F3, F4, F5, F6, F7, F8, F9, F10, F11.
  split; try done.
  - rewrite drop_put_all by by apply puts_within. done.
  - by rewrite put_all_length.
  - apply put_all_bytes; [|done]. by apply puts_bytes.
  - unfold image_check_hcrc. rewrite F2, Hta. unfold l. rewrite clear_hcrc by done. fold l. rewrite <- Htl. fold c.
    rewrite wrap_small by done. apply Z.eqb_refl.
  - rewrite F7. apply wrap_small, crc32_range; [lia|done].
Qed.

(** ** Files in memory *)

Lemma placed_header m a f : placed m a f -> (64 <= length f)%nat -> header_at m a = take 64 f.
Proof. intros Hp Hl. pose proof (placed_field m a f 0 64 Hp Hl) as H. by rewrite Z.add_0_r in H. Qed.

(** An image that lies in memory below the last address passes. *)
Lemma dcrc_accepted p t f data m a : good_image p t f data -> placed m a f -> 0 <= a -> a + Z.of_nat (length f) < 2 ^ 32 ->
  Z.of_nat (length data) < 2 ^ 32 -> image_check_dcrc m a = Ok true.
Proof.
  intros Hg Hp Ha Hf Hd. pose proof (gi_length _ _ _ _ Hg) as Hl. unfold image_check_dcrc, image_get_data, image_get_data_size.
  rewrite (placed_header m a f Hp) by lia. rewrite (gi_size _ _ _ _ Hg), (gi_dcrc _ _ _ _ Hg).
  rewrite !wrap_small by (unfold image_get_header_size; lia). rewrite Nat2Z.id. unfold image_get_header_size. cbn [crc32_wd res_bind]. f_equal. apply Z.eqb_eq.
  assert (bytes_at m (a + Z.of_nat 64) (length data) = data) as ->.
  { rewrite (placed_field m a f 64 (length data)) by (done || lia). unfold field. rewrite (gi_split _ _ _ _ Hg). by apply firstn_all. }
  assert (byte_list data) as Hb by (rewrite <- (gi_split _ _ _ _ Hg); apply Forall_drop, (gi_bytes _ _ _ _ Hg)).
  by rewrite !crc32_div by (done || lia).
Qed.

Lemma kernel_accepted p t f data m a verify : good_image p t f data -> placed m a f -> 0 <= a -> a + Z.of_nat (length f) < 2 ^ 32 ->
  Z.of_nat (length data) < 2 ^ 32 -> p_arch p = IH_ARCH_ARM ->
  genimg_get_format m a = IMAGE_FORMAT_LEGACY /\ image_get_kernel m a verify = Ok (Some a).
Proof.
  intros Hg Hp Ha Hf Hd Harch. pose proof (gi_length _ _ _ _ Hg) as Hl.
  pose proof (dcrc_accepted _ _ _ _ _ _ Hg Hp Ha Hf Hd) as Hdc.
  unfold genimg_get_format, image_get_kernel, image_check_target_arch, image_check_arch, image_check_magic.
  rewrite (placed_header m a f Hp) by lia. rewrite (gi_magic _ _ _ _ Hg), (gi_hcrc _ _ _ _ Hg), (gi_arch _ _ _ _ Hg), Harch. cbn [Z.eqb IH_MAGIC negb].
  split; [done|]. by destruct verify; rewrite ?Hdc.
Qed.

(** ** Multi-file images *)

(** The files behind the table: all but the last filled up to whole words. *)
Definition fill (n : nat) : list Z := if (n mod 4 =? 0)%nat then [] else replicate (4 - n mod 4) 0.
Fixpoint components (files : list (list Z)) : list Z :=
  match files with
  | [] => []
  | [f] => f
  | f :: files => f ++ fill (length f) ++ components files
  end.

Lemma copy_file_plain p out f pad r : p_xflag p = false -> copy_file p out f pad = Some r -> (pad = 0 \/ pad = 1) ->
  f <> [] /\ r = out ++ f ++ (if pad =? 1 then fill (length f) else []).
Proof.
  intros Hx H Hpad. unfold copy_file in H. rewrite Hx in H. cbn [andb] in H.
  destruct (4096 <=? pad); [done|]. case_bool_decide; [done|]. simplify_eq. split; [done|]. rewrite drop_0. do 2 f_equal. unfold fill.
  destruct Hpad as [->| ->]; [done|]. cbn [Z.eqb Pos.eqb andb]. by destruct (_ =? 0)%nat.
Qed.

Lemma copy_files_plain p files : forall out r, p_xflag p = false -> copy_files p out files = Some r ->
  Forall (fun f => f <> []) files /\ r = out ++ components files.
Proof.
  induction files as [|f files IH]; intros out r Hx H; [done|]. destruct files as [|g files].
  - apply copy_file_plain in H as [Hf ->]; [|done|by left]. split; [by constructor|]. cbn [Z.eqb components]. by rewrite app_nil_r.
  - cbn [copy_files] in H. destruct (copy_file p out f 1) as [out'|] eqn:E; [|done].
    apply copy_file_plain in E as [Hf ->]; [|done|by right]. destruct (IH _ _ Hx H) as [Hfs ->]. split; [by constructor|].
    cbn [Z.eqb Pos.eqb]. by rewrite <- !app_assoc.
Qed.

Lemma size_table_length files : length (size_table files) = (4 * (length files + 1))%nat.
Proof.
  unfold size_table. rewrite length_app, le32_length. induction files as [|f files IH]; [done|]. cbn [map concat length]. rewrite length_app, le32_length. lia.
Qed.

Lemma size_table_cons f files : size_table (f :: files) = be_field (Z.of_nat (length f)) ++ size_table files.
Proof. unfold size_table. cbn [map concat]. by rewrite <- app_assoc. Qed.

Lemma be_field_nonzero n : 0 < n < 2 ^ 32 -> 0 <= cpu_to_uimage (u32 n) < 2 ^ 32 /\ cpu_to_uimage (u32 n) <> 0.
Proof.
  intros Hn. rewrite wrap_small by lia. unfold cpu_to_uimage. destruct (swab32_twice n ltac:(lia)) as [E R]. split; [done|].
  intros H0. rewrite H0 in E. change (swab32 0) with 0 in E. lia.
Qed.

Definition small_files (files : list (list Z)) : Prop := Forall (fun f => 0 < Z.of_nat (length f) < 2 ^ 32) files.

Lemma count_files m files : forall n size i, placed m (size + 4 * i) (size_table files) -> small_files files -> (length files < n)%nat ->
  count_loop m n size i = Ok (i + Z.of_nat (length files)).
Proof.
  induction files as [|f files IH]; intros n size i Hp Hs Hn; (destruct n as [|n]; [simpl in *; lia|]); cbn [count_loop].
  - rewrite (placed_load m _ 0) by (done || lia). cbn [Z.eqb negb length]. f_equal. lia.
  - inversion_clear Hs as [|? ? Hf Hs']. rewrite size_table_cons in Hp. apply placed_app in Hp as [Hp Ht].
    destruct (be_field_nonzero _ Hf) as [Hr H0]. rewrite (placed_load m _ _ Hr Hp). rewrite (proj2 (Z.eqb_neq _ _) H0). cbn [negb].
    rewrite IH; [|by replace (size + 4 * (i + 1)) with (size + 4 * i + Z.of_nat (length (be_field (Z.of_nat (length f))))) by (change (length (be_field _)) with 4%nat; lia)|done|simpl in Hn; lia].
    f_equal. cbn [length]. lia.
Qed.

Lemma round_up n : 0 <= n < 2 ^ 32 - 3 -> (u32 (n + 3) .& ~32 3) = (n + 3) / 4 * 4.
Proof.
  intros Hn. rewrite wrap_small by lia. change (~32 3) with (2 ^ 32 - 2 ^ 2). apply (bits_eq 32).
  - apply (land_range 32). lia.
  - Z.div_mod_to_equations. lia.
  - intros i Hi. rewrite Z.land_spec. change (2 ^ 32 - 2 ^ 2) with (Z.ones 30 .<< 2).
    rewrite Z.shiftl_spec by lia. rewrite <- (Z.shiftl_mul_pow2 _ 2), Z.shiftl_spec by lia. rewrite <- (Z.shiftr_div_pow2 _ 2) by lia.
    destruct (Z.lt_ge_cases i 2).
    + rewrite !(Z.testbit_neg_r _ (i - 2)) by lia. apply andb_false_r.
    + rewrite Z.shiftr_spec by lia. rewrite Z.testbit_ones_nonneg by lia. rewrite (proj2 (Z.ltb_lt _ _)) by lia. rewrite andb_true_r. f_equal. lia.
Qed.

Definition padded (f : list Z) : Z := (Z.of_nat (length f) + 3) / 4 * 4.
Definition offset_of (files : list (list Z)) : Z := foldr (fun f s => padded f + s) 0 files.

Lemma padded_length f : Z.of_nat (length (f ++ fill (length f))) = padded f.
Proof.
  rewrite length_app. unfold fill, padded. pose proof (Nat2Z.inj_mod (length f) 4) as Em. change (Z.of_nat 4) with 4 in Em.
  pose proof (Nat.mod_upper_bound (length f) 4 ltac:(lia)) as Hu. revert Em Hu. generalize (length f mod 4)%nat. intros r Em Hu.
  destruct (Nat.eqb_spec r 0) as [E|E]; rewrite ?length_replicate; simpl length; Z.div_mod_to_equations; lia.
Qed.

Lemma offset_of_nonneg files : 0 <= offset_of files.
Proof. induction files as [|f files IH]; [done|]. cbn [offset_of foldr]. fold (offset_of files). unfold padded. Z.div_mod_to_equations. lia. Qed.

(** The component with number [i] begins behind the padded ones before it. *)
Lemma component_at files : forall i f, files !! i = Some f ->
  exists pre post, components files = pre ++ f ++ post /\ Z.of_nat (length pre) = offset_of (take i files).
Proof.
  induction files as [|g files IH]; intros i f Hi; [done|]. destruct i as [|i].
  - simpl in Hi. simplify_eq. destruct files as [|g files].
    + exists [], []. by rewrite app_nil_r.
    + by exists [], (fill (length f) ++ components (g :: files)).
  - simpl in Hi. destruct files as [|h files]; [done|]. destruct (IH i f Hi) as (pre & post & E & Hl).
    exists (g ++ fill (length g) ++ pre), post. split.
    + transitivity (g ++ fill (length g) ++ components (h :: files)); [done|]. rewrite E. by rewrite <- !app_assoc.
    + cbn [take offset_of foldr]. fold (offset_of (take i (h :: files))). rewrite <- Hl, <- padded_length, !length_app. lia.
Qed.

Lemma components_bound files : forall k, small_files files -> (k < length files)%nat -> offset_of (take k files) < Z.of_nat (length (components files)).
Proof.
  intros k Hs Hk. destruct (lookup_lt_is_Some_2 files k Hk) as [f Hf]. destruct (component_at files k f Hf) as (pre & post & -> & <-).
  pose proof (Forall_lookup_1 _ _ _ _ Hs Hf) as H. simpl in H. rewrite !length_app. lia.
Qed.

Lemma offset_files m size files : forall k i off, placed m (size + 4 * i) (size_table files) -> small_files files -> (k < length files)%nat ->
  0 <= off -> off + offset_of (take k files) < 2 ^ 32 ->
  offset_loop m k size i off = off + offset_of (take k files).
Proof.
  induction files as [|f files IH]; intros k i off Hp Hs Hk Ho Hb; [simpl in Hk; lia|]. destruct k as [|k]; [cbn; lia|].
  inversion_clear Hs as [|? ? Hf Hs']. rewrite size_table_cons in Hp. apply placed_app in Hp as [Hp Ht].
  cbn [take offset_of foldr] in *. fold (offset_of (take k files)) in *. pose proof (offset_of_nonneg (take k files)) as H0.
  destruct (be_field_nonzero _ Hf) as [Hr _]. cbn [offset_loop]. rewrite (placed_load m _ _ Hr Hp).
  assert (uimage_to_cpu (cpu_to_uimage (u32 (Z.of_nat (length f)))) = Z.of_nat (length f)) as E.
  { rewrite wrap_small by lia. apply swab32_twice. lia. }
  rewrite E, round_up by (unfold padded in Hb; Z.div_mod_to_equations; lia). fold (padded f). rewrite (wrap_small 32 (off + padded f)) by (unfold padded in *; Z.div_mod_to_equations; lia).
  rewrite IH; [lia| |done|simpl in Hk; lia|unfold padded; Z.div_mod_to_equations; lia|lia].
  by replace (size + 4 * (i + 1)) with (size + 4 * i + Z.of_nat (length (be_field (Z.of_nat (length f))))) by (change (length (be_field _)) with 4%nat; lia).
Qed.

Lemma size_table_bytes files : byte_list (size_table files).
Proof. induction files as [|f files IH]; [apply le32_are_bytes|]. rewrite size_table_cons. apply Forall_app. split; [apply le32_are_bytes|done]. Qed.

Lemma components_bytes files : Forall byte_list files -> byte_list (components files).
Proof.
  induction files as [|f files IH]; intros H; [constructor|]. inversion_clear H as [|? ? Hf Hs]. destruct files as [|g files]; [done|].
  apply Forall_app. split; [done|]. apply Forall_app. split; [|by apply IH]. unfold fill. case_if; [done|]. apply Forall_replicate. lia.
Qed.

Lemma placed_data p t f data m a : good_image p t f data -> placed m a f -> placed m (a + 64) data.
Proof.
  intros Hg Hp. pose proof (gi_length _ _ _ _ Hg) as Hl. rewrite <- (take_drop 64 f) in Hp. apply placed_app in Hp as [_ Hp].
  rewrite length_take in Hp. rewrite (gi_split _ _ _ _ Hg) in Hp. by replace (a + 64) with (a + Z.of_nat (64 `min` length f)) by lia.
Qed.

Lemma table_entry_size m size files : forall i g, placed m size (size_table files) -> small_files files -> files !! i = Some g ->
  uimage_to_cpu (load32 m (size + 4 * Z.of_nat i)) = Z.of_nat (length g).
Proof.
  revert size. induction files as [|f files IH]; intros size i g Hp Hs Hi; [done|]. inversion_clear Hs as [|? ? Hf Hs'].
  rewrite size_table_cons in Hp. apply placed_app in Hp as [Hp Ht]. change (length (be_field _)) with 4%nat in Ht. destruct i as [|i].
  - simpl in Hi. simplify_eq. destruct (be_field_nonzero _ Hf) as [Hr _]. cbn [Z.of_nat Z.mul]. rewrite Z.add_0_r, (placed_load m _ _ Hr Hp).
    rewrite wrap_small by lia. apply swab32_twice. lia.
  - replace (size + 4 * Z.of_nat (S i)) with (size + Z.of_nat 4 + 4 * Z.of_nat i) by lia. by apply IH.
Qed.

(** A multi-file image of the tool in memory: how many components there are, and each of them. *)
Lemma multi_components p t files f m a n :
  mkimage p t files = Some f -> p_type p = IH_TYPE_MULTI \/ p_type p = IH_TYPE_SCRIPT -> p_xflag p = false ->
  Forall byte_list files -> byte_list (p_imagename p) -> placed m a f -> 0 <= a -> a + Z.of_nat (length f) < 2 ^ 32 -> (length files < n)%nat ->
  good_image p t f (size_table files ++ components files) /\ small_files files /\
  image_multi_count m n a = Ok (Z.of_nat (length files)) /\
  (forall i g, files !! i = Some g -> exists d, image_multi_getimg m n a (Z.of_nat i) = Ok (d, Z.of_nat (length g)) /\ placed m d g /\ a + 64 < d /\ d + Z.of_nat (length g) <= a + Z.of_nat (length f)) /\
  (forall i, Z.of_nat (length files) <= i -> image_multi_getimg m n a i = Ok (0, 0)).
Proof.
  intros Hm Hty Hx Hb Hnb Hp Ha Hf Hn. unfold mkimage in Hm.
  assert ((p_type p =? IH_TYPE_MULTI) || (p_type p =? IH_TYPE_SCRIPT) = true) as Hty' by (by destruct Hty as [-> | ->]). rewrite Hty' in Hm.
  destruct (copy_files p _ files) as [ptr|] eqn:Hc; [|done]. injection Hm as Hm. apply copy_files_plain in Hc as [Hne ->]; [|done].
  rewrite <- app_assoc in Hm. set (data := size_table files ++ components files) in *.
  assert (length f = (64 + length data)%nat) as Hlen.
  { rewrite <- Hm, set_header_puts. cbv zeta. rewrite put_all_length, length_app, length_replicate. done. }
  assert (byte_list data) as Hdb by (apply Forall_app; split; [apply size_table_bytes|by apply components_bytes]).
  assert (small_files files) as Hs.
  { apply Forall_lookup. intros i g Hg. pose proof (Forall_lookup_1 _ _ _ _ Hne Hg) as Hg0. destruct (component_at files i g Hg) as (pre & post & E & _).
    assert (length g <= length data)%nat by (unfold data; rewrite E, !length_app; lia). destruct g; [done|]. simpl length in *. lia. }
  assert (good_image p t f data) as Hg by (rewrite <- Hm; apply set_header_ok; [done|done|lia]).
  assert (placed m (a + 64) data) as Hpd.
  { by apply (placed_data p t f). }
  unfold image_multi_getimg, image_multi_count, image_get_data, image_get_header_size. change (Z.of_nat 64) with 64. rewrite wrap_small by lia.
  apply placed_app in Hpd as [Hpt Hpc]. rewrite size_table_length in Hpc. unfold data in Hlen. rewrite length_app, size_table_length in Hlen.
  rewrite (count_files m files n (a + 64) 0) by (rewrite ?Z.add_0_r; done). cbn [res_bind]. rewrite Z.add_0_l. split_and!; try done.
  - intros i g Hi. assert (i < length files)%nat as Hi' by (by apply lookup_lt_Some in Hi). rewrite (proj2 (Z.ltb_lt _ _)) by lia.
    destruct (component_at files i g Hi) as (pre & post & E & Hpre). rewrite E in Hpc, Hlen. rewrite !length_app in Hlen.
    apply placed_app in Hpc as [_ Hpc]. apply placed_app in Hpc as [Hpg _].
    rewrite Nat2Z.id, (offset_files m (a + 64) files i 0 0) by (rewrite ?Z.add_0_r; done || lia).
    exists (a + 64 + Z.of_nat (4 * (length files + 1)) + Z.of_nat (length pre)). split_and!; [|done|lia|lia].
    do 2 f_equal.
    + rewrite <- Hpre, (wrap_small 32 (a + 64 + _)) by lia. rewrite wrap_small by lia. lia.
    + by apply (table_entry_size m (a + 64) files).
  - intros i Hi. by rewrite (proj2 (Z.ltb_ge _ _)).
Qed.

(** ** What the checksum notices *)

Lemma crc32_bit_inj x y : 0 <= x < 2 ^ 32 -> 0 <= y < 2 ^ 32 -> crc32_bit x = crc32_bit y -> x = y.
Proof.
  intros Hx Hy H. assert (forall z, 0 <= z < 2 ^ 32 -> Z.testbit (crc32_bit z) 31 = Z.testbit z 0) as Hp.
  { intros z Hz. unfold crc32_bit. rewrite Z.lxor_spec, Z.shiftr_spec, (testbit_high 32 z) by lia. rewrite xorb_false_l. by destruct (Z.testbit z 0). }
  assert (Z.testbit x 0 = Z.testbit y 0) as H0 by (rewrite <- !Hp by done; by rewrite H).
  unfold crc32_bit in H. rewrite H0 in H. assert (x .>> 1 = y .>> 1) as Hs.
  { apply (f_equal (Z.lxor (if Z.testbit y 0 then 0xedb88320 else 0))) in H. rewrite !(Z.lxor_comm (_ .>> 1)), <- !Z.lxor_assoc, Z.lxor_nilpotent, !Z.lxor_0_l in H. done. }
  apply Z.bits_inj'. intros i Hi. destruct (decide (i = 0)) as [->|]; [done|].
  replace i with (i - 1 + 1) by lia. by rewrite <- !Z.shiftr_spec, Hs by lia.
Qed.

Lemma crc32_iter_inj n x y : 0 <= x < 2 ^ 32 -> 0 <= y < 2 ^ 32 -> Nat.iter n crc32_bit x = Nat.iter n crc32_bit y -> x = y.
Proof.
  intros Hx Hy. induction n as [|n IH]; [done|]. cbn [Nat.iter nat_rect]. intros H. apply IH.
  apply crc32_bit_inj in H; [done|by apply crc32_iter_range|by apply crc32_iter_range].
Qed.

Lemma lxor_cancel a x y : a .^ x = a .^ y -> x = y.
Proof. intros H. apply (f_equal (Z.lxor a)) in H. by rewrite <- !Z.lxor_assoc, Z.lxor_nilpotent, !Z.lxor_0_l in H. Qed.

#[local] Strategy expand [crc32_byte].

Lemma crc32_byte_inj c c' b : 0 <= c < 2 ^ 32 -> 0 <= c' < 2 ^ 32 -> 0 <= b < 256 -> crc32_byte c b = crc32_byte c' b -> c = c'.
Proof.
  intros Hc Hc' Hb H. assert (forall x, 0 <= x < 2 ^ 32 -> 0 <= x .^ b < 2 ^ 32) as Hr by (intros; apply lxor_range; lia).
  unfold crc32_byte in H. apply (crc32_iter_inj 8 _ _ (Hr c Hc) (Hr c' Hc')) in H. rewrite !(Z.lxor_comm _ b) in H. by apply lxor_cancel in H.
Qed.

(** Different remainders stay different whatever follows. *)
Lemma crc32_ref_inj msg : forall c c', byte_list msg -> 0 <= c < 2 ^ 32 -> 0 <= c' < 2 ^ 32 -> crc32_ref c msg = crc32_ref c' msg -> c = c'.
Proof.
  induction msg as [|b msg IH]; intros c c' Hm Hc Hc' H; [done|]. inversion_clear Hm as [|? ? Hb Hm'].
  apply (IH _ _ Hm' (crc32_byte_range c b Hc Hb) (crc32_byte_range c' b Hc' Hb)) in H. by apply crc32_byte_inj in H.
Qed.

Lemma four_zero_bytes x : 0 <= x < 2 ^ 32 ->
  DO_CRC (DO_CRC (DO_CRC (DO_CRC x 0) 0) 0) 0 = Nat.iter 8 crc32_bit (Nat.iter 8 crc32_bit (Nat.iter 8 crc32_bit (Nat.iter 8 crc32_bit x))).
Proof.
  intros Hx. pose proof (crc32_iter_range 8 x Hx) as H1. pose proof (crc32_iter_range 8 _ H1) as H2. pose proof (crc32_iter_range 8 _ H2) as H3.
  rewrite (do_crc_0 x Hx), (do_crc_0 _ H1), (do_crc_0 _ H2), (do_crc_0 _ H3). reflexivity.
Qed.

Lemma four_zero_bytes_inj x y : 0 <= x < 2 ^ 32 -> 0 <= y < 2 ^ 32 ->
  DO_CRC (DO_CRC (DO_CRC (DO_CRC x 0) 0) 0) 0 = DO_CRC (DO_CRC (DO_CRC (DO_CRC y 0) 0) 0) 0 -> x = y.
Proof.
  intros Hx Hy H. rewrite (four_zero_bytes x Hx), (four_zero_bytes y Hy) in H.
  pose proof (crc32_iter_range 8 x Hx) as H1. pose proof (crc32_iter_range 8 _ H1) as H2. pose proof (crc32_iter_range 8 _ H2) as H3.
  pose proof (crc32_iter_range 8 y Hy) as G1. pose proof (crc32_iter_range 8 _ G1) as G2. pose proof (crc32_iter_range 8 _ G2) as G3.
  apply (crc32_iter_inj 8 _ _ H3 G3), (crc32_iter_inj 8 _ _ H2 G2), (crc32_iter_inj 8 _ _ H1 G1), (crc32_iter_inj 8 _ _ Hx Hy) in H. exact H.
Qed.

Lemma word_bytes_inj b0 b1 b2 b3 b0' b1' b2' b3' :
  byte_list [b0; b1; b2; b3] -> byte_list [b0'; b1'; b2'; b3'] ->
  b0 + 2 ^ 8 * b1 + 2 ^ 16 * b2 + 2 ^ 24 * b3 = b0' + 2 ^ 8 * b1' + 2 ^ 16 * b2' + 2 ^ 24 * b3' -> [b0; b1; b2; b3] = [b0'; b1'; b2'; b3'].
Proof.
  intros Hb Hb' E. unfold byte_list in *. repeat rewrite Forall_cons in Hb. repeat rewrite Forall_cons in Hb'.
  assert (b0 = b0' /\ b1 = b1' /\ b2 = b2' /\ b3 = b3') as (-> & -> & -> & ->) by lia. done.
Qed.

Lemma crc32_ref_word c w w' : length w = 4%nat -> length w' = 4%nat -> byte_list w -> byte_list w' -> 0 <= c < 2 ^ 32 ->
  crc32_ref c w = crc32_ref c w' -> w = w'.
Proof.
  intros Hl Hl' Hb Hb' Hc H. destruct w as [|b0 [|b1 [|b2 [|b3 [|]]]]]; try done. destruct w' as [|b0' [|b1' [|b2' [|b3' [|]]]]]; try done.
  apply word_bytes_inj; [done|done|]. unfold byte_list in *. repeat rewrite Forall_cons in Hb. repeat rewrite Forall_cons in Hb'.
  destruct Hb as (H0 & H1 & H2 & H3 & _), Hb' as (H0' & H1' & H2' & H3' & _).
  rewrite <- (word_step c b0 b1 b2 b3), <- (word_step c b0' b1' b2' b3') in H by done.
  apply four_zero_bytes_inj in H; [by apply lxor_cancel in H|apply lxor_range; lia..].
Qed.

(** A change inside four neighbouring bytes changes the checksum. *)
Lemma crc32_burst addr pre w w' post : (length w <= 4)%nat -> length w = length w' ->
  byte_list (pre ++ w ++ post) -> byte_list (pre ++ w' ++ post) -> crc32 0 addr (pre ++ w ++ post) = crc32 0 addr (pre ++ w' ++ post) -> w = w'.
Proof.
  intros H4 Hl Hb Hb' H. rewrite !crc32_div in H by (done || lia).
  apply (f_equal (fun x => x .^ 0xffffffff)) in H. rewrite !Z.lxor_assoc, Z.lxor_nilpotent, !Z.lxor_0_r in H.
  apply Forall_app in Hb as [Hp Hb]. apply Forall_app in Hb as [Hw Ho]. apply Forall_app in Hb' as [_ Hb']. apply Forall_app in Hb' as [Hw' _].
  rewrite !crc32_ref_app in H. assert (0 <= crc32_ref (0 .^ 0xffffffff) pre < 2 ^ 32) as Hc by (apply crc32_ref_range; [done|done]).
  revert Hc H. generalize (crc32_ref (0 .^ 0xffffffff) pre). intros c Hc H.
  apply crc32_ref_inj in H; [|done|by apply crc32_ref_range..].
  apply (f_equal (fun x => crc32_ref x (replicate (4 - length w) 0))) in H. rewrite <- !crc32_ref_app in H.
  assert (byte_list (replicate (4 - length w) 0)) as Hz by (apply Forall_replicate; lia).
  apply crc32_ref_word in H; [by apply app_inj_2 in H as [H _]| | | | |done];
    first [rewrite length_app, length_replicate; lia|apply Forall_app; by split].
Qed.

Lemma crc32_burst_inserts addr off w h : (length w <= 4)%nat -> (off + length w <= length h)%nat -> byte_list w -> byte_list h ->
  crc32 0 addr (list_inserts off w h) = crc32 0 addr h -> field off (length w) h = w.
Proof.
  intros H4 Hl Hw Hh H. pose proof (byte_list_inserts off w h Hw Hh) as Hi. destruct (inserts_split off w h Hl) as [E1 E2].
  symmetry. apply (crc32_burst addr (take off h) w (field off (length w) h) (drop (off + length w) h)); try done.
  - by rewrite field_length.
  - by rewrite <- E1.
  - by rewrite <- E2.
  - by rewrite <- E1, <- E2.
Qed.

Lemma check_hcrc_fields h : image_check_hcrc h = (crc32 0 0 (list_inserts 4 [0; 0; 0; 0] h) =? uimage_to_cpu (of_le32 (field 4 4 h))).
Proof. reflexivity. Qed.

Section corruption.
Context (m : Z -> Z) (a : Z) (off : nat) (w : list Z).
Hypothesis m_bytes : forall x, 0 <= m x < 256.
Hypothesis w_bytes : byte_list w.
Hypothesis w_short : (length w <= 4)%nat.
Hypothesis w_new : bytes_at m (a + Z.of_nat off) (length w) <> w.
Let m' := copy_to m (a + Z.of_nat off) w.

Lemma field_of_memory n : (off + length w <= n)%nat -> field off (length w) (bytes_at m a n) = bytes_at m (a + Z.of_nat off) (length w).
Proof.
  intros Hn. symmetry. pose proof (placed_field m a (bytes_at m a n) off (length w)) as H. rewrite bytes_at_length in H. apply H; [|done].
  unfold placed. by rewrite bytes_at_length.
Qed.

Lemma header_burst : (off + length w <= 64)%nat -> (off + length w <= 4 \/ 8 <= off)%nat ->
  image_check_hcrc (header_at m a) = true -> image_check_hcrc (header_at m' a) = false.
Proof.
  intros Hin Hd Hok. rewrite check_hcrc_fields in *. apply Z.eqb_eq in Hok. apply Z.eqb_neq. intros H. apply w_new.
  assert (header_at m' a = list_inserts off w (header_at m a)) as E by by apply bytes_at_patch.
  rewrite E, field_other, <- Hok, inserts_comm in H by (simpl; lia). rewrite <- (field_of_memory 64 Hin). fold (header_at m a).
  apply crc32_burst_inserts in H; [|done| |done|].
  - rewrite field_other in H by (simpl; lia). done.
  - rewrite length_inserts. unfold header_at. by rewrite bytes_at_length.
  - apply byte_list_inserts; [repeat constructor; lia|by apply bytes_at_bytes].
Qed.

Lemma data_burst : let size := Z.to_nat (image_get_size (header_at m a)) in
  (64 <= off)%nat -> (off + length w <= 64 + size)%nat -> 0 <= a -> a + 64 < 2 ^ 32 ->
  image_check_dcrc m a = Ok true -> header_at m' a = header_at m a /\ image_check_dcrc m' a = Ok false.
Proof.
  intros size Hlo Hhi Ha Hw Hok. assert (header_at m' a = header_at m a) as Hh.
  { unfold header_at, image_get_header_size, m'. apply bytes_at_outside. lia. }
  split; [done|]. unfold image_check_dcrc, image_get_data, image_get_header_size, image_get_data_size in *. rewrite Hh. fold size in Hok |- *.
  change (Z.of_nat 64) with 64 in *. rewrite wrap_small in * by lia. cbn [crc32_wd res_bind] in *. injection Hok as Hok. apply Z.eqb_eq in Hok.
  f_equal. apply Z.eqb_neq. rewrite <- Hok. intros H. unfold m' in H.
  replace (a + Z.of_nat off) with (a + 64 + Z.of_nat (off - 64)) in H by lia. rewrite bytes_at_patch in H by lia.
  apply w_new. apply crc32_burst_inserts in H; [|done|rewrite bytes_at_length; lia|done|by apply bytes_at_bytes]. rewrite <- H at 2.
  pose proof (placed_field m (a + 64) (bytes_at m (a + 64) size) (off - 64) (length w)) as Hf. rewrite bytes_at_length in Hf.
  rewrite <- Hf by (try lia; unfold placed; by rewrite bytes_at_length). f_equal. lia.
Qed.
End corruption.

(** ** Theorems *)

Lemma info_accepted p t f data m a : good_image p t f data -> placed m a f -> 0 <= a -> a + Z.of_nat (length f) < 2 ^ 32 ->
  Z.of_nat (length data) < 2 ^ 32 -> image_info m a = Ok 0 /\ image_verify_header f = 0.
Proof.
  intros Hg Hp Ha Hf Hd. pose proof (gi_length _ _ _ _ Hg) as Hl. split.
  - unfold image_info, genimg_get_format, image_check_magic. rewrite (dcrc_accepted _ _ _ _ _ _ Hg Hp Ha Hf Hd).
    rewrite (placed_header m a f Hp) by lia. by rewrite (gi_magic _ _ _ _ Hg), (gi_hcrc _ _ _ _ Hg).
  - unfold image_verify_header, image_get_header_size. rewrite (gi_magic _ _ _ _ Hg), (gi_split _ _ _ _ Hg). cbn [Z.eqb IH_MAGIC Pos.eqb negb].
    pose proof (gi_hcrc _ _ _ _ Hg) as Hc. unfold image_check_hcrc in Hc. rewrite Hc. cbn [negb].
    assert (image_get_dcrc (image_set_hcrc (take 64 f) 0) = image_get_dcrc (take 64 f)) as ->.
    { unfold image_get_dcrc, image_set_hcrc, image_set_hdr_l. rewrite !get_l_field. by rewrite field_other by (rewrite le32_length; lia). }
    rewrite (gi_dcrc _ _ _ _ Hg). change (Z.of_nat 64) with 64. by rewrite (Z.eqb_refl (crc32 0 64 data)).
Qed.

(** C11: a multi-file or script image that the host tool writes without its option [-x] is taken apart by the boot loader: wherever the
    file is placed in memory below the last address, [iminfo] and [mkimage -l] find it intact, it has as many components as there
    were files, the component with a number is exactly the bytes of that file, inside the image, and a number beyond them gives
    nothing.  With [-x] the tool leaves out the first 64 bytes of every file while the table keeps their full sizes, and this does not hold. *)
Theorem multi_image_roundtrip p t files f m a n :
  mkimage p t files = Some f -> p_type p = IH_TYPE_MULTI \/ p_type p = IH_TYPE_SCRIPT -> p_xflag p = false ->
  Forall byte_list files -> byte_list (p_imagename p) -> placed m a f -> 0 <= a -> a + Z.of_nat (length f) < 2 ^ 32 -> (length files < n)%nat ->
  image_info m a = Ok 0 /\ image_verify_header f = 0 /\ image_multi_count m n a = Ok (Z.of_nat (length files)) /\
  (forall i g, files !! i = Some g -> exists d, image_multi_getimg m n a (Z.of_nat i) = Ok (d, Z.of_nat (length g)) /\
     bytes_at m d (length g) = g /\ a + 64 < d /\ d + Z.of_nat (length g) <= a + Z.of_nat (length f)) /\
  (forall i, Z.of_nat (length files) <= i -> image_multi_getimg m n a i = Ok (0, 0)).
Proof.
  intros Hm Hty Hx Hb Hnb Hp Ha Hf Hn.
  destruct (multi_components p t files f m a n Hm Hty Hx Hb Hnb Hp Ha Hf Hn) as (Hg & _ & Hc & Hi & Ho). pose proof (gi_length _ _ _ _ Hg) as Hl.
  destruct (info_accepted p t f _ m a Hg Hp Ha Hf ltac:(lia)) as [H1 H2]. done.
Qed.

Definition script_params : image_tool_params :=
  Params IH_OS_LINUX IH_ARCH_ARM IH_TYPE_MULTI IH_COMP_NONE 0x20008000 0 false false (cstr "kernel and ramdisk").
Definition two_files : list (list Z) := [cstr "kernel"; cstr "ramdisk!!"].
Definition two_files_image : list Z := default [] (mkimage script_params 0x53000000 two_files).

Lemma multi_image_roundtrip_witness :
  let m := copy_to (fun _ => 0) 0x21000000 two_files_image in
  image_info m 0x21000000 = Ok 0 /\ image_verify_header two_files_image = 0 /\ image_multi_count m 10 0x21000000 = Ok 2 /\
  (forall i g, two_files !! i = Some g -> exists d, image_multi_getimg m 10 0x21000000 (Z.of_nat i) = Ok (d, Z.of_nat (length g)) /\
     bytes_at m d (length g) = g /\ 0x21000000 + 64 < d /\ d + Z.of_nat (length g) <= 0x21000000 + Z.of_nat (length two_files_image)) /\
  (forall i, Z.of_nat (length two_files) <= i -> image_multi_getimg m 10 0x21000000 i = Ok (0, 0)).
Proof.
  intros m. apply (multi_image_roundtrip script_params 0x53000000 two_files two_files_image m 0x21000000 10).
  - vm_compute. reflexivity.
  - left. reflexivity.
  - reflexivity.
  - apply Forall_cons; split; [by apply byte_list_check|]. apply Forall_cons; split; [by apply byte_list_check|constructor].
  - by apply byte_list_check.
  - apply bytes_at_copy. reflexivity.
  - lia.
  - vm_compute. reflexivity.
  - simpl. lia.
Defined.

Lemma dcrc_total m a : exists b, image_check_dcrc m a = Ok b.
Proof. eexists. reflexivity. Qed.

(** C21: damage to an image is noticed when verification is on, as it is unless [verify] says otherwise: if up to four neighbouring bytes of an accepted kernel image change, in the header beside the
    header checksum or in the data, it is refused. *)
Theorem damaged_image_refused m a off w :
  image_get_kernel m a true = Ok (Some a) -> 0 <= a -> a + 64 < 2 ^ 32 -> (forall x, 0 <= m x < 256) -> byte_list w -> (length w <= 4)%nat ->
  bytes_at m (a + Z.of_nat off) (length w) <> w ->
  (off + length w <= 4 \/ 8 <= off /\ off + length w <= 64 \/ 64 <= off /\ off + length w <= 64 + Z.to_nat (image_get_size (header_at m a)))%nat ->
  image_get_kernel (copy_to m (a + Z.of_nat off) w) a true = Ok None.
Proof.
  intros Hok Ha Hw Hm Hb H4 Hne Hoff. unfold image_get_kernel in *.
  destruct (image_check_magic (header_at m a)) eqn:Hmg; [|done]. destruct (image_check_hcrc (header_at m a)) eqn:Hh; [|done]. cbn [negb] in Hok.
  assert (image_check_dcrc m a = Ok true) as Hd.
  { destruct (dcrc_total m a) as [[] E]; [done|]. rewrite E in Hok. discriminate Hok. }
  destruct Hoff as [Ho|[Ho|Ho]].
  - rewrite (header_burst m a off w) by (done || lia). by case_if.
  - rewrite (header_burst m a off w) by (done || lia). by case_if.
  - destruct (data_burst m a off w Hm Hb H4 Hne ltac:(lia) ltac:(lia) Ha Hw Hd) as [-> ->]. by rewrite Hmg, Hh.
Qed.

Lemma damaged_image_refused_witness :
  let m := copy_to (fun _ => 0) 0x21000000 two_files_image in
  image_get_kernel (copy_to m (0x21000000 + Z.of_nat 76) [0x4B]) 0x21000000 true = Ok None.
Proof.
  intros m. apply (damaged_image_refused m 0x21000000 76 [0x4B]).
  - vm_compute. reflexivity.
  - lia.
  - lia.
  - intros x. unfold m, copy_to. case_bool_decide; [|lia]. assert (byte_list two_files_image) as Hb by (apply byte_list_check; vm_compute; reflexivity).
    destruct (nth_in_or_default (Z.to_nat (x - 0x21000000)) two_files_image 0) as [Hi|E]; [|rewrite E; lia].
    apply list_elem_of_In in Hi. exact (proj1 (Forall_forall _ _) Hb _ Hi).
  - by apply byte_list_check.
  - simpl. lia.
  - vm_compute. discriminate.
  - right. right. vm_compute. split; repeat constructor.
Defined.
