(* ===== verification/Atags.v ===== *)
(** * The parameters for the kernel ([arch/arm/lib/bootm.c], [arch/arm/include/asm/setup.h], [asm/bootm.h])

    A list of tagged entries in memory: a size in words, a tag, and fields; the list ends with an entry of size
    zero.  The [setup_*] functions write it through the static pointer [params]; [for_each_tag] is how the header
    says it is read.  The theorem: the kernel reads exactly the entries that describe the board, the command line
    and the ramdisk, and nothing outside the list has changed. *)
From S2P Require Import Prelude Ram.

Definition ATAG_NONE : Z := 0.
Definition ATAG_CORE : Z := 0x54410001.
Definition ATAG_MEM : Z := 0x54410002.
Definition ATAG_INITRD2 : Z := 0x54420005.
Definition ATAG_SERIAL : Z := 0x54410006.
Definition ATAG_REVISION : Z := 0x54410007.
Definition ATAG_CMDLINE : Z := 0x54410009.

(** The parts of [bd_t] that are used; [bi_dram] has [CONFIG_NR_DRAM_BANKS] elements, a start and a size each. *)
Record bd_t := Bd { bi_boot_params : Z; bi_arch_number : Z; bi_dram : list (Z * Z) }.

(** Which entries are configured; for the board all but the serial number and the revision. *)
Record tag_config := Cfg { serial_tag : option (Z * Z); cmdline_tag : bool; revision_tag : option Z; memory_tags : bool; initrd_tag : bool }.
Definition smdkv210_tags : tag_config := Cfg None true None true true.

(** [tag_size(type)] for a structure of [n] bytes. *)
Definition tag_size (n : Z) : Z := (8 + n) .>> 2.
Definition tag_next (m : Z -> Z) (t : Z) : Z := u32 (t + 4 * load32 m t).

(** An entry whose fields are the words [ws]: tag, size and fields are stored, and [params] goes to the next entry. *)
Fixpoint store_fields (m : Z -> Z) (a : Z) (ws : list Z) : Z -> Z :=
  match ws with
  | [] => m
  | w :: ws => store_fields (store32 m a w) (a + 4) ws
  end.
Definition put_tag (tag : Z) (ws : list Z) (s : (Z -> Z) * Z) : (Z -> Z) * Z :=
  let '(m, params) := s in
  let m := store32 m (params + 4) tag in
  let m := store32 m params (tag_size (4 * Z.of_nat (length ws))) in
  let m := store_fields m (params + 8) ws in
  (m, tag_next m params).

Definition setup_start_tag (bd : bd_t) (m : Z -> Z) : (Z -> Z) * Z := put_tag ATAG_CORE [0; 0; 0] (m, bi_boot_params bd).

(** The structure has the size before the start. *)
Fixpoint setup_memory_tags (banks : list (Z * Z)) (s : (Z -> Z) * Z) : (Z -> Z) * Z :=
  match banks with
  | [] => s
  | (start, size) :: banks => setup_memory_tags banks (put_tag ATAG_MEM [size; start] s)
  end.

Fixpoint skip_spaces (p : list Z) : list Z :=
  match p with
  | c :: p' => if c =? 0x20 then skip_spaces p' else p
  | [] => []
  end.

Definition setup_commandline_tag (commandline : option (list Z)) (s : (Z -> Z) * Z) : (Z -> Z) * Z :=
  match commandline with
  | None => s
  | Some commandline =>
    let p := skip_spaces commandline in
    if bool_decide (p = []) then s
    else
      let '(m, params) := s in
      let m := store32 m (params + 4) ATAG_CMDLINE in
      let m := store32 m params ((8 + Z.of_nat (length p) + 1 + 4) .>> 2) in
      let m := copy_to m (params + 8) (p ++ [0]) in
      (m, tag_next m params)
  end.

Definition setup_initrd_tag (initrd_start initrd_end : Z) (s : (Z -> Z) * Z) : (Z -> Z) * Z :=
  put_tag ATAG_INITRD2 [initrd_start; u32 (initrd_end - initrd_start)] s.

Definition setup_serial_tag (serialnr : Z * Z) (s : (Z -> Z) * Z) : (Z -> Z) * Z :=
  put_tag ATAG_SERIAL [fst serialnr; snd serialnr] s.

Definition setup_revision_tag (rev : Z) (s : (Z -> Z) * Z) : (Z -> Z) * Z := put_tag ATAG_REVISION [rev] s.

Definition setup_end_tag (s : (Z -> Z) * Z) : Z -> Z :=
  let '(m, params) := s in store32 (store32 m (params + 4) ATAG_NONE) params 0.

(** The tags of [boot_prep_linux]: no device tree and no tags of the board's own are configured; without any
    kind of tag the function does not return. *)
Definition setup_tags (c : tag_config) (bd : bd_t) (commandline : option (list Z)) (rd_start rd_end : Z) (m : Z -> Z) : res (Z -> Z) :=
  if memory_tags c || cmdline_tag c || initrd_tag c || bool_decide (serial_tag c <> None) || bool_decide (revision_tag c <> None) then
    let s := setup_start_tag bd m in
    let s := match serial_tag c with Some nr => setup_serial_tag nr s | None => s end in
    let s := if cmdline_tag c then setup_commandline_tag commandline s else s in
    let s := match revision_tag c with Some rev => setup_revision_tag rev s | None => s end in
    let s := if memory_tags c then setup_memory_tags (bi_dram bd) s else s in
    let s := if initrd_tag c && negb (rd_start =? 0) && negb (rd_end =? 0) then setup_initrd_tag rd_start rd_end s else s in
    Ok (setup_end_tag s)
  else Hang.

(** Reading the list: the tags with their fields, as bytes. *)
Fixpoint for_each_tag (n : nat) (m : Z -> Z) (t : Z) : res (list (Z * list Z)) :=
  match n with
  | O => Hang
  | S n =>
    let size := load32 m t in
    if size =? 0 then Ok []
    else
      let* l := for_each_tag n m (tag_next m t) in
      Ok ((load32 m (t + 4), bytes_at m (t + 8) (Z.to_nat (4 * size - 8))) :: l)
  end.

(** ** What the kernel is told *)

Inductive atag :=
  | Core (flags pagesize rootdev : Z)
  | Mem (start size : Z)
  | Cmdline (s : list Z)
  | Initrd2 (start size : Z)
  | Serial (low high : Z)
  | Revision (rev : Z)
  | Unknown.

(** The word with number [i] of the fields; a command line ends at its NUL. *)
Definition word (i : nat) (fields : list Z) : Z := of_le32 (field (4 * i) 4 fields).
Definition decode (e : Z * list Z) : atag :=
  let '(tag, f) := e in
  if tag =? ATAG_CORE then Core (word 0 f) (word 1 f) (word 2 f)
  else if tag =? ATAG_MEM then Mem (word 1 f) (word 0 f)
  else if tag =? ATAG_CMDLINE then Cmdline (c_string f)
  else if tag =? ATAG_INITRD2 then Initrd2 (word 0 f) (word 1 f)
  else if tag =? ATAG_SERIAL then Serial (word 0 f) (word 1 f)
  else if tag =? ATAG_REVISION then Revision (word 0 f)
  else Unknown.

Definition told (c : tag_config) (bd : bd_t) (commandline : option (list Z)) (rd_start rd_end : Z) : list atag :=
  [Core 0 0 0]
  ++ match serial_tag c with Some (low, high) => [Serial low high] | None => [] end
  ++ (if cmdline_tag c then match commandline with
        | Some s => if bool_decide (skip_spaces s = []) then [] else [Cmdline (skip_spaces s)]
        | None => [] end else [])
  ++ match revision_tag c with Some rev => [Revision rev] | None => [] end
  ++ (if memory_tags c then map (fun b => Mem (fst b) (snd b)) (bi_dram bd) else [])
  ++ (if initrd_tag c && negb (rd_start =? 0) && negb (rd_end =? 0) then [Initrd2 rd_start (u32 (rd_end - rd_start))] else []).

(** ** The list in memory *)

(** An entry as bytes. *)
Definition enc (e : Z * list Z) : list Z := le32 ((8 + Z.of_nat (length (snd e))) / 4) ++ le32 (fst e) ++ snd e.
Definition entry_ok (e : Z * list Z) : Prop := 0 <= fst e < 2 ^ 32 /\ (length (snd e) mod 4 = 0)%nat /\ 8 + Z.of_nat (length (snd e)) < 2 ^ 32.

Lemma enc_length e : length (enc e) = (8 + length (snd e))%nat.
Proof. unfold enc. rewrite !length_app, !le32_length. lia. Qed.

(** From [base] up to [params] memory holds the entries [l]; everything else is as in [m0]. *)
Record listed (m0 m : Z -> Z) (base params : Z) (l : list (Z * list Z)) : Prop := {
  ls_placed : placed m base (concat (map enc l));
  ls_end : params = base + Z.of_nat (length (concat (map enc l)));
  ls_ok : Forall entry_ok l;
  ls_frame : forall x, x < base \/ params <= x -> m x = m0 x
}.

Lemma store_fields_outside ws : forall m a x, x < a \/ a + 4 * Z.of_nat (length ws) <= x -> store_fields m a ws x = m x.
Proof.
  induction ws as [|w ws IH]; intros m a x Hx; [done|]. cbn [store_fields length] in *. rewrite IH by lia. apply copy_to_outside. rewrite le32_length. lia.
Qed.

Lemma store_fields_placed ws : forall m a, placed (store_fields m a ws) a (concat (map le32 ws)).
Proof.
  induction ws as [|w ws IH]; intros m a; [done|]. cbn [store_fields map concat]. apply placed_app. split.
  - unfold placed. rewrite (bytes_at_ext _ (store32 m a w)); [by apply bytes_at_copy|]. intros x Hx. rewrite le32_length in Hx. apply store_fields_outside. lia.
  - rewrite le32_length. apply IH.
Qed.

Lemma placed_ext m m' a f : (forall x, a <= x < a + Z.of_nat (length f) -> m x = m' x) -> placed m a f -> placed m' a f.
Proof. intros H Hp. unfold placed in *. by rewrite <- (bytes_at_ext m m'). Qed.

Lemma load32_at m a v : 0 <= v < 2 ^ 32 -> placed m a (le32 v) -> load32 m a = v.
Proof. apply placed_load. Qed.

(** One more entry: its bytes are there, nothing else has changed, and its size leads behind it. *)
Lemma listed_snoc m0 m m' base params l e :
  listed m0 m base params l -> entry_ok e -> 0 <= base -> params + 8 + Z.of_nat (length (snd e)) < 2 ^ 32 ->
  placed m' params (enc e) -> (forall x, x < params \/ params + 8 + Z.of_nat (length (snd e)) <= x -> m' x = m x) ->
  tag_next m' params = params + 8 + Z.of_nat (length (snd e)) /\ listed m0 m' base (tag_next m' params) (l ++ [e]).
Proof.
  intros Hl He Hb Hs Hp Hf. destruct He as (Ht & Hm & Hsz). pose proof (ls_end _ _ _ _ _ Hl) as Hend.
  assert (tag_next m' params = params + 8 + Z.of_nat (length (snd e))) as Hn.
  { unfold tag_next. apply placed_app in Hp as [Hp _]. rewrite (placed_load _ _ ((8 + Z.of_nat (length (snd e))) / 4)) by (try done; Z.div_mod_to_equations; lia).
    pose proof (Nat2Z.inj_mod (length (snd e)) 4) as Em. rewrite Hm in Em. change (Z.of_nat 4) with 4 in Em. change (Z.of_nat 0) with 0 in Em.
    rewrite wrap_small by (Z.div_mod_to_equations; lia). Z.div_mod_to_equations. lia. }
  split; [done|]. rewrite Hn. split.
  - rewrite map_app, concat_app. cbn [map concat]. rewrite app_nil_r. apply placed_app. rewrite <- Hend. split; [|done].
    apply (placed_ext m); [|by apply ls_placed in Hl]. intros x Hx. symmetry. apply Hf. lia.
  - rewrite map_app, concat_app, !length_app. cbn [map concat]. rewrite app_nil_r, enc_length. lia.
  - apply Forall_app. split; [by apply ls_ok in Hl|]. by constructor.
  - intros x Hx. rewrite Hf by lia. apply (ls_frame _ _ _ _ _ Hl). lia.
Qed.

Lemma words_length ws : length (concat (map le32 ws)) = (4 * length ws)%nat.
Proof. induction ws as [|w ws IH]; [done|]. cbn [map concat length]. rewrite length_app, le32_length. lia. Qed.

Lemma tag_size_words n : tag_size (4 * Z.of_nat n) = (8 + Z.of_nat (4 * n)) / 4.
Proof. unfold tag_size. rewrite Z.shiftr_div_pow2 by lia. change (2 ^ 2) with 4. f_equal. lia. Qed.

(** An entry made of words. *)
Lemma put_tag_listed m0 m base params l tag ws :
  listed m0 m base params l -> 0 <= base -> 0 <= tag < 2 ^ 32 -> params + 8 + 4 * Z.of_nat (length ws) < 2 ^ 32 ->
  let '(m', params') := put_tag tag ws (m, params) in
  params' = params + 8 + 4 * Z.of_nat (length ws) /\ listed m0 m' base params' (l ++ [(tag, concat (map le32 ws))]).
Proof.
  intros Hl Hb Ht Hs. cbn [put_tag]. set (m1 := store32 m (params + 4) tag). set (m2 := store32 m1 params _). set (m3 := store_fields m2 _ ws).
  pose proof (ls_end _ _ _ _ _ Hl) as Hend. pose proof (words_length ws) as Hw.
  destruct (listed_snoc m0 m m3 base params l (tag, concat (map le32 ws))) as [E Hl']; try done.
  - split; [done|]. split; cbn [snd]; rewrite Hw; [by rewrite Nat.mul_comm, Nat.Div0.mod_mul|lia].
  - cbn [snd]. lia.
  - unfold enc. cbn [fst snd]. rewrite Hw, <- tag_size_words. apply placed_app. split; [|apply placed_app; split].
    + apply (placed_ext m2); [|by apply bytes_at_copy]. intros x Hx. rewrite le32_length in Hx. symmetry. apply store_fields_outside. lia.
    + rewrite !le32_length. apply (placed_ext m1); [|by apply bytes_at_copy]. intros x Hx. rewrite le32_length in Hx. symmetry.
      unfold m3. rewrite store_fields_outside by lia. apply copy_to_outside. rewrite le32_length. lia.
    + rewrite !le32_length. replace (params + Z.of_nat 4 + Z.of_nat 4) with (params + 8) by lia. apply store_fields_placed.
  - cbn [snd]. intros x Hx. unfold m3. rewrite store_fields_outside by lia.
    unfold m2, m1, store32. by rewrite !copy_to_outside by (rewrite le32_length; lia).
  - cbn [snd] in E. split; [lia|done].
Qed.

(** ** Step by step *)

(** So far the list says [tags] and ends at or before [bound]. *)
Definition written (m0 : Z -> Z) (base : Z) (s : (Z -> Z) * Z) (tags : list atag) (bound : Z) : Prop :=
  exists l, listed m0 (fst s) base (snd s) l /\ map decode l = tags /\ snd s <= bound.

Lemma written_weaken m0 base s tags b b' : written m0 base s tags b -> b <= b' -> written m0 base s tags b'.
Proof. intros (l & Hl & Hd & Hb) H. exists l. split_and!; [done..|lia]. Qed.

Lemma word_at ws : forall i w, ws !! i = Some w -> 0 <= w < 2 ^ 32 -> word i (concat (map le32 ws)) = w.
Proof.
  induction ws as [|v ws IH]; intros i w Hi Hw; [done|]. destruct i as [|i].
  - simpl in Hi. simplify_eq. unfold word, field. change (4 * 0)%nat with 0%nat. rewrite drop_0. cbn [map concat].
    rewrite take_app_length' by done. by apply le32_of.
  - simpl in Hi. rewrite <- (IH i w Hi Hw). unfold word, field. do 2 f_equal. cbn [map concat].
    replace (4 * S i)%nat with (length (le32 v) + 4 * i)%nat by (rewrite le32_length; lia). by rewrite drop_app_add.
Qed.

Lemma written_put m0 base s tags b tag ws t :
  written m0 base s tags b -> 0 <= base -> 0 <= tag < 2 ^ 32 -> b + 8 + 4 * Z.of_nat (length ws) < 2 ^ 32 -> decode (tag, concat (map le32 ws)) = t ->
  written m0 base (put_tag tag ws s) (tags ++ [t]) (b + 8 + 4 * Z.of_nat (length ws)).
Proof.
  intros (l & Hl & Hd & Hb) H0 Ht Hs He. destruct s as [m params]. cbn [fst snd] in *.
  pose proof (put_tag_listed m0 m base params l tag ws Hl H0 Ht ltac:(lia)) as H. destruct (put_tag tag ws (m, params)) as [m' params']. destruct H as [-> H].
  exists (l ++ [(tag, concat (map le32 ws))]). split_and!; [done| |cbn [snd]; lia]. rewrite map_app. cbn [map]. by rewrite Hd, He.
Qed.

Lemma written_banks m0 base banks : forall s tags b,
  written m0 base s tags b -> 0 <= base -> Forall (fun k => 0 <= fst k < 2 ^ 32 /\ 0 <= snd k < 2 ^ 32) banks ->
  b + 16 * Z.of_nat (length banks) < 2 ^ 32 ->
  written m0 base (setup_memory_tags banks s) (tags ++ map (fun k => Mem (fst k) (snd k)) banks) (b + 16 * Z.of_nat (length banks)).
Proof.
  induction banks as [|[start size] banks IH]; intros s tags b Hw H0 Hk Hs; cbn [setup_memory_tags map length fst snd] in *.
  - rewrite app_nil_r. by apply (written_weaken _ _ _ _ b); [|lia].
  - inversion_clear Hk as [|? ? [H1 H2] Hk']. cbn [fst snd] in *. replace (tags ++ Mem start size :: map (fun k => Mem k.1 k.2) banks) with ((tags ++ [Mem start size]) ++ map (fun k => Mem k.1 k.2) banks) by by rewrite <- app_assoc.
    apply (written_weaken _ _ _ _ (b + 16 + 16 * Z.of_nat (length banks))); [|lia]. apply IH; [|done|done|lia].
    apply (written_weaken _ _ _ _ (b + 8 + 4 * Z.of_nat (length [size; start]))); [|simpl length; lia].
    apply written_put; [done|done|done|simpl length; lia|].
    cbn [decode ATAG_CORE ATAG_MEM Z.eqb Pos.eqb]. by rewrite (word_at [size; start] 1 start), (word_at [size; start] 0 size).
Qed.

Lemma c_string_app s rest : Forall (fun b => 0 < b < 256) s -> c_string (s ++ 0 :: rest) = s.
Proof. induction s as [|b s IH]; intros Hs; [done|]. inversion_clear Hs. cbn [app c_string]. rewrite (proj2 (Z.eqb_neq b 0)) by lia. f_equal. by apply IH. Qed.

Lemma skip_spaces_facts s : Forall (fun b => 0 < b < 256) s -> Forall (fun b => 0 < b < 256) (skip_spaces s) /\ (length (skip_spaces s) <= length s)%nat.
Proof.
  induction s as [|b s IH]; intros Hs; [done|]. inversion_clear Hs as [|? ? Hb Hs']. cbn [skip_spaces]. case_if; [|split; [by constructor|done]].
  destruct (IH Hs'). split; [done|]. simpl. lia.
Qed.

Definition string_opt_ok (o : option (list Z)) : Prop := match o with Some s => Forall (fun b => 0 < b < 256) s | None => True end.
Definition opt_length (o : option (list Z)) : Z := match o with Some s => Z.of_nat (length s) | None => 0 end.

Lemma written_cmdline m0 base s tags b cmd :
  written m0 base s tags b -> 0 <= base -> string_opt_ok cmd -> b + 16 + opt_length cmd < 2 ^ 32 ->
  written m0 base (setup_commandline_tag cmd s)
    (tags ++ match cmd with Some c => if bool_decide (skip_spaces c = []) then [] else [Cmdline (skip_spaces c)] | None => [] end) (b + 16 + opt_length cmd).
Proof.
  intros Hw H0 Hc Hs. destruct cmd as [c|]; cbn [setup_commandline_tag string_opt_ok opt_length] in *.
  2: { rewrite app_nil_r. apply (written_weaken _ _ _ _ b); [done|lia]. }
  destruct (skip_spaces_facts c Hc) as [Hp Hlen]. revert Hp Hlen. generalize (skip_spaces c). intros p Hp Hlen. case_bool_decide as Hn.
  { rewrite app_nil_r. apply (written_weaken _ _ _ _ b); [done|lia]. }
  destruct Hw as (l & Hl & Hd & Hb). destruct s as [m params]. cbn [fst snd] in *. pose proof (ls_end _ _ _ _ _ Hl) as Hend.
  set (m1 := store32 m (params + 4) ATAG_CMDLINE). set (sz := (8 + Z.of_nat (length p) + 1 + 4) .>> 2). set (m2 := store32 m1 params sz). set (m3 := copy_to m2 (params + 8) (p ++ [0])).
  assert (sz = (13 + Z.of_nat (length p)) / 4) as Hsz by (unfold sz; rewrite Z.shiftr_div_pow2 by lia; change (2 ^ 2) with 4; f_equal; lia).
  set (k := Z.to_nat (4 * sz - 9 - Z.of_nat (length p))). set (stale := bytes_at m (params + 8 + Z.of_nat (length p) + 1) k).
  assert (8 + Z.of_nat (length (p ++ 0 :: stale)) = 4 * sz) as Hfl.
  { rewrite length_app. cbn [length]. unfold stale. rewrite bytes_at_length. unfold k. rewrite Hsz. Z.div_mod_to_equations. lia. }
  assert (4 * sz <= 13 + Z.of_nat (length p)) as Hub by (rewrite Hsz; Z.div_mod_to_equations; lia).
  destruct (listed_snoc m0 m m3 base params l (ATAG_CMDLINE, p ++ 0 :: stale)) as [E Hl']; try done; cbn [snd].
  - split; [done|]. cbn [snd]. split; [|lia]. apply Nat2Z.inj. rewrite (Nat2Z.inj_mod _ 4). change (Z.of_nat 4) with 4. change (Z.of_nat 0) with 0.
    clearbody sz. Z.div_mod_to_equations. lia.
  - lia.
  - unfold enc. cbn [fst snd]. rewrite Hfl. replace (4 * sz / 4) with sz by (rewrite Z.mul_comm; by rewrite Z.div_mul).
    change (p ++ 0 :: stale) with (p ++ [0] ++ stale). rewrite (app_assoc p). apply placed_app. split; [|apply placed_app; split; [|apply placed_app; split]].
    + apply (placed_ext m2); [|by apply bytes_at_copy]. intros x Hx. rewrite le32_length in Hx. symmetry. apply copy_to_outside. lia.
    + rewrite le32_length. apply (placed_ext m1); [|by apply bytes_at_copy]. intros x Hx. rewrite le32_length in Hx. symmetry.
      unfold m3. rewrite copy_to_outside by lia. apply copy_to_outside. rewrite le32_length. lia.
    + rewrite !le32_length. replace (params + Z.of_nat 4 + Z.of_nat 4) with (params + 8) by lia. by apply bytes_at_copy.
    + rewrite !le32_length, length_app. cbn [length]. unfold placed, stale at 1. rewrite bytes_at_length. unfold stale.
      replace (params + Z.of_nat 4 + Z.of_nat 4 + Z.of_nat (length p + 1)) with (params + 8 + Z.of_nat (length p) + 1) by lia.
      apply bytes_at_ext. intros x Hx. unfold m3, m2, m1, store32. by rewrite !copy_to_outside by (rewrite ?le32_length, ?length_app; cbn [length]; lia).
  - intros x Hx. cbn [length] in *. unfold m3, m2, m1, store32. rewrite length_app in Hx. cbn [length] in Hx.
    by rewrite !copy_to_outside by (rewrite ?le32_length, ?length_app; cbn [length]; lia).
  - exists (l ++ [(ATAG_CMDLINE, p ++ 0 :: stale)]). cbn [fst snd]. split; [done|]. cbn [snd] in E. split; [|lia].
    rewrite map_app. cbn [map]. rewrite Hd. do 2 f_equal. cbn [decode ATAG_CORE ATAG_MEM ATAG_CMDLINE Z.eqb Pos.eqb]. by rewrite c_string_app.
Qed.

(** ** Reading the list *)

Lemma walk_entries m l : forall n t, placed m t (concat (map enc l) ++ le32 0) -> Forall entry_ok l -> 0 <= t ->
  t + Z.of_nat (length (concat (map enc l))) < 2 ^ 32 -> (length l < n)%nat -> for_each_tag n m t = Ok l.
Proof.
  induction l as [|[tag f] l IH]; intros n t Hp Hok Ht Hb Hn; (destruct n as [|n]; [simpl in Hn; lia|]); cbn [for_each_tag].
  - rewrite (placed_load m t 0) by (done || lia). done.
  - inversion_clear Hok as [|? ? (Htag & Hm & Hsz) Hok']. cbn [fst snd] in *. cbn [map concat] in *. rewrite <- app_assoc in Hp. rewrite length_app, enc_length in Hb. cbn [snd] in Hb.
    apply placed_app in Hp as [He Hr]. rewrite enc_length in Hr. cbn [snd] in Hr.
    unfold enc in He. cbn [fst snd] in He. apply placed_app in He as [Hs He]. apply placed_app in He as [Htg Hf]. rewrite !le32_length in *.
    set (sz := (8 + Z.of_nat (length f)) / 4) in *. assert (0 < sz < 2 ^ 32) as Hsr by (unfold sz; Z.div_mod_to_equations; lia).
    pose proof (Nat2Z.inj_mod (length f) 4) as Em. rewrite Hm in Em. change (Z.of_nat 4) with 4 in *. change (Z.of_nat 0) with 0 in Em.
    assert (4 * sz = 8 + Z.of_nat (length f)) as Hsz4 by (unfold sz; Z.div_mod_to_equations; lia).
    rewrite (placed_load m t sz) by (done || lia). rewrite (proj2 (Z.eqb_neq sz 0)) by lia. unfold tag_next. rewrite (placed_load m t sz) by (done || lia).
    rewrite Hsz4, (placed_load m (t + 4) tag) by done. rewrite wrap_small by lia.
    replace (t + (8 + Z.of_nat (length f))) with (t + Z.of_nat (8 + length f)) by lia. rewrite IH; [|done|done|lia|lia|simpl in Hn; lia]. cbn [res_bind].
    do 3 f_equal. replace (Z.to_nat (8 + Z.of_nat (length f) - 8)) with (length f) by lia. by replace (t + 8) with (t + 4 + 4) by lia.
Qed.

Lemma end_tag_reads m0 base s tags b n : written m0 base s tags b -> 0 <= base -> b + 8 < 2 ^ 32 -> (length tags < n)%nat ->
  exists l, for_each_tag n (setup_end_tag s) base = Ok l /\ map decode l = tags /\
    forall x, x < base \/ b + 8 <= x -> setup_end_tag s x = m0 x.
Proof.
  intros (l & Hl & Hd & Hb) H0 Hs Hn. destruct s as [m params]. cbn [fst snd] in *. pose proof (ls_end _ _ _ _ _ Hl) as Hend. exists l. split_and!; [|done|].
  - apply walk_entries; [|apply (ls_ok _ _ _ _ _ Hl)|done|lia|by rewrite <- Hd, length_map in Hn].
    apply placed_app. rewrite <- Hend. split; [|by apply bytes_at_copy].
    apply (placed_ext m); [|apply (ls_placed _ _ _ _ _ Hl)]. intros x Hx. unfold setup_end_tag, store32. by rewrite !copy_to_outside by (rewrite le32_length; lia).
  - intros x Hx. unfold setup_end_tag, store32. rewrite !copy_to_outside by (rewrite le32_length; lia). apply (ls_frame _ _ _ _ _ Hl). lia.
Qed.

Definition config_ok (c : tag_config) : Prop :=
  (match serial_tag c with Some (low, high) => 0 <= low < 2 ^ 32 /\ 0 <= high < 2 ^ 32 | None => True end) /\
  (match revision_tag c with Some rev => 0 <= rev < 2 ^ 32 | None => True end) /\
  memory_tags c || cmdline_tag c || initrd_tag c || bool_decide (serial_tag c <> None) || bool_decide (revision_tag c <> None) = true.

(** What the list takes at most. *)
Definition tags_space (bd : bd_t) (cmd : option (list Z)) : Z := 88 + opt_length cmd + 16 * Z.of_nat (length (bi_dram bd)).

(** The optional entries: what each adds to the list. *)
Definition told_serial (c : tag_config) : list atag := match serial_tag c with Some (low, high) => [Serial low high] | None => [] end.
Definition told_cmdline (c : tag_config) (cmd : option (list Z)) : list atag :=
  if cmdline_tag c then match cmd with Some s => if bool_decide (skip_spaces s = []) then [] else [Cmdline (skip_spaces s)] | None => [] end else [].
Definition told_revision (c : tag_config) : list atag := match revision_tag c with Some rev => [Revision rev] | None => [] end.
Definition told_banks (c : tag_config) (banks : list (Z * Z)) : list atag := if memory_tags c then map (fun b => Mem (fst b) (snd b)) banks else [].

(** Nothing added. *)
Ltac skip_tag H := rewrite app_nil_r; apply (written_weaken _ _ _ _ _ _ H); lia.
Ltac one_tag := apply written_put; [done|done|done|simpl length; lia|];
  cbn [decode ATAG_CORE ATAG_MEM ATAG_CMDLINE ATAG_INITRD2 ATAG_SERIAL ATAG_REVISION Z.eqb Pos.eqb].

Section steps.
Context (m0 : Z -> Z) (base : Z) (c : tag_config) (s : (Z -> Z) * Z) (tags : list atag) (b : Z).
Hypothesis base_ok : 0 <= base.
Hypothesis so_far : written m0 base s tags b.
Hypothesis c_ok : config_ok c.

Lemma step_serial : b + 16 < 2 ^ 32 ->
  written m0 base (match serial_tag c with Some nr => setup_serial_tag nr s | None => s end) (tags ++ told_serial c) (b + 16).
Proof using All.
  intros Hb. destruct c_ok as (Hs & _ & _). unfold told_serial. destruct (serial_tag c) as [[low high]|]; [|skip_tag so_far]. destruct Hs as [H1 H2].
  apply (written_weaken _ _ _ _ (b + 8 + 4 * Z.of_nat (length [low; high]))); [|simpl length; lia]. one_tag.
  by rewrite (word_at [low; high] 0 low), (word_at [low; high] 1 high).
Qed.

Lemma step_cmdline cmd : string_opt_ok cmd -> 0 <= opt_length cmd -> b + 16 + opt_length cmd < 2 ^ 32 ->
  written m0 base (if cmdline_tag c then setup_commandline_tag cmd s else s) (tags ++ told_cmdline c cmd) (b + 16 + opt_length cmd).
Proof using All. intros Hc Hl Hb. unfold told_cmdline. destruct (cmdline_tag c); [|skip_tag so_far]. by apply written_cmdline. Qed.

Lemma step_revision : b + 12 < 2 ^ 32 ->
  written m0 base (match revision_tag c with Some rev => setup_revision_tag rev s | None => s end) (tags ++ told_revision c) (b + 12).
Proof using All.
  intros Hb. destruct c_ok as (_ & Hr & _). unfold told_revision. destruct (revision_tag c) as [rev|]; [|skip_tag so_far].
  apply (written_weaken _ _ _ _ (b + 8 + 4 * Z.of_nat (length [rev]))); [|simpl length; lia]. one_tag. by rewrite (word_at [rev] 0 rev).
Qed.

Lemma step_banks banks : Forall (fun k => 0 <= fst k < 2 ^ 32 /\ 0 <= snd k < 2 ^ 32) banks -> b + 16 * Z.of_nat (length banks) < 2 ^ 32 ->
  written m0 base (if memory_tags c then setup_memory_tags banks s else s) (tags ++ told_banks c banks) (b + 16 * Z.of_nat (length banks)).
Proof using All. intros Hk Hb. unfold told_banks. destruct (memory_tags c); [|skip_tag so_far]. by apply written_banks. Qed.

Lemma step_initrd (cond : bool) rd_start rd_end : 0 <= rd_start < 2 ^ 32 -> b + 16 < 2 ^ 32 ->
  written m0 base (if cond then setup_initrd_tag rd_start rd_end s else s) (tags ++ if cond then [Initrd2 rd_start (u32 (rd_end - rd_start))] else []) (b + 16).
Proof using All.
  intros Hrd Hb. destruct cond; [|skip_tag so_far]. set (len := u32 (rd_end - rd_start)). assert (0 <= len < 2 ^ 32) as Hlen by (apply wrap_range; lia).
  apply (written_weaken _ _ _ _ (b + 8 + 4 * Z.of_nat (length [rd_start; len]))); [|simpl length; lia]. unfold setup_initrd_tag. fold len. one_tag.
  by rewrite (word_at [rd_start; len] 0 rd_start), (word_at [rd_start; len] 1 len).
Qed.
End steps.

Lemma tags_ok c bd cmd rd_start rd_end m n :
  config_ok c -> 0 <= bi_boot_params bd -> bi_boot_params bd + tags_space bd cmd < 2 ^ 32 ->
  string_opt_ok cmd -> Forall (fun k => 0 <= fst k < 2 ^ 32 /\ 0 <= snd k < 2 ^ 32) (bi_dram bd) -> 0 <= rd_start < 2 ^ 32 ->
  (length (told c bd cmd rd_start rd_end) < n)%nat ->
  exists m' l, setup_tags c bd cmd rd_start rd_end m = Ok m' /\ for_each_tag n m' (bi_boot_params bd) = Ok l /\
    map decode l = told c bd cmd rd_start rd_end /\
    forall x, x < bi_boot_params bd \/ bi_boot_params bd + tags_space bd cmd <= x -> m' x = m x.
Proof.
  intros Hc H0 Hs Hcmd Hk Hrd Hn. unfold setup_tags. rewrite (proj2 (proj2 Hc)). unfold tags_space in *.
  assert (0 <= opt_length cmd) as Hol by (destruct cmd; simpl; lia).
  assert (written m (bi_boot_params bd) (m, bi_boot_params bd) [] (bi_boot_params bd)) as W0.
  { exists []. cbn [fst snd]. split_and!; [|done|lia]. split; [done|cbn; lia|constructor|done]. }
  assert (written m (bi_boot_params bd) (setup_start_tag bd m) [Core 0 0 0] (bi_boot_params bd + 8 + 12)) as W1.
  { apply (written_put m _ (m, bi_boot_params bd) [] _ ATAG_CORE [0; 0; 0]); [done|done|done|simpl length; lia|done]. }
  pose proof (step_serial _ _ c _ _ _ H0 W1 Hc ltac:(lia)) as W2.
  pose proof (step_cmdline _ _ c _ _ _ H0 W2 Hc cmd Hcmd Hol ltac:(lia)) as W3.
  pose proof (step_revision _ _ c _ _ _ H0 W3 Hc ltac:(lia)) as W4.
  pose proof (step_banks _ _ c _ _ _ H0 W4 Hc (bi_dram bd) Hk ltac:(lia)) as W5.
  pose proof (step_initrd _ _ c _ _ _ H0 W5 Hc (initrd_tag c && negb (rd_start =? 0) && negb (rd_end =? 0)) rd_start rd_end Hrd ltac:(lia)) as W6.
  rewrite <- !app_assoc in W6. fold (told c bd cmd rd_start rd_end) in W6.
  destruct (end_tag_reads _ _ _ _ _ n W6 H0 ltac:(lia) Hn) as (l & Hw & Hd & Hf).
  eexists _, l. split_and!; [done|done|done|]. intros x Hx. apply Hf. lia.
Qed.

(** C13: the kernel reads what it should: the tag list that is written for it, walked from [bi_boot_params] on as the header says,
    is the core entry, the command line without its leading spaces if there is any, one entry per bank of memory and the ramdisk
    if there is one, with the right values and in order; no byte outside the space of the list changes. *)
Theorem kernel_reads_tags c bd cmd rd_start rd_end m n :
  config_ok c -> 0 <= bi_boot_params bd -> bi_boot_params bd + tags_space bd cmd < 2 ^ 32 ->
  string_opt_ok cmd -> Forall (fun k => 0 <= fst k < 2 ^ 32 /\ 0 <= snd k < 2 ^ 32) (bi_dram bd) -> 0 <= rd_start < 2 ^ 32 ->
  (length (told c bd cmd rd_start rd_end) < n)%nat ->
  exists m' l, setup_tags c bd cmd rd_start rd_end m = Ok m' /\ for_each_tag n m' (bi_boot_params bd) = Ok l /\
    map decode l = told c bd cmd rd_start rd_end /\
    forall x, x < bi_boot_params bd \/ bi_boot_params bd + tags_space bd cmd <= x -> m' x = m x.
Proof. apply tags_ok. Qed.

Definition board_info : bd_t := Bd 0x20000100 1826 [(0x20000000, 0x20000000)].

Lemma kernel_reads_tags_witness :
  exists m' l, setup_tags smdkv210_tags board_info (Some (cstr "  console=ttySAC0")) 0x21000000 0x21100000 (fun _ => 0xAA) = Ok m' /\
    for_each_tag 10 m' 0x20000100 = Ok l /\
    map decode l = [Core 0 0 0; Cmdline (cstr "console=ttySAC0"); Mem 0x20000000 0x20000000; Initrd2 0x21000000 0x100000] /\
    forall x, x < 0x20000100 \/ 0x20000100 + tags_space board_info (Some (cstr "  console=ttySAC0")) <= x -> m' x = 0xAA.
Proof.
  apply (kernel_reads_tags smdkv210_tags board_info (Some (cstr "  console=ttySAC0")) 0x21000000 0x21100000 (fun _ => 0xAA) 10).
  - split; [done|]. split; done.
  - simpl. lia.
  - vm_compute. reflexivity.
  - apply Forall_forall. intros x Hx. apply list_elem_of_In in Hx. vm_compute in Hx. repeat (destruct Hx as [<-|Hx]; [lia|]). destruct Hx.
  - constructor; [simpl; lia|constructor].
  - lia.
  - vm_compute. repeat constructor.
Defined.
