(* ===== verification/Command.v ===== *)
(** * Commands and their completion ([common/command.c])

    The table of all commands is put together when the boot loader is linked: it is a parameter, and so are the
    functions of the commands.  Strings are the bytes before their NUL.  [cmdv], the list of possible completions, is
    without the NULL behind it. *)
From S2P Require Import Prelude Ctype CstrProps Hashtable Env.

Definition CONFIG_SYS_CBSIZE : Z := 256.
Definition CONFIG_SYS_MAXARGS : nat := 16.
Definition CONFIG_SYS_PROMPT : list Z := cstr "SMDKV210 # ".
Definition CONFIG_SYS_HELP_CMD_WIDTH : nat := 8.
Definition CMD_RET_SUCCESS : Z := 0.
Definition CMD_RET_FAILURE : Z := 1.
Definition CMD_FLAG_REPEAT : Z := 1.
Definition CMD_FLAG_BOOTD : Z := 2.
Definition BEL : Z := 7.
Definition newline : Z := 10.

(** ** Looking a command up *)

(** Names are compared up to the first dot of what was typed. *)
Fixpoint until_dot (s : list Z) : list Z :=
  match s with [] => [] | c :: s => if c =? 0x2E then [] else c :: until_dot s end.
Fixpoint find_loop {A} (cmd : list Z) (table : list (list Z * A)) (temp : option A) (n_found : nat) : option A :=
  match table with
  | [] => if (n_found =? 1)%nat then temp else None
  | (name, a) :: table =>
    if bool_decide (take (length cmd) name = cmd) then
      if (length cmd =? length name)%nat then Some a else find_loop cmd table (Some a) (S n_found)
    else find_loop cmd table temp n_found
  end.
(** The command with this name, or the only one that begins with it. *)
Definition find_cmd_tbl {A} (cmd : list Z) (table : list (list Z * A)) : option A := find_loop (until_dot cmd) table None 0.

(** The size a suffix of the command asks for. *)
Definition cmd_get_data_size (arg : list Z) (default_size : Z) : Z :=
  let len := length arg in
  if (2 <? len)%nat && (nth (len - 2) arg 0 =? 0x2E) then
    let c := nth (len - 1) arg 0 in
    if c =? 0x62 then 1 else if c =? 0x77 then 2 else if c =? 0x6C then 4 else if c =? 0x73 then -2 else -1
  else default_size.

(** ** Words of a line *)

Fixpoint skip_blanks (s : list Z) : list Z :=
  match s with [] => [] | c :: t => if isblank c then skip_blanks t else s end.
(** The word at the start, and what follows it, the blank at its end included. *)
Fixpoint word (s : list Z) : list Z * list Z :=
  match s with
  | [] => ([], [])
  | c :: t => if isblank c then ([], s) else let '(w, r) := word t in (c :: w, r)
  end.

(** [argc] counts down from [argvsz - 1]. *)
Fixpoint make_argv (argc : nat) (s : list Z) : list (list Z) :=
  match argc with
  | O => []
  | S argc =>
    match skip_blanks s with
    | [] => []
    | s =>
      let '(w, r) := word s in
      w :: match r with [] => [] | _ :: r => make_argv argc r end
    end
  end.

(** The bytes [s] and [t] have in common, at most [len]. *)
Fixpoint same_bytes (len : nat) (s t : list Z) : nat :=
  match len, s, t with
  | S len, c :: s, d :: t => if c =? d then S (same_bytes len s t) else O
  | _, _, _ => O
  end.
Fixpoint prefix_loop (anchor : list Z) (argv : list (list Z)) (len : nat) : nat :=
  match argv with
  | [] => len
  | t :: argv => prefix_loop anchor argv (same_bytes len anchor t)
  end.
Definition find_common_prefix (argv : list (list Z)) : nat :=
  match argv with
  | [] => 0
  | anchor :: argv => prefix_loop anchor argv (length anchor)
  end.

(** What [print_argv] writes; [i] is the column. *)
Fixpoint print_argv_loop (leader sep : list Z) (linemax : Z) (argv : list (list Z)) (i : Z) : list Z :=
  match argv with
  | [] => [newline]
  | a :: argv =>
    let len := Z.of_nat (length a) + Z.of_nat (length sep) in
    let '(pre, i) := if linemax <=? i + len then (newline :: leader, Z.of_nat (length leader) - Z.of_nat (length sep)) else (sep, i) in
    pre ++ a ++ print_argv_loop leader sep linemax argv (i + len)
  end.
Definition print_argv (leader sep : list Z) (linemax : Z) (argv : list (list Z)) : list Z :=
  print_argv_loop leader sep linemax argv linemax.

Section Table.
(** [W] is what the functions of commands change; [ctrlc] says whether the user has interrupted. *)
Context {W : Type} (say : list Z -> W -> W) (ctrlc : W -> bool * W).

Record cmd_tbl := {
  name : list Z;
  maxargs : Z;
  repeatable : Z;
  cmd : Z -> list (list Z) -> W -> res (Z * W);
  is_bootd : bool;    (* [cmd == do_bootd] *)
  usage : option (list Z);
  help : option (list Z);
  complete : option (list (list Z) -> Z -> Z -> res (Z * list (list Z)))
}.

Context (table : list cmd_tbl).

Definition by_name (t : list cmd_tbl) : list (list Z * cmd_tbl) := map (fun e => (name e, e)) t.
Definition find_cmd (c : list Z) : option cmd_tbl := find_cmd_tbl c (by_name table).

(** ** Help *)

Definition text_or_null (s : option (list Z)) : list Z := match s with Some s => s | None => cstr "<NULL>" end.

Definition cmd_usage (cmdtp : cmd_tbl) (w : W) : Z * W :=
  let w := say (name cmdtp ++ cstr " - " ++ text_or_null (usage cmdtp) ++ [newline; newline]) w in
  let w := say (cstr "Usage:" ++ newline :: name cmdtp ++ cstr " ") w in
  match help cmdtp with
  | None => (1, say (cstr "- No additional help available." ++ [newline]) w)
  | Some h => (1, say (h ++ [newline]) w)
  end.

(** One pass of the bubble sort: [k] neighbours are compared; the number of swaps. *)
Fixpoint bubble (k : nat) (l : list cmd_tbl) : list cmd_tbl * nat :=
  match k, l with
  | S k, x :: y :: l =>
    if 0 <? s8 (cmp_bytes (name x) (name y))
    then let '(l, swaps) := bubble k (x :: l) in (y :: l, S swaps)
    else let '(l, swaps) := bubble k (y :: l) in (x :: l, swaps)
  | _, _ => (l, O)
  end.
Fixpoint sort_loop (i : nat) (l : list cmd_tbl) : list cmd_tbl :=
  match i with
  | O => l
  | S i' => let '(l, swaps) := bubble i l in if (swaps =? 0)%nat then l else sort_loop i' l
  end.

Fixpoint short_help (l : list cmd_tbl) (w : W) : Z * W :=
  match l with
  | [] => (0, w)
  | e :: l =>
    let '(stop, w) := ctrlc w in
    if stop : bool then (1, w)
    else match usage e with
    | None => short_help l w
    | Some u =>
      short_help l (say (name e ++ replicate (CONFIG_SYS_HELP_CMD_WIDTH - length (name e)) 0x20 ++ cstr "- " ++ u ++ [newline]) w)
    end
  end.

Fixpoint long_help (argv : list (list Z)) (rcode : Z) (w : W) : Z * W :=
  match argv with
  | [] => (rcode, w)
  | a :: argv =>
    match find_cmd a with
    | Some cmdtp => let '(r, w) := cmd_usage cmdtp w in long_help argv (rcode .| r) w
    | None =>
      long_help argv 1
        (say (cstr "Unknown command '" ++ a ++ cstr "' - try 'help' without arguments for list of all known commands" ++ [newline; newline]) w)
    end
  end.

(** [argv] without the word [help]. *)
Definition _do_help (argv : list (list Z)) (w : W) : Z * W :=
  match argv with
  | [] => short_help (sort_loop (length table - 1) table) w
  | _ => long_help argv 0 w
  end.

(** ** Running a command *)

(** The result, [*repeatable], and the state. *)
Definition cmd_process (flag : Z) (argv : list (list Z)) (rep : Z) (w : W) : res (Z * Z * W) :=
  match head argv ≫= find_cmd with
  | None => Ok (1, rep, say (cstr "Unknown command '" ++ text_or_null (head argv) ++ cstr "' - try 'help'" ++ [newline]) w)
  | Some cmdtp =>
    let '(rc, flag, w) :=
      if maxargs cmdtp <? Z.of_nat (length argv) then (CMD_RET_USAGE, flag, w)
      else if is_bootd cmdtp then
        if tst flag CMD_FLAG_BOOTD then (CMD_RET_FAILURE, flag, say (cstr "'bootd' recursion detected" ++ [newline]) w)
        else (CMD_RET_SUCCESS, flag .| CMD_FLAG_BOOTD, w)
      else (CMD_RET_SUCCESS, flag, w) in
    let* (rc, rep, w) :=
      (if rc =? CMD_RET_SUCCESS then
         let* (rc, w) := cmd cmdtp flag argv w in Ok (rc, rep .& repeatable cmdtp, w)
       else Ok (rc, rep, w)) in
    if rc =? CMD_RET_USAGE then let '(rc, w) := cmd_usage cmdtp w in Ok (rc, rep, w) else Ok (rc, rep, w)
  end.

Definition cmd_process_error (cmdtp : cmd_tbl) (err : Z) (w : W) : Z * W :=
  if negb (err =? 0) then
    (1, say (cstr "Command '" ++ name cmdtp ++ cstr "' failed: Error " ++ cstr (pretty err) ++ [newline]) w)
  else (0, w).

(** ** Completion *)

(** Candidates are taken from [l] until [maxv] is reached. *)
Fixpoint offer (maxv : Z) (l : list (list Z)) (cmdv : list (list Z)) : list (list Z) :=
  match l with
  | [] => cmdv
  | n :: l => if maxv - 2 <=? Z.of_nat (length cmdv) then cmdv ++ [cstr "..."] else offer maxv l (cmdv ++ [n])
  end.

(** [clen >= len] and the first [len] bytes are the same. *)
Definition starts_with (c n : list Z) : bool :=
  negb (Z.of_nat (length n) <? Z.of_nat (length c)) && bool_decide (take (length c) n = c).

Definition complete_cmdv (argv : list (list Z)) (last_char maxv : Z) : res (Z * list (list Z)) :=
  if maxv <? 2 then Ok (-2, [])
  else match argv with
  | [] => let cmdv := offer maxv (map name table) [] in Ok (Z.of_nat (length cmdv), cmdv)
  | a :: rest =>
    if (0 <? length rest)%nat || (last_char =? 0) || isblank last_char then
      match find_cmd a with
      | Some e => match complete e with Some f => f argv last_char maxv | None => Ok (0, []) end
      | None => Ok (0, [])
      end
    else
      let cmdv := offer maxv (filter (fun n => Is_true (starts_with (until_dot a) n)) (map name table)) [] in
      Ok (Z.of_nat (length cmdv), cmdv)
  end.

(** What is to be typed for the user: the bytes, and whether a blank follows. *)
Definition completion (argv : list (list Z)) (i : Z) (cmdv : list (list Z)) : res (option (list Z * bool)) :=
  let last_word := last argv in
  if i =? 1 then
    let* a := res_of_option last_word in
    let* c := res_of_option (head cmdv) in
    if (length a <=? length c)%nat then Ok (Some (drop (length a) c, true)) else Ub
  else if 1 <? i then
    let j := find_common_prefix cmdv in
    if (j =? 0)%nat then Ok None
    else
      let* a := res_of_option last_word in
      let* c := res_of_option (head cmdv) in
      if (length a <? j)%nat then Ok (Some (take (j - length a) (drop (length a) c), false)) else Ok None
  else Ok None.

(** The result, the buffer, [*np], [*colp], and what was printed. *)
Definition cmd_auto_complete (prompt buf : list Z) (n col : Z) : res (Z * list Z * Z * Z * list Z) :=
  if negb (streq prompt CONFIG_SYS_PROMPT) then Ok (0, buf, n, col, [])
  else
    let line := c_string buf in
    let cnt := length line in
    let last_char := match last line with Some c => c | None => 0 end in
    if CONFIG_SYS_CBSIZE <=? Z.of_nat cnt then Ub    (* the copy in [tmp_buf] *)
    else
    let argv := make_argv CONFIG_SYS_MAXARGS line in
    let* (i, cmdv) := complete_cmdv argv last_char 20 in
    if i =? 0 then if (1 <? length argv)%nat then Ok (0, buf, n, col, []) else Ok (1, buf, n, col, [BEL])
    else
      let* c := completion argv i cmdv in
      match c with
      | Some (s, sep) =>
        let t := s ++ (if sep then [0x20] else []) in
        let k := Z.of_nat (length t) in
        if CONFIG_SYS_CBSIZE - 2 <=? n + k then Ok (1, buf, n, col, [BEL])
        else
          let* buf := res_of_option (store_block buf cnt (t ++ [0])) in
          Ok (1, buf, n + k, col + k, t ++ (if sep then [] else [BEL]))
      | None => Ok (1, buf, n, col, print_argv (cstr "  ") (cstr " ") 78 cmdv ++ prompt ++ line)
      end.
End Table.
Arguments cmd_tbl : clear implicits.

(** Completion of the name of a variable, for the commands on the environment. *)
Definition var_complete (e : env_state) (argv : list (list Z)) (last_char maxv : Z) : res (Z * list (list Z)) :=
  let space := (last_char =? 0) || isblank last_char in
  match argv with
  | [_] => if space then let* l := env_complete e [] maxv 512 in Ok (Z.of_nat (length l), l) else Ok (0, [])
  | [_; v] => if negb space then let* l := env_complete e v maxv 512 in Ok (Z.of_nat (length l), l) else Ok (0, [])
  | _ => Ok (0, [])
  end.
