(* ===== verification/CommandProps.v ===== *)
(** * Commands: looking up, completion and the sorted help *)
From Stdlib Require Import Sorting.Sorted.
From S2P Require Import Prelude Ctype CstrProps Hashtable Env Command.

(** ** Looking a command up *)

Definition begins {A} (c : list Z) (e : list Z * A) : Prop := take (length c) (fst e) = c.
#[export] Instance begins_dec {A} c (e : list Z * A) : Decision (begins c e).
Proof. unfold begins. apply _. Defined.
Definition named {A} (c : list Z) (e : list Z * A) : Prop := fst e = c.
#[export] Instance named_dec {A} c (e : list Z * A) : Decision (named c e).
Proof. unfold named. apply _. Defined.

Lemma begins_length {A} c (e : list Z * A) : begins c e -> (length c =? length (fst e))%nat = bool_decide (named c e).
Proof.
  unfold begins, named. intros H. destruct (Nat.eqb_spec (length c) (length (fst e))) as [E|E]; symmetry.
  - apply bool_decide_eq_true_2. by rewrite E, firstn_all in H.
  - apply bool_decide_eq_false_2. intros Hx. apply E. by rewrite Hx.
Qed.

Lemma named_begins {A} c (e : list Z * A) : named c e -> begins c e.
Proof. unfold begins, named. intros <-. apply firstn_all. Qed.

(** The loop keeps the last candidate and their number. *)
Lemma find_loop_spec {A} c (table : list (list Z * A)) : forall temp n,
  find_loop c table temp n =
    match filter (named c) table with
    | e :: _ => Some (snd e)
    | [] => if (n + length (filter (begins c) table) =? 1)%nat then
              match filter (begins c) table with e :: _ => Some (snd e) | [] => temp end
            else None
    end.
Proof.
  induction table as [|[nm a] table IH]; intros temp n; cbn [find_loop].
  { by rewrite !filter_nil, Nat.add_0_r. }
  rewrite !filter_cons. destruct (decide (begins c (nm, a))) as [Hb|Hb]; unfold begins in Hb; cbn [fst] in Hb.
  - rewrite bool_decide_eq_true_2 by done. pose proof (begins_length c (nm, a) Hb) as Hl. cbn [fst] in Hl. rewrite Hl. destruct (decide (named c (nm, a))) as [Hn|Hn].
    + by rewrite bool_decide_eq_true_2.
    + rewrite bool_decide_eq_false_2 by done. rewrite IH. cbn [length snd].
      destruct (filter (named c) table); [|done]. destruct (filter (begins c) table) as [|e l] eqn:El; cbn [length].
      * by rewrite Nat.add_0_r, Nat.add_1_r.
      * rewrite !(proj2 (Nat.eqb_neq _ 1)) by lia. done.
  - rewrite bool_decide_eq_false_2 by done. destruct (decide (named c (nm, a))) as [Hn|Hn]; [by apply named_begins in Hn|]. apply IH.
Qed.

(** An exact name, or the only one that begins with it. *)
Lemma find_cmd_tbl_spec {A} c (table : list (list Z * A)) :
  find_cmd_tbl c table =
    match filter (named (until_dot c)) table, filter (begins (until_dot c)) table with
    | e :: _, _ | [], [e] => Some (snd e)
    | _, _ => None
    end.
Proof.
  unfold find_cmd_tbl. rewrite find_loop_spec. destruct (filter (named _) table); [|done]. cbn [Nat.add].
  destruct (filter (begins _) table) as [|e [|e' l]]; done.
Qed.

(** What is found is in the table. *)
Lemma find_loop_in {A} cmd (table : list (list Z * A)) : forall temp k a, find_loop cmd table temp k = Some a ->
  (exists name, In (name, a) table) \/ temp = Some a.
Proof.
  induction table as [|[name b] table IH]; intros temp k a H; cbn [find_loop] in H.
  - right. by destruct (k =? 1)%nat.
  - case_bool_decide; [destruct (length cmd =? length name)%nat; [left; exists name; left; by simplify_eq|]|]; apply IH in H as [[nm H]|H];
      [by left; exists nm; right|left; exists name; left; by simplify_eq|by left; exists nm; right|by right].
Qed.

(** ** Common prefixes *)

Lemma same_bytes_spec s : forall len t, let n := same_bytes len s t in
  (n <= len)%nat /\ (n <= length s)%nat /\ take n s `prefix_of` t /\
  forall p, p `prefix_of` s -> p `prefix_of` t -> (length p <= len)%nat -> (length p <= n)%nat.
Proof.
  induction s as [|c s IH]; intros len t n; subst n.
  { destruct len; cbn; split_and!; try lia; try apply prefix_nil; intros p Hp; apply prefix_nil_inv in Hp as ->; cbn; lia. }
  destruct len as [|len]; [cbn; split_and!; [lia..|apply prefix_nil|done]|].
  destruct t as [|d t]; cbn [same_bytes]; [cbn; split_and!; [lia..|apply prefix_nil|]; intros p _ Hp%prefix_nil_inv _; by subst|].
  destruct (Z.eqb_spec c d) as [<-|Hne].
  - destruct (IH len t) as (H1 & H2 & H3 & H4). cbn [length take]. split_and!; [lia..|by apply prefix_cons|].
    intros [|x p] Hp Hp' Hl; cbn [length] in *; [lia|]. apply prefix_cons_inv_2 in Hp, Hp'. specialize (H4 p Hp Hp'). lia.
  - cbn. split_and!; [lia..|apply prefix_nil|]. intros [|x p] Hp Hp' _; [done|].
    pose proof (prefix_cons_inv_1 _ _ _ _ Hp). pose proof (prefix_cons_inv_1 _ _ _ _ Hp'). congruence.
Qed.

Lemma take_prefix (x : list Z) n m : (n <= m)%nat -> take n x `prefix_of` take m x.
Proof. intros H. exists (drop n (take m x)). rewrite <- (take_drop n (take m x)) at 1. by rewrite take_take, Nat.min_l. Qed.

Lemma prefix_loop_spec anchor argv : forall len, (len <= length anchor)%nat -> let n := prefix_loop anchor argv len in
  (n <= len)%nat /\ Forall (fun t => take n anchor `prefix_of` t) argv /\
  forall p, p `prefix_of` anchor -> Forall (fun t => p `prefix_of` t) argv -> (length p <= len)%nat -> (length p <= n)%nat.
Proof.
  induction argv as [|t argv IH]; intros len Hlen n; subst n; [cbn; split_and!; [lia|done|done]|].
  cbn [prefix_loop]. destruct (same_bytes_spec anchor len t) as (H1 & H2 & H3 & H4). destruct (IH _ H2) as (G1 & G2 & G3).
  split_and!; [lia| |].
  - constructor; [|done]. etrans; [|exact H3]. apply take_prefix. lia.
  - intros p Hp [Hpt Hf]%Forall_cons Hl. apply G3; [done..|]. by apply H4.
Qed.

(** The longest text all of them begin with. *)
Definition longest_common (t : list Z) (l : list (list Z)) : Prop :=
  Forall (fun x => t `prefix_of` x) l /\ forall p, Forall (fun x => p `prefix_of` x) l -> p `prefix_of` t.

Lemma find_common_prefix_spec x l : longest_common (take (find_common_prefix (x :: l)) x) (x :: l).
Proof.
  unfold find_common_prefix. destruct (prefix_loop_spec x l (length x) ltac:(lia)) as (H1 & H2 & H3). split.
  - constructor; [|done]. apply prefix_take.
  - intros p [Hp Hl]%Forall_cons. specialize (H3 p Hp Hl). destruct Hp as [q Hq].
    assert (length p <= prefix_loop x l (length x))%nat by (apply H3; rewrite Hq, length_app; lia).
    exists (take (prefix_loop x l (length x) - length p) q). subst x. rewrite take_app. by rewrite take_ge by lia.
Qed.

(** ** Completion of the name of a command *)

(** What can be typed as one word: no blanks, NULs or dots. *)
Definition plain (c : Z) : Prop := isblank c = false /\ c <> 0 /\ c <> 0x2E.

Lemma plain_word a : Forall plain a -> word a = (a, []).
Proof. induction 1 as [|c a (Hc & _) Ha IH]; [done|]. cbn. by rewrite Hc, IH. Qed.
Lemma plain_argv k a : a <> [] -> Forall plain a -> make_argv (S k) a = [a].
Proof.
  intros Hne Ha. cbn [make_argv]. destruct a as [|c a]; [done|]. pose proof Ha as [(Hc & _) _]%Forall_cons.
  cbn [skip_blanks]. by rewrite Hc, plain_word.
Qed.
Lemma plain_dot a : Forall plain a -> until_dot a = a.
Proof. induction 1 as [|c a (_ & _ & Hc) Ha IH]; [done|]. cbn. by rewrite (proj2 (Z.eqb_neq _ _) Hc), IH. Qed.
Lemma plain_string a r : Forall plain a -> c_string (a ++ 0 :: r) = a.
Proof. induction 1 as [|c a (_ & Hc & _) Ha IH]; [done|]. cbn. by rewrite (proj2 (Z.eqb_neq _ _) Hc), IH. Qed.
Lemma string_text t r : Forall (fun c => c <> 0) t -> c_string (t ++ 0 :: r) = t.
Proof. induction 1 as [|c t Hc Ht IH]; [done|]. cbn. by rewrite (proj2 (Z.eqb_neq _ _) Hc), IH. Qed.

Lemma offer_all maxv l : forall cmdv, Z.of_nat (length cmdv + length l) <= maxv - 2 -> offer maxv l cmdv = cmdv ++ l.
Proof.
  induction l as [|n l IH]; intros cmdv H; cbn [offer length] in *; [by rewrite app_nil_r|].
  rewrite (proj2 (Z.leb_gt _ _)) by lia. rewrite IH by (rewrite length_app; cbn; lia). by rewrite <- app_assoc.
Qed.

Lemma starts_with_prefix c n : starts_with c n = true <-> c `prefix_of` n.
Proof.
  unfold starts_with. rewrite andb_true_iff, negb_true_iff, Z.ltb_ge, bool_decide_eq_true. split.
  - intros [_ H]. exists (drop (length c) n). by rewrite <- H at 1; rewrite take_drop.
  - intros [q ->]. rewrite length_app, take_app_length. split; [lia|done].
Qed.

Section Completion.
Context {W : Type} (table : list (cmd_tbl W)).

Definition candidates (a : list Z) : list (list Z) := filter (fun n => a `prefix_of` n) (map name table).

Lemma complete_candidates a last_char : a <> [] -> Forall plain a -> last_char <> 0 -> isblank last_char = false ->
  (length (candidates a) <= 18)%nat ->
  complete_cmdv table [a] last_char 20 = Ok (Z.of_nat (length (candidates a)), candidates a).
Proof.
  intros Hne Ha H0 Hb Hl. unfold complete_cmdv. cbn [Z.ltb Z.compare Pos.compare Pos.compare_cont length Nat.ltb Nat.leb].
  rewrite (proj2 (Z.eqb_neq _ _) H0), Hb, (plain_dot a Ha). cbn [orb].
  assert (filter (fun n => Is_true (starts_with a n)) (map name table) = candidates a) as ->.
  { apply list_filter_iff. intros n. rewrite <- starts_with_prefix. split; [apply Is_true_true_1|apply Is_true_true_2]. }
  by rewrite offer_all by (cbn; lia).
Qed.

Lemma last_plain a : a <> [] -> Forall plain a -> exists c, last a = Some c /\ c <> 0 /\ isblank c = false.
Proof.
  intros Hne Ha. destruct a as [|c a _] using rev_ind; [done|]. apply Forall_app in Ha as [_ [(H1 & H2 & _) _]%Forall_cons].
  exists c. by rewrite last_snoc.
Qed.

(** The text that is added fits: it is stored behind the word. *)
Lemma store_completion a r t : (length t < length r)%nat ->
  exists b, store_block (a ++ 0 :: r) (length a) (t ++ [0]) = Some b /\ b = (a ++ t) ++ 0 :: drop (length t) r.
Proof.
  intros H. rewrite store_block_app by (rewrite length_app; cbn; lia). eexists. split; [done|].
  rewrite length_app, <- !app_assoc. cbn [length]. by rewrite Nat.add_1_r.
Qed.

Definition listing (a : list Z) : list Z := print_argv (cstr "  ") (cstr " ") 78 (candidates a) ++ CONFIG_SYS_PROMPT ++ a.

(** What completing the word [a] gives, and what is printed. *)
Inductive completed (a : list Z) : list Z -> list Z -> Prop :=
  | no_candidate : candidates a = [] -> completed a a [BEL]
  | one_candidate c : candidates a = [c] -> completed a (c ++ [0x20]) (drop (length a) c ++ [0x20])
  | some_common c c' l t : candidates a = c :: c' :: l -> longest_common t (candidates a) -> (length a < length t)%nat ->
      completed a t (drop (length a) t ++ [BEL])
  | nothing_common c c' l : candidates a = c :: c' :: l -> longest_common a (candidates a) -> completed a a (listing a).

Lemma candidates_prefix a c : c ∈ candidates a -> a `prefix_of` c /\ c ∈ map name table.
Proof. apply list_elem_of_filter. Qed.

Lemma completion_spec a : a <> [] ->
  exists o, completion [a] (Z.of_nat (length (candidates a))) (candidates a) = Ok o /\
    (candidates a <> [] -> exists t, t = a ++ match o with Some (s, true) => s ++ [0x20] | Some (s, false) => s | None => [] end /\
      (exists c, c ∈ candidates a /\ (length t <= S (length c))%nat /\ t `prefix_of` c ++ [0x20]) /\
      completed a t (match o with Some (s, true) => s ++ [0x20] | Some (s, false) => s ++ [BEL] | None => listing a end)).
Proof.
  intros Hne. unfold completion. pose proof (candidates_prefix a) as Hp. destruct (candidates a) as [|c [|c' l]] eqn:Ec; [by eexists|..].
  - cbn [length Z.of_nat Pos.of_succ_nat Z.eqb Pos.eqb last res_of_option res_bind head].
    destruct (Hp c) as [[q Hq] _]; [left|]. assert (length a <= length c)%nat as Hl by (rewrite Hq, length_app; lia).
    rewrite (proj2 (Nat.leb_le _ _) Hl). eexists. split; [done|]. intros _. exists (c ++ [0x20]).
    rewrite app_assoc. split_and!; [by rewrite Hq, drop_app_length|exists c; split_and!; [left|rewrite length_app; cbn; lia|done]|]. by apply one_candidate.
  - cbn [length last res_of_option head]. rewrite (proj2 (Z.eqb_neq _ 1)), (proj2 (Z.ltb_lt 1 _)) by lia.
    pose proof (find_common_prefix_spec c (c' :: l)) as Hlc. set (j := find_common_prefix (c :: c' :: l)) in *.
    assert (a `prefix_of` take j c) as Ha by (apply Hlc, Forall_forall; intros x Hx; by apply Hp).
    assert (take j c `prefix_of` c) as Htc by (apply prefix_take).
    destruct Ha as [q Hq]. assert (j <> 0)%nat as Hj by (intros Hj; rewrite Hj in Hq; by destruct a).
    rewrite (proj2 (Nat.eqb_neq j 0) Hj). cbn [res_bind].
    assert (length (take j c) <= j)%nat as Htl by (rewrite length_take; lia).
    destruct (Nat.ltb_spec (length a) j) as [Hlt|Hge]; eexists; (split; [done|]); intros _.
    + exists (take j c). assert (take (j - length a) (drop (length a) c) = drop (length a) (take j c)) as Hd by (by rewrite skipn_firstn_comm).
      rewrite Hd, Hq, drop_app_length. split_and!; [done| |].
      * exists c. rewrite <- Hq. split_and!; [left|rewrite length_take; lia|by apply prefix_app_r].
      * rewrite <- Hq. replace (q ++ [BEL]) with (drop (length a) (take j c) ++ [BEL]) by (by rewrite Hq, drop_app_length).
        rewrite <- Ec in Hlc. eapply some_common; [exact Ec|exact Hlc|].
        destruct (decide (length a < length (take j c))%nat); [done|]. exfalso.
        (* the whole of [c] would be [a] *)
        rewrite length_take in *. assert (length c <= length a)%nat as Hca by lia.
        pose proof (prefix_loop_spec c (c' :: l) (length c) ltac:(lia)) as (Hb & _). fold (find_common_prefix (c :: c' :: l)) in Hb. subst j. unfold find_common_prefix in *. lia.
    + exists a. rewrite app_nil_r. assert (q = []) as -> by (apply (f_equal length) in Hq; rewrite length_app in Hq; destruct q; [done|cbn [length] in Hq; lia]).
      rewrite app_nil_r in Hq. split_and!; [done| |].
      * exists c. rewrite <- Hq at 2. split_and!; [left|rewrite <- Hq, length_take; lia|by apply prefix_app_r].
      * eapply nothing_common; [exact Ec|]. rewrite Ec. by rewrite <- Hq.
Qed.

Lemma prefix_forall (P : Z -> Prop) t x : t `prefix_of` x -> Forall P x -> Forall P t.
Proof. intros [q ->] H. by apply Forall_app in H as [H _]. Qed.
End Completion.

Lemma cmp_refl l : cmp_bytes l l = 0.
Proof. induction l as [|c l IH]; [done|]. cbn. by rewrite Z.eqb_refl. Qed.

Lemma streq_refl s : streq s s = true.
Proof. unfold streq. by rewrite cmp_refl. Qed.

(** C27: the tab key completes the name of a command.  A word typed at the prompt, without dots, is completed against the table of commands: if no
    name begins with it the terminal beeps; if exactly one does, the line becomes that name and a blank, which is then
    one word and finds that command; if several do, the line becomes the longest text all of them begin with, and
    the candidates are listed if that is nothing new.  What is printed is what was added.  At most 18 names are
    candidates, and names have at most 252 characters. *)
Theorem tab_completes {W} (table : list (cmd_tbl W)) a r col :
  a <> [] -> Forall plain a -> (length a < 256 <= length r)%nat ->
  Forall (fun n => Forall (fun c => c <> 0) n /\ (length n <= 252)%nat) (map name table) ->
  (length (candidates table a) <= 18)%nat ->
  exists t b out, cmd_auto_complete table CONFIG_SYS_PROMPT (a ++ 0 :: r) (Z.of_nat (length a)) col =
      Ok (1, b, Z.of_nat (length t), col + Z.of_nat (length t) - Z.of_nat (length a), out) /\
    c_string b = t /\ completed table a t out.
Proof.
  intros Hne Ha [Hal Hr] Hn Hc. unfold cmd_auto_complete. rewrite streq_refl, (plain_string a r Ha). cbn [negb].
  destruct (last_plain a Hne Ha) as (lc & -> & H0 & Hb). rewrite (proj2 (Z.leb_gt CONFIG_SYS_CBSIZE _)) by (unfold CONFIG_SYS_CBSIZE; lia).
  change CONFIG_SYS_MAXARGS with 16%nat. rewrite (plain_argv 15 a Hne Ha), (complete_candidates table a lc) by done. cbn [res_bind].
  destruct (completion_spec table a Hne) as (o & Ho & Hsp). destruct (candidates table a) as [|c0 l0] eqn:Ec.
  { cbn [length Z.of_nat Z.eqb Nat.ltb Nat.leb]. exists a. do 2 eexists. rewrite Z.add_simpl_r. split; [done|]. split; [by apply plain_string|by apply no_candidate]. }
  rewrite (proj2 (Z.eqb_neq _ 0)) by (cbn [length]; lia). rewrite Ho. cbn [res_bind].
  destruct (Hsp ltac:(done)) as (t & Ht & (c & Hin & Htl & Hpre) & Hcomp). exists t.
  assert (c ∈ map name table) as Hin' by (rewrite <- Ec in Hin; by apply candidates_prefix in Hin as [_ ?]).
  pose proof (proj1 (Forall_forall _ _) Hn c Hin') as [Hz Hcl].
  assert (Forall (fun c => c <> 0) t) as Htz by (eapply prefix_forall; [exact Hpre|apply Forall_app_2; [done|by repeat constructor]]).
  destruct o as [[s sep]|].
  - set (u := s ++ (if sep then [0x20] else [])) in *.
    assert (t = a ++ u) as Htu by (subst u; rewrite Ht; destruct sep; by rewrite ?app_nil_r).
    assert (length t = length a + length u)%nat as Hlu by (by rewrite Htu, length_app).
    rewrite (proj2 (Z.leb_gt (CONFIG_SYS_CBSIZE - 2) _)) by (unfold CONFIG_SYS_CBSIZE; lia).
    destruct (store_completion a r u) as (b & -> & ->); [lia|]. cbn [res_of_option res_bind]. do 2 eexists. split; [|split].
    + rewrite Hlu, Nat2Z.inj_add. do 2 f_equal. f_equal. lia.
    + rewrite <- Htu. by apply string_text.
    + subst u. by destruct sep; rewrite ?app_nil_r, <- ?app_assoc.
  - rewrite app_nil_r in Ht. subst t. unfold listing in Hcomp. rewrite Ec in Hcomp. do 2 eexists. rewrite Z.add_simpl_r. split; [done|]. split; [by apply plain_string|done].
Qed.

Definition sample (n : string) : cmd_tbl unit :=
  {| name := cstr n; maxargs := 5; repeatable := 1; cmd := fun _ _ w => Ok (0, w); is_bootd := false; usage := None; help := None; complete := None |}.
Definition commands : list (cmd_tbl unit) := map sample ["md"; "printenv"; "print"; "mtest"; "boot"; "bootm"]%string.

Lemma tab_completes_witness : exists t b out,
  cmd_auto_complete commands CONFIG_SYS_PROMPT (cstr "pr" ++ 0 :: replicate 256 0) 2 13 = Ok (1, b, Z.of_nat (length t), 13 + Z.of_nat (length t) - 2, out) /\
  c_string b = t /\ completed commands (cstr "pr") t out.
Proof.
  apply (tab_completes commands (cstr "pr") (replicate 256 0) 13).
  - discriminate.
  - repeat constructor; discriminate.
  - split; apply Nat.ltb_lt; reflexivity.
  - repeat constructor; try discriminate; apply Nat.leb_le; reflexivity.
  - apply Nat.leb_le. vm_compute. reflexivity.
Defined.

(** Completing a command with a size suffix reads past its name.  For a word such as md.b the part before the dot is looked up, but the
    whole word is taken for the part of the name that is already there: when one command begins with what stands
    before the dot and its name is shorter than the word, the rest that is added starts behind the end of the name. *)
Theorem dotted_completion_overreads {W} (table : list (cmd_tbl W)) a d c r n col :
  a <> [] -> Forall plain a -> Forall (fun x => isblank x = false /\ x <> 0) d -> candidates table a = [c] ->
  (length c <= length (a ++ d) < 255)%nat ->
  cmd_auto_complete table CONFIG_SYS_PROMPT (a ++ 0x2E :: d ++ 0 :: r) n col = Ub.
Proof.
  intros Hne Ha Hd Hc [Hlc Hl]. unfold cmd_auto_complete. rewrite streq_refl. cbn [negb].
  set (w := a ++ 0x2E :: d). assert (Forall (fun x => isblank x = false /\ x <> 0) w) as Hw.
  { apply Forall_app_2; [eapply Forall_impl; [exact Ha|by intros x (? & ? & _)]|]. by constructor. }
  assert (length w = S (length (a ++ d))) as Hwl by (subst w; rewrite !length_app; cbn; lia).
  replace (a ++ 0x2E :: d ++ 0 :: r) with (w ++ 0 :: r) by (subst w; by rewrite <- app_assoc).
  rewrite string_text by (eapply Forall_impl; [exact Hw|by intros x [_ ?]]).
  assert (exists lc, last w = Some lc /\ isblank lc = false /\ lc <> 0) as (lc & -> & Hb & H0).
  { destruct w as [|x w' _] eqn:Ew using rev_ind; [cbn in Hwl; lia|]. exists x. rewrite last_snoc. by apply Forall_app in Hw as [_ [? _]%Forall_cons]. }
  rewrite (proj2 (Z.leb_gt CONFIG_SYS_CBSIZE _)) by (unfold CONFIG_SYS_CBSIZE; lia).
  assert (make_argv CONFIG_SYS_MAXARGS w = [w]) as ->.
  { change CONFIG_SYS_MAXARGS with 16%nat. cbn [make_argv]. destruct w as [|x w'] eqn:Ew; [cbn in Hwl; lia|]. pose proof Hw as [[Hx _] _]%Forall_cons.
    cbn [skip_blanks]. rewrite Hx. assert (word (x :: w') = (x :: w', [])) as ->; [|done].
    clear -Hw. revert Hw. generalize (x :: w'). induction 1 as [|y l [Hy _] Hl IH]; [done|]. cbn. by rewrite Hy, IH. }
  assert (until_dot w = a) as Hu.
  { subst w. clear -Ha. induction Ha as [|x a (_ & _ & Hx) Ha IH]; [done|]. cbn. by rewrite (proj2 (Z.eqb_neq _ _) Hx), IH. }
  clearbody w. unfold complete_cmdv. cbn [Z.ltb Z.compare Pos.compare Pos.compare_cont length Nat.ltb Nat.leb]. rewrite (proj2 (Z.eqb_neq _ _) H0), Hb, Hu. cbn [orb].
  assert (filter (fun n => Is_true (starts_with a n)) (map name table) = [c]) as ->.
  { rewrite <- Hc. apply list_filter_iff. intros x. rewrite <- starts_with_prefix. split; [apply Is_true_true_1|apply Is_true_true_2]. }
  rewrite offer_all by (cbn; lia). cbn [app length Z.of_nat Pos.of_succ_nat res_bind Z.eqb].
  unfold completion. cbn [Z.eqb Pos.eqb last res_of_option head res_bind]. by rewrite (proj2 (Nat.leb_gt (length w) (length c))) by lia.
Qed.

Lemma dotted_completion_overreads_witness :
  cmd_auto_complete commands CONFIG_SYS_PROMPT (cstr "md" ++ 0x2E :: cstr "b" ++ 0 :: replicate 252 0) 4 15 = Ub.
Proof.
  apply (dotted_completion_overreads commands (cstr "md") (cstr "b") (cstr "md")).
  - discriminate.
  - repeat constructor; discriminate.
  - repeat constructor; discriminate.
  - vm_compute. reflexivity.
  - split; [apply Nat.leb_le|apply Nat.ltb_lt]; reflexivity.
Defined.

(** ** The sorted help *)

Definition ascii_name (l : list Z) : Prop := Forall (fun c => 0 < c < 128) l.

Lemma cmp_ascii l1 : forall l2, ascii_name l1 -> ascii_name l2 -> -128 < cmp_bytes l1 l2 < 128.
Proof.
  induction l1 as [|c l1 IH]; intros [|d l2] H1 H2; cbn; try lia.
  - apply Forall_cons in H2 as [H2 _]. unfold Cstring.NUL. lia.
  - apply Forall_cons in H1 as [H1 _]. unfold Cstring.NUL. lia.
  - apply Forall_cons in H1 as [? H1]. apply Forall_cons in H2 as [? H2]. destruct (Z.eqb_spec c d); [by apply IH|lia].
Qed.
Lemma cmp_trans l1 : forall l2 l3, ascii_name l1 -> ascii_name l2 -> ascii_name l3 -> cmp_bytes l1 l2 <= 0 -> cmp_bytes l2 l3 <= 0 -> cmp_bytes l1 l3 <= 0.
Proof.
  unfold ascii_name. induction l1 as [|c l1 IH]; intros [|d l2] [|x l3]; rewrite ?Forall_cons; cbn; unfold Cstring.NUL; intros H1 H2 H3; try lia.
  destruct (Z.eqb_spec c d) as [->|], (Z.eqb_spec d x) as [->|]; rewrite ?Z.eqb_refl; intros.
  - eapply (IH l2); tauto.
  - lia.
  - rewrite (proj2 (Z.eqb_neq _ _)) by lia. lia.
  - rewrite (proj2 (Z.eqb_neq _ _)) by lia. lia.
Qed.
Lemma cmp_flip l1 : forall l2, cmp_bytes l2 l1 = - cmp_bytes l1 l2.
Proof. induction l1 as [|c l1 IH]; intros [|d l2]; cbn; unfold Cstring.NUL; try lia. rewrite (Z.eqb_sym d c). destruct (Z.eqb_spec c d); [apply IH|lia]. Qed.

Section Sorting.
Context {W : Type}.
Implicit Types (l p q : list (cmd_tbl W)).

Definition name_le (x y : cmd_tbl W) : Prop := cmp_bytes (name x) (name y) <= 0.
Definition ascii l : Prop := Forall (fun e => ascii_name (name e)) l.

Lemma bubble_test (x y : cmd_tbl W) : ascii_name (name x) -> ascii_name (name y) -> (0 <? s8 (cmp_bytes (name x) (name y))) = bool_decide (0 < cmp_bytes (name x) (name y)).
Proof.
  intros Hx Hy. pose proof (cmp_ascii _ _ Hx Hy). rewrite swrap_small by (cbn; lia).
  destruct (Z.ltb_spec 0 (cmp_bytes (name x) (name y))); [by rewrite bool_decide_eq_true_2|rewrite bool_decide_eq_false_2 by lia; done].
Qed.

Lemma below_max z p p' m : Permutation (z :: p) (p' ++ [m]) -> Forall (fun x => name_le x m) p' -> name_le z m.
Proof.
  intros Hp Hm. assert (z ∈ p' ++ [m]) as Hz by (rewrite <- Hp; left).
  apply elem_of_app in Hz as [Hz|Hz]; [by eapply Forall_forall in Hm|]. apply list_elem_of_singleton in Hz as ->.
  unfold name_le. by rewrite cmp_refl.
Qed.

Lemma ascii_perm l l' : Permutation l l' -> ascii l -> ascii l'.
Proof. unfold ascii. by intros ->. Qed.

(** A pass over [S k] elements: the last one is a greatest, and without a swap nothing was out of order. *)
Lemma bubble_pass k : forall p q, ascii p -> length p = S k ->
  exists p' m swaps, bubble k (p ++ q) = (p' ++ [m] ++ q, swaps) /\ Permutation p (p' ++ [m]) /\
    Forall (fun x => name_le x m) p' /\ (swaps = 0%nat -> p = p' ++ [m] /\ Sorted name_le p).
Proof.
  induction k as [|k IH]; intros p q Hp Hl.
  { destruct p as [|x [|y p]]; try done. exists [], x, 0%nat. split_and!; [by destruct q|done|constructor|by repeat constructor]. }
  destruct p as [|x [|y p]]; try done. apply Forall_cons in Hp as [Hx Hp]. apply Forall_cons in Hp as [Hy Hp].
  cbn [app bubble]. rewrite bubble_test by done. case_bool_decide as Hxy.
  - destruct (IH (x :: p) q) as (p' & m & swaps & Hb & Hperm & Hm & _); [by constructor|cbn in *; lia|].
    cbn [app] in Hb. rewrite Hb. exists (y :: p'), m, (S swaps). split_and!; [done|by rewrite Permutation_swap, Hperm| |done].
    constructor; [|done]. pose proof (below_max _ _ _ _ Hperm Hm) as Hxm.
    assert (ascii (p' ++ [m])) as [_ [Hma _]%Forall_cons]%Forall_app by (eapply ascii_perm; [exact Hperm|by constructor]).
    apply (cmp_trans _ (name x)); [done..| |done]. rewrite cmp_flip. lia.
  - destruct (IH (y :: p) q) as (p' & m & swaps & Hb & Hperm & Hm & Hs); [by constructor|cbn in *; lia|].
    cbn [app] in Hb. rewrite Hb. exists (x :: p'), m, swaps. split_and!; [done|by rewrite Hperm| |].
    + constructor; [|done]. pose proof (below_max _ _ _ _ Hperm Hm) as Hym.
      assert (ascii (p' ++ [m])) as [_ [Hma _]%Forall_cons]%Forall_app by (eapply ascii_perm; [exact Hperm|by constructor]).
      apply (cmp_trans _ (name y)); [done..|unfold name_le in *; lia|done].
    + intros [E Hsort]%Hs. split; [by rewrite E|]. constructor; [done|]. constructor. unfold name_le. lia.
Qed.

(** The last elements are sorted and no smaller than those before them. *)
Lemma sort_loop_sorts i : forall p q, ascii (p ++ q) -> length p = S i -> Sorted name_le q -> Forall (fun x => Forall (name_le x) q) p ->
  Permutation (p ++ q) (sort_loop i (p ++ q)) /\ Sorted name_le (sort_loop i (p ++ q)).
Proof.
  assert (forall p q, Sorted name_le p -> Sorted name_le q -> Forall (fun x => Forall (name_le x) q) p -> Sorted name_le (p ++ q)) as Happ.
  { intros p q Hp Hq Hpq. induction Hp as [|x p Hp IH Hx]; [done|]. apply Forall_cons in Hpq as [Hxq Hpq]. constructor; [by apply IH|].
    destruct p as [|y p]; [destruct Hxq; by constructor|by inversion_clear Hx; constructor]. }
  induction i as [|i IH]; intros p q Ha Hl Hq Hpq; cbn [sort_loop].
  { split; [done|]. apply Happ; [|done..]. destruct p as [|x [|y p]]; try done. by repeat constructor. }
  assert (ascii p) as Hap by (by apply Forall_app in Ha as [? _]).
  destruct (bubble_pass (S i) p q Hap Hl) as (p' & m & swaps & -> & Hperm & Hm & Hs).
  destruct (Nat.eqb_spec swaps 0) as [->|_].
  - destruct (Hs eq_refl) as [E Hsort]. rewrite app_assoc, <- E. split; [done|by apply Happ].
  - assert (Permutation (p ++ q) (p' ++ [m] ++ q)) as Hpm by (by rewrite Hperm, <- app_assoc).
    rewrite Hperm in Hpq. apply Forall_app in Hpq as [Hp'q [Hmq _]%Forall_cons].
    destruct (IH p' ([m] ++ q)) as [G1 G2]; [by eapply ascii_perm|apply Permutation_length in Hperm; rewrite length_app in Hperm; cbn in *; lia| | |].
    + constructor; [done|]. destruct Hmq; by constructor.
    + apply Forall_forall. intros x Hx. constructor; [by eapply Forall_forall in Hm|by eapply Forall_forall in Hp'q].
    + by rewrite Hpm.
Qed.
End Sorting.

(** The list of commands is printed in order.  Whatever the order of the commands in memory, the bubble sort of the help, which stops after a
    pass without a swap, gives all of them, ordered by name; the usage texts are then printed in that order until
    the user interrupts. *)
Theorem help_sorts {W} (table : list (cmd_tbl W)) :
  ascii table -> Permutation table (sort_loop (length table - 1) table) /\ Sorted name_le (sort_loop (length table - 1) table).
Proof.
  intros Ha. destruct table as [|e table]; [by split|]. cbn [length]. replace (S (length table) - 1)%nat with (length table) by lia.
  pose proof (sort_loop_sorts (length table) (e :: table) []) as H. rewrite app_nil_r in H.
  apply H; [done|done|constructor|]. apply Forall_forall. intros x _. constructor.
Qed.

Lemma help_sorts_witness : Permutation commands (sort_loop 5 commands) /\ Sorted name_le (sort_loop 5 commands).
Proof. apply (help_sorts commands). apply Forall_map. repeat constructor. Defined.
