(* ===== verification/Bootm.v ===== *)
(** * Booting an image ([common/cmd_bootm.c], [common/image.c], [arch/arm/lib/bootm.c], [common/command.c])

    The command [bootm]: find the kernel image and the ramdisk, load the kernel, prepare the tags and jump, as one
    command or as sub-commands that are remembered in [images.state].  The state is the memory, the structure
    [images], the environment (the map of variables it holds) and [load_addr].  What the started program does is a
    parameter: it gives the memory back or never returns.  So are decompression and the start functions of the
    operating systems other than Linux.  Messages, interrupts (not used on the board) and caches are left out. *)
From S2P Require Import Prelude Hashtable Ctype Vsprintf Lmb Crc Ram Image Atags Command.

Definition BOOTM_STATE_START : Z := 0x1.
Definition BOOTM_STATE_FINDOS : Z := 0x2.
Definition BOOTM_STATE_FINDOTHER : Z := 0x4.
Definition BOOTM_STATE_LOADOS : Z := 0x8.
Definition BOOTM_STATE_RAMDISK : Z := 0x10.
Definition BOOTM_STATE_OS_CMDLINE : Z := 0x40.
Definition BOOTM_STATE_OS_BD_T : Z := 0x80.
Definition BOOTM_STATE_OS_PREP : Z := 0x100.
Definition BOOTM_STATE_OS_FAKE_GO : Z := 0x200.
Definition BOOTM_STATE_OS_GO : Z := 0x400.
Definition BOOTM_ERR_RESET : Z := -1.
Definition BOOTM_ERR_OVERLAP : Z := -2.
Definition BOOTM_ERR_UNIMPLEMENTED : Z := -3.
Definition CONFIG_SYS_BOOTM_LEN : Z := 0x800000.
Definition CONFIG_SYS_SDRAM_BASE : Z := 0x20000000.
Definition CMD_RET_USAGE : Z := -1.

(** [image_info_t] and the fields of [bootm_headers_t] that are configured. *)
Record image_info_t := Info { start : Z; end_ : Z; image_start : Z; image_len : Z; load : Z; comp : Z; type : Z; os : Z }.
Record bootm_headers := Images {
  legacy_hdr_os : Z; legacy_hdr_os_copy : list Z; legacy_hdr_valid : bool; img_os : image_info_t; ep : Z;
  rd_start : Z; rd_end : Z; initrd_start : Z; initrd_end : Z; verify : Z; state : Z; img_lmb : lmb
}.
Definition zero_lmb : lmb := Lmb (Rgn 0 0 (replicate 9 (Blk 0 0))) (Rgn 0 0 (replicate 9 (Blk 0 0))).
(** [memset]. *)
Definition zero_images : bootm_headers :=
  Images 0 (replicate 64 0) false (Info 0 0 0 0 0 0 0 0) 0 0 0 0 0 0 0 zero_lmb.

Definition set_state (x : Z) (i : bootm_headers) : bootm_headers :=
  Images (legacy_hdr_os i) (legacy_hdr_os_copy i) (legacy_hdr_valid i) (img_os i) (ep i) (rd_start i) (rd_end i) (initrd_start i) (initrd_end i) (verify i) x (img_lmb i).
Definition set_lmb (l : lmb) (i : bootm_headers) : bootm_headers :=
  Images (legacy_hdr_os i) (legacy_hdr_os_copy i) (legacy_hdr_valid i) (img_os i) (ep i) (rd_start i) (rd_end i) (initrd_start i) (initrd_end i) (verify i) (state i) l.
Definition set_os (o : image_info_t) (e : Z) (i : bootm_headers) : bootm_headers :=
  Images (legacy_hdr_os i) (legacy_hdr_os_copy i) (legacy_hdr_valid i) o e (rd_start i) (rd_end i) (initrd_start i) (initrd_end i) (verify i) (state i) (img_lmb i).
Definition set_legacy (hdr : Z) (copy : list Z) (i : bootm_headers) : bootm_headers :=
  Images hdr copy true (img_os i) (ep i) (rd_start i) (rd_end i) (initrd_start i) (initrd_end i) (verify i) (state i) (img_lmb i).
Definition set_rd (s e : Z) (i : bootm_headers) : bootm_headers :=
  Images (legacy_hdr_os i) (legacy_hdr_os_copy i) (legacy_hdr_valid i) (img_os i) (ep i) s e (initrd_start i) (initrd_end i) (verify i) (state i) (img_lmb i).
Definition set_initrd (s e : Z) (i : bootm_headers) : bootm_headers :=
  Images (legacy_hdr_os i) (legacy_hdr_os_copy i) (legacy_hdr_valid i) (img_os i) (ep i) (rd_start i) (rd_end i) s e (verify i) (state i) (img_lmb i).

Record world := World { mem : Z -> Z; images : bootm_headers; env : gmap (list Z) (list Z); load_addr : Z }.
Definition set_mem (m : Z -> Z) (w : world) : world := World m (images w) (env w) (load_addr w).
Definition set_images (i : bootm_headers) (w : world) : world := World (mem w) i (env w) (load_addr w).
Definition set_env (e : gmap (list Z) (list Z)) (w : world) : world := World (mem w) (images w) e (load_addr w).

(** How a command ends: with a result, in a program that does not return, or with a reset of the board. *)
Inductive outcome :=
  | Returned (ret : Z)
  | Entered (entry : Z) (args : list Z)
  | Was_reset.

Definition getenv (w : world) (name : string) : option (list Z) := env w !! cstr name.
Definition setenv_hex (name : string) (value : Z) (w : world) : res world :=
  let* (str, _) := text_of (cstr "%lx") [VInt value] in Ok (set_env (<[cstr name := str]> (env w)) w).
Definition getenv_yesno (w : world) (name : string) : Z :=
  match getenv w name with None => -1 | Some s => if bool_decide (nth 0 s 0 ∈ cstr "1yYtT") then 1 else 0 end.

(** The callback of the variable [loadaddr]: creating and overwriting it set [load_addr]. *)

Definition on_loadaddr (value : list Z) (op : env_op) (load_addr : Z) : Z :=
  match op with
  | env_op_create | env_op_overwrite => fst (simple_strtoul value 16)
  | env_op_delete => load_addr
  end.

(** ** Memory for images *)

Section board.
Context (bd : bd_t) (sp : Z) (tags : tag_config).

Definition dram0 : Z * Z := default (0, 0) (bi_dram bd !! 0%nat).

Definition getenv_bootm_low (w : world) : Z :=
  match getenv w "bootm_low" with Some s => fst (simple_strtoul s 16) | None => CONFIG_SYS_SDRAM_BASE end.
Definition getenv_bootm_size (w : world) : Z :=
  match getenv w "bootm_size" with
  | Some s => u32 (fst (simple_strtoull s 16))
  | None =>
    let tmp := match getenv w "bootm_low" with Some s => u32 (fst (simple_strtoull s 16)) | None => 0 end in
    u32 (snd dram0 - tmp)
  end.
(** [CONFIG_SYS_BOOTMAPSZ] is not defined. *)
Definition getenv_bootm_mapsize (w : world) : Z :=
  match getenv w "bootm_mapsize" with Some s => u32 (fst (simple_strtoull s 16)) | None => getenv_bootm_size w end.

Definition memmove_wd (to from len : Z) (m : Z -> Z) : Z -> Z :=
  if to =? from then m else copy_to m to (bytes_at m from (Z.to_nat len)).

Definition arch_lmb_reserve (l : lmb) : res lmb :=
  let sp := u32 (sp - 4096) in
  let* (_, l) := lmb_reserve l sp (u32 (fst dram0 + snd dram0 - sp)) in Ok l.

Definition boot_start_lmb (w : world) : res world :=
  let* l := lmb_init (img_lmb (images w)) in
  let mem_start := getenv_bootm_low w in
  let mem_size := getenv_bootm_size w in
  let* (_, l) := lmb_add l mem_start mem_size in
  let* l := arch_lmb_reserve l in
  Ok (set_images (set_lmb l (images w)) w).

(** ** Finding images *)

(** The components of multi-file images that are looked at, at most; then the table of sizes is too long. *)
Context (n : nat).

Definition boot_get_ramdisk (argv : list (list Z)) (w : world) (arch : Z) : res (Z * Z * Z) :=
  let i := images w in
  let m := mem w in
  let* found :=
    match argv !! 1%nat with
    | Some select =>
      if bool_decide (select = cstr "-") then Ok (Some (0, 0))
      else
        let rd_addr := genimg_get_image (fst (simple_strtoul select 16)) in
        if genimg_get_format m rd_addr =? IMAGE_FORMAT_LEGACY then
          let* h := image_get_ramdisk m rd_addr arch (negb (verify i =? 0)) in
          match h with
          | None => Ok None
          | Some rd_hdr => Ok (Some (image_get_data rd_hdr, image_get_data_size (header_at m rd_hdr)))
          end
        else Ok None
    | None =>
      if legacy_hdr_valid i && image_check_type (legacy_hdr_os_copy i) IH_TYPE_MULTI then
        let* (d, l) := image_multi_getimg m n (legacy_hdr_os i) 1 in Ok (Some (d, l))
      else Ok (Some (0, 0))
    end in
  match found with
  | None => Ok (1, 0, 0)
  | Some (rd_data, rd_len) => Ok (if rd_data =? 0 then (0, 0, 0) else (0, rd_data, u32 (rd_data + rd_len)))
  end.

(** The header, or nothing; the place and the length of the kernel; [images]. *)
Definition boot_get_kernel (argv : list (list Z)) (w : world) : res (option Z * Z * Z * bootm_headers) :=
  let i := images w in
  let m := mem w in
  let img_addr := match argv with [] => load_addr w | a :: _ => fst (simple_strtoul a 16) end in
  let img_addr := genimg_get_image img_addr in
  if genimg_get_format m img_addr =? IMAGE_FORMAT_LEGACY then
    let* h := image_get_kernel m img_addr (negb (verify i =? 0)) in
    match h with
    | None => Ok (None, 0, 0, i)
    | Some hdr =>
      let t := image_get_type (header_at m hdr) in
      if (t =? IH_TYPE_KERNEL) || (t =? IH_TYPE_KERNEL_NOLOAD) || (t =? IH_TYPE_STANDALONE) then
        Ok (Some img_addr, image_get_data hdr, image_get_data_size (header_at m hdr), set_legacy hdr (header_at m hdr) i)
      else if t =? IH_TYPE_MULTI then
        let* (d, l) := image_multi_getimg m n hdr 0 in
        Ok (Some img_addr, d, l, set_legacy hdr (header_at m hdr) i)
      else Ok (None, 0, 0, i)
    end
  else Ok (None, 0, 0, i).

Definition bootm_start (w : world) : res (Z * world) :=
  let w := set_images zero_images w in
  let i := images w in
  let w := set_images (Images (legacy_hdr_os i) (legacy_hdr_os_copy i) (legacy_hdr_valid i) (img_os i) (ep i) (rd_start i) (rd_end i) (initrd_start i) (initrd_end i)
                         (getenv_yesno w "verify") (state i) (img_lmb i)) w in
  let* w := boot_start_lmb w in
  Ok (0, set_images (set_state BOOTM_STATE_START (images w)) w).

(** The place and the length of the kernel are stored before anything is checked. *)
Definition bootm_find_os (argv : list (list Z)) (w : world) : res (Z * world) :=
  let* (os_hdr, d, len, i) := boot_get_kernel argv w in
  let o := img_os i in
  let i := set_os (Info (start o) (end_ o) d len (load o) (comp o) (type o) (os o)) (ep i) i in
  if len =? 0 then Ok (1, set_images i w)
  else
    match os_hdr with
    | None => Ok (1, set_images i w)
    | Some hdr =>
      let m := mem w in
      let h := header_at m hdr in
      if genimg_get_format m hdr =? IMAGE_FORMAT_LEGACY then
        let o := Info (start o) (image_get_image_end m hdr) d len (image_get_load h) (image_get_comp h) (image_get_type h) (image_get_os h) in
        if legacy_hdr_valid i then
          let e := image_get_ep (legacy_hdr_os_copy i) in
          let '(o, e) := if type o =? IH_TYPE_KERNEL_NOLOAD
                         then (Info (start o) (end_ o) d len d (comp o) (type o) (os o), u32 (e + d)) else (o, e) in
          Ok (0, set_images (set_os (Info hdr (end_ o) d len (load o) (comp o) (type o) (os o)) e i) w)
        else Ok (1, set_images (set_os o (ep i) i) w)
      else Ok (1, set_images i w)
    end.

Definition bootm_find_ramdisk (argv : list (list Z)) (w : world) : res (Z * world) :=
  let* (ret, s, e) := boot_get_ramdisk argv w IH_ARCH_DEFAULT in
  Ok (if ret =? 0 then 0 else 1, set_images (set_rd s e (images w)) w).

Definition bootm_find_other (argv : list (list Z)) (w : world) : res (Z * world) :=
  let o := img_os (images w) in
  if ((type o =? IH_TYPE_KERNEL) || (type o =? IH_TYPE_KERNEL_NOLOAD) || (type o =? IH_TYPE_MULTI)) && ((os o =? IH_OS_LINUX) || (os o =? IH_OS_VXWORKS))
  then bootm_find_ramdisk argv w
  else Ok (0, w).

(** ** Loading *)

(** [gunzip]: the destination and its size, the source and its length; the result, the new memory, the length. *)
Context (gunzip : (Z -> Z) -> Z -> Z -> Z -> Z -> Z * (Z -> Z) * Z).

(** The result, [*load_end] and the memory. *)
Definition bootm_load_os (i : bootm_headers) (m : Z -> Z) : Z * Z * (Z -> Z) :=
  let o := img_os i in
  let '(ret, load_end, no_overlap, m) :=
    if comp o =? IH_COMP_NONE then
      if (load o =? start o) || (load o =? image_start o) then (0, u32 (load o + image_len o), true, m)
      else (0, u32 (load o + image_len o), false, memmove_wd (load o) (image_start o) (image_len o) m)
    else if comp o =? IH_COMP_GZIP then
      let '(r, m, len) := gunzip m (load o) CONFIG_SYS_BOOTM_LEN (image_start o) (image_len o) in
      if negb (r =? 0) then (BOOTM_ERR_RESET, 0, false, m) else (0, u32 (load o + len), false, m)
    else (BOOTM_ERR_UNIMPLEMENTED, 0, false, m) in
  if negb (ret =? 0) then (ret, load_end, m)
  else if negb no_overlap && (load o <? end_ o) && (start o <? load_end) then
    (if legacy_hdr_valid i then BOOTM_ERR_OVERLAP else BOOTM_ERR_RESET, load_end, m)
  else (0, load_end, m).

(** [initrd_high] of all ones leaves the ramdisk where it is; 0 puts it anywhere. *)
Definition boot_ramdisk_high (w : world) (rd_data rd_len : Z) : res (Z * world) :=
  let i := images w in
  let '(initrd_high, copy) :=
    match getenv w "initrd_high" with
    | Some s => let h := fst (simple_strtoul s 16) in (h, negb (h =? 0xffffffff))
    | None => (0xffffffff, true)
    end in
  if negb (rd_data =? 0) then
    if negb copy then
      let i := set_initrd rd_data (u32 (rd_data + rd_len)) i in
      let* (_, l) := lmb_reserve (img_lmb i) rd_data rd_len in
      Ok (0, set_images (set_lmb l i) w)
    else
      let* (b, l) := (if negb (initrd_high =? 0) then lmb_alloc_base (img_lmb i) rd_len 0x1000 initrd_high
                      else lmb_alloc (img_lmb i) rd_len 0x1000) in
      let i := set_lmb l (set_initrd b (initrd_end i) i) in
      if b =? 0 then Ok (-1, set_images i w)
      else
        let i := set_initrd b (u32 (b + rd_len)) i in
        Ok (0, set_mem (memmove_wd b rd_data rd_len (mem w)) (set_images i w))
  else Ok (0, set_images (set_initrd 0 0 i) w).

(** ** Starting *)

(** A program at an address with arguments in registers: the memory it leaves, if it returns. *)
Context (run : Z -> list Z -> (Z -> Z) -> option (Z -> Z)).
(** The start functions of NetBSD, RTEMS, Plan 9, VxWorks and QNX, by the number of the system. *)
Context (boot_other : Z -> Z -> list (list Z) -> world -> res (outcome * world)).

(** Call a program; if it returns, with its result ignored. *)
Definition call (entry : Z) (args : list Z) (w : world) : outcome * world :=
  match run entry args (mem w) with
  | None => (Entered entry args, w)
  | Some m => (Returned 0, set_mem m w)
  end.

Definition boot_prep_linux (w : world) : res world :=
  let* m := setup_tags tags bd (getenv w "bootargs") (rd_start (images w)) (rd_end (images w)) (mem w) in
  Ok (set_mem m w).

(** A [machid] that is not a number counts as 0. *)
Definition boot_jump_linux (w : world) (flag : Z) : outcome * world :=
  let machid := match getenv w "machid" with Some s => snd (strict_strtoul s 16) | None => bi_arch_number bd end in
  let r2 := bi_boot_params bd in
  if negb (tst flag BOOTM_STATE_OS_FAKE_GO) then call (ep (images w)) [0; machid; r2] w else (Returned 0, w).

Definition do_bootm_linux (flag : Z) (w : world) : res (outcome * world) :=
  if tst flag BOOTM_STATE_OS_BD_T || tst flag BOOTM_STATE_OS_CMDLINE then Ok (Returned (-1), w)
  else if tst flag BOOTM_STATE_OS_PREP then let* w := boot_prep_linux w in Ok (Returned 0, w)
  else if tst flag (BOOTM_STATE_OS_GO .| BOOTM_STATE_OS_FAKE_GO) then Ok (boot_jump_linux w flag)
  else let* w := boot_prep_linux w in Ok (boot_jump_linux w flag).

(** Whatever the flag: a stand-alone program is called with the arguments, unless [autostart] is "no". *)
Definition do_bootm_standalone (argv : list (list Z)) (w : world) : res (outcome * world) :=
  if bool_decide (getenv w "autostart" = Some (cstr "no")) then
    let* w := setenv_hex "filesize" (image_len (img_os (images w))) w in Ok (Returned 0, w)
  else Ok (call (ep (images w)) [Z.of_nat (length argv)] w).

(** The table [boot_os] has 24 elements; reading behind it is undefined. *)
Inductive boot_os_fn := Standalone | Linux | Other (id : Z).
Definition boot_os (id : Z) : res (option boot_os_fn) :=
  if (id <? 0) || (23 <? id) then Ub
  else Ok (if id =? IH_OS_U_BOOT then Some Standalone
           else if id =? IH_OS_LINUX then Some Linux
           else if bool_decide (id ∈ [IH_OS_NETBSD; IH_OS_PLAN9; IH_OS_RTEMS; IH_OS_VXWORKS; IH_OS_QNX]) then Some (Other id)
           else None).
Definition boot_fn (f : boot_os_fn) (flag : Z) (argv : list (list Z)) (w : world) : res (outcome * world) :=
  match f with
  | Standalone => do_bootm_standalone argv w
  | Linux => do_bootm_linux flag w
  | Other id => boot_other id flag argv w
  end.

(** Continue with the result of a call, if it returned. *)
Definition returned (r : res (outcome * world)) (k : Z -> world -> res (outcome * world)) : res (outcome * world) :=
  let* (o, w) := r in
  match o with Returned ret => k ret w | _ => Ok (o, w) end.

Definition boot_selected_os (argv : list (list Z)) (st : Z) (f : boot_os_fn) (w : world) : res (outcome * world) :=
  returned (boot_fn f st argv w) (fun _ w =>
    if (type (img_os (images w)) =? IH_TYPE_STANDALONE) || (st =? BOOTM_STATE_OS_FAKE_GO) then Ok (Returned 0, w)
    else Ok (Returned BOOTM_ERR_RESET, w)).

(** [err:] only a reset has an effect here. *)
Definition fallout (ret : Z) (w : world) : outcome * world :=
  if ret =? BOOTM_ERR_RESET then (Was_reset, w) else (Returned ret, w).

(** One of the states that call the start function. *)
Definition os_state (states bit : Z) (f : option boot_os_fn) (argv : list (list Z)) (w : world) (k : Z -> world -> res (outcome * world)) : res (outcome * world) :=
  if tst states bit then
    match f with Some f => returned (boot_fn f bit argv w) k | None => Ub end
  else k 0 w.

(** The states behind loading: the start function is looked up and called. *)
Definition start_states (argv : list (list Z)) (states : Z) (w : world) : res (outcome * world) :=
  let* f := boot_os (os (img_os (images w))) in
  let need_boot_fn := tst states (BOOTM_STATE_OS_CMDLINE .| BOOTM_STATE_OS_BD_T .| BOOTM_STATE_OS_PREP .| BOOTM_STATE_OS_FAKE_GO .| BOOTM_STATE_OS_GO) in
  if bool_decide (f = None) && need_boot_fn then Ok (Returned 1, w)
  else
    os_state states BOOTM_STATE_OS_CMDLINE f argv w (fun ret w =>
    if negb (ret =? 0) then Ok (Returned ret, w) else
    os_state states BOOTM_STATE_OS_BD_T f argv w (fun ret w =>
    if negb (ret =? 0) then Ok (Returned ret, w) else
    os_state states BOOTM_STATE_OS_PREP f argv w (fun ret w =>
    if negb (ret =? 0) then Ok (Returned ret, w) else
    if tst states BOOTM_STATE_OS_GO then
      match f with
      | Some f => returned (boot_selected_os argv BOOTM_STATE_OS_GO f w) (fun ret w => Ok (fallout ret w))
      | None => Ub
      end
    else Ok (fallout 0 w)))).

(** Loading the kernel and reserving its memory; an overlap with the image is no error. *)
Definition load_state (w : world) : res (Z * world) :=
  let i := images w in
  let '(ret, load_end, m) := bootm_load_os i (mem w) in
  let w := set_mem m w in
  if ret =? 0 then
    let* (_, l) := lmb_reserve (img_lmb i) (load (img_os i)) (u32 (load_end - load (img_os i))) in
    Ok (0, set_images (set_lmb l i) w)
  else if negb (ret =? BOOTM_ERR_OVERLAP) then Ok (ret, w)
  else Ok (0, w).

Definition ramdisk_state (w : world) : res (Z * world) :=
  let i := images w in
  let* (ret, w) := boot_ramdisk_high w (rd_start i) (u32 (rd_end i - rd_start i)) in
  if ret =? 0 then
    let* w := setenv_hex "initrd_start" (initrd_start (images w)) w in
    let* w := setenv_hex "initrd_end" (initrd_end (images w)) w in
    Ok (0, w)
  else Ok (ret, w).

(** [argv] without the words [bootm] and the sub-command; [boot_progress] only changes messages. *)
Definition do_bootm_states (argv : list (list Z)) (states : Z) (w : world) : res (outcome * world) :=
  let w := set_images (set_state (state (images w) .| states) (images w)) w in
  let* (ret, w) := (if tst states BOOTM_STATE_START then bootm_start w else Ok (0, w)) in
  let* (ret, w) := (if (ret =? 0) && tst states BOOTM_STATE_FINDOS then bootm_find_os argv w else Ok (ret, w)) in
  let* (ret, w, argv) := (if (ret =? 0) && tst states BOOTM_STATE_FINDOTHER
                          then let* (ret, w) := bootm_find_other argv w in Ok (ret, w, []) else Ok (ret, w, argv)) in
  let loading := (ret =? 0) && tst states BOOTM_STATE_LOADOS in
  let* (ret, w) := (if loading then load_state w else Ok (ret, w)) in
  if loading && negb (ret =? 0) then Ok (fallout ret w)
  else
    let* (ret, w) := (if (ret =? 0) && tst states BOOTM_STATE_RAMDISK then ramdisk_state w else Ok (ret, w)) in
    if negb (ret =? 0) then Ok (Returned ret, w) else start_states argv states w.

(** ** Commands *)

Definition cmd_bootm_sub : list (list Z * Z) := [
  (cstr "start", BOOTM_STATE_START); (cstr "loados", BOOTM_STATE_LOADOS); (cstr "ramdisk", BOOTM_STATE_RAMDISK);
  (cstr "cmdline", BOOTM_STATE_OS_CMDLINE); (cstr "bdt", BOOTM_STATE_OS_BD_T); (cstr "prep", BOOTM_STATE_OS_PREP);
  (cstr "fake", BOOTM_STATE_OS_FAKE_GO); (cstr "go", BOOTM_STATE_OS_GO) ].

Definition do_bootm_subcommand (sub : list Z) (argv : list (list Z)) (w : world) : res (outcome * world) :=
  match find_cmd_tbl sub cmd_bootm_sub with
  | None => Ok (Returned CMD_RET_USAGE, w)
  | Some st =>
    let st := if st =? BOOTM_STATE_START then st .| (BOOTM_STATE_FINDOS .| BOOTM_STATE_FINDOTHER) else st in
    if negb (st =? BOOTM_STATE_START) && (st <=? state (images w)) then Ok (Returned CMD_RET_USAGE, w)
    else do_bootm_states argv st w
  end.

Definition ALL_STATES : Z :=
  BOOTM_STATE_START .| BOOTM_STATE_FINDOS .| BOOTM_STATE_FINDOTHER .| BOOTM_STATE_LOADOS .| BOOTM_STATE_OS_PREP .| BOOTM_STATE_OS_FAKE_GO .| BOOTM_STATE_OS_GO.

(** [argv] without the word [bootm].  A first word that is not a number, or one with a FIT selector, is a sub-command. *)
Definition do_bootm (argv : list (list Z)) (w : world) : res (outcome * world) :=
  match argv with
  | a :: rest =>
    let endp := snd (simple_strtoul a 16) in
    if negb (cur endp =? 0) && negb (cur endp =? 0x3A) && negb (cur endp =? 0x23) then do_bootm_subcommand a rest w
    else do_bootm_states argv ALL_STATES w
  | [] => do_bootm_states argv ALL_STATES w
  end.

(** After a download: boot what is at [load_addr] if [autostart] is "yes". *)
Definition bootm_maybe_autostart (w : world) : res (outcome * world) :=
  if bool_decide (getenv w "autostart" = Some (cstr "yes")) then do_bootm [] w else Ok (Returned 0, w).
End board.
