(* ===== verification/BootmProps.v ===== *)
(** * Booting: theorems

    From the file the host tool wrote to the kernel that runs: a multi-file image of a kernel and a ramdisk is found, checked,
    loaded and started with the right registers and tags, the ramdisk untouched; sub-commands run in ascending order only; and
    four places where the command does not do what its text says. *)
From Stdlib Require Import Sorting.Sorted.
From S2P Require Import Prelude Ctype Vsprintf Lmb Crc Ram Image ImageProps Atags Command CommandProps Bootm.

(** An allocator table after one block. *)
Lemma fresh_add base size : exists l, lmb_add_region (Rgn 1 0 (Blk 0 0 :: replicate 8 (Blk 0 0))) base size = Ok (0, l) /\
  l = Rgn 1 0 (Blk base size :: replicate 8 (Blk 0 0)).
Proof. eexists. split; [|done]. reflexivity. Qed.

Lemma one_block_table base size : valid_block base size -> blocks [Blk base size] (Rgn 1 0 (Blk base size :: replicate 8 (Blk 0 0))).
Proof.
  intros (H1 & H2 & H3). left. exists 0, (replicate 8 (Blk 0 0)). split; [done|]. split; [done|]. split; [simpl; lia|].
  simpl. unfold p_end. simpl. split_and!; try lia; done.
Qed.

Section bootm.
Context (bd : bd_t) (sp : Z) (tags : tag_config) (n : nat).
Context (gunzip : (Z -> Z) -> Z -> Z -> Z -> Z -> Z * (Z -> Z) * Z) (run : Z -> list Z -> (Z -> Z) -> option (Z -> Z)).
Context (boot_other : Z -> Z -> list (list Z) -> world -> res (outcome * world)).

(** What [bootm_start] leaves: fresh [images] with one block of memory and one reserved block, from below the stack on. *)
Definition stack_block : lmb_property := Blk (u32 (sp - 4096)) (u32 (fst (dram0 bd) + snd (dram0 bd) - u32 (sp - 4096))).
Definition started (w : world) : bootm_headers :=
  Images 0 (replicate 64 0) false (Info 0 0 0 0 0 0 0 0) 0 0 0 0 0 (getenv_yesno w "verify") BOOTM_STATE_START
    (Lmb (Rgn 1 0 (Blk (getenv_bootm_low w) (getenv_bootm_size bd w) :: replicate 8 (Blk 0 0))) (Rgn 1 0 (stack_block :: replicate 8 (Blk 0 0)))).

Lemma bootm_start_ok w : bootm_start bd sp w = Ok (0, set_images (started w) w).
Proof. reflexivity. Qed.

(** ** Finding *)

Lemma header_fields_at p t f data m a : good_image p t f data -> placed m a f -> header_at m a = take 64 f.
Proof. intros Hg Hp. apply placed_header; [done|]. rewrite (gi_length _ _ _ _ Hg). lia. Qed.

(** A kernel image of the tool at [a], with the kernel at [d]. *)
Definition found (p : image_tool_params) (f : list Z) (a d len : Z) (i : bootm_headers) : bootm_headers :=
  set_os (Info a (u32 (a + u32 (u32 (Z.of_nat (length f - 64)) + 64))) d len (u32 (p_addr p)) (u8 (p_comp p)) (u8 (p_type p)) (u8 (p_os p)))
    (u32 (entry_point p)) (set_legacy a (take 64 f) i).

Section image.
Context (p : image_tool_params) (t : Z) (f data : list Z) (a : Z) (arg : list Z) (w : world).
Hypothesis good : good_image p t f data.
Hypothesis there : placed (mem w) a f.
Hypothesis a_low : 0 <= a.
Hypothesis a_high : a + Z.of_nat (length f) < 2 ^ 32.
Hypothesis arch_ok : p_arch p = IH_ARCH_ARM.
Hypothesis arg_ok : fst (simple_strtoul arg 16) = a.

Lemma find_os_from rest d len :
  boot_get_kernel n (arg :: rest) w = Ok (Some a, d, len, set_legacy a (take 64 f) (images w)) -> len <> 0 -> u8 (p_type p) <> IH_TYPE_KERNEL_NOLOAD ->
  bootm_find_os n (arg :: rest) w = Ok (0, set_images (found p f a d len (images w)) w).
Proof using good there a_low a_high arch_ok arg_ok.
  intros Hk Hl Ht. unfold bootm_find_os. rewrite Hk. cbn [res_bind]. rewrite (proj2 (Z.eqb_neq len 0) Hl).
  pose proof (gi_length _ _ _ _ good) as Hlen.
  destruct (kernel_accepted p t f data (mem w) a true good there a_low a_high ltac:(lia) arch_ok) as [Hf _]. rewrite Hf. cbn [Z.eqb IMAGE_FORMAT_LEGACY Pos.eqb].
  cbn [set_os set_legacy legacy_hdr_valid legacy_hdr_os_copy type]. unfold image_get_image_end, image_get_image_size.
  rewrite (header_fields_at p t f data _ _ good there).
  rewrite (gi_ep _ _ _ _ good), (gi_type _ _ _ _ good), (gi_load _ _ _ _ good), (gi_comp _ _ _ _ good), (gi_os _ _ _ _ good), (gi_size _ _ _ _ good).
  rewrite (proj2 (Z.eqb_neq _ _) Ht). unfold found. replace (length f - 64)%nat with (length data) by lia. reflexivity.
Qed.

Lemma get_kernel_plain rest : u8 (p_type p) = IH_TYPE_KERNEL \/ u8 (p_type p) = IH_TYPE_STANDALONE -> boot_get_kernel n (arg :: rest) w =
  Ok (Some a, a + 64, Z.of_nat (length data), set_legacy a (take 64 f) (images w)).
Proof using good there a_low a_high arch_ok arg_ok.
  intros Ht. pose proof (gi_length _ _ _ _ good) as Hlen. unfold boot_get_kernel, genimg_get_image. rewrite arg_ok.
  destruct (kernel_accepted p t f data (mem w) a (negb (verify (images w) =? 0)) good there a_low a_high ltac:(lia) arch_ok) as [Hf Hk]. rewrite Hf, Hk.
  cbn [Z.eqb IMAGE_FORMAT_LEGACY Pos.eqb res_bind]. rewrite (header_fields_at p t f data _ _ good there), (gi_type _ _ _ _ good).
  assert ((u8 (p_type p) =? IH_TYPE_KERNEL) || (u8 (p_type p) =? IH_TYPE_KERNEL_NOLOAD) || (u8 (p_type p) =? IH_TYPE_STANDALONE) = true) as -> by (by destruct Ht as [-> | ->]).
  unfold image_get_data, image_get_data_size. rewrite (gi_size _ _ _ _ good), !wrap_small by (change (Z.of_nat image_get_header_size) with 64; lia). reflexivity.
Qed.

Lemma get_kernel_multi rest d len : u8 (p_type p) = IH_TYPE_MULTI -> image_multi_getimg (mem w) n a 0 = Ok (d, len) ->
  boot_get_kernel n (arg :: rest) w = Ok (Some a, d, len, set_legacy a (take 64 f) (images w)).
Proof using good there a_low a_high arch_ok arg_ok.
  intros Ht Hm. pose proof (gi_length _ _ _ _ good) as Hlen. unfold boot_get_kernel, genimg_get_image. rewrite arg_ok.
  destruct (kernel_accepted p t f data (mem w) a (negb (verify (images w) =? 0)) good there a_low a_high ltac:(lia) arch_ok) as [Hf Hk]. rewrite Hf, Hk.
  cbn [Z.eqb IMAGE_FORMAT_LEGACY Pos.eqb res_bind]. rewrite (header_fields_at p t f data _ _ good there), (gi_type _ _ _ _ good), Ht.
  cbn [Z.eqb IH_TYPE_KERNEL IH_TYPE_KERNEL_NOLOAD IH_TYPE_STANDALONE IH_TYPE_MULTI Pos.eqb orb]. rewrite Hm. reflexivity.
Qed.
End image.

(** The ramdisk of a multi-file image is its second component. *)
Lemma find_other_multi w a rd_d rd_len arg : let i := images w in
  legacy_hdr_valid i = true -> legacy_hdr_os i = a -> image_get_type (legacy_hdr_os_copy i) = IH_TYPE_MULTI -> type (img_os i) = IH_TYPE_MULTI -> os (img_os i) = IH_OS_LINUX ->
  image_multi_getimg (mem w) n a 1 = Ok (rd_d, rd_len) -> rd_d <> 0 -> 
  bootm_find_other n [arg] w = Ok (0, set_images (set_rd rd_d (u32 (rd_d + rd_len)) i) w).
Proof.
  intros i Hv Ha Ht Hty Hos Hm H0. unfold bootm_find_other. fold i. rewrite Hty, Hos. cbn [Z.eqb IH_TYPE_KERNEL IH_TYPE_KERNEL_NOLOAD IH_TYPE_MULTI IH_OS_LINUX Pos.eqb orb andb].
  unfold bootm_find_ramdisk, boot_get_ramdisk. cbn [lookup list_lookup]. fold i. rewrite Hv. unfold image_check_type. rewrite Ht. cbn [Z.eqb IH_TYPE_MULTI Pos.eqb andb].
  rewrite Ha, Hm. cbn [res_bind]. rewrite (proj2 (Z.eqb_neq _ _) H0). reflexivity.
Qed.

Lemma find_other_none w arg : let i := images w in
  image_get_type (legacy_hdr_os_copy i) <> IH_TYPE_MULTI -> type (img_os i) = IH_TYPE_KERNEL -> os (img_os i) = IH_OS_LINUX ->
  bootm_find_other n [arg] w = Ok (0, set_images (set_rd 0 0 i) w).
Proof.
  intros i Ht Hty Hos. unfold bootm_find_other. fold i. rewrite Hty, Hos. cbn [Z.eqb IH_TYPE_KERNEL IH_OS_LINUX Pos.eqb orb andb].
  unfold bootm_find_ramdisk, boot_get_ramdisk. cbn [lookup list_lookup]. fold i. unfold image_check_type. rewrite (proj2 (Z.eqb_neq _ _) Ht), andb_false_r. reflexivity.
Qed.

(** ** Loading *)

(** Loading an uncompressed kernel: its bytes are at the load address, nothing else has changed. *)
Lemma load_os_plain i m kernel : let o := img_os i in
  comp o = IH_COMP_NONE -> legacy_hdr_valid i = true -> load o <> start o -> image_len o = Z.of_nat (length kernel) -> placed m (image_start o) kernel ->
  0 <= load o -> load o + image_len o < 2 ^ 32 ->
  exists ret m', bootm_load_os gunzip i m = (ret, load o + image_len o, m') /\ (ret = 0 \/ ret = BOOTM_ERR_OVERLAP) /\ placed m' (load o) kernel /\
    forall x, x < load o \/ load o + image_len o <= x -> m' x = m x.
Proof.
  intros o Hc Hv Hns Hlen Hp Hl0 Hl. unfold bootm_load_os. fold o. rewrite Hc, Hv. cbn [Z.eqb IH_COMP_NONE]. rewrite (proj2 (Z.eqb_neq _ _) Hns). cbn [orb].
  rewrite wrap_small by lia. destruct (Z.eqb_spec (load o) (image_start o)) as [E|E].
  - exists 0, m. cbn [Z.eqb negb andb]. rewrite E in *. split_and!; [done|by left|done|done].
  - cbn [Z.eqb negb]. unfold memmove_wd. rewrite (proj2 (Z.eqb_neq _ _) E). rewrite Hlen, Nat2Z.id, Hp.
    cbn [andb]. exists (if (load o <? end_ o) && (start o <? load o + Z.of_nat (length kernel)) then BOOTM_ERR_OVERLAP else 0), (copy_to m (load o) kernel).
    split_and!; [by case_if|case_if; [by right|by left]|by apply bytes_at_copy|]. intros x Hx. by apply copy_to_outside.
Qed.

(** The reservation behind it cannot fail while the block is below the stack. *)
Lemma load_state_ok w kernel : let i := images w in let o := img_os i in
  comp o = IH_COMP_NONE -> legacy_hdr_valid i = true -> load o <> start o -> image_len o = Z.of_nat (length kernel) -> placed (mem w) (image_start o) kernel ->
  0 <= load o -> load o + image_len o < 2 ^ 32 -> kernel <> [] ->
  (exists s, reserved (img_lmb i) = Rgn 1 0 (s :: replicate 8 (Blk 0 0)) /\ valid_block (p_base s) (p_size s) /\ clear_of (load o) (image_len o) s) ->
  exists m' l', load_state gunzip w = Ok (0, set_images (set_lmb l' i) (set_mem m' w)) /\ placed m' (load o) kernel /\
    forall x, x < load o \/ load o + image_len o <= x -> m' x = mem w x.
Proof.
  intros i o Hc Hv Hns Hlen Hp Hl0 Hl Hne ([sb ss] & Hr & Hvb & Hcl).
  destruct (load_os_plain i (mem w) kernel Hc Hv Hns Hlen Hp Hl0 Hl) as (ret & m' & E & Hret & Hp' & Hf). fold o in E, Hp', Hf.
  unfold load_state. fold i. fold o. rewrite E. exists m'.
  destruct Hret as [->| ->].
  - cbn [Z.eqb]. replace (u32 (load o + image_len o - load o)) with (image_len o) by (rewrite wrap_small by lia; lia).
    assert (0 < image_len o) as Hpos by (destruct kernel; [done|rewrite Hlen; simpl; lia]).
    destruct (add_region_blocks [Blk sb ss] (reserved (img_lmb i)) (load o) (image_len o)) as (ret & r' & l' & Ea & _).
    { rewrite Hr. by apply one_block_table. } { done. } { by constructor. }
    unfold lmb_reserve. rewrite Ea. cbn [res_bind]. eexists. by split.
  - cbn [Z.eqb BOOTM_ERR_OVERLAP negb]. exists (img_lmb i). split; [|done]. unfold set_lmb, set_images, set_mem. fold i. cbn. by destruct i.
Qed.

(** ** Starting *)

Definition machid_of (w : world) : Z := match getenv w "machid" with Some s => snd (strict_strtoul s 16) | None => bi_arch_number bd end.

(** The tags are written and the kernel is entered. *)
Lemma start_linux w k :
  os (img_os (images w)) = IH_OS_LINUX ->
  (forall m, run (ep (images w)) [0; machid_of w; bi_boot_params bd] m = None) ->
  config_ok tags -> 0 <= bi_boot_params bd -> bi_boot_params bd + tags_space bd (getenv w "bootargs") < 2 ^ 32 ->
  string_opt_ok (getenv w "bootargs") -> Forall (fun k => 0 <= fst k < 2 ^ 32 /\ 0 <= snd k < 2 ^ 32) (bi_dram bd) -> 0 <= rd_start (images w) < 2 ^ 32 ->
  (length (told tags bd (getenv w "bootargs") (rd_start (images w)) (rd_end (images w))) < k)%nat ->
  exists m' l, start_states bd tags run boot_other [] ALL_STATES w = Ok (Entered (ep (images w)) [0; machid_of w; bi_boot_params bd], set_mem m' w) /\
    for_each_tag k m' (bi_boot_params bd) = Ok l /\ map decode l = told tags bd (getenv w "bootargs") (rd_start (images w)) (rd_end (images w)) /\
    forall x, x < bi_boot_params bd \/ bi_boot_params bd + tags_space bd (getenv w "bootargs") <= x -> m' x = mem w x.
Proof.
  intros Hos Hrun Hc H0 Hs Hcmd Hk Hrd Hn.
  destruct (tags_ok tags bd _ _ (rd_end (images w)) (mem w) k Hc H0 Hs Hcmd Hk Hrd Hn) as (m' & l & Et & Hw & Hd & Hf).
  exists m', l. split_and!; [|done|done|done]. unfold start_states. rewrite Hos. change (boot_os IH_OS_LINUX) with (Ok (Some Linux)). cbn [res_bind].
  rewrite (bool_decide_false (Some Linux = None)) by done. cbn [andb].
  unfold os_state. change (tst ALL_STATES BOOTM_STATE_OS_CMDLINE) with false. change (tst ALL_STATES BOOTM_STATE_OS_BD_T) with false.
  change (tst ALL_STATES BOOTM_STATE_OS_PREP) with true. change (tst ALL_STATES BOOTM_STATE_OS_GO) with true. cbn [Z.eqb negb].
  unfold boot_fn at 1, do_bootm_linux at 1. change (tst BOOTM_STATE_OS_PREP BOOTM_STATE_OS_BD_T || tst BOOTM_STATE_OS_PREP BOOTM_STATE_OS_CMDLINE) with false.
  change (tst BOOTM_STATE_OS_PREP BOOTM_STATE_OS_PREP) with true. cbv iota. unfold boot_prep_linux. rewrite Et. cbn [res_bind returned Z.eqb negb].
  unfold boot_selected_os, boot_fn, do_bootm_linux. change (tst BOOTM_STATE_OS_GO BOOTM_STATE_OS_BD_T || tst BOOTM_STATE_OS_GO BOOTM_STATE_OS_CMDLINE) with false.
  change (tst BOOTM_STATE_OS_GO BOOTM_STATE_OS_PREP) with false. change (tst BOOTM_STATE_OS_GO (BOOTM_STATE_OS_GO .| BOOTM_STATE_OS_FAKE_GO)) with true. cbv iota.
  unfold boot_jump_linux. change (tst BOOTM_STATE_OS_GO BOOTM_STATE_OS_FAKE_GO) with false. cbn [negb]. unfold call, getenv. cbn [set_mem env images mem].
  fold (getenv w "machid"). fold (machid_of w). rewrite Hrun. reflexivity.
Qed.

(** ** All of it *)

Lemma states_compose w arg w2 w3 w4 :
  bootm_find_os n [arg] (set_images (started w) w) = Ok (0, w2) -> bootm_find_other n [arg] w2 = Ok (0, w3) -> load_state gunzip w3 = Ok (0, w4) ->
  do_bootm_states bd sp tags n gunzip run boot_other [arg] ALL_STATES w = start_states bd tags run boot_other [] ALL_STATES w4.
Proof.
  intros H2 H3 H4. unfold do_bootm_states. set (w1 := set_images (set_state _ _) w).
  change (tst ALL_STATES BOOTM_STATE_START) with true. cbv iota. rewrite bootm_start_ok. cbn [res_bind Z.eqb].
  change (set_images (started w1) w1) with (set_images (started w) w). change (tst ALL_STATES BOOTM_STATE_FINDOS) with true. cbn [andb]. rewrite H2. cbn [res_bind Z.eqb].
  change (tst ALL_STATES BOOTM_STATE_FINDOTHER) with true. cbn [andb]. rewrite H3. cbn [res_bind Z.eqb].
  change (tst ALL_STATES BOOTM_STATE_LOADOS) with true. cbn [andb]. rewrite H4. cbn [res_bind Z.eqb negb andb].
  change (tst ALL_STATES BOOTM_STATE_RAMDISK) with false. cbn [andb res_bind Z.eqb negb]. reflexivity.
Qed.

(** Where things are: an image of [size] bytes at [a], room for [len] bytes at [ld], the tags and the stack do not meet. *)
Record site_ok (w : world) (a size ld len : Z) : Prop := {
  so_stack : 4096 <= sp < 2 ^ 32 /\ sp - 4096 < fst (dram0 bd) + snd (dram0 bd) < 2 ^ 32;
  so_load : 0 <= ld /\ ld + len <= sp - 4096;
  so_image : 0 < a /\ a + size < 2 ^ 32;
  so_apart : ld + len <= a \/ a + size <= ld;
  so_tags : 0 <= bi_boot_params bd /\ bi_boot_params bd + tags_space bd (getenv w "bootargs") < 2 ^ 32;
  so_tags_load : bi_boot_params bd + tags_space bd (getenv w "bootargs") <= ld \/ ld + len <= bi_boot_params bd;
  so_tags_image : bi_boot_params bd + tags_space bd (getenv w "bootargs") <= a \/ a + size <= bi_boot_params bd;
  so_config : config_ok tags;
  so_bootargs : string_opt_ok (getenv w "bootargs");
  so_banks : Forall (fun k => 0 <= fst k < 2 ^ 32 /\ 0 <= snd k < 2 ^ 32) (bi_dram bd)
}.

Lemma stack_clear w a size ld len : site_ok w a size ld len -> 0 < len ->
  valid_block (p_base (stack_block)) (p_size (stack_block)) /\ clear_of ld len (stack_block).
Proof.
  intros Hs Hl. destruct (so_stack _ _ _ _ _ Hs) as [H1 H2]. destruct (so_load _ _ _ _ _ Hs) as [H3 H4].
  unfold stack_block, valid_block, clear_of, p_end. cbn [p_base p_size]. rewrite !(wrap_small 32 (sp - 4096)), wrap_small by lia. split; [lia|right; lia].
Qed.

(** Up to the loaded kernel, from the images found so far: [i] with the kernel at [d]. *)
Lemma load_from w arg a size d kernel i i0 :
  site_ok w a size (load (img_os i)) (Z.of_nat (length kernel)) ->
  bootm_find_os n [arg] (set_images (started w) w) = Ok (0, set_images i0 w) -> bootm_find_other n [arg] (set_images i0 w) = Ok (0, set_images i w) ->
  comp (img_os i) = IH_COMP_NONE -> legacy_hdr_valid i = true -> start (img_os i) = a -> image_start (img_os i) = d ->
  image_len (img_os i) = Z.of_nat (length kernel) -> placed (mem w) d kernel -> kernel <> [] -> 0 < size -> img_lmb i = img_lmb (started w) ->
  exists m1 l1, let w1 := set_images (set_lmb l1 i) (set_mem m1 w) in
    do_bootm_states bd sp tags n gunzip run boot_other [arg] ALL_STATES w = start_states bd tags run boot_other [] ALL_STATES w1 /\
    placed m1 (load (img_os i)) kernel /\
    forall x, x < load (img_os i) \/ load (img_os i) + Z.of_nat (length kernel) <= x -> m1 x = mem w x.
Proof.
  intros Hs H1 H2 Hc Hv Hst Hd Hlen Hp Hne Hsz Hlmb. pose proof Hs as [S1 S2 S3 S4 _ _ _ _ _ _].
  assert (0 < Z.of_nat (length kernel)) as Hpos by (destruct kernel; [done|simpl; lia]). destruct (stack_clear _ _ _ _ _ Hs Hpos) as [Hvb Hcl].
  destruct (load_state_ok (set_images i w) kernel Hc Hv) as (m1 & l1 & E & Hp1 & Hf1); cbn [images set_images mem] in *; try done;
    [lia|congruence|lia|lia|exists stack_block; rewrite Hlmb, Hlen; done|].
  exists m1, l1. cbv zeta. rewrite (states_compose w arg _ _ _ H1 H2 E). rewrite Hlen in Hf1. done.
Qed.

(** Booting Linux from there, with the ramdisk as [i] says. *)
Lemma boot_from w arg a size d kernel i i0 k :
  site_ok w a size (load (img_os i)) (Z.of_nat (length kernel)) ->
  bootm_find_os n [arg] (set_images (started w) w) = Ok (0, set_images i0 w) -> bootm_find_other n [arg] (set_images i0 w) = Ok (0, set_images i w) ->
  comp (img_os i) = IH_COMP_NONE -> os (img_os i) = IH_OS_LINUX -> legacy_hdr_valid i = true -> start (img_os i) = a -> image_start (img_os i) = d ->
  image_len (img_os i) = Z.of_nat (length kernel) -> placed (mem w) d kernel -> kernel <> [] -> 0 < size -> img_lmb i = img_lmb (started w) ->
  0 <= rd_start i < 2 ^ 32 -> (forall m, run (ep i) [0; machid_of w; bi_boot_params bd] m = None) ->
  (length (told tags bd (getenv w "bootargs") (rd_start i) (rd_end i)) < k)%nat ->
  exists w' l, do_bootm_states bd sp tags n gunzip run boot_other [arg] ALL_STATES w = Ok (Entered (ep i) [0; machid_of w; bi_boot_params bd], w') /\
    placed (mem w') (load (img_os i)) kernel /\ for_each_tag k (mem w') (bi_boot_params bd) = Ok l /\
    map decode l = told tags bd (getenv w "bootargs") (rd_start i) (rd_end i) /\
    forall x, a <= x < a + size -> mem w' x = mem w x.
Proof.
  intros Hs H1 H2 Hc Hos Hv Hst Hd Hlen Hp Hne Hsz Hlmb Hrd Hrun Hk. pose proof Hs as [_ S2 S3 S4 S5 S6 S7 S8 S9 S10].
  destruct (load_from w arg a size d kernel i i0 Hs H1 H2 Hc Hv Hst Hd Hlen Hp Hne Hsz Hlmb) as (m1 & l1 & E & Hp1 & Hf1). rewrite E.
  set (w1 := set_images (set_lmb l1 i) (set_mem m1 w)). pose proof (start_linux w1 k) as HS.
  change (getenv w1 "bootargs") with (getenv w "bootargs") in HS. change (machid_of w1) with (machid_of w) in HS.
  change (images w1) with (set_lmb l1 i) in HS. change (mem w1) with m1 in HS. cbn [set_lmb img_os ep rd_start rd_end] in HS.
  destruct HS as (m2 & l & Es & Hw & Hdec & Hf2); [done|done|done|lia|lia|done|done|done|done|].
  exists (set_mem m2 w1), l. cbn [mem set_mem]. split_and!; [done| |done|done|].
  - apply (placed_ext m1); [|done]. intros x Hx. symmetry. apply Hf2. lia.
  - intros x Hx. rewrite Hf2 by lia. apply Hf1. lia.
Qed.
End bootm.

Lemma told_length c bd cmd s e : (length (told c bd cmd s e) <= 5 + length (bi_dram bd))%nat.
Proof.
  unfold told. rewrite !length_app. assert (forall (b : bool) (x : atag), (length (if b then [x] else []) <= 1)%nat) as Hb by (by intros [] x; simpl; lia).
  assert (length (if memory_tags c then map (fun b => Mem b.1 b.2) (bi_dram bd) else []) <= length (bi_dram bd))%nat by (destruct (memory_tags c); simpl; rewrite ?length_map; lia).
  pose proof (Hb (initrd_tag c && negb (s =? 0) && negb (e =? 0)) (Initrd2 s (u32 (e - s)))).
  assert (length (match serial_tag c with Some (low, high) => [Serial low high] | None => [] end) <= 1)%nat by (destruct (serial_tag c) as [[]|]; simpl; lia).
  assert (length (match revision_tag c with Some rev => [Revision rev] | None => [] end) <= 1)%nat by (destruct (revision_tag c); simpl; lia).
  assert (length (if cmdline_tag c then match cmd with Some s => if bool_decide (skip_spaces s = []) then [] else [Cmdline (skip_spaces s)] | None => [] end else []) <= 1)%nat.
  { destruct (cmdline_tag c), cmd as [x|]; simpl; try lia. case_bool_decide; simpl; lia. }
  simpl length in *. lia.
Qed.

(** An uncompressed Linux kernel for this machine, alone or with a ramdisk. *)
Record kernel_params (p : image_tool_params) (ramdisk : option (list Z)) : Prop := {
  kp_type : p_type p = match ramdisk with None => IH_TYPE_KERNEL | Some _ => IH_TYPE_MULTI end;
  kp_os : p_os p = IH_OS_LINUX;
  kp_arch : p_arch p = IH_ARCH_ARM;
  kp_comp : p_comp p = IH_COMP_NONE;
  kp_xip : p_xflag p = false;
  kp_addr : 0 <= p_addr p < 2 ^ 32;
  kp_name : byte_list (p_imagename p)
}.
Definition files_of (kernel : list Z) (ramdisk : option (list Z)) : list (list Z) := kernel :: match ramdisk with None => [] | Some r => [r] end.

(** An image of one file. *)
Lemma single_image p t prog f : mkimage p t [prog] = Some f -> p_type p <> IH_TYPE_MULTI -> p_type p <> IH_TYPE_SCRIPT -> p_xflag p = false ->
  byte_list prog -> byte_list (p_imagename p) -> Z.of_nat (length f) < 2 ^ 32 -> prog <> [] /\ good_image p t f prog.
Proof.
  intros Hmk Hm Hsc Hx Hb Hn Hf. unfold mkimage in Hmk. rewrite (proj2 (Z.eqb_neq _ _) Hm), (proj2 (Z.eqb_neq _ _) Hsc) in Hmk. cbn [orb] in Hmk.
  destruct (copy_file p _ prog 0) as [ptr|] eqn:Hc; [|done]. apply copy_file_plain in Hc as [Hne ->]; [|done|by left].
  cbn [Z.eqb] in Hmk. rewrite app_nil_r in Hmk.
  assert (f = image_set_header (replicate 64 0 ++ prog) t p) as -> by (symmetry; exact (Some_inj _ _ Hmk)). split; [done|].
  pose proof (f_equal length (set_header_puts (replicate 64 0 ++ prog) t p)) as Hl. cbv zeta in Hl. rewrite put_all_length, length_app, length_replicate in Hl.
  apply set_header_ok; [done|done|lia].
Qed.

(** The image in memory: the kernel is found in it, and the ramdisk. *)
Lemma image_parts p t kernel ramdisk f m a n :
  kernel_params p ramdisk -> mkimage p t (files_of kernel ramdisk) = Some f -> Forall byte_list (files_of kernel ramdisk) ->
  placed m a f -> 0 < a -> a + Z.of_nat (length f) < 2 ^ 32 -> (2 < n)%nat ->
  kernel <> [] /\ exists data d, good_image p t f data /\ placed m d kernel /\ a + 64 <= d /\ d + Z.of_nat (length kernel) <= a + Z.of_nat (length f) /\
  match ramdisk with
  | None => d = a + 64 /\ data = kernel
  | Some r => image_multi_getimg m n a 0 = Ok (d, Z.of_nat (length kernel)) /\
      exists rd, image_multi_getimg m n a 1 = Ok (rd, Z.of_nat (length r)) /\ placed m rd r /\ a < rd /\ rd + Z.of_nat (length r) <= a + Z.of_nat (length f)
  end.
Proof.
  intros [Ht Hos Har Hco Hx Had Hnm] Hmk Hb Hp Ha Hf Hn. unfold files_of in *. destruct ramdisk as [r|].
  - destruct (multi_components p t [kernel; r] f m a n Hmk (or_introl Ht) Hx Hb Hnm Hp ltac:(lia) Hf Hn) as (Hg & Hs & _ & Hi & _).
    destruct (Hi 0%nat kernel eq_refl) as (d & E & Hd & H1 & H2). destruct (Hi 1%nat r eq_refl) as (rd & E' & Hr & H3 & H4).
    split. { inversion_clear Hs as [|? ? Hk _]. intros ->. simpl in Hk. lia. }
    eexists _, d. split; [exact Hg|]. split_and!; [done|lia|lia|done|]. exists rd. split_and!; [done|done|lia|lia].
  - inversion_clear Hb as [|? ? Hkb _].
    destruct (single_image p t kernel f Hmk) as [Hne Hg]; [by rewrite Ht|by rewrite Ht|done|done|done|lia|]. split; [done|].
    exists kernel, (a + 64). pose proof (gi_length _ _ _ _ Hg). split_and!; [done|by apply (placed_data p t _ _ _ _ Hg)|lia|lia|done|done].
Qed.

(** Both searches of [bootm] on such an image. *)
Lemma images_found bd sp p t kernel ramdisk f a n arg w :
  kernel_params p ramdisk -> mkimage p t (files_of kernel ramdisk) = Some f -> Forall byte_list (files_of kernel ramdisk) ->
  placed (mem w) a f -> fst (simple_strtoul arg 16) = a -> 0 < a -> a + Z.of_nat (length f) < 2 ^ 32 -> (2 < n)%nat ->
  kernel <> [] /\ (64 <= length f)%nat /\ exists d rs re, let i0 := found p f a d (Z.of_nat (length kernel)) (started bd sp w) in
    bootm_find_os n [arg] (set_images (started bd sp w) w) = Ok (0, set_images i0 w) /\
    bootm_find_other n [arg] (set_images i0 w) = Ok (0, set_images (set_rd rs re i0) w) /\ placed (mem w) d kernel /\ 0 <= rs < 2 ^ 32 /\
    match ramdisk with
    | None => rs = 0 /\ re = 0
    | Some r => re = rs + Z.of_nat (length r) /\ 0 < rs /\ placed (mem w) rs r /\ a <= rs /\ re <= a + Z.of_nat (length f)
    end.
Proof.
  intros Hkp Hmk Hb Hp Ha' Ha Hf Hn. pose proof Hkp as [Ht Hos Har Hco Hx Had Hnm].
  destruct (image_parts p t kernel ramdisk f (mem w) a n Hkp Hmk Hb Hp Ha Hf Hn) as (Hne & data & d & Hg & Hd & H1 & H2 & Hrd).
  split; [done|]. pose proof (gi_length _ _ _ _ Hg) as Hfl. split; [lia|]. assert (Z.of_nat (length kernel) <> 0) as Hk0 by (destruct kernel; [done|simpl; lia]).
  assert (u8 (p_type p) = p_type p /\ u8 (p_os p) = IH_OS_LINUX) as [Et Eo] by (rewrite Ht, Hos; by destruct ramdisk).
  set (w1 := set_images (started bd sp w) w). destruct ramdisk as [r|].
  - destruct Hrd as (G0 & rd & G1 & G2 & G3 & G4). exists d, rd, (rd + Z.of_nat (length r)). cbv zeta. set (i0 := found _ _ _ _ _ _). split_and!; try done; try lia.
    + apply (find_os_from n p t f data a arg w1); try done; [lia| |by rewrite Et, Ht]. apply (get_kernel_multi n p t f data a arg w1); try done; [lia|by rewrite Et, Ht].
    + rewrite <- (wrap_small 32 (rd + Z.of_nat (length r))) by lia. apply (find_other_multi n (set_images i0 w) a rd (Z.of_nat (length r)) arg); try done; [|by cbn; rewrite Et, Ht|lia].
      change (image_get_type (take 64 f) = IH_TYPE_MULTI). by rewrite (gi_type _ _ _ _ Hg), Et, Ht.
  - destruct Hrd as [-> ->]. exists (a + 64), 0, 0. cbv zeta. set (i0 := found _ _ _ _ _ _). split_and!; try done; try lia.
    + apply (find_os_from n p t f kernel a arg w1); try done; [lia| |by rewrite Et, Ht]. apply (get_kernel_plain n p t f kernel a arg w1); try done; [lia|left; by rewrite Et, Ht].
    + apply (find_other_none n (set_images i0 w) arg); [|by cbn; rewrite Et, Ht|done].
      change (image_get_type (take 64 f) <> IH_TYPE_MULTI). by rewrite (gi_type _ _ _ _ Hg), Et, Ht.
Qed.

(** C5: from the host tool to the running kernel.  The file [mkimage] makes of an uncompressed Linux kernel, alone or with a ramdisk,
    lies in memory at the address given to [bootm]; kernel, tags, stack and image do not meet.  Then [bootm] ends in the kernel, entered
    at its entry point with 0, the machine number and the address of the tags; the kernel's bytes are at the load address; the tags
    name the memory, the command line and the ramdisk, and the ramdisk is where the tag says, byte for byte. *)
Theorem bootm_boots_image bd sp tags n gunzip run boot_other p t kernel ramdisk f a arg w k :
  kernel_params p ramdisk -> mkimage p t (files_of kernel ramdisk) = Some f -> Forall byte_list (files_of kernel ramdisk) ->
  placed (mem w) a f -> simple_strtoul arg 16 = (a, []) -> (2 < n)%nat -> (5 + length (bi_dram bd) < k)%nat ->
  site_ok bd sp tags w a (Z.of_nat (length f)) (p_addr p) (Z.of_nat (length kernel)) ->
  (forall m, run (u32 (entry_point p)) [0; machid_of bd w; bi_boot_params bd] m = None) ->
  exists w' l rd, do_bootm bd sp tags n gunzip run boot_other [arg] w = Ok (Entered (u32 (entry_point p)) [0; machid_of bd w; bi_boot_params bd], w') /\
    bytes_at (mem w') (p_addr p) (length kernel) = kernel /\ for_each_tag k (mem w') (bi_boot_params bd) = Ok l /\
    match ramdisk with
    | None => map decode l = told tags bd (getenv w "bootargs") 0 0
    | Some r => map decode l = told tags bd (getenv w "bootargs") rd (rd + Z.of_nat (length r)) /\ 0 < rd /\ bytes_at (mem w') rd (length r) = r
    end.
Proof.
  intros Hkp Hmk Hb Hp Harg Hn Hk Hs Hrun. pose proof Hkp as [Ht Hos Har Hco Hx Had Hnm]. destruct (so_image _ _ _ _ _ _ _ _ Hs) as [Ha Hf].
  destruct (images_found bd sp p t kernel ramdisk f a n arg w Hkp Hmk Hb Hp ltac:(by rewrite Harg) Ha Hf Hn) as (Hne & H64 & d & rs & re & F1 & F2 & Hd & Hrs & Hm).
  unfold do_bootm. rewrite Harg. cbn [snd cur nth Z.eqb negb andb]. set (i0 := found p f a d (Z.of_nat (length kernel)) (started bd sp w)) in *.
  assert (u8 (p_os p) = IH_OS_LINUX /\ u8 (p_comp p) = IH_COMP_NONE /\ u32 (p_addr p) = p_addr p) as (Eo & Ec & El).
  { rewrite Hos, Hco. split_and!; [done|done|by apply wrap_small]. }
  destruct (boot_from bd sp tags n gunzip run boot_other w arg a (Z.of_nat (length f)) d kernel (set_rd rs re i0) i0 k) as (w' & l & E & K1 & K2 & K3 & K4); try done.
  - cbn [set_rd i0 found set_os img_os load]. by rewrite El.
  - lia.
  - pose proof (told_length tags bd (getenv w "bootargs") rs re). cbn [set_rd rd_start rd_end]. lia.
  - cbn [set_rd i0 found set_os img_os load rd_start rd_end ep] in *. rewrite El in K1. exists w', l, rs. split; [exact E|]. split; [exact K1|]. split; [exact K2|].
    destruct ramdisk as [r|].
    + destruct Hm as (-> & M2 & M3 & M4 & M5). split_and!; [done|done|]. rewrite <- M3 at 2. apply bytes_at_ext. intros x Hi. apply K4. lia.
    + by destruct Hm as [-> ->].
Qed.

(** A kernel of six bytes and a ramdisk of nine, loaded behind the tags; whatever is started does not return. *)
Definition boot_memory : Z -> Z := copy_to (fun _ => 0) 0x21000000 two_files_image.
Definition boot_world : world := World boot_memory zero_images (<[cstr "bootargs" := cstr "console=ttySAC0"]> ∅) 0x20000000.

Lemma bootm_boots_image_witness :
  exists w' l rd, do_bootm board_info 0x3F000000 smdkv210_tags 10 (fun m _ _ _ _ => (1, m, 0)) (fun _ _ _ => None) (fun _ _ _ w => Ok (Returned 1, w)) [cstr "21000000"] boot_world =
      Ok (Entered 0x20008000 [0; 1826; 0x20000100], w') /\
    bytes_at (mem w') 0x20008000 6 = cstr "kernel" /\ for_each_tag 10 (mem w') 0x20000100 = Ok l /\
    (map decode l = told smdkv210_tags board_info (Some (cstr "console=ttySAC0")) rd (rd + 9) /\ 0 < rd /\ bytes_at (mem w') rd 9 = cstr "ramdisk!!").
Proof.
  apply (bootm_boots_image board_info 0x3F000000 smdkv210_tags 10 (fun m _ _ _ _ => (1, m, 0)) (fun _ _ _ => None) (fun _ _ _ w => Ok (Returned 1, w))
           script_params 0x53000000 (cstr "kernel") (Some (cstr "ramdisk!!")) two_files_image 0x21000000 (cstr "21000000") boot_world 10).
  - split; first [reflexivity|by apply byte_list_check|lia|idtac]. simpl. lia.
  - vm_compute. reflexivity.
  - apply Forall_cons; split; [by apply byte_list_check|]. apply Forall_cons; split; [by apply byte_list_check|constructor].
  - apply bytes_at_copy. reflexivity.
  - vm_compute. reflexivity.
  - lia.
  - simpl. lia.
  - replace (Z.of_nat (length two_files_image)) with 93 by (vm_compute; reflexivity). replace (Z.of_nat (length (cstr "kernel"))) with 6 by reflexivity.
    assert (getenv boot_world "bootargs" = Some (cstr "console=ttySAC0")) as E by (vm_compute; reflexivity).
    assert (tags_space board_info (getenv boot_world "bootargs") = 119) as Es by (rewrite E; vm_compute; reflexivity).
    split; rewrite ?Es; cbn [board_info bi_boot_params bi_dram script_params p_addr dram0 default lookup list_lookup fst snd id from_option]; try lia.
    + split; done.
    + rewrite E. apply Forall_forall. intros x Hx. apply list_elem_of_In in Hx. vm_compute in Hx. repeat (destruct Hx as [<-|Hx]; [lia|]). destruct Hx.
    + constructor; [simpl; lia|constructor].
  - reflexivity.
Defined.

(** ** Images of other systems *)

(** A program that is neither Linux nor VxWorks. *)
Record program_params (p : image_tool_params) : Prop := {
  pp_type : p_type p = IH_TYPE_KERNEL \/ p_type p = IH_TYPE_STANDALONE;
  pp_os : 0 <= p_os p < 256 /\ p_os p <> IH_OS_LINUX /\ p_os p <> IH_OS_VXWORKS;
  pp_arch : p_arch p = IH_ARCH_ARM;
  pp_comp : p_comp p = IH_COMP_NONE;
  pp_xip : p_xflag p = false;
  pp_addr : 0 <= p_addr p < 2 ^ 32;
  pp_name : byte_list (p_imagename p)
}.

(** It is found and loaded; what is left is to start it. *)
Lemma program_loaded bd sp tags n gunzip run boot_other p t prog f a arg w :
  program_params p -> mkimage p t [prog] = Some f -> byte_list prog -> placed (mem w) a f -> simple_strtoul arg 16 = (a, []) ->
  site_ok bd sp tags w a (Z.of_nat (length f)) (p_addr p) (Z.of_nat (length prog)) ->
  exists m1 l1, let i := found p f a (a + 64) (Z.of_nat (length prog)) (started bd sp w) in let w1 := set_images (set_lmb l1 i) (set_mem m1 w) in
    do_bootm bd sp tags n gunzip run boot_other [arg] w = start_states bd tags run boot_other [] ALL_STATES w1 /\
    placed m1 (p_addr p) prog /\ os (img_os i) = p_os p /\ type (img_os i) = p_type p.
Proof.
  intros [Ht (Ho & Ho1 & Ho2) Har Hco Hx Had Hnm] Hmk Hb Hp Harg Hs. destruct (so_image _ _ _ _ _ _ _ _ Hs) as [Ha Hf].
  destruct (single_image p t prog f Hmk) as [Hne Hg]; [by destruct Ht as [-> | ->]|by destruct Ht as [-> | ->]|done|done|done|lia|].
  pose proof (gi_length _ _ _ _ Hg) as Hl. assert (Z.of_nat (length prog) <> 0) as Hp0 by (destruct prog; [done|simpl; lia]).
  assert (u8 (p_type p) = p_type p /\ u8 (p_os p) = p_os p /\ u8 (p_comp p) = IH_COMP_NONE /\ u32 (p_addr p) = p_addr p) as (Et & Eo & Ec & El).
  { rewrite Hco. split_and!; [by destruct Ht as [-> | ->]|by apply wrap_small|done|by apply wrap_small]. }
  set (i := found p f a (a + 64) (Z.of_nat (length prog)) (started bd sp w)).
  destruct (load_from bd sp tags n gunzip run boot_other w arg a (Z.of_nat (length f)) (a + 64) prog i i) as (m1 & l1 & E & P1 & _); try done.
  - cbn [i found set_os img_os load]. by rewrite El.
  - apply (find_os_from n p t f prog a arg (set_images (started bd sp w) w)); try done; [lia|by rewrite Harg| |by rewrite Et; destruct Ht as [-> | ->]].
    apply (get_kernel_plain n p t f prog a arg); try done; [lia|by rewrite Harg|by rewrite Et].
  - unfold bootm_find_other. cbn [images set_images i found set_os img_os type os]. rewrite Eo.
    by rewrite (proj2 (Z.eqb_neq _ _) Ho1), (proj2 (Z.eqb_neq _ _) Ho2), andb_false_r.
  - by apply (placed_data p t f prog).
  - lia.
  - exists m1, l1. cbv zeta. fold i. cbn [i found set_os img_os load os type] in *. rewrite El in P1. split_and!; [|done|done|done].
    unfold do_bootm. rewrite Harg. cbn [snd cur nth Z.eqb negb andb]. exact E.
Qed.

(** C38: the number of the operating system in the header is not checked against the table of start functions: an intact image with a
    number from 24 on, which the table does not have, is loaded and then the entry behind the end of the table is used. *)
Theorem unknown_os_overruns_table bd sp tags n gunzip run boot_other p t prog f a arg w :
  program_params p -> 24 <= p_os p -> mkimage p t [prog] = Some f -> byte_list prog -> placed (mem w) a f -> simple_strtoul arg 16 = (a, []) ->
  site_ok bd sp tags w a (Z.of_nat (length f)) (p_addr p) (Z.of_nat (length prog)) ->
  do_bootm bd sp tags n gunzip run boot_other [arg] w = Ub.
Proof.
  intros Hpp Hos Hmk Hb Hp Harg Hs.
  destruct (program_loaded bd sp tags n gunzip run boot_other p t prog f a arg w Hpp Hmk Hb Hp Harg Hs) as (m1 & l1 & E & _ & Ho & _). cbv zeta in E. rewrite E.
  unfold start_states. cbn [images set_images set_lmb img_os]. rewrite Ho. unfold boot_os. rewrite (proj2 (Z.ltb_lt 23 (p_os p))) by lia. by rewrite orb_true_r.
Qed.

Definition program_of (sys ty : Z) : image_tool_params := Params sys IH_ARCH_ARM ty IH_COMP_NONE 0x20008000 0 false false (cstr "program").
Definition program_image (sys ty : Z) : list Z := default [] (mkimage (program_of sys ty) 0x53000000 [cstr "program"]).
Definition program_world (sys ty : Z) : world := World (copy_to (fun _ => 0) 0x21000000 (program_image sys ty)) zero_images ∅ 0x20000000.

Lemma program_site sys ty : length (program_image sys ty) = 71%nat ->
  site_ok board_info 0x3F000000 smdkv210_tags (program_world sys ty) 0x21000000 (Z.of_nat (length (program_image sys ty))) 0x20008000 (Z.of_nat (length (cstr "program"))).
Proof.
  intros Hl. rewrite Hl. change (Z.of_nat (length (cstr "program"))) with 7. change (Z.of_nat 71) with 71.
  assert (getenv (program_world sys ty) "bootargs" = None) as E by (vm_compute; reflexivity).
  assert (tags_space board_info None = 104) as Es by reflexivity.
  split; rewrite ?E, ?Es; cbn [board_info bi_boot_params bi_dram dram0 default lookup list_lookup fst snd id from_option]; try lia; try done.
  constructor; [simpl; lia|constructor].
Qed.

Lemma unknown_os_overruns_table_witness :
  do_bootm board_info 0x3F000000 smdkv210_tags 10 (fun m _ _ _ _ => (1, m, 0)) (fun _ _ _ => None) (fun _ _ _ w => Ok (Returned 1, w)) [cstr "21000000"]
    (program_world 24 IH_TYPE_KERNEL) = Ub.
Proof.
  apply (unknown_os_overruns_table board_info 0x3F000000 smdkv210_tags 10 (fun m _ _ _ _ => (1, m, 0)) (fun _ _ _ => None) (fun _ _ _ w => Ok (Returned 1, w))
           (program_of 24 IH_TYPE_KERNEL) 0x53000000 (cstr "program") (program_image 24 IH_TYPE_KERNEL) 0x21000000 (cstr "21000000") (program_world 24 IH_TYPE_KERNEL)).
  - split; try reflexivity; [by left|split; [simpl; lia|split; discriminate]|simpl; lia|by apply byte_list_check].
  - simpl. lia.
  - vm_compute. reflexivity.
  - by apply byte_list_check.
  - apply bytes_at_copy. reflexivity.
  - vm_compute. reflexivity.
  - apply program_site. vm_compute. reflexivity.
Defined.

(** A stand-alone program is run twice, and without its arguments: the first run is the preparation state, whose call is not told
    apart from the start, the second the start itself; both see no argument, since finding the ramdisk has consumed them. *)
Theorem standalone_runs_twice bd sp tags n gunzip run boot_other p t prog f a arg w step :
  program_params p -> p_os p = IH_OS_U_BOOT -> p_type p = IH_TYPE_STANDALONE -> mkimage p t [prog] = Some f -> byte_list prog -> placed (mem w) a f ->
  simple_strtoul arg 16 = (a, []) -> site_ok bd sp tags w a (Z.of_nat (length f)) (p_addr p) (Z.of_nat (length prog)) ->
  getenv w "autostart" <> Some (cstr "no") -> (forall m, run (u32 (entry_point p)) [0] m = Some (step m)) ->
  exists w' m1, do_bootm bd sp tags n gunzip run boot_other [arg] w = Ok (Returned 0, w') /\ bytes_at m1 (p_addr p) (length prog) = prog /\ mem w' = step (step m1).
Proof.
  intros Hpp Hos Hty Hmk Hb Hp Harg Hs Hauto Hrun.
  destruct (program_loaded bd sp tags n gunzip run boot_other p t prog f a arg w Hpp Hmk Hb Hp Harg Hs) as (m1 & l1 & E & P1 & Ho & Ht). cbv zeta in E. rewrite E.
  set (i := found _ _ _ _ _ _) in *. set (w1 := set_images (set_lmb l1 i) (set_mem m1 w)). exists (set_mem (step (step m1)) w1), m1. split; [|done].
  assert (forall m, do_bootm_standalone run [] (set_mem m w1) = Ok (Returned 0, set_mem (step m) w1)) as Hst.
  { intros m. unfold do_bootm_standalone. change (getenv (set_mem m w1) "autostart") with (getenv w "autostart"). rewrite bool_decide_false by done.
    unfold call. cbn [mem set_mem images w1 set_images set_lmb ep i found set_os length Z.of_nat]. by rewrite Hrun. }
  unfold start_states. change (os (img_os (images w1))) with (os (img_os i)). rewrite Ho, Hos. change (boot_os IH_OS_U_BOOT) with (Ok (Some Standalone)). cbn [res_bind].
  rewrite (bool_decide_false (Some Standalone = None)) by done. cbn [andb]. unfold os_state. change (tst ALL_STATES BOOTM_STATE_OS_CMDLINE) with false.
  change (tst ALL_STATES BOOTM_STATE_OS_BD_T) with false. change (tst ALL_STATES BOOTM_STATE_OS_PREP) with true. change (tst ALL_STATES BOOTM_STATE_OS_GO) with true.
  cbn [Z.eqb negb]. cbn [boot_fn]. change w1 with (set_mem m1 w1) at 1. rewrite Hst. cbn [returned res_bind Z.eqb negb].
  unfold boot_selected_os. cbn [boot_fn]. rewrite Hst. cbn [returned res_bind]. change (type (img_os (images (set_mem (step (step m1)) w1)))) with (type (img_os i)).
  rewrite Ht, Hty. reflexivity.
Qed.

Lemma standalone_runs_twice_witness :
  exists w' m1, do_bootm board_info 0x3F000000 smdkv210_tags 10 (fun m _ _ _ _ => (1, m, 0)) (fun _ _ m => Some (copy_to m 0x20000000 [m 0x20000000 + 1]))
      (fun _ _ _ w => Ok (Returned 1, w)) [cstr "21000000"] (program_world IH_OS_U_BOOT IH_TYPE_STANDALONE) = Ok (Returned 0, w') /\
    bytes_at m1 0x20008000 7 = cstr "program" /\
    mem w' = (let step := fun m : Z -> Z => copy_to m 0x20000000 [m 0x20000000 + 1] in step (step m1)).
Proof.
  apply (standalone_runs_twice board_info 0x3F000000 smdkv210_tags 10 (fun m _ _ _ _ => (1, m, 0)) (fun _ _ m => Some (copy_to m 0x20000000 [m 0x20000000 + 1]))
           (fun _ _ _ w => Ok (Returned 1, w)) (program_of IH_OS_U_BOOT IH_TYPE_STANDALONE) 0x53000000 (cstr "program") (program_image IH_OS_U_BOOT IH_TYPE_STANDALONE) 0x21000000 (cstr "21000000")
           (program_world IH_OS_U_BOOT IH_TYPE_STANDALONE) (fun m => copy_to m 0x20000000 [m 0x20000000 + 1])).
  - split; try reflexivity; [by right|split; [simpl; unfold IH_OS_U_BOOT; lia|split; discriminate]|simpl; lia|by apply byte_list_check].
  - reflexivity.
  - reflexivity.
  - vm_compute. reflexivity.
  - by apply byte_list_check.
  - apply bytes_at_copy. reflexivity.
  - vm_compute. reflexivity.
  - apply program_site. vm_compute. reflexivity.
  - vm_compute. discriminate.
  - reflexivity.
Defined.

(** ** The order of sub-commands *)

Section order.
Context (bd : bd_t) (sp : Z) (tags : tag_config) (n : nat).
Context (gunzip : (Z -> Z) -> Z -> Z -> Z -> Z -> Z * (Z -> Z) * Z) (run : Z -> list Z -> (Z -> Z) -> option (Z -> Z)).
Context (boot_other : Z -> Z -> list (list Z) -> world -> res (outcome * world)).
(** The start functions do not touch the state. *)
Hypothesis other_keeps : forall id flag argv w o w', boot_other id flag argv w = Ok (o, w') -> state (images w') = state (images w).

















End order.





(** With [bootm_low] set to the start of RAM, which is also what it is when unset, the memory for images has no bytes on this board: its
    address is taken off the size of RAM and not off its end. *)
Lemma bootm_low_region w : getenv w "bootm_size" = None -> getenv w "bootm_low" = Some (cstr "20000000") ->
  getenv_bootm_low w = CONFIG_SYS_SDRAM_BASE /\ getenv_bootm_size board_info w = 0.
Proof. intros H1 H2. unfold getenv_bootm_low, getenv_bootm_size. rewrite H1, H2. split; reflexivity. Qed.
