(* ===== verification/Readline.v ===== *)
(** * The command line ([common/main.c])

    Reading a line: the editor with its history, and the simple reader used before the relocation to RAM.  What is
    printed is kept as the list of the characters given to [putc].  The input is a list of what the console shows at
    each look at it: a character, or none, with the value of the tick counter then. *)
From S2P Require Import Prelude Ctype Env Command.

Inductive event := Key (c : Z) | Idle (t : Z).

Definition CTL_CH (c : Z) : Z := c - 0x61 + 1.
Definition CTL_BACKSPACE : Z := 8.
Definition DEL : Z := 255.
Definition DEL7 : Z := 127.
Definition CREAD_HIST_CHAR : Z := 0x21.
Definition HIST_MAX : Z := 20.
Definition HIST_SIZE : Z := CONFIG_SYS_CBSIZE.
Definition ESC : Z := 0x1b.
Definition blank : Z := 0x20.
Definition TAB : Z := 9.
Definition CR : Z := 13.

(** ** The history *)

(** The lines are the strings in [hist_lines]; each has room for [HIST_SIZE] bytes and the NUL. *)
Record history := {
  hist_max : Z;
  hist_add_idx : Z;
  hist_cur : Z;
  hist_num : Z;
  hist_list : list (list Z)
}.

Definition hist_init : history :=
  {| hist_max := 0; hist_add_idx := 0; hist_cur := -1; hist_num := 0; hist_list := replicate (Z.to_nat HIST_MAX) [] |}.

Definition hist_line (h : history) (i : Z) : res (list Z) := if i <? 0 then Ub else res_of_option (hist_list h !! Z.to_nat i).
Definition set_cur (h : history) (cur : Z) : history :=
  {| hist_max := hist_max h; hist_add_idx := hist_add_idx h; hist_cur := cur; hist_num := hist_num h; hist_list := hist_list h |}.

Definition cread_add_to_hist (line : list Z) (h : history) : res history :=
  let* _ := hist_line h (hist_add_idx h) in
  if HIST_SIZE <? Z.of_nat (length line) then Ub
  else
    let lines := <[Z.to_nat (hist_add_idx h) := line]> (hist_list h) in
    let add := hist_add_idx h + 1 in
    let add := if HIST_MAX <=? add then 0 else add in
    let max := if hist_max h <? add then add else hist_max h in
    Ok {| hist_max := max; hist_add_idx := add; hist_cur := hist_cur h; hist_num := u32 (hist_num h + 1); hist_list := lines |}.

Definition hist_prev (h : history) : res (option (list Z) * history) :=
  if hist_cur h <? 0 then Ok (None, h)
  else
    let cur := hist_cur h - 1 in
    let cur := if cur <? 0 then hist_max h else cur in
    if cur =? hist_add_idx h then Ok (None, h)
    else let* l := hist_line h cur in Ok (Some l, set_cur h cur).

Definition hist_next (h : history) : res (option (list Z) * history) :=
  if hist_cur h <? 0 then Ok (None, h)
  else if hist_cur h =? hist_add_idx h then Ok (None, h)
  else
    let cur := hist_cur h + 1 in
    let cur := if hist_max h <? cur then 0 else cur in
    if cur =? hist_add_idx h then Ok (Some [], set_cur h cur)
    else let* l := hist_line h cur in Ok (Some l, set_cur h cur).

(** ** The line that is edited *)

(** [esc] is the used part of [esc_save]; its length is [esc_len]. *)
Record line := {
  buf : list Z;
  num : Z;
  eol_num : Z;
  insert : bool;
  esc : list Z;
  hist : history;
  out : list Z
}.

Definition putc (c : Z) (s : line) : line :=
  {| buf := buf s; num := num s; eol_num := eol_num s; insert := insert s; esc := esc s; hist := hist s; out := out s ++ [c] |}.
Definition puts (t : list Z) (s : line) : line :=
  {| buf := buf s; num := num s; eol_num := eol_num s; insert := insert s; esc := esc s; hist := hist s; out := out s ++ t |}.
Definition set_buf (b : list Z) (s : line) : line :=
  {| buf := b; num := num s; eol_num := eol_num s; insert := insert s; esc := esc s; hist := hist s; out := out s |}.
Definition set_pos (n e : Z) (s : line) : line :=
  {| buf := buf s; num := n; eol_num := e; insert := insert s; esc := esc s; hist := hist s; out := out s |}.
Definition set_insert (b : bool) (s : line) : line :=
  {| buf := buf s; num := num s; eol_num := eol_num s; insert := b; esc := esc s; hist := hist s; out := out s |}.
Definition set_esc (e : list Z) (s : line) : line :=
  {| buf := buf s; num := num s; eol_num := eol_num s; insert := insert s; esc := e; hist := hist s; out := out s |}.
Definition set_hist (h : history) (s : line) : line :=
  {| buf := buf s; num := num s; eol_num := eol_num s; insert := insert s; esc := esc s; hist := h; out := out s |}.

(** [n] backspaces. *)
Definition back (n : Z) : list Z := replicate (Z.to_nat n) CTL_BACKSPACE.
(** [printf ("%.*s", n, buf + i)] *)
Definition putnstr (b : list Z) (i n : Z) : list Z := c_string (take (Z.to_nat n) (drop (Z.to_nat i) b)).

Definition store_at (b : list Z) (i : Z) (t : list Z) : res (list Z) :=
  if i <? 0 then Ub else res_of_option (store_block b (Z.to_nat i) t).
(** [memmove (&buf[dst], &buf[src], n)] *)
Definition move (b : list Z) (dst src n : Z) : res (list Z) :=
  if (src <? 0) || (n <? 0) || (Z.of_nat (length b) <? src + n) then Ub
  else store_at b dst (take (Z.to_nat n) (drop (Z.to_nat src) b)).

Definition BEGINNING_OF_LINE (s : line) : line := set_pos 0 (eol_num s) (puts (back (num s)) s).
Definition ERASE_TO_EOL (s : line) : line :=
  if num s <? eol_num s then
    let n := eol_num s - num s in
    set_pos (num s) (num s) (puts (replicate (Z.to_nat n) blank ++ back n) s)
  else s.
Definition REFRESH_TO_EOL (s : line) : line :=
  if num s <? eol_num s then
    set_pos (eol_num s) (eol_num s) (puts (putnstr (buf s) (num s) (eol_num s - num s)) s)
  else s.

Definition cread_add_char (ichar : Z) (ins : bool) (len : Z) (s : line) : res line :=
  let grow := ins || (num s =? eol_num s) in
  if grow && (u32 (len - 1) <? eol_num s) then Ok (putc BEL s)
  else
    let eol := if grow then eol_num s + 1 else eol_num s in
    if ins then
      let wlen := eol - num s in
      let* b := (if 1 <? wlen then move (buf s) (num s + 1) (num s) (wlen - 1) else Ok (buf s)) in
      let* b := store_at b (num s) [ichar] in
      Ok (set_pos (num s + 1) eol (set_buf b (puts (putnstr b (num s) wlen ++ back (u32 (wlen - 1))) s)))
    else
      let* b := store_at (buf s) (num s) [ichar] in
      Ok (set_pos (num s + 1) eol (set_buf b (puts (putnstr b (num s) 1) s))).

Fixpoint cread_add_str (str : list Z) (ins : bool) (len : Z) (s : line) : res line :=
  match str with
  | [] => Ok s
  | c :: str => let* s := cread_add_char c ins len s in cread_add_str str ins len s
  end.
(** The same, where the string is the buffer itself: [strsize] bytes from index [i] on. *)
Fixpoint cread_add_own (strsize : nat) (i : nat) (len : Z) (s : line) : res line :=
  match strsize with
  | O => Ok s
  | S strsize =>
    let* c := res_of_option (buf s !! i) in
    let* s := cread_add_char c true len s in
    cread_add_own strsize (S i) len s
  end.

(** After a character the loop goes on, ends with a line, or is left by ^C. *)
Inductive progress := More (s : line) | Entered (s : line) | Interrupted (s : line).

Section Editor.
Context {W : Type} (table : list (cmd_tbl W)).
Context (prompt : option (list Z)) (len : Z).

(** ^D and backspace. *)
Definition delete_here (s : line) : res line :=
  if num s <? eol_num s then
    let wlen := eol_num s - num s - 1 in
    let* (b, t) :=
      (if negb (wlen =? 0) then
         let* b := move (buf s) (num s) (num s + 1) wlen in Ok (b, putnstr b (num s) wlen)
       else Ok (buf s, [])) in
    Ok (set_pos (num s) (eol_num s - 1) (set_buf b (puts (t ++ [blank] ++ back (wlen + 1)) s)))
  else Ok s.
Definition delete_before (s : line) : res line :=
  if negb (num s =? 0) then
    let wlen := eol_num s - num s in
    let num' := num s - 1 in
    let* b := move (buf s) num' (num' + 1) wlen in
    Ok (set_pos num' (eol_num s - 1) (set_buf b (puts ([CTL_BACKSPACE] ++ putnstr b num' wlen ++ [blank] ++ back (wlen + 1)) s)))
  else Ok s.

Definition recall (up : bool) (s : line) : res line :=
  let s := set_esc [] s in
  let* (hline, h) := (if up then hist_prev (hist s) else hist_next (hist s)) in
  let s := set_hist h s in
  match hline with
  | None => Ok (putc BEL s)
  | Some l =>
    let s := ERASE_TO_EOL (BEGINNING_OF_LINE s) in
    let* b := store_at (buf s) 0 (l ++ [0]) in
    Ok (REFRESH_TO_EOL (set_pos (num s) (Z.of_nat (length (c_string b))) (set_buf b s)))
  end.

Definition auto_complete (s : line) : res line :=
  if num s <? eol_num s then Ok (putc BEL s)
  else
    let* b := store_at (buf s) (num s) [0] in
    let* p := res_of_option prompt in
    let col := Z.of_nat (length p) + eol_num s in
    let* (r, b, num2, _, t) := cmd_auto_complete table p b (num s) col in
    let s := set_buf b (puts t s) in
    if negb (r =? 0) then Ok (set_pos (num s + (num2 - num s)) (eol_num s + (num2 - num s)) s) else Ok s.

(** The switch on the character. *)
Definition command_key (ichar : Z) (s : line) : res progress :=
  if ichar =? ESC then
    match esc s with
    | [] => Ok (More (set_esc [ichar] s))
    | _ => Ok (More (set_esc [] (puts (cstr "impossible condition #876" ++ [newline]) s)))
    end
  else if ichar =? CTL_CH 0x61 then Ok (More (BEGINNING_OF_LINE s))
  else if ichar =? CTL_CH 0x63 then let* b := store_at (buf s) 0 [0] in Ok (Interrupted (set_buf b s))
  else if ichar =? CTL_CH 0x66 then
    if num s <? eol_num s then
      let* c := res_of_option (buf s !! Z.to_nat (num s)) in Ok (More (set_pos (num s + 1) (eol_num s) (putc c s)))
    else Ok (More s)
  else if ichar =? CTL_CH 0x62 then
    Ok (More (if negb (num s =? 0) then set_pos (num s - 1) (eol_num s) (putc CTL_BACKSPACE s) else s))
  else if ichar =? CTL_CH 0x64 then let* s := delete_here s in Ok (More s)
  else if ichar =? CTL_CH 0x6B then Ok (More (ERASE_TO_EOL s))
  else if ichar =? CTL_CH 0x65 then Ok (More (REFRESH_TO_EOL s))
  else if ichar =? CTL_CH 0x6F then Ok (More (set_insert (negb (insert s)) s))
  else if (ichar =? CTL_CH 0x78) || (ichar =? CTL_CH 0x75) then Ok (More (ERASE_TO_EOL (BEGINNING_OF_LINE s)))
  else if (ichar =? DEL) || (ichar =? DEL7) || (ichar =? 8) then let* s := delete_before s in Ok (More s)
  else if ichar =? CTL_CH 0x70 then let* s := recall true s in Ok (More s)
  else if ichar =? CTL_CH 0x6E then let* s := recall false s in Ok (More s)
  else if ichar =? TAB then let* s := auto_complete s in Ok (More s)
  else let* s := cread_add_char ichar (insert s) len s in Ok (More s).

(** The arrow keys and the like, as control characters. *)
Definition esc_code (ichar : Z) : option Z :=
  if ichar =? 0x44 then Some (CTL_CH 0x62)
  else if ichar =? 0x43 then Some (CTL_CH 0x66)
  else if ichar =? 0x48 then Some (CTL_CH 0x61)
  else if ichar =? 0x41 then Some (CTL_CH 0x70)
  else if ichar =? 0x42 then Some (CTL_CH 0x6E)
  else None.

(** One round of the loop, from the character on. *)
Definition cread_key (ichar : Z) (s : line) : res progress :=
  if (ichar =? newline) || (ichar =? CR) then Ok (Entered (putc newline s))
  else match esc s with
  | [] => command_key ichar s
  | [e] =>
    if ichar =? 0x5B then Ok (More (set_esc [e; ichar] s))
    else let* s := cread_add_str [e] (insert s) len s in Ok (More (set_esc [] s))
  | es =>
    match esc_code ichar with
    | Some c => command_key c (set_esc [] s)
    | None => let* s := cread_add_str (es ++ [ichar]) (insert s) len s in Ok (More (set_esc [] s))
    end
  end.

(** The loop, until the line is entered, left by ^C (-1), or the first character does not come in time (-2). *)
Fixpoint cread_loop (first : bool) (timeout etime : Z) (evs : list event) (s : line) : res (Z * line * list event) :=
  match evs with
  | [] => Hang
  | Idle t :: evs =>
    if first && negb (timeout =? 0) && (etime <=? t) then Ok (-2, s, evs) else cread_loop first timeout etime evs s
  | Key c :: evs =>
    let* p := cread_key c s in
    match p with
    | More s => cread_loop false timeout etime evs s
    | Entered s =>
      let* b := store_at (buf s) (eol_num s) [0] in
      let s := set_buf b s in
      let text := c_string b in
      let* h := (match text with
        | [] => Ok (hist s)
        | c :: _ => if negb (c =? CREAD_HIST_CHAR) then cread_add_to_hist text (hist s) else Ok (hist s)
        end) in
      Ok (0, set_hist (set_cur h (hist_add_idx h)) s, evs)
    | Interrupted s => Ok (-1, s, evs)
    end
  end.

(** [now] is the value of the tick counter, [tbclk] its rate.  The result with the state, [*len] is [eol_num]. *)
Definition cread_line (timeout now tbclk : Z) (evs : list event) (b : list Z) (h : history) : res (Z * line * list event) :=
  let s := {| buf := b; num := 0; eol_num := 0; insert := true; esc := []; hist := h; out := [] |} in
  let* s := cread_add_own (length (c_string b)) 0 len s in
  cread_loop true timeout (u64 (now + timeout * tbclk)) evs s.
End Editor.

(** ** The reader without editing *)

Definition erase_seq : list Z := [8; 0x20; 8].
(** [tab_seq + (col & 07)] *)
Definition tab_text (col : Z) : list Z := replicate (Z.to_nat (8 - (col .& 7))) 0x20.

(** The buffer and the column; [p] is always [p_buf + n].  [console] is [console_buffer] where the line goes elsewhere. *)
Record typed := {
  p_buf : list Z;
  n : Z;
  col : Z;
  console : option (list Z);
  echo : list Z
}.
Definition set_typed (b : list Z) (n col : Z) (t : list Z) (s : typed) : typed :=
  {| p_buf := b; n := n; col := col; console := console s; echo := echo s ++ t |}.

Fixpoint retype (text : list Z) (col : Z) : list Z * Z :=
  match text with
  | [] => ([], col)
  | c :: text =>
    let '(t, col) := if c =? TAB then (tab_text col, col + (8 - (col .& 7))) else ([c], col + 1) in
    let '(t', col) := retype text col in (t ++ t', col)
  end.
(** [erase_seq] for every column behind the prompt. *)
Definition erase_line (col plen : Z) : list Z := concat (replicate (Z.to_nat (col - plen)) erase_seq).

Definition delete_char (plen : Z) (s : typed) : res typed :=
  if n s =? 0 then Ok s
  else
    let p := n s - 1 in
    let* c := res_of_option (p_buf s !! Z.to_nat p) in
    if c =? TAB then
      let '(t, col') := retype (take (Z.to_nat p) (p_buf s)) (Z.min (col s) plen) in
      Ok (set_typed (p_buf s) p col' (erase_line (col s) plen ++ t) s)
    else Ok (set_typed (p_buf s) p (col s - 1) erase_seq s).

(** [^W]: until the deleted character is a blank. *)
Fixpoint erase_word (fuel : nat) (plen : Z) (s : typed) : res typed :=
  match fuel with
  | O => Hang
  | S fuel =>
    if 0 <? n s then
      let* c := res_of_option (p_buf s !! Z.to_nat (n s)) in
      if negb (c =? 0x20) then let* s := delete_char plen s in erase_word fuel plen s else Ok s
    else Ok s
  end.

Section Reader.
Context {W : Type} (table : list (cmd_tbl W)).
Context (prompt : option (list Z)).

Definition plen : Z := match prompt with Some p => Z.of_nat (length p) | None => 0 end.

(** Completion always works on [console_buffer]. *)
Definition complete_typed (s : typed) : res (Z * typed) :=
  let* b := store_at (p_buf s) (n s) [0] in
  let* p := res_of_option prompt in
  match console s with
  | None =>
    let* (r, b, n', col', t) := cmd_auto_complete table p b (n s) (col s) in
    Ok (r, set_typed b n' col' t s)
  | Some cb =>
    let* (r, cb, n', col', t) := cmd_auto_complete table p cb (n s) (col s) in
    Ok (r, {| p_buf := b; n := n'; col := col'; console := Some cb; echo := echo s ++ t |})
  end.

Definition normal_char (c : Z) (s : typed) : res typed :=
  if n s <? CONFIG_SYS_CBSIZE - 2 then
    if c =? TAB then
      let* (r, s) := complete_typed s in
      if negb (r =? 0) then Ok s
      else
        let* b := store_at (p_buf s) (n s) [c] in
        Ok (set_typed b (n s + 1) (col s + (8 - (col s .& 7))) (tab_text (col s)) s)
    else
      let* b := store_at (p_buf s) (n s) [c] in
      Ok (set_typed b (n s + 1) (col s + 1) [c] s)
  else Ok (set_typed (p_buf s) (n s) (col s) [BEL] s).

Fixpoint typed_loop (evs : list event) (s : typed) : res (Z * typed * list event) :=
  match evs with
  | [] => Hang
  | Idle _ :: evs => typed_loop evs s
  | Key c :: evs =>
    if (c =? CR) || (c =? newline) then
      let* b := store_at (p_buf s) (n s) [0] in
      Ok (n s, set_typed b (n s) (col s) [CR; newline] s, evs)
    else if c =? 0 then typed_loop evs s
    else if c =? 0x03 then
      let* b := store_at (p_buf s) 0 [0] in Ok (-1, set_typed b (n s) (col s) [] s, evs)
    else if c =? 0x15 then typed_loop evs (set_typed (p_buf s) 0 (Z.min (col s) plen) (erase_line (col s) plen) s)
    else if c =? 0x17 then
      let* s := delete_char plen s in
      let* s := erase_word (S (Z.to_nat (n s))) plen s in
      typed_loop evs s
    else if (c =? 0x08) || (c =? 0x7F) then let* s := delete_char plen s in typed_loop evs s
    else let* s := normal_char c s in typed_loop evs s
  end.

Definition read_typed (evs : list event) (b : list Z) (cb : option (list Z)) : res (Z * typed * list event) :=
  typed_loop evs {| p_buf := b; n := 0; col := plen; console := cb; echo := match prompt with Some p => p | None => [] end |}.
End Reader.

(** ** [readline] *)

(** The console: [gd->flags], [initted] with the history, and [console_buffer]. *)
Record console_state := {
  flags : Z;
  initted : bool;
  lines : history;
  console_buffer : list Z
}.

Section Readline.
Context {W : Type} (table : list (cmd_tbl W)) (now tbclk : Z).

(** The buffer the caller gives is [console_buffer] itself, or [Some] other one.  The result, the buffer, what was
    printed, the state of the console and the rest of the input. *)
Definition readline_into_buffer (prompt : option (list Z)) (buffer : option (list Z)) (timeout : Z) (evs : list event) (w : console_state)
  : res (Z * list Z * list Z * console_state * list event) :=
  let b := match buffer with Some b => b | None => console_buffer w end in
  let keep b cb := match buffer with Some _ => cb | None => b end in
  if tst (flags w) GD_FLG_RELOC then
    let h := if initted w then lines w else hist_init in
    let* (rc, s, evs) := cread_line table prompt CONFIG_SYS_CBSIZE timeout now tbclk evs b h in
    Ok (if rc <? 0 then rc else eol_num s, buf s, match prompt with Some p => p | None => [] end ++ out s,
        {| flags := flags w; initted := true; lines := hist s; console_buffer := keep (buf s) (console_buffer w) |}, evs)
  else
    let* (rc, s, evs) := read_typed table prompt evs b (match buffer with Some _ => Some (console_buffer w) | None => None end) in
    Ok (rc, p_buf s, echo s,
        {| flags := flags w; initted := initted w; lines := lines w;
           console_buffer := keep (p_buf s) (match console s with Some cb => cb | None => console_buffer w end) |}, evs).

Definition readline (prompt : option (list Z)) (evs : list event) (w : console_state) : res (Z * list Z * list Z * console_state * list event) :=
  let* b := store_at (console_buffer w) 0 [0] in
  readline_into_buffer prompt None 0 evs {| flags := flags w; initted := initted w; lines := lines w; console_buffer := b |}.
End Readline.

(** ** Words of a command *)

(** The words, whether the limit was reached, and whether [argv] has its NULL. *)
Fixpoint parse_words (left_ : nat) (s : list Z) : list (list Z) * bool :=
  match left_ with
  | O => ([], true)
  | S left_ =>
    match skip_blanks s with
    | [] => ([], false)
    | s =>
      let '(w, r) := word s in
      match r with
      | [] => ([w], false)
      | _ :: r => let '(ws, too_many) := parse_words left_ r in (w :: ws, too_many)
      end
    end
  end.
(** [argv] with the entry behind the words: NULL, or whatever was there when there are too many. *)
Definition parse_line (s : list Z) : list (list Z) * bool := parse_words CONFIG_SYS_MAXARGS s.
