(* ===== verification/ReadlineProps.v ===== *)
(** * The command line: the editor as a text with a cursor, and what the terminal shows *)
From S2P Require Import Prelude Ctype CstrProps Hashtable Env Command Readline.

(** ** Specification *)

Definition printable (c : Z) : bool := (0x20 <=? c) && (c <? 0x7F).

(** A line of the terminal: the characters left of the cursor, and from the cursor on.  A printable character
    replaces the one at the cursor; a backspace moves the cursor; other characters leave the line as it is. *)
Definition screen : Type := list Z * list Z.
Definition show (t : screen) (c : Z) : screen :=
  let '(l, r) := t in
  if printable c then (l ++ [c], tail r)
  else if c =? CTL_BACKSPACE then
    match last l with Some x => (removelast l, x :: r) | None => t end
  else t.
Definition shown (text : list Z) (t : screen) : screen := fold_left show text t.

(** The keys, and the characters terminals send for them. *)
Inductive key := Char (c : Z) | Left | Right | Home | End_ | Delete | Backspace | KillEnd | KillLine | Toggle | Up | Down.
Definition codes (k : key) : list (list Z) :=
  match k with
  | Char c => if printable c then [[c]] else []
  | Left => [[2]; [ESC; 0x5B; 0x44]]
  | Right => [[6]; [ESC; 0x5B; 0x43]]
  | Home => [[1]; [ESC; 0x5B; 0x48]]
  | End_ => [[5]]
  | Delete => [[4]]
  | Backspace => [[8]; [127]; [255]]
  | KillEnd => [[11]]
  | KillLine => [[24]; [21]]
  | Toggle => [[15]]
  | Up => [[16]; [ESC; 0x5B; 0x41]]
  | Down => [[14]; [ESC; 0x5B; 0x42]]
  end.

(** The text before and behind the cursor, whether characters are inserted, the lines entered so far, the last one
    first, and the number of the line that is looked at, 0 for the one that is typed. *)
Record editor := { before : list Z; after : list Z; inserts : bool; past : list (list Z); pos : nat }.
Definition text (e : editor) : list Z := before e ++ after e.

Definition with_text (b a : list Z) (e : editor) : editor :=
  {| before := b; after := a; inserts := inserts e; past := past e; pos := pos e |}.
Definition looks_at (p : nat) (l : list Z) (e : editor) : editor :=
  {| before := l; after := []; inserts := inserts e; past := past e; pos := p |}.

Definition room : nat := 256.
Definition reach : nat := 19.

Definition press (k : key) (e : editor) : editor :=
  match k with
  | Char c =>
    if inserts e || bool_decide (after e = []) then
      if (length (text e) <? room)%nat then with_text (before e ++ [c]) (after e) e else e
    else with_text (before e ++ [c]) (tail (after e)) e
  | Left => match last (before e) with Some c => with_text (removelast (before e)) (c :: after e) e | None => e end
  | Right => match after e with c :: a => with_text (before e ++ [c]) a e | [] => e end
  | Home => with_text [] (text e) e
  | End_ => with_text (text e) [] e
  | Delete => with_text (before e) (tail (after e)) e
  | Backspace => with_text (removelast (before e)) (after e) e
  | KillEnd => with_text (before e) [] e
  | KillLine => with_text [] [] e
  | Toggle => {| before := before e; after := after e; inserts := negb (inserts e); past := past e; pos := pos e |}
  | Up => match take reach (past e) !! pos e with Some l => looks_at (S (pos e)) l e | None => e end
  | Down =>
    match pos e with
    | O => e
    | S O => looks_at 0 [] e
    | S (S p) => match past e !! p with Some l => looks_at (S p) l e | None => e end
    end
  end.

Definition presses (ks : list key) (e : editor) : editor := fold_left (fun e k => press k e) ks e.
Definition new_line (past : list (list Z)) (pos : nat) : editor :=
  {| before := []; after := []; inserts := true; past := past; pos := pos |}.

(** The history after a line: empty lines and those that begin with an exclamation mark are not kept. *)
Definition keep_line (l : list Z) (past : list (list Z)) : list (list Z) :=
  match l with [] => past | c :: _ => if c =? CREAD_HIST_CHAR then past else l :: past end.

(** ** Terminal *)

Lemma shown_app t1 t2 s : shown (t1 ++ t2) s = shown t2 (shown t1 s).
Proof. apply fold_left_app. Qed.

Lemma shown_text t : forall l r, Forall (fun c => Is_true (printable c)) t -> shown t (l, r) = (l ++ t, drop (length t) r).
Proof.
  induction t as [|c t IH]; intros l r Ht; [by rewrite app_nil_r|].
  apply Forall_cons in Ht as [Hc Ht]. cbn [shown fold_left show]. rewrite (Is_true_true_1 _ Hc). fold (shown t (l ++ [c], tail r)).
  rewrite IH by done. rewrite <- app_assoc. f_equal. destruct r; cbn [tail length]; [by rewrite !drop_nil|done].
Qed.

Lemma shown_back n : forall l t r, length t = n -> shown (replicate n CTL_BACKSPACE) (l ++ t, r) = (l, t ++ r).
Proof.
  induction n as [|n IH]; intros l t r Ht; [apply nil_length_inv in Ht as ->; by rewrite app_nil_r|].
  destruct t as [|x t _] using rev_ind; [done|]. rewrite length_app in Ht. cbn [length] in Ht.
  cbn [replicate shown fold_left show]. change (printable CTL_BACKSPACE) with false. cbn [Z.eqb CTL_BACKSPACE Pos.eqb].
  rewrite app_assoc, last_snoc, removelast_last. fold (shown (replicate n CTL_BACKSPACE) (l ++ t, x :: r)).
  rewrite IH by lia. by rewrite <- app_assoc.
Qed.

Lemma shown_back_z n l t r : Z.of_nat (length t) = n -> shown (back n) (l ++ t, r) = (l, t ++ r).
Proof. intros H. apply shown_back. lia. Qed.

Lemma shown_beep s : shown [BEL] s = s.
Proof. by destruct s. Qed.

Lemma blanks_printable n : Forall (fun c => Is_true (printable c)) (replicate n blank).
Proof. apply Forall_replicate. done. Qed.

(** ** The buffer *)

Lemma c_string_text t r : Forall (fun c => Is_true (printable c)) t -> c_string (t ++ 0 :: r) = t.
Proof.
  induction 1 as [|c t Hc Ht IH]; [done|]. cbn [app c_string]. rewrite IH.
  destruct (Z.eqb_spec c 0) as [->|]; [by destruct Hc|done].
Qed.
Lemma c_string_clean t : Forall (fun c => Is_true (printable c)) t -> c_string t = t.
Proof.
  induction 1 as [|c t Hc Ht IH]; [done|]. cbn [c_string]. rewrite IH.
  destruct (Z.eqb_spec c 0) as [->|]; [by destruct Hc|done].
Qed.

Lemma putnstr_text b a r i n : i = Z.of_nat (length b) -> n = Z.of_nat (length a) ->
  Forall (fun c => Is_true (printable c)) a -> putnstr (b ++ a ++ r) i n = a.
Proof.
  intros -> -> Ha. unfold putnstr. rewrite !Nat2Z.id, drop_app_length, take_app_length. by apply c_string_clean.
Qed.

Lemma store_at_app b a r i t : i = Z.of_nat (length b) -> (length t <= length r)%nat -> a = b ++ t ++ drop (length t) r ->
  store_at (b ++ r) i t = Ok a.
Proof.
  intros -> Ht ->. unfold store_at. rewrite (proj2 (Z.ltb_ge _ _)) by lia. rewrite Nat2Z.id, store_block_app by done. done.
Qed.

Lemma move_app b a dst src n p t q : b = p ++ t ++ q -> src = Z.of_nat (length p) -> n = Z.of_nat (length t) ->
  store_at b dst t = a -> move b dst src n = a.
Proof.
  intros -> -> -> <-. unfold move.
  replace (_ || _ || _) with false by (symmetry; rewrite !orb_false_iff, !Z.ltb_ge; rewrite !length_app; lia).
  by rewrite !Nat2Z.id, drop_app_length, take_app_length.
Qed.

(** ** The history *)

Definition clean (t : list Z) : Prop := Forall (fun c => Is_true (printable c)) t.

(** Slot of the [j]-th last of [k] lines. *)
Definition slot_of (k j : nat) : Z := (Z.of_nat k - Z.of_nat j) mod HIST_MAX.

Record remembers (h : history) (past : list (list Z)) (pos : nat) : Prop := {
  rm_add : hist_add_idx h = slot_of (length past) 0;
  rm_max : hist_max h = Z.min (Z.of_nat (length past)) (HIST_MAX - 1);
  rm_len : length (hist_list h) = Z.to_nat HIST_MAX;
  rm_lines : forall j l, take reach past !! j = Some l -> hist_list h !! Z.to_nat (slot_of (length past) (S j)) = Some l;
  rm_pos : (pos <= Nat.min (length past) reach)%nat;
  rm_cur : hist_cur h = slot_of (length past) pos \/ hist_cur h = -1 /\ past = [];
  rm_past : Forall (fun l => clean l /\ (length l <= room)%nat) past
}.

Lemma slot_range k j : 0 <= slot_of k j < 20.
Proof. apply Z.mod_pos_bound. unfold HIST_MAX. lia. Qed.

Lemma hist_line_ok h past pos j l : remembers h past pos -> take reach past !! j = Some l ->
  hist_line h (slot_of (length past) (S j)) = Ok l.
Proof.
  intros H Hl. unfold hist_line. pose proof (slot_range (length past) (S j)).
  rewrite (proj2 (Z.ltb_ge _ _)) by lia. by rewrite (rm_lines _ _ _ H _ _ Hl).
Qed.

Lemma set_cur_remembers h past pos pos' : remembers h past pos -> (pos' <= Nat.min (length past) reach)%nat ->
  remembers (set_cur h (slot_of (length past) pos')) past pos'.
Proof. intros [] Hp. constructor; cbn; auto. Qed.

(** One slot back, one slot forward. *)
Lemma slot_back k j max : (j < Nat.min k reach)%nat -> max = Z.min (Z.of_nat k) 19 ->
  (if slot_of k j - 1 <? 0 then max else slot_of k j - 1) = slot_of k (S j) /\ slot_of k (S j) <> slot_of k 0.
Proof.
  intros Hj ->. unfold slot_of, HIST_MAX, reach in *. rewrite Z.sub_0_r.
  destruct (Z.ltb_spec ((Z.of_nat k - Z.of_nat j) mod 20 - 1) 0); Z.div_mod_to_equations; lia.
Qed.
Lemma slot_stop k j max : j = Nat.min k reach -> max = Z.min (Z.of_nat k) 19 ->
  (if slot_of k j - 1 <? 0 then max else slot_of k j - 1) = slot_of k 0.
Proof.
  intros Hj ->. unfold slot_of, HIST_MAX, reach in *. rewrite Z.sub_0_r.
  destruct (Z.ltb_spec ((Z.of_nat k - Z.of_nat j) mod 20 - 1) 0); Z.div_mod_to_equations; lia.
Qed.
Lemma slot_forward k j max : (S j <= Nat.min k reach)%nat -> max = Z.min (Z.of_nat k) 19 ->
  (if max <? slot_of k (S j) + 1 then 0 else slot_of k (S j) + 1) = slot_of k j /\ slot_of k (S j) <> slot_of k 0.
Proof.
  intros Hj ->. unfold slot_of, HIST_MAX, reach in *. rewrite Z.sub_0_r.
  destruct (Z.ltb_spec (Z.min (Z.of_nat k) 19) ((Z.of_nat k - Z.of_nat (S j)) mod 20 + 1)); Z.div_mod_to_equations; lia.
Qed.
Lemma slot_apart k j : (1 <= j <= Nat.min k reach)%nat -> slot_of k j <> slot_of k 0.
Proof. unfold slot_of, HIST_MAX, reach. intros. rewrite Z.sub_0_r. Z.div_mod_to_equations. lia. Qed.

Lemma hist_prev_ok h past pos : remembers h past pos ->
  match take reach past !! pos with
  | Some l => hist_prev h = Ok (Some l, set_cur h (slot_of (length past) (S pos)))
  | None => hist_prev h = Ok (None, h)
  end.
Proof.
  intros H. unfold hist_prev. pose proof (slot_range (length past) pos). destruct (rm_cur _ _ _ H) as [->|[-> ->]]; [|done].
  rewrite (proj2 (Z.ltb_ge (slot_of _ _) _)) by lia. cbv zeta. rewrite (rm_add _ _ _ H).
  destruct (take reach past !! pos) as [l|] eqn:E.
  - pose proof (lookup_lt_Some _ _ _ E) as Hp. rewrite length_take in Hp.
    destruct (slot_back (length past) pos (hist_max h)) as [-> Hne]; [lia|by rewrite (rm_max _ _ _ H)|].
    rewrite (proj2 (Z.eqb_neq _ _) Hne). by erewrite hist_line_ok.
  - apply lookup_ge_None in E. rewrite length_take in E. pose proof (rm_pos _ _ _ H).
    rewrite (slot_stop (length past) pos (hist_max h)); [|lia|by rewrite (rm_max _ _ _ H)]. by rewrite Z.eqb_refl.
Qed.

Lemma hist_next_ok h past pos : remembers h past pos ->
  match pos with
  | O => hist_next h = Ok (None, h)
  | S p => hist_next h = Ok (Some (match p with O => [] | S p' => default [] (past !! p') end), set_cur h (slot_of (length past) p))
  end.
Proof.
  intros H. unfold hist_next. pose proof (slot_range (length past) pos). pose proof (rm_pos _ _ _ H) as Hp.
  destruct (rm_cur _ _ _ H) as [->|[-> ->]]; [|by destruct pos; [|cbn [length Nat.min] in Hp; lia]].
  rewrite (proj2 (Z.ltb_ge (slot_of _ _) _)) by lia. cbv zeta. rewrite (rm_add _ _ _ H). destruct pos as [|p]; [by rewrite Z.eqb_refl|].
  destruct (slot_forward (length past) p (hist_max h)) as [-> Hne]; [done|by rewrite (rm_max _ _ _ H)|].
  rewrite (proj2 (Z.eqb_neq _ _) Hne). destruct p as [|p]; [by rewrite Z.eqb_refl|].
  rewrite (proj2 (Z.eqb_neq _ _)) by (apply slot_apart; lia).
  destruct (past !! p) as [l|] eqn:E; [|apply lookup_ge_None in E; lia]. cbn [default from_option].
  assert (take reach past !! p = Some l) as E' by (rewrite lookup_take_lt by (unfold reach in *; lia); done).
  by rewrite (hist_line_ok h past (S (S p)) p l).
Qed.

Lemma add_to_hist_ok h past pos l : remembers h past pos -> clean l -> (length l <= room)%nat ->
  exists h', cread_add_to_hist l h = Ok h' /\ remembers (set_cur h' (hist_add_idx h')) (l :: past) 0.
Proof.
  intros H Hc Hl. unfold cread_add_to_hist. pose proof (slot_range (length past) 0) as Hr. destruct H as [Ha Hm Hn Hs Hp Hcur Hpast].
  rewrite Ha. unfold hist_line at 1. rewrite (proj2 (Z.ltb_ge (slot_of _ _) _)) by lia.
  destruct (lookup_lt_is_Some_2 (hist_list h) (Z.to_nat (slot_of (length past) 0))) as [x ->]; [unfold HIST_MAX in Hn; lia|].
  cbn [res_bind res_of_option]. rewrite (proj2 (Z.ltb_ge HIST_SIZE _)) by (unfold HIST_SIZE, CONFIG_SYS_CBSIZE, room in *; lia).
  eexists. split; [done|].
  assert ((if HIST_MAX <=? slot_of (length past) 0 + 1 then 0 else slot_of (length past) 0 + 1) = slot_of (length (l :: past)) 0) as Hadd.
  { unfold slot_of, HIST_MAX. cbn [length]. rewrite !Z.sub_0_r.
    destruct (Z.leb_spec 20 (Z.of_nat (length past) mod 20 + 1)); Z.div_mod_to_equations; lia. }
  cbv zeta. rewrite Hadd. constructor; cbn [hist_add_idx hist_max hist_list hist_cur set_cur]; auto.
  - rewrite Hm. unfold slot_of, HIST_MAX. cbn [length]. rewrite Z.sub_0_r.
    destruct (Z.ltb_spec (Z.min (Z.of_nat (length past)) (20 - 1)) (Z.of_nat (S (length past)) mod 20)); Z.div_mod_to_equations; lia.
  - by rewrite length_insert.
  - intros [|j] l' Hl'.
    + cbn in Hl'. simplify_eq. replace (slot_of (length (l' :: past)) 1) with (slot_of (length past) 0)
        by (unfold slot_of; f_equal; cbn [length]; lia).
      apply list_lookup_insert_eq. unfold HIST_MAX in Hn. lia.
    + pose proof (lookup_lt_Some _ _ _ Hl') as Hj. rewrite length_take in Hj. cbn [length] in Hj.
      replace (slot_of (length (l :: past)) (S (S j))) with (slot_of (length past) (S j)) by (unfold slot_of; f_equal; cbn [length]; lia).
      assert (take reach past !! j = Some l') as E.
      { rewrite lookup_take_lt in Hl' |- * by (unfold reach in *; lia). done. }
      rewrite list_lookup_insert_ne; [by apply Hs|].
      pose proof (slot_range (length past) (S j)). pose proof (slot_apart (length past) (S j)). unfold reach in *. lia.
  - lia.
Qed.

Lemma hist_init_remembers : remembers hist_init [] 0.
Proof. constructor; try done. by right. Qed.

(** ** The editor and its specification *)

Section Simulation.
Context {W : Type} (table : list (cmd_tbl W)) (prompt : list Z).

Record edits (s : line) (e : editor) : Prop := {
  ed_buf : exists r, buf s = before e ++ after e ++ r;
  ed_size : length (buf s) = S room;
  ed_num : num s = Z.of_nat (length (before e));
  ed_eol : eol_num s = Z.of_nat (length (before e)) + Z.of_nat (length (after e));
  ed_room : (length (before e) + length (after e) <= room)%nat;
  ed_insert : insert s = inserts e;
  ed_esc : esc s = [];
  ed_before : clean (before e);
  ed_after : clean (after e);
  ed_hist : remembers (hist s) (past e) (pos e);
  ed_out : exists k, shown (out s) (prompt, []) = (prompt ++ before e, after e ++ replicate k blank)
}.

(** A key that changes the text: what is left to show. *)
Lemma edits_text s s' e b a r t : edits s e ->
  buf s' = b ++ a ++ r -> length (buf s') = S room -> num s' = Z.of_nat (length b) ->
  eol_num s' = Z.of_nat (length b) + Z.of_nat (length a) -> (length b + length a <= room)%nat ->
  insert s' = insert s -> esc s' = esc s -> hist s' = hist s -> clean b -> clean a -> out s' = out s ++ t ->
  (forall k, exists k', shown t (prompt ++ before e, after e ++ replicate k blank) = (prompt ++ b, a ++ replicate k' blank)) ->
  edits s' (with_text b a e).
Proof.
  intros H Hb Hl Hn He Hr Hi Hesc Hh Cb Ca Ho Hs. destruct H as [_ _ _ _ _ Hi' Hesc' _ _ Hh' [k Hk]].
  constructor; cbn; eauto; try congruence.
  destruct (Hs k) as [k' Hk']. exists k'. by rewrite Ho, shown_app, Hk.
Qed.

Lemma with_text_same e b a : b = before e -> a = after e -> with_text b a e = e.
Proof. intros -> ->. by destruct e. Qed.

Lemma beep_edits s e : edits s e -> edits (putc BEL s) e.
Proof. intros []. constructor; cbn; auto. destruct ed_out0 as [k Hk]. exists k. by rewrite shown_app, Hk, shown_beep. Qed.

Lemma store_at_length b i t b' : store_at b i t = Ok b' -> length b' = length b.
Proof.
  unfold store_at. case_if; [done|]. destruct (store_block b (Z.to_nat i) t) eqn:E; intros; inv_res. by eapply store_block_length.
Qed.

Lemma drop_blanks n a k : exists k', drop n (a ++ replicate k blank) = drop n a ++ replicate k' blank.
Proof. rewrite drop_app. exists (k - (n - length a))%nat. by rewrite drop_replicate. Qed.

Ltac fields := cbn [buf num eol_num insert esc hist out puts putc set_buf set_pos set_insert set_esc set_hist].
Ltac clean_auto := solve [ repeat first [ assumption | reflexivity | apply Forall_app_2 | apply Forall_cons_2 | apply Forall_nil_2 | apply Is_true_true_2 ] ].

(** Room for one more byte behind the text. *)
Lemma edits_spare s e : edits s e -> exists x r, buf s = before e ++ after e ++ x :: r.
Proof.
  intros [[r Hr] Hl ? ? Hroom]. rewrite Hr, !length_app in Hl. destruct r as [|x r]; [cbn in Hl; lia|]. by exists x, r.
Qed.

Lemma insert_bytes b a x r c : 
  (let* t := (if 1 <? Z.of_nat (length a) + 1 then move (b ++ a ++ x :: r) (Z.of_nat (length b) + 1) (Z.of_nat (length b)) (Z.of_nat (length a)) else Ok (b ++ a ++ x :: r)) in
   store_at t (Z.of_nat (length b)) [c]) = Ok (b ++ (c :: a) ++ r).
Proof.
  destruct a as [|y a]; [cbn; by eapply store_at_app; cbn; [|lia|]|].
  rewrite (proj2 (Z.ltb_lt 1 _)) by (cbn [length]; lia).
  erewrite (move_app _ (Ok ((b ++ [y]) ++ (y :: a) ++ r)) _ _ _ b (y :: a) (x :: r)); [|done..|].
  - cbn [res_bind]. rewrite <- app_assoc. by eapply store_at_app; cbn; [|lia|].
  - replace (b ++ (y :: a) ++ x :: r) with ((b ++ [y]) ++ a ++ x :: r) by (by rewrite <- app_assoc).
    apply (store_at_app _ _ (a ++ x :: r)); [rewrite length_app; cbn; lia|rewrite length_app; cbn; lia|].
    f_equal. f_equal. cbn [length]. rewrite drop_app_ge by lia. replace (S (length a) - length a)%nat with 1%nat by lia. done.
Qed.

(** Without insertion the character takes the place of the one at the cursor, or is added behind the text. *)
Lemma over_edits c s e eol : printable c = true -> edits s e -> after e <> [] \/ (length (before e) < room)%nat ->
  eol = Z.of_nat (length (before e)) + 1 + Z.of_nat (length (tail (after e))) ->
  exists b, store_at (buf s) (num s) [c] = Ok b /\
    edits (set_pos (num s + 1) eol (set_buf b (puts (putnstr b (num s) 1) s))) (with_text (before e ++ [c]) (tail (after e)) e).
Proof.
  intros Hc H Hw ->. destruct (edits_spare s e H) as (x & r & Hb). pose proof H as [_ Hl Hn He Hroom Hi Hesc Cb Ca Hh Ho].
  assert (exists r', store_at (buf s) (num s) [c] = Ok (before e ++ [c] ++ tail (after e) ++ r')) as (r' & Hs).
  { rewrite Hb, Hn. destruct (after e) as [|y a].
    - exists r. apply (store_at_app _ _ (x :: r)); [done|cbn; lia|done].
    - exists (x :: r). apply (store_at_app _ _ ((y :: a) ++ x :: r)); [done|cbn; lia|done]. }
  eexists. split; [exact Hs|].
  eapply (edits_text s _ e (before e ++ [c]) (tail (after e)) r'); fields; try done; try clean_auto; try (rewrite !length_app; cbn; lia).
  - by rewrite <- app_assoc.
  - rewrite <- Hl. exact (store_at_length _ _ _ _ Hs).
  - rewrite length_app. destruct (after e), Hw; cbn in *; try done; lia.
  - destruct (after e); cbn; [constructor|by apply Forall_cons in Ca as [_ Ca]].
  - intros k. rewrite (putnstr_text (before e) [c]) by first [done|clean_auto].
    rewrite shown_text by clean_auto. destruct (drop_blanks 1 (after e) k) as [k' Hk]. exists k'.
    cbn [length]. rewrite Hk, app_assoc. by destruct (after e).
Qed.

Lemma insert_edits c s e : printable c = true -> edits s e -> (length (before e) + length (after e) < room)%nat ->
  exists b b', (if 1 <? eol_num s + 1 - num s then move (buf s) (num s + 1) (num s) (eol_num s + 1 - num s - 1) else Ok (buf s)) = Ok b /\
    store_at b (num s) [c] = Ok b' /\
    edits (set_pos (num s + 1) (eol_num s + 1)
             (set_buf b' (puts (putnstr b' (num s) (eol_num s + 1 - num s) ++ back (u32 (eol_num s + 1 - num s - 1))) s)))
          (with_text (before e ++ [c]) (after e) e).
Proof.
  intros Hc H Hlt. destruct (edits_spare s e H) as (x & r & Hb). pose proof H as [_ Hl Hn He Hroom Hi Hesc Cb Ca Hh Ho].
  rewrite Hn, He, Hb.
  replace (Z.of_nat (length (before e)) + Z.of_nat (length (after e)) + 1 - Z.of_nat (length (before e))) with (Z.of_nat (length (after e)) + 1) by lia.
  replace (Z.of_nat (length (after e)) + 1 - 1) with (Z.of_nat (length (after e))) by lia.
  pose proof (insert_bytes (before e) (after e) x r c) as Hins. apply res_bind_ok in Hins as (b & Hm & Hs).
  eexists b, _. split; [done|]. split; [done|].
  eapply (edits_text s _ e (before e ++ [c]) (after e) r); fields; try done; try clean_auto; try (rewrite !length_app; cbn; lia).
  - by rewrite <- !app_assoc.
  - rewrite Hb, !length_app in Hl. cbn in Hl. rewrite length_app. cbn. rewrite length_app. lia.
  - intros k. rewrite (putnstr_text (before e) (c :: after e) r) by first [done|clean_auto|cbn; lia].
    rewrite shown_app, shown_text by clean_auto. rewrite wrap_small by (unfold room in *; lia).
    exists (k - 1)%nat. cbn [length]. rewrite drop_app_ge, drop_replicate by lia.
    replace (S (length (after e)) - length (after e))%nat with 1%nat by lia.
    replace ((prompt ++ before e) ++ c :: after e) with ((prompt ++ before e ++ [c]) ++ after e) by (by rewrite <- !app_assoc).
    by rewrite shown_back_z by done.
Qed.

Lemma char_edits c s e : printable c = true -> edits s e ->
  exists s', cread_add_char c (insert s) CONFIG_SYS_CBSIZE s = Ok s' /\ edits s' (press (Char c) e).
Proof.
  intros Hc H. pose proof (ed_num _ _ H) as Hn. pose proof (ed_eol _ _ H) as He. pose proof (ed_room _ _ H) as Hroom.
  unfold cread_add_char. cbn [press]. rewrite (ed_insert _ _ H).
  assert ((num s =? eol_num s) = bool_decide (after e = [])) as ->.
  { rewrite Hn, He. destruct (after e); cbn [length].
    - rewrite bool_decide_eq_true_2 by done. apply Z.eqb_eq. lia.
    - rewrite bool_decide_eq_false_2 by done. apply Z.eqb_neq. lia. }
  assert ((u32 (CONFIG_SYS_CBSIZE - 1) <? eol_num s) = negb (length (text e) <? room)%nat) as ->.
  { rewrite He. change (u32 (CONFIG_SYS_CBSIZE - 1)) with 255. unfold room, text in *. rewrite length_app.
    destruct (Nat.ltb_spec (length (before e) + length (after e)) 256), (Z.ltb_spec 255 (Z.of_nat (length (before e)) + Z.of_nat (length (after e)))); try done; lia. }
  unfold text. rewrite length_app. destruct (Nat.ltb_spec (length (before e) + length (after e)) room) as [Hlt|Hge]; cbn [negb].
  - rewrite andb_false_r. destruct (inserts e) eqn:Ei; cbn [orb].
    + destruct (insert_edits c s e Hc H Hlt) as (b & b' & -> & Hs & Hed). cbn [res_bind]. rewrite Hs. by eexists.
    + assert (after e <> [] \/ (length (before e) < room)%nat) as Hw by (right; lia).
      destruct (over_edits c s e _ Hc H Hw eq_refl) as (b & -> & Hed). cbn [res_bind]. eexists. split; [done|].
      rewrite He. destruct (after e) as [|y a]; [|rewrite bool_decide_eq_false_2 by done].
      * rewrite bool_decide_eq_true_2 by done. cbn [tail length] in *. by replace (Z.of_nat (length (before e)) + Z.of_nat 0 + 1) with (Z.of_nat (length (before e)) + 1 + Z.of_nat 0) by lia.
      * cbn [tail length] in *. by replace (Z.of_nat (length (before e)) + Z.of_nat (S (length a))) with (Z.of_nat (length (before e)) + 1 + Z.of_nat (length a)) by lia.
  - destruct (inserts e || bool_decide (after e = [])) eqn:Eg'; cbn [andb].
    + eexists. split; [done|]. by apply beep_edits.
    + apply orb_false_iff in Eg' as [-> Ea]. apply bool_decide_eq_false in Ea.
      destruct (over_edits c s e _ Hc H (or_introl Ea) eq_refl) as (b & -> & Hed). cbn [res_bind]. eexists. split; [done|].
      rewrite He. destruct (after e) as [|y a]; [done|]. cbn [tail length] in *.
      by replace (Z.of_nat (length (before e)) + Z.of_nat (S (length a))) with (Z.of_nat (length (before e)) + 1 + Z.of_nat (length a)) by lia.
Qed.

Lemma home_edits s e : edits s e -> edits (BEGINNING_OF_LINE s) (press Home e).
Proof.
  intros H. pose proof H as [[r Hr] Hl Hn He Hroom Hi Hesc Cb Ca Hh Ho]. unfold BEGINNING_OF_LINE. cbn [press]. unfold text.
  eapply (edits_text s _ e [] (before e ++ after e) r); fields; try done; try clean_auto; try (rewrite ?length_app; cbn; lia).
  - by rewrite Hr, <- app_assoc.
  - intros k. exists k. rewrite Hn, shown_back_z by done. by rewrite app_nil_r, <- app_assoc.
Qed.

Lemma kill_edits s e : edits s e -> edits (ERASE_TO_EOL s) (press KillEnd e).
Proof.
  intros H. pose proof H as [[r Hr] Hl Hn He Hroom Hi Hesc Cb Ca Hh Ho]. unfold ERASE_TO_EOL. cbn [press].
  destruct (Z.ltb_spec (num s) (eol_num s)) as [Hlt|Hge].
  - eapply (edits_text s _ e (before e) [] (after e ++ r)); fields; try done; try clean_auto; try (cbn; lia).
    intros k. rewrite shown_app, shown_text by apply blanks_printable. rewrite length_replicate, shown_back_z by (rewrite length_replicate; lia).
    rewrite He, Hn, Z.add_simpl_l, Nat2Z.id, drop_app_length. rewrite <- replicate_add. by eexists.
  - destruct (after e) eqn:Ea; [by rewrite with_text_same|cbn in He; lia].
Qed.

Lemma end_edits s e : edits s e -> edits (REFRESH_TO_EOL s) (press End_ e).
Proof.
  intros H. pose proof H as [[r Hr] Hl Hn He Hroom Hi Hesc Cb Ca Hh Ho]. unfold REFRESH_TO_EOL. cbn [press]. unfold text.
  destruct (Z.ltb_spec (num s) (eol_num s)) as [Hlt|Hge].
  - eapply (edits_text s _ e (before e ++ after e) [] r); fields; try done; try clean_auto; try (rewrite ?length_app; cbn; lia).
    + by rewrite Hr, <- app_assoc.
    + intros k. exists k. rewrite Hr, (putnstr_text (before e) (after e)) by first [done|lia]. by rewrite shown_text, drop_app_length, app_assoc by done.
  - destruct (after e) eqn:Ea; [by rewrite with_text_same; [|rewrite app_nil_r|]|cbn in He; lia].
Qed.

Lemma right_edits s e : edits s e -> num s < eol_num s ->
  exists c, buf s !! Z.to_nat (num s) = Some c /\ edits (set_pos (num s + 1) (eol_num s) (putc c s)) (press Right e).
Proof.
  intros H Hlt. pose proof H as [[r Hr] Hl Hn He Hroom Hi Hesc Cb Ca Hh Ho]. cbn [press].
  destruct (after e) as [|c a] eqn:Ea; [cbn in He; lia|]. cbn [length] in *. exists c. split.
  { rewrite Hr, Hn, Nat2Z.id. by rewrite lookup_app_r, Nat.sub_diag by lia. }
  apply Forall_cons in Ca as [Cc Ca].
  eapply (edits_text s _ e (before e ++ [c]) a r); fields; try done; try clean_auto; try (rewrite ?length_app; cbn; lia).
  - by rewrite Hr, <- app_assoc.
  - intros k. exists k. rewrite shown_text by clean_auto. rewrite Ea. cbn. by rewrite app_assoc.
Qed.

Lemma left_edits s e : edits s e ->
  edits (if negb (num s =? 0) then set_pos (num s - 1) (eol_num s) (putc CTL_BACKSPACE s) else s) (press Left e).
Proof.
  intros H. pose proof H as [[r Hr] Hl Hn He Hroom Hi Hesc Cb Ca Hh Ho]. cbn [press]. rewrite Hn.
  destruct (before e) as [|c b _] eqn:Eb using rev_ind; [done|]. rewrite last_snoc, removelast_last.
  rewrite length_app in *. cbn [length] in *. rewrite (proj2 (Z.eqb_neq _ 0)) by lia. cbn [negb].
  apply Forall_app in Cb as [Cb Cc]. apply Forall_cons in Cc as [Cc _].
  eapply (edits_text s _ e b (c :: after e) r); fields; try done; try clean_auto; try (cbn; lia).
  - by rewrite Hr, <- app_assoc.
  - intros k. exists k. rewrite Eb. change [CTL_BACKSPACE] with (back 1). by rewrite app_assoc, shown_back_z.
Qed.

Lemma delete_edits s e : edits s e -> exists s', delete_here s = Ok s' /\ edits s' (press Delete e).
Proof.
  intros H. pose proof H as [[r Hr] Hl Hn He Hroom Hi Hesc Cb Ca Hh Ho]. unfold delete_here. cbn [press].
  destruct (Z.ltb_spec (num s) (eol_num s)) as [Hlt|Hge].
  2:{ eexists. split; [done|]. destruct (after e) eqn:Ea; [by rewrite with_text_same|cbn in He; lia]. }
  destruct (after e) as [|c a] eqn:Ea; [cbn in He; lia|]. cbn [length tail] in *. apply Forall_cons in Ca as [Cc Ca].
  replace (eol_num s - num s - 1) with (Z.of_nat (length a)) by lia.
  assert (exists b t r', (if negb (Z.of_nat (length a) =? 0) then
      let* b := move (buf s) (num s) (num s + 1) (Z.of_nat (length a)) in Ok (b, putnstr b (num s) (Z.of_nat (length a)))
      else Ok (buf s, [])) = Ok (b, t) /\ b = before e ++ a ++ r' /\ t = a /\ length b = length (buf s)) as (b & t & r' & Hm & Hb & -> & Hbl).
  { destruct a as [|y a]; [exists (buf s), [], (c :: r); done|].
    rewrite (proj2 (Z.eqb_neq _ 0)) by (cbn; lia). cbn [negb].
    assert (move (buf s) (num s) (num s + 1) (Z.of_nat (length (y :: a))) = Ok (before e ++ (y :: a) ++ drop (length (y :: a)) ((c :: y :: a) ++ r))) as Hm.
    { apply (move_app _ _ _ _ _ (before e ++ [c]) (y :: a) r); [by rewrite Hr, <- app_assoc|rewrite length_app; cbn; lia|done|].
      rewrite Hr. apply store_at_app; [done|cbn; rewrite length_app; lia|done]. }
    rewrite Hm. cbn [res_bind]. do 3 eexists. split; [done|]. split; [done|]. split; [by apply putnstr_text|].
    rewrite Hr, !length_app, length_drop, length_app. cbn. lia. }
  rewrite Hm. cbn [res_bind]. eexists. split; [done|].
  eapply (edits_text s _ e (before e) a r'); fields; try done; try clean_auto; try congruence; try lia.
  intros k. exists (S k). rewrite app_assoc, shown_app, (shown_text (a ++ [blank])) by clean_auto.
  rewrite shown_back_z by (rewrite length_app; cbn; lia). f_equal. rewrite Ea, length_app. cbn [length].
  rewrite (Nat.add_comm (length a)). cbn [Nat.add drop app]. rewrite drop_app_length. by rewrite <- app_assoc.
Qed.

Lemma backspace_edits s e : edits s e -> exists s', delete_before s = Ok s' /\ edits s' (press Backspace e).
Proof.
  intros H. pose proof H as [[r Hr] Hl Hn He Hroom Hi Hesc Cb Ca Hh Ho]. unfold delete_before. cbn [press].
  destruct (before e) as [|c b _] eqn:Eb using rev_ind.
  { rewrite (proj2 (Z.eqb_eq (num s) 0)) by done. eexists. split; [done|]. by rewrite with_text_same. }
  rewrite removelast_last. rewrite length_app in *. cbn [length] in *. rewrite (proj2 (Z.eqb_neq (num s) 0)) by lia. cbn [negb].
  apply Forall_app in Cb as [Cb Cc]. apply Forall_cons in Cc as [Cc _].
  assert (move (buf s) (num s - 1) (num s - 1 + 1) (eol_num s - num s) = Ok (b ++ after e ++ drop (length (after e)) ([c] ++ after e ++ r))) as Hm.
  { apply (move_app _ _ _ _ _ (b ++ [c]) (after e) r); [done|rewrite length_app; cbn; lia|lia|].
    rewrite Hr, <- app_assoc. apply store_at_app; [lia|cbn; rewrite length_app; lia|done]. }
  rewrite Hm. cbn [res_bind]. eexists. split; [done|].
  eapply (edits_text s _ e b (after e)); fields; try done; try clean_auto; try lia.
  - rewrite <- Hl, Hr, !length_app, length_drop, !length_app. cbn. lia.
  - intros k. exists (S k). rewrite (putnstr_text b (after e)) by first [done|lia].
    rewrite shown_app. change [CTL_BACKSPACE] with (back 1). rewrite Eb, (app_assoc prompt b [c]), shown_back_z by done.
    rewrite app_assoc, shown_app, (shown_text (after e ++ [blank])) by clean_auto.
    rewrite shown_back_z by (rewrite length_app; cbn; lia). f_equal. rewrite length_app. cbn [length].
    rewrite (Nat.add_comm (length (after e))). cbn [Nat.add drop app]. rewrite drop_app_length. by rewrite <- app_assoc.
Qed.

Definition at_pos (p : nat) (e : editor) : editor :=
  {| before := before e; after := after e; inserts := inserts e; past := past e; pos := p |}.

Lemma set_hist_edits h p s e : edits s e -> remembers h (past e) p -> edits (set_hist h s) (at_pos p e).
Proof. intros [] Hh. constructor; cbn; auto. Qed.

Lemma esc_edits s e : edits s e -> set_esc [] s = s.
Proof. intros [_ _ _ _ _ _ Hesc]. destruct s. cbn in *. by rewrite Hesc. Qed.

(** The line of the history takes the place of the text. *)
Lemma replace_edits l s e : edits s e -> clean l -> (length l <= room)%nat ->
  exists b, store_at (buf (ERASE_TO_EOL (BEGINNING_OF_LINE s))) 0 (l ++ [0]) = Ok b /\
    edits (let s := ERASE_TO_EOL (BEGINNING_OF_LINE s) in
           REFRESH_TO_EOL (set_pos (num s) (Z.of_nat (length (c_string b))) (set_buf b s))) (with_text l [] e).
Proof.
  intros H Cl Hroom. pose proof (kill_edits _ _ (home_edits _ _ H)) as Hs. set (s1 := ERASE_TO_EOL (BEGINNING_OF_LINE s)) in *.
  cbn [press with_text before] in Hs. pose proof (ed_size _ _ Hs) as Hl. pose proof (ed_num _ _ Hs) as Hn. change (num s1 = 0) in Hn.
  assert (store_at (buf s1) 0 (l ++ [0]) = Ok (l ++ 0 :: drop (length l + 1) (buf s1))) as Hb.
  { apply (store_at_app [] _ (buf s1)); [done|rewrite length_app; cbn; lia|]. by rewrite length_app, <- app_assoc. }
  eexists. split; [exact Hb|]. cbv zeta. rewrite (c_string_text l) by done. unfold REFRESH_TO_EOL. fields. rewrite Hn.
  destruct (Z.ltb_spec 0 (Z.of_nat (length l))) as [Hlt|Hge].
  - eapply (edits_text s1 _ _ l [] _ _ Hs); fields; try done; try clean_auto; try (cbn; lia).
    + rewrite <- Hl. by eapply store_at_length.
    + intros k. cbn [before after with_text app]. change (l ++ 0 :: drop (length l + 1) (buf s1)) with ([] ++ l ++ 0 :: drop (length l + 1) (buf s1)). rewrite Z.sub_0_r, (putnstr_text [] l) by done.
      rewrite app_nil_r, shown_text by done. destruct (drop_blanks (length l) [] k) as [k' Hk]. exists k'. cbn [app] in Hk. by rewrite Hk, drop_nil.
  - destruct l; [|cbn in Hge; lia].
    eapply (edits_text s1 _ _ [] [] _ [] Hs); fields; try done; try clean_auto; try (cbn; lia).
    + rewrite <- Hl. by eapply store_at_length.
    + by rewrite app_nil_r.
    + intros k. exists k. done.
Qed.

Lemma recall_edits up s e : edits s e -> exists s', recall up s = Ok s' /\ edits s' (press (if up then Up else Down) e).
Proof.
  intros H. unfold recall. rewrite (esc_edits _ _ H). pose proof (ed_hist _ _ H) as Hh. pose proof (rm_past _ _ _ Hh) as Hpast.
  assert (forall p l h, remembers h (past e) p -> clean l -> (length l <= room)%nat ->
    exists s', (let s0 := ERASE_TO_EOL (BEGINNING_OF_LINE (set_hist h s)) in
      let* b := store_at (buf s0) 0 (l ++ [0]) in
      Ok (REFRESH_TO_EOL (set_pos (num s0) (Z.of_nat (length (c_string b))) (set_buf b s0)))) = Ok s' /\ edits s' (looks_at p l e)) as Hgo.
  { intros p l h Hr Cl Hl. destruct (replace_edits l _ _ (set_hist_edits h p s e H Hr) Cl Hl) as (b & Hb & Hs). cbv zeta. rewrite Hb. by eexists. }
  assert (set_hist (hist s) s = s) as Hsame by (by destruct s).
  assert (forall p l, past e !! p = Some l -> clean l /\ (length l <= room)%nat) as Hin by (intros p l Hp; exact (Forall_lookup_1 _ _ _ _ Hpast Hp)).
  destruct up; cbn [press].
  - pose proof (hist_prev_ok _ _ _ Hh) as Hp. destruct (take reach (past e) !! pos e) as [l|] eqn:El; rewrite Hp; cbn [res_bind].
    + pose proof (lookup_lt_Some _ _ _ El) as Hlt. rewrite length_take in Hlt. apply lookup_take_Some in El as [El _].
      destruct (Hin _ _ El) as [Cl Hl]. apply Hgo; [apply (set_cur_remembers _ _ (pos e)); [done|lia]|done..].
    + rewrite Hsame. eexists. split; [done|]. by apply beep_edits.
  - pose proof (hist_next_ok _ _ _ Hh) as Hp. pose proof (rm_pos _ _ _ Hh) as Hle. destruct (pos e) as [|[|p]] eqn:Ep; rewrite Hp; cbn [res_bind].
    + rewrite Hsame. eexists. split; [done|]. by apply beep_edits.
    + apply Hgo; [apply (set_cur_remembers _ _ 1%nat); [done|lia]|constructor|cbn; lia].
    + destruct (past e !! p) as [l|] eqn:El; [|apply lookup_ge_None in El; lia]. cbn [default from_option].
      destruct (Hin _ _ El) as [Cl Hl]. apply Hgo; [apply (set_cur_remembers _ _ (S (S p))); [done|lia]|done..].
Qed.

Lemma toggle_edits s e : edits s e -> edits (set_insert (negb (insert s)) s) (press Toggle e).
Proof. intros []. constructor; cbn; auto. by f_equal. Qed.

(** ** A key, whatever its code *)

Lemma char_key c s : printable c = true -> 
  command_key table (Some prompt) CONFIG_SYS_CBSIZE c s = let* s := cread_add_char c (insert s) CONFIG_SYS_CBSIZE s in Ok (More s).
Proof.
  unfold printable. rewrite andb_true_iff, Z.leb_le, Z.ltb_lt. intros Hc. unfold command_key, CTL_CH, ESC, DEL, DEL7, TAB.
  rewrite !(proj2 (Z.eqb_neq c _)) by lia. done.
Qed.

(** The key a control character stands for. *)
Definition key_of (c : Z) : option key :=
  if printable c then Some (Char c)
  else if c =? 2 then Some Left else if c =? 6 then Some Right else if c =? 1 then Some Home else if c =? 5 then Some End_
  else if c =? 4 then Some Delete else if (c =? 8) || (c =? 127) || (c =? 255) then Some Backspace
  else if c =? 11 then Some KillEnd else if (c =? 24) || (c =? 21) then Some KillLine else if c =? 15 then Some Toggle
  else if c =? 16 then Some Up else if c =? 14 then Some Down else None.

Lemma command_key_edits c k s e : key_of c = Some k -> edits s e ->
  exists s', command_key table (Some prompt) CONFIG_SYS_CBSIZE c s = Ok (More s') /\ edits s' (press k e).
Proof.
  intros Hk H. unfold key_of in Hk. destruct (printable c) eqn:Hc.
  { simplify_eq. destruct (char_edits c s e Hc H) as (s' & Hs & He). exists s'. by rewrite char_key, Hs. }
  repeat (case_match; simplify_eq);
    repeat match goal with Hx : (_ || _) = true |- _ => apply orb_true_iff in Hx as [Hx|Hx] | Hx : (_ =? _) = true |- _ => apply Z.eqb_eq in Hx as -> end.
  all: unfold command_key; simpl Z.eqb; cbv iota; cbn [orb].
  - eexists. split; [done|]. by apply left_edits.
  - destruct (Z.ltb_spec (num s) (eol_num s)) as [Hlt|Hge].
    + destruct (right_edits s e H Hlt) as (x & -> & Hx). by eexists.
    + eexists. split; [done|]. cbn [press]. pose proof (ed_num _ _ H). pose proof (ed_eol _ _ H). destruct (after e); [done|cbn in *; lia].
  - eexists. split; [done|]. by apply home_edits.
  - eexists. split; [done|]. by apply end_edits.
  - destruct (delete_edits s e H) as (s' & -> & Hs). by eexists.
  - destruct (backspace_edits s e H) as (s' & -> & Hs). by eexists.
  - destruct (backspace_edits s e H) as (s' & -> & Hs). by eexists.
  - destruct (backspace_edits s e H) as (s' & -> & Hs). by eexists.
  - eexists. split; [done|]. by apply kill_edits.
  - eexists. split; [done|]. apply (kill_edits _ _ (home_edits _ _ H)).
  - eexists. split; [done|]. apply (kill_edits _ _ (home_edits _ _ H)).
  - eexists. split; [done|]. by apply toggle_edits.
  - destruct (recall_edits true s e H) as (s' & -> & Hs). by eexists.
  - destruct (recall_edits false s e H) as (s' & -> & Hs). by eexists.
Qed.

Lemma codes_key k cs : cs ∈ codes k ->
  (exists c, cs = [c] /\ key_of c = Some k) \/ (exists c c', cs = [ESC; 0x5B; c] /\ esc_code c = Some c' /\ key_of c' = Some k).
Proof.
  destruct k; cbn [codes]; try (destruct (printable c) eqn:Hc; [|by intros ?%not_elem_of_nil]);
    rewrite ?elem_of_cons, elem_of_nil; intros H; repeat destruct H as [H|H]; try done; subst cs;
    first [ right; do 2 eexists; done | left; eexists; split; [done|]; unfold key_of; by rewrite ?Hc ].
Qed.

Lemma key_of_not_end c k : key_of c = Some k -> (c =? newline) || (c =? CR) = false.
Proof.
  intros H. unfold newline, CR. apply orb_false_iff. rewrite !Z.eqb_neq. split; intros ->; done.
Qed.

Lemma key_loop cs k s e first timeout etime evs : edits s e -> cs ∈ codes k ->
  exists s', cread_loop table (Some prompt) CONFIG_SYS_CBSIZE first timeout etime (map Key cs ++ evs) s =
             cread_loop table (Some prompt) CONFIG_SYS_CBSIZE false timeout etime evs s' /\ edits s' (press k e).
Proof.
  intros H Hcs. destruct (codes_key _ _ Hcs) as [(c & -> & Hc)|(c & c' & -> & Hesc & Hc)].
  - destruct (command_key_edits c k s e Hc H) as (s' & Hs & He). exists s'. split; [|done]. cbn [map app cread_loop].
    unfold cread_key. by rewrite (key_of_not_end _ _ Hc), (ed_esc _ _ H), Hs.
  - assert ((c =? newline) || (c =? CR) = false) as Hn.
    { unfold newline, CR, esc_code in *. apply orb_false_iff. rewrite !Z.eqb_neq. split; intros ->; done. }
    destruct (command_key_edits c' k s e Hc H) as (s' & Hs & He). exists s'. split; [|done].
    cbn [map app cread_loop]. unfold cread_key at 1. rewrite (ed_esc _ _ H). cbn [Z.eqb Pos.eqb ESC newline CR orb].
    unfold command_key at 1. cbn [Z.eqb Pos.eqb ESC]. rewrite (ed_esc _ _ H). cbn [res_bind].
    unfold cread_key at 1. cbn [esc set_esc Z.eqb Pos.eqb newline CR orb res_bind].
    unfold cread_key. rewrite Hn. cbn [esc set_esc]. rewrite Hesc.
    replace (set_esc [] (set_esc [ESC; 91] (set_esc [ESC] s))) with s; [by rewrite Hs|].
    pose proof (ed_esc _ _ H). destruct s. cbn in *. by subst.
Qed.

Definition typed_as (x : key * list Z) : Prop := snd x ∈ codes (fst x).

Lemma keys_loop ks : forall s e first timeout etime evs, edits s e -> Forall typed_as ks ->
  exists s' first', cread_loop table (Some prompt) CONFIG_SYS_CBSIZE first timeout etime (map Key (concat (map snd ks)) ++ evs) s =
             cread_loop table (Some prompt) CONFIG_SYS_CBSIZE first' timeout etime evs s' /\ edits s' (presses (map fst ks) e).
Proof.
  induction ks as [|[k cs] ks IH]; intros s e first timeout etime evs H Hk; [by exists s, first|].
  apply Forall_cons in Hk as [Hc Hk]. cbn [map concat fst snd]. rewrite map_app, <- app_assoc.
  destruct (key_loop cs k s e first timeout etime (map Key (concat (map snd ks)) ++ evs) H Hc) as (s1 & -> & H1).
  exact (IH s1 _ false timeout etime evs H1 Hk).
Qed.

Lemma presses_past ks e : past (presses ks e) = past e.
Proof.
  revert e. induction ks as [|k ks IH]; intros e; [done|]. cbn [presses fold_left]. fold (presses ks (press k e)). rewrite IH.
  destruct k; cbn [press with_text]; repeat case_match; done.
Qed.

(** ** Reading lines *)

(** The lines that are read one after the other, each with what was printed. *)
Fixpoint session (now tbclk : Z) (n : nat) (evs : list event) (w : console_state) : res (list (Z * list Z * list Z)) :=
  match n with
  | O => Ok []
  | S n =>
    let* (rc, b, t, w, evs) := readline table now tbclk (Some prompt) evs w in
    let* rs := session now tbclk n evs w in Ok ((rc, b, t) :: rs)
  end.

(** A line as it is typed: keys with their codes, and whether it is entered or left by ^C. *)
Definition entry : Type := list (key * list Z) * bool.
Definition entry_bytes (en : entry) : list Z := concat (map snd (fst en)) ++ [if snd en then CR else 3].

Fixpoint lines_read (entries : list entry) (past : list (list Z)) (p : nat) : list (Z * list Z * editor) :=
  match entries with
  | [] => []
  | (ks, enter) :: entries =>
    let e := presses (map fst ks) (new_line past p) in
    if enter : bool then (Z.of_nat (length (text e)), text e, e) :: lines_read entries (keep_line (text e) past) 0
    else (-1, [], e) :: lines_read entries past (pos e)
  end.

(** The result, the string in the buffer, and the line the terminal shows. *)
Definition agrees (r : Z * list Z * list Z) (x : Z * list Z * editor) : Prop :=
  let '(rc, b, t) := r in let '(rc', l, e) := x in
  rc = rc' /\ c_string b = l /\ exists k, shown t ([], []) = (prompt ++ before e, after e ++ replicate k blank).

Record ready (w : console_state) (past : list (list Z)) (p : nat) : Prop := {
  rd_reloc : tst (flags w) GD_FLG_RELOC = true;
  rd_size : length (console_buffer w) = S room;
  rd_hist : remembers (if initted w then lines w else hist_init) past p
}.

Lemma new_line_edits b h past p : length b = S room -> remembers h past p ->
  edits {| buf := b; num := 0; eol_num := 0; insert := true; esc := []; hist := h; out := [] |} (new_line past p).
Proof.
  intros Hb Hh. constructor; cbn; auto; try constructor; try lia; [by exists b|]. exists 0%nat. by rewrite !app_nil_r.
Qed.

Lemma last_bytes_eq s e : edits s e -> exists b, store_at (buf s) (eol_num s) [0] = Ok b /\ c_string b = text e /\ length b = S room.
Proof.
  intros H. destruct (edits_spare s e H) as (x & r & Hb). pose proof (ed_eol _ _ H) as He. unfold text.
  assert (store_at (buf s) (eol_num s) [0] = Ok ((before e ++ after e) ++ 0 :: r)) as Hs.
  { rewrite Hb, app_assoc. apply (store_at_app _ _ (x :: r)); [rewrite length_app; lia|cbn; lia|done]. }
  eexists. split; [exact Hs|]. split; [|by rewrite (store_at_length _ _ _ _ Hs), (ed_size _ _ H)].
  apply c_string_text, Forall_app_2; [apply (ed_before _ _ H)|apply (ed_after _ _ H)].
Qed.

Lemma shown_prompt t : clean prompt -> shown (prompt ++ t) ([], []) = shown t (prompt, []).
Proof. intros H. rewrite shown_app, shown_text by done. by rewrite drop_nil. Qed.

(** After the line has been entered. *)
Lemma entered_remembers s e : edits s e ->
  exists h, (match text e with [] => Ok (hist s) | c :: _ => if negb (c =? CREAD_HIST_CHAR) then cread_add_to_hist (text e) (hist s) else Ok (hist s) end) = Ok h /\
    remembers (set_cur h (hist_add_idx h)) (keep_line (text e) (past e)) 0.
Proof.
  intros H. pose proof (ed_hist _ _ H) as Hh.
  assert (remembers (set_cur (hist s) (hist_add_idx (hist s))) (past e) 0) as Hsame.
  { rewrite (rm_add _ _ _ Hh). apply (set_cur_remembers _ _ (pos e)); [done|lia]. }
  assert (clean (text e)) as Ct by (apply Forall_app_2; [apply (ed_before _ _ H)|apply (ed_after _ _ H)]).
  assert (length (text e) <= room)%nat as Hl by (unfold text; rewrite length_app; apply (ed_room _ _ H)).
  unfold keep_line. destruct (text e) as [|c t] eqn:Et; [by eexists|]. destruct (c =? CREAD_HIST_CHAR); [by eexists|].
  by apply (add_to_hist_ok _ _ (pos e)).
Qed.

Lemma readline_ready now tbclk ks enter evs w hs p : clean prompt -> ready w hs p -> Forall typed_as ks ->
  let e := presses (map fst ks) (new_line hs p) in
  exists rc b t w', readline table now tbclk (Some prompt) (map Key (entry_bytes (ks, enter)) ++ evs) w = Ok (rc, b, t, w', evs) /\
    agrees (rc, b, t) (if enter then (Z.of_nat (length (text e)), text e, e) else (-1, [], e)) /\
    ready w' (if enter then keep_line (text e) hs else hs) (if enter then 0 else pos e).
Proof.
  intros Hp [Hf Hb Hh] Hks e. unfold readline, readline_into_buffer.
  destruct (console_buffer w) as [|x cb] eqn:Ec; [done|].
  rewrite (store_at_app [] (0 :: cb) (x :: cb)) by first [done|cbn; lia]. cbn [res_bind flags initted lines console_buffer]. rewrite Hf.
  unfold cread_line. cbn [c_string Z.eqb length cread_add_own res_bind].
  set (h := if initted w then lines w else hist_init) in *.
  pose proof (new_line_edits (0 :: cb) h hs p Hb Hh) as H0. unfold entry_bytes. cbn [fst snd]. rewrite map_app, <- app_assoc.
  destruct (keys_loop ks _ _ true 0 (u64 (now + 0 * tbclk)) (map Key [if enter then CR else 3] ++ evs) H0 Hks) as (s & first & -> & Hs).
  fold e in Hs. assert (past e = hs) as Hpast by (subst e; by rewrite presses_past). cbn [map app cread_loop]. unfold cread_key.
  destruct (ed_out _ _ Hs) as [k Hk]. destruct enter; cbn [Z.eqb Pos.eqb CR newline orb res_bind].
  - fields. destruct (last_bytes_eq s e Hs) as (b & -> & Hcs & Hbl). cbn [res_bind]. rewrite Hcs. fields.
    destruct (entered_remembers s e Hs) as (h' & -> & Hr). cbn [res_bind Z.ltb Z.compare]. rewrite Hpast in Hr. do 4 eexists. split; [done|]. split.
    + split; [fields; rewrite (ed_eol _ _ Hs); unfold text; rewrite length_app; lia|]. split; [done|]. exists k. fields.
      rewrite shown_prompt, shown_app, Hk by done. done.
    + constructor; fields; done.
  - rewrite (ed_esc _ _ Hs). cbn [res_bind command_key Z.eqb Pos.eqb ESC CTL_CH]. unfold command_key. cbn [Z.eqb Pos.eqb ESC CTL_CH Z.sub Z.add Z.opp Pos.sub Z.pos_sub Pos.pred_double].
    destruct (edits_spare s e Hs) as (y & r & Hbuf). pose proof (ed_size _ _ Hs) as Hsz. destruct (buf s) as [|z bs] eqn:Ez; [done|].
    rewrite (store_at_app [] (0 :: bs) (z :: bs)) by first [done|cbn; lia]. cbn [res_bind Z.ltb Z.compare]. do 4 eexists. split; [done|]. split.
    + split; [done|]. split; [done|]. exists k. fields. by rewrite shown_prompt.
    + constructor; fields; [done..|]. rewrite <- Hpast. apply (ed_hist _ _ Hs).
Qed.
End Simulation.

(** C7: the command line refines a text with a cursor.  From power-on, lines are typed one after the other, with the keys
    and all their codes, and each is entered or left by ^C.  Then every line returned is that of the specification: the
    keys move in and change the text up to 256 characters, Up and Down walk through the last 19 lines that were
    entered; its length, or -1 for ^C, is returned; and the terminal shows the prompt, the text and at most blanks
    behind it, with the cursor in the right place, although the code only prints characters and backspaces. *)
Theorem readline_session {W} (table : list (cmd_tbl W)) prompt now tbclk entries w :
  clean prompt -> tst (flags w) GD_FLG_RELOC = true -> initted w = false -> length (console_buffer w) = S room ->
  Forall (fun en : entry => Forall typed_as (fst en)) entries ->
  exists rs, session table prompt now tbclk (length entries) (map Key (concat (map entry_bytes entries))) w = Ok rs /\
    Forall2 (agrees prompt) rs (lines_read entries [] 0).
Proof.
  intros Hp Hf Hi Hb. assert (ready w [] 0) as Hr by (constructor; [done..|rewrite Hi; apply hist_init_remembers]).
  clear Hf Hi Hb. revert w Hr. generalize (@nil (list Z)), 0%nat.
  induction entries as [|[ks enter] entries IH]; intros hs p w Hr Hks; [by exists []|].
  apply Forall_cons in Hks as [Hk Hks]. cbn [map concat length session lines_read]. rewrite map_app.
  destruct (readline_ready table prompt now tbclk ks enter (map Key (concat (map entry_bytes entries))) w hs p Hp Hr Hk) as (rc & b & t & w' & -> & Ha & Hr').
  cbn [res_bind]. destruct (IH _ _ w' Hr' Hks) as (rs & -> & Hrs). eexists. split; [done|]. destruct enter; by constructor.
Qed.

(** Three lines: one corrected with the cursor keys, one interrupted, and the first one recalled. *)
Definition demo : list entry :=
  [ ([(Char 0x61, [0x61]); (Char 0x62, [0x62]); (Left, [ESC; 0x5B; 0x44]); (Char 0x63, [0x63]); (Backspace, [127])], true);
    ([(Up, [16]); (Home, [1])], false); ([(Char 0x7A, [0x7A]); (Down, [14]); (Up, [ESC; 0x5B; 0x41])], true) ].
Definition console0 : console_state :=
  {| flags := GD_FLG_RELOC; initted := false; lines := hist_init; console_buffer := replicate 257 0x55 |}.

Lemma readline_session_witness : exists rs, session (W:=unit) [] CONFIG_SYS_PROMPT 0 1 3 (map Key (concat (map entry_bytes demo))) console0 = Ok rs /\
  Forall2 (agrees CONFIG_SYS_PROMPT) rs (lines_read demo [] 0).
Proof.
  apply (readline_session [] CONFIG_SYS_PROMPT 0 1 demo console0); [|reflexivity..|].
  - apply (bool_decide_unpack _). vm_compute. exact I.
  - apply (bool_decide_unpack _). vm_compute. exact I.
Defined.

(** ** Any input *)

Record tidy (h : history) : Prop := {
  td_len : length (hist_list h) = 20%nat;
  td_add : 0 <= hist_add_idx h < 20;
  td_max : 0 <= hist_max h < 20;
  td_cur : -1 <= hist_cur h < 20;
  td_lines : Forall (fun l => (length l <= room)%nat) (hist_list h)
}.
Record sane (s : line) : Prop := {
  sn_size : length (buf s) = S room;
  sn_num : 0 <= num s <= eol_num s;
  sn_eol : eol_num s <= 256;
  sn_hist : tidy (hist s)
}.

Lemma store_at_ok b i t : 0 <= i -> i + Z.of_nat (length t) <= Z.of_nat (length b) -> exists b', store_at b i t = Ok b' /\ length b' = length b.
Proof.
  intros Hi Ht. unfold store_at. rewrite (proj2 (Z.ltb_ge i 0)) by lia. unfold store_block. rewrite decide_True by lia.
  eexists. split; [done|]. apply length_inserts.
Qed.
Lemma move_ok b dst src n : 0 <= dst -> 0 <= src -> 0 <= n -> dst + n <= Z.of_nat (length b) -> src + n <= Z.of_nat (length b) ->
  exists b', move b dst src n = Ok b' /\ length b' = length b.
Proof.
  intros Hd Hs Hn Hdn Hsn. unfold move.
  replace (_ || _ || _) with false by (symmetry; rewrite !orb_false_iff, !Z.ltb_ge; lia).
  apply store_at_ok; [done|]. rewrite length_take, length_drop. lia.
Qed.

Lemma c_string_length b : (length (c_string b) <= length b)%nat.
Proof. induction b as [|c b IH]; [done|]. cbn. case_if; cbn; lia. Qed.
Lemma c_string_stored (l r : list Z) : (length (c_string (l ++ 0%Z :: r)) <= length l)%nat.
Proof. induction l as [|c l IH]; [done|]. cbn [app c_string]. case_if; cbn; lia. Qed.

Lemma tidy_line h i : tidy h -> 0 <= i < 20 -> exists l, hist_line h i = Ok l /\ (length l <= room)%nat.
Proof.
  intros [Hl _ _ _ Hf] Hi. unfold hist_line. rewrite (proj2 (Z.ltb_ge i 0)) by lia.
  destruct (lookup_lt_is_Some_2 (hist_list h) (Z.to_nat i)) as [l El]; [lia|]. rewrite El. exists l. split; [done|]. by eapply Forall_lookup_1 in Hf.
Qed.
Lemma tidy_set_cur h c : tidy h -> -1 <= c < 20 -> tidy (set_cur h c).
Proof. intros [] Hc. by constructor. Qed.

Lemma hist_prev_tidy h : tidy h -> exists l h', hist_prev h = Ok (l, h') /\ tidy h' /\ (length (default [] l) <= room)%nat.
Proof.
  intros H. pose proof (td_cur _ H). pose proof (td_max _ H). unfold hist_prev.
  destruct (Z.ltb_spec (hist_cur h) 0); [by exists None, h; split; [|split; [|cbn; lia]]|].
  set (cur := if hist_cur h - 1 <? 0 then hist_max h else hist_cur h - 1).
  assert (0 <= cur < 20) as Hc by (subst cur; destruct (Z.ltb_spec (hist_cur h - 1) 0); lia).
  cbv zeta. fold cur. destruct (cur =? hist_add_idx h); [by exists None, h; split; [|split; [|cbn; lia]]|].
  destruct (tidy_line h cur H Hc) as (l & -> & Hl). do 2 eexists. split; [done|]. split; [apply tidy_set_cur; [done|lia]|done].
Qed.
Lemma hist_next_tidy h : tidy h -> exists l h', hist_next h = Ok (l, h') /\ tidy h' /\ (length (default [] l) <= room)%nat.
Proof.
  intros H. pose proof (td_cur _ H). pose proof (td_max _ H). unfold hist_next.
  destruct (Z.ltb_spec (hist_cur h) 0); [by exists None, h; split; [|split; [|cbn; lia]]|].
  destruct (hist_cur h =? hist_add_idx h); [by exists None, h; split; [|split; [|cbn; lia]]|].
  set (cur := if hist_max h <? hist_cur h + 1 then 0 else hist_cur h + 1).
  assert (0 <= cur < 20) as Hc by (subst cur; destruct (Z.ltb_spec (hist_max h) (hist_cur h + 1)); lia).
  cbv zeta. fold cur. destruct (cur =? hist_add_idx h).
  { do 2 eexists. split; [done|]. split; [apply tidy_set_cur; [done|lia]|cbn; lia]. }
  destruct (tidy_line h cur H Hc) as (l & -> & Hl). do 2 eexists. split; [done|]. split; [apply tidy_set_cur; [done|lia]|done].
Qed.
Lemma add_to_hist_tidy l h : tidy h -> (length l <= room)%nat -> exists h', cread_add_to_hist l h = Ok h' /\ tidy (set_cur h' (hist_add_idx h')).
Proof.
  intros H Hl. pose proof (td_add _ H) as Ha. pose proof (td_max _ H) as Hm. unfold cread_add_to_hist.
  destruct (tidy_line h _ H Ha) as (x & -> & _). cbn [res_bind]. rewrite (proj2 (Z.ltb_ge HIST_SIZE _)) by (unfold HIST_SIZE, CONFIG_SYS_CBSIZE, room in *; lia).
  set (add := if HIST_MAX <=? hist_add_idx h + 1 then 0 else hist_add_idx h + 1).
  assert (0 <= add < 20) as Hadd by (subst add; unfold HIST_MAX; destruct (Z.leb_spec 20 (hist_add_idx h + 1)); lia).
  eexists. split; [done|]. constructor; cbn; fold add; try lia.
  - by rewrite length_insert, (td_len _ H).
  - destruct (Z.ltb_spec (hist_max h) add); lia.
  - apply Forall_insert; [apply (td_lines _ H)|done].
Qed.

Lemma add_char_sane c ins s : sane s -> exists s', cread_add_char c ins CONFIG_SYS_CBSIZE s = Ok s' /\ sane s'.
Proof.
  intros [Hl Hn He Hh]. unfold cread_add_char. change (u32 (CONFIG_SYS_CBSIZE - 1)) with 255. unfold room in *.
  destruct (ins || (num s =? eol_num s)) eqn:Eg; cbn [andb].
  - destruct (Z.ltb_spec 255 (eol_num s)); [eexists; split; [done|by constructor]|]. destruct ins.
    + assert (exists b, (if 1 <? eol_num s + 1 - num s then move (buf s) (num s + 1) (num s) (eol_num s + 1 - num s - 1) else Ok (buf s)) = Ok b /\ length b = length (buf s)) as (b & -> & Hb).
      { destruct (1 <? eol_num s + 1 - num s); [apply move_ok; lia|by eexists]. }
      cbn [res_bind]. destruct (store_at_ok b (num s) [c]) as (b' & -> & Hb'); [lia|cbn; lia|]. eexists. split; [done|]. constructor; cbn; try done; unfold room; lia.
    + destruct (store_at_ok (buf s) (num s) [c]) as (b' & -> & Hb'); [lia|cbn; lia|]. eexists. split; [done|]. constructor; cbn; try done; unfold room; lia.
  - apply orb_false_iff in Eg as [-> Eg]. apply Z.eqb_neq in Eg.
    destruct (store_at_ok (buf s) (num s) [c]) as (b' & -> & Hb'); [lia|cbn; lia|]. eexists. split; [done|]. constructor; cbn; try done; unfold room; lia.
Qed.
Lemma add_str_sane t ins : forall s, sane s -> exists s', cread_add_str t ins CONFIG_SYS_CBSIZE s = Ok s' /\ sane s'.
Proof.
  induction t as [|c t IH]; intros s H; [by eexists|]. cbn [cread_add_str]. destruct (add_char_sane c ins s H) as (s' & -> & Hs). by apply IH.
Qed.

Lemma home_sane s : sane s -> sane (BEGINNING_OF_LINE s).
Proof. intros []. constructor; cbn; try done; lia. Qed.
Lemma erase_sane s : sane s -> sane (ERASE_TO_EOL s).
Proof. intros []. unfold ERASE_TO_EOL. destruct (num s <? eol_num s); constructor; cbn; try done; lia. Qed.
Lemma refresh_sane s : sane s -> sane (REFRESH_TO_EOL s).
Proof. intros []. unfold REFRESH_TO_EOL. destruct (num s <? eol_num s); constructor; cbn; try done; lia. Qed.

Lemma delete_sane s : sane s -> exists s', delete_here s = Ok s' /\ sane s'.
Proof.
  intros [Hl Hn He Hh]. unfold delete_here. unfold room in *. destruct (Z.ltb_spec (num s) (eol_num s)); [|eexists; split; [done|by constructor]].
  destruct (eol_num s - num s - 1 =? 0); cbn [negb res_bind].
  - eexists. split; [done|]. constructor; cbn; try done; lia.
  - destruct (move_ok (buf s) (num s) (num s + 1) (eol_num s - num s - 1)) as (b & -> & Hb); [lia..|].
    eexists. split; [done|]. constructor; cbn; try done; unfold room; lia.
Qed.
Lemma backspace_sane s : sane s -> exists s', delete_before s = Ok s' /\ sane s'.
Proof.
  intros [Hl Hn He Hh]. unfold delete_before. unfold room in *. destruct (Z.eqb_spec (num s) 0); cbn [negb]; [eexists; split; [done|by constructor]|].
  destruct (move_ok (buf s) (num s - 1) (num s - 1 + 1) (eol_num s - num s)) as (b & -> & Hb); [lia..|].
  eexists. split; [done|]. constructor; cbn; try done; unfold room; lia.
Qed.
Lemma recall_sane up s : sane s -> exists s', recall up s = Ok s' /\ sane s'.
Proof.
  intros H. pose proof (sn_hist _ H) as Hh. unfold recall.
  assert (exists l h', (if up then hist_prev (hist (set_esc [] s)) else hist_next (hist (set_esc [] s))) = Ok (l, h') /\ tidy h' /\ (length (default [] l) <= room)%nat)
    as (l & h' & -> & Hh' & Hl) by (destruct up; [by apply hist_prev_tidy|by apply hist_next_tidy]).
  assert (sane (set_hist h' (set_esc [] s))) as H1 by (destruct H; by constructor). cbn [res_bind].
  destruct l as [l|]; [|eexists; split; [done|by destruct H1; constructor]]. change (length l <= room)%nat in Hl.
  pose proof (erase_sane _ (home_sane _ H1)) as H2. set (s2 := ERASE_TO_EOL _) in *. pose proof (sn_size _ H2) as Hs.
  assert (store_at (buf s2) 0 (l ++ [0]) = Ok (l ++ 0 :: drop (length l + 1) (buf s2))) as Hb.
  { apply (store_at_app [] _ (buf s2)); [done|rewrite length_app; cbn [length]; lia|]. by rewrite length_app, <- app_assoc. }
  assert (num s2 = 0) as Hz by (subst s2; unfold ERASE_TO_EOL; by case_if).
  rewrite Hb. eexists. split; [done|]. apply refresh_sane. pose proof (c_string_stored l (drop (length l + 1) (buf s2))). unfold room in *.
  constructor; cbn [buf num eol_num hist set_pos set_buf]; [by rewrite (store_at_length _ _ _ _ Hb)|lia|lia|apply (sn_hist _ H2)].
Qed.

Section Safety.
Context {W : Type} (table : list (cmd_tbl W)) (prompt : list Z).

(** A completion that is not offered changes nothing. *)
Definition no_completion : Prop := streq prompt CONFIG_SYS_PROMPT = false.

Lemma complete_sane s : no_completion -> sane s -> exists s', auto_complete table (Some prompt) s = Ok s' /\ sane s'.
Proof.
  intros Hp [Hl Hn He Hh]. unfold auto_complete. unfold room in *. destruct (Z.ltb_spec (num s) (eol_num s)); [eexists; split; [done|by constructor]|].
  destruct (store_at_ok (buf s) (num s) [0]) as (b & -> & Hb); [lia|cbn; lia|]. cbn [res_bind res_of_option].
  unfold cmd_auto_complete. rewrite Hp. eexists. split; [done|]. constructor; cbn; try done; unfold room; lia.
Qed.

Definition goes_on (p : progress) : Prop :=
  match p with More s | Entered s | Interrupted s => sane s end.

Lemma more_ok (m : res line) : (exists s', m = Ok s' /\ sane s') -> exists p, (let* s := m in Ok (More s)) = Ok p /\ goes_on p.
Proof. intros (s' & -> & Hs). by eexists. Qed.

Lemma command_key_sane c s : no_completion \/ c <> TAB -> sane s ->
  exists p, command_key table (Some prompt) CONFIG_SYS_CBSIZE c s = Ok p /\ goes_on p.
Proof.
  intros Hc H. pose proof H as [Hl Hn He Hh]. unfold command_key, room in *.
  repeat match goal with |- context [if ?b then _ else _] => lazymatch b with context [num] => fail | _ => destruct b eqn:? end end;
    first [ apply more_ok; first [by apply delete_sane | by apply backspace_sane | by apply recall_sane | by apply add_char_sane | idtac ]
          | by eexists; split; [done|]; first [ by apply home_sane | by apply erase_sane | by apply refresh_sane | by apply erase_sane, home_sane ]
          | idtac ].
  - eexists. split; [done|by constructor].
  - eexists. split; [done|by constructor].
  - destruct (store_at_ok (buf s) 0 [0]) as (b & -> & Hb); [lia|cbn; lia|]. eexists. split; [done|]. constructor; cbn; try done; unfold room; lia.
  - destruct (Z.ltb_spec (num s) (eol_num s)); [|by eexists].
    destruct (lookup_lt_is_Some_2 (buf s) (Z.to_nat (num s))) as [x ->]; [lia|]. eexists. split; [done|]. constructor; cbn; try done; unfold room; lia.
  - eexists. split; [done|]. destruct (Z.eqb_spec (num s) 0); [done|]. constructor; cbn; try done; unfold room; lia.
  - eexists. split; [done|]. by constructor.
  - apply complete_sane; [|done]. destruct Hc as [?|Hc]; [done|]. exfalso. apply Hc. by apply Z.eqb_eq.
Qed.

Lemma esc_code_not_tab c c' : esc_code c = Some c' -> c' <> TAB.
Proof. unfold esc_code. repeat case_if; intros; simplify_eq; done. Qed.

Lemma cread_key_sane c s : no_completion \/ c <> TAB -> sane s ->
  exists p, cread_key table (Some prompt) CONFIG_SYS_CBSIZE c s = Ok p /\ goes_on p.
Proof.
  intros Hc H. assert (forall l, sane (set_esc l s)) as Hesc by (intros l; destruct H; by constructor).
  assert (forall t ins, exists p, (let* s := cread_add_str t ins CONFIG_SYS_CBSIZE s in Ok (More (set_esc [] s))) = Ok p /\ goes_on p) as Hadd.
  { intros t ins. destruct (add_str_sane t ins s H) as (s' & -> & []). eexists. split; [done|]. by constructor. }
  unfold cread_key. destruct ((c =? newline) || (c =? CR)); [eexists; split; [done|by destruct H; constructor]|].
  destruct (esc s) as [|e [|e' es]]; [by apply command_key_sane|destruct (c =? 0x5B); [eexists; split; [done|apply Hesc]|apply Hadd]|].
  destruct (esc_code c) as [c'|] eqn:Ec; [|apply Hadd]. apply command_key_sane; [right; by eapply esc_code_not_tab|done].
Qed.

(** The loop ends with a line in the buffer, or waits for more. *)
Definition safe_line (r : res (Z * line * list event)) : Prop :=
  match r with Ok (_, s, _) => sane s | Hang => True | Ub => False end.

Lemma cread_loop_safe evs : forall first timeout etime s, no_completion \/ Key TAB ∉ evs -> sane s ->
  safe_line (cread_loop table (Some prompt) CONFIG_SYS_CBSIZE first timeout etime evs s).
Proof.
  induction evs as [|[c|t] evs IH]; intros first timeout etime s Ht H; [done| |].
  - cbn [cread_loop]. assert (no_completion \/ c <> TAB) as Hc by (destruct Ht as [?|Ht]; [by left|right; intros ->; apply Ht; left]).
    assert (no_completion \/ Key TAB ∉ evs) as Ht' by (destruct Ht as [?|Ht]; [by left|right; by apply not_elem_of_cons in Ht as [_ ?]]).
    destruct (cread_key_sane c s Hc H) as (p & -> & Hp). cbn [res_bind]. destruct p as [s'|s'|s']; [by apply IH| |done].
    pose proof Hp as [Hl Hn He Hh]. unfold room in *. destruct (store_at_ok (buf s') (eol_num s') [0]) as (b & Hb & Hbl); [lia|cbn; lia|]. rewrite Hb. cbn [res_bind].
    assert (length (c_string b) <= room)%nat as Hcs.
    { unfold room. unfold store_at in Hb. rewrite (proj2 (Z.ltb_ge (eol_num s') 0)) in Hb by lia. unfold store_block in Hb. rewrite decide_True in Hb by (cbn; lia).
      injection Hb as <-. cbn [list_inserts]. rewrite (insert_take_drop (buf s') (Z.to_nat (eol_num s')) 0) by lia.
      pose proof (c_string_stored (take (Z.to_nat (eol_num s')) (buf s')) (drop (S (Z.to_nat (eol_num s'))) (buf s'))). rewrite length_take in *. lia. }
    assert (exists h, (match c_string b with [] => Ok (hist (set_buf b s')) | c :: _ => if negb (c =? CREAD_HIST_CHAR) then cread_add_to_hist (c_string b) (hist (set_buf b s')) else Ok (hist (set_buf b s')) end) = Ok h /\
      tidy (set_cur h (hist_add_idx h))) as (h & -> & Hh').
    { assert (tidy (set_cur (hist s') (hist_add_idx (hist s')))) as Hsame by (apply tidy_set_cur; [done|pose proof (td_add _ Hh); lia]).
      destruct (c_string b) as [|x t] eqn:Et; [by eexists|]. destruct (x =? CREAD_HIST_CHAR); [by eexists|]. by apply add_to_hist_tidy. }
    cbn [res_bind safe_line]. constructor; cbn; try done; unfold room; lia.
  - cbn [cread_loop]. destruct (first && negb (timeout =? 0) && (etime <=? t)); [done|]. apply IH; [|done].
    destruct Ht as [?|Ht]; [by left|right; by apply not_elem_of_cons in Ht as [_ ?]].
Qed.
End Safety.

Lemma cread_loop_rc {W} (table : list (cmd_tbl W)) p len evs : forall first timeout etime s rc s' evs',
  cread_loop table p len first timeout etime evs s = Ok (rc, s', evs') -> -2 <= rc <= 0.
Proof.
  induction evs as [|[c|t] evs IH]; intros first timeout etime s rc s' evs' H; [done| |]; cbn [cread_loop] in H.
  - apply res_bind_ok in H as (q & _ & H). destruct q; [by eapply IH|inv_res; lia..].
  - case_match; [inv_res; lia|by eapply IH].
Qed.

Lemma hist_init_tidy : tidy hist_init.
Proof. constructor; try done. apply Forall_replicate. cbn. lia. Qed.

(** C25: no input makes the editor leave its buffers.  Whatever bytes arrive, escape sequences cut off or unknown, NULs, lines of any length,
    and whatever the state of the history, the 257 bytes of the buffer are enough, all slots of the history exist and
    every line fits in its slot: the line comes or the editor waits.  Completion is left out: the key is not pressed,
    or the prompt is not that of the console. *)
Theorem readline_safe {W} (table : list (cmd_tbl W)) prompt now tbclk evs w :
  streq prompt CONFIG_SYS_PROMPT = false \/ Key TAB ∉ evs ->
  tst (flags w) GD_FLG_RELOC = true -> length (console_buffer w) = S room -> (initted w = true -> tidy (lines w)) ->
  match readline table now tbclk (Some prompt) evs w with
  | Ok (rc, b, _, w', _) => -2 <= rc <= 256 /\ length (console_buffer w') = S room /\ b = console_buffer w' /\ tidy (lines w')
  | Hang => True
  | Ub => False
  end.
Proof.
  intros Ht Hf Hb Hh. unfold readline, readline_into_buffer.
  destruct (console_buffer w) as [|x cb] eqn:Ec; [done|].
  rewrite (store_at_app [] (0 :: cb) (x :: cb)) by first [done|cbn; lia]. cbn [res_bind flags initted lines console_buffer]. rewrite Hf.
  unfold cread_line. cbn [c_string Z.eqb length cread_add_own res_bind].
  assert (tidy (if initted w then lines w else hist_init)) as Ht' by (destruct (initted w); [by apply Hh|apply hist_init_tidy]).
  match goal with |- context [cread_loop _ _ _ ?f ?t ?e _ ?s] => pose proof (cread_loop_safe table prompt evs f t e s Ht) as H; destruct (cread_loop table (Some prompt) CONFIG_SYS_CBSIZE f t e evs s) as [[[rc s'] evs']| |] eqn:El end.
  - destruct H as [Hs Hn He Hi]; [by constructor|]. cbn [res_bind console_buffer lines]. split_and!; try done; destruct (Z.ltb_spec rc 0); try lia.
    all: apply cread_loop_rc in El; lia.
  - done.
  - apply H. by constructor.
Qed.

(** A line that is too long, with an unknown escape sequence and a NUL in it. *)
Definition noise : list event := map Key ([ESC; 0x4F; 0; ESC; 0x5B; 0x35; 16; 14] ++ replicate 300 0xC3 ++ [CR]).

Lemma readline_safe_witness :
  match readline (W:=unit) [] 0 1 (Some CONFIG_SYS_PROMPT) noise console0 with
  | Ok (rc, b, _, w', _) => -2 <= rc <= 256 /\ length (console_buffer w') = S room /\ b = console_buffer w' /\ tidy (lines w')
  | Hang => True
  | Ub => False
  end.
Proof.
  apply (readline_safe (W:=unit) [] CONFIG_SYS_PROMPT 0 1 noise console0).
  - right. unfold noise. rewrite list_elem_of_fmap. intros (c & E & Hc). injection E as <-. revert Hc. apply (bool_decide_unpack _). vm_compute. exact I.
  - reflexivity.
  - reflexivity.
  - discriminate.
Defined.

(** The buffer of a menu without a callback, [cbuf] of [menu_interactive_choice], is one byte too small: a line of 256 characters
    puts its NUL behind the end. *)
Lemma menu_line_overflows :
  readline_into_buffer (W:=unit) [] 0 1 (Some (cstr "Enter choice: ")) (Some (0 :: replicate 255 0x55)) 0 (map Key (replicate 256 0x61 ++ [CR])) console0 = Ub.
Proof. vm_compute. reflexivity. Qed.

(** ^C does not take the history back to the line that is typed: the next line starts where the walk was left. *)
Lemma interrupt_keeps_position :
  map (fun x => snd (fst x)) (lines_read
    [([(Char 0x61, [0x61])], true); ([(Char 0x62, [0x62])], true); ([(Up, [16])], false); ([(Up, [16])], true)] [] 0) = [[0x61]; [0x62]; []; [0x61]].
Proof. reflexivity. Qed.
