(* ===== verification/Parser.v ===== *)
(** * The built-in parser of command lines ([common/main.c])

    The parser that is used where the shell is not configured: separators, macros and words, and lists of commands.
    [W] is the state the commands work on. *)
From S2P Require Import Prelude Ctype Env Command CommandProps Readline.

Definition backslash : Z := 0x5C.
Definition quote : Z := 0x27.
Definition dollar : Z := 0x24.

(** ** Macros *)

(** [mstate]: 0 outside, 1 after a dollar sign, 2 in a name, 3 in quotes.  [varname_start] is the input from the start of the name on. *)
Record macro := { mstate : Z; prev : Z; varname_start : list Z; output : list Z; outputcnt : Z }.

Definition emit (c : Z) (m : macro) : res macro :=
  if outputcnt m <=? 0 then Ub
  else Ok {| mstate := mstate m; prev := prev m; varname_start := varname_start m; output := output m ++ [c]; outputcnt := outputcnt m - 1 |}.
Definition set_mstate (s : Z) (m : macro) : macro :=
  {| mstate := s; prev := prev m; varname_start := varname_start m; output := output m; outputcnt := outputcnt m |}.
Definition set_varname (v : list Z) (m : macro) : macro :=
  {| mstate := 2; prev := prev m; varname_start := v; output := output m; outputcnt := outputcnt m |}.
Definition set_prev (c : Z) (m : macro) : macro :=
  {| mstate := mstate m; prev := c; varname_start := varname_start m; output := output m; outputcnt := outputcnt m |}.

(** The value of a variable, as far as there is room. *)
Fixpoint copy_value (envval : list Z) (m : macro) : res macro :=
  match envval with
  | [] => Ok m
  | c :: envval => if outputcnt m =? 0 then Ok m else let* m := emit c m in copy_value envval m
  end.

Section Parser.
Context {W : Type} (say : list Z -> W -> W) (table : list (cmd_tbl W)).
Context (getenv : list Z -> W -> option (list Z)).
Context (had_ctrlc : W -> bool) (clear_ctrlc : W -> W) (malloc_ok : Z -> bool).

(** The switch on the state; [input] is what follows [c]. *)
Definition macro_switch (w : W) (c : Z) (input : list Z) (m : macro) : res macro :=
  if mstate m =? 0 then
    if (c =? quote) && negb (prev m =? backslash) then Ok (set_mstate 3 m)
    else if (c =? dollar) && negb (prev m =? backslash) then Ok (set_mstate 1 m)
    else emit c m
  else if mstate m =? 1 then
    if (c =? 0x28) || (c =? 0x7B) then Ok (set_varname input m)
    else
      let* m := emit dollar (set_mstate 0 m) in
      if negb (outputcnt m =? 0) then emit c m else Ok m
  else if mstate m =? 2 then
    if (c =? 0x29) || (c =? 0x7D) then
      let envcnt := (length (varname_start m) - length input - 1)%nat in
      if CONFIG_SYS_CBSIZE <=? Z.of_nat envcnt then Ub
      else
        let* m := copy_value (match getenv (take envcnt (varname_start m)) w with Some v => v | None => [] end) m in
        Ok (set_mstate 0 m)
    else Ok m
  else
    if (c =? quote) && negb (prev m =? backslash) then Ok (set_mstate 0 m) else emit c m.
Definition macro_step (w : W) (c : Z) (input : list Z) (m : macro) : res macro :=
  let* m := macro_switch w c input m in Ok (set_prev c m).

Fixpoint macro_loop (w : W) (input : list Z) (m : macro) : res macro :=
  match input with
  | [] => Ok m
  | c :: input =>
    if outputcnt m =? 0 then Ok m
    else if negb (mstate m =? 3) && (c =? backslash) && negb (prev m =? backslash) then
      match input with
      | [] => Ok m
      | c' :: input => let* m := macro_step w c' input (set_prev c m) in macro_loop w input m
      end
    else let* m := macro_step w c input m in macro_loop w input m
  end.

(** The string in [output]. *)
Definition process_macros (w : W) (input : list Z) : res (list Z) :=
  let* m := macro_loop w input {| mstate := 0; prev := 0; varname_start := []; output := []; outputcnt := CONFIG_SYS_CBSIZE |} in
  Ok (if negb (outputcnt m =? 0) then output m else removelast (output m)).

(** ** Separators *)

(** The token and what follows the separator; [before] is the byte in front, if there is one. *)
Fixpoint find_sep (first : bool) (before : option Z) (inquotes : bool) (s : list Z) : res (list Z * option (list Z)) :=
  match s with
  | [] => Ok ([], None)
  | c :: t =>
    let* inq :=
      (if c =? quote then let* b := res_of_option before in Ok (if negb (b =? backslash) then negb inquotes else inquotes)
       else Ok inquotes) in
    if negb inq && (c =? 0x3B) && negb first && negb (match before with Some b => b =? backslash | None => false end) then Ok ([], Some t)
    else let* (tok, r) := find_sep false (Some c) inq t in Ok (c :: tok, r)
  end.

(** The loop over the commands: [before] is [None] at the start of [cmdbuf], then the NUL in place of the separator. *)
Fixpoint commands_loop (fuel : nat) (flag : Z) (before : option Z) (str : list Z) (rc rep : Z) (w : W) : res (Z * W) :=
  match str with
  | [] => Ok (if negb (rc =? 0) then rc else rep, w)
  | _ =>
    match fuel with
    | O => Hang
    | S fuel =>
      let* (token, rest) := find_sep true before false str in
      let str := match rest with Some r => r | None => [] end in
      let* finaltoken := process_macros w token in
      let argv := fst (parse_line finaltoken) in
      match argv with
      | [] => commands_loop fuel flag (Some 0) str (-1) rep w
      | _ =>
        let* (r, rep, w) := cmd_process say table flag argv rep w in
        let rc := if negb (r =? 0) then -1 else rc in
        if had_ctrlc w then Ok (-1, w) else commands_loop fuel flag (Some 0) str rc rep w
      end
    end
  end.

Definition builtin_run_command (cmd : list Z) (flag : Z) (w : W) : res (Z * W) :=
  let w := clear_ctrlc w in
  match cmd with
  | [] => Ok (-1, w)
  | _ =>
    if CONFIG_SYS_CBSIZE <=? Z.of_nat (length cmd) then Ok (-1, say (cstr "## Command too long!" ++ [newline]) w)
    else commands_loop (length cmd) flag None cmd 0 1 w
  end.

Definition run_command (cmd : list Z) (flag : Z) (w : W) : res (Z * W) :=
  let* (r, w) := builtin_run_command cmd flag w in Ok (if r =? -1 then 1 else 0, w).

(** [line] is what has been seen of the line that [next] is in. *)
Fixpoint list_loop (line next : list Z) (w : W) : res (Z * W) :=
  match next with
  | [] =>
    match line with
    | [] => Ok (0, w)
    | _ => let* (r, w) := builtin_run_command line 0 w in Ok (if 0 <=? r then 1 else 0, w)
    end
  | c :: next =>
    if c =? newline then
      match line with
      | [] => list_loop [] next w
      | _ => let* (r, w) := builtin_run_command line 0 w in if r <? 0 then Ok (1, w) else list_loop [] next w
      end
    else list_loop (line ++ [c]) next w
  end.
Definition builtin_run_command_list (cmd : list Z) (w : W) : res (Z * W) := list_loop [] cmd w.

(** [len] is -1 for the whole string. *)
Definition run_command_list (cmd : list Z) (len : Z) (w : W) : res (Z * W) :=
  let '(len, need_buff) :=
    if len =? -1 then (Z.of_nat (length cmd), bool_decide (newline ∈ cmd)) else (len, true) in
  if need_buff then
    if negb (malloc_ok (len + 1)) then Ok (1, w)
    else builtin_run_command_list (c_string (take (Z.to_nat len) (cmd ++ [0]))) w
  else builtin_run_command_list cmd w.

(** [argv] without the word [run]. *)
Fixpoint run_loop (argv : list (list Z)) (flag : Z) (w : W) : res (Z * W) :=
  match argv with
  | [] => Ok (0, w)
  | a :: argv =>
    match getenv a w with
    | None => Ok (1, say (cstr "## Error: " ++ [0x22] ++ a ++ [0x22] ++ cstr " not defined" ++ [newline]) w)
    | Some arg =>
      let* (r, w) := run_command arg flag w in
      if negb (r =? 0) then Ok (1, w) else run_loop argv flag w
    end
  end.
Definition do_run (argv : list (list Z)) (flag : Z) (w : W) : res (Z * W) :=
  match argv with [] => Ok (CMD_RET_USAGE, w) | _ => run_loop argv flag w end.
End Parser.

(** ** The main loop *)

Section MainLoop.
Context {W : Type} (say : list Z -> W -> W) (table : list (cmd_tbl W)).
Context (getenv : list Z -> W -> option (list Z)) (had_ctrlc : W -> bool) (clear_ctrlc : W -> W) (now tbclk : Z).

(** [lastcommand], [rc] and what the commands work on. *)
Record main_state := { lastcommand : list Z; last_rc : Z; world : W }.

(** From the result of [readline] on: [buffer] is the string in [console_buffer], [lastcommand] has 256 bytes. *)
Definition main_turn (len : Z) (buffer : list Z) (s : main_state) : res main_state :=
  let* last := (if 0 <? len then if CONFIG_SYS_CBSIZE <=? Z.of_nat (length buffer) then Ub else Ok buffer else Ok (lastcommand s)) in
  let flag := if 0 <? len then 0 else if len =? 0 then CMD_FLAG_REPEAT else 0 in
  let* (rc, w) :=
    (if len =? -1 then Ok (last_rc s, say (cstr "<INTERRUPT>" ++ [newline]) (world s))
     else run_command say table getenv had_ctrlc clear_ctrlc last flag (world s)) in
  Ok {| lastcommand := if rc <=? 0 then [] else last; last_rc := rc; world := w |}.

Fixpoint main_loop (turns : nat) (evs : list event) (c : console_state) (s : main_state) : res (main_state * console_state * list event) :=
  match turns with
  | O => Ok (s, c, evs)
  | S turns =>
    let* (len, b, _, c, evs) := readline table now tbclk (Some CONFIG_SYS_PROMPT) evs c in
    let* s := main_turn len (c_string b) s in
    main_loop turns evs c s
  end.
End MainLoop.
Arguments main_state : clear implicits.

(** ** Macros: what they expand to *)

Definition full : nat := 256.

(** Outside of macros and quotes, with the text [e] so far. *)
Record outside (e : list Z) (m : macro) : Prop := {
  os_state : mstate m = 0;
  os_prev : prev m <> backslash;
  os_out : output m = take full e;
  os_cnt : outputcnt m = CONFIG_SYS_CBSIZE - Z.of_nat (length (output m))
}.

(** Text and macros, with either kind of brackets. *)
Inductive piece := Lit (t : list Z) | Var (round : bool) (x : list Z).
Definition written (p : piece) : list Z :=
  match p with
  | Lit t => t
  | Var true x => [dollar; 0x28] ++ x ++ [0x29]
  | Var false x => [dollar; 0x7B] ++ x ++ [0x7D]
  end.
Definition good_piece (p : piece) : Prop :=
  match p with
  | Lit t => Forall (fun c => c <> quote /\ c <> dollar /\ c <> backslash) t
  | Var _ x => Forall (fun c => c <> 0x29 /\ c <> 0x7D /\ c <> backslash) x /\ (length x < full)%nat
  end.

Lemma take_full_app (e t : list Z) : (full <= length e)%nat -> take full (e ++ t) = take full e.
Proof. intros H. by rewrite take_app_le. Qed.

Lemma outside_full e t m : outside e m -> outputcnt m = 0 -> outside (e ++ t) m.
Proof.
  intros [Hs Hp Ho Hc] H0. constructor; [done..| |done]. rewrite Ho, take_full_app; [done|].
  rewrite H0, Ho, length_take in Hc. unfold CONFIG_SYS_CBSIZE, full in *. lia.
Qed.

Lemma outside_room e m : outside e m -> outputcnt m <> 0 -> output m = e /\ (length e < full)%nat /\ 0 < outputcnt m.
Proof.
  intros [_ _ Ho Hc] H0. rewrite Ho, length_take in Hc. unfold CONFIG_SYS_CBSIZE, full in *.
  rewrite Ho, take_ge by lia. split_and!; [done|lia..].
Qed.

Section Macros.
Context {W : Type} (getenv : list Z -> W -> option (list Z)) (w : W).

Definition meaning (p : piece) : list Z :=
  match p with Lit t => t | Var _ x => match getenv x w with Some v => v | None => [] end end.

Lemma emit_outside c p e m : outside e m -> outputcnt m <> 0 -> p <> backslash ->
  exists m', emit c m = Ok m' /\ outside (e ++ [c]) (set_prev p m').
Proof.
  intros H H0 Hp. destruct (outside_room e m H H0) as (Ho & Hl & Hpos). destruct H as [Hs _ _ Hc].
  unfold emit. rewrite (proj2 (Z.leb_gt (outputcnt m) 0)) by done. eexists. split; [done|]. constructor; cbn; [done..| |].
  - rewrite Ho, take_ge by (rewrite length_app; cbn; unfold full in *; lia). done.
  - rewrite length_app. cbn. lia.
Qed.

Lemma loop_full input m : outputcnt m = 0 -> macro_loop getenv w input m = Ok m.
Proof. intros H. destruct input; [done|]. cbn. by rewrite H. Qed.

Lemma lit_loop t rest : forall e m, outside e m -> good_piece (Lit t) ->
  exists m', macro_loop getenv w (t ++ rest) m = macro_loop getenv w rest m' /\ outside (e ++ t) m'.
Proof.
  induction t as [|c t IH]; intros e m H Ht; [exists m; by rewrite app_nil_r|]. destruct (decide (outputcnt m = 0)) as [H0|H0].
  { exists m. rewrite !loop_full by done. split; [done|by apply outside_full]. }
  apply Forall_cons in Ht as [(Hq & Hd & Hb) Ht]. cbn [app macro_loop].
  rewrite (proj2 (Z.eqb_neq _ _) H0), (proj2 (Z.eqb_neq c backslash) Hb), andb_false_r. cbn [andb].
  unfold macro_step, macro_switch. rewrite (os_state _ _ H), (proj2 (Z.eqb_neq c quote) Hq), (proj2 (Z.eqb_neq c dollar) Hd). cbn [Z.eqb andb].
  destruct (emit_outside c c e m H H0 Hb) as (m1 & -> & Ho). cbn [res_bind].
  destruct (IH _ _ Ho Ht) as (m' & Hl & Hm). exists m'. by rewrite <- app_assoc in Hm.
Qed.

Lemma copy_value_outside v : forall e m, outside e (set_mstate 0 m) ->
  exists m', copy_value v m = Ok m' /\ outside (e ++ v) (set_mstate 0 m').
Proof.
  induction v as [|c v IH]; intros e m H; [exists m; by rewrite app_nil_r|]. cbn [copy_value].
  destruct (Z.eqb_spec (outputcnt m) 0) as [H0|H0]; [exists m; split; [done|by apply outside_full]|].
  destruct (emit_outside c (prev m) e (set_mstate 0 m) H H0 (os_prev _ _ H)) as (m1 & Hm1 & Ho).
  unfold emit in *. cbn [outputcnt set_mstate] in Hm1. destruct (outputcnt m <=? 0); [done|]. injection Hm1 as <-. cbn [res_bind].
  destruct (IH (e ++ [c]) {| mstate := mstate m; prev := prev m; varname_start := varname_start m; output := output m ++ [c]; outputcnt := outputcnt m - 1 |} Ho) as (m' & Hc & Hm).
  exists m'. by rewrite <- app_assoc in Hm.
Qed.

(** In a name nothing happens up to the bracket. *)
Lemma name_loop x rest : forall m, mstate m = 2 -> outputcnt m <> 0 -> Forall (fun c => c <> 0x29 /\ c <> 0x7D /\ c <> backslash) x -> prev m <> backslash ->
  exists p, p <> backslash /\ macro_loop getenv w (x ++ rest) m = macro_loop getenv w rest (set_prev p m).
Proof.
  induction x as [|c x IH]; intros m Hs H0 Hx Hp; [exists (prev m); split; [done|by destruct m]|].
  apply Forall_cons in Hx as [(H1 & H2 & H3) Hx]. cbn [app macro_loop].
  rewrite (proj2 (Z.eqb_neq _ _) H0), (proj2 (Z.eqb_neq c backslash) H3), andb_false_r. cbn [andb].
  unfold macro_step, macro_switch. rewrite Hs, (proj2 (Z.eqb_neq c _) H1), (proj2 (Z.eqb_neq c _) H2). cbn [Z.eqb Pos.eqb orb res_bind].
  destruct (IH (set_prev c m)) as (p & Hp' & Hl); [done..|]. exists p. split; [done|]. by rewrite Hl.
Qed.

Lemma var_loop round x rest e m : outside e m -> good_piece (Var round x) ->
  exists m', macro_loop getenv w (written (Var round x) ++ rest) m = macro_loop getenv w rest m' /\ outside (e ++ meaning (Var round x)) m'.
Proof.
  intros H [Hx Hl]. destruct (decide (outputcnt m = 0)) as [H0|H0].
  { exists m. rewrite !loop_full by done. split; [done|by apply outside_full]. }
  assert (exists o c, written (Var round x) = [dollar; o] ++ x ++ [c] /\ (o = 0x28 /\ c = 0x29 \/ o = 0x7B /\ c = 0x7D)) as (o & c & -> & Hoc).
  { destruct round; do 2 eexists; (split; [done|]); [by left|by right]. }
  rewrite <- !app_assoc. pose proof (os_prev _ _ H) as Hp. apply Z.eqb_neq in H0, Hp.
  cbn [app macro_loop]. rewrite H0. cbn [Z.eqb Pos.eqb dollar backslash andb]. rewrite andb_false_r. cbn [andb].
  unfold macro_step at 1, macro_switch. rewrite (os_state _ _ H), Hp. cbn [Z.eqb Pos.eqb dollar quote andb negb res_bind outputcnt set_prev set_mstate].
  rewrite H0. replace (o =? backslash) with false by (destruct Hoc as [[-> _]|[-> _]]; done). rewrite andb_false_r. cbn [andb].
  unfold macro_step at 1, macro_switch. cbn [mstate set_prev set_mstate Z.eqb Pos.eqb].
  replace ((o =? 0x28) || (o =? 0x7B)) with true by (destruct Hoc as [[-> _]|[-> _]]; done). cbn [res_bind].
  set (m2 := set_prev o _). destruct (name_loop x (c :: rest) m2) as (p & Hpb & ->); [done|subst m2; cbn; by apply Z.eqb_neq|done| |].
  { subst m2. cbn. destruct Hoc as [[-> _]|[-> _]]; done. }
  cbn [app macro_loop]. change (outputcnt (set_prev p m2)) with (outputcnt m). rewrite H0. replace (c =? backslash) with false by (destruct Hoc as [[_ ->]|[_ ->]]; done).
  rewrite andb_false_r. cbn [andb]. unfold macro_step at 1, macro_switch. change (mstate (set_prev p m2)) with 2. cbn [Z.eqb Pos.eqb].
  replace ((c =? 0x29) || (c =? 0x7D)) with true by (destruct Hoc as [[_ ->]|[_ ->]]; done). change (varname_start (set_prev p m2)) with (x ++ c :: rest).
  assert (length (x ++ [c] ++ rest) - length rest - 1 = length x)%nat as Hlen by (rewrite !length_app; cbn; lia). cbn [app] in Hlen. rewrite Hlen.
  rewrite (proj2 (Z.leb_gt CONFIG_SYS_CBSIZE _)) by (unfold CONFIG_SYS_CBSIZE, full in *; lia). rewrite take_app_length.
  assert (outside e (set_mstate 0 (set_prev p m2))) as Ho.
  { destruct H. constructor; done. }
  destruct (copy_value_outside (meaning (Var round x)) e (set_prev p m2) Ho) as (m' & Hc & Hm). cbn [meaning] in Hc. rewrite Hc. cbn [res_bind].
  eexists. split; [done|]. destruct Hm. constructor; cbn in *; try done. destruct Hoc as [[_ ->]|[_ ->]]; done.
Qed.

Lemma pieces_loop ps : forall e m, outside e m -> Forall good_piece ps ->
  exists m', macro_loop getenv w (concat (map written ps)) m = Ok m' /\ outside (e ++ concat (map meaning ps)) m'.
Proof.
  induction ps as [|p ps IH]; intros e m H Hg; [exists m; cbn; by rewrite app_nil_r|].
  apply Forall_cons in Hg as [Hp Hg]. cbn [map concat].
  assert (exists m1, macro_loop getenv w (written p ++ concat (map written ps)) m = macro_loop getenv w (concat (map written ps)) m1 /\ outside (e ++ meaning p) m1) as (m1 & -> & H1)
    by (destruct p; [by apply lit_loop|by apply var_loop]).
  destruct (IH _ _ H1 Hg) as (m' & Hl & Hm). exists m'. by rewrite <- app_assoc in Hm.
Qed.
End Macros.

(** Macros are replaced by the values of their variables.  A command made of text and of macros in round or curly brackets becomes the text with the
    value of each variable in its place, nothing for a variable that is not set, cut to 255 bytes. *)
Theorem macros_expand {W} (getenv : list Z -> W -> option (list Z)) w ps : Forall good_piece ps ->
  process_macros getenv w (concat (map written ps)) = Ok (take 255 (concat (map (meaning getenv w) ps))).
Proof.
  intros Hg. unfold process_macros.
  destruct (pieces_loop getenv w ps [] {| mstate := 0; prev := 0; varname_start := []; output := []; outputcnt := CONFIG_SYS_CBSIZE |}) as (m & -> & H); [by constructor|done|].
  cbn [res_bind]. cbn [app] in H. f_equal. destruct (Z.eqb_spec (outputcnt m) 0) as [H0|H0]; cbn [negb].
  - destruct H as [_ _ Ho Hc]. rewrite H0, Ho, length_take in Hc. rewrite Ho. unfold CONFIG_SYS_CBSIZE, full in *.
    set (t := concat _) in *. change 256%nat with (S 255).
    destruct (lookup_lt_is_Some_2 t 255%nat) as [x Hx]; [lia|]. by rewrite (take_S_r _ _ x), removelast_last.
  - destruct (outside_room _ _ H H0) as (Ho & Hl & _). rewrite Ho. unfold full in *. by rewrite take_ge by lia.
Qed.

Definition two_vars (x : list Z) (_ : unit) : option (list Z) :=
  if bool_decide (x = cstr "addr") then Some (cstr "30000000") else if bool_decide (x = cstr "file") then Some (cstr "uImage") else None.

Definition tftp_line : list piece :=
  [Lit (cstr "tftp "); Var true (cstr "addr"); Lit (cstr " "); Var false (cstr "file"); Var false (cstr "none")].

Lemma macros_expand_witness : process_macros two_vars tt (concat (map written tftp_line)) = Ok (cstr "tftp 30000000 uImage").
Proof.
  rewrite (macros_expand two_vars tt tftp_line).
  - vm_compute. reflexivity.
  - repeat constructor; try discriminate; apply Nat.ltb_lt; reflexivity.
Defined.

(** ** The parser returns *)

Record bounded (m : macro) : Prop := {
  bd_cnt : outputcnt m = CONFIG_SYS_CBSIZE - Z.of_nat (length (output m));
  bd_pos : 0 <= outputcnt m;
  bd_name : (length (varname_start m) < full)%nat
}.

Section Returns.
Context {W : Type} (say : list Z -> W -> W) (table : list (cmd_tbl W)).
Context (getenv : list Z -> W -> option (list Z)).
Context (had_ctrlc : W -> bool) (clear_ctrlc : W -> W).

Lemma emit_bounded c m : bounded m -> outputcnt m <> 0 -> exists m', emit c m = Ok m' /\ bounded m'.
Proof.
  intros [] H0. unfold emit. rewrite (proj2 (Z.leb_gt (outputcnt m) 0)) by lia. eexists. split; [done|].
  constructor; cbn; [rewrite length_app; cbn; lia|lia|done].
Qed.
Lemma copy_bounded v : forall m, bounded m -> exists m', copy_value v m = Ok m' /\ bounded m'.
Proof.
  induction v as [|c v IH]; intros m H; [by eexists|]. cbn. destruct (Z.eqb_spec (outputcnt m) 0); [by eexists|].
  destruct (emit_bounded c m) as (m' & -> & Hm); [done..|]. by apply IH.
Qed.

Lemma step_bounded w c input m : bounded m -> outputcnt m <> 0 -> (length input < full)%nat ->
  exists m', macro_step getenv w c input m = Ok m' /\ bounded m'.
Proof.
  intros H H0 Hl. assert (forall s, bounded (set_mstate s m)) as Hs by (intros s; by destruct H).
  enough (exists m', macro_switch getenv w c input m = Ok m' /\ bounded m') as (m' & Hm & Hb).
  { exists (set_prev c m'). unfold macro_step. rewrite Hm. split; [done|by destruct Hb]. }
  unfold macro_switch.
  repeat case_if; try (by eexists); try (by apply emit_bounded).
  - eexists. split; [done|]. by destruct H.
  - destruct (emit_bounded dollar (set_mstate 0 m)) as (m1 & -> & H1); [done..|]. cbn [res_bind].
    destruct (Z.eqb_spec (outputcnt m1) 0); cbn [negb]; [by eexists|by apply emit_bounded].
  - pose proof (bd_name _ H). exfalso. match goal with Hx : (CONFIG_SYS_CBSIZE <=? _) = true |- _ => apply Z.leb_le in Hx end. unfold CONFIG_SYS_CBSIZE, full in *. lia.
  - match goal with |- context [copy_value ?v m] => destruct (copy_bounded v m H) as (m' & -> & Hm) end. eexists. split; [done|]. by destruct Hm.
Qed.

Lemma macro_loop_bounded w n : forall input m, (length input <= n)%nat -> bounded m -> (length input <= full)%nat ->
  exists m', macro_loop getenv w input m = Ok m' /\ bounded m'.
Proof.
  induction n as [|n IH]; intros [|c input] m Hn H Hl; try (by eexists); cbn [length] in *; [lia|]. cbn [macro_loop].
  destruct (Z.eqb_spec (outputcnt m) 0); [by eexists|]. destruct (negb (mstate m =? 3) && (c =? backslash) && negb (prev m =? backslash)).
  - destruct input as [|c' input]; [by eexists|]. cbn [length] in *.
    destruct (step_bounded w c' input (set_prev c m)) as (m' & -> & Hm); [by destruct H|done|lia|]. apply IH; [lia|done|lia].
  - destruct (step_bounded w c input m) as (m' & -> & Hm); [done..|lia|]. apply IH; [lia|done|lia].
Qed.

Lemma process_macros_bounded w input : (length input <= full)%nat -> exists t, process_macros getenv w input = Ok t /\ (length t < full)%nat.
Proof.
  intros Hl. unfold process_macros.
  destruct (macro_loop_bounded w (length input) input {| mstate := 0; prev := 0; varname_start := []; output := []; outputcnt := CONFIG_SYS_CBSIZE |}) as (m & -> & [Hc Hp Hv]);
    [done|constructor; cbn; unfold CONFIG_SYS_CBSIZE, full in *; lia|done|].
  eexists. split; [done|]. unfold CONFIG_SYS_CBSIZE, full in *. destruct (Z.eqb_spec (outputcnt m) 0); cbn [negb]; [|lia].
  destruct (output m) as [|x o _] using rev_ind; [cbn; lia|]. rewrite removelast_last. rewrite length_app in *. cbn in *. lia.
Qed.

Lemma find_sep_ok s : forall first before inq, is_Some before \/ head s <> Some quote ->
  exists tok r, find_sep first before inq s = Ok (tok, r) /\ (length tok + match r with Some r => S (length r) | None => 0 end = length s)%nat /\
    (first = true -> s <> [] -> tok <> []).
Proof.
  induction s as [|c s IH]; intros first before inq Hb; [by do 2 eexists|]. cbn [find_sep].
  assert (exists q, (if c =? quote then let* b := res_of_option before in Ok (if negb (b =? backslash) then negb inq else inq) else Ok inq) = Ok q) as (q & ->).
  { destruct (Z.eqb_spec c quote) as [->|]; [|by eexists]. destruct Hb as [[b ->]|Hb]; [by eexists|done]. }
  cbn [res_bind]. case_if; [exists [], (Some s); split_and!; [done|done|]; intros ->; by rewrite !andb_false_r in Hif|].
  destruct (IH false (Some c) q) as (tok & r & -> & Hl & _); [by left; eexists|]. cbn [res_bind]. do 2 eexists. split_and!; [done|cbn; lia|done].
Qed.

Definition flag01 (x : Z) : Prop := x = 0 \/ x = 1.
Lemma land01 x y : flag01 x -> flag01 (x .& y).
Proof.
  intros [->| ->]; [left; apply Z.land_0_l|]. pose proof (land_range 1 y 1 ltac:(lia)). rewrite Z.land_comm. unfold flag01. lia.
Qed.

Context (Hcmd : forall e, e ∈ table -> forall flag argv w, exists r, cmd e flag argv w = Ok r).

Lemma cmd_process_ok flag argv rep w : flag01 rep -> exists r rep' w', cmd_process say table flag argv rep w = Ok (r, rep', w') /\ flag01 rep'.
Proof.
  intros Hr. unfold cmd_process. destruct (head argv ≫= find_cmd table) as [e|] eqn:He; [|by do 3 eexists].
  assert (e ∈ table) as Hin.
  { destruct (head argv) as [a|]; [|done]. cbn in He. unfold find_cmd, find_cmd_tbl in He. apply find_loop_in in He as [[nm He]|He]; [|done].
    unfold by_name in He. apply in_map_iff in He as (x & Hx & He). simplify_eq. by apply list_elem_of_In. }
  destruct (if maxargs e <? Z.of_nat (length argv) then _ else _) as [[rc fl] w1].
  assert (exists r rep' w', (if rc =? CMD_RET_SUCCESS then let* (rc, w) := cmd e fl argv w1 in Ok (rc, rep .& repeatable e, w) else Ok (rc, rep, w1)) = Ok (r, rep', w') /\ flag01 rep') as (r & rep' & w' & -> & Hr').
  { destruct (rc =? CMD_RET_SUCCESS); [|by do 3 eexists]. destruct (Hcmd e Hin fl argv w1) as [[r w'] ->]. do 3 eexists. split; [done|by apply land01]. }
  cbn [res_bind]. destruct (r =? CMD_RET_USAGE); [destruct (cmd_usage say e w') as [r2 w2]|]; by do 3 eexists.
Qed.

Definition parser_result (r : Z) : Prop := r = -1 \/ flag01 r.

Lemma commands_loop_ok fuel : forall flag before str rc rep w, (length str <= fuel)%nat -> (length str < full)%nat ->
  is_Some before \/ head str <> Some quote -> rc = 0 \/ rc = -1 -> flag01 rep ->
  exists r w', commands_loop say table getenv had_ctrlc fuel flag before str rc rep w = Ok (r, w') /\ parser_result r.
Proof.
  assert (forall rc rep, rc = 0 \/ rc = -1 -> flag01 rep -> parser_result (if negb (rc =? 0) then rc else rep)) as Hend.
  { intros rc rep [->| ->] Hr; cbn; [by right|by left]. }
  induction fuel as [|fuel IH]; intros flag before str rc rep w Hf Hl Hb Hrc Hrep.
  { destruct str; [|cbn in Hf; lia]. do 2 eexists. split; [done|by apply Hend]. }
  destruct str as [|c str0]; [do 2 eexists; split; [done|by apply Hend]|]. cbn [commands_loop]. set (str := c :: str0) in *.
  destruct (find_sep_ok str true before false Hb) as (tok & rest & -> & Hlen & Htok). cbn [res_bind].
  assert (length tok <> 0)%nat as Ht by (destruct tok; [by destruct Htok|done]).
  destruct (process_macros_bounded w tok ltac:(lia)) as (t & -> & _). cbn [res_bind].
  set (str' := match rest with Some r => r | None => [] end).
  assert (length str' <= fuel)%nat as Hf' by (subst str'; destruct rest; cbn in *; lia).
  assert (length str' < full)%nat as Hl' by (subst str'; destruct rest; cbn in *; lia).
  destruct (fst (parse_line t)) as [|a argv]; [apply IH; [done..|by left; eexists|by right|done]|].
  destruct (cmd_process_ok flag (a :: argv) rep w Hrep) as (r & rep' & w' & -> & Hr'). cbn [res_bind].
  destruct (had_ctrlc w'); [do 2 eexists; split; [done|by left]|].
  apply IH; [done..|by left; eexists| |done]. destruct (negb (r =? 0)); [by right|done].
Qed.
End Returns.

(** C26: the built-in parser always returns.  If every command returns, so does the parser, for every line that does not begin with a quote: each token is
    at least one byte, macros and words stay within their buffers whatever the line holds, and the result is -1, 0 or 1. *)
Theorem run_command_returns {W} say (table : list (cmd_tbl W)) getenv had_ctrlc clear_ctrlc c flag w :
  (forall e, e ∈ table -> forall flag argv w, exists r, cmd e flag argv w = Ok r) -> head c <> Some quote ->
  exists r w', builtin_run_command say table getenv had_ctrlc clear_ctrlc c flag w = Ok (r, w') /\ (r = -1 \/ r = 0 \/ r = 1).
Proof.
  intros Hcmd Hq. unfold builtin_run_command. destruct c as [|x c]; [do 2 eexists; split; [done|by left]|].
  destruct (Z.leb_spec CONFIG_SYS_CBSIZE (Z.of_nat (length (x :: c)))) as [H|H]; [do 2 eexists; split; [done|by left]|].
  apply commands_loop_ok; [done|done|unfold CONFIG_SYS_CBSIZE, full in *; lia|by right|by left|by right].
Qed.

Lemma run_command_returns_witness : exists r w',
  builtin_run_command (fun _ w => w) commands two_vars (fun _ => false) (fun w => w) (cstr "md $(addr);boot") 0 tt = Ok (r, w') /\ (r = -1 \/ r = 0 \/ r = 1).
Proof.
  apply (run_command_returns (fun _ w => w) commands two_vars (fun _ => false) (fun w => w) (cstr "md $(addr);boot") 0 tt).
  - intros e He flag argv w. exists (0, w). unfold commands in He. apply list_elem_of_fmap in He as (n & -> & _). reflexivity.
  - discriminate.
Defined.

(** The result of a list of commands is inverted.  [run_command_list] is documented to return 0 on success; for a list that ends without a
    newline it returns 1 when its last command succeeds and 0 when it fails. *)
Theorem command_list_result_inverted {W} say (table : list (cmd_tbl W)) getenv had_ctrlc clear_ctrlc malloc_ok c w r w' :
  c <> [] -> newline ∉ c -> builtin_run_command say table getenv had_ctrlc clear_ctrlc c 0 w = Ok (r, w') ->
  run_command_list say table getenv had_ctrlc clear_ctrlc malloc_ok c (-1) w = Ok (if 0 <=? r then 1 else 0, w').
Proof.
  intros Hne Hn Hr. unfold run_command_list. cbn [Z.eqb Pos.eqb]. rewrite bool_decide_eq_false_2 by done. unfold builtin_run_command_list.
  enough (forall next line, newline ∉ next -> line ++ next = c -> list_loop say table getenv had_ctrlc clear_ctrlc line next w = Ok (if 0 <=? r then 1 else 0, w')) as H by (by apply H).
  induction next as [|x next IH]; intros line Hx Hl; cbn [list_loop].
  - rewrite app_nil_r in Hl. subst line. destruct c; [done|]. by rewrite Hr.
  - apply not_elem_of_cons in Hx as [Hx1 Hx2]. rewrite (proj2 (Z.eqb_neq x newline)) by done. apply IH; [done|]. by rewrite <- app_assoc.
Qed.

Lemma command_list_result_inverted_witness :
  run_command_list (fun _ w => w) commands two_vars (fun _ => false) (fun w => w) (fun _ => true) (cstr "boot") (-1) tt = Ok (1, tt).
Proof.
  apply (command_list_result_inverted (fun _ w => w) commands two_vars (fun _ => false) (fun w => w) (fun _ => true) (cstr "boot") tt 1 tt).
  - discriminate.
  - apply (bool_decide_unpack _). vm_compute. exact I.
  - vm_compute. reflexivity.
Defined.

(** An empty line repeats only commands that failed.  A line that could be repeated is meant to be remembered; but the loop takes the
    result of [run_command], which is 0 for success, for the old one, where that meant "not repeatable": after a command that succeeded an
    empty line runs nothing, and after one that failed it runs that one again. *)
Theorem empty_line_repeats_failures {W} say (table : list (cmd_tbl W)) getenv had_ctrlc clear_ctrlc l s r w :
  l <> [] -> (length l < 256)%nat ->
  run_command say table getenv had_ctrlc clear_ctrlc l 0 (world s) = Ok (r, w) ->
  (let* s := main_turn say table getenv had_ctrlc clear_ctrlc (Z.of_nat (length l)) l s in main_turn say table getenv had_ctrlc clear_ctrlc 0 [] s) =
  if r =? 0 then Ok {| lastcommand := []; last_rc := 1; world := clear_ctrlc w |}
  else let* (r', w') := run_command say table getenv had_ctrlc clear_ctrlc l CMD_FLAG_REPEAT w in
       Ok {| lastcommand := if r' =? 0 then [] else l; last_rc := r'; world := w' |}.
Proof.
  intros Hne Hl Hr.
  assert (forall c f w0 r0 w1, run_command say table getenv had_ctrlc clear_ctrlc c f w0 = Ok (r0, w1) -> r0 = 0 \/ r0 = 1) as H01.
  { intros c f w0 r0 w1 H. unfold run_command in H. apply res_bind_ok in H as ([x y] & _ & H). destruct (x =? -1); simplify_eq; lia. }
  assert (0 < Z.of_nat (length l)) as Hpos by (destruct l; [done|cbn; lia]).
  unfold main_turn at 1. rewrite (proj2 (Z.ltb_lt _ _) Hpos), (proj2 (Z.leb_gt CONFIG_SYS_CBSIZE _)) by (unfold CONFIG_SYS_CBSIZE; lia). cbn [res_bind].
  rewrite (proj2 (Z.eqb_neq _ (-1))) by lia. rewrite Hr. cbn [res_bind].
  destruct (H01 _ _ _ _ _ Hr) as [->| ->]; [done|]. cbn [Z.leb Z.compare Z.eqb]. unfold main_turn. cbn [Z.ltb Z.compare Z.eqb res_bind lastcommand world].
  destruct (run_command say table getenv had_ctrlc clear_ctrlc l CMD_FLAG_REPEAT w) as [[r' w']| |] eqn:E; [|done..]. cbn [res_bind].
  destruct (H01 _ _ _ _ _ E) as [->| ->]; done.
Qed.

(** A command that succeeds; it leaves its words behind. *)
Definition echo_table : list (cmd_tbl (list Z)) :=
  [{| name := cstr "md"; maxargs := 5; repeatable := 1; cmd := fun _ argv _ => Ok (0, concat argv); is_bootd := false; usage := None; help := None; complete := None |}].
Lemma empty_line_repeats_failures_witness :
  (let* s := main_turn (fun t _ => t) echo_table
      (fun _ _ => None) (fun _ => false) (fun w => w) 2 (cstr "md") {| lastcommand := []; last_rc := 1; world := [] |} in
   main_turn (fun t _ => t) echo_table
      (fun _ _ => None) (fun _ => false) (fun w => w) 0 [] s) = Ok {| lastcommand := []; last_rc := 1; world := cstr "md" |}.
Proof.
  apply (empty_line_repeats_failures (fun t _ => t) echo_table (fun _ _ => None) (fun _ => false) (fun w => w) (cstr "md") {| lastcommand := []; last_rc := 1; world := [] |} 0 (cstr "md")).
  - discriminate.
  - apply Nat.ltb_lt. reflexivity.
  - vm_compute. reflexivity.
Defined.
