(* ===== verification/Bootmenu.v ===== *)
(** * The boot menu ([common/menu.c], [common/cmd_bootmenu.c])

    The entries of the menu are the variables bootmenu_0, bootmenu_1 and so on; the user moves in it with the cursor
    keys.  What is drawn is left out.  The console is the list of what each look at it shows: a character or none; each
    look without one takes ten milliseconds.  The linked lists of the source are lists. *)
From S2P Require Import Prelude Ctype Hashtable Vsprintf Env Command Readline.

(** ** Menus *)

Definition ENOENT : Z := 2.

Section Menu.
(** [D] is the data of the items, [S] what the callback works on; [read_choice timeout] reads a line. *)
Context {D S : Type} (malloc_ok : Z -> bool).

Record menu := {
  default_item : option D;      (* its data *)
  timeout : Z;
  prompt : Z;
  items : list (list Z * D)
}.

Context (item_choice : option (S -> res (option (list Z) * S))) (read_choice : Z -> S -> res (Z * list Z * S)).

Definition sizeof_menu : Z := 36.
Definition sizeof_menu_item : Z := 16.

Definition menu_create (timeout prompt : Z) : option menu :=
  if malloc_ok sizeof_menu then Some {| default_item := None; timeout := timeout; prompt := prompt; items := [] |} else None.

(** The first item whose key matches. *)
Fixpoint menu_item_by_key (items : list (list Z * D)) (item_key : list Z) : option D :=
  match items with
  | [] => None
  | (k, d) :: items => if streq k item_key then Some d else menu_item_by_key items item_key
  end.

Definition set_items (l : list (list Z * D)) (m : menu) : menu :=
  {| default_item := default_item m; timeout := timeout m; prompt := prompt m; items := l |}.
Fixpoint replace_data (items : list (list Z * D)) (item_key : list Z) (d : D) : list (list Z * D) :=
  match items with
  | [] => []
  | (k, x) :: items => if streq k item_key then (k, d) :: items else (k, x) :: replace_data items item_key d
  end.
Definition menu_item_add (m : menu) (item_key : list Z) (item_data : D) : Z * menu :=
  match menu_item_by_key (items m) item_key with
  | Some _ => (1, set_items (replace_data (items m) item_key item_data) m)
  | None =>
    if negb (malloc_ok sizeof_menu_item) then (- ENOMEM, m)
    else if negb (malloc_ok (Z.of_nat (length item_key) + 1)) then (- ENOMEM, m)
    else (1, set_items (items m ++ [(item_key, item_data)]) m)
  end.

Definition menu_default_set (m : menu) (item_key : list Z) : Z * menu :=
  match menu_item_by_key (items m) item_key with
  | None => (- ENOENT, m)
  | Some d => (1, {| default_item := Some d; timeout := timeout m; prompt := prompt m; items := items m |})
  end.

Definition menu_default_choice (m : menu) : Z * option D :=
  match default_item m with Some d => (1, Some d) | None => (- ENOENT, None) end.

Definition no_timeout (m : menu) : menu :=
  {| default_item := default_item m; timeout := 0; prompt := prompt m; items := items m |}.

Fixpoint menu_interactive_choice (fuel : nat) (m : menu) (s : S) : res (Z * option D * S) :=
  match fuel with
  | O => Hang
  | Datatypes.S fuel =>
    match item_choice with
    | None =>
      let* (readret, cbuf, s) := read_choice (Z.quot (timeout m) 10) s in
      if 0 <=? readret then
        match menu_item_by_key (items m) (c_string cbuf) with
        | Some d => Ok (1, Some d, s)
        | None => menu_interactive_choice fuel (no_timeout m) s
        end
      else let '(r, d) := menu_default_choice m in Ok (r, d, s)
    | Some choose =>
      let* (key, s) := choose s in
      match key ≫= menu_item_by_key (items m) with
      | Some d => Ok (1, Some d, s)
      | None => menu_interactive_choice fuel (no_timeout m) s
      end
    end
  end.

Definition menu_get_choice (fuel : nat) (m : menu) (s : S) : res (Z * option D * S) :=
  if prompt m =? 0 then let '(r, d) := menu_default_choice m in Ok (r, d, s) else menu_interactive_choice fuel m s.
End Menu.
Arguments menu : clear implicits.

(** ** The boot menu *)

Definition MAX_COUNT : Z := 99.

Record bootmenu_entry := {
  num : Z;
  key : list Z;
  title : list Z;
  command : list Z
}.
Record bootmenu_data := {
  delay : Z;
  active : Z;
  count : Z;
  entries : list bootmenu_entry
}.
Inductive bootmenu_key := KEY_NONE | KEY_UP | KEY_DOWN | KEY_SELECT.

Definition set_delay (d : Z) (b : bootmenu_data) : bootmenu_data := {| delay := d; active := active b; count := count b; entries := entries b |}.
Definition set_active (a : Z) (b : bootmenu_data) : bootmenu_data := {| delay := delay b; active := a; count := count b; entries := entries b |}.

(** Waiting for a key until the delay is over; [i] counts hundredths.  The key, [esc] and the rest of the input. *)
Fixpoint autoboot_loop (polls : list (option Z)) (i : nat) (b : bootmenu_data) : res (bootmenu_data * bootmenu_key * Z * list (option Z)) :=
  match polls with
  | [] => Hang
  | Some c :: polls =>
    let b := set_delay (-1) b in
    if c =? ESC then Ok (b, KEY_NONE, 1, polls)
    else if c =? CR then Ok (b, KEY_SELECT, 0, polls)
    else Ok (b, KEY_NONE, 0, polls)
  | None :: polls =>
    if (S i <? 100)%nat then autoboot_loop polls (S i) b
    else
      let b := set_delay (delay b - 1) b in
      if 0 <? delay b then autoboot_loop polls 0 b else Ok (b, KEY_SELECT, 0, polls)
  end.
Definition bootmenu_autoboot_loop (polls : list (option Z)) (b : bootmenu_data) : res (bootmenu_data * bootmenu_key * Z * list (option Z)) :=
  if 0 <? delay b then autoboot_loop polls 0 b else Ok (b, if delay b =? 0 then KEY_SELECT else KEY_NONE, 0, polls).

(** The switch on the state of the escape sequence. *)
Definition bootmenu_char (c : Z) (key : bootmenu_key) (esc : Z) : bootmenu_key * Z :=
  let '(key, esc) :=
    if esc =? 0 then if c =? ESC then (KEY_NONE, 1) else (key, esc)
    else if esc =? 1 then if c =? 0x5B then (KEY_NONE, 2) else (key, 0)
    else if (esc =? 2) || (esc =? 3) then
      if (esc =? 2) && (c =? 0x31) then (KEY_NONE, 3)
      else if c =? 0x41 then (KEY_UP, 0)
      else if c =? 0x42 then (KEY_DOWN, 0)
      else (KEY_NONE, 0)
    else (key, esc) in
  (if c =? CR then KEY_SELECT else key, esc).

Fixpoint bootmenu_loop (polls : list (option Z)) (key : bootmenu_key) (esc : Z) : res (bootmenu_key * Z * list (option Z)) :=
  match polls with
  | [] => Hang
  | None :: polls => bootmenu_loop polls key esc
  | Some c :: polls => let '(key, esc) := bootmenu_char c key esc in Ok (key, esc, polls)
  end.

(** The key of the chosen entry, or NULL to draw the menu again. *)
Fixpoint choice_loop (fuel : nat) (b : bootmenu_data) (k : bootmenu_key) (esc : Z) (polls : list (option Z)) : res (option (list Z) * (bootmenu_data * list (option Z))) :=
  match fuel with
  | O => Hang
  | S fuel =>
    let* (b, k, esc, polls) :=
      (if 0 <=? delay b then
         let* (b, k', esc', polls) := bootmenu_autoboot_loop polls b in Ok (b, k', esc', polls)
       else let* (k, esc, polls) := bootmenu_loop polls k esc in Ok (b, k, esc, polls)) in
    match k with
    | KEY_UP => Ok (None, (if 0 <? active b then set_active (active b - 1) b else b, polls))
    | KEY_DOWN => Ok (None, (if active b <? count b - 1 then set_active (active b + 1) b else b, polls))
    | KEY_SELECT => let* e := res_of_option (entries b !! Z.to_nat (active b)) in Ok (Some (key e), (b, polls))
    | KEY_NONE => choice_loop fuel b k esc polls
    end
  end.
Definition bootmenu_choice_entry (s : bootmenu_data * list (option Z)) : res (option (list Z) * (bootmenu_data * list (option Z))) :=
  let '(b, polls) := s in choice_loop (S (S (length polls))) b KEY_NONE 0 polls.

(** The text before the first equals sign, and behind it. *)
Fixpoint split_option (s : list Z) : option (list Z * list Z) :=
  match s with
  | [] => None
  | c :: s => if c =? 0x3D then Some ([], s) else match split_option s with Some (t, r) => Some (c :: t, r) | None => None end
  end.

Section Bootmenu.
Context {W : Type} (malloc_ok : Z -> bool) (getenv : list Z -> W -> option (list Z)) (run_command : list Z -> W -> res (Z * W)).

Definition bootmenu_getoption (n : Z) (w : W) : option (list Z) :=
  if MAX_COUNT <? n then None else getenv (cstr "bootmenu_" ++ cstr (pretty n)) w.

Definition sizeof_bootmenu_data : Z := 16.
Definition sizeof_bootmenu_entry : Z := 24.

Definition new_entry (i : Z) (t c : list Z) : option bootmenu_entry :=
  if malloc_ok sizeof_bootmenu_entry && malloc_ok (Z.of_nat (length t) + 1) && malloc_ok (Z.of_nat (length c) + 1)
  then Some {| num := i; key := cstr (pretty i); title := t; command := c |} else None.

(** [left_] more entries until the limit; [None] when memory has run out. *)
Fixpoint create_loop (left_ : nat) (i : Z) (w : W) (acc : list bootmenu_entry) : option (list bootmenu_entry) :=
  match left_ with
  | O => Some acc
  | S left_ =>
    match bootmenu_getoption i w ≫= split_option with
    | None => Some acc
    | Some (t, c) =>
      match new_entry i t c with
      | None => None
      | Some e => create_loop left_ (i + 1) w (acc ++ [e])
      end
    end
  end.

Definition bootmenu_create (delay : Z) (w : W) : option bootmenu_data :=
  if negb (malloc_ok sizeof_bootmenu_data) then None
  else
    match create_loop (Z.to_nat (MAX_COUNT - 1)) 0 w [] with
    | None => None
    | Some l =>
      let i := Z.of_nat (length l) in
      if i <=? MAX_COUNT - 1 then
        match new_entry i (cstr "U-Boot console") [] with
        | None => None
        | Some e => Some {| delay := delay; active := 0; count := i + 1; entries := l ++ [e] |}
        end
      else Some {| delay := delay; active := 0; count := i; entries := l |}
    end.

(** Stops only for the result 0. *)
Fixpoint add_items (l : list bootmenu_entry) (m : menu bootmenu_entry) : option (menu bootmenu_entry) :=
  match l with
  | [] => Some m
  | e :: l => let '(r, m) := menu_item_add malloc_ok m (key e) e in if r =? 0 then None else add_items l m
  end.

(** A choice takes at least one look at the console. *)
Definition bootmenu_show (delay_ : Z) (polls : list (option Z)) (w : W) : res (W * list (option Z)) :=
  if delay_ =? 0 then
    match bootmenu_getoption 0 w ≫= split_option with
    | None => Ok (w, polls)
    | Some (_, c) => let* (_, w) := run_command c w in Ok (w, polls)
    end
  else
    match bootmenu_create delay_ w with
    | None => Ok (w, polls)
    | Some b =>
      match menu_create malloc_ok (delay b) 1 with
      | None => Ok (w, polls)
      | Some m =>
        match add_items (entries b) m with
        | None => Ok (w, polls)
        | Some m =>
          let m := snd (menu_default_set m (cstr "0")) in
          let* (r, choice, (_, polls)) := menu_get_choice (Some bootmenu_choice_entry) (fun _ _ => Hang) (S (length polls)) m (b, polls) in
          if negb (r =? 0) then
            let* e := res_of_option choice in
            if malloc_ok (Z.of_nat (length (title e)) + 1) && malloc_ok (Z.of_nat (length (command e)) + 1)
            then let* (_, w) := run_command (command e) w in Ok (w, polls)
            else Ok (w, polls)
          else Ok (w, polls)
        end
      end
    end.

Definition menu_show (bootdelay : Z) (polls : list (option Z)) (w : W) : res (Z * W * list (option Z)) :=
  let* (w, polls) := bootmenu_show bootdelay polls w in Ok (-1, w, polls).

Definition CONFIG_BOOTDELAY : Z := 3.
(** [argv] without the word [bootmenu]. *)
Definition do_bootmenu (argv : list (list Z)) (polls : list (option Z)) (w : W) : res (Z * W * list (option Z)) :=
  let delay_str := match argv with a :: _ => Some a | [] => getenv (cstr "bootmenu_delay") w end in
  let d := match delay_str with Some s => s32 (fst (simple_strtol s 10)) | None => CONFIG_BOOTDELAY end in
  let* (w, polls) := bootmenu_show d polls w in Ok (0, w, polls).
End Bootmenu.

(** ** Moving in the menu *)

(** The keys of the user, and their codes; other characters are ignored. *)
Inductive menu_key := MUp | MDown | MOther (c : Z).
Definition menu_codes (k : menu_key) : list (list Z) :=
  match k with
  | MUp => [[ESC; 0x5B; 0x41]; [ESC; 0x5B; 0x31; 0x41]]
  | MDown => [[ESC; 0x5B; 0x42]; [ESC; 0x5B; 0x31; 0x42]]
  | MOther c => if (c =? ESC) || (c =? CR) then [] else [[c]]
  end.
(** The entry that is marked, of [n]. *)
Definition step_to (n : nat) (k : menu_key) (a : nat) : nat :=
  match k with
  | MUp => Nat.pred a
  | MDown => if (S a <? n)%nat then S a else a
  | MOther _ => a
  end.
Definition steps_to (n : nat) (ks : list menu_key) (a : nat) : nat := fold_left (fun a k => step_to n k a) ks a.

(** The characters among what the console shows. *)
Definition chars (polls : list (option Z)) : list Z := omap id polls.

Lemma loop_char polls : forall c cs k esc, chars polls = c :: cs ->
  exists polls', bootmenu_loop polls k esc = Ok (fst (bootmenu_char c k esc), snd (bootmenu_char c k esc), polls') /\
    chars polls' = cs /\ (length polls' < length polls)%nat.
Proof.
  induction polls as [|[x|] polls IH]; intros c cs k esc H; [done| |].
  - cbn in H. injection H as -> <-. exists polls. cbn [bootmenu_loop]. destruct (bootmenu_char c k esc). split_and!; [done|done|cbn; lia].
  - cbn [bootmenu_loop]. destruct (IH c cs k esc H) as (polls' & -> & Hc & Hl). exists polls'. split_and!; [done|done|cbn; lia].
Qed.

(** One character, when the delay is over. *)
Lemma choice_char fuel b k esc polls c cs : delay b < 0 -> chars polls = c :: cs -> (length polls < fuel)%nat ->
  exists fuel' polls', chars polls' = cs /\ (length polls' < fuel')%nat /\ (length polls' < length polls)%nat /\
    choice_loop fuel b k esc polls =
      match fst (bootmenu_char c k esc) with
      | KEY_UP => Ok (None, (if 0 <? active b then set_active (active b - 1) b else b, polls'))
      | KEY_DOWN => Ok (None, (if active b <? count b - 1 then set_active (active b + 1) b else b, polls'))
      | KEY_SELECT => let* e := res_of_option (entries b !! Z.to_nat (active b)) in Ok (Some (key e), (b, polls'))
      | KEY_NONE => choice_loop fuel' b KEY_NONE (snd (bootmenu_char c k esc)) polls'
      end.
Proof.
  intros Hd Hc Hf. destruct (loop_char polls c cs k esc Hc) as (polls' & Hl & Hc' & Hlen). destruct fuel as [|fuel]; [lia|].
  exists fuel, polls'. split_and!; [done|lia|done|]. cbn [choice_loop]. rewrite (proj2 (Z.leb_gt 0 _)) by done. rewrite Hl. cbn [res_bind].
  by destruct (bootmenu_char c k esc) as [[] esc'].
Qed.

Definition marks (b : bootmenu_data) (n a : nat) : Prop := count b = Z.of_nat n /\ active b = Z.of_nat a /\ (a < n)%nat /\ delay b < 0.

Lemma chars_nonempty polls c cs : chars polls = c :: cs -> (0 < length polls)%nat.
Proof. destruct polls; [done|]. cbn. lia. Qed.

(** After some characters the loop is where [r] says, with the rest of the input. *)
Definition reads (polls : list (option Z)) (cs : list Z) (m : res (option (list Z) * (bootmenu_data * list (option Z))))
  (r : nat -> list (option Z) -> res (option (list Z) * (bootmenu_data * list (option Z)))) : Prop :=
  exists fuel' polls', chars polls' = cs /\ (length polls' < fuel')%nat /\ (length polls' < length polls)%nat /\ m = r fuel' polls'.

Section Marked.
Context (b : bootmenu_data) (n a : nat) (Hb : marks b n a).

(** A character that is only a part of a key. *)
Lemma reads_on fuel polls k esc c cs rest r : chars polls = c :: cs -> (length polls < fuel)%nat -> fst (bootmenu_char c k esc) = KEY_NONE ->
  (forall fuel polls, chars polls = cs -> (length polls < fuel)%nat -> reads polls rest (choice_loop fuel b KEY_NONE (snd (bootmenu_char c k esc)) polls) r) ->
  reads polls rest (choice_loop fuel b k esc polls) r.
Proof.
  destruct Hb as (_ & _ & _ & Hd). intros Hc Hf Hk Hr. destruct (choice_char fuel b k esc polls c cs Hd Hc Hf) as (f1 & p1 & H1 & H2 & H3 & H4). rewrite Hk in H4.
  destruct (Hr f1 p1 H1 H2) as (f2 & p2 & G1 & G2 & G3 & G4). exists f2, p2. split_and!; [done|done|lia|congruence].
Qed.

(** The last character of a cursor key. *)
Lemma reads_move (up : bool) fuel polls c cs esc : chars polls = c :: cs -> (length polls < fuel)%nat ->
  bootmenu_char c KEY_NONE esc = (if up then KEY_UP else KEY_DOWN, 0) ->
  reads polls cs (choice_loop fuel b KEY_NONE esc polls)
    (fun _ polls => Ok (None, (set_active (Z.of_nat (step_to n (if up then MUp else MDown) a)) b, polls))).
Proof.
  destruct Hb as (Hcnt & Hact & Ha & Hd). intros Hc Hf Hk.
  destruct (choice_char fuel b KEY_NONE esc polls c cs Hd Hc Hf) as (f & p & H1 & H2 & H3 & ->). exists f, p. split_and!; [done..|].
  assert (set_active (active b) b = b) as Hsame by (by destruct b). rewrite Hk. destruct up; cbn [fst step_to]; do 3 f_equal.
  - rewrite Hact in *. destruct (Z.ltb_spec 0 (Z.of_nat a)); [f_equal; lia|]. rewrite <- Hsame at 1. f_equal. lia.
  - rewrite Hact, Hcnt in *. destruct (Z.ltb_spec (Z.of_nat a) (Z.of_nat n - 1)), (Nat.ltb_spec (S a) n); try lia; [f_equal; lia|by rewrite Hsame].
Qed.

Lemma reads_arrow (up : bool) fuel polls code cs : code ∈ menu_codes (if up then MUp else MDown) -> chars polls = code ++ cs -> (length polls < fuel)%nat ->
  reads polls cs (choice_loop fuel b KEY_NONE 0 polls)
    (fun _ polls => Ok (None, (set_active (Z.of_nat (step_to n (if up then MUp else MDown) a)) b, polls))).
Proof.
  intros Hcode Hc Hf.
  assert (exists x, bootmenu_char x KEY_NONE 2 = (if up then KEY_UP else KEY_DOWN, 0) /\ bootmenu_char x KEY_NONE 3 = (if up then KEY_UP else KEY_DOWN, 0) /\
    (code = [ESC; 0x5B; x] \/ code = [ESC; 0x5B; 0x31; x])) as (x & H2 & H3 & Hx).
  { exists (if up then 0x41 else 0x42). destruct up; cbn [menu_codes] in Hcode; rewrite !elem_of_cons, elem_of_nil in Hcode; destruct Hcode as [->|[->|[]]]; (split_and!; [done|done|]); first [by left|by right]. }
  destruct Hx as [->| ->]; cbn [app] in Hc; (eapply reads_on; [exact Hc|done|done|]); clear fuel polls Hc Hf; intros fuel polls Hc Hf;
    (eapply reads_on; [exact Hc|done|done|]); clear fuel polls Hc Hf; intros fuel polls Hc Hf.
  - by eapply reads_move.
  - eapply reads_on; [exact Hc|done|done|]. clear fuel polls Hc Hf. intros fuel polls Hc Hf. by eapply reads_move.
Qed.

Lemma reads_other fuel polls c cs rest r : c <> ESC -> c <> CR -> chars polls = c :: cs -> (length polls < fuel)%nat ->
  (forall fuel polls, chars polls = cs -> (length polls < fuel)%nat -> reads polls rest (choice_loop fuel b KEY_NONE 0 polls) r) ->
  reads polls rest (choice_loop fuel b KEY_NONE 0 polls) r.
Proof.
  intros H1 H2 Hc Hf Hr. assert (bootmenu_char c KEY_NONE 0 = (KEY_NONE, 0)) as E by (unfold bootmenu_char; cbn [Z.eqb]; by rewrite !(proj2 (Z.eqb_neq c _))).
  eapply reads_on; [exact Hc|done|by rewrite E|]. by rewrite E.
Qed.

Lemma reads_enter fuel polls cs e : chars polls = CR :: cs -> (length polls < fuel)%nat -> entries b !! a = Some e ->
  reads polls cs (choice_loop fuel b KEY_NONE 0 polls) (fun _ polls => Ok (Some (key e), (b, polls))).
Proof.
  destruct Hb as (Hcnt & Hact & Ha & Hd). intros Hc Hf He.
  destruct (choice_char fuel b KEY_NONE 0 polls CR cs Hd Hc Hf) as (f & p & H1 & H2 & H3 & ->). exists f, p. split_and!; [done..|].
  cbn [bootmenu_char fst Z.eqb Pos.eqb ESC CR]. by rewrite Hact, Nat2Z.id, He.
Qed.
End Marked.

Lemma set_active_marks b n a a' : marks b n a -> (a' < n)%nat -> marks (set_active (Z.of_nat a') b) n a'.
Proof. by intros (? & ? & ? & ?). Qed.
Lemma step_to_lt n k a : (a < n)%nat -> (step_to n k a < n)%nat.
Proof. intros H. destruct k; cbn [step_to]; [lia| |done]. destruct (Nat.ltb_spec (S a) n); lia. Qed.

(** ** Choosing *)

(** The menu the entries give, and how they are found by their keys. *)
Definition listed (l : list bootmenu_entry) : list (list Z * bootmenu_entry) := map (fun e => (key e, e)) l.

Definition keyed (l : list bootmenu_entry) : Prop := forall i e, l !! i = Some e -> key e = cstr (pretty (Z.of_nat i)).

Lemma number_keys : forallb (fun i => forallb (fun j => Bool.eqb (streq (cstr (pretty (Z.of_nat i))) (cstr (pretty (Z.of_nat j)))) (i =? j)%nat) (seq 0 100)) (seq 0 100) = true.
Proof. vm_compute. reflexivity. Qed.

Lemma number_streq i j : (i < 100)%nat -> (j < 100)%nat -> streq (cstr (pretty (Z.of_nat i))) (cstr (pretty (Z.of_nat j))) = (i =? j)%nat.
Proof.
  intros Hi Hj. pose proof number_keys as H. rewrite forallb_forall in H. specialize (H i ltac:(apply in_seq; lia)). cbv beta in H.
  rewrite forallb_forall in H. specialize (H j ltac:(apply in_seq; lia)). by apply eqb_prop in H.
Qed.

Lemma by_key l a e : keyed l -> (length l <= 100)%nat -> l !! a = Some e -> menu_item_by_key (listed l) (key e) = Some e.
Proof.
  intros Hk Hl Ha. rewrite (Hk a e Ha).
  enough (forall m s, (s <= a)%nat -> drop s l = m -> menu_item_by_key (listed m) (cstr (pretty (Z.of_nat a))) = Some e) as H by (by apply (H l 0%nat); [lia|]).
  pose proof (lookup_lt_Some _ _ _ Ha) as Hal.
  induction m as [|x m IH]; intros s Hs Hd.
  { apply (f_equal length) in Hd. rewrite length_drop in Hd. cbn in Hd. lia. }
  assert (l !! s = Some x) as Hx by (rewrite <- (Nat.add_0_r s), <- lookup_drop, Hd; done).
  cbn [listed map menu_item_by_key]. rewrite (Hk s x Hx), number_streq by lia. destruct (Nat.eqb_spec s a) as [->|Hne]; [congruence|].
  apply (IH (S s)); [lia|]. replace (S s) with (s + 1)%nat by lia. by rewrite <- drop_drop, Hd.
Qed.

(** A round of the menu, from the loop over the characters on. *)
Definition round (f : nat) (m : menu bootmenu_entry) (c : res (option (list Z) * (bootmenu_data * list (option Z)))) : res (Z * option bootmenu_entry * (bootmenu_data * list (option Z))) :=
  let* (k, s) := c in
  match k ≫= menu_item_by_key (items m) with
  | Some d => Ok (1, Some d, s)
  | None => menu_interactive_choice (Some bootmenu_choice_entry) (fun _ _ => Hang) f (no_timeout m) s
  end.

(** With the delay over, the keys lead to the entry that is marked. *)
Lemma choose_with_keys ks : forall f fc (m : menu bootmenu_entry) b n a polls more e,
  marks b n a -> items m = listed (entries b) -> keyed (entries b) -> length (entries b) = n -> (n <= 100)%nat ->
  Forall (fun x => snd x ∈ menu_codes (fst x)) ks -> chars polls = concat (map snd ks) ++ CR :: more ->
  (length polls <= f)%nat -> (length polls < fc)%nat -> entries b !! steps_to n (map fst ks) a = Some e ->
  exists b' polls', round f m (choice_loop fc b KEY_NONE 0 polls) = Ok (1, Some e, (b', polls')) /\ chars polls' = more.
Proof.
  induction ks as [|[k code] ks IH]; intros f fc m b n a polls more e Hb Hm Hk Hn Hl Hks Hc Hf Hfc He.
  { destruct (reads_enter b n a Hb fc polls more e Hc Hfc He) as (f' & p' & H1 & _ & _ & ->). exists b, p'. split; [|done].
    unfold round. cbn [res_bind mbind option_bind]. rewrite Hm, (by_key _ a) by done || lia. done. }
  apply Forall_cons in Hks as [Hcode Hks]. cbn [map concat fst snd] in *. rewrite <- app_assoc in Hc.
  assert (forall up : bool, k = (if up then MUp else MDown) -> exists b' polls', round f m (choice_loop fc b KEY_NONE 0 polls) = Ok (1, Some e, (b', polls')) /\ chars polls' = more) as Harrow.
  { intros up ->. destruct (reads_arrow b n a Hb up fc polls code _ Hcode Hc Hfc) as (f1 & p1 & C1 & _ & L1 & ->).
    unfold round at 1. cbn [res_bind mbind option_bind]. destruct f as [|f]; [lia|]. cbn [menu_interactive_choice].
    fold (round f (no_timeout m) (bootmenu_choice_entry (set_active (Z.of_nat (step_to n (if up then MUp else MDown) a)) b, p1))).
    cbn [bootmenu_choice_entry]. pose proof (step_to_lt n (if up then MUp else MDown) a) as Hlt. destruct Hb as (? & ? & Ha & ?).
    eapply IH; [apply (set_active_marks b n a); [done|by apply Hlt]|done..|lia|lia|done]. }
  destruct k as [| |c]; [by apply (Harrow true)|by apply (Harrow false)|].
  cbn [menu_codes] in Hcode. destruct ((c =? ESC) || (c =? CR)) eqn:E; [by apply not_elem_of_nil in Hcode|]. apply list_elem_of_singleton in Hcode as ->.
  apply orb_false_iff in E as [E1 E2].
  assert (bootmenu_char c KEY_NONE 0 = (KEY_NONE, 0)) as Ec by (unfold bootmenu_char; cbn [Z.eqb]; by rewrite E1, E2).
  destruct (choice_char fc b KEY_NONE 0 polls c _ ltac:(by destruct Hb as (_ & _ & _ & ?)) Hc Hfc) as (f1 & p1 & C1 & L1 & L2 & ->). rewrite Ec. cbn [fst snd].
  eapply IH; [done..|lia|done|done].
Qed.

(** ** The delay *)

Lemma set_delay_same b : set_delay (delay b) b = b.
Proof. by destruct b. Qed.

(** Looks without a character. *)
Lemma autoboot_idle k ps : forall i b, (i < 100)%nat -> Z.of_nat i + Z.of_nat k < 100 * delay b ->
  autoboot_loop (replicate k None ++ ps) i b = autoboot_loop ps ((i + k) mod 100) (set_delay (delay b - (Z.of_nat i + Z.of_nat k) / 100) b).
Proof.
  induction k as [|k IH]; intros i b Hi Hd.
  { cbn [replicate app]. rewrite Nat.add_0_r, Nat.mod_small by done. rewrite Z.div_small by lia. by rewrite Z.sub_0_r, set_delay_same. }
  cbn [replicate app autoboot_loop]. destruct (Nat.ltb_spec (S i) 100) as [Hlt|Hge].
  - rewrite IH by lia. f_equal; [f_equal; lia|]. f_equal. do 2 f_equal. lia.
  - assert (i = 99)%nat as -> by lia. cbn [delay set_delay]. rewrite (proj2 (Z.ltb_lt 0 _)) by lia. rewrite IH by (cbn [delay set_delay]; lia).
    cbn [delay set_delay]. f_equal.
    + replace (99 + S k)%nat with (k + 1 * 100)%nat by lia. by rewrite Nat.Div0.mod_add.
    + replace (Z.of_nat 99 + Z.of_nat (S k)) with (Z.of_nat k + 1 * 100) by lia. rewrite Z.div_add by lia. change (Z.of_nat 0) with 0. rewrite Z.add_0_l.
      unfold set_delay. cbn [delay active count entries]. f_equal. lia.
Qed.

(** The first character ends the delay; from there on it is as if there had been none. *)
Lemma choice_first fuel b k c ps : 0 < delay b -> Z.of_nat k < 100 * delay b ->
  choice_loop (S fuel) b KEY_NONE 0 (replicate k None ++ Some c :: ps) = choice_loop (S fuel) (set_delay (-1) b) KEY_NONE 0 (Some c :: ps).
Proof.
  intros Hd Hk. cbn [choice_loop]. rewrite (proj2 (Z.leb_le 0 (delay b))) by lia. unfold bootmenu_autoboot_loop. rewrite (proj2 (Z.ltb_lt 0 (delay b))) by lia.
  rewrite autoboot_idle by lia. cbn [autoboot_loop]. change (delay (set_delay (-1) b)) with (-1). cbn [Z.leb Z.compare bootmenu_loop].
  change (set_delay (-1) (set_delay (delay b - (Z.of_nat 0 + Z.of_nat k) / 100) b)) with (set_delay (-1) b).
  unfold bootmenu_char. cbn [Z.eqb]. destruct (Z.eqb_spec c ESC) as [->|]; [done|]. by destruct (c =? CR).
Qed.

(** Nobody touches the keyboard. *)
Lemma choice_silent fuel b ps : 0 < delay b ->
  choice_loop (S fuel) b KEY_NONE 0 (replicate (Z.to_nat (100 * delay b)) None ++ ps) =
    let* e := res_of_option (entries b !! Z.to_nat (active b)) in Ok (Some (key e), (set_delay 0 b, ps)).
Proof.
  intros Hd. cbn [choice_loop]. rewrite (proj2 (Z.leb_le 0 (delay b))) by lia. unfold bootmenu_autoboot_loop. rewrite (proj2 (Z.ltb_lt 0 (delay b))) by lia.
  replace (Z.to_nat (100 * delay b)) with (Z.to_nat (100 * delay b) - 1 + 1)%nat by lia. rewrite replicate_add, <- app_assoc, autoboot_idle by lia.
  replace ((0 + (Z.to_nat (100 * delay b) - 1)) mod 100)%nat with 99%nat.
  2:{ replace (0 + (Z.to_nat (100 * delay b) - 1))%nat with (99 + (Z.to_nat (delay b) - 1) * 100)%nat by lia. by rewrite Nat.Div0.mod_add. }
  replace ((Z.of_nat 0 + Z.of_nat (Z.to_nat (100 * delay b) - 1)) / 100) with (delay b - 1).
  2:{ replace (Z.of_nat 0 + Z.of_nat (Z.to_nat (100 * delay b) - 1)) with (99 + (delay b - 1) * 100) by lia. rewrite Z.div_add by lia. by rewrite Z.div_small by lia. }
  cbn [replicate app autoboot_loop Nat.ltb Nat.leb]. cbn [delay set_delay]. replace (delay b - (delay b - 1) - 1) with 0 by lia. done.
Qed.

(** ** The whole menu *)

Section Show.
Context {W : Type} (malloc_ok : Z -> bool) (getenv : list Z -> W -> option (list Z)) (run_command : list Z -> W -> res (Z * W)).
Context (Hmalloc : forall s, malloc_ok s = true).

Definition option_name (i : nat) : list Z := cstr "bootmenu_" ++ cstr (pretty (Z.of_nat i)).

(** The variables hold these titles and commands, and no more. *)
Record has_options (w : W) (opts : list (list Z * list Z)) : Prop := {
  ho_max : (length opts <= 98)%nat;
  ho_set : forall i t c, opts !! i = Some (t, c) -> (0x3D ∉ t) /\ getenv (option_name i) w = Some (t ++ 0x3D :: c);
  ho_end : (length opts < 98)%nat -> getenv (option_name (length opts)) w = None
}.

Definition entry_of (i : nat) (o : list Z * list Z) : bootmenu_entry :=
  {| num := Z.of_nat i; key := cstr (pretty (Z.of_nat i)); title := fst o; command := snd o |}.
Definition menu_of (opts : list (list Z * list Z)) : list bootmenu_entry := imap entry_of (opts ++ [(cstr "U-Boot console", [])]).

Lemma split_option_ok t c : 0x3D ∉ t -> split_option (t ++ 0x3D :: c) = Some (t, c).
Proof.
  induction t as [|x t IH]; intros H; [done|]. apply not_elem_of_cons in H as [Hx H]. cbn. rewrite (proj2 (Z.eqb_neq x _)) by done. by rewrite IH.
Qed.

Lemma new_entry_ok i t c : new_entry malloc_ok (Z.of_nat i) t c = Some (entry_of i (t, c)).
Proof. unfold new_entry. by rewrite !Hmalloc. Qed.

Lemma create_loop_ok w opts rest : forall seen acc, has_options w opts -> opts = seen ++ rest ->
  create_loop malloc_ok getenv (98 - length seen) (Z.of_nat (length seen)) w acc = Some (acc ++ imap (fun i => entry_of (length seen + i)) rest).
Proof.
  induction rest as [|[t c] rest IH]; intros seen acc H E; pose proof (ho_max _ _ H) as Hm; rewrite E, length_app in Hm.
  - rewrite app_nil_r in E. subst seen. cbn [imap]. rewrite app_nil_r. destruct (98 - length opts)%nat eqn:El; [done|]. cbn [create_loop].
    unfold bootmenu_getoption, MAX_COUNT. rewrite (proj2 (Z.ltb_ge 99 _)) by lia. pose proof (ho_end _ _ H ltac:(lia)) as He. unfold option_name in He. by rewrite He.
  - cbn [length] in Hm. replace (98 - length seen)%nat with (S (98 - length (seen ++ [(t, c)]))) by (rewrite length_app; cbn; lia). cbn [create_loop].
    destruct (ho_set _ _ H (length seen) t c) as [Ht Hg]; [subst opts; by rewrite lookup_app_r, Nat.sub_diag by lia|].
    unfold bootmenu_getoption, MAX_COUNT. rewrite (proj2 (Z.ltb_ge 99 _)) by lia. unfold option_name in Hg. rewrite Hg. cbn [mbind option_bind].
    rewrite split_option_ok, new_entry_ok by done. replace (Z.of_nat (length seen) + 1) with (Z.of_nat (length (seen ++ [(t, c)]))) by (rewrite length_app; cbn; lia).
    rewrite (IH (seen ++ [(t, c)])); [|done|by rewrite <- app_assoc]. rewrite <- app_assoc. cbn [imap app]. do 3 f_equal; [by rewrite Nat.add_0_r|].
    apply imap_ext. intros i x _. unfold compose. rewrite length_app. cbn. f_equal. lia.
Qed.

Lemma bootmenu_create_ok d w opts : has_options w opts ->
  bootmenu_create malloc_ok getenv d w = Some {| delay := d; active := 0; count := Z.of_nat (S (length opts)); entries := menu_of opts |}.
Proof.
  intros H. unfold bootmenu_create. rewrite Hmalloc. cbn [negb].
  assert (create_loop malloc_ok getenv (Z.to_nat (MAX_COUNT - 1)) 0 w [] = Some (imap entry_of opts)) as -> by exact (create_loop_ok w opts opts [] [] H eq_refl).
  rewrite length_imap. pose proof (ho_max _ _ H).
  rewrite (proj2 (Z.leb_le (Z.of_nat (length opts)) (MAX_COUNT - 1))) by (unfold MAX_COUNT; lia). rewrite new_entry_ok.
  do 2 f_equal; [lia|]. unfold menu_of. rewrite imap_app. cbn [imap]. unfold compose. by rewrite Nat.add_0_r.
Qed.

Lemma menu_of_keyed opts : keyed (menu_of opts).
Proof. intros i e He. unfold menu_of in He. rewrite list_lookup_imap in He. apply fmap_Some in He as (o & _ & ->). done. Qed.

(** Every entry gets an item of its own. *)
Lemma add_items_ok l : forall pre m, keyed (pre ++ l) -> (length (pre ++ l) <= 100)%nat -> items m = listed pre ->
  exists m', add_items malloc_ok l m = Some m' /\ items m' = listed (pre ++ l) /\ prompt m' = prompt m.
Proof.
  induction l as [|e l IH]; intros pre m Hk Hl Hm; [exists m; by rewrite app_nil_r|]. cbn [add_items].
  assert (key e = cstr (pretty (Z.of_nat (length pre)))) as He by (apply (Hk (length pre)); by rewrite lookup_app_r, Nat.sub_diag by lia).
  assert (menu_item_by_key (items m) (key e) = None) as Hnone.
  { rewrite Hm, He. rewrite length_app in Hl. cbn [length] in Hl.
    enough (forall q s, drop s pre = q -> menu_item_by_key (listed q) (cstr (pretty (Z.of_nat (length pre)))) = None) as H by (by apply (H pre 0%nat)).
    induction q as [|x q IHq]; intros s Hd; [done|]. pose proof (f_equal length Hd) as Hq. rewrite length_drop in Hq. cbn [length] in Hq.
    assert (pre !! s = Some x) as Hx by (rewrite <- (Nat.add_0_r s), <- lookup_drop, Hd; done).
    cbn [listed map menu_item_by_key]. rewrite (Hk s x) by (rewrite lookup_app_l by lia; done). rewrite number_streq by lia.
    rewrite (proj2 (Nat.eqb_neq s (length pre))) by lia. apply (IHq (S s)). replace (S s) with (s + 1)%nat by lia. by rewrite <- drop_drop, Hd. }
  unfold menu_item_add. rewrite Hnone, !Hmalloc. cbn [negb Z.eqb].
  destruct (IH (pre ++ [e]) (set_items (items m ++ [(key e, e)]) m)) as (m' & -> & Hi & Hp); [by rewrite <- app_assoc|by rewrite <- app_assoc|cbn; by rewrite Hm; unfold listed; rewrite map_app|].
  exists m'. rewrite <- app_assoc in Hi. done.
Qed.

(** Up to the choice. *)
Lemma show_menu d polls w opts : has_options w opts -> d <> 0 ->
  exists m, items m = listed (menu_of opts) /\
    bootmenu_show malloc_ok getenv run_command d polls w =
      let* (r, choice, (_, polls)) :=
        round (length polls) m (bootmenu_choice_entry ({| delay := d; active := 0; count := Z.of_nat (S (length opts)); entries := menu_of opts |}, polls)) in
      if negb (r =? 0) then let* e := res_of_option choice in let* (_, w) := run_command (command e) w in Ok (w, polls) else Ok (w, polls).
Proof.
  intros H Hd. unfold bootmenu_show. rewrite (proj2 (Z.eqb_neq d 0)) by done. rewrite (bootmenu_create_ok d w opts H). cbn [entries delay].
  unfold menu_create. rewrite Hmalloc. pose proof (ho_max _ _ H) as Hm.
  destruct (add_items_ok (menu_of opts) [] {| default_item := None; timeout := d; prompt := 1; items := [] |}) as (m & -> & Hi & Hp);
    [apply menu_of_keyed|cbn; unfold menu_of; rewrite length_imap, length_app; cbn; lia|done|]. change (items m = listed (menu_of opts)) in Hi. change (prompt m = 1) in Hp.
  set (m1 := snd (menu_default_set m (cstr "0"))). assert (items m1 = items m /\ prompt m1 = prompt m) as [Hi1 Hp1] by (subst m1; unfold menu_default_set; by case_match).
  exists m1. split; [congruence|]. unfold menu_get_choice. rewrite Hp1, Hp. cbn [Z.eqb menu_interactive_choice]. fold m1.
  fold (round (length polls) m1 (bootmenu_choice_entry ({| delay := d; active := 0; count := Z.of_nat (S (length opts)); entries := menu_of opts |}, polls))).
  destruct (round _ _ _) as [[[r [e|]] [b p]]| |]; [|done..]. cbn [res_bind]. destruct (negb (r =? 0)); [|done]. cbn [res_of_option res_bind]. by rewrite !Hmalloc.
Qed.

Lemma menu_command opts i e : menu_of opts !! i = Some e -> command e = nth i (map snd opts ++ [[]]) [].
Proof.
  unfold menu_of. rewrite list_lookup_imap. intros (o & Ho & ->)%fmap_Some. cbn. symmetry. apply nth_lookup_Some.
  change [[]] with (map (@snd (list Z) (list Z)) [(cstr "U-Boot console", [])]). rewrite <- map_app. by rewrite list_lookup_fmap, Ho.
Qed.
End Show.

Lemma steps_to_lt n ks : forall a, (a < n)%nat -> (steps_to n ks a < n)%nat.
Proof. induction ks as [|k ks IH]; intros a H; [done|]. cbn. apply IH. by apply step_to_lt. Qed.

(** When the delay counts, the first character comes before its end. *)
Definition in_time (d : Z) (polls : list (option Z)) : Prop :=
  d < 0 \/ 0 < d /\ exists k c ps, polls = replicate k None ++ Some c :: ps /\ Z.of_nat k < 100 * d.

(** C15: the boot menu runs the entry the user has moved to.  The entries are those of the variables, with the console as the last one.  The user touches the
    keyboard before the delay is over, or there is none; then come cursor keys in either encoding and other characters, with any pauses
    between and within them, and Enter.  The command that is run is that of the entry reached by moving up and down within the menu. *)
Theorem bootmenu_runs_choice {W} malloc_ok getenv (run_command : list Z -> W -> res (Z * W)) d polls w opts ks more :
  (forall s, malloc_ok s = true) -> has_options getenv w opts -> in_time d polls ->
  Forall (fun x => snd x ∈ menu_codes (fst x)) ks -> chars polls = concat (map snd ks) ++ CR :: more ->
  let chosen := nth (steps_to (S (length opts)) (map fst ks) 0) (map snd opts ++ [[]]) [] in
  exists polls', chars polls' = more /\
    bootmenu_show malloc_ok getenv run_command d polls w = let* (_, w) := run_command chosen w in Ok (w, polls').
Proof.
  intros Hm Ho Ht Hks Hc chosen. assert (d <> 0) as Hd by (destruct Ht as [?|[? _]]; lia).
  destruct (show_menu malloc_ok getenv run_command Hm d polls w opts Ho Hd) as (m & Hi & ->).
  set (n := S (length opts)) in *. pose proof (steps_to_lt n (map fst ks) 0 ltac:(subst n; lia)) as Hlt. pose proof (ho_max _ _ _ Ho) as Hmax.
  assert (length (menu_of opts) = n) as Hn by (unfold menu_of; rewrite length_imap, length_app; subst n; cbn; lia).
  destruct (lookup_lt_is_Some_2 (menu_of opts) (steps_to n (map fst ks) 0)) as [e He]; [lia|].
  set (b := {| delay := d; active := 0; count := Z.of_nat n; entries := menu_of opts |}).
  assert (exists b' polls', round (length polls) m (bootmenu_choice_entry (b, polls)) = Ok (1, Some e, (b', polls')) /\ chars polls' = more) as (b' & polls' & -> & Hp).
  { cbn [bootmenu_choice_entry]. destruct Ht as [Hneg|(Hpos & k & c & ps & -> & Hk)].
    - apply (choose_with_keys ks _ _ m b n 0%nat); [split_and!; [done|done|subst n; lia|done]|exact Hi|apply menu_of_keyed|done|subst n; lia|done|exact Hc|lia|lia|done].
    - rewrite choice_first by done. rewrite length_app in *. cbn [length] in *.
      assert (chars (Some c :: ps) = concat (map snd ks) ++ CR :: more) as Hc'.
      { rewrite <- Hc. unfold chars. rewrite omap_app. clear. induction k; [done|]. cbn in *. done. }
      apply (choose_with_keys ks _ _ m (set_delay (-1) b) n 0%nat); [split_and!; [done|done|subst n; lia|done]|exact Hi|apply menu_of_keyed|done|subst n; lia|done|exact Hc'|cbn; lia|cbn; lia|done]. }
  exists polls'. split; [done|]. cbn [res_bind Z.eqb negb res_of_option]. by rewrite (menu_command opts _ e He).
Qed.

(** Without a key the first entry is run.  When nobody touches the keyboard for the delay, a hundred looks of ten milliseconds for each second,
    the command of bootmenu_0 is run, or of the console if there is none; not a look earlier. *)
Theorem bootmenu_times_out {W} malloc_ok getenv (run_command : list Z -> W -> res (Z * W)) d ps w opts :
  (forall s, malloc_ok s = true) -> has_options getenv w opts -> 0 < d ->
  bootmenu_show malloc_ok getenv run_command d (replicate (Z.to_nat (100 * d)) None ++ ps) w =
    (let* (_, w) := run_command (nth 0 (map snd opts ++ [[]]) []) w in Ok (w, ps)) /\
  forall k, Z.of_nat k < 100 * d -> bootmenu_show malloc_ok getenv run_command d (replicate k None) w = Hang.
Proof.
  intros Hm Ho Hd. assert (d <> 0) as Hd' by lia. pose proof (ho_max _ _ _ Ho) as Hmax. split.
  - set (polls := replicate _ _ ++ ps). destruct (show_menu malloc_ok getenv run_command Hm d polls w opts Ho Hd') as (m & Hi & ->).
    destruct (lookup_lt_is_Some_2 (menu_of opts) 0) as [e He]; [unfold menu_of; rewrite length_imap, length_app; cbn; lia|].
    cbn [bootmenu_choice_entry]. subst polls. rewrite (choice_silent _ {| delay := d; active := 0; count := Z.of_nat (S (length opts)); entries := menu_of opts |}) by done.
    cbn [entries active]. change (Z.to_nat 0) with 0%nat. rewrite He. cbn [res_of_option res_bind].
    unfold round. cbn [res_bind mbind option_bind]. rewrite Hi, (by_key (menu_of opts) 0 e); [|apply menu_of_keyed|unfold menu_of; rewrite length_imap, length_app; cbn; lia|done].
    cbn [res_bind Z.eqb negb res_of_option]. by rewrite (menu_command opts 0 e He).
  - intros k Hk. destruct (show_menu malloc_ok getenv run_command Hm d (replicate k None) w opts Ho Hd') as (m & Hi & ->).
    cbn [bootmenu_choice_entry choice_loop delay]. rewrite (proj2 (Z.leb_le 0 d)) by lia. unfold bootmenu_autoboot_loop. cbn [delay]. rewrite (proj2 (Z.ltb_lt 0 d)) by lia.
    rewrite <- (app_nil_r (replicate k None)), autoboot_idle by (cbn; lia). done.
Qed.

(** Two entries; the second is chosen with one cursor key after half a second. *)
Definition two_options (x : list Z) (_ : list Z) : option (list Z) :=
  if bool_decide (x = option_name 0) then Some (cstr "Linux=run ubifsboot") else if bool_decide (x = option_name 1) then Some (cstr "Net=bootp") else None.
Definition opts2 : list (list Z * list Z) := [(cstr "Linux", cstr "run ubifsboot"); (cstr "Net", cstr "bootp")].
Definition down_enter : list (option Z) := replicate 50 None ++ [Some ESC; None; Some 0x5B; Some 0x42; None; Some CR].

Lemma two_options_ok : has_options two_options [] opts2.
Proof.
  constructor.
  - apply Nat.leb_le. reflexivity.
  - intros [|[|i]] t c H; [| |done]; injection H as <- <-; (split; [apply (bool_decide_unpack _); vm_compute; exact I|vm_compute; reflexivity]).
  - intros _. vm_compute. reflexivity.
Qed.

Lemma bootmenu_runs_choice_witness : exists polls', chars polls' = [] /\
  bootmenu_show (fun _ => true) two_options (fun c _ => Ok (0, c)) 3 down_enter [] = Ok (cstr "bootp", polls').
Proof.
  apply (bootmenu_runs_choice (fun _ => true) two_options (fun c _ => Ok (0, c)) 3 down_enter [] opts2 [(MDown, [ESC; 0x5B; 0x42])] []).
  - reflexivity.
  - exact two_options_ok.
  - right. split; [lia|]. exists 50%nat, ESC. eexists. split; [reflexivity|lia].
  - repeat constructor.
  - vm_compute. reflexivity.
Defined.

Lemma bootmenu_times_out_witness :
  bootmenu_show (fun _ => true) two_options (fun c _ => Ok (0, c)) 3 (replicate 300 None) [] = Ok (cstr "run ubifsboot", []) /\
  forall k, Z.of_nat k < 300 -> bootmenu_show (fun _ => true) two_options (fun c _ => Ok (0, c)) 3 (replicate k None) [] = Hang.
Proof.
  pose proof (bootmenu_times_out (fun _ => true) two_options (fun c _ => Ok (0, c)) 3 [] [] opts2 (fun _ => eq_refl) two_options_ok eq_refl) as H.
  exact H.
Defined.
