(* ===== verification/Autoboot.v ===== *)
(** * Stopping the automatic boot ([common/main.c])

    A round of the waiting loop is what the console shows, a character or none, and the clock read after it. *)
From S2P Require Import Prelude Ctype Hashtable Vsprintf Env Command Bootmenu.

Definition MAX_DELAY_STOP_STR : nat := 32.

(** ** Key strings *)

(** The strings of the four variables, cut to the size of the buffer; a variable that is not set counts as empty. *)
Definition delaykey (s : option (list Z)) : list Z := match s with Some s => take MAX_DELAY_STOP_STR s | None => [] end.
Definition presskey_max (keys : list (list Z)) : nat := foldr Nat.max 0%nat (map length keys).

(** [presskey] is its used part; the loop that shifts it runs to [presskey_max - 1], which is unsigned. *)
Definition press (max : nat) (c : Z) (presskey : list Z) : res (list Z) :=
  if (length presskey <? max)%nat then Ok (presskey ++ [c])
  else match max with O => Ub | _ => Ok (tail presskey ++ [c]) end.

Definition key_pressed (presskey k : list Z) : bool :=
  (0 <? length k)%nat && (length k <=? length presskey)%nat && bool_decide (drop (length presskey - length k) presskey = k).

Fixpoint keyed_loop (keys : list (list Z)) (etime : Z) (rounds : list (option Z * Z)) (presskey : list Z) : res (Z * list (option Z * Z)) :=
  match rounds with
  | [] => Hang
  | (c, t) :: rounds =>
    let* presskey := (match c with Some c => press (presskey_max keys) c presskey | None => Ok presskey end) in
    if existsb (key_pressed presskey) keys then Ok (1, rounds)
    else if t <=? etime then keyed_loop keys etime rounds presskey else Ok (0, rounds)
  end.

Definition abortboot_keyed (env : list (option (list Z))) (bootdelay now tbclk : Z) (rounds : list (option Z * Z)) : res (Z * list (option Z * Z)) :=
  keyed_loop (map delaykey env) (u64 (now + bootdelay * tbclk)) rounds [].

(** ** Any key *)

(** A second of waiting after the other; the clock is the time since the second began. *)
Fixpoint normal_loop (rounds : list (option Z * Z)) (bootdelay : Z) : res (Z * list (option Z * Z)) :=
  match rounds with
  | [] => Hang
  | (Some _, _) :: rounds => Ok (1, rounds)
  | (None, t) :: rounds =>
    if t <? 1000 then normal_loop rounds bootdelay
    else if 0 <? bootdelay then normal_loop rounds (bootdelay - 1) else Ok (0, rounds)
  end.
Definition abortboot_normal (bootdelay : Z) (rounds : list (option Z * Z)) : res (Z * list (option Z * Z)) :=
  if bootdelay <? 0 then Ok (0, rounds)
  else match rounds with
  | [] => Hang
  | (Some _, _) :: rounds => Ok (1, rounds)
  | (None, _) :: rounds => if 0 <? bootdelay then normal_loop rounds (bootdelay - 1) else Ok (0, rounds)
  end.

(** ** The boot delay *)

Section Delay.
Context {W : Type} (getenv : list Z -> W -> option (list Z)) (run_command_list : list Z -> W -> res (Z * W)).
(** The menu, if one is configured, and the question whether to stop. *)
Context (menu_show : option (Z -> W -> res (Z * W))) (abortboot : Z -> W -> res (Z * W)) (disable_ctrlc : Z -> W -> Z * W).

Definition process_boot_delay (w : W) : res W :=
  let bootdelay := match getenv (cstr "bootdelay") w with Some s => s32 (fst (simple_strtol s 10)) | None => CONFIG_BOOTDELAY end in
  let* (bootdelay, w) := (match menu_show with Some show => show bootdelay w | None => Ok (bootdelay, w) end) in
  match getenv (cstr "bootcmd") w with
  | Some s =>
    if bootdelay =? -1 then Ok w
    else
      let* (stop, w) := abortboot bootdelay w in
      if stop =? 0 then
        let '(prev, w) := disable_ctrlc 1 w in
        let* (_, w) := run_command_list s w in
        Ok (snd (disable_ctrlc prev w))
      else Ok w
  | None => Ok w
  end.
End Delay.

(** ** Properties *)

(** What has been typed ends with the key. *)
Definition ends_with (typed k : list Z) : bool := bool_decide (k <> [] /\ k `suffix_of` typed).

(** The specification looks at everything that was typed. *)
Fixpoint stop_spec (keys : list (list Z)) (etime : Z) (rounds : list (option Z * Z)) (typed : list Z) : res (Z * list (option Z * Z)) :=
  match rounds with
  | [] => Hang
  | (c, t) :: rounds =>
    let typed := typed ++ match c with Some c => [c] | None => [] end in
    if existsb (ends_with typed) keys then Ok (1, rounds)
    else if t <=? etime then stop_spec keys etime rounds typed else Ok (0, rounds)
  end.

(** The last [n] of the characters. *)
Definition last_of (n : nat) (typed : list Z) : list Z := drop (length typed - n) typed.

Lemma last_of_length n typed : length (last_of n typed) = Nat.min n (length typed).
Proof. unfold last_of. rewrite length_drop. lia. Qed.

Lemma press_window max c typed : (0 < max)%nat -> press max c (last_of max typed) = Ok (last_of max (typed ++ [c])).
Proof.
  intros Hm. unfold press. rewrite last_of_length. unfold last_of. rewrite length_app. cbn [length].
  destruct (Nat.ltb_spec (Nat.min max (length typed)) max) as [H|H].
  - rewrite drop_app_le by lia. do 2 f_equal. f_equal. lia.
  - destruct max as [|max]; [lia|]. rewrite drop_app_le by lia. do 2 f_equal.
    destruct (drop (length typed - S max) typed) as [|x l] eqn:E.
    { apply (f_equal length) in E. rewrite length_drop in E. cbn in E. lia. }
    cbn [tail]. replace (length typed + 1 - S max)%nat with (length typed - S max + 1)%nat by lia. by rewrite <- drop_drop, E.
Qed.

Lemma key_window max typed k : (length k <= max)%nat -> key_pressed (last_of max typed) k = ends_with typed k.
Proof.
  intros Hk. unfold key_pressed, ends_with. rewrite last_of_length. unfold last_of. rewrite drop_drop.
  apply eq_true_iff_eq. rewrite !andb_true_iff, Nat.ltb_lt, Nat.leb_le, !bool_decide_eq_true. split.
  - intros [[H0 Hl] Hd]. split; [by destruct k; [cbn in H0; lia|]|]. exists (take (length typed - length k) typed).
    rewrite <- (take_drop (length typed - length k) typed) at 1. f_equal. rewrite <- Hd at 2. f_equal. lia.
  - intros [Hne [p ->]]. rewrite length_app. split; [split; [destruct k; [done|cbn; lia]|lia]|].
    replace (length p + length k - max + (Nat.min max (length p + length k) - length k))%nat with (length p) by lia. apply drop_app_length.
Qed.

Lemma presskey_max_le keys k : k ∈ keys -> (length k <= presskey_max keys)%nat.
Proof. unfold presskey_max. induction 1; cbn; lia. Qed.

Lemma keyed_loop_spec keys etime rounds : forall typed, (0 < presskey_max keys)%nat ->
  keyed_loop keys etime rounds (last_of (presskey_max keys) typed) = stop_spec keys etime rounds typed.
Proof.
  induction rounds as [|[c t] rounds IH]; intros typed Hm; [done|]. cbn [keyed_loop stop_spec].
  set (typed' := typed ++ match c with Some c => [c] | None => [] end).
  assert ((match c with Some c => press (presskey_max keys) c (last_of (presskey_max keys) typed) | None => Ok (last_of (presskey_max keys) typed) end) = Ok (last_of (presskey_max keys) typed')) as ->.
  { subst typed'. destruct c; [by apply press_window|by rewrite app_nil_r]. }
  cbn [res_bind]. assert (existsb (key_pressed (last_of (presskey_max keys) typed')) keys = existsb (ends_with typed') keys) as ->.
  { assert (forall l, (forall k, k ∈ l -> k ∈ keys) -> existsb (key_pressed (last_of (presskey_max keys) typed')) l = existsb (ends_with typed') l) as H; [|by apply H].
    induction l as [|k l IHl]; intros Hl; [done|]. cbn [existsb]. rewrite key_window by (apply presskey_max_le, Hl; left). rewrite IHl by (intros; apply Hl; by right). done. }
  destruct (existsb _ _); [done|]. destruct (t <=? etime); [by apply IH|done].
Qed.

(** C34: typing one of the strings stops the automatic boot.  The loop keeps only as many characters as the longest string has, and compares their end;
    that is the same as looking whether all that was typed so far ends with one of the strings: the boot is stopped in the first round where it does, and
    goes on in the first round after the delay where it does not. *)
Theorem abortboot_keyed_stops env bootdelay now tbclk rounds :
  Exists (fun k => delaykey k <> []) env ->
  abortboot_keyed env bootdelay now tbclk rounds = stop_spec (map delaykey env) (u64 (now + bootdelay * tbclk)) rounds [].
Proof.
  intros He. unfold abortboot_keyed. rewrite <- keyed_loop_spec; [done|].
  apply Exists_exists in He as (k & Hk & Hne). assert (delaykey k ∈ map delaykey env) as Hin by (by apply list_elem_of_fmap_2).
  pose proof (presskey_max_le _ _ Hin). destruct (delaykey k); [done|cbn in *; lia].
Qed.

Definition stop_keys : list (option (list Z)) := [None; None; Some (cstr "stop"); None].

Lemma abortboot_keyed_stops_witness :
  abortboot_keyed stop_keys 3 0 1000 (map (fun c => (Some c, 5)) (cstr "xstoppy")) = Ok (1, map (fun c => (Some c, 5)) (cstr "py")).
Proof.
  rewrite (abortboot_keyed_stops stop_keys 3 0 1000).
  - vm_compute. reflexivity.
  - right. right. left. discriminate.
Defined.

(** Without a string a key overruns the stack.  When none of the variables is set the first character makes the loop that shifts the buffer
    run to 0 - 1, an unsigned number, past the 32 bytes of the buffer. *)
Theorem abortboot_without_keys_overruns env bootdelay now tbclk c t quiet rounds :
  Forall (fun k => delaykey k = []) env -> Forall (fun r => fst r = None /\ snd r <= u64 (now + bootdelay * tbclk)) quiet ->
  abortboot_keyed env bootdelay now tbclk (quiet ++ (Some c, t) :: rounds) = Ub.
Proof.
  intros He Hq. unfold abortboot_keyed. assert (presskey_max (map delaykey env) = 0%nat) as Hm.
  { unfold presskey_max. induction He as [|k env Hk _ IH]; [done|]. cbn. by rewrite Hk. }
  assert (existsb (key_pressed []) (map delaykey env) = false) as Hk.
  { clear Hm. induction He as [|k env Hk _ IH]; [done|]. cbn [map existsb]. by rewrite Hk, IH. }
  induction Hq as [|[x u] quiet [Hx Hu] _ IH]; cbn [app keyed_loop].
  - by rewrite Hm.
  - cbn in Hx, Hu. subst x. cbn [res_bind]. rewrite Hk. by rewrite (proj2 (Z.leb_le u _)).
Qed.

Lemma abortboot_without_keys_overruns_witness : abortboot_keyed [None; None; None; None] 3 0 1000 [(None, 7); (Some 0x20, 9)] = Ub.
Proof.
  apply (abortboot_without_keys_overruns [None; None; None; None] 3 0 1000 0x20 9 [(None, 7)] []).
  - repeat constructor.
  - repeat constructor. vm_compute. discriminate.
Defined.

(** With the menu of this board the boot command is never run: the menu always returns -1. *)
Lemma bootcmd_not_run {W} (getenv : list Z -> W -> option (list Z)) run show abortboot ctrlc w :
  process_boot_delay getenv run (Some (fun d w => let* w := show d w in Ok (-1, w))) abortboot ctrlc w =
    show (match getenv (cstr "bootdelay") w with Some s => s32 (fst (simple_strtol s 10)) | None => CONFIG_BOOTDELAY end) w.
Proof. unfold process_boot_delay. destruct (show _ w) as [w'| |]; [|done..]. cbn [res_bind]. by destruct (getenv (cstr "bootcmd") w'). Qed.
